(* ===== verification/_CoqProject ===== *)
-Q . S2P
Prelude.v
Bits.v
Mem.v
Bitmap.v
E820.v
Pframe.v
Page.v
Vmm.v
DList.v
Strings.v
StrConv.v
Format.v
Heap.v
Hashmap.v
Cow.v
Sched.v
Process.v
Fork.v
User.v
Block.v
Vfs.v
Path.v
Ext2.v
Volume.v
Mounted.v
Demo.v
Conc.v
Spinlock.v
Sync.v
Ports.v
Desc.v
Irq.v
Ring.v
Drivers.v
Rtc.v
Devices.v
Ata.v
Disk.v
Klog.v
Syscall.v
