(* ===== verification/Prelude.v ===== *)
(** * CCOperatingSystemX64: a verification library of the kernel

    The repository is a teaching operating system for x86-64. Its kernel (in
    [kernel/]) is C: base routines (strings, numbers, lists, bitmaps, hash
    maps), memory management (the BIOS memory map, a physical frame allocator,
    page tables, a virtual memory manager with copy on write, a heap), processes
    and threads with a scheduler of pluggable classes, synchronisation, a virtual
    file system with ext2 on block devices, interrupts, device drivers, system
    calls and a formatter for the log. This library models the parts below and
    proves what makes them correct.

    ** How the code is modelled

    A C function becomes a function with the state it reads and writes passed
    explicitly, in the monad [outcome] of this file: it returns, or it stops in
    [CCOS_ASSERT] ([AssertFail]), or it does something C leaves undefined, such
    as an access outside an object or through a dangling pointer ([Fault]), or it
    waits for a device for ever ([Hang]). A theorem that concludes [f s = Ret s']
    therefore also says that the code neither stops nor leaves its objects.
    [CCOS_DEBUG_ASSERT] stops in a Debug build only; the default build is Release,
    with [NDEBUG]. Where it checks a value ([bitmap.c]) the function takes the build
    as a parameter [ndebug], and [pframe_init] is proved for both builds; the debug
    assertions that a pointer is not NULL ([string.c], [memory.c], [bitmap.c]) are
    left out, as those arguments are objects or addresses of a store here.
    Unsigned integers are [Z] with the wrap-around written out ([u32], [u64],
    [⊞], [⊟]); signed overflow is a [Fault]. Structures reached by pointer are
    records in a store, named by their address; freeing one removes its record.
    Counting loops are [for_range] and [find_loop]; a loop without a counter
    takes fuel, chosen from the state so that it cannot be what ends the loop,
    and its theorems show that a result is returned. Functions that run under one
    lock are one step; where the code drops a lock in the middle ([kfree]) the two
    parts are separate functions, and the synchronisation primitives themselves
    are programs of atomic steps ([Conc]). Code outside the repository - the
    processor, devices - is a class with its documented laws, and an instance
    shows the laws can hold. Messages to the log are left out, except where
    printing is what a function is for ([Klog], [sys_write]).

    ** Base routines

    - [Bits]: [math/bits.h], [math/math.c] and the size helpers of
      [memory_state_helper.c]. Powers of two, alignment, rounding division.
      Theorem: [round_up_to_power_of_2] with its wrap-around above 2^63.
    - [Mem]: [base/memory.c] over a flat byte store. Theorem: [memmove] for every
      overlap.
    - [Bitmap]: [bitmap/bitmap.c]. A bitmap is bytes and a bit count; theorems:
      it refines a function from indices to bits, and [bitmap_weight] counts.
    - [DList]: [list/list.c] and [list.h], over a store of nodes. A ring
      represents a sequence ([is_list]); the operations refine the operations on
      sequences and frame all other nodes.
    - [Strings], [StrConv], [Format]: [base/string.c], [base/strhelpers.c],
      [klogs/private/format.c] and [ksnprintf.c], over the byte store of [Mem].
      Theorems: [strstr] finds the first occurrence, [strtok_r] enumerates the
      fields, printing and parsing a number is the identity, the formatter
      renders a format as its specification says and stays in its buffer.
    - [Hashmap]: [base/hashmap.c]. Hash and equality are the class [HashKey] with
      its laws; theorem: the map refines a function on keys up to equality.

    ** Memory

    - [E820]: [mm/memory_detect/e820.c]. Theorems: decoding of the bootloader's
      table, and the search for the longest usable range.
    - [Pframe]: [mm/pframe/pframe.c], state [pframe_state] (bitmap, total, hint).
      Theorems: which frames are free after [pframe_init]; what allocation and
      release of one or several frames return and change on every branch; the
      round trip; the statistics. Uses [Bitmap] and [E820].
    - [Page]: [mm/vmm/page.c] on physical memory as words, against the walk of
      the processor ([mmu]). Theorems: mapping and unmapping change exactly the
      addressed page, a range is mapped wholly or not at all, the direct map. The
      direct map reaches every managed frame here; [page_init] maps 512 MB.
    - [Vmm]: [mm/vmm/vmm.c]. Theorems: the search for kernel addresses ends with
      the lowest free range above its hint; an allocation is all or nothing; what a new address
      space shares; destroying one gives back exactly its tables. Uses [Page].
    - [Cow]: [mm/vmm/cow.c], [fault.c]. Theorems: the reference counts refine a
      function from frames to counts; what a fault changes. Uses [Hashmap].
    - [Heap]: [mm/heap/heap.c] over a store of words. The invariant says that the
      blocks tile the mapped memory, that the free list holds exactly the free
      blocks in address order, and that no two neighbours are free. Theorems:
      [heap_init], [kmalloc] and [kfree] return, keep the invariant and leave
      used blocks and their contents alone. The pages come from the class
      [PageProvider], what [vmm_alloc_pages_at] promises to the heap.

    ** Processes and synchronisation

    - [Sched]: [process/sched.c], [sched_rr.c], [sched_prio.c] and [schedule] of
      [process.c]. A scheduling class is a record of operations, as in the
      source; the queues are rings of [DList]. Theorems: round robin rotates
      fairly through ticks, selection and dispatch; the priority class keeps its
      256 queues and counters consistent and picks the best level; preemption.
    - [Process], [Fork]: [process/process.c], [thread.c]: the model, and the
      theorems. [proc_fork] is all or nothing, [proc_wait4] reaps the first
      matching dead child. Uses [Sched], [Vmm] and [Bitmap].
    - [Conc], [Spinlock], [Sync]: [sync/]. [Conc] is the setting (programs of
      atomic actions, machines, interleavings, a small invariant logic with
      [wp]); [Spinlock] has the atomic operations and spin locks, [Sync] the
      mutexes, semaphores, reader-writer locks, condition variables and wait
      queues. Theorems: mutual exclusion of spin locks on any number of
      processors, atomicity under [spin_lock_irqsave], exclusion of mutexes and
      reader-writer locks, units of semaphores.

    ** Files

    - [Block]: [fs/block/block.c], over the disk driver as the class [AtaDriver].
    - [Vfs], [Path]: [fs/vfs/]: the model, and the theorems, over any file system
      that satisfies [SuperLaws] and [InodeLaws]. The inode cache refines a map
      to counted shared inodes; path resolution is one lookup per name.
    - [Ext2], [Volume], [Mounted]: [fs/ext2/]: the model; the block map, file
      contents and directories of a volume; the volume as an instance of the
      laws of [Path], with the safety of path resolution on mounted volumes.
    - [Demo]: a small volume on a disk, for the witnesses of these theorems.

    ** Interrupts and devices

    - [Ports]: [driver/io/io.h], [driver/pic/pic.c]. The monad [io], ports as the
      class [PortIO], the 8259 as [PicLaws].
    - [Desc]: [interrupt/idt.c], [gdt.c], [tss.c]: the tables as the processor
      decodes them. [Irq]: registration and dispatch ([idt.c], [interrupt.c],
      [exception.c]) on a [machine]. Theorems: [interrupt_init] routes every
      line to its gate, a registered handler is what the line's interrupt runs.
    - [Ring], [Drivers], [Rtc], [Devices]: keyboard, serial port, timer and clock.
      Theorems: a typing invariant that every operation and interrupt of the four
      drivers preserves in any order whatever the devices answer; the keyboard
      refines a queue; the time of the clock round-trips under [CmosLaws].
    - [Ata], [Disk]: [driver/ata/ata.c], and what the ATA protocol says of a
      channel ([AtaLaws]). Theorems: a programmed read returns the addressed
      sectors, a sector written is read back.

    ** User programs

    - [User]: [user/user.c], on the process state of [Process]: mapping, unmapping
      and growing the memory of a process, and copies to and from user memory
      through the walk of the processor. Theorems: [user_mmap] is all or nothing
      and hands out zeroed pages, [user_munmap] undoes it, what growing the heap
      maps; a copy is read back and writes no other byte.
    - [Klog]: [klogs/kprintf.c], [kprintf_backends.c], the serial backend and its
      colours, on top of [Format] and [Drivers]. Theorems: the registry is a map
      from backends to operations; a message reaches the wire as the rendered
      line, under the laws of a serial port ([UartLaws]).
    - [Syscall]: [syscall/syscall.c], [syscall_table.c] and the entries of
      [syscall.asm], over [Process], [User] and [Klog]. The running system is a
      step relation ([running], and [called] with the numbers called so far).
      Theorems: every number reaches its handler at any time, the statistics are
      those of the calls made after any sequence of calls, the listing
      of the busiest calls is right, [sys_uname] fills its buffer.

    Some theorems show where the code does not do what it means to, for instance
    that the rest of a split heap block can be smaller than its header, that a
    task of the priority class can starve, that a copy-on-write fault never
    changes a translation, that a woken mutex waiter can sleep for ever,
    that an asynchronous disk write never completes, or that every system call
    made with the instruction is dispatched as the same number. The correctness theorems of these
    operations carry the condition under which this does not happen.

    ** Fuel and bounds

    String and format loops: one more than the length of the store, since the
    pointer moves up each turn and a read outside faults. List walks: one more
    than the number of nodes, since a ring visits a node once. Heap list walks:
    one more than the number of mapped words, since the blocks of the list are
    distinct. Number printing: 65 turns, enough for 64 digits in base 2. The
    search for kernel addresses: the number of aligned positions. Path
    resolution: one more than the length of the path, of which each turn consumes
    a character. Directory scans: one more than the block size, since the offset
    grows each turn. File reads: one more than the bytes asked for. Waits for
    devices: the disk driver has time-outs of its own, which are the model's; the
    other waits take a number of polls and end in [Hang] without it, and the
    theorems say how many polls are enough or hold for every number. The programs
    of [Conc] have loops of their own and take no fuel.

    ** Not modelled

    The context switch, the interrupt stubs and the loading of registers are
    assembly; of the assembly only the two entries of system calls are modelled.
    The screen driver, the shell, banners, stack traces, page-table and register
    dumps and the demos are output or drive the parts above; start-up calls the
    initialization functions in order. The dentry cache is not used by path
    resolution. The theorems on disk data are about 28-bit programmed transfers,
    not the asynchronous interface. *)
From stdpp Require Export base gmap list numbers strings.
From Stdlib Require Export ZArith Lia.

#[global] Open Scope Z_scope.

(** ** Outcomes of kernel code

    A C function of the kernel either returns, stops the machine in
    [CCOS_ASSERT]/[panic], or runs into something the C standard leaves
    undefined (an access outside a buffer or through a dangling pointer). *)
Inductive failure :=
  | AssertFail   (* CCOS_ASSERT was violated: panic() halts the machine *)
  | Fault        (* an access outside the memory the object owns *)
  | Hang.        (* a wait for a device that did not end within the polls allowed *)

Inductive outcome (A : Type) :=
  | Ret (a : A)
  | Fail (f : failure).
Arguments Ret {A} a.
Arguments Fail {A} f.

#[export] Instance outcome_ret : MRet outcome := @Ret.
#[export] Instance outcome_bind : MBind outcome :=
  λ A B f m, match m with Ret a => f a | Fail e => Fail e end.
#[export] Instance outcome_fmap : FMap outcome :=
  λ A B f m, match m with Ret a => Ret (f a) | Fail e => Fail e end.
#[export] Instance failure_eq_dec : EqDecision failure.
Proof. solve_decision. Defined.
#[export] Instance outcome_eq_dec `{EqDecision A} : EqDecision (outcome A).
Proof. solve_decision. Defined.

(** [CCOS_ASSERT(b)]. *)
Definition ccos_assert (b : bool) : outcome unit :=
  if b then Ret tt else Fail AssertFail.
(** [CCOS_DEBUG_ASSERT]: checked in a Debug build only ([ndebug] is [NDEBUG]). *)
Definition ccos_debug_assert (ndebug b : bool) : outcome unit := if ndebug then Ret tt else ccos_assert b.

(** An access that the C standard only defines when [o] is [Some]. *)
Definition access {A} (o : option A) : outcome A :=
  match o with Some a => Ret a | None => Fail Fault end.

Lemma outcome_bind_ret {A B} (a : A) (f : A → outcome B) : (Ret a ≫= f) = f a.
Proof. reflexivity. Qed.

Lemma outcome_bind_inv {A B} (m : outcome A) (f : A → outcome B) b :
  m ≫= f = Ret b → ∃ a, m = Ret a ∧ f a = Ret b.
Proof. destruct m; [eauto | done]. Qed.

Lemma access_ret {A} (o : option A) a : access o = Ret a ↔ o = Some a.
Proof. destruct o; naive_solver. Qed.

(** ** Machine integers

    An unsigned value of width [w] is a [Z] in [0, 2^w). Arithmetic wraps;
    the wrapping is written out with [u8], [u32] and [u64]. *)
Definition u8 (x : Z) : Z := x mod 2 ^ 8.
Definition u16 (x : Z) : Z := x mod 2 ^ 16.
Definition u32 (x : Z) : Z := x mod 2 ^ 32.
Definition u64 (x : Z) : Z := x mod 2 ^ 64.

(** Two's complement reading of the low [w] bits. *)
Definition sext (w x : Z) : Z :=
  let y := x mod 2 ^ w in if y <? 2 ^ (w - 1) then y else y - 2 ^ w.
Definition s32 (x : Z) : Z := sext 32 x.
Definition s64 (x : Z) : Z := sext 64 x.
Lemma s32_small x : - 2 ^ 31 ≤ x < 2 ^ 31 → s32 x = x.
Proof.
  intros Hx. unfold s32, sext. change (32 - 1) with 31. destruct (Z.lt_ge_cases x 0).
  - replace (x mod 2 ^ 32) with (x + 2 ^ 32) by (apply Z.mod_unique with (-1); lia).
    destruct (Z.ltb_spec (x + 2 ^ 32) (2 ^ 31)); lia.
  - rewrite Z.mod_small by lia. destruct (Z.ltb_spec x (2 ^ 31)); lia.
Qed.

Definition is_u8 (x : Z) : Prop := 0 ≤ x < 2 ^ 8.
Definition is_u32 (x : Z) : Prop := 0 ≤ x < 2 ^ 32.
Definition is_u64 (x : Z) : Prop := 0 ≤ x < 2 ^ 64.

Declare Scope word_scope.
Delimit Scope word_scope with word.
Notation "x ⊞ y" := (u64 (x + y)) (at level 50, left associativity) : word_scope.
Notation "x ⊟ y" := (u64 (x - y)) (at level 50, left associativity) : word_scope.
Notation "x ⊠ y" := (u64 (x * y)) (at level 40, left associativity) : word_scope.
Notation "'~64' x" := (u64 (Z.lnot x)) (at level 35, right associativity) : word_scope.
#[global] Open Scope word_scope.

#[export] Instance is_u8_dec x : Decision (is_u8 x).
Proof. unfold is_u8. apply _. Defined.
#[export] Instance is_u64_dec x : Decision (is_u64 x).
Proof. unfold is_u64. apply _. Defined.

Create HintDb word.
Create Rewrite HintDb word.

Lemma u64_range x : is_u64 (u64 x).
Proof. apply Z.mod_pos_bound. lia. Qed.
Lemma u32_range x : is_u32 (u32 x).
Proof. apply Z.mod_pos_bound. lia. Qed.
Lemma u8_range x : is_u8 (u8 x).
Proof. apply Z.mod_pos_bound. lia. Qed.
Lemma u64_small x : 0 ≤ x < 2 ^ 64 → u64 x = x.
Proof. apply Z.mod_small. Qed.
Lemma u32_small x : 0 ≤ x < 2 ^ 32 → u32 x = x.
Proof. apply Z.mod_small. Qed.
Lemma u8_small x : 0 ≤ x < 2 ^ 8 → u8 x = x.
Proof. apply Z.mod_small. Qed.
#[export] Hint Resolve u64_range u32_range u8_range : word.
#[export] Hint Rewrite u64_small u32_small u8_small using lia : word.

(** Turns wrapped arithmetic into plain arithmetic where nothing wraps. *)
Ltac unwrap := repeat (rewrite u64_small by lia).
Ltac unwrap_in H := repeat (rewrite u64_small in H by lia).

Lemma u64_land_ones x : u64 x = Z.land x (Z.ones 64).
Proof. rewrite Z.land_ones by lia. reflexivity. Qed.
Lemma u8_land_ones x : u8 x = Z.land x (Z.ones 8).
Proof. rewrite Z.land_ones by lia. reflexivity. Qed.

Lemma u64_testbit x i : 0 ≤ i →
  Z.testbit (u64 x) i = (i <? 64) && Z.testbit x i.
Proof.
  intros Hi. rewrite u64_land_ones, Z.land_spec, Z.testbit_ones_nonneg by lia.
  apply andb_comm.
Qed.
Lemma u8_testbit x i : 0 ≤ i →
  Z.testbit (u8 x) i = (i <? 8) && Z.testbit x i.
Proof.
  intros Hi. rewrite u8_land_ones, Z.land_spec, Z.testbit_ones_nonneg by lia.
  apply andb_comm.
Qed.

(** Bits at or above the width of a value are clear. *)
Lemma testbit_above x n i : 0 ≤ x < 2 ^ n → n ≤ i → Z.testbit x i = false.
Proof.
  intros [H0 Hx] Hi. assert (0 ≤ n) by (destruct (Z.lt_ge_cases n 0);
    [rewrite Z.pow_neg_r in Hx by lia; lia | lia]).
  rewrite <- (Z.mod_small x (2 ^ n)) by lia. apply Z.mod_pow2_bits_high. lia.
Qed.

Lemma testbit_ext n x y : 0 ≤ x < 2 ^ n → 0 ≤ y < 2 ^ n →
  (∀ i, 0 ≤ i < n → Z.testbit x i = Z.testbit y i) → x = y.
Proof.
  intros Hx Hy H. apply Z.bits_inj'. intros i Hi.
  destruct (Z.lt_ge_cases i n); [apply H; lia|].
  rewrite (testbit_above x n), (testbit_above y n) by lia. reflexivity.
Qed.

(** Closing under the bit operators at a fixed width. *)
Lemma bits_bounded x n : 0 ≤ n → 0 ≤ x →
  (∀ i, n ≤ i → Z.testbit x i = false) → x < 2 ^ n.
Proof.
  intros Hn Hx H. destruct (Z.lt_ge_cases x (2 ^ n)) as [|Hge]; [done|].
  assert (0 < 2 ^ n) by lia.
  pose proof (Z.log2_le_mono _ _ Hge) as Hl. rewrite Z.log2_pow2 in Hl by lia.
  specialize (H (Z.log2 x) Hl). rewrite Z.bit_log2 in H by lia. discriminate.
Qed.

Lemma land_range n x y : 0 ≤ n → 0 ≤ x < 2 ^ n → 0 ≤ y → 0 ≤ Z.land x y < 2 ^ n.
Proof.
  intros Hn Hx Hy. split; [apply Z.land_nonneg; lia|].
  apply bits_bounded; [lia | apply Z.land_nonneg; lia |].
  intros i Hi. rewrite Z.land_spec, (testbit_above x n) by lia. reflexivity.
Qed.
Lemma lor_range n x y : 0 ≤ n → 0 ≤ x < 2 ^ n → 0 ≤ y < 2 ^ n → 0 ≤ Z.lor x y < 2 ^ n.
Proof.
  intros Hn Hx Hy. assert (0 ≤ Z.lor x y) by (apply Z.lor_nonneg; lia). split; [done|].
  apply bits_bounded; [lia | done |].
  intros i Hi. rewrite Z.lor_spec, (testbit_above x n), (testbit_above y n) by lia.
  reflexivity.
Qed.
Lemma lxor_range n x y : 0 ≤ n → 0 ≤ x < 2 ^ n → 0 ≤ y < 2 ^ n → 0 ≤ Z.lxor x y < 2 ^ n.
Proof.
  intros Hn Hx Hy. assert (0 ≤ Z.lxor x y) by (apply Z.lxor_nonneg; lia). split; [done|].
  apply bits_bounded; [lia | done |].
  intros i Hi. rewrite Z.lxor_spec, (testbit_above x n), (testbit_above y n) by lia.
  reflexivity.
Qed.
Lemma shiftr_range n x k : 0 ≤ k → 0 ≤ x < 2 ^ n → 0 ≤ Z.shiftr x k < 2 ^ n.
Proof.
  intros Hk Hx. rewrite Z.shiftr_div_pow2 by lia. assert (0 < 2 ^ k) by lia. split.
  - apply Z.div_pos; lia.
  - apply Z.le_lt_trans with x; [|lia]. apply Z.div_le_upper_bound; nia.
Qed.
#[export] Hint Resolve land_range lor_range lxor_range shiftr_range : word.

(** ** Masks of power-of-two alignments *)
Lemma lnot_mask_land x k : 0 ≤ k ≤ 64 → is_u64 x →
  Z.land x (~64 (2 ^ k - 1)) = 2 ^ k * (x / 2 ^ k).
Proof.
  intros Hk Hx. unfold is_u64 in Hx.
  assert (2 ^ k - 1 = Z.ones k) as -> by (rewrite Z.ones_equiv; lia).
  rewrite <- Z.shiftr_div_pow2, Z.mul_comm, <- Z.shiftl_mul_pow2 by lia.
  rewrite <- Z.ldiff_ones_r by lia. apply Z.bits_inj'. intros i Hi.
  rewrite Z.land_spec, Z.ldiff_spec, u64_testbit, Z.lnot_spec by lia.
  destruct (Z.ltb_spec i 64); [done|].
  rewrite (testbit_above x 64) by lia. reflexivity.
Qed.

Lemma mask_land x k : 0 ≤ k → Z.land x (2 ^ k - 1) = x mod 2 ^ k.
Proof.
  intros Hk. rewrite <- Z.land_ones, Z.ones_equiv by lia. f_equal; lia.
Qed.

(** ** Lists *)

(** [list_lookup] with a [Z] index, as C indexes an array. *)
Definition zlookup {A} (l : list A) (i : Z) : option A :=
  if i <? 0 then None else l !! Z.to_nat i.
Definition zinsert {A} (l : list A) (i : Z) (x : A) : list A :=
  if i <? 0 then l else <[Z.to_nat i := x]> l.

Lemma zlookup_nonneg {A} (l : list A) i : 0 ≤ i → zlookup l i = l !! Z.to_nat i.
Proof. intros. unfold zlookup. destruct (Z.ltb_spec i 0); [lia | done]. Qed.
Lemma zlookup_lt_is_Some {A} (l : list A) i :
  0 ≤ i < Z.of_nat (length l) → is_Some (zlookup l i).
Proof. intros. rewrite zlookup_nonneg by lia. apply lookup_lt_is_Some. lia. Qed.
Lemma zlookup_Some_lt {A} (l : list A) i x :
  zlookup l i = Some x → 0 ≤ i < Z.of_nat (length l).
Proof.
  unfold zlookup. destruct (Z.ltb_spec i 0); [done|]. intros Hl%lookup_lt_Some. lia.
Qed.
Lemma length_zinsert {A} (l : list A) i x : length (zinsert l i x) = length l.
Proof. unfold zinsert. destruct (i <? 0); [done | apply length_insert]. Qed.
Lemma zlookup_zinsert_eq {A} (l : list A) i x :
  0 ≤ i < Z.of_nat (length l) → zlookup (zinsert l i x) i = Some x.
Proof.
  intros. unfold zlookup, zinsert. destruct (Z.ltb_spec i 0); [lia|].
  apply list_lookup_insert_eq. lia.
Qed.
Lemma zlookup_zinsert_ne {A} (l : list A) i j x :
  i ≠ j → zlookup (zinsert l i x) j = zlookup l j.
Proof.
  intros. unfold zlookup, zinsert.
  destruct (Z.ltb_spec j 0), (Z.ltb_spec i 0); try done.
  apply list_lookup_insert_ne. lia.
Qed.
Lemma Forall_zinsert {A} (P : A → Prop) l i x :
  Forall P l → P x → Forall P (zinsert l i x).
Proof. intros. unfold zinsert. destruct (i <? 0); [done|]. by apply Forall_insert. Qed.
Lemma Forall_zlookup {A} (P : A → Prop) l i x :
  Forall P l → zlookup l i = Some x → P x.
Proof.
  unfold zlookup. destruct (i <? 0); [done|]. intros. by eapply Forall_lookup_1.
Qed.
#[export] Hint Rewrite @length_zinsert : word.

(** Rotating by one more place moves the first element to the back. *)
Lemma rotate_0 {A} (l : list A) : rotate 0 l = l.
Proof.
  unfold rotate. destruct (length l); [by rewrite drop_0, take_0, app_nil_r|].
  rewrite Nat.Div0.mod_0_l, drop_0, take_0. apply app_nil_r.
Qed.
Lemma rotate_S {A} k (x : A) l : rotate (S k) (x :: l) = rotate k (l ++ [x]).
Proof.
  unfold rotate. rewrite length_app. cbn [length]. rewrite Nat.add_1_r.
  set (n := length l). pose proof (Nat.mod_upper_bound k (S n)) as Hq.
  pose proof (Nat.div_mod_eq k (S n)) as Hk. set (q := (k mod S n)%nat) in *.
  destruct (decide (q = n)) as [He|Hne].
  - replace (S k mod S n)%nat with 0%nat.
    + rewrite He, drop_0, take_0, app_nil_r. unfold n. by rewrite drop_app_length, take_app_length.
    + symmetry. apply Nat.Div0.mod_divides. exists (S (k / S n)). lia.
  - replace (S k mod S n)%nat with (S q).
    + cbn. rewrite drop_app_le, take_app_le by (fold n; lia). by rewrite <- app_assoc.
    + apply (Nat.mod_unique _ _ (k / S n)); lia.
Qed.

(** ** Counting loops

    [for (i = start; i < end; i++) body], where the body may fail. The trip
    count is the fuel, so the loop is structurally recursive. *)
Fixpoint for_loop {St} (n : nat) (i : Z) (body : Z → St → outcome St) (s : St) : outcome St :=
  match n with
  | O => Ret s
  | S n' => s' ← body i s; for_loop n' (i + 1) body s'
  end.
Definition for_range {St} (start stop : Z) (body : Z → St → outcome St) (s : St) : outcome St :=
  for_loop (Z.to_nat (stop - start)) start body s.

Lemma for_range_ind {St} (Inv : Z → St → Prop) start stop body s :
  Inv start s →
  (∀ i s, start ≤ i < stop → Inv i s → ∃ s', body i s = Ret s' ∧ Inv (i + 1) s') →
  ∃ s', for_range start stop body s = Ret s' ∧ Inv (Z.max start stop) s'.
Proof.
  unfold for_range. intros H0 Hstep.
  remember (Z.to_nat (stop - start)) as n eqn:Hn.
  replace (Z.max start stop) with (start + Z.of_nat n) by lia.
  assert (start + Z.of_nat n ≤ Z.max start stop) as Hle by lia. clear Hn.
  assert (∀ i s, start ≤ i < start + Z.of_nat n → Inv i s →
    ∃ s', body i s = Ret s' ∧ Inv (i + 1) s') as Hst by (intros; apply Hstep; [lia|done]).
  clear Hstep Hle. revert start s H0 Hst. induction n as [|n IH]; intros start s H0 Hst; simpl.
  - rewrite Z.add_0_r. eauto.
  - destruct (Hst start s) as (s1 & Hb & H1); [lia|done|]. rewrite Hb. simpl.
    destruct (IH (start + 1) s1) as (s2 & Hr & H2); [done| |].
    { intros i s' Hi Hinv. apply Hst; [lia|done]. }
    exists s2. split; [done|]. by replace (start + Z.of_nat (S n)) with (start + 1 + Z.of_nat n) by lia.
Qed.

Lemma for_range_empty {St} start stop body (s : St) :
  stop ≤ start → for_range start stop body s = Ret s.
Proof.
  intros. unfold for_range. by replace (Z.to_nat (stop - start)) with 0%nat by lia.
Qed.

(** [for (i = start; i < end; i++) if (p(i)) return i; return -1;] *)
Fixpoint find_loop (n : nat) (i : Z) (p : Z → outcome bool) : outcome Z :=
  match n with
  | O => Ret (-1)
  | S n' => b ← p i; if b : bool then Ret i else find_loop n' (i + 1) p
  end.

(** The scan returns the least index of the range that satisfies the test, or
    -1 when no index does. *)
Lemma find_loop_spec n i p q :
  (∀ j, i ≤ j < i + Z.of_nat n → p j = Ret (q j)) →
  (∃ r, find_loop n i p = Ret r ∧ i ≤ r < i + Z.of_nat n ∧ q r = true ∧
        ∀ j, i ≤ j < r → q j = false) ∨
  (find_loop n i p = Ret (-1) ∧ ∀ j, i ≤ j < i + Z.of_nat n → q j = false).
Proof.
  revert i. induction n as [|n IH]; intros i Hp; simpl.
  - right. split; [done|lia].
  - rewrite Hp by lia. simpl. destruct (q i) eqn:Hq.
    + left. exists i. repeat split; [lia|lia|done|lia].
    + destruct (IH (i + 1)) as [(r & Hr & Hrng & Hqr & Hall)|[Hr Hall]].
      { intros j Hj. apply Hp. lia. }
      * left. exists r. repeat split; [done|lia|lia|done|].
        intros j Hj. destruct (Z.eq_dec j i) as [->|]; [done|]. apply Hall. lia.
      * right. split; [done|]. intros j Hj.
        destruct (Z.eq_dec j i) as [->|]; [done|]. apply Hall. lia.
Qed.
