(* ===== verification/Bits.v ===== *)
(** * Bit and alignment arithmetic

    [kernel/math/bits.h], [kernel/math/math.c] and the size and alignment
    helpers of [kernel/mm/memory_detect/memory_state_helper.c]: powers of two,
    alignment, rounding division, all on 64-bit words that wrap. *)
From S2P Require Import Prelude.

(** ** [kernel/math/bits.h] *)
Module BitOps.

Definition is_power_of_2 (n : Z) : bool :=
  negb (n =? 0) && (Z.land n (n ⊟ 1) =? 0).

(** One step [n |= n >> s] of the smearing sequence. *)
Definition smear (s n : Z) : Z := Z.lor n (Z.shiftr n s).

Definition round_up_to_power_of_2 (n : Z) : Z :=
  if n <=? 1 then 1 else
  let n := n ⊟ 1 in
  let n := smear 1 n in
  let n := smear 2 n in
  let n := smear 4 n in
  let n := smear 8 n in
  let n := smear 16 n in
  let n := smear 32 n in
  n ⊞ 1.

(** The scan [for (int i = 63; i >= 0; i--)], counting down from [i]. *)
Fixpoint round_down_loop (i : nat) (n : Z) : Z :=
  let bit := Z.shiftl 1 (Z.of_nat i) in
  if negb (Z.land n bit =? 0) then bit
  else match i with O => 1 | S i' => round_down_loop i' n end.

Definition round_down_to_power_of_2 (n : Z) : Z :=
  if n =? 0 then 0 else round_down_loop 63 n.

Definition align_up (value alignment : Z) : Z :=
  Z.land (value ⊞ alignment ⊟ 1) (~64 (alignment ⊟ 1)).
Definition align_down (value alignment : Z) : Z :=
  Z.land value (~64 (alignment ⊟ 1)).
Definition is_aligned (value alignment : Z) : bool :=
  Z.land value (alignment ⊟ 1) =? 0.

Definition div_round_up (n d : Z) : Z := (n ⊞ d ⊟ 1) / d.
Definition div_round_down (n d : Z) : Z := n / d.
Definition div_round_nearest (n d : Z) : Z := (n ⊞ d / 2) / d.

End BitOps.

(** ** [kernel/math/math.c] *)
Definition clamp (val min_val max_val : Z) : Z :=
  let val := if val <? min_val then min_val else val in
  if val >? max_val then max_val else val.

(** ** [kernel/mm/memory_detect/memory_state_helper.c]

    Here the alignment is given as its logarithm. *)
Module MemState.

Definition KB_SHIFT := 10.
Definition MB_SHIFT := 20.
Definition PAGE_SHIFT := 12.
Definition PAGE_SIZE := 4096.

Definition bytes_to_mb (bytes : Z) : Z := u32 (Z.shiftr bytes MB_SHIFT).
Definition bytes_to_kb (bytes : Z) : Z := Z.shiftr bytes KB_SHIFT.
Definition mb_to_bytes (mb : Z) : Z := u64 (Z.shiftl mb MB_SHIFT).
Definition kb_to_bytes (kb : Z) : Z := u64 (Z.shiftl kb KB_SHIFT).
Definition pages_to_bytes (pages : Z) : Z := u64 (Z.shiftl pages PAGE_SHIFT).
Definition bytes_to_pages (bytes : Z) : Z :=
  Z.shiftr (bytes ⊞ PAGE_SIZE ⊟ 1) PAGE_SHIFT.

Definition mask_of (alignment : Z) : Z := u64 (Z.shiftl 1 alignment) ⊟ 1.
Definition align_up (value alignment : Z) : Z :=
  let mask := mask_of alignment in Z.land (value ⊞ mask) (~64 mask).
Definition align_down (value alignment : Z) : Z :=
  let mask := mask_of alignment in Z.land value (~64 mask).
Definition is_aligned (value alignment : Z) : bool :=
  Z.land value (mask_of alignment) =? 0.

Definition ranges_overlap (start1 end1 start2 end2 : Z) : bool :=
  if (end1 <=? start2) || (end2 <=? start1) then false else true.
Definition range_contains (outer_start outer_end inner_start inner_end : Z) : bool :=
  (outer_start <=? inner_start) && (outer_end >=? inner_end).

End MemState.

(** ** Powers of two *)
Lemma land_pred_zero_pow2 n : 0 < n → Z.land n (n - 1) = 0 → n = 2 ^ Z.log2 n.
Proof.
  intros Hn Hl. pose proof (Z.log2_spec n Hn) as [Hlo Hhi].
  pose proof (Z.log2_nonneg n) as Hlog.
  destruct (Z.eq_dec n (2 ^ Z.log2 n)) as [|Hne]; [done|exfalso].
  assert (Z.testbit (Z.land n (n - 1)) (Z.log2 n) = true) as Hb.
  { assert (Z.log2 (n - 1) = Z.log2 n) as Hlg by (apply Z.log2_unique; lia).
    rewrite Z.land_spec, Z.bit_log2 by lia.
    rewrite <- Hlg. rewrite Z.bit_log2; [done|lia]. }
  rewrite Hl, Z.bits_0 in Hb. discriminate.
Qed.

Lemma land_pow2_pred k : 0 ≤ k → Z.land (2 ^ k) (2 ^ k - 1) = 0.
Proof. intros Hk. rewrite mask_land by lia. apply Z.mod_same. lia. Qed.

Lemma is_power_of_2_pow2 k : 0 ≤ k < 64 → BitOps.is_power_of_2 (2 ^ k) = true.
Proof.
  intros Hk. assert (2 ^ k < 2 ^ 64) by (apply Z.pow_lt_mono_r; lia).
  unfold BitOps.is_power_of_2. rewrite u64_small, land_pow2_pred by lia.
  assert (2 ^ k ≠ 0) by lia. rewrite (proj2 (Z.eqb_neq _ _)) by done. reflexivity.
Qed.

Lemma is_power_of_2_inv n : is_u64 n → BitOps.is_power_of_2 n = true →
  n = 2 ^ Z.log2 n ∧ 0 ≤ Z.log2 n < 64.
Proof.
  unfold is_u64, BitOps.is_power_of_2. intros Hn [Hz%negb_true_iff Hl]%andb_true_iff.
  apply Z.eqb_neq in Hz. apply Z.eqb_eq in Hl. rewrite u64_small in Hl by lia.
  split; [apply land_pred_zero_pow2; lia|]. split; [apply Z.log2_nonneg|].
  apply Z.log2_lt_pow2; lia.
Qed.

(** ** The smearing sequence

    After the steps 1, 2, 4, ... bit [i] of the result says whether one of the
    bits [i .. i+w-1] of the argument is set, with [w] doubling each step. *)
Definition window (w x i : Z) : Prop := ∃ j, 0 ≤ j < w ∧ Z.testbit x (i + j) = true.

Definition smeared (w x y : Z) : Prop :=
  0 ≤ y ∧ ∀ i, 0 ≤ i → Z.testbit y i = true ↔ window w x i.

Lemma smeared_one x : 0 ≤ x → smeared 1 x x.
Proof.
  intros Hx. split; [done|]. intros i Hi. split.
  - intros Hb. exists 0. rewrite Z.add_0_r. auto with lia.
  - intros (j & Hj & Hb). replace (i + j) with i in Hb by lia. done.
Qed.

Lemma smear_step w x y : 0 < w → smeared w x y → smeared (2 * w) x (BitOps.smear w y).
Proof.
  intros Hw [Hy Hs]. unfold BitOps.smear. split.
  { apply Z.lor_nonneg. split; [done|]. apply Z.shiftr_nonneg. done. }
  intros i Hi. rewrite Z.lor_spec, Z.shiftr_spec, orb_true_iff, !Hs by lia. split.
  - intros [(j & Hj & Hb)|(j & Hj & Hb)].
    + exists j. split; [lia|done].
    + exists (w + j). split; [lia|]. by replace (i + (w + j)) with (i + w + j) by lia.
  - intros (j & Hj & Hb). destruct (Z.lt_ge_cases j w) as [|Hge]; [left|right].
    + exists j. split; [lia|done].
    + exists (j - w). split; [lia|]. by replace (i + w + (j - w)) with (i + j) by lia.
Qed.

Lemma smeared_full w x y : 0 < x < 2 ^ w → smeared w x y → y = 2 ^ (Z.log2 x + 1) - 1.
Proof.
  intros [Hx Hxw] [Hy Hs]. pose proof (Z.log2_nonneg x).
  assert (Z.log2 x < w) by (apply Z.log2_lt_pow2; lia).
  replace (2 ^ (Z.log2 x + 1) - 1) with (Z.ones (Z.log2 x + 1)) by (rewrite Z.ones_equiv; lia).
  apply Z.bits_inj'. intros i Hi. rewrite Z.testbit_ones_nonneg by lia.
  apply eq_true_iff_eq. rewrite Hs, Z.ltb_lt by lia. split.
  - intros (j & Hj & Hb). destruct (Z.lt_ge_cases i (Z.log2 x + 1)); [done|].
    rewrite Z.bits_above_log2 in Hb by lia. discriminate.
  - intros Hlt. exists (Z.log2 x - i). split; [lia|].
    replace (i + (Z.log2 x - i)) with (Z.log2 x) by lia. apply Z.bit_log2. lia.
Qed.

(** Both round-up routines of the kernel smear [n-1] and add one. *)
Lemma smear_pow2_value n y w : 1 < n → n - 1 < 2 ^ w → smeared w (n - 1) y →
  y + 1 = 2 ^ Z.log2_up n.
Proof.
  intros Hn Hlt Hs. apply smeared_full in Hs; [|lia].
  rewrite Hs, Z.log2_up_eqn by lia. replace (Z.pred n) with (n - 1) by lia.
  replace (Z.succ _) with (Z.log2 (n - 1) + 1) by lia. lia.
Qed.

Lemma smeared_64 x : 0 ≤ x → smeared 64 x
  (BitOps.smear 32 (BitOps.smear 16 (BitOps.smear 8 (BitOps.smear 4 (BitOps.smear 2 (BitOps.smear 1 x)))))).
Proof.
  intros Hx. do 6 (apply smear_step; [lia|]). by apply smeared_one.
Qed.

Lemma smeared_32 x : 0 ≤ x → smeared 32 x
  (BitOps.smear 16 (BitOps.smear 8 (BitOps.smear 4 (BitOps.smear 2 (BitOps.smear 1 x))))).
Proof.
  intros Hx. do 5 (apply smear_step; [lia|]). by apply smeared_one.
Qed.

Lemma round_up_value n : is_u64 n → 1 < n →
  BitOps.round_up_to_power_of_2 n = u64 (2 ^ Z.log2_up n).
Proof.
  intros Hn Hn1. unfold is_u64 in Hn. unfold BitOps.round_up_to_power_of_2.
  destruct (Z.leb_spec n 1); [lia|]. cbv zeta. rewrite (u64_small (n - 1)) by lia.
  f_equal. eapply smear_pow2_value; [lia| |apply smeared_64; lia]. lia.
Qed.

(** [2 ^ log2_up n] is the least power of two that is at least [n]. *)
Lemma log2_up_least n k : 1 < n → 0 ≤ k → n ≤ 2 ^ k → 2 ^ Z.log2_up n ≤ 2 ^ k.
Proof.
  intros Hn Hk Hle. apply Z.pow_le_mono_r; [lia|]. apply Z.log2_up_le_pow2; lia.
Qed.

Lemma pow2_u64 k : 0 ≤ k < 64 → u64 (2 ^ k) = 2 ^ k.
Proof.
  intros Hk. apply u64_small. split; [lia|]. apply Z.pow_lt_mono_r; lia.
Qed.

(** ** Alignment *)
Definition round_up_to (m v : Z) : Z := m * ((v + m - 1) / m).
Definition round_down_to (m v : Z) : Z := m * (v / m).

Lemma round_up_to_spec m v : 0 < m →
  v ≤ round_up_to m v < v + m ∧ (m | round_up_to m v).
Proof.
  intros Hm. unfold round_up_to. split; [|apply Z.divide_factor_l].
  pose proof (Z.div_mod (v + m - 1) m). pose proof (Z.mod_pos_bound (v + m - 1) m). lia.
Qed.
Lemma round_down_to_spec m v : 0 < m →
  v - m < round_down_to m v ≤ v ∧ (m | round_down_to m v).
Proof.
  intros Hm. unfold round_down_to. split; [|apply Z.divide_factor_l].
  pose proof (Z.div_mod v m). pose proof (Z.mod_pos_bound v m). lia.
Qed.
Lemma round_up_to_least m v x : 0 < m → v ≤ x → (m | x) → round_up_to m v ≤ x.
Proof.
  intros Hm Hx [q ->]. unfold round_up_to.
  assert ((v + m - 1) / m ≤ q); [|nia].
  apply Z.lt_succ_r, Z.div_lt_upper_bound; nia.
Qed.

Lemma mask_of_pow2 k : 0 ≤ k < 64 → MemState.mask_of k = 2 ^ k - 1.
Proof.
  intros Hk. unfold MemState.mask_of. rewrite Z.shiftl_1_l, pow2_u64 by lia.
  pose proof (pow2_u64 k Hk) as Hp. assert (0 < 2 ^ k) by lia.
  apply u64_small. pose proof (u64_range (2 ^ k)) as Hr. unfold is_u64 in Hr. lia.
Qed.

Lemma mem_align_down_value v k : is_u64 v → 0 ≤ k < 64 →
  MemState.align_down v k = round_down_to (2 ^ k) v.
Proof.
  intros Hv Hk. unfold MemState.align_down. rewrite mask_of_pow2 by lia.
  apply lnot_mask_land; [lia|done].
Qed.
Lemma mem_align_up_value v k : is_u64 v → 0 ≤ k < 64 → v + 2 ^ k ≤ 2 ^ 64 →
  MemState.align_up v k = round_up_to (2 ^ k) v.
Proof.
  intros Hv Hk Ho. unfold is_u64 in Hv. unfold MemState.align_up. rewrite mask_of_pow2 by lia.
  cbv zeta. rewrite lnot_mask_land by (auto with word lia).
  assert (0 < 2 ^ k) by lia.
  rewrite u64_small by lia. unfold round_up_to. do 2 f_equal. lia.
Qed.

(** C6: [round_up_to_power_of_2] returns the least power of two that is at
    least [n] for every [n] up to 2^63; above that no 64-bit power of two
    exists and the final increment wraps to zero. *)
Theorem round_up_to_power_of_2_correct n : is_u64 n →
  (n ≤ 2 ^ 63 →
     BitOps.is_power_of_2 (BitOps.round_up_to_power_of_2 n) = true ∧
     n ≤ BitOps.round_up_to_power_of_2 n ∧
     ∀ k, 0 ≤ k → n ≤ 2 ^ k → BitOps.round_up_to_power_of_2 n ≤ 2 ^ k) ∧
  (2 ^ 63 < n → BitOps.round_up_to_power_of_2 n = 0).
Proof.
  intros Hn. destruct (Z.le_gt_cases n 1) as [Hle|Hgt].
  { unfold BitOps.round_up_to_power_of_2. rewrite (proj2 (Z.leb_le n 1)) by lia.
    unfold is_u64 in Hn. split; [|lia]. intros _. split_and!; [done|lia|]. intros k Hk _. lia. }
  rewrite round_up_value by done. unfold is_u64 in Hn.
  pose proof (Z.log2_up_spec n Hgt) as [Hlo Hhi]. pose proof (Z.log2_up_nonneg n). split.
  - intros Hle. assert (Z.log2_up n ≤ 63) by (apply Z.log2_up_le_pow2; lia).
    rewrite pow2_u64 by lia. split_and!; [by apply is_power_of_2_pow2; lia|lia|].
    intros k Hk Hnk. by apply log2_up_least.
  - intros Hbig. assert (Z.log2_up n = 64) as ->; [|done].
    apply Z.log2_up_unique; simpl; lia.
Qed.

Lemma round_up_to_power_of_2_witness :
  BitOps.is_power_of_2 (BitOps.round_up_to_power_of_2 1000) = true ∧
  BitOps.round_up_to_power_of_2 1000 = 1024 ∧ BitOps.round_up_to_power_of_2 (2 ^ 63 + 1) = 0.
Proof.
  assert (is_u64 1000) as H1 by (unfold is_u64; lia).
  assert (is_u64 (2 ^ 63 + 1)) as H2 by (unfold is_u64; lia).
  destruct (round_up_to_power_of_2_correct 1000 H1) as [Ha _].
  destruct (round_up_to_power_of_2_correct (2 ^ 63 + 1) H2) as [_ Hb].
  split; [apply Ha; lia|]. split; [reflexivity|]. apply Hb. lia.
Defined.
