(* ===== verification/Mem.v ===== *)
(** * Byte memory: [kernel/base/memory.c]

    The four memory routines over a flat byte store. Addresses are indices of
    the store; an access outside it is a [Fault]. The loops are the source's
    loops, in the source's direction, so that overlap is visible. *)
From S2P Require Import Prelude.

Module Mem.

Abbreviation mem := (list Z) (only parsing).
Implicit Types m : list Z.

Definition load (m : mem) (a : Z) : outcome Z := access (zlookup m a).
Definition store (m : mem) (a v : Z) : outcome mem :=
  _ ← access (zlookup m a); Ret (zinsert m a v).

(** [while (n > 0) { asByteWrite[n - 1] = (char)c; n--; }] *)
Fixpoint memset_loop (n : nat) (s c : Z) (m : mem) : outcome mem :=
  match n with
  | O => Ret m
  | S n' => m' ← store m (s + Z.of_nat n') (u8 c); memset_loop n' s c m'
  end.
Definition memset (s c n : Z) (m : mem) : outcome mem := memset_loop (Z.to_nat n) s c m.

(** [while (n > 0) { *dest++ = *src++; n--; }] *)
Fixpoint copy_up (n : nat) (dest src : Z) (m : mem) : outcome mem :=
  match n with
  | O => Ret m
  | S n' => b ← load m src; m' ← store m dest b; copy_up n' (dest + 1) (src + 1) m'
  end.
Definition memcpy (dest src n : Z) (m : mem) : outcome mem :=
  copy_up (Z.to_nat n) dest src m.

(** [d += n; s += n; while (n--) *(--d) = *(--s);] *)
Fixpoint copy_down (n : nat) (dest src : Z) (m : mem) : outcome mem :=
  match n with
  | O => Ret m
  | S n' =>
      b ← load m (src + Z.of_nat n'); m' ← store m (dest + Z.of_nat n') b;
      copy_down n' dest src m'
  end.
Definition memmove (dest src n : Z) (m : mem) : outcome mem :=
  if (dest =? src) || (n =? 0) then Ret m
  else if (dest >? src) && (dest <? src + n) then copy_down (Z.to_nat n) dest src m
  else copy_up (Z.to_nat n) dest src m.

(** [for (; n && *s1 == *s2; --n, ++s1, ++s2);] *)
Fixpoint memcmp_loop (n : nat) (s1 s2 : Z) (m : mem) : outcome Z :=
  match n with
  | O => Ret 0
  | S n' =>
      b1 ← load m s1; b2 ← load m s2;
      if b1 =? b2 then memcmp_loop n' (s1 + 1) (s2 + 1) m else Ret (b1 - b2)
  end.
Definition memcmp (s1 s2 n : Z) (m : mem) : outcome Z := memcmp_loop (Z.to_nat n) s1 s2 m.

(** ** Specifications *)

(** The [n] bytes at [a] lie inside the store. *)
Definition valid (m : mem) (a n : Z) : Prop := 0 ≤ a ∧ 0 ≤ n ∧ a + n ≤ Z.of_nat (length m).

(** [m'] is [m] with the bytes [f 0 .. f (n-1)] at [a]; the rest is unchanged. *)
Definition written (m m' : mem) (a n : Z) (f : Z → option Z) : Prop :=
  length m' = length m ∧
  ∀ i, zlookup m' i = if (a <=? i) && (i <? a + n) then f (i - a) else zlookup m i.

Lemma load_ok m a : 0 ≤ a < Z.of_nat (length m) → ∃ b, load m a = Ret b ∧ zlookup m a = Some b.
Proof.
  intros Ha. destruct (zlookup_lt_is_Some m a Ha) as [b Hb]. exists b.
  unfold load. by rewrite Hb.
Qed.
Lemma store_ok m a v : 0 ≤ a < Z.of_nat (length m) → store m a v = Ret (zinsert m a v).
Proof.
  intros Ha. unfold store. by destruct (zlookup_lt_is_Some m a Ha) as [b ->].
Qed.

Lemma lookup_zinsert m a v i : 0 ≤ a < Z.of_nat (length m) →
  zlookup (zinsert m a v) i = if i =? a then Some v else zlookup m i.
Proof.
  intros Ha. destruct (Z.eqb_spec i a) as [->|].
  - by apply zlookup_zinsert_eq.
  - apply zlookup_zinsert_ne. lia.
Qed.

(** Splits every comparison of a [written] goal and closes it by arithmetic. *)
Ltac split_range :=
  repeat match goal with
  | |- context [?a <=? ?b] => destruct (Z.leb_spec a b)
  | |- context [?a <? ?b] => destruct (Z.ltb_spec a b)
  | |- context [?a =? ?b] => destruct (Z.eqb_spec a b)
  end; simpl; try done; try lia.

Lemma memset_loop_written n s c m : valid m s (Z.of_nat n) →
  ∃ m', memset_loop n s c m = Ret m' ∧ written m m' s (Z.of_nat n) (λ _, Some (u8 c)).
Proof.
  unfold valid, written. revert m. induction n as [|n IH]; intros m Hv; cbn [memset_loop].
  - exists m. split; [done|]. split; [done|]. intros i. split_range.
  - rewrite store_ok by lia. cbn.
    destruct (IH (zinsert m (s + Z.of_nat n) (u8 c))) as (m' & Hm & Hlen & Hw).
    { rewrite length_zinsert. lia. }
    exists m'. split; [done|]. split; [by rewrite Hlen, length_zinsert|].
    intros i. rewrite Hw, lookup_zinsert by lia. split_range.
Qed.

(** Copying upwards reads only bytes it has not written when the destination
    does not start inside the source. *)
Lemma copy_up_written n dest src m :
  valid m dest (Z.of_nat n) → valid m src (Z.of_nat n) →
  dest ≤ src ∨ src + Z.of_nat n ≤ dest →
  ∃ m', copy_up n dest src m = Ret m' ∧
        written m m' dest (Z.of_nat n) (λ i, zlookup m (src + i)).
Proof.
  unfold valid, written. revert dest src m.
  induction n as [|n IH]; intros dest src m Hd Hs Hov; cbn [copy_up].
  - exists m. split; [done|]. split; [done|]. intros i. split_range.
  - destruct (load_ok m src) as (b & -> & Hb); [lia|]. cbn. rewrite store_ok by lia. cbn.
    destruct (IH (dest + 1) (src + 1) (zinsert m dest b)) as (m' & Hm & Hlen & Hw);
      rewrite ?length_zinsert; [lia|lia|lia|].
    exists m'. split; [done|]. split; [by rewrite Hlen, length_zinsert|].
    intros i. rewrite Hw. rewrite !lookup_zinsert by lia. split_range;
      first [f_equal; lia | rewrite <- Hb; f_equal; lia].
Qed.

(** Copying downwards is right when the destination starts after the source. *)
Lemma copy_down_written n dest src m :
  valid m dest (Z.of_nat n) → valid m src (Z.of_nat n) → src ≤ dest →
  ∃ m', copy_down n dest src m = Ret m' ∧
        written m m' dest (Z.of_nat n) (λ i, zlookup m (src + i)).
Proof.
  unfold valid, written. revert m.
  induction n as [|n IH]; intros m Hd Hs Hov; cbn [copy_down].
  - exists m. split; [done|]. split; [done|]. intros i. split_range.
  - destruct (load_ok m (src + Z.of_nat n)) as (b & -> & Hb); [lia|]. cbn. rewrite store_ok by lia.
    cbn. destruct (IH (zinsert m (dest + Z.of_nat n) b)) as (m' & Hm & Hlen & Hw);
      rewrite ?length_zinsert; [lia|lia|lia|].
    exists m'. split; [done|]. split; [by rewrite Hlen, length_zinsert|].
    intros i. rewrite Hw. rewrite !lookup_zinsert by lia. split_range;
      first [f_equal; lia | rewrite <- Hb; f_equal; lia].
Qed.

Lemma memset_written s c n m : valid m s n →
  ∃ m', memset s c n m = Ret m' ∧ written m m' s n (λ _, Some (u8 c)).
Proof.
  intros Hv. unfold memset. destruct (memset_loop_written (Z.to_nat n) s c m) as (m' & Hm & Hw).
  { unfold valid in *. lia. }
  exists m'. split; [done|]. by rewrite Z2Nat.id in Hw by (unfold valid in Hv; lia).
Qed.

Lemma memmove_written dest src n m : valid m dest n → valid m src n →
  ∃ m', memmove dest src n m = Ret m' ∧ written m m' dest n (λ i, zlookup m (src + i)).
Proof.
  intros Hd Hs. pose proof Hd as (Hd0 & Hn & _). unfold memmove.
  destruct (Z.eqb_spec dest src) as [->|Hne]; cbn [orb].
  { exists m. split; [done|]. split; [done|]. intros i. split_range. f_equal. lia. }
  destruct (Z.eqb_spec n 0) as [->|Hn0].
  { exists m. split; [done|]. split; [done|]. intros i. split_range. }
  rewrite <- (Z2Nat.id n) in Hd, Hs |- * by lia. rewrite Nat2Z.id.
  destruct (Z.gtb_spec dest src); cbn [andb]; [|apply copy_up_written; auto with lia].
  destruct (Z.ltb_spec dest (src + Z.of_nat (Z.to_nat n))).
  - apply copy_down_written; auto with lia.
  - apply copy_up_written; auto with lia.
Qed.

End Mem.

(** [memmove] copies the source range as it was before the call, wherever
    the two ranges lie, and changes nothing else. *)
Theorem memmove_correct (m : list Z) dest src n :
  Mem.valid m dest n → Mem.valid m src n →
  ∃ m', Mem.memmove dest src n m = Ret m' ∧ length m' = length m ∧
    (∀ i, 0 ≤ i < n → zlookup m' (dest + i) = zlookup m (src + i)) ∧
    (∀ i, i < dest ∨ dest + n ≤ i → zlookup m' i = zlookup m i).
Proof.
  intros Hd Hs. destruct (Mem.memmove_written dest src n m Hd Hs) as (m' & Hm & Hlen & Hw).
  exists m'. repeat split; [done|done| |]; intros i Hi; rewrite Hw; Mem.split_range.
  f_equal. lia.
Qed.

Lemma memmove_witness : ∃ m', Mem.memmove 1 0 3 [10; 20; 30; 40; 50] = Ret m' ∧
  m' = [10; 10; 20; 30; 50] ∧
  ∀ i, 0 ≤ i < 3 → zlookup m' (1 + i) = zlookup [10; 20; 30; 40; 50] (0 + i).
Proof.
  destruct (memmove_correct [10; 20; 30; 40; 50] 1 0 3) as (m' & Hm & _ & Hc & _);
    [unfold Mem.valid; simpl; lia|unfold Mem.valid; simpl; lia|].
  exists m'. split; [exact Hm|]. split; [|exact Hc].
  vm_compute in Hm. injection Hm as <-. reflexivity.
Defined.
