(* ===== verification/Bitmap.v ===== *)
(** * Bitmaps: [kernel/bitmap/bitmap.c] and [bitmap_helper.h]

    A bitmap is a byte buffer with a bit count. The single-bit operations
    check the index with [CCOS_ASSERT]; the buffer access itself faults outside
    the buffer. The abstraction is the predicate [bit] from indices to bool. *)
From S2P Require Import Prelude Mem.
From Stdlib Require Import Btauto.

Module Bitmap.

(** ** Data and helpers *)
Record bitmap := mk_bitmap { bits : list Z; nbits : Z }.

Definition bitCntToByteCnt (n : Z) : Z := Z.shiftr (n ⊞ 7) 3.
Definition bit_index_valid (bm : bitmap) (i : Z) : bool := i <? nbits bm.
Definition byte_bitmask (bit : Z) : Z := u8 (Z.shiftl 1 (bit mod 8)).
Definition bit_byte (bit : Z) : Z := Z.shiftr bit 3.

Definition read_byte (bm : bitmap) (i : Z) : outcome Z := access (zlookup (bits bm) i).
Definition write_byte (bm : bitmap) (i v : Z) : outcome bitmap :=
  _ ← access (zlookup (bits bm) i); Ret (mk_bitmap (zinsert (bits bm) i v) (nbits bm)).

(** ** Operations *)
Definition bitmap_init (ndebug : bool) (buffer : list Z) (n : Z) : outcome bitmap :=
  _ ← ccos_debug_assert ndebug (0 <? n);
  buf ← Mem.memset 0 0 (bitCntToByteCnt n) buffer; Ret (mk_bitmap buf n).

Definition bitmap_set (bm : bitmap) (bit : Z) : outcome bitmap :=
  _ ← ccos_assert (bit_index_valid bm bit);
  b ← read_byte bm (bit_byte bit);
  write_byte bm (bit_byte bit) (u8 (Z.lor b (byte_bitmask bit))).

Definition bitmap_clear (bm : bitmap) (bit : Z) : outcome bitmap :=
  _ ← ccos_assert (bit_index_valid bm bit);
  b ← read_byte bm (bit_byte bit);
  write_byte bm (bit_byte bit) (u8 (Z.land b (Z.lnot (byte_bitmask bit)))).

Definition bitmap_test (bm : bitmap) (bit : Z) : outcome bool :=
  _ ← ccos_assert (bit_index_valid bm bit);
  b ← read_byte bm (bit_byte bit);
  Ret (negb (Z.land b (byte_bitmask bit) =? 0)).

Definition bitmap_flip (bm : bitmap) (bit : Z) : outcome bitmap :=
  _ ← ccos_assert (bit_index_valid bm bit);
  b ← read_byte bm (bit_byte bit);
  write_byte bm (bit_byte bit) (u8 (Z.lxor b (byte_bitmask bit))).

Definition range_end (bm : bitmap) (start count : Z) : Z := Z.min (start ⊞ count) (nbits bm).
Definition bitmap_set_range (ndebug : bool) (bm : bitmap) (start count : Z) : outcome bitmap :=
  _ ← ccos_debug_assert ndebug (0 <? count);
  for_range start (range_end bm start count) (λ i bm, bitmap_set bm i) bm.
Definition bitmap_clear_range (ndebug : bool) (bm : bitmap) (start count : Z) : outcome bitmap :=
  _ ← ccos_debug_assert ndebug (0 <? count);
  for_range start (range_end bm start count) (λ i bm, bitmap_clear bm i) bm.

Definition bitmap_find_next_zero (bm : bitmap) (start : Z) : outcome Z :=
  find_loop (Z.to_nat (nbits bm - start)) start (λ i, negb <$> bitmap_test bm i).
Definition bitmap_find_next_set (bm : bitmap) (start : Z) : outcome Z :=
  find_loop (Z.to_nat (nbits bm - start)) start (λ i, bitmap_test bm i).
Definition bitmap_find_first_zero (bm : bitmap) : outcome Z := bitmap_find_next_zero bm 0.
Definition bitmap_find_first_set (bm : bitmap) : outcome Z := bitmap_find_next_set bm 0.

Definition bitmap_equal (a b : bitmap) : outcome bool :=
  if negb (nbits a =? nbits b) then Ret false else
  r ← find_loop (Z.to_nat (bitCntToByteCnt (nbits a))) 0
        (λ i, x ← read_byte a i; y ← read_byte b i; Ret (negb (x =? y)));
  Ret (r =? -1).

(** [for (i = 0; i < bytes; i++) dst->bits[i] = f(i);] *)
Definition byte_loop (bytes : Z) (f : Z → outcome Z) (dst : bitmap) : outcome bitmap :=
  for_range 0 bytes (λ i d, v ← f i; write_byte d i (u8 v)) dst.

Definition bitmap_copy (dst src : bitmap) : outcome bitmap :=
  byte_loop (bitCntToByteCnt (nbits src)) (λ i, read_byte src i) dst.
Definition bitmap_binop (op : Z → Z → Z) (dst a b : bitmap) : outcome bitmap :=
  byte_loop (bitCntToByteCnt (nbits a)) (λ i, x ← read_byte a i; y ← read_byte b i; Ret (op x y)) dst.
Definition bitmap_and := bitmap_binop Z.land.
Definition bitmap_or := bitmap_binop Z.lor.
Definition bitmap_xor := bitmap_binop Z.lxor.
Definition bitmap_andnot := bitmap_binop (λ x y, Z.land x (Z.lnot y)).
Definition bitmap_complement (dst src : bitmap) : outcome bitmap :=
  byte_loop (bitCntToByteCnt (nbits src)) (λ i, x ← read_byte src i; Ret (Z.lnot x)) dst.

(** [while (byte) { byte &= byte - 1; count++; }]: a byte has at most eight
    set bits, so eight rounds always reach zero. *)
Fixpoint kernighan (fuel : nat) (byte count : Z) : Z :=
  match fuel with
  | O => count
  | S fuel' =>
      if byte =? 0 then count
      else kernighan fuel' (u8 (Z.land byte (byte - 1))) (count ⊞ 1)
  end.
Definition bitmap_weight (bm : bitmap) : outcome Z :=
  for_range 0 (bitCntToByteCnt (nbits bm))
    (λ i count, b ← read_byte bm i; Ret (kernighan 8 b count)) 0.
Definition bitmap_full (bm : bitmap) : outcome bool :=
  w ← bitmap_weight bm; Ret (w =? nbits bm).
Definition bitmap_empty (bm : bitmap) : outcome bool :=
  w ← bitmap_weight bm; Ret (w =? 0).

(** ['1'] is 49 and ['0'] is 48; the buffer is a byte store. *)
Definition bitmap_to_string (buf : list Z) (bm : bitmap) : outcome (list Z) :=
  s ← for_range 0 (nbits bm)
        (λ i s, b ← bitmap_test bm i; Mem.store s i (if b : bool then 49 else 48)) buf;
  Mem.store s (nbits bm) 0.

(** ** Abstraction and invariant *)
Definition bit (bm : bitmap) (i : Z) : bool :=
  match zlookup (bits bm) (i / 8) with
  | Some b => Z.testbit b (i mod 8)
  | None => false
  end.

Record wf (bm : bitmap) : Prop := {
  wf_nbits : 0 ≤ nbits bm < 2 ^ 62;
  wf_room : nbits bm ≤ 8 * Z.of_nat (length (bits bm));
  wf_bytes : Forall is_u8 (bits bm)
}.

Lemma bit_byte_div i : bit_byte i = i / 8.
Proof. unfold bit_byte. rewrite Z.shiftr_div_pow2 by lia. reflexivity. Qed.

Lemma byte_bitmask_pow2 i : byte_bitmask i = 2 ^ (i mod 8).
Proof.
  unfold byte_bitmask. rewrite Z.shiftl_1_l. pose proof (Z.mod_pos_bound i 8).
  apply u8_small. split; [lia|]. apply Z.pow_lt_mono_r; lia.
Qed.

Lemma bitCntToByteCnt_value n : 0 ≤ n < 2 ^ 62 → bitCntToByteCnt n = (n + 7) / 8.
Proof.
  intros. unfold bitCntToByteCnt. rewrite Z.shiftr_div_pow2, u64_small by lia. reflexivity.
Qed.

Lemma ceil8 n : n ≤ 8 * ((n + 7) / 8) < n + 8.
Proof. pose proof (Z.div_mod (n + 7) 8). pose proof (Z.mod_pos_bound (n + 7) 8). lia. Qed.

Lemma byte_lookup bm i : wf bm → 0 ≤ i < nbits bm →
  ∃ b, zlookup (bits bm) (i / 8) = Some b ∧ is_u8 b.
Proof.
  intros [Hn Hr Hb] Hi. destruct (zlookup_lt_is_Some (bits bm) (i / 8)) as [b Hlk].
  { split; [apply Z.div_pos; lia|]. apply Z.div_lt_upper_bound; lia. }
  exists b. split; [done|]. by eapply Forall_zlookup.
Qed.

(** Two indices name the same bit of the buffer only when they are equal. *)
Lemma bit_write bm i j v :
  0 ≤ i → 0 ≤ j → 0 ≤ i / 8 < Z.of_nat (length (bits bm)) →
  bit (mk_bitmap (zinsert (bits bm) (i / 8) v) (nbits bm)) j =
  if j / 8 =? i / 8 then Z.testbit v (j mod 8) else bit bm j.
Proof.
  intros Hi Hj Hl. unfold bit; cbn [bits]. rewrite Mem.lookup_zinsert by done.
  by destruct (j / 8 =? i / 8).
Qed.

Lemma same_index i j : j / 8 = i / 8 → (j mod 8 = i mod 8 ↔ j = i).
Proof.
  intros Hd. pose proof (Z.div_mod i 8). pose proof (Z.div_mod j 8). lia.
Qed.

(** What each single-bit operation does to the byte it rewrites. *)
Lemma bit_op_spec (op : bool → bool) (f : Z → Z → Z) bm i :
  wf bm → 0 ≤ i < nbits bm →
  (∀ b k, is_u8 b → 0 ≤ k < 8 →
    Z.testbit (u8 (f b (byte_bitmask i))) k =
    if k =? i mod 8 then op (Z.testbit b k) else Z.testbit b k) →
  ∃ bm', (_ ← ccos_assert (bit_index_valid bm i);
          b ← read_byte bm (bit_byte i);
          write_byte bm (bit_byte i) (u8 (f b (byte_bitmask i)))) = Ret bm' ∧
    wf bm' ∧ nbits bm' = nbits bm ∧ length (bits bm') = length (bits bm) ∧
    ∀ j, 0 ≤ j → bit bm' j = if j =? i then op (bit bm i) else bit bm j.
Proof.
  intros Hwf Hi Hf. destruct (byte_lookup bm i Hwf Hi) as (b & Hb & Hb8).
  pose proof (zlookup_Some_lt _ _ _ Hb) as Hlt.
  unfold bit_index_valid, ccos_assert. destruct (Z.ltb_spec i (nbits bm)); [|lia]. simpl.
  unfold read_byte, write_byte. rewrite bit_byte_div, Hb. simpl. eexists. split; [done|].
  split; [|split; [done|split; [apply length_zinsert|]]].
  { destruct Hwf as [Hn Hr Hbs]. constructor; cbn [bits nbits]; rewrite ?length_zinsert; [done..|].
    apply Forall_zinsert; auto with word. }
  intros j Hj. rewrite bit_write by lia. unfold bit. rewrite Hb.
  destruct (Z.eqb_spec (j / 8) (i / 8)) as [Hd|Hd].
  - rewrite Hf by (auto; apply Z.mod_pos_bound; lia). rewrite Hd, Hb.
    pose proof (same_index i j Hd) as Hs.
    destruct (Z.eqb_spec (j mod 8) (i mod 8)) as [He|He], (Z.eqb_spec j i) as [Hji|Hji];
      [by rewrite He | tauto | tauto | done].
  - destruct (Z.eqb_spec j i) as [->|]; [lia|done].
Qed.

Lemma mask_testbit i k : 0 ≤ k → Z.testbit (byte_bitmask i) k = (k =? i mod 8).
Proof.
  intros Hk. rewrite byte_bitmask_pow2. pose proof (Z.mod_pos_bound i 8).
  rewrite Z.pow2_bits_eqb, Z.eqb_sym by lia. done.
Qed.

Lemma bitmap_set_spec bm i : wf bm → 0 ≤ i < nbits bm →
  ∃ bm', bitmap_set bm i = Ret bm' ∧ wf bm' ∧ nbits bm' = nbits bm ∧
    length (bits bm') = length (bits bm) ∧
    ∀ j, 0 ≤ j → bit bm' j = if j =? i then true else bit bm j.
Proof.
  intros Hwf Hi. apply (bit_op_spec (λ _, true) Z.lor); [done|done|].
  intros b k Hb Hk. rewrite u8_testbit, Z.lor_spec, mask_testbit by lia.
  destruct (Z.ltb_spec k 8); [|lia]. destruct (k =? i mod 8); simpl; btauto.
Qed.

Lemma bitmap_clear_spec bm i : wf bm → 0 ≤ i < nbits bm →
  ∃ bm', bitmap_clear bm i = Ret bm' ∧ wf bm' ∧ nbits bm' = nbits bm ∧
    length (bits bm') = length (bits bm) ∧
    ∀ j, 0 ≤ j → bit bm' j = if j =? i then false else bit bm j.
Proof.
  intros Hwf Hi. apply (bit_op_spec (λ _, false) (λ b m, Z.land b (Z.lnot m))); [done|done|].
  intros b k Hb Hk. rewrite u8_testbit, Z.land_spec, Z.lnot_spec, mask_testbit by lia.
  destruct (Z.ltb_spec k 8); [|lia]. destruct (k =? i mod 8); simpl; btauto.
Qed.

Lemma bitmap_flip_spec bm i : wf bm → 0 ≤ i < nbits bm →
  ∃ bm', bitmap_flip bm i = Ret bm' ∧ wf bm' ∧ nbits bm' = nbits bm ∧
    length (bits bm') = length (bits bm) ∧
    ∀ j, 0 ≤ j → bit bm' j = if j =? i then negb (bit bm i) else bit bm j.
Proof.
  intros Hwf Hi. apply (bit_op_spec negb Z.lxor); [done|done|].
  intros b k Hb Hk. rewrite u8_testbit, Z.lxor_spec, mask_testbit by lia.
  destruct (Z.ltb_spec k 8); [|lia]. destruct (k =? i mod 8); simpl; btauto.
Qed.

Lemma bitmap_test_spec bm i : wf bm → 0 ≤ i < nbits bm → bitmap_test bm i = Ret (bit bm i).
Proof.
  intros Hwf Hi. destruct (byte_lookup bm i Hwf Hi) as (b & Hb & Hb8).
  unfold bitmap_test, bit_index_valid, ccos_assert, read_byte, bit.
  destruct (Z.ltb_spec i (nbits bm)); [|lia]. simpl. rewrite bit_byte_div, Hb. simpl. f_equal.
  pose proof (Z.mod_pos_bound i 8). rewrite byte_bitmask_pow2.
  destruct (Z.testbit b (i mod 8)) eqn:Ht.
  - apply negb_true_iff, Z.eqb_neq. intros Hz.
    assert (Z.testbit (Z.land b (2 ^ (i mod 8))) (i mod 8) = true) as Hbt.
    { rewrite Z.land_spec, Ht, Z.pow2_bits_true by lia. done. }
    rewrite Hz, Z.bits_0 in Hbt. done.
  - apply negb_false_iff, Z.eqb_eq. apply Z.bits_inj'. intros k Hk.
    rewrite Z.land_spec, Z.pow2_bits_eqb, Z.bits_0 by lia.
    destruct (Z.eqb_spec (i mod 8) k) as [<-|]; [by rewrite Ht | apply andb_false_r].
Qed.

Lemma bitmap_set_out_of_range bm i : nbits bm ≤ i → bitmap_set bm i = Fail AssertFail.
Proof.
  intros Hi. unfold bitmap_set, bit_index_valid. destruct (Z.ltb_spec i (nbits bm)); [lia|done].
Qed.

(** ** Ranges *)
Definition in_range (bm : bitmap) (start count j : Z) : bool :=
  (start <=? j) && (j <? range_end bm start count).

Lemma range_op_spec (f : Z → bitmap → outcome bitmap) (v : bool) bm start count :
  wf bm → 0 ≤ start →
  (∀ b i, wf b → 0 ≤ i < nbits b → ∃ b', f i b = Ret b' ∧ wf b' ∧ nbits b' = nbits b ∧
     length (bits b') = length (bits b) ∧
     ∀ j, 0 ≤ j → bit b' j = if j =? i then v else bit b j) →
  ∃ bm', for_range start (range_end bm start count) f bm = Ret bm' ∧
    wf bm' ∧ nbits bm' = nbits bm ∧ length (bits bm') = length (bits bm) ∧
    ∀ j, 0 ≤ j → bit bm' j = if in_range bm start count j then v else bit bm j.
Proof.
  intros Hwf Hs Hf.
  destruct (for_range_ind (λ i b, wf b ∧ nbits b = nbits bm ∧
      length (bits b) = length (bits bm) ∧
      ∀ j, 0 ≤ j → bit b j = if (start <=? j) && (j <? i) then v else bit bm j)
    start (range_end bm start count) f bm) as (bm' & Hr & Hinv).
  - repeat split; [apply Hwf..|]. intros j Hj. Mem.split_range.
  - intros i b Hi (Hb & Hn & Hlen & Hbit).
    destruct (Hf b i) as (b' & He & Hw' & Hn' & Hlen' & Hb'); [done| |].
    { rewrite Hn. unfold range_end in Hi. lia. }
    exists b'. split; [done|]. repeat split; [apply Hw'..|congruence|congruence|].
    intros j Hj. rewrite Hb', Hbit by done. Mem.split_range.
  - exists bm'. split; [done|]. destruct Hinv as (? & ? & ? & Hbit).
    repeat split; [apply H..|done|done|]. intros j Hj. rewrite Hbit by done.
    unfold in_range. Mem.split_range.
Qed.

(** The check of the count in front of a range operation. *)
Lemma range_assert_spec {A} nd count (m : outcome A) (P : A → Prop) : (∃ a, m = Ret a ∧ P a) →
  if nd || (0 <? count) then ∃ a, (_ ← ccos_debug_assert nd (0 <? count); m) = Ret a ∧ P a
  else (_ ← ccos_debug_assert nd (0 <? count); m) = Fail AssertFail.
Proof. intros Hm. unfold ccos_debug_assert. destruct nd; [done|]. by destruct (0 <? count). Qed.
Lemma bitmap_set_range_spec nd bm start count : wf bm → 0 ≤ start →
  if nd || (0 <? count) then ∃ bm', bitmap_set_range nd bm start count = Ret bm' ∧
    wf bm' ∧ nbits bm' = nbits bm ∧ length (bits bm') = length (bits bm) ∧
    ∀ j, 0 ≤ j → bit bm' j = if in_range bm start count j then true else bit bm j
  else bitmap_set_range nd bm start count = Fail AssertFail.
Proof.
  intros Hw Hs. apply range_assert_spec, (range_op_spec (λ i b, bitmap_set b i) true); [done|done|].
  intros. by apply bitmap_set_spec.
Qed.
Lemma bitmap_clear_range_spec nd bm start count : wf bm → 0 ≤ start →
  if nd || (0 <? count) then ∃ bm', bitmap_clear_range nd bm start count = Ret bm' ∧
    wf bm' ∧ nbits bm' = nbits bm ∧ length (bits bm') = length (bits bm) ∧
    ∀ j, 0 ≤ j → bit bm' j = if in_range bm start count j then false else bit bm j
  else bitmap_clear_range nd bm start count = Fail AssertFail.
Proof.
  intros Hw Hs. apply range_assert_spec, (range_op_spec (λ i b, bitmap_clear b i) false); [done|done|].
  intros. by apply bitmap_clear_spec.
Qed.

(** ** Scanning *)
Lemma bitmap_find_next_zero_spec bm start : wf bm → 0 ≤ start →
  (∃ r, bitmap_find_next_zero bm start = Ret r ∧ start ≤ r < nbits bm ∧ bit bm r = false ∧
        ∀ j, start ≤ j < r → bit bm j = true) ∨
  (bitmap_find_next_zero bm start = Ret (-1) ∧ ∀ j, start ≤ j < nbits bm → bit bm j = true).
Proof.
  intros Hwf Hs. unfold bitmap_find_next_zero.
  destruct (find_loop_spec (Z.to_nat (nbits bm - start)) start
    (λ i, negb <$> bitmap_test bm i) (λ i, negb (bit bm i))) as [(r & Hr & Hrng & Hz & Hall)|[Hr Hall]].
  - intros j Hj. rewrite bitmap_test_spec by (auto with lia). done.
  - left. exists r. repeat split; [done|lia|lia|by apply negb_true_iff|].
    intros j Hj. apply negb_false_iff, Hall. lia.
  - right. split; [done|]. intros j Hj. apply negb_false_iff, Hall. lia.
Qed.

Lemma bitmap_find_next_set_spec bm start : wf bm → 0 ≤ start →
  (∃ r, bitmap_find_next_set bm start = Ret r ∧ start ≤ r < nbits bm ∧ bit bm r = true ∧
        ∀ j, start ≤ j < r → bit bm j = false) ∨
  (bitmap_find_next_set bm start = Ret (-1) ∧ ∀ j, start ≤ j < nbits bm → bit bm j = false).
Proof.
  intros Hwf Hs. unfold bitmap_find_next_set.
  destruct (find_loop_spec (Z.to_nat (nbits bm - start)) start
    (λ i, bitmap_test bm i) (λ i, bit bm i)) as [(r & Hr & Hrng & Hz & Hall)|[Hr Hall]].
  - intros j Hj. apply bitmap_test_spec; [done|lia].
  - left. exists r. repeat split; [done|lia|lia|done|]. intros j Hj. apply Hall. lia.
  - right. split; [done|]. intros j Hj. apply Hall. lia.
Qed.

(** ** Initialization *)
Lemma bitmap_init_spec nd buffer n :
  nd || (0 <? n) = true → Forall is_u8 buffer → 0 ≤ n < 2 ^ 62 → n ≤ 8 * Z.of_nat (length buffer) →
  ∃ bm, bitmap_init nd buffer n = Ret bm ∧ wf bm ∧ nbits bm = n ∧
    length (bits bm) = length buffer ∧
    ∀ i, 0 ≤ i < 8 * ((n + 7) / 8) → bit bm i = false.
Proof.
  intros Hnd Hb Hn Hroom. unfold bitmap_init. assert (ccos_debug_assert nd (0 <? n) = Ret tt) as -> by (by destruct nd, (0 <? n)).
  rewrite outcome_bind_ret, bitCntToByteCnt_value by done.
  destruct (Mem.memset_written 0 0 ((n + 7) / 8) buffer) as (buf & Hm & Hlen & Hw).
  { unfold Mem.valid. split; [lia|]. split; [apply Z.div_pos; lia|].
    rewrite Z.add_0_l. apply Z.lt_succ_r. apply Z.div_lt_upper_bound; lia. }
  rewrite Hm. simpl. eexists. split; [done|]. split; [|split; [done|split; [done|]]].
  - constructor; cbn [bits nbits]; [done|by rewrite Hlen|].
    apply Forall_lookup. intros i x Hx. specialize (Hw (Z.of_nat i)).
    rewrite zlookup_nonneg, Nat2Z.id, Hx in Hw by lia.
    destruct ((0 <=? Z.of_nat i) && (Z.of_nat i <? 0 + (n + 7) / 8)).
    + simplify_eq. apply u8_range.
    + symmetry in Hw. by eapply Forall_zlookup.
  - intros i Hi. unfold bit; cbn [bits]. rewrite Hw.
    assert (0 ≤ i / 8) by (apply Z.div_pos; lia).
    assert (i / 8 < (n + 7) / 8) by (apply Z.div_lt_upper_bound; lia).
    Mem.split_range. apply Z.bits_0.
Qed.

(** ** Logical operations, byte by byte *)
Lemma byte_loop_spec bytes f g dst :
  wf dst → 0 ≤ bytes ≤ Z.of_nat (length (bits dst)) →
  (∀ i, 0 ≤ i < bytes → f i = Ret (g i)) →
  ∃ d, byte_loop bytes f dst = Ret d ∧ wf d ∧ nbits d = nbits dst ∧
    ∀ k, zlookup (bits d) k =
      if (0 <=? k) && (k <? bytes) then Some (u8 (g k)) else zlookup (bits dst) k.
Proof.
  intros Hwf Hb Hf. unfold byte_loop.
  destruct (for_range_ind (λ i d, wf d ∧ nbits d = nbits dst ∧
      length (bits d) = length (bits dst) ∧
      ∀ k, zlookup (bits d) k =
        if (0 <=? k) && (k <? i) then Some (u8 (g k)) else zlookup (bits dst) k)
    0 bytes (λ i d, v ← f i; write_byte d i (u8 v)) dst) as (d & Hr & Hw & Hn & Hlen & Hk).
  - split; [done|]. repeat split. intros k. Mem.split_range.
  - intros i d Hi (Hw & Hn & Hlen & Hk). rewrite Hf by done. cbn. unfold write_byte.
    destruct (zlookup_lt_is_Some (bits d) i) as [x Hx]; [lia|]. rewrite Hx. cbn.
    eexists. split; [done|]. cbn [bits nbits]. rewrite length_zinsert.
    split; [|split; [done|split; [done|]]].
    + destruct Hw as [? ? ?]. constructor; cbn [bits nbits]; rewrite ?length_zinsert; [done..|].
      apply Forall_zinsert; auto with word.
    + intros k. rewrite Mem.lookup_zinsert, Hk by lia. Mem.split_range. congruence.
  - rewrite Z.max_r in Hk by lia. exists d. auto.
Qed.

Lemma bit_of_bytes d k g i : 0 ≤ i → zlookup (bits d) (i / 8) = Some (u8 (g (i / 8))) →
  k = i / 8 → bit d i = Z.testbit (g k) (i mod 8).
Proof.
  intros Hi Hl ->. unfold bit. rewrite Hl. pose proof (Z.mod_pos_bound i 8).
  rewrite u8_testbit by lia. destruct (Z.ltb_spec (i mod 8) 8); [done|lia].
Qed.

Lemma bytes_room bm : wf bm → 0 ≤ bitCntToByteCnt (nbits bm) ≤ Z.of_nat (length (bits bm)).
Proof.
  intros [Hn Hr _]. rewrite bitCntToByteCnt_value by done. split; [apply Z.div_pos; lia|].
  apply Z.lt_succ_r, Z.div_lt_upper_bound; lia.
Qed.

Lemma byte_in_bytes bm i : wf bm → 0 ≤ i < nbits bm → 0 ≤ i / 8 < bitCntToByteCnt (nbits bm).
Proof.
  intros [Hn Hr _] Hi. rewrite bitCntToByteCnt_value by done. pose proof (ceil8 (nbits bm)).
  split; [apply Z.div_pos; lia|]. apply Z.div_lt_upper_bound; lia.
Qed.

Definition byte_at (bm : bitmap) (k : Z) : Z := default 0 (zlookup (bits bm) k).

Lemma read_byte_at bm k : 0 ≤ k < Z.of_nat (length (bits bm)) → read_byte bm k = Ret (byte_at bm k).
Proof.
  intros Hk. unfold read_byte, byte_at. by destruct (zlookup_lt_is_Some (bits bm) k Hk) as [b ->].
Qed.
Lemma bit_byte_at bm i : bit bm i = Z.testbit (byte_at bm (i / 8)) (i mod 8).
Proof.
  unfold bit, byte_at. destruct (zlookup (bits bm) (i / 8)); [done|]. symmetry. apply Z.bits_0.
Qed.

(** A byte operator that acts bit by bit as [bop] lifts to the bitmaps. *)
Lemma bitmap_binop_spec op bop dst a b :
  wf dst → wf a → wf b → nbits b = nbits a → nbits dst = nbits a →
  (∀ x y k, 0 ≤ k → Z.testbit (op x y) k = bop (Z.testbit x k) (Z.testbit y k)) →
  ∃ d, bitmap_binop op dst a b = Ret d ∧ wf d ∧ nbits d = nbits dst ∧
    ∀ i, 0 ≤ i < nbits d → bit d i = bop (bit a i) (bit b i).
Proof.
  intros Hd Ha Hb Hn Hnd Hop. unfold bitmap_binop.
  pose proof (bytes_room _ Ha). pose proof (bytes_room _ Hb) as Hrb. rewrite Hn in Hrb.
  pose proof (bytes_room _ Hd) as Hrd. rewrite Hnd in Hrd.
  destruct (byte_loop_spec (bitCntToByteCnt (nbits a))
    (λ i, x ← read_byte a i; y ← read_byte b i; Ret (op x y))
    (λ i, op (byte_at a i) (byte_at b i)) dst) as (d & Hr & Hw & Hnd' & Hk); [done|lia| |].
  { intros i Hi. rewrite !read_byte_at by lia. done. }
  exists d. repeat split; [done|apply Hw..|done|]. intros i Hi.
  rewrite (bit_of_bytes d (i / 8) (λ i, op (byte_at a i) (byte_at b i))); [|lia| |done].
  - rewrite Hop by (apply Z.mod_pos_bound; lia). by rewrite !bit_byte_at.
  - rewrite Hk. pose proof (byte_in_bytes a i Ha). Mem.split_range.
Qed.

(** ** Population count *)
Fixpoint countz (f : Z → bool) (n : nat) : Z :=
  match n with
  | O => 0
  | S n' => countz f n' + Z.b2z (f (Z.of_nat n'))
  end.

Lemma countz_app f a b :
  countz f (a + b) = countz f a + countz (λ i, f (Z.of_nat a + i)) b.
Proof.
  induction b as [|b IH]; simpl; [rewrite Nat.add_0_r; lia|].
  rewrite Nat.add_succ_r. simpl. rewrite IH, Nat2Z.inj_add. lia.
Qed.
Lemma countz_ext f g n : (∀ i, 0 ≤ i < Z.of_nat n → f i = g i) → countz f n = countz g n.
Proof.
  intros H. induction n as [|n IH]; simpl; [done|]. rewrite IH, H by (intros; try apply H; lia).
  reflexivity.
Qed.
Lemma countz_bounds f n : 0 ≤ countz f n ≤ Z.of_nat n.
Proof. induction n as [|n IH]; simpl; [lia|]. destruct (f _); simpl; lia. Qed.
Lemma countz_false f n : (∀ i, 0 ≤ i < Z.of_nat n → f i = false) → countz f n = 0.
Proof.
  intros H. induction n as [|n IH]; simpl; [done|].
  rewrite IH by (intros; apply H; lia). rewrite H by lia. done.
Qed.
Lemma countz_full f n : countz f n = Z.of_nat n → ∀ i, 0 ≤ i < Z.of_nat n → f i = true.
Proof.
  induction n as [|n IH]; simpl; intros Hc i Hi; [lia|]. pose proof (countz_bounds f n).
  destruct (f (Z.of_nat n)) eqn:Hf; simpl in Hc; [|lia].
  destruct (Z.eq_dec i (Z.of_nat n)) as [->|]; [done|]. apply IH; lia.
Qed.

Lemma countz_all f n : (∀ i, 0 ≤ i < Z.of_nat n → f i = true) → countz f n = Z.of_nat n.
Proof.
  intros H. induction n as [|n IH]; [done|]. cbn [countz].
  rewrite IH by (intros; apply H; lia). rewrite H by lia. simpl Z.b2z. lia.
Qed.
Lemma countz_zero f n : countz f n = 0 → ∀ i, 0 ≤ i < Z.of_nat n → f i = false.
Proof.
  induction n as [|n IH]; intros Hc i Hi; [lia|]. cbn [countz] in Hc. pose proof (countz_bounds f n).
  destruct (f (Z.of_nat n)) eqn:Hf; simpl in Hc; [lia|].
  destruct (Z.eq_dec i (Z.of_nat n)) as [->|]; [done|]. apply IH; lia.
Qed.

Definition popcount (b : Z) : Z := countz (Z.testbit b) 8.

(** Kernighan's loop counts the bits of every byte: all 256 cases, computed. *)
Lemma kernighan_bytes :
  forallb (λ n, kernighan 8 (Z.of_nat n) 0 =? popcount (Z.of_nat n)) (seq 0 256) = true.
Proof. vm_compute. reflexivity. Qed.

Lemma kernighan_shift fuel b c : 0 ≤ c → c + Z.of_nat fuel < 2 ^ 64 →
  kernighan fuel b c = c + kernighan fuel b 0.
Proof.
  revert b c. induction fuel as [|fuel IH]; intros b c Hc Hf; simpl; [lia|].
  destruct (b =? 0); [lia|]. rewrite (u64_small (c + 1)), (u64_small (0 + 1)) by lia.
  rewrite IH, (IH _ (0 + 1)) by lia. lia.
Qed.

Lemma kernighan_popcount b c : is_u8 b → 0 ≤ c < 2 ^ 63 → kernighan 8 b c = c + popcount b.
Proof.
  unfold is_u8. intros Hb Hc. rewrite kernighan_shift by lia. f_equal.
  pose proof kernighan_bytes as Hall. rewrite forallb_forall in Hall.
  specialize (Hall (Z.to_nat b)). rewrite Z2Nat.id in Hall by lia.
  apply Z.eqb_eq, Hall. apply in_seq. lia.
Qed.

Lemma popcount_byte bm k : popcount (byte_at bm (Z.of_nat k)) =
  countz (λ i, bit bm (8 * Z.of_nat k + i)) 8.
Proof.
  apply countz_ext. intros i Hi. rewrite bit_byte_at.
  replace ((8 * Z.of_nat k + i) / 8) with (Z.of_nat k); [|apply Z.div_unique with i; lia].
  f_equal. apply Z.mod_unique with (Z.of_nat k); lia.
Qed.

(** [bitmap_weight] counts every set bit of the bytes the bitmap occupies,
    the padding bits of the last byte included. *)
Lemma bitmap_weight_bytes bm : wf bm →
  bitmap_weight bm = Ret (countz (bit bm) (8 * Z.to_nat (bitCntToByteCnt (nbits bm)))).
Proof.
  intros Hwf. pose proof (bytes_room bm Hwf) as Hroom. unfold bitmap_weight.
  destruct (for_range_ind (λ i c, 0 ≤ i ∧ c = countz (bit bm) (8 * Z.to_nat i))
    0 (bitCntToByteCnt (nbits bm)) (λ i count, b ← read_byte bm i; Ret (kernighan 8 b count)) 0)
    as (c & Hr & _ & Hc).
  - split; [lia|done].
  - intros i c Hi [_ ->]. rewrite read_byte_at by lia. rewrite outcome_bind_ret.
    eexists. split; [done|]. split; [lia|].
    pose proof (countz_bounds (bit bm) (8 * Z.to_nat i)).
    assert (nbits bm < 2 ^ 62) by apply Hwf.
    assert (bitCntToByteCnt (nbits bm) < 2 ^ 60).
    { rewrite bitCntToByteCnt_value by apply Hwf. apply Z.div_lt_upper_bound; lia. }
    rewrite kernighan_popcount; [| |lia].
    + replace (8 * Z.to_nat (i + 1))%nat with (8 * Z.to_nat i + 8)%nat by lia.
      rewrite countz_app. f_equal. rewrite <- (Z2Nat.id i) at 1 by lia. rewrite popcount_byte.
      apply countz_ext. intros j Hj. f_equal. lia.
    + unfold byte_at. destruct (zlookup (bits bm) i) eqn:Hl; simpl; [|unfold is_u8; lia].
      eapply Forall_zlookup; [apply Hwf|done].
  - rewrite Z.max_r in Hc by lia. by rewrite Hr, Hc.
Qed.

(** The padding bits of the last byte are clear. *)
Definition pad_clear (bm : bitmap) : Prop :=
  ∀ i, nbits bm ≤ i < 8 * bitCntToByteCnt (nbits bm) → bit bm i = false.

Lemma bitmap_weight_count bm : wf bm → pad_clear bm →
  bitmap_weight bm = Ret (countz (bit bm) (Z.to_nat (nbits bm))).
Proof.
  intros Hwf Hpad. rewrite bitmap_weight_bytes by done. f_equal.
  pose proof Hwf as [Hn _ _].
  assert (nbits bm ≤ 8 * bitCntToByteCnt (nbits bm)) as Hle.
  { rewrite bitCntToByteCnt_value by done. pose proof (ceil8 (nbits bm)). lia. }
  set (k := (8 * Z.to_nat (bitCntToByteCnt (nbits bm)))%nat).
  replace k with (Z.to_nat (nbits bm) + (k - Z.to_nat (nbits bm)))%nat by lia.
  rewrite countz_app, (countz_false (λ i, bit bm (Z.of_nat (Z.to_nat (nbits bm)) + i))); [lia|].
  intros i Hi. apply Hpad. lia.
Qed.

End Bitmap.

Import Bitmap.



(** [bitmap_weight] counts the bits of whole bytes. When the padding bits
    of the last byte are clear the result is the number of set bits and
    [bitmap_full] and [bitmap_empty] decide "all set" and "none set". *)
Theorem bitmap_weight_correct bm : wf bm → pad_clear bm →
  bitmap_weight bm = Ret (countz (bit bm) (Z.to_nat (nbits bm))) ∧
  (bitmap_full bm = Ret true ↔ ∀ i, 0 ≤ i < nbits bm → bit bm i = true) ∧
  (bitmap_empty bm = Ret true ↔ ∀ i, 0 ≤ i < nbits bm → bit bm i = false).
Proof.
  intros Hw Hp. pose proof (bitmap_weight_count bm Hw Hp) as Hc. pose proof Hw as [Hn _ _].
  assert (Z.of_nat (Z.to_nat (nbits bm)) = nbits bm) as Hid by lia.
  split; [done|]. unfold bitmap_full, bitmap_empty. rewrite Hc. cbn. split; split.
  - intros [= He%Z.eqb_eq] i Hi. apply (countz_full (bit bm) (Z.to_nat (nbits bm))); lia.
  - intros Hall. f_equal. apply Z.eqb_eq. rewrite (countz_all _ _ ltac:(rewrite Hid; exact Hall)). lia.
  - intros [= He%Z.eqb_eq] i Hi. apply (countz_zero (bit bm) (Z.to_nat (nbits bm))); lia.
  - intros Hall. f_equal. apply Z.eqb_eq, countz_false. rewrite Hid. done.
Qed.

Lemma bitmap_weight_witness :
  bitmap_weight (mk_bitmap [255; 15] 12) = Ret 12 ∧ bitmap_full (mk_bitmap [255; 15] 12) = Ret true.
Proof.
  assert (wf (mk_bitmap [255; 15] 12)) as Hw.
  { constructor; cbn; [lia|lia|]. repeat constructor; unfold is_u8; lia. }
  assert (pad_clear (mk_bitmap [255; 15] 12)) as Hp.
  { intros i Hi. change (12 ≤ i < 16) in Hi. unfold bit; cbn [bits].
    assert (i = 12 ∨ i = 13 ∨ i = 14 ∨ i = 15) as [->|[->|[->| ->]]] by lia; reflexivity. }
  destruct (bitmap_weight_correct (mk_bitmap [255; 15] 12) Hw Hp) as (Hc & _ & _).
  split; [rewrite Hc; reflexivity|reflexivity].
Defined.

(** [bitmap_complement] also sets the padding bits, so the complement of
    an empty 4-bit bitmap has weight 8, is not reported full although its four
    bits are set, and differs from a bitmap with the same four bits. *)
Theorem bitmap_complement_breaks_padding :
  let z := mk_bitmap [0] 4 in
  ∃ c, bitmap_complement z z = Ret c ∧
    (∀ i, 0 ≤ i < 4 → bit c i = true) ∧
    bitmap_weight c = Ret 8 ∧ bitmap_full c = Ret false ∧
    bitmap_equal c (mk_bitmap [15] 4) = Ret false.
Proof.
  eexists. split; [vm_compute; reflexivity|]. split.
  - intros i Hi. assert (i = 0 ∨ i = 1 ∨ i = 2 ∨ i = 3) as [->|[->|[->| ->]]] by lia; reflexivity.
  - vm_compute. auto.
Qed.
