(* ===== verification/E820.v ===== *)
(** * The BIOS memory map: [kernel/mm/memory_detect/e820.c]

    The bootloader leaves a byte table at [E820_STORAGE_ADDR]; [e820_init]
    decodes it into the module's static state and the queries read that state. *)
From S2P Require Import Prelude Bits.

Module E820.

Definition E820_MAX_ENTRIES := 128.
Definition E820_TYPE_USABLE := 1.
Definition E820_TYPE_RESERVED := 2.
Definition E820_TYPE_ACPI_RECLAIM := 3.
Definition E820_TYPE_NVS := 4.
Definition E820_TYPE_UNUSABLE := 5.
Definition MEM_DETECT_UNKNOWN := 3.

Record e820_entry := mk_entry { base : Z; len : Z; type : Z; acpi_attrs : Z }.
Record mem_stats := mk_stats {
  total_bytes : Z; usable_bytes : Z; reserved_bytes : Z;
  total_mb : Z; usable_mb : Z; entry_count : Z }.

(** [s_e820_entries] up to [s_e820_entry_count], and the other statics. *)
Record state := mk_state {
  entries : list e820_entry; detect_method : Z; initialized : bool }.
Definition state0 : state := mk_state [] MEM_DETECT_UNKNOWN false.

#[export] Instance e820_entry_eq_dec : EqDecision e820_entry.
Proof. solve_decision. Defined.

(** Little-endian field of [n] bytes at [off]. *)
Fixpoint read_le (n : nat) (off : Z) (m : list Z) : outcome Z :=
  match n with
  | O => Ret 0
  | S n' => b ← access (zlookup m off); r ← read_le n' (off + 1) m; Ret (b + 256 * r)
  end.

(** [struct PACKED e820_entry]: 24 bytes. *)
Definition read_entry (off : Z) (m : list Z) : outcome e820_entry :=
  b ← read_le 8 off m; l ← read_le 8 (off + 8) m;
  t ← read_le 4 (off + 16) m; a ← read_le 4 (off + 20) m;
  Ret (mk_entry b l t a).

(** An empty region is kept in the table with type 0. *)
Definition skip_empty (e : e820_entry) : e820_entry :=
  if len e =? 0 then mk_entry (base e) (len e) 0 (acpi_attrs e) else e.

Fixpoint read_entries (n : nat) (off : Z) (m : list Z) : outcome (list e820_entry) :=
  match n with
  | O => Ret []
  | S n' => e ← read_entry off m; r ← read_entries n' (off + 24) m; Ret (skip_empty e :: r)
  end.

Definition e820_init (mem_map : list Z) (s : state) : outcome state :=
  if initialized s then Ret s else
  method_byte ← access (zlookup mem_map 0);
  byte1 ← access (zlookup mem_map 1);
  byte2 ← access (zlookup mem_map 2);
  let count := Z.lor (Z.shiftl byte2 8) byte1 in
  if count >? E820_MAX_ENTRIES then Ret (mk_state [] MEM_DETECT_UNKNOWN false) else
  es ← read_entries (Z.to_nat count) 3 mem_map;
  Ret (mk_state es method_byte true).

Definition e820_get_entry_count (s : state) : Z := Z.of_nat (length (entries s)).
Definition e820_get_entry (s : state) (index : Z) : option e820_entry :=
  if negb (initialized s) then None else zlookup (entries s) index.

(** The body of the loop of [e820_get_stats]. *)
Definition add_entry (st : mem_stats) (e : e820_entry) : mem_stats :=
  let tot := total_bytes st ⊞ len e in
  let use := usable_bytes st in let res := reserved_bytes st in
  if type e =? E820_TYPE_USABLE then mk_stats tot (use ⊞ len e) res 0 0 (entry_count st)
  else if (E820_TYPE_RESERVED <=? type e) && (type e <=? E820_TYPE_UNUSABLE)
  then mk_stats tot use (res ⊞ len e) 0 0 (entry_count st)
  else mk_stats tot use res 0 0 (entry_count st).

(** [None]: the caller's structure is left as it was. *)
Definition e820_get_stats (s : state) : option mem_stats :=
  if negb (initialized s) then None else
  let st := foldl add_entry (mk_stats 0 0 0 0 0 (e820_get_entry_count s)) (entries s) in
  Some (mk_stats (total_bytes st) (usable_bytes st) (reserved_bytes st)
          (MemState.bytes_to_mb (total_bytes st)) (MemState.bytes_to_mb (usable_bytes st))
          (entry_count st)).

Definition entry_end (e : e820_entry) : Z := base e ⊞ len e.

Fixpoint range_usable_loop (b l : Z) (es : list e820_entry) : bool :=
  match es with
  | [] => true
  | e :: es' =>
      if negb (MemState.ranges_overlap b (b ⊞ l) (base e) (entry_end e))
      then range_usable_loop b l es'
      else if negb (type e =? E820_TYPE_USABLE) then false
      else range_usable_loop b l es'
  end.
Definition e820_is_range_usable (s : state) (b l : Z) : bool :=
  if negb (initialized s) then false
  else if l =? 0 then true
  else range_usable_loop b l (entries s).

(** One round of the search: [best] is [(best_base, best_length)]. *)
Definition find_step (min_base min_length : Z) (best : Z * Z) (e : e820_entry) : Z * Z :=
  if negb (type e =? E820_TYPE_USABLE) then best else
  if entry_end e <=? min_base then best else
  let effective_base := if base e >? min_base then base e else min_base in
  if effective_base >=? entry_end e then best else
  let effective_length := entry_end e ⊟ effective_base in
  if (effective_length >=? min_length) && (effective_length >? best.2)
  then (effective_base, effective_length) else best.
Definition e820_find_usable_range (s : state) (min_base min_length : Z) : option (Z * Z) :=
  if negb (initialized s) then None else
  let best := foldl (find_step min_base min_length) (0, 0) (entries s) in
  if best.2 >? 0 then Some best else None.

Definition e820_get_usable_memory_above (s : state) (min_base : Z) : Z :=
  if negb (initialized s) then 0 else
  foldl (λ max_usable e,
    if negb (type e =? E820_TYPE_USABLE) then max_usable
    else if entry_end e >? min_base
    then (if len e >? max_usable then len e else max_usable)
    else max_usable) 0 (entries s).

Definition e820_count_usable_regions (s : state) : Z :=
  if negb (initialized s) then 0 else
  foldl (λ c e, if type e =? E820_TYPE_USABLE then u32 (c + 1) else c) 0 (entries s).

(** ** The bootloader's encoding *)
Fixpoint write_le (n : nat) (v : Z) : list Z :=
  match n with O => [] | S n' => v mod 256 :: write_le n' (v / 256) end.
Definition encode_entry (e : e820_entry) : list Z :=
  write_le 8 (base e) ++ write_le 8 (len e) ++ write_le 4 (type e) ++ write_le 4 (acpi_attrs e).
Definition encode (method : Z) (es : list e820_entry) : list Z :=
  let n := Z.of_nat (length es) in
  [method; n mod 256; n / 256] ++ concat (encode_entry <$> es).

Definition wf_entry (e : e820_entry) : Prop :=
  is_u64 (base e) ∧ is_u64 (len e) ∧ is_u32 (type e) ∧ is_u32 (acpi_attrs e).

Lemma zlookup_app_l (p q : list Z) i : i < Z.of_nat (length p) → zlookup (p ++ q) i = zlookup p i.
Proof.
  intros. unfold zlookup. destruct (Z.ltb_spec i 0); [done|]. apply lookup_app_l. lia.
Qed.
Lemma zlookup_middle (p q : list Z) x : zlookup (p ++ x :: q) (Z.of_nat (length p)) = Some x.
Proof. rewrite zlookup_nonneg by lia. rewrite Nat2Z.id. by apply list_lookup_middle. Qed.

Lemma read_le_write n v p q : 0 ≤ v < 256 ^ Z.of_nat n →
  read_le n (Z.of_nat (length p)) (p ++ write_le n v ++ q) = Ret v.
Proof.
  revert v p. induction n as [|n IH]; intros v p Hv; cbn [read_le write_le app].
  - f_equal. simpl in Hv. lia.
  - rewrite zlookup_middle. cbn.
    replace (Z.of_nat (length p) + 1) with (Z.of_nat (length (p ++ [v mod 256])))
      by (rewrite length_app; simpl; lia).
    replace (p ++ v mod 256 :: write_le n (v / 256) ++ q)
      with ((p ++ [v mod 256]) ++ write_le n (v / 256) ++ q) by (by rewrite <- (assoc_L (++))).
    rewrite IH.
    + cbn. f_equal. pose proof (Z.div_mod v 256). lia.
    + rewrite Nat2Z.inj_succ, Z.pow_succ_r in Hv by lia.
      split; [apply Z.div_pos; lia|]. apply Z.div_lt_upper_bound; lia.
Qed.

Lemma length_write_le n v : length (write_le n v) = n.
Proof. revert v. induction n as [|n IH]; intros v; simpl; [done|]. by rewrite IH. Qed.

Lemma length_encode_entry e : length (encode_entry e) = 24%nat.
Proof. unfold encode_entry. by rewrite !length_app, !length_write_le. Qed.

Lemma read_entry_encode e p q : wf_entry e →
  read_entry (Z.of_nat (length p)) (p ++ encode_entry e ++ q) = Ret e.
Proof.
  intros (Hb & Hl & Ht & Ha). unfold read_entry, encode_entry.
  unfold is_u64, is_u32 in *. rewrite <- !(assoc_L (++)).
  rewrite read_le_write by (simpl; lia). cbn [mbind outcome_bind].
  set (p1 := p ++ write_le 8 (base e)).
  replace (Z.of_nat (length p) + 8) with (Z.of_nat (length p1))
    by (unfold p1; rewrite length_app, length_write_le; lia).
  rewrite (assoc_L (++) p). fold p1. rewrite read_le_write by (simpl; lia). cbn [mbind outcome_bind].
  set (p2 := p1 ++ write_le 8 (len e)).
  replace (Z.of_nat (length p) + 16) with (Z.of_nat (length p2))
    by (unfold p2, p1; rewrite !length_app, !length_write_le; lia).
  rewrite (assoc_L (++) p1). fold p2. rewrite read_le_write by (simpl; lia). cbn [mbind outcome_bind].
  set (p3 := p2 ++ write_le 4 (type e)).
  replace (Z.of_nat (length p) + 20) with (Z.of_nat (length p3))
    by (unfold p3, p2, p1; rewrite !length_app, !length_write_le; lia).
  rewrite (assoc_L (++) p2). fold p3. rewrite read_le_write by (simpl; lia). cbn. by destruct e.
Qed.

Lemma read_entries_encode es p : Forall wf_entry es →
  read_entries (length es) (Z.of_nat (length p)) (p ++ concat (encode_entry <$> es)) =
  Ret (skip_empty <$> es).
Proof.
  revert p. induction es as [|e es IH]; intros p Hes; [done|].
  apply Forall_cons in Hes as [He Hes]. cbn [read_entries length fmap list_fmap concat].
  rewrite read_entry_encode by done. cbn [mbind outcome_bind].
  replace (Z.of_nat (length p) + 24) with (Z.of_nat (length (p ++ encode_entry e)))
    by (rewrite length_app, length_encode_entry; lia).
  rewrite (assoc_L (++)), IH by done. done.
Qed.

(** ** The range search *)
Definition no_wrap (e : e820_entry) : Prop :=
  0 ≤ base e ∧ 0 ≤ len e ∧ base e + len e < 2 ^ 64.

(** The part of a usable entry at or above [min_base]: where it starts and how
    long it is. *)
Definition part_base (min_base : Z) (e : e820_entry) : Z := Z.max (base e) min_base.
Definition part_len (min_base : Z) (e : e820_entry) : Z := base e + len e - part_base min_base e.
Definition candidate (min_base min_length : Z) (e : e820_entry) : Prop :=
  type e = E820_TYPE_USABLE ∧ 0 < part_len min_base e ∧ min_length ≤ part_len min_base e.

Lemma find_step_spec mb ml best e : no_wrap e → 0 ≤ mb → 0 ≤ best.2 →
  find_step mb ml best e =
    if decide (candidate mb ml e ∧ best.2 < part_len mb e)
    then (part_base mb e, part_len mb e) else best.
Proof.
  intros (Hb & Hl & Ho) Hmb Hbest. unfold find_step, candidate, entry_end.
  rewrite u64_small by lia.
  destruct (Z.eqb_spec (type e) E820_TYPE_USABLE); cbn [negb]; [|case_decide; [tauto|done]].
  destruct (Z.leb_spec (base e + len e) mb).
  { case_decide as Hd; [|done]. unfold part_len, part_base in Hd. lia. }
  assert ((if base e >? mb then base e else mb) = part_base mb e) as ->.
  { unfold part_base. destruct (Z.gtb_spec (base e) mb); lia. }
  destruct (Z.geb_spec (part_base mb e) (base e + len e)).
  { case_decide as Hd; [|done]. unfold part_len in Hd. lia. }
  cbv zeta. rewrite u64_small by (unfold part_base in *; lia). fold (part_len mb e).
  destruct (Z.geb_spec (part_len mb e) ml), (Z.gtb_spec (part_len mb e) best.2);
    cbn [andb]; case_decide; try done; unfold part_len in *; lia.
Qed.

(** What the search has established after the entries [es]. *)
Definition best_of (mb ml : Z) (es : list e820_entry) (best : Z * Z) : Prop :=
  (∀ e, e ∈ es → candidate mb ml e → part_len mb e ≤ best.2) ∧
  (best = (0, 0) ∨ ∃ e, e ∈ es ∧ candidate mb ml e ∧ best = (part_base mb e, part_len mb e)).

Lemma find_fold_spec mb ml es done best : Forall no_wrap es → 0 ≤ mb →
  best_of mb ml done best → best_of mb ml (done ++ es) (foldl (find_step mb ml) best es).
Proof.
  intros Hes Hmb. revert done best. induction es as [|e es IH]; intros done best Hb.
  { by rewrite app_nil_r. }
  apply Forall_cons in Hes as [He Hes]. cbn [foldl].
  replace (done ++ e :: es) with ((done ++ [e]) ++ es) by (by rewrite <- (assoc_L (++))).
  apply IH; [done|]. destruct Hb as [Hmax Hwho].
  assert (0 ≤ best.2) as Hb2.
  { destruct Hwho as [->|(x & _ & (_ & Hx & _) & ->)]; simpl; lia. }
  rewrite find_step_spec by done. case_decide as Hd.
  - destruct Hd as [Hc Hlt]. split; [|right; exists e; set_solver].
    intros x Hx Hcx. simpl. apply elem_of_app in Hx as [Hx|Hx].
    + specialize (Hmax x Hx Hcx). lia.
    + apply list_elem_of_singleton in Hx as ->. lia.
  - split; [|destruct Hwho as [|(x & Hx & ?)]; [by left|right; exists x; set_solver]].
    intros x Hx Hcx. apply elem_of_app in Hx as [Hx|Hx]; [by apply Hmax|].
    apply list_elem_of_singleton in Hx as ->. apply Z.nlt_ge. tauto.
Qed.

End E820.

Import E820.

(** Decoding the table the bootloader writes gives back its entries, an
    empty region being kept with type 0. *)
Theorem e820_init_decodes_table method es :
  Forall wf_entry es → Z.of_nat (length es) ≤ E820_MAX_ENTRIES →
  e820_init (encode method es) state0 = Ret (mk_state (skip_empty <$> es) method true).
Proof.
  unfold E820_MAX_ENTRIES. intros Hes Hn. unfold e820_init, encode. cbn [initialized state0].
  cbn [app]. change (zlookup (?a :: ?b :: ?c :: ?l) 0) with (Some a).
  change (zlookup (?a :: ?b :: ?c :: ?l) 1) with (Some b).
  change (zlookup (?a :: ?b :: ?c :: ?l) 2) with (Some c).
  cbn [access mbind outcome_bind].
  rewrite Z.div_small, Z.shiftl_0_l, Z.lor_0_l, Z.mod_small by lia.
  destruct (Z.gtb_spec (Z.of_nat (length es)) E820_MAX_ENTRIES); [unfold E820_MAX_ENTRIES in *; lia|].
  rewrite Nat2Z.id.
  pose proof (read_entries_encode es [method; Z.of_nat (length es); 0] Hes) as Hr.
  cbn [length app] in Hr. change (Z.of_nat 3) with 3 in Hr. rewrite Hr. done.
Qed.

Lemma e820_init_witness :
  e820_init (encode 0 [mk_entry 0 0x9FC00 1 0; mk_entry 0x9FC00 0 2 0]) state0 =
  Ret (mk_state [mk_entry 0 0x9FC00 1 0; mk_entry 0x9FC00 0 0 0] 0 true).
Proof.
  apply (e820_init_decodes_table 0 [mk_entry 0 0x9FC00 1 0; mk_entry 0x9FC00 0 2 0]).
  - repeat constructor; unfold is_u64, is_u32; cbn; lia.
  - vm_compute. discriminate.
Defined.

(** [e820_find_usable_range] returns the longest part at or above
    [min_base] of a usable region, of at least the requested length, and fails
    only when there is none. *)
Theorem e820_find_usable_range_largest s mb ml :
  initialized s = true → Forall no_wrap (entries s) → 0 ≤ mb →
  match e820_find_usable_range s mb ml with
  | Some (b, l) => ∃ e, e ∈ entries s ∧ candidate mb ml e ∧ b = part_base mb e ∧ l = part_len mb e ∧
      ∀ e', e' ∈ entries s → candidate mb ml e' → part_len mb e' ≤ l
  | None => ∀ e, e ∈ entries s → ¬ candidate mb ml e
  end.
Proof.
  intros Hi Hes Hmb. unfold e820_find_usable_range. rewrite Hi. cbn [negb].
  pose proof (find_fold_spec mb ml (entries s) [] (0, 0) Hes Hmb) as Hf. cbn [app] in Hf.
  destruct Hf as [Hmax Hwho]; [split; [set_solver|by left]|].
  destruct (foldl _ _ _) as [b l]. cbn [snd] in *. destruct (Z.gtb_spec l 0).
  - destruct Hwho as [[= -> ->]|(e & He & Hc & [= -> ->])]; [lia|]. exists e. auto.
  - intros e He Hc. specialize (Hmax e He Hc). destruct Hc as (_ & Hpos & _). lia.
Qed.

Lemma e820_find_usable_witness :
  e820_find_usable_range
    (mk_state [mk_entry 0 0x9FC00 1 0; mk_entry 0x100000 0x300000 1 0] 0 true) 0x80000 0x1000 =
  Some (0x100000, 0x300000).
Proof.
  pose proof (e820_find_usable_range_largest
    (mk_state [mk_entry 0 0x9FC00 1 0; mk_entry 0x100000 0x300000 1 0] 0 true) 0x80000 0x1000
    eq_refl ltac:(repeat constructor; cbn; lia) ltac:(lia)) as Hm.
  destruct (e820_find_usable_range _ _ _) as [[b l]|] eqn:Hf; vm_compute in Hf;
    [exact (eq_sym Hf)|discriminate].
Defined.

(** [e820_is_range_usable] only looks for overlapping entries that are not
    usable: a range that no entry of the map covers is reported usable. *)
Theorem e820_unmapped_range_reported_usable s b l :
  initialized s = true → (∀ e, e ∈ entries s → MemState.ranges_overlap b (b ⊞ l) (base e) (entry_end e) = false) →
  e820_is_range_usable s b l = true.
Proof.
  intros Hi Hno. unfold e820_is_range_usable. rewrite Hi. cbn [negb]. destruct (l =? 0); [done|].
  induction (entries s) as [|e es IH]; [done|]. cbn [range_usable_loop].
  rewrite Hno by set_solver. cbn [negb]. apply IH. intros e' He'. apply Hno. set_solver.
Qed.

Lemma e820_unmapped_witness :
  e820_is_range_usable (mk_state [mk_entry 0 0x9FC00 1 0] 0 true) 0x10000000 0x1000 = true.
Proof.
  apply (e820_unmapped_range_reported_usable (mk_state [mk_entry 0 0x9FC00 1 0] 0 true)).
  - reflexivity.
  - intros e He. cbn in He. apply list_elem_of_singleton in He as ->. reflexivity.
Defined.
