(* ===== verification/Pframe.v ===== *)
(** * The physical frame allocator: [kernel/mm/pframe/pframe.c]

    The state is the static [s_pframe_state]; every public function runs under
    [s_pframe_lock] and is one atomic transition of it. The address of the
    static bitmap storage is a parameter, fixed by the linker. *)
From S2P Require Import Prelude Bits Mem Bitmap E820.
From Stdlib Require Import Btauto.

Module Pframe.
Import Bitmap.

(** ** Data *)
Definition PAGE_SHIFT := 12.
Definition PAGE_SIZE := 4096.
Definition PFRAME_MAX_BITMAP_SIZE := 2 * 1024 * 1024.
Definition PFRAME_MIN_ALLOC_BASE := 0x100000.
Definition PFRAME_BIOS_END := 0x100000.
Definition PFRAME_E820_STORAGE_ADDR := 0x6000.
Definition PFRAME_PAGE_TABLE_START := 0x9000.
Definition PFRAME_PAGE_TABLE_END := 0xBFFF.
Definition PFRAME_KERNEL_LOAD_ADDR := 0x10000.
Definition PFRAME_KERNEL_MAX_SIZE := 1 * 1024 * 1024.

Inductive pframe_result :=
  | PFRAME_OK | PFRAME_ERR_NOT_INIT | PFRAME_ERR_OOM | PFRAME_ERR_INVALID | PFRAME_ERR_ALIGN.
#[export] Instance pframe_result_eq_dec : EqDecision pframe_result.
Proof. solve_decision. Defined.

Record pframe_state := mk_pframe {
  frame_map : bitmap;
  total_frames : Z;
  managed_base : Z;
  managed_end : Z;
  last_alloc_hint : Z;
  initialized : bool
}.

Record pframe_stats := mk_pstats {
  st_total : Z; st_free : Z; st_allocated : Z; st_reserved : Z;
  st_bitmap_bytes : Z; st_managed_start : Z; st_managed_end : Z
}.

Definition set_map (s : pframe_state) (m : bitmap) : pframe_state :=
  mk_pframe m (total_frames s) (managed_base s) (managed_end s) (last_alloc_hint s) (initialized s).
Definition set_hint (s : pframe_state) (h : Z) : pframe_state :=
  mk_pframe (frame_map s) (total_frames s) (managed_base s) (managed_end s) h (initialized s).
Definition set_initialized (s : pframe_state) : pframe_state :=
  mk_pframe (frame_map s) (total_frames s) (managed_base s) (managed_end s) (last_alloc_hint s) true.

(** ** Helpers *)
Definition addr_to_frame (addr : Z) : Z := Z.shiftr addr PAGE_SHIFT.
Definition frame_to_addr (frame : Z) : Z := u64 (Z.shiftl frame PAGE_SHIFT).
Definition is_page_aligned (addr : Z) : bool := Z.land addr (PAGE_SIZE - 1) =? 0.

(** The frames [mark_region_*] acts on: the region shrunk to whole pages. *)
Definition region_start (base : Z) : Z := addr_to_frame (MemState.align_up base PAGE_SHIFT).
Definition region_end (base length : Z) : Z :=
  addr_to_frame (MemState.align_down (base ⊞ length) PAGE_SHIFT).

Definition mark_region (op : bitmap → Z → Z → outcome bitmap) (s : pframe_state) (base length : Z)
    : outcome pframe_state :=
  if length =? 0 then Ret s else
  let start_frame := region_start base in
  let end_frame := region_end base length in
  if start_frame <? total_frames s then
    let end_frame := if end_frame >? total_frames s then total_frames s else end_frame in
    let frame_count := end_frame ⊟ start_frame in
    m ← op (frame_map s) start_frame frame_count; Ret (set_map s m)
  else Ret s.
Definition mark_region_reserved (ndebug : bool) := mark_region (bitmap_set_range ndebug).
Definition mark_region_free (ndebug : bool) := mark_region (bitmap_clear_range ndebug).

(** ** [pframe_init] *)
Definition highest_usable (es : list E820.e820_entry) : Z :=
  foldl (λ max_addr e,
    let entry_end := E820.base e ⊞ E820.len e in
    if (E820.type e =? E820.E820_TYPE_USABLE) && (entry_end >? max_addr)
    then entry_end else max_addr) 0 es.

Fixpoint free_usable (ndebug : bool) (es : list E820.e820_entry) (s : pframe_state) : outcome pframe_state :=
  match es with
  | [] => Ret s
  | e :: es' =>
      s' ← (if E820.type e =? E820.E820_TYPE_USABLE
            then mark_region_free ndebug s (E820.base e) (E820.len e) else Ret s);
      free_usable ndebug es' s'
  end.

(** [e820] holds the entries [e820_get_entry] delivers (none before
    [e820_init]) and [usable] what [e820_get_stats] wrote; [storage_addr] and
    [storage] are the address and contents of [s_frame_bitmap_storage]. *)
Definition pframe_init (ndebug : bool) (e820 : list E820.e820_entry) (usable : Z)
    (storage_addr : Z) (storage : list Z) (s : pframe_state)
    : outcome (pframe_result * pframe_state) :=
  if initialized s then Ret (PFRAME_OK, s) else
  if usable =? 0 then Ret (PFRAME_ERR_INVALID, s) else
  let max_addr := MemState.align_down (highest_usable e820) PAGE_SHIFT in
  let total := MemState.bytes_to_pages max_addr in
  let s := mk_pframe (frame_map s) total PFRAME_MIN_ALLOC_BASE max_addr
             (addr_to_frame PFRAME_MIN_ALLOC_BASE) false in
  let bitmap_bytes := (total ⊞ 7) / 8 in
  if bitmap_bytes >? PFRAME_MAX_BITMAP_SIZE then Ret (PFRAME_ERR_INVALID, s) else
  m ← bitmap_init ndebug storage total;
  m ← bitmap_set_range ndebug m 0 total;
  s ← free_usable ndebug e820 (set_map s m);
  s ← mark_region_reserved ndebug s 0 PFRAME_BIOS_END;
  s ← mark_region_reserved ndebug s PFRAME_E820_STORAGE_ADDR PAGE_SIZE;
  s ← mark_region_reserved ndebug s PFRAME_PAGE_TABLE_START
        (PFRAME_PAGE_TABLE_END - PFRAME_PAGE_TABLE_START + 1);
  s ← mark_region_reserved ndebug s PFRAME_KERNEL_LOAD_ADDR PFRAME_KERNEL_MAX_SIZE;
  s ← mark_region_reserved ndebug s storage_addr PFRAME_MAX_BITMAP_SIZE;
  Ret (PFRAME_OK, set_initialized s).

(** ** Allocation *)
Definition next_hint (s : pframe_state) (h : Z) : Z :=
  if h >=? total_frames s then addr_to_frame PFRAME_MIN_ALLOC_BASE else h.

(** The address is delivered through [out_addr]: [None] leaves it untouched. *)
Definition pframe_alloc (s : pframe_state)
    : outcome (pframe_result * option Z * pframe_state) :=
  if negb (initialized s) then Ret (PFRAME_ERR_NOT_INIT, None, s) else
  idx ← bitmap_find_next_zero (frame_map s) (last_alloc_hint s);
  idx ← (if idx <? 0 then bitmap_find_first_zero (frame_map s) else Ret idx);
  if idx <? 0 then Ret (PFRAME_ERR_OOM, None, s) else
  m ← bitmap_set (frame_map s) idx;
  let s := set_map s m in
  let s := set_hint s (next_hint s (idx ⊞ 1)) in
  Ret (PFRAME_OK, Some (frame_to_addr idx), s).

(** The run search of [pframe_alloc_n], from [i] over [n] frames, carrying
    [run_start] and [run_length]; [Some start] when a run is complete. *)
Fixpoint find_run (n : nat) (i : Z) (m : bitmap) (frame_count run_start run_length : Z)
    : outcome (option Z) :=
  match n with
  | O => Ret None
  | S n' =>
      b ← bitmap_test m i;
      if negb b then
        let run_start := if run_length =? 0 then i else run_start in
        let run_length := run_length ⊞ 1 in
        if run_length >=? frame_count then Ret (Some run_start)
        else find_run n' (i + 1) m frame_count run_start run_length
      else find_run n' (i + 1) m frame_count run_start 0
  end.

Definition pframe_alloc_n (s : pframe_state) (frame_count : Z)
    : outcome (pframe_result * option Z * pframe_state) :=
  if negb (initialized s) then Ret (PFRAME_ERR_NOT_INIT, None, s) else
  if frame_count =? 0 then Ret (PFRAME_ERR_INVALID, None, s) else
  if frame_count >? total_frames s then Ret (PFRAME_ERR_OOM, None, s) else
  let start_frame := last_alloc_hint s in
  let min_frame := addr_to_frame PFRAME_MIN_ALLOC_BASE in
  r ← find_run (Z.to_nat (total_frames s - start_frame)) start_frame (frame_map s) frame_count 0 0;
  r ← match r with
      | Some _ => Ret r
      | None => find_run (Z.to_nat (Z.min start_frame (total_frames s) - min_frame)) min_frame
                  (frame_map s) frame_count 0 0
      end;
  match r with
  | None => Ret (PFRAME_ERR_OOM, None, s)
  | Some run_start =>
      m ← bitmap_set_range false (frame_map s) run_start frame_count;
      let s := set_map s m in
      let s := set_hint s (next_hint s (run_start ⊞ frame_count)) in
      Ret (PFRAME_OK, Some (frame_to_addr run_start), s)
  end.

(** ** Release and queries *)
Definition pframe_free (s : pframe_state) (addr : Z) : outcome (pframe_result * pframe_state) :=
  if negb (initialized s) then Ret (PFRAME_ERR_NOT_INIT, s) else
  if negb (is_page_aligned addr) then Ret (PFRAME_ERR_INVALID, s) else
  let frame := addr_to_frame addr in
  if frame >=? total_frames s then Ret (PFRAME_ERR_INVALID, s) else
  b ← bitmap_test (frame_map s) frame;
  if negb b then Ret (PFRAME_ERR_INVALID, s) else
  m ← bitmap_clear (frame_map s) frame;
  Ret (PFRAME_OK, set_map s m).

Definition pframe_free_n (s : pframe_state) (addr frame_count : Z)
    : outcome (pframe_result * pframe_state) :=
  if negb (initialized s) then Ret (PFRAME_ERR_NOT_INIT, s) else
  if frame_count =? 0 then Ret (PFRAME_ERR_INVALID, s) else
  if negb (is_page_aligned addr) then Ret (PFRAME_ERR_INVALID, s) else
  let start_frame := addr_to_frame addr in
  if start_frame >=? total_frames s then Ret (PFRAME_ERR_INVALID, s) else
  if start_frame ⊞ frame_count >? total_frames s then Ret (PFRAME_ERR_INVALID, s) else
  m ← bitmap_clear_range false (frame_map s) start_frame frame_count;
  Ret (PFRAME_OK, set_map s m).

Definition pframe_get_stats (s : pframe_state) : outcome (pframe_result * option pframe_stats) :=
  if negb (initialized s) then Ret (PFRAME_ERR_NOT_INIT, None) else
  allocated ← bitmap_weight (frame_map s);
  Ret (PFRAME_OK, Some (mk_pstats (total_frames s) (total_frames s ⊟ allocated) allocated
    (addr_to_frame PFRAME_MIN_ALLOC_BASE) ((total_frames s ⊞ 7) / 8)
    (managed_base s) (managed_end s))).

Definition pframe_is_allocated (s : pframe_state) (addr : Z) : outcome bool :=
  if negb (initialized s) then Ret false else
  let frame := addr_to_frame addr in
  if frame >=? total_frames s then Ret false else bitmap_test (frame_map s) frame.

Definition pframe_get_total_frames (s : pframe_state) : Z :=
  if negb (initialized s) then 0 else total_frames s.

Definition pframe_get_free_frames (s : pframe_state) : outcome Z :=
  if negb (initialized s) then Ret 0 else
  '(_, st) ← pframe_get_stats s; Ret (from_option st_free 0 st).

(** ** Invariant *)
Record inv (s : pframe_state) : Prop := {
  inv_wf : wf (frame_map s);
  inv_total : nbits (frame_map s) = total_frames s;
  inv_small : total_frames s ≤ 2 ^ 24;
  inv_hint : 0 ≤ last_alloc_hint s;
  inv_pad : pad_clear (frame_map s)
}.

Definition allocated (s : pframe_state) (f : Z) : bool := bit (frame_map s) f.

(** [s'] is [s] with the frames in [start, start+count) set to [v]. *)
Definition changed (s s' : pframe_state) (start count : Z) (v : bool) : Prop :=
  total_frames s' = total_frames s ∧ initialized s' = initialized s ∧
  ∀ f, 0 ≤ f < total_frames s →
    allocated s' f = if (start <=? f) && (f <? start + count) then v else allocated s f.

(** ** Frames and addresses *)
Lemma addr_to_frame_div a : addr_to_frame a = a / 4096.
Proof. unfold addr_to_frame, PAGE_SHIFT. rewrite Z.shiftr_div_pow2 by lia. done. Qed.

Lemma frame_to_addr_mul f : 0 ≤ f < 2 ^ 52 → frame_to_addr f = 4096 * f.
Proof.
  intros Hf. unfold frame_to_addr. rewrite Z.shiftl_mul_pow2 by (unfold PAGE_SHIFT; lia).
  unfold PAGE_SHIFT. rewrite u64_small by lia. lia.
Qed.

Lemma is_page_aligned_iff a : is_page_aligned a = true ↔ (4096 | a).
Proof.
  unfold is_page_aligned, PAGE_SIZE. change (4096 - 1) with (2 ^ 12 - 1).
  rewrite mask_land, Z.eqb_eq by lia. rewrite Z.mod_divide by lia. done.
Qed.

Lemma frame_addr_roundtrip f : 0 ≤ f < 2 ^ 52 →
  is_page_aligned (frame_to_addr f) = true ∧ addr_to_frame (frame_to_addr f) = f.
Proof.
  intros Hf. rewrite frame_to_addr_mul by done. split.
  - apply is_page_aligned_iff. exists f. lia.
  - rewrite addr_to_frame_div. replace (4096 * f) with (f * 4096) by lia.
    apply Z.div_mul. lia.
Qed.

(** The whole page [f] lies inside the region. *)
Definition frame_inside (base length f : Z) : bool :=
  (base <=? 4096 * f) && (4096 * (f + 1) <=? base + length).

(** A region whose end, rounded up, is still an address. *)
Definition fits (base length : Z) : Prop :=
  0 ≤ base ∧ 0 ≤ length ∧ base + length + 4096 < 2 ^ 64.

Lemma region_frames base length f : fits base length →
  (region_start base <=? f) && (f <? region_end base length) = frame_inside base length f.
Proof.
  intros (Hb & Hl & Ho). unfold region_start, region_end, frame_inside, PAGE_SHIFT.
  rewrite mem_align_up_value by (unfold is_u64; lia).
  rewrite mem_align_down_value by (first [apply u64_range | lia]).
  rewrite !addr_to_frame_div, u64_small by lia. change (2 ^ 12) with 4096.
  unfold round_up_to, round_down_to.
  rewrite !(Z.mul_comm 4096 (_ / _)), !Z.div_mul by lia.
  pose proof (Z.div_mod (base + 4096 - 1) 4096). pose proof (Z.mod_pos_bound (base + 4096 - 1) 4096).
  pose proof (Z.div_mod (base + length) 4096). pose proof (Z.mod_pos_bound (base + length) 4096).
  Mem.split_range.
Qed.

Lemma region_bounds base length : fits base length →
  0 ≤ region_start base < 2 ^ 53 ∧ 0 ≤ region_end base length < 2 ^ 53.
Proof.
  intros (Hb & Hl & Ho). unfold region_start, region_end, PAGE_SHIFT.
  rewrite mem_align_up_value by (unfold is_u64; lia).
  rewrite mem_align_down_value by (first [apply u64_range | lia]).
  rewrite !addr_to_frame_div, u64_small by lia. change (2 ^ 12) with 4096.
  pose proof (round_up_to_spec 4096 base). pose proof (round_down_to_spec 4096 (base + length)).
  split; split; first [apply Z.div_pos; [|lia] | apply Z.div_lt_upper_bound; lia]; try lia.
  unfold round_down_to. apply Z.mul_nonneg_nonneg; [lia|]. apply Z.div_pos; lia.
Qed.

(** ** Transitions that only rewrite the map *)
Lemma pad_clear_ext m m' : nbits m' = nbits m → pad_clear m →
  (∀ j, nbits m ≤ j → bit m' j = bit m j) → pad_clear m'.
Proof.
  unfold pad_clear. intros Hn Hp Hb i Hi. rewrite Hn in Hi. rewrite Hb by lia. apply Hp. lia.
Qed.

Lemma inv_set_map s m : inv s → wf m → nbits m = nbits (frame_map s) →
  (∀ j, nbits (frame_map s) ≤ j → bit m j = bit (frame_map s) j) → inv (set_map s m).
Proof.
  intros [Hw Ht Hs Hh Hp] Hwm Hn Hb. constructor; cbn; [done|congruence|done|done|].
  by eapply pad_clear_ext.
Qed.

Lemma inv_set_hint s h : inv s → 0 ≤ h → inv (set_hint s h).
Proof. intros [Hw Ht Hs Hh Hp] Hh'. by constructor. Qed.

Lemma next_hint_nonneg s h : 0 ≤ h → 0 ≤ next_hint s h.
Proof. unfold next_hint. by destruct (h >=? total_frames s). Qed.

Lemma inv_nonneg s : inv s → 0 ≤ total_frames s.
Proof. intros [[? _ _] <- _ _ _]. lia. Qed.

(** Everything but the map and the hint. *)
Definition config (s : pframe_state) : Z * Z * Z * bool :=
  (total_frames s, managed_base s, managed_end s, initialized s).
Definition same_config (s s' : pframe_state) : Prop := config s' = config s.

(** A region whose bounds, rounded inwards to pages, coincide: the count passed to
    the bitmap is 0, which a Debug build does not accept. *)
Definition region_stops (total base length : Z) : bool :=
  negb (length =? 0) && (region_start base <? total) && (region_end base length =? region_start base).

Lemma mark_region_spec nd op v s base length :
  inv s → fits base length →
  (∀ m start count, wf m → 0 ≤ start → if nd || (0 <? count) then ∃ m', op m start count = Ret m' ∧ wf m' ∧
     nbits m' = nbits m ∧ Datatypes.length (bits m') = Datatypes.length (bits m) ∧
     ∀ j, 0 ≤ j → bit m' j = (if in_range m start count j then v else bit m j)
   else op m start count = Fail AssertFail) →
  if negb nd && region_stops (total_frames s) base length then mark_region op s base length = Fail AssertFail
  else ∃ s', mark_region op s base length = Ret s' ∧ inv s' ∧ same_config s s' ∧
    ∀ f, 0 ≤ f < total_frames s →
      allocated s' f = if frame_inside base length f then v else allocated s f.
Proof.
  intros Hinv Hfit Hop. pose proof (region_bounds base length Hfit) as [Hrs Hre].
  unfold mark_region, region_stops. destruct (Z.eqb_spec length 0) as [->|Hl0]; cbn [negb andb].
  { rewrite andb_false_r. exists s. split_and!; try done. intros f Hf.
    unfold frame_inside. Mem.split_range. }
  destruct (Z.ltb_spec (region_start base) (total_frames s)) as [Hlt|Hge]; cbn [andb].
  - cbv zeta. set (e := if region_end base length >? total_frames s then _ else _).
    assert (e = Z.min (region_end base length) (total_frames s)) as ->
      by (unfold e; destruct (Z.gtb_spec (region_end base length) (total_frames s)); lia).
    pose proof (inv_nonneg s Hinv). pose proof (inv_small s Hinv).
    pose proof (Hop (frame_map s) (region_start base)
      (Z.min (region_end base length) (total_frames s) ⊟ region_start base) (inv_wf s Hinv) ltac:(lia)) as Hop'.
    assert ((0 <? Z.min (region_end base length) (total_frames s) ⊟ region_start base) = negb (region_end base length =? region_start base)) as Hcount.
    { destruct (Z.eqb_spec (region_end base length) (region_start base)) as [->|Hne].
      - rewrite Z.min_l, Z.sub_diag by lia. done.
      - apply Z.ltb_lt. assert (0 ≤ u64 (Z.min (region_end base length) (total_frames s) - region_start base)) by apply u64_range.
        assert (u64 (Z.min (region_end base length) (total_frames s) - region_start base) ≠ 0); [|lia]. unfold u64. intros Hz.
        apply Z.mod_divide in Hz as [k Hk]; [|lia]. lia. }
    rewrite Hcount in Hop'.
    replace (negb nd && (region_end base length =? region_start base)) with (negb (nd || negb (region_end base length =? region_start base)))
      by (by destruct nd, (region_end base length =? region_start base)).
    destruct (nd || negb (region_end base length =? region_start base)); cbn [negb]; [|by rewrite Hop'].
    destruct Hop' as (m' & Hm & Hw & Hn & Hlen & Hb). rewrite Hm. cbn. eexists. split; [done|].
    assert (∀ j, in_range (frame_map s) (region_start base)
      (Z.min (region_end base length) (total_frames s) ⊟ region_start base) j =
      (region_start base <=? j) && (j <? Z.min (region_end base length) (total_frames s))) as Hrange.
    { intros j. unfold in_range, range_end. rewrite (inv_total s Hinv).
      unfold u64. rewrite Zplus_mod_idemp_r.
      replace (region_start base + (Z.min (region_end base length) (total_frames s) - region_start base))
        with (Z.min (region_end base length) (total_frames s)) by lia.
      rewrite Z.mod_small by lia. do 2 f_equal. lia. }
    split; [|repeat split].
    + apply inv_set_map; [done|done|done|]. intros j Hj. pose proof (inv_total s Hinv).
      rewrite Hb, Hrange by lia. Mem.split_range.
    + intros f Hf. unfold allocated; cbn. rewrite Hb, Hrange by lia.
      rewrite <- region_frames by done. Mem.split_range.
  - rewrite andb_false_r. exists s. split_and!; try done. intros f Hf.
    rewrite <- region_frames by done. Mem.split_range.
Qed.

(** ** Allocation of one frame *)
Lemma pframe_alloc_cases s : inv s → initialized s = true →
  (∃ f s', pframe_alloc s = Ret (PFRAME_OK, Some (frame_to_addr f), s') ∧
     0 ≤ f < total_frames s ∧ allocated s f = false ∧ changed s s' f 1 true ∧ inv s') ∨
  (pframe_alloc s = Ret (PFRAME_ERR_OOM, None, s) ∧
     ∀ f, 0 ≤ f < total_frames s → allocated s f = true).
Proof.
  intros Hinv Hi. pose proof (inv_total s Hinv) as Ht. pose proof (inv_small s Hinv).
  pose proof (inv_hint s Hinv) as Hh. pose proof (inv_wf s Hinv) as Hw.
  unfold pframe_alloc. rewrite Hi. cbn [negb].
  assert (∀ f, 0 ≤ f < nbits (frame_map s) → bit (frame_map s) f = false →
    ∃ s', (m ← bitmap_set (frame_map s) f;
           let s0 := set_map s m in let s0 := set_hint s0 (next_hint s0 (f ⊞ 1)) in
           Ret (PFRAME_OK, Some (frame_to_addr f), s0))
          = Ret (PFRAME_OK, Some (frame_to_addr f), s') ∧ changed s s' f 1 true ∧ inv s') as Htake.
  { intros f Hf Hb. destruct (bitmap_set_spec (frame_map s) f Hw Hf) as (m & -> & Hwm & Hn & _ & Hbm).
    cbn. eexists. split; [done|]. split.
    - split; [done|]. split; [done|]. intros g Hg. unfold allocated; cbn. rewrite Hbm by lia.
      Mem.split_range.
    - apply inv_set_hint; [|apply next_hint_nonneg, u64_range].
      apply inv_set_map; [done|done|done|]. intros j Hj. rewrite Hbm by lia. Mem.split_range. }
  assert (∀ f, 0 ≤ f → (f <? 0) = false) as Hpos by (intros; by apply Z.ltb_ge).
  destruct (bitmap_find_next_zero_spec (frame_map s) (last_alloc_hint s) Hw Hh)
    as [(r & -> & Hr & Hz & _)|[-> Hfull]]; cbn [mbind outcome_bind].
  - rewrite (Hpos r) by lia. cbn [mbind outcome_bind]. rewrite (Hpos r) by lia.
    destruct (Htake r) as (s' & Hs & Hc & Hi'); [lia|done|].
    left. exists r, s'. split_and!; first [done | lia].
  - cbn [Z.ltb Z.compare]. unfold bitmap_find_first_zero.
    destruct (bitmap_find_next_zero_spec (frame_map s) 0 Hw) as [(r & -> & Hr & Hz & _)|[-> Hall]];
      [lia| |]; cbn [mbind outcome_bind].
    + rewrite (Hpos r) by lia. destruct (Htake r) as (s' & Hs & Hc & Hi'); [lia|done|].
      left. exists r, s'. split_and!; first [done | lia].
    + right. split; [done|]. intros f Hf. apply Hall. lia.
Qed.

(** ** Allocation of a run of frames *)
Lemma find_run_spec n i m c rs rl :
  wf m → 0 ≤ i → i + Z.of_nat n ≤ nbits m → c ≤ 2 ^ 62 → 0 ≤ rl < c → rl ≤ i →
  (0 < rl → rs = i - rl) → (∀ j, i - rl ≤ j < i → bit m j = false) →
  (∃ r, find_run n i m c rs rl = Ret (Some r) ∧ i - rl ≤ r ∧ r + c ≤ i + Z.of_nat n ∧
        ∀ j, r ≤ j < r + c → bit m j = false) ∨
  (find_run n i m c rs rl = Ret None ∧
     ∀ r, i - rl ≤ r → r + c ≤ i + Z.of_nat n → ∃ j, r ≤ j < r + c ∧ bit m j = true).
Proof.
  intros Hw. revert i rs rl. induction n as [|n IH]; intros i rs rl Hi Hn Hc Hrl Hri Hrs Hfree.
  { right. split; [done|]. intros r Hr Hrc. lia. }
  cbn [find_run]. rewrite bitmap_test_spec by (auto with lia). cbn [mbind outcome_bind].
  destruct (bit m i) eqn:Hb; cbn [negb].
  - destruct (IH (i + 1) rs 0) as [(r & Hr & Hr1 & Hr2 & Hr3)|[Hr Hno]]; try lia.
    + left. exists r. repeat split; [done|lia|lia|done].
    + right. split; [done|]. intros q Hq1 Hq2. destruct (Z.lt_ge_cases i q).
      * apply Hno; lia.
      * exists i. split; [lia|done].
  - rewrite u64_small by lia.
    assert ((if rl =? 0 then i else rs) = i - rl) as Hstart.
    { destruct (Z.eqb_spec rl 0); [lia|]. apply Hrs. lia. }
    rewrite Hstart. destruct (Z.geb_spec (rl + 1) c) as [Hdone|Hmore].
    + left. exists (i - rl). repeat split; [lia|lia|]. intros j Hj.
      destruct (Z.eq_dec j i) as [->|]; [done|]. apply Hfree. lia.
    + destruct (IH (i + 1) (i - rl) (rl + 1)) as [(r & Hr & Hr1 & Hr2 & Hr3)|[Hr Hno]]; try lia.
      * intros j Hj. destruct (Z.eq_dec j i) as [->|]; [done|]. apply Hfree. lia.
      * left. exists r. repeat split; [done|lia|lia|done].
      * right. split; [done|]. intros q Hq1 Hq2. apply Hno; lia.
Qed.

(** No run of [c] free frames inside [lo, hi). *)
Definition no_run (s : pframe_state) (c lo hi : Z) : Prop :=
  ∀ r, lo ≤ r → r + c ≤ hi → ∃ f, r ≤ f < r + c ∧ allocated s f = true.

Lemma find_run_search s c lo hi : inv s → 0 < c ≤ total_frames s → 0 ≤ lo → hi ≤ total_frames s →
  (∃ r, find_run (Z.to_nat (hi - lo)) lo (frame_map s) c 0 0 = Ret (Some r) ∧
        lo ≤ r ∧ r + c ≤ hi ∧ ∀ f, r ≤ f < r + c → allocated s f = false) ∨
  (find_run (Z.to_nat (hi - lo)) lo (frame_map s) c 0 0 = Ret None ∧ no_run s c lo hi).
Proof.
  intros Hinv Hc Hlo Hhi. pose proof (inv_total s Hinv). pose proof (inv_small s Hinv).
  destruct (Z.lt_ge_cases hi lo) as [Hlt|Hge].
  { right. replace (Z.to_nat (hi - lo)) with 0%nat by lia. split; [done|]. intros r ? ?. lia. }
  destruct (find_run_spec (Z.to_nat (hi - lo)) lo (frame_map s) c 0 0)
    as [(r & Hr & Hr1 & Hr2 & Hr3)|[Hr Hno]]; try lia; [apply Hinv| |].
  - left. exists r. repeat split; [done|lia|lia|done].
  - right. split; [done|]. intros q Hq1 Hq2. apply Hno; lia.
Qed.

Lemma pframe_alloc_n_cases s c : inv s → initialized s = true → 0 < c ≤ total_frames s →
  (∃ r s', pframe_alloc_n s c = Ret (PFRAME_OK, Some (frame_to_addr r), s') ∧
     0 ≤ r ∧ r + c ≤ total_frames s ∧ (∀ f, r ≤ f < r + c → allocated s f = false) ∧
     changed s s' r c true ∧ inv s') ∨
  (pframe_alloc_n s c = Ret (PFRAME_ERR_OOM, None, s) ∧
     no_run s c (last_alloc_hint s) (total_frames s) ∧
     no_run s c 256 (Z.min (last_alloc_hint s) (total_frames s))).
Proof.
  intros Hinv Hi Hc. pose proof (inv_small s Hinv). pose proof (inv_hint s Hinv).
  pose proof (inv_total s Hinv) as Ht.
  unfold pframe_alloc_n. rewrite Hi. cbn [negb].
  destruct (Z.eqb_spec c 0); [lia|]. destruct (Z.gtb_spec c (total_frames s)); [lia|].
  change (addr_to_frame PFRAME_MIN_ALLOC_BASE) with 256. cbv zeta.
  assert (∀ r, 0 ≤ r → r + c ≤ total_frames s → (∀ f, r ≤ f < r + c → allocated s f = false) →
    ∃ s', (m ← bitmap_set_range false (frame_map s) r c;
           let s0 := set_map s m in let s0 := set_hint s0 (next_hint s0 (r ⊞ c)) in
           Ret (PFRAME_OK, Some (frame_to_addr r), s0))
          = Ret (PFRAME_OK, Some (frame_to_addr r), s') ∧ changed s s' r c true ∧ inv s') as Htake.
  { intros r Hr Hrc Hfree.
    pose proof (bitmap_set_range_spec false (frame_map s) r c (inv_wf s Hinv) Hr) as Hset. rewrite (proj2 (Z.ltb_lt 0 c)) in Hset by lia.
    destruct Hset as (m & -> & Hwm & Hn & _ & Hbm). cbn. eexists. split; [done|].
    unfold in_range, range_end in Hbm. rewrite u64_small in Hbm by lia. split.
    - split; [done|]. split; [done|]. intros g Hg. unfold allocated; cbn. rewrite Hbm by lia.
      Mem.split_range.
    - apply inv_set_hint; [|apply next_hint_nonneg, u64_range].
      apply inv_set_map; [done|done|done|]. intros j Hj. rewrite Hbm by lia. Mem.split_range. }
  destruct (find_run_search s c (last_alloc_hint s) (total_frames s))
    as [(r & -> & Hr1 & Hr2 & Hr3)|[-> Hno1]]; try lia; [done| |]; cbn [mbind outcome_bind].
  - destruct (Htake r) as (s' & Hs & Hch & Hi'); [lia|lia|done|]. left. exists r, s'.
    split_and!; first [done | lia].
  - destruct (find_run_search s c 256 (Z.min (last_alloc_hint s) (total_frames s)))
      as [(r & -> & Hr1 & Hr2 & Hr3)|[-> Hno2]]; try lia; [done| |]; cbn [mbind outcome_bind].
    + destruct (Htake r) as (s' & Hs & Hch & Hi'); [lia|lia|done|]. left. exists r, s'.
      split_and!; first [done | lia].
    + right. done.
Qed.

(** ** Initialization *)
Definition usable_entry (e : E820.e820_entry) : bool := E820.type e =? E820.E820_TYPE_USABLE.

(** The frame lies wholly inside one usable region of the map. *)
Definition usable_covers (es : list E820.e820_entry) (f : Z) : bool :=
  existsb (λ e, usable_entry e && frame_inside (E820.base e) (E820.len e) f) es.

(** The regions the kernel keeps for itself. *)
Definition reserved_regions (storage_addr : Z) : list (Z * Z) :=
  [(0, PFRAME_BIOS_END); (PFRAME_E820_STORAGE_ADDR, PAGE_SIZE);
   (PFRAME_PAGE_TABLE_START, PFRAME_PAGE_TABLE_END - PFRAME_PAGE_TABLE_START + 1);
   (PFRAME_KERNEL_LOAD_ADDR, PFRAME_KERNEL_MAX_SIZE); (storage_addr, PFRAME_MAX_BITMAP_SIZE)].
Definition reserved (storage_addr f : Z) : bool :=
  existsb (λ r, frame_inside r.1 r.2 f) (reserved_regions storage_addr).

(** A Debug build stops at such a region among the usable ones. *)
Definition usable_stops (total : Z) (es : list E820.e820_entry) : bool :=
  existsb (λ e, usable_entry e && region_stops total (E820.base e) (E820.len e)) es.

Lemma free_usable_spec nd es s : inv s → Forall (λ e, fits (E820.base e) (E820.len e)) es →
  if negb nd && usable_stops (total_frames s) es then free_usable nd es s = Fail AssertFail
  else ∃ s', free_usable nd es s = Ret s' ∧ inv s' ∧ same_config s s' ∧
    ∀ f, 0 ≤ f < total_frames s → allocated s' f = allocated s f && negb (usable_covers es f).
Proof.
  intros Hinv Hes. revert s Hinv.
  induction es as [|e es IH]; intros s Hinv.
  { cbn. rewrite andb_false_r. exists s. split_and!; try done. intros f Hf. by rewrite andb_true_r. }
  apply Forall_cons in Hes as [He Hes]. cbn [free_usable usable_covers usable_stops existsb].
  pose proof (mark_region_spec nd (bitmap_clear_range nd) false s (E820.base e) (E820.len e) Hinv He
    (λ m start count, bitmap_clear_range_spec nd m start count)) as Hmark.
  assert (negb nd && (usable_entry e && region_stops (total_frames s) (E820.base e) (E820.len e)) = true ∧
      (if E820.type e =? E820.E820_TYPE_USABLE then mark_region_free nd s (E820.base e) (E820.len e) else Ret s) = Fail AssertFail ∨
    negb nd && (usable_entry e && region_stops (total_frames s) (E820.base e) (E820.len e)) = false ∧
    ∃ s1, (if E820.type e =? E820.E820_TYPE_USABLE
      then mark_region_free nd s (E820.base e) (E820.len e) else Ret s) = Ret s1 ∧
    inv s1 ∧ same_config s s1 ∧ ∀ f, 0 ≤ f < total_frames s → allocated s1 f =
      allocated s f && negb (usable_entry e && frame_inside (E820.base e) (E820.len e) f))
    as [[Hstop ->]|(Hstop & s1 & -> & Hi1 & Hc1 & Ha1)].
  { unfold usable_entry. destruct (E820.type e =? E820.E820_TYPE_USABLE); cbn [andb].
    - destruct (negb nd && region_stops (total_frames s) (E820.base e) (E820.len e)); [by left|right]. split; [done|].
      destruct Hmark as (s1 & Hm & Hi1 & Hc1 & Ha1). exists s1. split_and!; try done. intros f Hf. rewrite Ha1 by done.
      destruct (frame_inside _ _ _); simpl; btauto.
    - right. split; [by rewrite andb_false_r|]. exists s. split_and!; try done. intros f Hf. simpl. btauto. }
  { rewrite andb_orb_distrib_r, Hstop. done. }
  rewrite andb_orb_distrib_r, Hstop. cbn [mbind outcome_bind orb].
  assert (total_frames s1 = total_frames s) as Heq by (unfold same_config, config in Hc1; congruence).
  specialize (IH Hes s1 Hi1). rewrite Heq in IH. fold (usable_stops (total_frames s) es).
  destruct (negb nd && usable_stops (total_frames s) es); [done|]. destruct IH as (s2 & -> & Hi2 & Hc2 & Ha2).
  exists s2. unfold same_config in *. split_and!; [done|done|congruence|].
  intros f Hf. rewrite Ha2, Ha1 by lia. unfold usable_covers. btauto.
Qed.

(** The regions the kernel reserves hold whole pages. *)
Lemma mark_reserved_spec nd s base length : inv s → fits base length → region_end base length ≠ region_start base →
  ∃ s', mark_region_reserved nd s base length = Ret s' ∧ inv s' ∧ same_config s s' ∧
    ∀ f, 0 ≤ f < total_frames s → allocated s' f = allocated s f || frame_inside base length f.
Proof.
  intros Hinv Hfit Hne. pose proof (mark_region_spec nd (bitmap_set_range nd) true s base length Hinv Hfit
    (λ m start count, bitmap_set_range_spec nd m start count)) as Hm.
  unfold region_stops in Hm. rewrite (proj2 (Z.eqb_neq _ _) Hne), !andb_false_r in Hm. destruct Hm as (s' & Hm & Hi & Hc & Ha).
  exists s'. split_and!; try done. intros f Hf. rewrite Ha by done.
  destruct (frame_inside _ _ _); simpl; btauto.
Qed.

Fixpoint mark_all (nd : bool) (rs : list (Z * Z)) (s : pframe_state) : outcome pframe_state :=
  match rs with
  | [] => Ret s
  | r :: rs' => s' ← mark_region_reserved nd s r.1 r.2; mark_all nd rs' s'
  end.

Lemma mark_all_spec nd rs s : inv s → Forall (λ r, fits r.1 r.2 ∧ region_end r.1 r.2 ≠ region_start r.1) rs →
  ∃ s', mark_all nd rs s = Ret s' ∧ inv s' ∧ same_config s s' ∧
    ∀ f, 0 ≤ f < total_frames s →
      allocated s' f = allocated s f || existsb (λ r, frame_inside r.1 r.2 f) rs.
Proof.
  intros Hinv Hrs. revert s Hinv. induction rs as [|r rs IH]; intros s Hinv.
  { exists s. split_and!; try done. intros f Hf. by rewrite orb_false_r. }
  apply Forall_cons in Hrs as [[Hr Hne] Hrs]. cbn [mark_all existsb].
  destruct (mark_reserved_spec nd s r.1 r.2 Hinv Hr Hne) as (s1 & -> & Hi1 & Hc1 & Ha1).
  cbn [mbind outcome_bind]. destruct (IH Hrs s1 Hi1) as (s2 & -> & Hi2 & Hc2 & Ha2).
  exists s2. unfold same_config in *. split_and!; [done|done|congruence|].
  intros f Hf. assert (total_frames s1 = total_frames s) as Heq by (unfold config in Hc1; congruence).
  rewrite Ha2, Ha1 by lia. btauto.
Qed.

Lemma highest_usable_bound es acc :
  Forall (λ e, fits (E820.base e) (E820.len e)) es → 0 ≤ acc < 2 ^ 64 - 4096 →
  0 ≤ foldl (λ max_addr e, let entry_end := E820.base e ⊞ E820.len e in
    if (E820.type e =? E820.E820_TYPE_USABLE) && (entry_end >? max_addr)
    then entry_end else max_addr) acc es < 2 ^ 64 - 4096.
Proof.
  intros Hes. revert acc. induction es as [|e es IH]; intros acc Hacc; cbn [foldl]; [lia|].
  apply Forall_cons in Hes as [(Hb & Hl & Ho) Hes]. apply IH; [done|]. cbv zeta.
  rewrite u64_small by lia. destruct (_ && _); lia.
Qed.

Lemma total_of_highest h : 0 ≤ h < 2 ^ 64 - 4096 →
  MemState.bytes_to_pages (MemState.align_down h PAGE_SHIFT) = h / 4096.
Proof.
  intros Hh. unfold PAGE_SHIFT. rewrite mem_align_down_value by (unfold is_u64; lia).
  unfold MemState.bytes_to_pages, MemState.PAGE_SHIFT, MemState.PAGE_SIZE, round_down_to.
  change (2 ^ 12) with 4096. pose proof (Z.div_mod h 4096). pose proof (Z.mod_pos_bound h 4096).
  rewrite (u64_small (4096 * (h / 4096) + 4096)), Z.shiftr_div_pow2, u64_small by lia.
  change (2 ^ 12) with 4096. symmetry. apply Z.div_unique with 4095; lia.
Qed.

Lemma region_not_empty base length : fits base length → 8192 ≤ length → region_end base length ≠ region_start base.
Proof.
  intros Hf Hl Heq. pose proof (region_bounds base length Hf). pose proof (region_frames base length (region_start base) Hf) as Hr.
  rewrite Heq, Z.ltb_irrefl, andb_false_r in Hr. symmetry in Hr. unfold frame_inside in Hr.
  assert (base ≤ 4096 * region_start base < base + 4096) as Hs.
  { destruct Hf as (? & ? & ?). unfold region_start, PAGE_SHIFT.
    rewrite mem_align_up_value by (unfold is_u64; lia). rewrite addr_to_frame_div.
    change (2 ^ 12) with 4096. unfold round_up_to. set (q := (base + 4096 - 1) / 4096).
    replace (4096 * q / 4096) with q by (rewrite Z.mul_comm, Z.div_mul; lia).
    pose proof (Z.div_mod (base + 4096 - 1) 4096). pose proof (Z.mod_pos_bound (base + 4096 - 1) 4096). lia. }
  destruct (Z.leb_spec base (4096 * region_start base)), (Z.leb_spec (4096 * (region_start base + 1)) (base + length)); (done || lia).
Qed.

Lemma reserved_fits a : fits a PFRAME_MAX_BITMAP_SIZE →
  Forall (λ r, fits r.1 r.2 ∧ region_end r.1 r.2 ≠ region_start r.1) (reserved_regions a).
Proof.
  intros Ha. unfold reserved_regions. rewrite !Forall_cons. cbn [fst snd].
  assert (region_end a PFRAME_MAX_BITMAP_SIZE ≠ region_start a) as Hst
    by (apply region_not_empty; [done|unfold PFRAME_MAX_BITMAP_SIZE; lia]).
  split; [|split; [|split; [|split; [|split; [|constructor]]]]]; [..|done];
    (split; [|by vm_compute]);
    unfold fits, PFRAME_BIOS_END, PFRAME_E820_STORAGE_ADDR, PFRAME_PAGE_TABLE_START,
      PFRAME_PAGE_TABLE_END, PFRAME_KERNEL_LOAD_ADDR, PFRAME_KERNEL_MAX_SIZE, PAGE_SIZE; lia.
Qed.

(** A Debug build stops when no page is usable, or at a usable region whose rounded
    bounds coincide. *)
Definition init_stops (es : list E820.e820_entry) : bool :=
  let total := highest_usable es / 4096 in (total =? 0) || usable_stops total es.

Lemma pframe_init_frames nd es usable storage_addr storage s :
  initialized s = false → usable ≠ 0 →
  Forall (λ e, fits (E820.base e) (E820.len e)) es → fits storage_addr PFRAME_MAX_BITMAP_SIZE →
  Forall is_u8 storage → highest_usable es / 4096 ≤ 8 * Z.of_nat (length storage) →
  highest_usable es / 4096 ≤ 2 ^ 24 →
  if negb nd && init_stops es then pframe_init nd es usable storage_addr storage s = Fail AssertFail
  else ∃ s', pframe_init nd es usable storage_addr storage s = Ret (PFRAME_OK, s') ∧ inv s' ∧
    initialized s' = true ∧ total_frames s' = highest_usable es / 4096 ∧
    ∀ f, 0 ≤ f < total_frames s' →
      allocated s' f = reserved storage_addr f || negb (usable_covers es f).
Proof.
  intros Hi Hu Hes Hst Hst8 Hroom Hsmall. unfold pframe_init, init_stops. rewrite Hi.
  destruct (Z.eqb_spec usable 0); [done|].
  assert (0 ≤ highest_usable es < 2 ^ 64 - 4096) as Hh by (apply highest_usable_bound; [done|lia]).
  rewrite total_of_highest by done. set (total := highest_usable es / 4096) in *.
  assert (0 ≤ total) by (apply Z.div_pos; lia). cbv zeta.
  rewrite u64_small by lia.
  destruct (Z.gtb_spec ((total + 7) / 8) PFRAME_MAX_BITMAP_SIZE) as [Hgt|_].
  { unfold PFRAME_MAX_BITMAP_SIZE in Hgt. pose proof (ceil8 total). lia. }
  assert (negb nd && (total =? 0) = negb (nd || (0 <? total))) as Hz.
  { destruct nd; cbn; [done|]. destruct (Z.eqb_spec total 0), (Z.ltb_spec 0 total); (done || lia). }
  rewrite andb_orb_distrib_r, Hz. destruct (nd || (0 <? total)) eqn:Hnz; cbn [negb orb].
  2: { unfold bitmap_init, ccos_debug_assert. destruct nd; [done|]. cbn in Hnz. by rewrite Hnz. }
  destruct (bitmap_init_spec nd storage total) as (m0 & -> & Hw0 & Hn0 & Hl0 & Hb0); [done|done|lia|lia|].
  cbn [mbind outcome_bind].
  pose proof (bitmap_set_range_spec nd m0 0 total Hw0 ltac:(lia)) as Hset. rewrite Hnz in Hset. destruct Hset as (m1 & -> & Hw1 & Hn1 & Hl1 & Hb1).
  cbn [mbind outcome_bind]. unfold in_range, range_end in Hb1.
  rewrite u64_small in Hb1 by lia.
  set (s1 := set_map _ m1). assert (inv s1) as Hinv1.
  { constructor; cbn; [done|congruence|lia|vm_compute; discriminate|].
    intros i Hi'. rewrite bitCntToByteCnt_value in Hi' by (rewrite Hn1, Hn0; lia).
    rewrite Hn1, Hn0 in Hi'. rewrite Hb1 by lia.
    destruct (Z.ltb_spec i (Z.min (0 + total) (nbits m0))); [lia|]. rewrite andb_false_r.
    apply Hb0. lia. }
  pose proof (free_usable_spec nd es s1 Hinv1 Hes) as Hfree. change (total_frames s1) with total in Hfree.
  destruct (negb nd && usable_stops total es); [by rewrite Hfree|]. destruct Hfree as (s2 & -> & Hi2 & Hc2 & Ha2).
  cbn [mbind outcome_bind].
  destruct (mark_all_spec nd (reserved_regions storage_addr) s2 Hi2) as (s3 & Hm3 & Hi3 & Hc3 & Ha3).
  { by apply reserved_fits. }
  cbn [mark_all reserved_regions fst snd] in Hm3.
  repeat match type of Hm3 with
  | mbind _ ?m = Ret _ => let r := fresh "r" in let Hr := fresh "Hr" in
      destruct m as [r|] eqn:Hr; cbn [mbind outcome_bind] in Hm3; [|done];
      cbn [mbind outcome_bind]
  end. injection Hm3 as ->.
  exists (set_initialized s3). unfold same_config, config in Hc2, Hc3; cbn in Hc2.
  assert (total_frames s3 = total) as Ht3 by congruence. split; [done|]. split.
  { destruct Hi3. by constructor. }
  split; [done|]. split; [done|]. cbn. intros f Hf. unfold reserved.
  assert (total_frames s1 = total) by done. assert (total_frames s2 = total) by congruence.
  unfold allocated in *; cbn. rewrite Ha3, Ha2 by lia. unfold s1; cbn. rewrite Hb1 by lia.
  destruct (Z.leb_spec 0 f), (Z.ltb_spec f (Z.min (0 + total) (nbits m0))); try lia.
  simpl. btauto.
Qed.

(** Freeing frame [f] when its bit is [v]. *)
Lemma pframe_free_step s a f v : inv s → initialized s = true → 0 ≤ a →
  is_page_aligned a = true → a / 4096 = f → f < total_frames s → allocated s f = v →
  if v then ∃ s', pframe_free s a = Ret (PFRAME_OK, s') ∧ changed s s' f 1 false ∧ inv s'
  else pframe_free s a = Ret (PFRAME_ERR_INVALID, s).
Proof.
  intros Hinv Hi Ha Hal Hf Hlt Hv. pose proof (inv_total s Hinv) as Ht.
  assert (0 ≤ f) by (subst f; apply Z.div_pos; lia).
  unfold pframe_free. rewrite Hi, Hal, addr_to_frame_div, Hf. cbn [negb].
  rewrite Z.geb_leb. destruct (Z.leb_spec (total_frames s) f); [lia|].
  rewrite bitmap_test_spec by (try apply Hinv; lia). cbn [mbind outcome_bind].
  unfold allocated in Hv. rewrite Hv. destruct v; cbn [negb]; [|done].
  destruct (bitmap_clear_spec (frame_map s) f) as (m & -> & Hw & Hn & _ & Hbm);
    [apply Hinv|lia|]. cbn. eexists. split; [done|]. split.
  - split; [done|]. split; [done|]. intros g Hg. unfold allocated; cbn. rewrite Hbm by lia.
    Mem.split_range.
  - apply inv_set_map; [done..|]. intros j Hj. rewrite Hbm by lia. Mem.split_range.
Qed.

End Pframe.

Import Bitmap Pframe.

(** ** A small concrete allocator used by the witnesses: 300 frames, the first
    256 of them and the last four taken. *)
Definition demo_map (free : list Z) : bitmap :=
  mk_bitmap (imap (λ k b, foldl (λ b f, if f / 8 =? Z.of_nat k then Z.clearbit b (f mod 8) else b) b free)
    (replicate 37 255 ++ [15])) 300.
Definition demo_state (free : list Z) (hint : Z) : pframe_state :=
  mk_pframe (demo_map free) 300 0x100000 (300 * 4096) hint true.

(** The invariant, decided by computation for a concrete state. *)
Definition inv_b (s : pframe_state) : bool :=
  (0 <=? total_frames s) && (total_frames s <=? 2 ^ 24) && (0 <=? last_alloc_hint s) &&
  (nbits (frame_map s) =? total_frames s) &&
  (nbits (frame_map s) <=? 8 * Z.of_nat (length (bits (frame_map s)))) &&
  forallb (λ b, (0 <=? b) && (b <? 256)) (bits (frame_map s)) &&
  forallb (λ k, negb (bit (frame_map s) (nbits (frame_map s) + Z.of_nat k)) ||
                (8 * bitCntToByteCnt (nbits (frame_map s)) <=? nbits (frame_map s) + Z.of_nat k)) (seq 0 8).

Lemma inv_b_sound s : inv_b s = true → inv s.
Proof.
  unfold inv_b. rewrite !andb_true_iff, !Z.leb_le, Z.eqb_eq, !forallb_forall.
  intros [[[[[[H0 Hs] Hh] Ht] Hr] Hb] Hp].
  assert (wf (frame_map s)) as Hw.
  { constructor; [lia|done|]. apply Forall_forall. intros x Hx. apply list_elem_of_In in Hx.
    specialize (Hb x Hx). rewrite andb_true_iff, Z.leb_le, Z.ltb_lt in Hb. unfold is_u8. lia. }
  constructor; [done|done|lia|lia|]. intros i Hi.
  rewrite bitCntToByteCnt_value in Hi, Hp by lia. pose proof (ceil8 (nbits (frame_map s))).
  specialize (Hp (Z.to_nat (i - nbits (frame_map s)))).
  replace (nbits (frame_map s) + Z.of_nat (Z.to_nat (i - nbits (frame_map s)))) with i in Hp by lia.
  rewrite orb_true_iff, negb_true_iff, Z.leb_le in Hp. destruct Hp; [|done|lia].
  apply in_seq. lia.
Qed.

(** C1: [pframe_alloc] either hands out a page-aligned frame that was free,
    marks exactly that frame and keeps the invariant, or reports
    [PFRAME_ERR_OOM] and then every managed frame is taken. *)
Theorem pframe_alloc_correct s : inv s → initialized s = true →
  (∃ f s', pframe_alloc s = Ret (PFRAME_OK, Some (frame_to_addr f), s') ∧
     0 ≤ f < total_frames s ∧ frame_to_addr f = 4096 * f ∧ allocated s f = false ∧
     changed s s' f 1 true ∧ inv s') ∨
  (pframe_alloc s = Ret (PFRAME_ERR_OOM, None, s) ∧
     ∀ f, 0 ≤ f < total_frames s → allocated s f = true).
Proof.
  intros Hinv Hi. pose proof (inv_small s Hinv).
  destruct (pframe_alloc_cases s Hinv Hi) as [(f & s' & Hr & Hf & Hrest)|Hoom]; [left|by right].
  exists f, s'. split; [done|]. split; [done|]. split; [apply frame_to_addr_mul; lia|done].
Qed.

Lemma pframe_alloc_witness :
  ∃ s', pframe_alloc (demo_state [280; 290] 285) = Ret (PFRAME_OK, Some (4096 * 290), s') ∧ inv s'.
Proof.
  assert ((λ r, r.1) <$> pframe_alloc (demo_state [280; 290] 285) =
    Ret (PFRAME_OK, Some (4096 * 290))) as Hc by (vm_compute; reflexivity).
  destruct (pframe_alloc_correct (demo_state [280; 290] 285))
    as [(f & s' & Hr & _ & _ & _ & _ & Hi)|[Hr _]];
    [apply inv_b_sound; vm_compute; reflexivity|reflexivity| |]; rewrite Hr in Hc.
  - injection Hc as Hc. exists s'. rewrite Hr, Hc. split; [reflexivity|exact Hi].
  - discriminate.
Defined.

(** C2: [pframe_alloc_n] hands out [c] contiguous frames that were all free,
    marks exactly them and keeps the invariant; it reports [PFRAME_ERR_OOM]
    only when no run of [c] free frames lies between the hint and the end nor
    between the 1 MB line and the hint. *)
Theorem pframe_alloc_n_correct s c : inv s → initialized s = true → 0 < c ≤ total_frames s →
  (∃ r s', pframe_alloc_n s c = Ret (PFRAME_OK, Some (frame_to_addr r), s') ∧
     0 ≤ r ∧ r + c ≤ total_frames s ∧ (∀ f, r ≤ f < r + c → allocated s f = false) ∧
     changed s s' r c true ∧ inv s') ∨
  (pframe_alloc_n s c = Ret (PFRAME_ERR_OOM, None, s) ∧
     no_run s c (last_alloc_hint s) (total_frames s) ∧
     no_run s c 256 (Z.min (last_alloc_hint s) (total_frames s))).
Proof. apply pframe_alloc_n_cases. Qed.

Lemma pframe_alloc_n_witness : ∃ s',
  pframe_alloc_n (demo_state [270; 272; 273; 274] 260) 3 = Ret (PFRAME_OK, Some (4096 * 272), s') ∧
  inv s'.
Proof.
  assert ((λ r, r.1) <$> pframe_alloc_n (demo_state [270; 272; 273; 274] 260) 3 =
    Ret (PFRAME_OK, Some (4096 * 272))) as Hc by (vm_compute; reflexivity).
  destruct (pframe_alloc_n_correct (demo_state [270; 272; 273; 274] 260) 3)
    as [(f & s' & Hr & _ & _ & _ & _ & Hi)|[Hr _]];
    [apply inv_b_sound; vm_compute; reflexivity|reflexivity|simpl; lia| |]; rewrite Hr in Hc.
  - injection Hc as Hc. exists s'. rewrite Hr, Hc. split; [reflexivity|exact Hi].
  - discriminate.
Defined.

(** a run that crosses the hint is never found: with frames 279 and 280
    free and the hint at 280, a request for two frames is refused although the
    two frames are contiguous and free. *)
Theorem pframe_alloc_n_misses_straddling_run :
  let s := demo_state [279; 280] 280 in
  inv s ∧ allocated s 279 = false ∧ allocated s 280 = false ∧
  pframe_alloc_n s 2 = Ret (PFRAME_ERR_OOM, None, s).
Proof. split; [apply inv_b_sound; vm_compute; reflexivity|]. vm_compute. auto. Qed.

(** C4: [pframe_free] refuses an unaligned address, an address beyond the
    managed range and a frame that is already free, without changing the
    state; otherwise it frees exactly that frame and keeps the invariant. *)
Theorem pframe_free_correct s a : inv s → initialized s = true → 0 ≤ a →
  let f := a / 4096 in
  if is_page_aligned a && (f <? total_frames s) && allocated s f
  then ∃ s', pframe_free s a = Ret (PFRAME_OK, s') ∧ changed s s' f 1 false ∧ inv s'
  else pframe_free s a = Ret (PFRAME_ERR_INVALID, s).
Proof.
  intros Hinv Hi Ha. cbv zeta. destruct (is_page_aligned a) eqn:Hal; cbn [andb].
  2: { unfold pframe_free. by rewrite Hi, Hal. }
  destruct (Z.ltb_spec (a / 4096) (total_frames s)) as [Hlt|Hge]; cbn [andb].
  - apply (pframe_free_step s a (a / 4096) (allocated s (a / 4096))); done.
  - unfold pframe_free. rewrite Hi, Hal, addr_to_frame_div, Z.geb_leb. cbn [negb].
    by rewrite (proj2 (Z.leb_le _ _) Hge).
Qed.

Lemma pframe_free_witness :
  pframe_free (demo_state [280] 256) (4096 * 280) = Ret (PFRAME_ERR_INVALID, demo_state [280] 256) ∧
  ∃ s', pframe_free (demo_state [280] 256) (4096 * 281) = Ret (PFRAME_OK, s') ∧ inv s'.
Proof.
  assert (inv (demo_state [280] 256)) as Hinv by (apply inv_b_sound; vm_compute; reflexivity).
  split.
  - exact (pframe_free_correct (demo_state [280] 256) (4096 * 280) Hinv eq_refl ltac:(lia)).
  - destruct (pframe_free_correct (demo_state [280] 256) (4096 * 281) Hinv eq_refl ltac:(lia))
      as (s' & Hs & _ & Hi). exists s'. split; [exact Hs|exact Hi].
Defined.

(** A frame handed out by [pframe_alloc] can be freed, which restores the
    allocation status of every frame, and a second free of it is refused. *)
Theorem pframe_alloc_free_roundtrip s a s1 : inv s → initialized s = true →
  pframe_alloc s = Ret (PFRAME_OK, Some a, s1) →
  ∃ s2, pframe_free s1 a = Ret (PFRAME_OK, s2) ∧ inv s2 ∧
    (∀ f, 0 ≤ f < total_frames s → allocated s2 f = allocated s f) ∧
    pframe_free s2 a = Ret (PFRAME_ERR_INVALID, s2).
Proof.
  intros Hinv Hi Hal. destruct (pframe_alloc_cases s Hinv Hi) as [(f & s' & Hr & Hf & Hfree & Hc & Hi1)|[Hr _]];
    rewrite Hr in Hal; [|done]. injection Hal as <- <-.
  destruct Hc as (Ht1 & Hin1 & Hch). pose proof (inv_small s Hinv). rewrite Hi in Hin1.
  destruct (frame_addr_roundtrip f) as [Hal Hfr]; [lia|]. rewrite addr_to_frame_div in Hfr.
  assert (0 ≤ frame_to_addr f) as Hpos by apply u64_range.
  pose proof (pframe_free_step s' (frame_to_addr f) f true Hi1 Hin1 Hpos Hal Hfr ltac:(lia)) as Hst.
  destruct Hst as (s2 & Hs2 & (Ht2 & Hin2 & Hch2) & Hi2).
  { rewrite Hch by lia. Mem.split_range. }
  exists s2. split; [done|]. split; [done|]. split.
  - intros g Hg. rewrite Hch2, Hch by lia. Mem.split_range. by replace g with f by lia.
  - apply (pframe_free_step s2 (frame_to_addr f) f false); [done|congruence|done..|lia|].
    rewrite Hch2 by lia. Mem.split_range.
Qed.

Lemma pframe_alloc_free_witness : ∃ s1 s2,
  pframe_alloc (demo_state [280] 256) = Ret (PFRAME_OK, Some (4096 * 280), s1) ∧
  pframe_free s1 (4096 * 280) = Ret (PFRAME_OK, s2) ∧
  pframe_free s2 (4096 * 280) = Ret (PFRAME_ERR_INVALID, s2).
Proof.
  destruct (pframe_alloc (demo_state [280] 256)) as [[[r o] s1]|] eqn:Hal;
    [|vm_compute in Hal; discriminate].
  assert ((r, o) = (PFRAME_OK, Some (4096 * 280))) as Hro.
  { assert ((λ x, x.1) <$> pframe_alloc (demo_state [280] 256) = Ret (PFRAME_OK, Some (4096 * 280)))
      as Hc by (vm_compute; reflexivity). rewrite Hal in Hc. by injection Hc as -> ->. }
  injection Hro as -> ->.
  destruct (pframe_alloc_free_roundtrip (demo_state [280] 256) (4096 * 280) s1)
    as (s2 & H1 & _ & _ & H2); [apply inv_b_sound; vm_compute; reflexivity|reflexivity|exact Hal|].
  exists s1, s2. split; [reflexivity|]. split; [exact H1|exact H2].
Defined.


(** Low memory, a reserved hole and three megabytes of RAM above 1 MB. *)
Definition demo_e820 : list E820.e820_entry :=
  [E820.mk_entry 0 0x9FC00 1 0; E820.mk_entry 0x9FC00 0x400 2 0; E820.mk_entry 0x100000 0x400000 1 0].
Definition blank_state : pframe_state := mk_pframe (mk_bitmap [] 0) 0 0 0 0 false.

Lemma demo_e820_fits : Forall (λ e, fits (E820.base e) (E820.len e)) demo_e820.
Proof. unfold demo_e820, fits. rewrite !Forall_cons. cbn. split_and!; try lia. constructor. Qed.


(** The reserved regions are shrunk to whole pages: with the bitmap storage
    at 0x200010 its first page stays free after initialization, so the
    allocator can hand out the page that holds its own bitmap. *)
Theorem pframe_init_leaves_partial_page_free : ∃ s',
  pframe_init false demo_e820 0x49FC00 0x200010 (replicate 160 0) blank_state = Ret (PFRAME_OK, s') ∧
  addr_to_frame 0x200010 = 0x200 ∧ allocated s' 0x200 = false.
Proof.
  destruct (pframe_init_frames false demo_e820 0x49FC00 0x200010 (replicate 160 0) blank_state)
    as (s' & Hr & Hinv & _ & Ht & Ha);
    [reflexivity|lia|exact demo_e820_fits|unfold fits, PFRAME_MAX_BITMAP_SIZE; lia
    |apply Forall_replicate; unfold is_u8; lia|vm_compute; discriminate|vm_compute; discriminate|].
  exists s'. split; [done|]. split; [done|].
  change (highest_usable demo_e820 / 4096) with 0x500 in Ht.
  rewrite Ha by lia. vm_compute. done.
Qed.

(** A usable region of half a page at a page boundary stops the start of a Debug
    build; a Release build goes on. *)
Theorem pframe_init_debug_stops_at_short_region :
  let es := E820.mk_entry 0x600000 0x800 1 0 :: E820.mk_entry 0x700000 0x1000 1 0 :: demo_e820 in
  pframe_init false es 0x4A1400 0x200000 (replicate 240 0) blank_state = Fail AssertFail ∧
  ∃ s', pframe_init true es 0x4A1400 0x200000 (replicate 240 0) blank_state = Ret (PFRAME_OK, s').
Proof.
  intros es.
  assert (Forall (λ e, fits (E820.base e) (E820.len e)) es) as Hes.
  { apply Forall_cons; split; [|apply Forall_cons; split; [|apply demo_e820_fits]]; unfold fits; cbn; lia. }
  assert (highest_usable es / 4096 = 0x701) as Hh by (vm_compute; done).
  assert (∀ nd, if negb nd && init_stops es
    then pframe_init nd es 0x4A1400 0x200000 (replicate 240 0) blank_state = Fail AssertFail
    else ∃ s', pframe_init nd es 0x4A1400 0x200000 (replicate 240 0) blank_state = Ret (PFRAME_OK, s')) as Hinit.
  { intros nd. epose proof (pframe_init_frames nd es 0x4A1400 0x200000 (replicate 240 0) blank_state eq_refl ltac:(lia) Hes
      ltac:(unfold fits, PFRAME_MAX_BITMAP_SIZE; lia) (Forall_replicate is_u8 240 0 ltac:(unfold is_u8; lia))
      ltac:(rewrite Hh, length_replicate; lia) ltac:(rewrite Hh; lia)) as Hi.
    destruct (negb nd && init_stops es); [exact Hi|]. destruct Hi as (s' & Hi & _). by exists s'. }
  assert (init_stops es = true) as Hs by (vm_compute; done).
  split; [specialize (Hinit false)|specialize (Hinit true)]; rewrite Hs in Hinit; exact Hinit.
Qed.

(** [pframe_get_stats] reports the exact number of taken frames, and the
    free and taken counts add up to the frame count. *)
Theorem pframe_get_stats_correct s : inv s → initialized s = true →
  ∃ st, pframe_get_stats s = Ret (PFRAME_OK, Some st) ∧
    st_allocated st = countz (allocated s) (Z.to_nat (total_frames s)) ∧
    st_free st + st_allocated st = total_frames s ∧ st_total st = total_frames s ∧
    pframe_get_free_frames s = Ret (total_frames s - st_allocated st).
Proof.
  intros Hinv Hi. pose proof (inv_total s Hinv) as Ht. pose proof (inv_nonneg s Hinv).
  pose proof (inv_small s Hinv). unfold pframe_get_free_frames, pframe_get_stats. rewrite Hi. cbn [negb].
  rewrite bitmap_weight_count by apply Hinv. rewrite Ht. change (bit (frame_map s)) with (allocated s).
  pose proof (countz_bounds (allocated s) (Z.to_nat (total_frames s))).
  cbn [mbind outcome_bind]. eexists. split; [done|].
  cbn [from_option st_free st_allocated st_total].
  rewrite (u64_small (total_frames s - _)) by lia. split_and!; [done|lia|done|done].
Qed.

Lemma pframe_get_stats_witness : ∃ st,
  pframe_get_stats (demo_state [280; 290] 256) = Ret (PFRAME_OK, Some st) ∧
  st_free st + st_allocated st = 300.
Proof.
  destruct (pframe_get_stats_correct (demo_state [280; 290] 256)) as (st & Hs & _ & Hsum & _);
    [apply inv_b_sound; vm_compute; reflexivity|reflexivity|].
  exists st. split; [exact Hs|exact Hsum].
Defined.
