(* ===== verification/Page.v ===== *)
(** * Page tables: [kernel/mm/vmm/page.c] and [page.h]

    The state is physical memory as a store of 64-bit words, the frame
    allocator of [Pframe], the three statics of the file and the set of virtual
    pages whose translation the processor may have cached. Page tables are
    reached through the direct map at [DIRECT_MAP_BASE], during start-up through
    the identity map of the low 2 MB; a word the store does not have is a
    [Fault]. The direct map reaches the whole store, that is every managed frame:
    the model is of a machine whose memory the direct map covers ([page_init]
    maps 512 MB). The specification is the walk of the processor ([mmu]). Each
    function runs under the page lock and is one step; the dump functions print
    only. *)
From S2P Require Import Prelude Bits Mem Bitmap E820 Pframe.
Import Bitmap Pframe.

Module Page.

(** ** Constants *)
Definition DIRECT_MAP_BASE := 0xFFFF800000000000.
Definition PAGE_SIZE_2MB := 0x200000.
Definition PAGE_SIZE_1GB := 0x40000000.
Definition PAGE_PRESENT := 2 ^ 0.
Definition PAGE_WRITE := 2 ^ 1.
Definition PAGE_USER := 2 ^ 2.
Definition PAGE_WRITE_THRU := 2 ^ 3.
Definition PAGE_NO_CACHE := 2 ^ 4.
Definition PAGE_HUGE_PD := 2 ^ 7.
Definition PAGE_HUGE_PDPT := 2 ^ 7.
Definition PAGE_NO_EXEC := 2 ^ 63.
Definition PTE_ADDR_MASK := 0x000FFFFFFFFFF000.
Definition VMAP_FLAG_WRITE := 2 ^ 0.
Definition VMAP_FLAG_USER := 2 ^ 1.
Definition VMAP_FLAG_NO_EXEC := 2 ^ 2.
Definition VMAP_FLAG_WRITE_THRU := 2 ^ 3.
Definition VMAP_FLAG_NO_CACHE := 2 ^ 4.
Definition VMAP_FLAG_HUGE_2MB := 2 ^ 5.
Definition VMAP_FLAG_HUGE_1GB := 2 ^ 6.

Inductive page_result :=
  | PAGE_OK | PAGE_ERR_NOT_INIT | PAGE_ERR_OOM | PAGE_ERR_INVALID | PAGE_ERR_NOT_PRESENT
  | PAGE_ERR_ALREADY_MAPPED | PAGE_ERR_NOT_MAPPED | PAGE_ERR_ALIGNMENT.
#[export] Instance page_result_eq_dec : EqDecision page_result.
Proof. solve_decision. Defined.

(** ** Entries: [page_table_entry_t] *)
Definition present (e : Z) : bool := Z.testbit e 0.
Definition pat (e : Z) : bool := Z.testbit e 7.
Definition frame (e : Z) : Z := Z.land (Z.shiftr e 12) (Z.ones 40).
(** [bits.frame << PAGE_SHIFT], shifted at 64 bits; the addresses in the
    theorems stay below [2 ^ 36], where the width of the bit-field is enough. *)
Definition frame_addr (e : Z) : Z := Z.shiftl (frame e) PAGE_SHIFT.

Definition PML4_INDEX (vaddr : Z) : Z := Z.land (Z.shiftr vaddr 39) 0x1FF.
Definition PDPT_INDEX (vaddr : Z) : Z := Z.land (Z.shiftr vaddr 30) 0x1FF.
Definition PD_INDEX (vaddr : Z) : Z := Z.land (Z.shiftr vaddr 21) 0x1FF.
Definition PT_INDEX (vaddr : Z) : Z := Z.land (Z.shiftr vaddr 12) 0x1FF.

(** ** State *)
Record page_state := mk_page {
  phys_mem : gmap Z Z; frames : pframe_state;
  s_kernel_pml4 : Z; s_initialized : bool; s_direct_map_established : bool; tlb : gset Z }.
Implicit Types st : page_state.

Definition with_mem (m : gmap Z Z) st : page_state :=
  mk_page m (frames st) (s_kernel_pml4 st) (s_initialized st) (s_direct_map_established st) (tlb st).
Definition with_frames (f : pframe_state) st : page_state :=
  mk_page (phys_mem st) f (s_kernel_pml4 st) (s_initialized st) (s_direct_map_established st) (tlb st).
Definition with_tlb (t : gset Z) st : page_state :=
  mk_page (phys_mem st) (frames st) (s_kernel_pml4 st) (s_initialized st) (s_direct_map_established st) t.

Definition phys_to_virt (phys : Z) : Z := DIRECT_MAP_BASE ⊞ phys.
(** A word read or written through the direct map. *)
Definition ld st (va : Z) : outcome Z := access (phys_mem st !! (va ⊟ DIRECT_MAP_BASE)).
Definition sto (va v : Z) st : outcome page_state :=
  _ ← ld st va; Ret (with_mem (<[va ⊟ DIRECT_MAP_BASE := v]> (phys_mem st)) st).
(** [&table->entries[i]] *)
Definition entry_at (table i : Z) : Z := phys_to_virt table ⊞ 8 * i.
(** [invlpg] *)
Definition page_invalidate_tlb (vaddr : Z) st : page_state := with_tlb (tlb st ∖ {[ vaddr / PAGE_SIZE ]}) st.

Definition flag_set (flags f : Z) : bool := negb (Z.land flags f =? 0).
Definition vmap_flags_to_pte (vmap_flags : Z) : Z :=
  let add (f p acc : Z) := if flag_set vmap_flags f then Z.lor acc p else acc in
  add VMAP_FLAG_NO_CACHE PAGE_NO_CACHE (add VMAP_FLAG_WRITE_THRU PAGE_WRITE_THRU
    (add VMAP_FLAG_NO_EXEC PAGE_NO_EXEC (add VMAP_FLAG_USER PAGE_USER
      (add VMAP_FLAG_WRITE PAGE_WRITE PAGE_PRESENT)))).

(** ** Start-up *)

(** A word in the low 2 MB, through the identity map. *)
Definition ld_ident st (p : Z) : outcome Z :=
  if p <? 0x200000 then access (phys_mem st !! p) else Fail Fault.
Definition st_ident (p v : Z) st : outcome page_state :=
  _ ← ld_ident st p; Ret (with_mem (<[p := v]> (phys_mem st)) st).

Definition BOOT_PD := 0xB000.
Definition BOOT_PDPT := 0xA000.
Definition expand_pd (i : Z) st : outcome page_state :=
  e ← ld_ident st (BOOT_PD + 8 * i);
  if present e then Ret st else
  let paddr := i * 0x200000 in
  st_ident (BOOT_PD + 8 * i)
    (Z.lor (Z.lor (Z.lor (Z.land paddr PTE_ADDR_MASK) PAGE_PRESENT) PAGE_WRITE) PAGE_HUGE_PD) st.
Definition set_direct st : page_state :=
  mk_page (phys_mem st) (frames st) (s_kernel_pml4 st) (s_initialized st) true (tlb st).
Definition establish_direct_map st : outcome (page_result * page_state) :=
  let pml4_phys := s_kernel_pml4 st in
  e ← ld_ident st (pml4_phys + 8 * 256);
  if present e then Ret (PAGE_OK, set_direct st) else
  st ← for_range 0 256 expand_pd st;
  st ← st_ident (pml4_phys + 8 * 256)
         (Z.lor (Z.lor (Z.land BOOT_PDPT PTE_ADDR_MASK) PAGE_PRESENT) PAGE_WRITE) st;
  Ret (PAGE_OK, set_direct (with_tlb ∅ st)).

Definition page_init (cr3 : Z) st : outcome (page_result * page_state) :=
  if s_initialized st then Ret (PAGE_OK, st) else
  let pml4 := Z.land cr3 (~64 0xFFF) in
  let st := mk_page (phys_mem st) (frames st) pml4 (s_initialized st) (s_direct_map_established st) (tlb st) in
  rs ← establish_direct_map st;
  let '(r, st) := rs : page_result * page_state in
  if decide (r = PAGE_OK) then
    Ret (PAGE_OK, mk_page (phys_mem st) (frames st) (s_kernel_pml4 st) true (s_direct_map_established st) (tlb st))
  else Ret (r, st).

Definition page_get_pml4 st : outcome Z := _ ← ccos_assert (s_initialized st); Ret (s_kernel_pml4 st).

(** ** Tables *)

(** [memset(virt, 0, PAGE_SIZE)], a word at a time. *)
Definition clear_page (virt : Z) st : outcome page_state := for_range 0 512 (λ i, sto (virt ⊞ 8 * i) 0) st.

(** The address is delivered through [out_phys], given with its old value. *)
Definition page_create_table (out_phys : Z) st : outcome (page_result * Z * page_state) :=
  _ ← ccos_assert (s_initialized st);
  _ ← ccos_assert (s_direct_map_established st);
  r ← pframe_alloc (frames st);
  match r with
  | (PFRAME_OK, Some phys, f) =>
      st ← clear_page (phys_to_virt phys) (with_frames f st);
      Ret (PAGE_OK, phys, st)
  | (_, _, f) => Ret (PAGE_ERR_OOM, out_phys, with_frames f st)
  end.

Definition page_free_table (phys : Z) st : outcome (page_result * page_state) :=
  _ ← ccos_assert (s_initialized st);
  r ← pframe_free (frames st) phys;
  let '(r, f) := r : pframe_result * pframe_state in
  Ret (if decide (r = PFRAME_OK) then PAGE_OK else PAGE_ERR_INVALID, with_frames f st).

Definition get_or_create_table (table_phys : Z) (alloc_missing : bool) st : outcome (page_result * Z * page_state) :=
  if negb (table_phys =? 0) then Ret (PAGE_OK, table_phys, st) else
  if negb alloc_missing then Ret (PAGE_ERR_NOT_PRESENT, table_phys, st) else
  page_create_table table_phys st.

(** One level of the descent in [page_map_page]: the table entry [i] of [table]
    refers to, created and linked if it is missing. *)
Definition descend (table i : Z) (alloc_missing : bool) st : outcome (page_result * Z * page_state) :=
  e ← ld st (entry_at table i);
  rts ← get_or_create_table (frame_addr e) alloc_missing st;
  let '(r, phys, st) := rts : page_result * Z * page_state in
  if negb (bool_decide (r = PAGE_OK)) then Ret (r, phys, st) else
  e ← ld st (entry_at table i);
  st ← (if phys =? frame_addr e then Ret st else
        sto (entry_at table i)
          (Z.lor (Z.lor (Z.lor (Z.land phys PTE_ADDR_MASK) PAGE_PRESENT) PAGE_WRITE) PAGE_USER) st);
  Ret (PAGE_OK, phys, st).

Definition page_map_page (pml4_phys vaddr paddr flags : Z) (alloc_missing : bool) st
    : outcome (page_result * page_state) :=
  _ ← ccos_assert (s_initialized st);
  _ ← ccos_assert (s_direct_map_established st);
  let use_2mb := flag_set flags VMAP_FLAG_HUGE_2MB in
  let use_1gb := flag_set flags VMAP_FLAG_HUGE_1GB in
  if use_2mb && use_1gb then Ret (PAGE_ERR_INVALID, st) else
  let page_align := if use_1gb then PAGE_SIZE_1GB - 1 else if use_2mb then PAGE_SIZE_2MB - 1 else PAGE_SIZE - 1 in
  if negb (Z.land vaddr page_align =? 0) then Ret (PAGE_ERR_ALIGNMENT, st) else
  if negb (Z.land paddr page_align =? 0) then Ret (PAGE_ERR_ALIGNMENT, st) else
  let pte_flags := vmap_flags_to_pte flags in
  rts ← descend pml4_phys (PML4_INDEX vaddr) alloc_missing st;
  let '(r, pdpt_phys, st) := rts : page_result * Z * page_state in
  if negb (bool_decide (r = PAGE_OK)) then Ret (r, st) else
  if use_1gb then
    e ← ld st (entry_at pdpt_phys (PDPT_INDEX vaddr));
    if present e then Ret (PAGE_ERR_ALREADY_MAPPED, st) else
    st ← sto (entry_at pdpt_phys (PDPT_INDEX vaddr)) (Z.lor (Z.lor (Z.land paddr PTE_ADDR_MASK) pte_flags) PAGE_HUGE_PDPT) st;
    Ret (PAGE_OK, page_invalidate_tlb vaddr st)
  else
  rts ← descend pdpt_phys (PDPT_INDEX vaddr) alloc_missing st;
  let '(r, pd_phys, st) := rts : page_result * Z * page_state in
  if negb (bool_decide (r = PAGE_OK)) then Ret (r, st) else
  e ← ld st (entry_at pd_phys (PD_INDEX vaddr));
  if use_2mb then
    if present e then Ret (PAGE_ERR_ALREADY_MAPPED, st) else
    st ← sto (entry_at pd_phys (PD_INDEX vaddr)) (Z.lor (Z.lor (Z.land paddr PTE_ADDR_MASK) pte_flags) PAGE_HUGE_PD) st;
    Ret (PAGE_OK, page_invalidate_tlb vaddr st)
  else
  if present e && pat e then Ret (PAGE_ERR_INVALID, st) else
  rts ← descend pd_phys (PD_INDEX vaddr) alloc_missing st;
  let '(r, pt_phys, st) := rts : page_result * Z * page_state in
  if negb (bool_decide (r = PAGE_OK)) then Ret (r, st) else
  e ← ld st (entry_at pt_phys (PT_INDEX vaddr));
  if present e then Ret (PAGE_ERR_ALREADY_MAPPED, st) else
  st ← sto (entry_at pt_phys (PT_INDEX vaddr)) (Z.lor (Z.land paddr PTE_ADDR_MASK) pte_flags) st;
  Ret (PAGE_OK, page_invalidate_tlb vaddr st).

Definition page_unmap_page (pml4_phys vaddr : Z) st : outcome (page_result * page_state) :=
  _ ← ccos_assert (s_initialized st);
  _ ← ccos_assert (s_direct_map_established st);
  if negb (Z.land vaddr (PAGE_SIZE - 1) =? 0) then Ret (PAGE_ERR_ALIGNMENT, st) else
  pml4e ← ld st (entry_at pml4_phys (PML4_INDEX vaddr));
  if negb (present pml4e) then Ret (PAGE_ERR_NOT_MAPPED, st) else
  pdpte ← ld st (entry_at (frame_addr pml4e) (PDPT_INDEX vaddr));
  if negb (present pdpte) then Ret (PAGE_ERR_NOT_MAPPED, st) else
  pde ← ld st (entry_at (frame_addr pdpte) (PD_INDEX vaddr));
  if negb (present pde) then Ret (PAGE_ERR_NOT_MAPPED, st) else
  pte ← ld st (entry_at (frame_addr pde) (PT_INDEX vaddr));
  if negb (present pte) then Ret (PAGE_ERR_NOT_MAPPED, st) else
  st ← sto (entry_at (frame_addr pde) (PT_INDEX vaddr)) 0 st;
  Ret (PAGE_OK, page_invalidate_tlb vaddr st).

Record page_query_result := mk_query { q_phys_addr : Z; q_flags : Z; q_present : bool; q_is_huge : bool }.
Definition no_query : page_query_result := mk_query 0 0 false false.
Definition query_of (e : Z) (huge : bool) : page_query_result := mk_query (frame_addr e) (Z.land e 0xFFF) true huge.
Definition page_query (pml4_phys vaddr : Z) st : outcome (page_result * page_query_result) :=
  _ ← ccos_assert (s_initialized st);
  _ ← ccos_assert (s_direct_map_established st);
  pml4e ← ld st (entry_at pml4_phys (PML4_INDEX vaddr));
  if negb (present pml4e) then Ret (PAGE_ERR_NOT_PRESENT, no_query) else
  pdpte ← ld st (entry_at (frame_addr pml4e) (PDPT_INDEX vaddr));
  if negb (present pdpte) then Ret (PAGE_ERR_NOT_PRESENT, no_query) else
  if pat pdpte then Ret (PAGE_OK, query_of pdpte true) else
  pde ← ld st (entry_at (frame_addr pdpte) (PD_INDEX vaddr));
  if negb (present pde) then Ret (PAGE_ERR_NOT_PRESENT, no_query) else
  if pat pde then Ret (PAGE_OK, query_of pde true) else
  pte ← ld st (entry_at (frame_addr pde) (PT_INDEX vaddr));
  if negb (present pte) then Ret (PAGE_ERR_NOT_PRESENT, no_query) else
  Ret (PAGE_OK, query_of pte false).

(** [None] leaves [out_phys] untouched. *)
Definition page_virt_to_phys (pml4_phys vaddr : Z) st : outcome (page_result * option Z) :=
  rq ← page_query pml4_phys vaddr st;
  let '(res, result) := rq : page_result * page_query_result in
  if bool_decide (res = PAGE_OK) && q_present result
  then Ret (PAGE_OK, Some (Z.lor (q_phys_addr result) (Z.land vaddr (PAGE_SIZE - 1))))
  else Ret (PAGE_ERR_NOT_PRESENT, None).

Definition page_unmap_range (pml4_phys vaddr_base page_count : Z) st : outcome (page_result * page_state) :=
  _ ← ccos_assert (s_initialized st);
  st ← for_range 0 page_count (λ i st,
         rs ← page_unmap_page pml4_phys (vaddr_base ⊞ (i ⊠ PAGE_SIZE)) st; Ret (snd (rs : page_result * page_state))) st;
  Ret (PAGE_OK, st).

(** The loop of [page_map_range]; [n] pages are left. *)
Fixpoint map_range_loop (n : nat) (i pml4_phys vaddr_base paddr_base flags : Z) st : outcome (page_result * page_state) :=
  match n with
  | O => Ret (PAGE_OK, st)
  | S n' =>
      rs ← page_map_page pml4_phys (vaddr_base ⊞ (i ⊠ PAGE_SIZE)) (paddr_base ⊞ (i ⊠ PAGE_SIZE)) flags true st;
      let '(r, st) := rs : page_result * page_state in
      if negb (bool_decide (r = PAGE_OK)) then
        us ← page_unmap_range pml4_phys vaddr_base i st; Ret (r, snd (us : page_result * page_state))
      else map_range_loop n' (i + 1) pml4_phys vaddr_base paddr_base flags st
  end.
Definition page_map_range (pml4_phys vaddr_base paddr_base page_count flags : Z) st : outcome (page_result * page_state) :=
  _ ← ccos_assert (s_initialized st);
  map_range_loop (Z.to_nat page_count) 0 pml4_phys vaddr_base paddr_base flags st.

(** ** The processor's walk

    [n] is the level: 3 for the PML4, 0 for the last. The result is the physical
    address of the byte and the entry that maps it. *)
Definition idx (n : nat) (v : Z) : Z := (v / 2 ^ (12 + 9 * Z.of_nat n)) mod 512.
Definition is_leaf (n : nat) (e : Z) : bool := match n with 1%nat | 2%nat => pat e | _ => false end.
Fixpoint mmu_walk (n : nat) (m : gmap Z Z) (t v : Z) : option (Z * Z) :=
  e ← m !! (t + 8 * idx n v);
  if negb (present e) then None else
  match n with
  | O => Some (frame_addr e + v mod 4096, e)
  | S n' => if is_leaf n e then Some (frame_addr e + v mod 2 ^ (12 + 9 * Z.of_nat n), e)
            else mmu_walk n' m (frame_addr e) v
  end.
Definition mmu st (root v : Z) : option (Z * Z) := mmu_walk 3 (phys_mem st) root v.

(** ** Bits of entries *)
Lemma mask_bits i : 0 ≤ i → Z.testbit PTE_ADDR_MASK i = (12 <=? i) && (i <? 52).
Proof.
  intros Hi. change PTE_ADDR_MASK with (Z.shiftl (Z.ones 40) 12). rewrite Z.shiftl_spec by lia.
  destruct (Z.leb_spec 12 i); cbn [andb].
  - rewrite Z.testbit_ones_nonneg by lia. destruct (Z.ltb_spec (i - 12) 40), (Z.ltb_spec i 52); lia.
  - rewrite Z.testbit_neg_r by lia. done.
Qed.
Lemma frame_addr_bits e i : 0 ≤ i → Z.testbit (frame_addr e) i = (12 <=? i) && (i <? 52) && Z.testbit e i.
Proof.
  intros Hi. unfold frame_addr, frame, PAGE_SHIFT. rewrite Z.shiftl_spec by lia.
  destruct (Z.leb_spec 12 i); cbn [andb]; [|by rewrite Z.testbit_neg_r by lia].
  rewrite Z.land_spec, Z.shiftr_spec, Z.testbit_ones_nonneg, andb_comm by lia.
  replace (i - 12 + 12) with i by lia. f_equal. destruct (Z.ltb_spec (i - 12) 40), (Z.ltb_spec i 52); lia.
Qed.
Lemma aligned_bits p i : 0 ≤ p < 2 ^ 52 → p mod 4096 = 0 → 0 ≤ i → Z.testbit p i = (12 <=? i) && (i <? 52) && Z.testbit p i.
Proof.
  intros Hp Ha Hi. destruct (Z.leb_spec 12 i); cbn [andb].
  - destruct (Z.ltb_spec i 52); cbn [andb]; [done|]. by apply (testbit_above p 52).
  - rewrite <- (Z.mod_pow2_bits_low p 12 i) by lia. change (2 ^ 12) with 4096. rewrite Ha. apply Z.testbit_0_l.
Qed.

(** What an entry made from an address and flags says. *)
Definition plain_flags (fl : Z) : Prop := ∀ i, 12 ≤ i < 52 → Z.testbit fl i = false.
Lemma frame_addr_entry p fl : 0 ≤ p < 2 ^ 52 → p mod 4096 = 0 → plain_flags fl →
  frame_addr (Z.lor (Z.land p PTE_ADDR_MASK) fl) = p.
Proof.
  intros Hp Ha Hf. apply Z.bits_inj'. intros i Hi. rewrite frame_addr_bits, Z.lor_spec, Z.land_spec, mask_bits by done.
  rewrite (aligned_bits p i) by done. destruct (Z.leb_spec 12 i), (Z.ltb_spec i 52); cbn [andb]; try done.
  rewrite Hf by lia. by rewrite andb_true_r, orb_false_r.
Qed.
Lemma low_bit_entry p fl i : 0 ≤ i < 12 → Z.testbit (Z.lor (Z.land p PTE_ADDR_MASK) fl) i = Z.testbit fl i.
Proof.
  intros Hi. rewrite Z.lor_spec, Z.land_spec, mask_bits by lia. destruct (Z.leb_spec 12 i); [lia|].
  cbn [andb]. by rewrite andb_false_r.
Qed.
Lemma plain_flags_lor a b : plain_flags a → plain_flags b → plain_flags (Z.lor a b).
Proof. intros Ha Hb i Hi. by rewrite Z.lor_spec, Ha, Hb. Qed.
Lemma plain_flags_pow2 k : 0 ≤ k < 12 ∨ 52 ≤ k → plain_flags (2 ^ k).
Proof. intros Hk i Hi. apply Z.pow2_bits_false. lia. Qed.

Lemma table_flags : plain_flags (Z.lor (Z.lor PAGE_PRESENT PAGE_WRITE) PAGE_USER).
Proof. repeat apply plain_flags_lor; apply plain_flags_pow2; lia. Qed.
Definition table_entry (phys : Z) : Z :=
  Z.lor (Z.lor (Z.lor (Z.land phys PTE_ADDR_MASK) PAGE_PRESENT) PAGE_WRITE) PAGE_USER.
Lemma table_entry_spec p : 0 ≤ p < 2 ^ 52 → p mod 4096 = 0 →
  frame_addr (table_entry p) = p ∧ present (table_entry p) = true ∧ pat (table_entry p) = false.
Proof.
  intros Hp Ha. unfold table_entry.
  replace (Z.lor (Z.lor (Z.lor (Z.land p PTE_ADDR_MASK) PAGE_PRESENT) PAGE_WRITE) PAGE_USER)
    with (Z.lor (Z.land p PTE_ADDR_MASK) (Z.lor (Z.lor PAGE_PRESENT PAGE_WRITE) PAGE_USER)) by (by rewrite !Z.lor_assoc).
  split_and!; [by apply frame_addr_entry, table_flags| |]; unfold present, pat; by rewrite low_bit_entry by lia.
Qed.

(** A property of a flag word kept by each step of [vmap_flags_to_pte]. *)
Lemma pte_flags_ind (P : Z → Prop) fl : P PAGE_PRESENT →
  (∀ a b, P a → b ∈ [PAGE_WRITE; PAGE_USER; PAGE_NO_EXEC; PAGE_WRITE_THRU; PAGE_NO_CACHE] → P (Z.lor a b)) →
  P (vmap_flags_to_pte fl).
Proof.
  intros H0 Hs. unfold vmap_flags_to_pte.
  repeat match goal with |- P (if ?b then Z.lor ?a ?c else ?a) => assert (P a); [|destruct b; [apply Hs; [done|set_solver]|done]] end.
  done.
Qed.
Lemma pte_flags_plain fl : plain_flags (vmap_flags_to_pte fl).
Proof.
  apply pte_flags_ind; [apply plain_flags_pow2; lia|]. intros a b Ha Hb. apply plain_flags_lor; [done|].
  repeat (apply elem_of_cons in Hb as [->|Hb]; [apply plain_flags_pow2; lia|]). by apply not_elem_of_nil in Hb.
Qed.
Lemma pte_flags_present fl : present (vmap_flags_to_pte fl) = true.
Proof. apply (pte_flags_ind (λ x, present x = true)); [done|]. intros a b Ha _. unfold present in *. by rewrite Z.lor_spec, Ha. Qed.

(** ** Indices and entry addresses *)
Lemma index_idx n v k : k = 12 + 9 * Z.of_nat n → Z.land (Z.shiftr v k) 0x1FF = idx n v.
Proof.
  intros ->. unfold idx. change 0x1FF with (2 ^ 9 - 1). rewrite mask_land, Z.shiftr_div_pow2 by lia. done.
Qed.
Lemma PML4_INDEX_idx v : PML4_INDEX v = idx 3 v.
Proof. by apply index_idx. Qed.
Lemma PDPT_INDEX_idx v : PDPT_INDEX v = idx 2 v.
Proof. by apply index_idx. Qed.
Lemma PD_INDEX_idx v : PD_INDEX v = idx 1 v.
Proof. by apply index_idx. Qed.
Lemma PT_INDEX_idx v : PT_INDEX v = idx 0 v.
Proof. by apply index_idx. Qed.
Lemma idx_range n v : 0 ≤ idx n v < 512.
Proof. apply Z.mod_pos_bound. lia. Qed.

Lemma entry_addr_inj a b i j : a mod 4096 = 0 → b mod 4096 = 0 → 0 ≤ i < 512 → 0 ≤ j < 512 →
  a + 8 * i = b + 8 * j → a = b ∧ i = j.
Proof. intros Ha Hb Hi Hj He. pose proof (Z.div_mod a 4096). pose proof (Z.div_mod b 4096). lia. Qed.

Lemma virt_phys p i : 0 ≤ p → 0 ≤ i → p + 8 * i < 2 ^ 64 → entry_at p i ⊟ DIRECT_MAP_BASE = p + 8 * i.
Proof.
  intros Hp Hi Hlt. unfold entry_at, phys_to_virt, u64. rewrite Zplus_mod_idemp_l, Zminus_mod_idemp_l.
  replace (DIRECT_MAP_BASE + p + 8 * i - DIRECT_MAP_BASE) with (p + 8 * i) by lia. apply Z.mod_small. lia.
Qed.
Lemma ld_entry st p i e : 0 ≤ p → 0 ≤ i → p + 8 * i < 2 ^ 64 → phys_mem st !! (p + 8 * i) = Some e →
  ld st (entry_at p i) = Ret e.
Proof. intros Hp Hi Hlt He. unfold ld. by rewrite virt_phys, He. Qed.
Lemma sto_entry st p i x : 0 ≤ p → 0 ≤ i → p + 8 * i < 2 ^ 64 → is_Some (phys_mem st !! (p + 8 * i)) →
  sto (entry_at p i) x st = Ret (with_mem (<[p + 8 * i := x]> (phys_mem st)) st).
Proof.
  intros Hp Hi Hlt [e He]. unfold sto. rewrite (ld_entry _ _ _ _ Hp Hi Hlt He), outcome_bind_ret. by rewrite virt_phys.
Qed.

(** ** The tables of a walk

    The tables the walk for [v] reads, from level [n] on; the [k]-th one is
    read at index [idx (n - k) v]. *)
Fixpoint tabs (n : nat) (m : gmap Z Z) (t v : Z) : list Z :=
  t :: match n with
       | O => []
       | S n' => match m !! (t + 8 * idx n v) with
                 | Some e => if present e && negb (is_leaf n e) then tabs n' m (frame_addr e) v else []
                 | None => []
                 end
       end.

Lemma walk_absent n m t v e : m !! (t + 8 * idx n v) = Some e → present e = false →
  mmu_walk n m t v = None ∧ tabs n m t v = [t].
Proof. intros He Hp. destruct n; cbn [mmu_walk tabs]; rewrite He; cbn [mbind option_bind]; by rewrite Hp. Qed.
Lemma walk_table n m t v e : m !! (t + 8 * idx (S n) v) = Some e → present e = true → is_leaf (S n) e = false →
  mmu_walk (S n) m t v = mmu_walk n m (frame_addr e) v ∧ tabs (S n) m t v = t :: tabs n m (frame_addr e) v.
Proof.
  intros He Hp Hl. split; cbn [mmu_walk tabs]; rewrite He; cbn [mbind option_bind]; rewrite Hp, Hl; done.
Qed.

Lemma walk_agree n m m' t v :
  (∀ k a, tabs n m t v !! k = Some a → m' !! (a + 8 * idx (n - k) v) = m !! (a + 8 * idx (n - k) v)) →
  mmu_walk n m' t v = mmu_walk n m t v ∧ tabs n m' t v = tabs n m t v.
Proof.
  revert t. induction n as [|n IH]; intros t Hag; cbn [mmu_walk tabs].
  - specialize (Hag 0%nat t eq_refl). rewrite Nat.sub_diag in Hag. by rewrite Hag.
  - pose proof (Hag 0%nat t eq_refl) as H0. rewrite Nat.sub_0_r in H0. rewrite H0.
    destruct (m !! (t + 8 * idx (S n) v)) as [e|] eqn:He; cbn [mbind option_bind]; [|done].
    destruct (present e) eqn:Hp; cbn [negb andb]; [|done].
    destruct (is_leaf (S n) e) eqn:Hlf; cbn [negb]; [done|].
    destruct (IH (frame_addr e)) as [H1 H2].
    + intros k a Ha. apply (Hag (S k)). cbn [tabs]. by rewrite He, Hp, Hlf.
    + by rewrite H1, H2.
Qed.

(** A walk that agrees up to its [k]-th table continues from there. *)
Lemma walk_split n m m' t v k a : tabs n m t v !! k = Some a →
  (∀ j b, (j < k)%nat → tabs n m t v !! j = Some b → m' !! (b + 8 * idx (n - j) v) = m !! (b + 8 * idx (n - j) v)) →
  mmu_walk n m' t v = mmu_walk (n - k) m' a v ∧
  tabs n m' t v = take k (tabs n m t v) ++ tabs (n - k) m' a v ∧ (k ≤ n)%nat.
Proof.
  revert n t. induction k as [|k IH]; intros n t Ha Hag.
  - rewrite Nat.sub_0_r. assert (a = t) as -> by (destruct n; cbn in Ha; congruence). split_and!; [done|done|lia].
  - destruct n as [|n]; [done|]. cbn [tabs lookup list_lookup] in Ha.
    pose proof (Hag 0%nat t ltac:(lia) eq_refl) as H0. rewrite Nat.sub_0_r in H0.
    cbn [mmu_walk tabs take]. rewrite H0.
    destruct (m !! (t + 8 * idx (S n) v)) as [e|] eqn:He; [|done].
    destruct (present e && negb (is_leaf (S n) e)) eqn:Hb; [|done].
    apply andb_true_iff in Hb as [Hp Hlf%negb_true_iff].
    destruct (IH n (frame_addr e) Ha) as (H1 & H2 & H3).
    + intros j b Hj Hb. apply (Hag (S j)); [lia|]. cbn [tabs]. by rewrite He, Hp, Hlf.
    + cbn [mbind option_bind]. rewrite Hp, Hlf. cbn [negb andb]. rewrite Nat.sub_succ, H1, H2.
      split_and!; [done|done|lia].
Qed.

(** The walk for [v] shares no table with a walk that has come another way. *)
Definition private (m : gmap Z Z) (root v : Z) : Prop :=
  ∀ u j k a, tabs 3 m root u !! j = Some a → tabs 3 m root v !! k = Some a →
    j = k ∧ ∀ l, (l < k)%nat → idx (3 - l) u = idx (3 - l) v.

(** [e] is the entry the walk for [u] reads in its [j]-th table [a]. *)
Definition reads (m : gmap Z Z) (root u : Z) (j : nat) (a e : Z) : Prop :=
  tabs 3 m root u !! j = Some a ∧ m !! (a + 8 * idx (3 - j) u) = Some e.

(** *** A new table linked into a walk *)
Section link.
Context (m m1 : gmap Z Z) (root v : Z) (k : nat) (t P e0 E : Z).
Context (Htab : ∀ u j a, tabs 3 m root u !! j = Some a → a mod 4096 = 0 ∧ a ≠ P)
  (HP : P mod 4096 = 0) (Hk : (k < 3)%nat) (Hpriv : private m root v)
  (Hv : reads m root v k t e0) (He0 : present e0 = false)
  (Hclear : ∀ i, 0 ≤ i < 512 → m1 !! (P + 8 * i) = Some 0)
  (Hother : ∀ w, w < P ∨ P + 4096 ≤ w → m1 !! w = m !! w)
  (HE : present E = true ∧ is_leaf (3 - k) E = false ∧ frame_addr E = P).
Let m2 := <[t + 8 * idx (3 - k) v := E]> m1.

Definition through (u : Z) : Prop := tabs 3 m root u !! k = Some t ∧ idx (3 - k) u = idx (3 - k) v.

Lemma link_old u j a : tabs 3 m root u !! j = Some a → ¬ (through u ∧ j = k) →
  m2 !! (a + 8 * idx (3 - j) u) = m !! (a + 8 * idx (3 - j) u).
Proof using All.
  intros Ha Hn. destruct (Htab u j a Ha) as [Ha4 HaP]. destruct Hv as [Hvt _]. destruct (Htab v k t Hvt) as [Ht4 _].
  pose proof (idx_range (3 - j) u). pose proof (idx_range (3 - k) v). unfold m2.
  rewrite lookup_insert_ne.
  - apply Hother. pose proof (Z.div_mod a 4096). pose proof (Z.div_mod P 4096). lia.
  - intros He. apply entry_addr_inj in He as [He Hi]; [|done..]. subst a.
    destruct (Hpriv u j k t Ha Hvt) as [-> _]. by apply Hn.
Qed.
Lemma link_new i : 0 ≤ i < 512 → m2 !! (P + 8 * i) = Some 0.
Proof using All.
  intros Hi. destruct Hv as [Hvt _]. destruct (Htab v k t Hvt) as [Ht4 HtP].
  pose proof (idx_range (3 - k) v). unfold m2. rewrite lookup_insert_ne; [by apply Hclear|].
  intros He. by apply entry_addr_inj in He as [? _].
Qed.

Lemma link_through u : through u → mmu_walk 3 m2 root u = None ∧ mmu_walk 3 m root u = None ∧
  tabs 3 m2 root u = tabs 3 m root u ++ [P] ∧ length (tabs 3 m root u) = S k.
Proof using All.
  intros Ht. pose proof Ht as [Hut Hui]. destruct Hv as [_ Hve]. destruct HE as (HE1 & HE2 & HE3).
  destruct (walk_split 3 m m root u k t Hut) as (H1 & H2 & H3); [done|].
  destruct (walk_split 3 m m2 root u k t Hut) as (H4 & H5 & _).
  { intros j b Hj Hb. apply link_old; [done|]. intros [_ ->]. lia. }
  assert (m2 !! (t + 8 * idx (3 - k) u) = Some E) as Hm2 by (rewrite Hui; apply lookup_insert_eq).
  rewrite <- Hui in Hve. destruct (walk_absent _ _ _ _ _ Hve He0) as [H6 H7]. rewrite H6 in H1. rewrite H7 in H2.
  assert (∃ n, (3 - k)%nat = S n) as [n Hn] by (exists (2 - k)%nat; lia). rewrite Hn in H4, H5, Hm2, HE2.
  destruct (walk_table n m2 t u E Hm2 HE1 HE2) as [H8 H9]. rewrite HE3 in H8, H9.
  destruct (walk_absent n m2 P u 0 (link_new _ (idx_range _ _)) eq_refl) as [H10 H11].
  split_and!.
  - by rewrite H4, H8.
  - done.
  - rewrite H5, H9, H11. rewrite H2 at 2. by rewrite <- app_assoc.
  - rewrite H2, length_app, length_take. pose proof (lookup_lt_Some _ _ _ Hut). cbn [length]. lia.
Qed.

Lemma link_else u : ¬ through u → mmu_walk 3 m2 root u = mmu_walk 3 m root u ∧ tabs 3 m2 root u = tabs 3 m root u.
Proof using All. intros Hn. apply walk_agree. intros j a Ha. apply link_old; [done|]. by intros [? _]. Qed.

Lemma link_mmu u : mmu_walk 3 m2 root u = mmu_walk 3 m root u.
Proof using All.
  destruct (decide (tabs 3 m root u !! k = Some t ∧ idx (3 - k) u = idx (3 - k) v)) as [Ht|Hn].
  - destruct (link_through u Ht) as (-> & -> & _). done.
  - by apply link_else.
Qed.
(** A table of a walk is the new one, below the entry, or an old one. *)
Lemma link_tabs u j a : tabs 3 m2 root u !! j = Some a ↔
  tabs 3 m root u !! j = Some a ∨ (through u ∧ j = S k ∧ a = P).
Proof using All.
  destruct (decide (tabs 3 m root u !! k = Some t ∧ idx (3 - k) u = idx (3 - k) v)) as [Ht|Hn].
  - destruct (link_through u Ht) as (_ & _ & -> & Hl). rewrite lookup_app_Some, Hl, list_lookup_singleton_Some.
    split; [intros [?|(? & ? & ?)]; [by left|right; split_and!; [done|lia|done]]|].
    intros [?|(_ & -> & ->)]; [by left|right]. split; [lia|]. split; [lia|done].
  - destruct (link_else u Hn) as [_ ->]. unfold through. tauto.
Qed.

Lemma link_private w : private m root w → private m2 root w.
Proof using All.
  intros Hw u i j a Hu Hj. apply link_tabs in Hu, Hj.
  destruct Hu as [Hu|(Hu & -> & ->)], Hj as [Hj|(Hj & -> & He)].
  - by eapply Hw.
  - subst a. by destruct (Htab u i P Hu).
  - by destruct (Htab w j P Hj).
  - split; [done|]. intros l Hl. destruct Hv as [Hvt _], Hu as [Hu1 Hu2], Hj as [Hw1 Hw2].
    destruct (Hpriv u k k t Hu1 Hvt) as [_ Hx], (Hpriv w k k t Hw1 Hvt) as [_ Hy].
    destruct (decide (l = k)) as [->|]; [congruence|]. by rewrite Hx, Hy by lia.
Qed.

(** The entries a walk reads: old ones, zeroes of the new table, or the link. *)
Lemma link_reads u j a e : reads m2 root u j a e → reads m root u j a e ∨ e = 0 ∨ (e = E ∧ j = k).
Proof using All.
  intros [Ha He]. apply link_tabs in Ha as [Ha|(Hu & -> & ->)].
  - destruct (decide (tabs 3 m root u !! k = Some t ∧ idx (3 - k) u = idx (3 - k) v ∧ j = k)) as [(Ht & Hi & ->)|Hn].
    + right. right. split; [|done]. assert (a = t) as -> by congruence. rewrite Hi in He.
      unfold m2 in He. rewrite lookup_insert_eq in He. congruence.
    + left. split; [done|]. rewrite <- He. symmetry. apply link_old; [done|]. intros [[? ?] ?]. by apply Hn.
  - right. left. rewrite link_new in He by apply idx_range. congruence.
Qed.
End link.

(** ** The invariant

    The frame allocator is in order and never hands out frame 0; memory covers
    its frames; the tables reachable from [root] are frames in use; and an absent
    entry that would hold a table is empty. *)
Record page_inv st (root : Z) : Prop := {
  pi_frames : Pframe.inv (frames st);
  pi_init : Pframe.initialized (frames st) = true;
  pi_zero : allocated (frames st) 0 = true;
  pi_mem w : 0 ≤ w < 4096 * total_frames (frames st) → w mod 8 = 0 → is_Some (phys_mem st !! w);
  pi_tab v k t : tabs 3 (phys_mem st) root v !! k = Some t →
    ∃ f, t = 4096 * f ∧ 0 < f < total_frames (frames st) ∧ allocated (frames st) f = true;
  pi_absent v k t e : reads (phys_mem st) root v k t e → (k < 3)%nat → present e = false → frame_addr e = 0;
  pi_started : s_initialized st = true ∧ s_direct_map_established st = true }.

(** The word [w] lies in no table reachable from [root]. *)
Definition outside_tables (root : Z) (m : gmap Z Z) (w : Z) : Prop :=
  ∀ u j a, tabs 3 m root u !! j = Some a → w < a ∨ a + 4096 ≤ w.
(** The frames of [st] stay allocated, a new table is a frame that was free, and
    only tables have been written. *)
Record grown (root : Z) st st' : Prop := {
  gr_total : total_frames (frames st') = total_frames (frames st);
  gr_alloc f : 0 ≤ f < total_frames (frames st) → allocated (frames st) f = true → allocated (frames st') f = true;
  gr_taken f : 0 ≤ f < total_frames (frames st) → allocated (frames st') f = true →
    allocated (frames st) f = true ∨ ∃ u j, tabs 3 (phys_mem st') root u !! j = Some (4096 * f);
  gr_tab u j a : tabs 3 (phys_mem st') root u !! j = Some a → tabs 3 (phys_mem st) root u !! j = Some a ∨
    ∃ f, a = 4096 * f ∧ 0 ≤ f < total_frames (frames st) ∧ allocated (frames st) f = false;
  gr_old u j a : tabs 3 (phys_mem st) root u !! j = Some a → tabs 3 (phys_mem st') root u !! j = Some a;
  gr_mem w : outside_tables root (phys_mem st') w → phys_mem st' !! w = phys_mem st !! w }.
#[export] Instance grown_preorder root : PreOrder (grown root).
Proof.
  split.
  - intros st. split; auto.
  - intros st1 st2 st3 [T1 A1 F1 N1 O1 M1] [T2 A2 F2 N2 O2 M2]. split.
    + congruence.
    + intros f Hf Ha. apply A2; [by rewrite T1|]. by apply A1.
    + intros f Hf Ha. destruct (F2 f) as [Ha2|?]; [by rewrite T1|done| |by right].
      destruct (F1 f Hf Ha2) as [?|(u & j & Hu)]; [by left|right]. exists u, j. by apply O2.
    + intros u j a Ha. destruct (N2 _ _ _ Ha) as [Ha2|(f & -> & Hf & Hn)]; [by apply N1|].
      right. exists f. rewrite T1 in Hf. split_and!; [done|lia|lia|]. destruct (allocated (frames st1) f) eqn:He; [|done].
      by rewrite (A1 f Hf He) in Hn.
    + intros u j a Ha. by apply O2, O1.
    + intros w Hw. rewrite M2 by done. apply M1. intros u j a Ha. by apply (Hw u j), O2.
Qed.

(** [st'] translates like [st]; it may have more tables. *)
Record extends (root : Z) st st' : Prop := {
  ex_grown : grown root st st';
  ex_mmu u : mmu st' root u = mmu st root u;
  ex_tabs u j a : tabs 3 (phys_mem st) root u !! j = Some a → tabs 3 (phys_mem st') root u !! j = Some a;
  ex_private w : private (phys_mem st) root w → private (phys_mem st') root w;
  ex_leaf u j a e : reads (phys_mem st') root u j a e → present e = true → is_leaf (3 - j) e = true →
    reads (phys_mem st) root u j a e;
  ex_tlb : tlb st' = tlb st }.
#[local] Instance extends_preorder root : PreOrder (extends root).
Proof.
  split.
  - intros st. by split.
  - intros st1 st2 st3 H1 H2. split.
    + etrans; [apply H1|apply H2].
    + intros u. by rewrite (ex_mmu _ _ _ H2), (ex_mmu _ _ _ H1).
    + intros u j a Ha. by apply (ex_tabs _ _ _ H2), (ex_tabs _ _ _ H1).
    + intros w Hw. by apply (ex_private _ _ _ H2), (ex_private _ _ _ H1).
    + intros u j a e Hr Hp Hl. apply (ex_leaf _ _ _ H1); [|done..]. by apply (ex_leaf _ _ _ H2).
    + by rewrite (ex_tlb _ _ _ H2), (ex_tlb _ _ _ H1).
Qed.

(** Facts about one table of a walk. *)
Lemma pi_table st root v k t i : page_inv st root → tabs 3 (phys_mem st) root v !! k = Some t → 0 ≤ i < 512 →
  0 < t ∧ t mod 4096 = 0 ∧ t + 4096 ≤ 2 ^ 36 ∧ t ≤ t + 8 * i < t + 4096 ∧ is_Some (phys_mem st !! (t + 8 * i)).
Proof.
  intros Hs Ht Hi. destruct (pi_tab _ _ Hs v k t Ht) as (f & -> & Hf & _).
  pose proof (inv_small _ (pi_frames _ _ Hs)).
  assert ((4096 * f) mod 4096 = 0) as Hm by (rewrite Z.mul_comm; apply Z.mod_mul; lia).
  split_and!; try lia. apply (pi_mem _ _ Hs); [lia|]. pose proof (Z.div_mod (4096 * f) 4096).
  replace (4096 * f + 8 * i) with ((512 * f + i) * 8) by lia. apply Z.mod_mul. lia.
Qed.
Lemma pi_ld st root v k t i : page_inv st root → tabs 3 (phys_mem st) root v !! k = Some t → 0 ≤ i < 512 →
  ∃ e, phys_mem st !! (t + 8 * i) = Some e ∧ ld st (entry_at t i) = Ret e.
Proof.
  intros Hs Ht Hi. destruct (pi_table st root v k t i Hs Ht Hi) as (? & ? & ? & ? & e & He).
  exists e. split; [done|]. apply ld_entry; [lia..|done].
Qed.

Lemma clear_page_spec st P : 0 ≤ P → P + 4096 ≤ 2 ^ 64 → (∀ i, 0 ≤ i < 512 → is_Some (phys_mem st !! (P + 8 * i))) →
  ∃ m', clear_page (phys_to_virt P) st = Ret (with_mem m' st) ∧
    (∀ i, 0 ≤ i < 512 → m' !! (P + 8 * i) = Some 0) ∧
    (∀ w, w < P ∨ P + 4096 ≤ w → m' !! w = phys_mem st !! w) ∧ dom m' = dom (phys_mem st).
Proof.
  intros HP Hlt Hmem. unfold clear_page.
  destruct (for_range_ind (λ i st', ∃ m', st' = with_mem m' st ∧
      (∀ j, 0 ≤ j < i → m' !! (P + 8 * j) = Some 0) ∧
      (∀ w, w < P ∨ P + 4096 ≤ w → m' !! w = phys_mem st !! w) ∧ dom m' = dom (phys_mem st))
    0 512 (λ i, sto (phys_to_virt P ⊞ 8 * i) 0) st) as (st' & Hr & m' & -> & Hz & Ho & Hd).
  - exists (phys_mem st). split_and!; [by destruct st|intros; lia|done|done].
  - intros i st' Hi (m' & -> & Hz & Ho & Hd).
    assert (is_Some (m' !! (P + 8 * i))) as Hs by (rewrite <- elem_of_dom, Hd, elem_of_dom; by apply Hmem).
    change (phys_to_virt P ⊞ 8 * i) with (entry_at P i). rewrite sto_entry by (done || lia). eexists. split; [done|].
    exists (<[P + 8 * i := 0]> m'). split_and!; [done|..].
    + intros j Hj. destruct (decide (i = j)) as [->|]; [apply lookup_insert_eq|].
      rewrite lookup_insert_ne by lia. apply Hz. lia.
    + intros w Hw. rewrite lookup_insert_ne by lia. by apply Ho.
    + rewrite dom_insert_L, Hd. apply elem_of_dom in Hs. rewrite Hd in Hs. set_solver.
  - by exists m'.
Qed.

(** Taking a frame for a table: the frame was free and is now zero. *)
Lemma create_table_spec out st root : page_inv st root →
  (∃ f fr m1, page_create_table out st = Ret (PAGE_OK, 4096 * f, with_mem m1 (with_frames fr st)) ∧
     0 < f < total_frames (frames st) ∧ allocated (frames st) f = false ∧ changed (frames st) fr f 1 true ∧
     Pframe.inv fr ∧ (∀ i, 0 ≤ i < 512 → m1 !! (4096 * f + 8 * i) = Some 0) ∧
     (∀ w, w < 4096 * f ∨ 4096 * f + 4096 ≤ w → m1 !! w = phys_mem st !! w) ∧ dom m1 = dom (phys_mem st)) ∨
  (page_create_table out st = Ret (PAGE_ERR_OOM, out, st) ∧
     ∀ f, 0 ≤ f < total_frames (frames st) → allocated (frames st) f = true).
Proof.
  intros Hs. destruct (pi_started _ _ Hs) as [Hi Hd]. pose proof (inv_small _ (pi_frames _ _ Hs)).
  unfold page_create_table. rewrite Hi, Hd. cbn [ccos_assert]. rewrite !outcome_bind_ret.
  destruct (pframe_alloc_cases (frames st) (pi_frames _ _ Hs) (pi_init _ _ Hs))
    as [(f & fr & -> & Hf & Hfree & Hch & Hinv)|[-> Hfull]]; rewrite outcome_bind_ret.
  - left. assert (f ≠ 0) by (intros ->; by rewrite (pi_zero _ _ Hs) in Hfree).
    rewrite frame_to_addr_mul by lia.
    destruct (clear_page_spec (with_frames fr st) (4096 * f)) as (m1 & -> & Hz & Ho & Hdm); [lia|lia| |].
    { intros i Hi'. apply (pi_mem _ _ Hs); [lia|]. replace (4096 * f + 8 * i) with ((512 * f + i) * 8) by lia.
      apply Z.mod_mul. lia. }
    exists f, fr, m1. rewrite outcome_bind_ret. split_and!; try done; lia.
  - right. split; [|done]. by destruct st.
Qed.

Lemma link_table_spec st root v k t e0 f fr m1 : page_inv st root → private (phys_mem st) root v →
  reads (phys_mem st) root v k t e0 → present e0 = false → (k < 3)%nat →
  0 < f < total_frames (frames st) → allocated (frames st) f = false → changed (frames st) fr f 1 true → Pframe.inv fr →
  (∀ i, 0 ≤ i < 512 → m1 !! (4096 * f + 8 * i) = Some 0) →
  (∀ w, w < 4096 * f ∨ 4096 * f + 4096 ≤ w → m1 !! w = phys_mem st !! w) → dom m1 = dom (phys_mem st) →
  let st' := with_mem (<[t + 8 * idx (3 - k) v := table_entry (4096 * f)]> m1) (with_frames fr st) in
  page_inv st' root ∧ extends root st st' ∧ tabs 3 (phys_mem st') root v !! S k = Some (4096 * f).
Proof.
  intros Hs Hpriv Hrd Hp Hk Hf Hfree (Htot & Hini & Hch) Hinv Hz Ho Hd st'.
  pose proof (inv_small _ (pi_frames _ _ Hs)). pose proof Hrd as [Ht He].
  assert ((4096 * f) mod 4096 = 0) as HP by (rewrite Z.mul_comm; apply Z.mod_mul; lia).
  assert (∀ u j a, tabs 3 (phys_mem st) root u !! j = Some a → a mod 4096 = 0 ∧ a ≠ 4096 * f) as Htab.
  { intros u j a Ha. destruct (pi_table st root u j a 0 Hs Ha) as (_ & ? & _); [lia|]. split; [done|].
    destruct (pi_tab _ _ Hs u j a Ha) as (g & -> & _ & Hg). intros ?. assert (g = f) as -> by lia. congruence. }
  destruct (table_entry_spec (4096 * f)) as (HE1 & HE2 & HE3); [lia|done|].
  assert (present (table_entry (4096 * f)) = true ∧ is_leaf (3 - k) (table_entry (4096 * f)) = false ∧
    frame_addr (table_entry (4096 * f)) = 4096 * f) as HE.
  { split_and!; try done. unfold is_leaf. by destruct (3 - k)%nat as [|[|[|]]]. }
  pose proof (link_tabs _ _ _ _ _ _ _ _ _ Htab HP Hk Hpriv Hrd Hp Hz Ho HE) as Htabs.
  pose proof (link_reads _ _ _ _ _ _ _ _ _ Htab HP Hk Hpriv Hrd Hp Hz Ho HE) as Hreads.
  pose proof (link_mmu _ _ _ _ _ _ _ _ _ Htab HP Hk Hpriv Hrd Hp Hz Ho HE) as Hmmu.
  pose proof (link_private _ _ _ _ _ _ _ _ _ Htab HP Hk Hpriv Hrd Hp Hz Ho HE) as Hpv.
  split; [|split].
  - split; cbn [frames phys_mem st' with_mem with_frames s_initialized s_direct_map_established]; try done.
    + rewrite Hini. apply Hs.
    + rewrite Hch by lia. destruct (Z.leb_spec f 0); [lia|]. cbn [andb]. apply Hs.
    + intros w Hw Hw8. rewrite Htot in Hw. apply lookup_insert_is_Some'. right.
      rewrite <- elem_of_dom, Hd, elem_of_dom. by apply (pi_mem _ _ Hs).
    + intros u j a [Ha|(_ & _ & ->)]%Htabs; rewrite Htot.
      * destruct (pi_tab _ _ Hs u j a Ha) as (g & -> & Hg & Hal). exists g. split_and!; [done|lia|lia|].
        rewrite Hch by lia. by destruct (_ && _).
      * exists f. split_and!; [done|lia|lia|]. rewrite Hch by lia.
        destruct (Z.leb_spec f f), (Z.ltb_spec f (f + 1)); [done|lia..].
    + intros u j a e [Hr|[->|[-> ->]]]%Hreads Hj Hpe; [by eapply (pi_absent _ _ Hs)|done|congruence].
    + apply Hs.
  - split; [|exact Hmmu| |exact Hpv| |done].
    + split; cbn [frames phys_mem st' with_mem with_frames].
      * done.
      * intros g Hg Hal. rewrite Hch by lia. by destruct (_ && _).
      * intros g Hg. rewrite Hch by lia. destruct (decide (g = f)) as [->|Hne].
        -- intros _. right. exists v, (S k). apply Htabs. right. split; [by split|done].
        -- destruct (Z.leb_spec f g), (Z.ltb_spec g (f + 1)); cbn [andb]; intros ?; [lia|by left..].
      * intros u j a [Ha|(_ & _ & ->)]%Htabs; [by left|right]. exists f. split_and!; [done|lia|lia|done].
      * intros u j a Ha. apply Htabs. by left.
      * intros w Hw. destruct (pi_table st root v k t _ Hs Ht (idx_range (3 - k) v)) as (_ & _ & _ & Hti & _).
        assert (w < t ∨ t + 4096 ≤ w) by (apply (Hw v k), Htabs; by left).
        assert (w < 4096 * f ∨ 4096 * f + 4096 ≤ w) by (apply (Hw v (S k)), Htabs; right; split; [by split|done]).
        rewrite lookup_insert_ne by lia. by apply Ho.
    + intros u j a Ha. apply Htabs. by left.
    + intros u j a e [Hr|[->|[-> ->]]]%Hreads Hpe Hlf; [done|done|]. destruct HE as (_ & ? & _). congruence.
  - apply Htabs. right. split; [by split|done].
Qed.

Lemma descend_spec st root v k t alloc : page_inv st root → private (phys_mem st) root v →
  tabs 3 (phys_mem st) root v !! k = Some t → (k < 3)%nat →
  (∀ e, reads (phys_mem st) root v k t e → present e = true → is_leaf (3 - k) e = false) →
  ∃ r t' st', descend t (idx (3 - k) v) alloc st = Ret (r, t', st') ∧ page_inv st' root ∧ extends root st st' ∧
    ((r = PAGE_OK ∧ tabs 3 (phys_mem st') root v !! (S k) = Some t') ∨
     (r = PAGE_ERR_NOT_PRESENT ∧ alloc = false ∧ st' = st ∧ mmu st root v = None) ∨
     (r = PAGE_ERR_OOM ∧ alloc = true ∧ (∀ f, 0 ≤ f < total_frames (frames st) → allocated (frames st) f = true) ∧
        st' = st ∧ mmu st root v = None)).
Proof.
  intros Hs Hpriv Ht Hk Hnl. pose proof (idx_range (3 - k) v) as Hix.
  destruct (pi_ld st root v k t _ Hs Ht Hix) as (e & He & Hld).
  pose proof (conj Ht He : reads (phys_mem st) root v k t e) as Hrd.
  destruct (walk_split 3 (phys_mem st) (phys_mem st) root v k t Ht) as (Hw1 & Hw2 & _); [done|].
  assert (∃ n, (3 - k)%nat = S n) as [n Hn] by (exists (2 - k)%nat; lia).
  unfold descend. rewrite Hld, outcome_bind_ret. unfold get_or_create_table.
  destruct (present e) eqn:Hp.
  - specialize (Hnl e Hrd Hp). rewrite Hn in He, Hnl, Hw2.
    destruct (walk_table n _ _ _ _ He Hp Hnl) as [_ Htabs].
    assert (tabs 3 (phys_mem st) root v !! S k = Some (frame_addr e)) as Hnext.
    { rewrite Hw2, Htabs. rewrite lookup_app_r by (rewrite length_take; lia).
      rewrite length_take_le by (apply lookup_lt_Some in Ht; lia).
      replace (S k - k)%nat with 1%nat by lia. by destruct n. }
    destruct (pi_table st root v (S k) _ 0 Hs Hnext) as (Hpos & _); [lia|].
    destruct (Z.eqb_spec (frame_addr e) 0); [lia|]. cbn [negb]. rewrite outcome_bind_ret, bool_decide_true by done.
    cbn [negb]. rewrite Hld, outcome_bind_ret, Z.eqb_refl, outcome_bind_ret.
    exists PAGE_OK, (frame_addr e), st. split_and!; [done|done|reflexivity|by left].
  - assert (mmu st root v = None) as Hnone.
    { unfold mmu. rewrite Hw1. by apply (walk_absent _ _ _ _ _ He Hp). }
    rewrite (pi_absent _ _ Hs v k t e Hrd Hk Hp). cbn [Z.eqb negb]. destruct alloc; cbn [negb].
    2: { rewrite outcome_bind_ret, bool_decide_false by done. cbn [negb].
         exists PAGE_ERR_NOT_PRESENT, 0, st. split_and!; [done|done|reflexivity|by right; left]. }
    destruct (create_table_spec 0 st root Hs) as [(f & fr & m1 & -> & Hf & Hfree & Hch & Hinv & Hz & Ho & Hd)|[-> Hfull]];
      rewrite outcome_bind_ret.
    2: { rewrite bool_decide_false by done. cbn [negb]. exists PAGE_ERR_OOM, 0, st. split_and!; [done|done|reflexivity|by right; right]. }
    rewrite bool_decide_true by done. cbn [negb].
    destruct (pi_table st root v k t _ Hs Ht Hix) as (Ht0 & Ht4 & Ht36 & Hti & Hts).
    assert (m1 !! (t + 8 * idx (3 - k) v) = Some e) as Hm1.
    { rewrite Ho; [done|]. destruct (pi_tab _ _ Hs v k t Ht) as (g & -> & _ & Hg).
      assert (g ≠ f) by (intros ->; congruence). lia. }
    rewrite (ld_entry _ t _ e) by (done || lia). rewrite outcome_bind_ret, (pi_absent _ _ Hs v k t e Hrd Hk Hp).
    destruct (Z.eqb_spec (4096 * f) 0); [lia|].
    rewrite sto_entry by (eauto || lia). rewrite outcome_bind_ret.
    destruct (link_table_spec st root v k t e f fr m1 Hs Hpriv Hrd Hp Hk Hf Hfree Hch Hinv Hz Ho Hd) as (H1 & H2 & H3).
    do 3 eexists. split; [reflexivity|]. split; [exact H1|]. split; [exact H2|]. left. split; [done|exact H3].
Qed.

(** ** Writing the entry a walk ends at

    Level [n] entries map blocks of [2 ^ (12 + 9 n)] bytes. *)
Definition block_size (n : nat) : Z := 2 ^ (12 + 9 * Z.of_nat n).
Definition block (n : nat) (v : Z) : Z := (v / block_size n) mod 2 ^ (36 - 9 * Z.of_nat n).
(** Does a walk go on below this entry? *)
Definition goes_on (n : nat) (e : Z) : bool := match n with O => false | S _ => present e && negb (is_leaf n e) end.
Definition leaf_result (n : nat) (e v : Z) : option (Z * Z) :=
  if present e then Some (frame_addr e + v mod block_size n, e) else None.

Lemma goes_on_absent n e : present e = false → goes_on n e = false.
Proof. intros Hp. destruct n; [done|]. cbn [goes_on]. by rewrite Hp. Qed.
Lemma walk_end n m t v e : m !! (t + 8 * idx n v) = Some e → goes_on n e = false →
  mmu_walk n m t v = leaf_result n e v ∧ tabs n m t v = [t].
Proof.
  intros He Hg. unfold leaf_result, block_size. destruct n as [|n]; cbn [mmu_walk tabs goes_on] in *; rewrite He; cbn [mbind option_bind].
  - by destruct (present e).
  - rewrite Hg. destruct (present e); [|done]. cbn [andb] in Hg. apply negb_false_iff in Hg. rewrite Hg. done.
Qed.

(** Walks with the same upper indices come to the same table. *)
Lemma tabs_same n m t u v k : (∀ l, (l < k)%nat → idx (n - l) u = idx (n - l) v) →
  tabs n m t u !! k = tabs n m t v !! k.
Proof.
  revert n t. induction k as [|k IH]; intros n t Hi; [by destruct n|].
  destruct n as [|n]; [done|]. cbn [tabs lookup list_lookup]. rewrite (Hi 0%nat ltac:(lia) : idx (S n) u = idx (S n) v).
  destruct (m !! _) as [e|]; [|done]. destruct (_ && _); [|done]. apply IH. intros l Hl. apply (Hi (S l)). lia.
Qed.

(** Numbers agree modulo a power of 512 when their digits do. *)
Lemma digits_eq k x y : x mod 512 ^ Z.of_nat k = y mod 512 ^ Z.of_nat k ↔
  ∀ j, (j < k)%nat → (x / 512 ^ Z.of_nat j) mod 512 = (y / 512 ^ Z.of_nat j) mod 512.
Proof.
  revert x y. induction k as [|k IH]; intros x y.
  - change (512 ^ Z.of_nat 0) with 1. rewrite !Z.mod_1_r. split; [lia|done].
  - rewrite Nat2Z.inj_succ, Z.pow_succ_r, !Z.rem_mul_r by lia.
    pose proof (Z.mod_pos_bound x 512). pose proof (Z.mod_pos_bound y 512).
    assert (∀ z j, z / 512 / 512 ^ Z.of_nat j = z / 512 ^ Z.of_nat (S j)) as Hs.
    { intros z j. rewrite Nat2Z.inj_succ, Z.pow_succ_r, Z.div_div by lia. done. }
    assert (x mod 512 + 512 * ((x / 512) mod 512 ^ Z.of_nat k) = y mod 512 + 512 * ((y / 512) mod 512 ^ Z.of_nat k) ↔
      x mod 512 = y mod 512 ∧ (x / 512) mod 512 ^ Z.of_nat k = (y / 512) mod 512 ^ Z.of_nat k) as -> by lia.
    rewrite IH. setoid_rewrite Hs. split.
    + intros [H1 H2] [|j] Hj; [by rewrite !Z.div_1_r|apply H2; lia].
    + intros Hj. split; [|intros j Hlt; apply Hj; lia]. specialize (Hj 0%nat ltac:(lia)). by rewrite !Z.div_1_r in Hj.
Qed.

Lemma block_idx n u v : (n ≤ 3)%nat → block n u = block n v ↔ ∀ l, (l ≤ 3 - n)%nat → idx (3 - l) u = idx (3 - l) v.
Proof.
  intros Hn. unfold block, block_size.
  replace (2 ^ (36 - 9 * Z.of_nat n)) with (512 ^ Z.of_nat (4 - n)).
  2: { change 512 with (2 ^ 9). rewrite <- Z.pow_mul_r by lia. f_equal. lia. }
  assert (∀ w j, (j < 4 - n)%nat → (w / 2 ^ (12 + 9 * Z.of_nat n) / 512 ^ Z.of_nat j) mod 512 = idx (n + j) w) as Hd.
  { intros w j Hj. unfold idx. rewrite Z.div_div by lia. do 2 f_equal. change 512 with (2 ^ 9).
    rewrite <- Z.pow_mul_r, <- Z.pow_add_r by lia. f_equal. lia. }
  rewrite digits_eq. split.
  - intros H l Hl. specialize (H (3 - l - n)%nat ltac:(lia)). rewrite !Hd in H by lia.
    by replace (n + (3 - l - n))%nat with (3 - l)%nat in H by lia.
  - intros H j Hj. rewrite !Hd by lia. specialize (H (3 - (n + j))%nat ltac:(lia)).
    by replace (3 - (3 - (n + j)))%nat with (n + j)%nat in H by lia.
Qed.

Section leaf.
Context (m : gmap Z Z) (root v : Z) (k : nat) (t e0 E : Z).
Context (Htab : ∀ u j a, tabs 3 m root u !! j = Some a → a mod 4096 = 0)
  (Hk : (k ≤ 3)%nat) (Hpriv : private m root v)
  (Hv : reads m root v k t e0) (He0 : goes_on (3 - k) e0 = false) (HE : goes_on (3 - k) E = false).
Let m2 := <[t + 8 * idx (3 - k) v := E]> m.

Lemma leaf_old u j a : tabs 3 m root u !! j = Some a → ¬ (block (3 - k) u = block (3 - k) v ∧ j = k) →
  m2 !! (a + 8 * idx (3 - j) u) = m !! (a + 8 * idx (3 - j) u).
Proof using All.
  intros Ha Hn. destruct Hv as [Hvt _]. pose proof (Htab v k t Hvt) as Ht4. pose proof (Htab u j a Ha) as Ha4.
  pose proof (idx_range (3 - j) u). pose proof (idx_range (3 - k) v). unfold m2.
  rewrite lookup_insert_ne; [done|]. intros He. apply entry_addr_inj in He as [He Hi]; [|done..]. subst a.
  destruct (Hpriv u j k t Ha Hvt) as [-> Hpre]. apply Hn. split; [|done]. apply block_idx; [lia|].
  intros l Hl. destruct (decide (l = k)) as [->|]; [done|apply Hpre; lia].
Qed.
Lemma leaf_else u : block (3 - k) u ≠ block (3 - k) v →
  mmu_walk 3 m2 root u = mmu_walk 3 m root u ∧ tabs 3 m2 root u = tabs 3 m root u.
Proof using All. intros Hn. apply walk_agree. intros j a Ha. apply leaf_old; [done|]. by intros [? _]. Qed.
Lemma leaf_in u : block (3 - k) u = block (3 - k) v →
  mmu_walk 3 m2 root u = leaf_result (3 - k) E u ∧ mmu_walk 3 m root u = leaf_result (3 - k) e0 u ∧
  tabs 3 m2 root u = tabs 3 m root u.
Proof using All.
  intros Hb. destruct Hv as [Hvt Hve]. pose proof (proj1 (block_idx (3 - k) u v ltac:(lia)) Hb) as Hi.
  assert (tabs 3 m root u !! k = Some t) as Hut.
  { rewrite <- Hvt. apply tabs_same. intros l Hl. apply Hi. lia. }
  assert (idx (3 - k) u = idx (3 - k) v) as Huk by (apply Hi; lia).
  destruct (walk_split 3 m m root u k t Hut) as (H1 & H2 & _); [done|].
  destruct (walk_split 3 m m2 root u k t Hut) as (H3 & H4 & _).
  { intros j b Hj Hb'. apply leaf_old; [done|]. intros [_ ->]. lia. }
  rewrite <- Huk in Hve. destruct (walk_end _ _ _ _ _ Hve He0) as [H5 H6].
  destruct (walk_end (3 - k) m2 t u E) as [H7 H8]; [rewrite Huk; apply lookup_insert_eq|done|].
  split_and!; [congruence|congruence|]. rewrite H4, H8. rewrite H2 at 2. by rewrite H6.
Qed.
Lemma leaf_tabs u : tabs 3 m2 root u = tabs 3 m root u.
Proof using All.
  destruct (decide (block (3 - k) u = block (3 - k) v)) as [Hb|Hb]; [by apply leaf_in|by apply leaf_else].
Qed.
Lemma leaf_private w : private m root w → private m2 root w.
Proof using All. intros Hw u i j a. rewrite !leaf_tabs. apply Hw. Qed.
Lemma leaf_reads u j a e : reads m2 root u j a e → reads m root u j a e ∨ (e = E ∧ j = k).
Proof using All.
  intros [Ha He]. rewrite leaf_tabs in Ha.
  destruct (decide (block (3 - k) u = block (3 - k) v ∧ j = k)) as [[Hb ->]|Hn].
  - right. split; [|done]. destruct Hv as [Hvt _].
    pose proof (proj1 (block_idx (3 - k) u v ltac:(lia)) Hb) as Hi.
    assert (tabs 3 m root u !! k = Some t) as Hut.
    { rewrite <- Hvt. apply tabs_same. intros l Hl. apply Hi. lia. }
    assert (a = t) as -> by congruence. rewrite Hi in He by lia. unfold m2 in He. rewrite lookup_insert_eq in He. congruence.
  - left. split; [done|]. rewrite <- He. symmetry. by apply leaf_old.
Qed.
End leaf.

(** [st'] is [st] with the block of [v] at level [n] mapped by [e]. *)
Record remapped (root : Z) (n : nat) (v e : Z) st st' : Prop := {
  rm_inv : page_inv st' root;
  rm_in u : block n u = block n v → mmu st' root u = leaf_result n e u;
  rm_else u : block n u ≠ block n v → mmu st' root u = mmu st root u;
  rm_private w : private (phys_mem st) root w → private (phys_mem st') root w;
  rm_reads u j a x : reads (phys_mem st') root u j a x → reads (phys_mem st) root u j a x ∨ (x = e ∧ j = (3 - n)%nat);
  rm_tabs u : tabs 3 (phys_mem st') root u = tabs 3 (phys_mem st) root u;
  rm_mem w : outside_tables root (phys_mem st) w → phys_mem st' !! w = phys_mem st !! w;
  rm_frames : frames st' = frames st;
  rm_tlb : tlb st' = tlb st }.

Lemma remapped_grown root n v e st st' t : remapped root n v e st st' → grown root st (with_tlb t st').
Proof.
  intros Hrm. split; cbn [frames phys_mem with_tlb]; rewrite ?(rm_frames _ _ _ _ _ _ Hrm); auto.
  - intros u j a. rewrite (rm_tabs _ _ _ _ _ _ Hrm). by left.
  - intros u j a. by rewrite (rm_tabs _ _ _ _ _ _ Hrm).
  - intros w Hw. apply (rm_mem _ _ _ _ _ _ Hrm). intros u j a Ha. apply (Hw u j). by rewrite (rm_tabs _ _ _ _ _ _ Hrm).
Qed.
Lemma write_leaf st root v k t e0 E : page_inv st root → private (phys_mem st) root v → (k ≤ 3)%nat →
  reads (phys_mem st) root v k t e0 → goes_on (3 - k) e0 = false → goes_on (3 - k) E = false →
  (present E = false → frame_addr E = 0) →
  ∃ st', sto (entry_at t (idx (3 - k) v)) E st = Ret st' ∧ remapped root (3 - k) v E st st'.
Proof.
  intros Hs Hpriv Hk Hrd He0 HE HE0. pose proof Hrd as [Ht He].
  destruct (pi_table st root v k t _ Hs Ht (idx_range (3 - k) v)) as (? & ? & ? & ? & Hsome).
  rewrite sto_entry by (done || lia). eexists. split; [done|].
  assert (∀ u j a, tabs 3 (phys_mem st) root u !! j = Some a → a mod 4096 = 0) as Htab.
  { intros u j a Ha. by destruct (pi_table st root u j a 0 Hs Ha) as (_ & ? & _). }
  pose proof (leaf_tabs _ _ _ _ _ _ _ Htab Hk Hpriv Hrd He0 HE) as Htabs.
  pose proof (leaf_reads _ _ _ _ _ _ _ Htab Hk Hpriv Hrd He0 HE) as Hreads.
  split; cbn [phys_mem frames with_mem tlb]; try done.
  - split; cbn [phys_mem frames with_mem]; try apply Hs.
    + intros w Hw Hw8. apply lookup_insert_is_Some'. right. by apply (pi_mem _ _ Hs).
    + intros u j a. rewrite Htabs. apply Hs.
    + intros u j a e [Hr|[-> ->]]%Hreads Hj Hp; [by eapply (pi_absent _ _ Hs)|by apply HE0].
  - intros u Hu. by apply (leaf_in _ _ _ _ _ _ _ Htab Hk Hpriv Hrd He0 HE).
  - intros u Hu. by apply (leaf_else _ _ _ _ _ _ _ Htab Hk Hpriv Hrd He0 HE).
  - exact (leaf_private _ _ _ _ _ _ _ Htab Hk Hpriv Hrd He0 HE).
  - intros u j a x [Hr|[-> ->]]%Hreads; [by left|right]. split; [done|lia].
  - intros w Hw. pose proof (Hw v k t Ht). by rewrite lookup_insert_ne by lia.
Qed.

(** ** Mapping *)
Definition size_level (flags : Z) : nat :=
  if flag_set flags VMAP_FLAG_HUGE_1GB then 2 else if flag_set flags VMAP_FLAG_HUGE_2MB then 1 else 0.
(** The entry [page_map_page] writes. *)
Definition map_entry (p flags : Z) : Z :=
  let e := Z.lor (Z.land p PTE_ADDR_MASK) (vmap_flags_to_pte flags) in
  match size_level flags with O => e | _ => Z.lor e PAGE_HUGE_PD end.

Lemma size_level_le flags : (size_level flags ≤ 2)%nat.
Proof. unfold size_level. destruct (flag_set _ _); [lia|]. destruct (flag_set _ _); lia. Qed.
Lemma map_entry_spec p flags : 0 ≤ p < 2 ^ 52 → p mod 4096 = 0 →
  frame_addr (map_entry p flags) = p ∧ present (map_entry p flags) = true ∧
  goes_on (size_level flags) (map_entry p flags) = false.
Proof.
  intros Hp Ha. unfold map_entry. pose proof (size_level_le flags) as Hle.
  assert (plain_flags (Z.lor (vmap_flags_to_pte flags) PAGE_HUGE_PD)) as Hpl.
  { apply plain_flags_lor; [apply pte_flags_plain|apply plain_flags_pow2; lia]. }
  pose proof (pte_flags_present flags) as Hpr. unfold present, pat in *.
  assert (∀ n, (n = 1 ∨ n = 2)%nat →
    let e := Z.lor (Z.lor (Z.land p PTE_ADDR_MASK) (vmap_flags_to_pte flags)) PAGE_HUGE_PD in
    frame_addr e = p ∧ present e = true ∧ goes_on n e = false) as Hhuge.
  { intros n Hn e. unfold e, present. rewrite <- Z.lor_assoc. split_and!; [by apply frame_addr_entry| |].
    - rewrite low_bit_entry, Z.lor_spec by lia. by rewrite Hpr.
    - destruct Hn as [-> | ->]; cbn [goes_on is_leaf]; unfold pat;
        rewrite (low_bit_entry p _ 7), (Z.lor_spec _ PAGE_HUGE_PD 7) by lia; apply andb_false_iff; right;
        by rewrite orb_true_r. }
  destruct (size_level flags) as [|[|[|n]]]; [|apply Hhuge; lia|apply Hhuge; lia|lia].
  split_and!; [by apply frame_addr_entry, pte_flags_plain| |done]. unfold present. by rewrite low_bit_entry by lia.
Qed.

(** No huge page on the way to [v]. *)
Definition no_huge st (root v : Z) : Prop :=
  ∀ k a e, (k = 1 ∨ k = 2)%nat → reads (phys_mem st) root v k a e → present e = true → pat e = false.
Lemma extends_no_huge root st st' u : extends root st st' → no_huge st root u → no_huge st' root u.
Proof.
  intros Hex Hno k a e Hk Hrd Hp. destruct (pat e) eqn:Hpat; [|done]. rewrite <- Hpat. apply (Hno k a); [done| |done].
  apply (ex_leaf _ _ _ Hex); [done..|]. by destruct Hk as [-> | ->].
Qed.

(** Writing a frame that is no table changes no walk. *)
Lemma data_write st root f m' : page_inv st root → (∀ u j a, tabs 3 (phys_mem st) root u !! j = Some a → a ≠ 4096 * f) →
  (∀ w, w < 4096 * f ∨ 4096 * f + 4096 ≤ w → m' !! w = phys_mem st !! w) → dom m' = dom (phys_mem st) →
  page_inv (with_mem m' st) root ∧ (∀ u, mmu (with_mem m' st) root u = mmu st root u) ∧
  (∀ u, tabs 3 m' root u = tabs 3 (phys_mem st) root u) ∧
  (∀ w, private (phys_mem st) root w → private m' root w) ∧ (∀ w, no_huge st root w → no_huge (with_mem m' st) root w).
Proof.
  intros Hs Hnt Ho Hd.
  assert (∀ u j a, tabs 3 (phys_mem st) root u !! j = Some a → m' !! (a + 8 * idx (3 - j) u) = phys_mem st !! (a + 8 * idx (3 - j) u)) as Hag.
  { intros u j a Ha. apply Ho. destruct (pi_tab _ _ Hs u j a Ha) as (g & -> & _). pose proof (Hnt u j _ Ha).
    pose proof (idx_range (3 - j) u). lia. }
  assert (∀ u, mmu_walk 3 m' root u = mmu_walk 3 (phys_mem st) root u ∧ tabs 3 m' root u = tabs 3 (phys_mem st) root u) as Hw
    by (intros u; apply walk_agree; apply Hag).
  assert (∀ u j a e, reads m' root u j a e → reads (phys_mem st) root u j a e) as Hr.
  { intros u j a e [Ha He]. rewrite (proj2 (Hw u)) in Ha. split; [done|]. by rewrite <- Hag. }
  split_and!.
  - split; cbn [phys_mem frames with_mem]; try apply Hs.
    + intros w Hw1 Hw8. rewrite <- elem_of_dom, Hd, elem_of_dom. by apply (pi_mem _ _ Hs).
    + intros u j a. rewrite (proj2 (Hw u)). apply Hs.
    + intros u j a e Hre. apply (pi_absent _ _ Hs u j a). by apply Hr.
  - intros u. apply Hw.
  - intros u. apply Hw.
  - intros w Hp u j k a. rewrite !(λ x, proj2 (Hw x)). apply Hp.
  - intros w Hn k a e Hk Hre. apply (Hn k a e Hk). by apply Hr.
Qed.

(** What [page_map_page] does with the walk for [v]. *)
Definition map_outcome (root v p flags : Z) (alloc : bool) (r : page_result) st st' : Prop :=
  let n := size_level flags in
  page_inv st' root ∧ (∀ w, private (phys_mem st) root w → private (phys_mem st') root w) ∧
  (n = 0%nat → ∀ w, no_huge st root w → no_huge st' root w) ∧ grown root st st' ∧
  match r with
  | PAGE_OK =>
      mmu st root v = None ∧ v / PAGE_SIZE ∉ tlb st' ∧
      (∀ u, block n u = block n v → mmu st' root u = Some (p + u mod block_size n, map_entry p flags)) ∧
      (∀ u, block n u ≠ block n v → mmu st' root u = mmu st root u)
  | _ => (∀ u, mmu st' root u = mmu st root u) ∧
      match r with
      | PAGE_ERR_ALREADY_MAPPED => n = 0%nat → mmu st root v ≠ None
      | PAGE_ERR_INVALID => n = 0%nat ∧ ∃ e, mmu st root v = leaf_result 1 e v ∧ present e = true ∧ pat e = true
      | PAGE_ERR_NOT_PRESENT => alloc = false ∧ mmu st root v = None
      | PAGE_ERR_OOM => alloc = true ∧ mmu st root v = None ∧
          ∀ f, 0 ≤ f < total_frames (frames st') → allocated (frames st') f = true
      | _ => False
      end
  end.

(** The last step, once the table that takes the entry has been reached. *)
Lemma map_leaf_spec st st1 root v p flags alloc t : let n := size_level flags in
  0 ≤ p < 2 ^ 52 → p mod 4096 = 0 → page_inv st1 root → extends root st st1 → private (phys_mem st) root v →
  tabs 3 (phys_mem st1) root v !! (3 - n)%nat = Some t →
  ∃ r st', (e ← ld st1 (entry_at t (idx n v));
            if present e then Ret (PAGE_ERR_ALREADY_MAPPED, st1) else
            st ← sto (entry_at t (idx n v)) (map_entry p flags) st1;
            Ret (PAGE_OK, page_invalidate_tlb v st)) = Ret (r, st') ∧ map_outcome root v p flags alloc r st st'.
Proof.
  intros n Hp Ha Hs1 Hex Hpriv Ht. pose proof (size_level_le flags) as Hn. fold n in Hn.
  destruct (pi_ld st1 root v _ t (idx n v) Hs1 Ht (idx_range _ _)) as (e & He & ->). rewrite outcome_bind_ret.
  assert (3 - (3 - n) = n)%nat as Hnn by lia.
  assert (reads (phys_mem st1) root v (3 - n) t e) as Hrd by (split; [done|by rewrite Hnn]).
  destruct (walk_split 3 (phys_mem st1) (phys_mem st1) root v (3 - n) t Ht) as (Hw & _); [done|]. rewrite Hnn in Hw.
  destruct (present e) eqn:Hpe.
  - exists PAGE_ERR_ALREADY_MAPPED, st1. split; [done|]. split_and!; [done|apply Hex|intros _ w; by apply extends_no_huge|apply Hex| |].
    + apply Hex.
    + intros Hn0. fold n in Hn0. rewrite <- (ex_mmu _ _ _ Hex). unfold mmu. rewrite Hw. rewrite Hn0 in *.
      destruct (walk_end 0 _ _ _ _ He eq_refl) as [-> _]. unfold leaf_result. by rewrite Hpe.
  - destruct (map_entry_spec p flags Hp Ha) as (HE1 & HE2 & HE3). fold n in HE3.
    destruct (write_leaf st1 root v (3 - n) t e (map_entry p flags)) as (st2 & Hst & Hrm);
      [done|by apply Hex|lia|done|by apply goes_on_absent|by rewrite Hnn|congruence|].
    rewrite Hnn in Hst, Hrm. rewrite Hst, outcome_bind_ret. do 2 eexists. split; [done|].
    split_and!; [destruct (rm_inv _ _ _ _ _ _ Hrm); by split| | | | | | |].
    + intros w Hw'. apply (rm_private _ _ _ _ _ _ Hrm). by apply Hex.
    + intros Hn0 w Hw' k a x Hk [Hr|[-> ->]]%(rm_reads _ _ _ _ _ _ Hrm) Hpx.
      * by eapply (extends_no_huge _ _ _ _ Hex Hw' k a x).
      * fold n in Hn0. lia.
    + etrans; [apply Hex|]. by eapply remapped_grown.
    + rewrite <- (ex_mmu _ _ _ Hex). unfold mmu. rewrite Hw. by apply (walk_absent _ _ _ _ _ He Hpe).
    + cbn [page_invalidate_tlb tlb with_tlb]. set_solver.
    + intros u Hu. cbn [phys_mem page_invalidate_tlb with_tlb]. pose proof (rm_in _ _ _ _ _ _ Hrm u Hu) as Hin.
      unfold leaf_result in Hin. by rewrite HE1, HE2 in Hin.
    + intros u Hu. rewrite <- (ex_mmu _ _ _ Hex). apply (rm_else _ _ _ _ _ _ Hrm u Hu).
Qed.

(** A failed descent ends the call with its result. *)
Lemma descend_failed root v p flags alloc st st1 r : page_inv st1 root → extends root st st1 →
  ((r = PAGE_ERR_NOT_PRESENT ∧ alloc = false ∧ mmu st1 root v = None) ∨
   (r = PAGE_ERR_OOM ∧ alloc = true ∧ (∀ f, 0 ≤ f < total_frames (frames st1) → allocated (frames st1) f = true) ∧
      mmu st1 root v = None)) →
  map_outcome root v p flags alloc r st st1.
Proof.
  intros Hs Hex Hr. split; [done|]. split; [apply Hex|]. split; [intros _ w; by apply extends_no_huge|].
  split; [apply Hex|]. pose proof (ex_mmu _ _ _ Hex) as Hm.
  destruct Hr as [(-> & -> & Hn)|(-> & -> & Hfull & Hn)]; rewrite Hm in Hn; auto.
Qed.

(** One level of the descent of [page_map_page] as part of a call. *)
Lemma descend_step st st1 root v p flags alloc k t (cont : Z → page_state → outcome (page_result * page_state))
    (n : nat) : n = (3 - k)%nat →
  page_inv st1 root → extends root st st1 → private (phys_mem st) root v →
  tabs 3 (phys_mem st1) root v !! k = Some t → (k < 3)%nat →
  (∀ e, reads (phys_mem st1) root v k t e → present e = true → is_leaf n e = false) →
  (∀ t' st2, page_inv st2 root → extends root st st2 → tabs 3 (phys_mem st2) root v !! S k = Some t' →
     ∃ r st', cont t' st2 = Ret (r, st') ∧ map_outcome root v p flags alloc r st st') →
  ∃ r st', (rts ← descend t (idx n v) alloc st1;
            let '(r, t', st) := rts : page_result * Z * page_state in
            if negb (bool_decide (r = PAGE_OK)) then Ret (r, st) else cont t' st) = Ret (r, st') ∧
    map_outcome root v p flags alloc r st st'.
Proof.
  intros -> Hs1 Hex Hpriv Ht Hk Hnl Hcont.
  destruct (descend_spec st1 root v k t alloc Hs1 (ex_private _ _ _ Hex _ Hpriv) Ht Hk Hnl)
    as (r & t' & st2 & -> & Hs2 & Hex2 & Hcases). rewrite outcome_bind_ret.
  destruct Hcases as [(-> & Ht')|Hfail].
  - rewrite bool_decide_true by done. apply Hcont; [done|by etrans|done].
  - rewrite bool_decide_false by naive_solver. cbn [negb]. exists r, st2. split; [done|].
    apply descend_failed; [done|by etrans|].
    destruct Hfail as [(-> & -> & -> & ?)|(-> & -> & ? & -> & ?)]; [left|right]; done.
Qed.

Lemma align_mask flags x : (if flag_set flags VMAP_FLAG_HUGE_1GB then PAGE_SIZE_1GB - 1
    else if flag_set flags VMAP_FLAG_HUGE_2MB then PAGE_SIZE_2MB - 1 else PAGE_SIZE - 1) = block_size (size_level flags) - 1 ∧
  Z.land x (block_size (size_level flags) - 1) = x mod block_size (size_level flags).
Proof.
  split; [|apply mask_land; lia]. unfold size_level. by destruct (flag_set flags VMAP_FLAG_HUGE_1GB), (flag_set flags VMAP_FLAG_HUGE_2MB).
Qed.
Lemma block_aligned n x : x mod block_size n = 0 → x mod 4096 = 0.
Proof.
  intros Hx. unfold block_size in Hx. rewrite Z.pow_add_r in Hx by lia. change (2 ^ 12) with 4096 in Hx.
  rewrite Z.rem_mul_r in Hx by lia. pose proof (Z.mod_pos_bound x 4096).
  pose proof (Z.mod_pos_bound (x / 4096) (2 ^ (9 * Z.of_nat n))). lia.
Qed.

(** The whole of [page_map_page]. *)
Lemma page_map_page_spec st root v p flags alloc :
  page_inv st root → private (phys_mem st) root v → 0 ≤ p < 2 ^ 52 →
  (∀ a e, size_level flags ≠ 2%nat → reads (phys_mem st) root v 1 a e → present e = true → pat e = false) →
  ∃ r st', page_map_page root v p flags alloc st = Ret (r, st') ∧
    if flag_set flags VMAP_FLAG_HUGE_2MB && flag_set flags VMAP_FLAG_HUGE_1GB then r = PAGE_ERR_INVALID ∧ st' = st
    else if decide (v mod block_size (size_level flags) = 0 ∧ p mod block_size (size_level flags) = 0)
    then map_outcome root v p flags alloc r st st'
    else r = PAGE_ERR_ALIGNMENT ∧ st' = st.
Proof.
  intros Hs Hpriv Hp Hno. destruct (pi_started _ _ Hs) as [Hi Hd]. unfold page_map_page. rewrite Hi, Hd.
  cbn [ccos_assert]. rewrite !outcome_bind_ret.
  destruct (flag_set flags VMAP_FLAG_HUGE_2MB && flag_set flags VMAP_FLAG_HUGE_1GB) eqn:Hboth; [eauto|].
  destruct (align_mask flags v) as [-> ->]. destruct (align_mask flags p) as [_ ->].
  destruct (Z.eqb_spec (v mod block_size (size_level flags)) 0) as [Hav|Hav]; cbn [negb].
  2: { exists PAGE_ERR_ALIGNMENT, st. rewrite decide_False by tauto. done. }
  destruct (Z.eqb_spec (p mod block_size (size_level flags)) 0) as [Hap|Hap]; cbn [negb].
  2: { exists PAGE_ERR_ALIGNMENT, st. rewrite decide_False by tauto. done. }
  destruct (decide (v mod block_size (size_level flags) = 0 ∧ p mod block_size (size_level flags) = 0)) as [_|Hn]; [|by destruct Hn].
  pose proof (block_aligned _ _ Hap) as Ha.
  rewrite PML4_INDEX_idx, PDPT_INDEX_idx, PD_INDEX_idx, PT_INDEX_idx.
  eapply (descend_step st st root v p flags alloc 0 root); [done|done|reflexivity|done|done|lia|done|].
  intros pdpt st1 Hs1 Hex1 Ht1. destruct (flag_set flags VMAP_FLAG_HUGE_1GB) eqn:H1.
  { pose proof (map_leaf_spec st st1 root v p flags alloc pdpt) as Hleaf. unfold map_entry, size_level in Hleaf.
    rewrite H1 in Hleaf. by apply Hleaf. }
  assert (size_level flags ≠ 2%nat) as Hne2 by (unfold size_level; rewrite H1; destruct (flag_set flags VMAP_FLAG_HUGE_2MB); lia).
  eapply (descend_step st st1 root v p flags alloc 1 pdpt); [done..|lia| |].
  { intros e Hrd Hpe. cbn [is_leaf]. destruct (pat e) eqn:Hpat; [|done].
    rewrite <- Hpat. apply (Hno pdpt e Hne2); [|done]. by apply (ex_leaf _ _ _ Hex1). }
  intros pd st2 Hs2 Hex2 Ht2. destruct (flag_set flags VMAP_FLAG_HUGE_2MB) eqn:H2.
  { pose proof (map_leaf_spec st st2 root v p flags alloc pd) as Hleaf. unfold map_entry, size_level in Hleaf.
    rewrite H1, H2 in Hleaf. by apply Hleaf. }
  assert (size_level flags = 0%nat) as Hn0 by (unfold size_level; by rewrite H1, H2).
  destruct (pi_ld st2 root v _ pd (idx 1 v) Hs2 Ht2 (idx_range _ _)) as (e & He & Hld). rewrite Hld, outcome_bind_ret.
  destruct (present e && pat e) eqn:Hhuge.
  { apply andb_true_iff in Hhuge as [Hpe Hpat]. exists PAGE_ERR_INVALID, st2. split; [done|].
    split; [done|]. split; [apply Hex2|]. split; [intros _ w; by apply extends_no_huge|]. split; [apply Hex2|].
    split; [apply Hex2|].
    rewrite Hn0. split; [done|]. exists e. split_and!; [|done..].
    rewrite <- (ex_mmu _ _ _ Hex2). unfold mmu.
    destruct (walk_split 3 _ (phys_mem st2) root v 2 pd Ht2) as (-> & _); [done|].
    apply (walk_end 1); [done|]. cbn [goes_on is_leaf]. by rewrite Hpe, Hpat. }
  eapply (descend_step st st2 root v p flags alloc 2 pd); [done..|lia| |].
  { intros e' [_ He'] Hpe'. assert (e' = e) as -> by (cbn in He'; congruence). rewrite Hpe' in Hhuge. exact Hhuge. }
  intros pt st3 Hs3 Hex3 Ht3. pose proof (map_leaf_spec st st3 root v p flags alloc pt) as Hleaf.
  unfold map_entry in Hleaf. rewrite Hn0 in Hleaf. by apply Hleaf.
Qed.

(** ** Reading the tables *)
Lemma step_down st root v k t : page_inv st root → tabs 3 (phys_mem st) root v !! k = Some t → (k ≤ 3)%nat →
  ∃ e, ld st (entry_at t (idx (3 - k) v)) = Ret e ∧ reads (phys_mem st) root v k t e ∧
    (goes_on (3 - k) e = true → tabs 3 (phys_mem st) root v !! S k = Some (frame_addr e)) ∧
    (goes_on (3 - k) e = false → mmu st root v = leaf_result (3 - k) e v).
Proof.
  intros Hs Ht Hk. destruct (pi_ld st root v k t _ Hs Ht (idx_range (3 - k) v)) as (e & He & Hld).
  destruct (walk_split 3 (phys_mem st) (phys_mem st) root v k t Ht) as (Hw1 & Hw2 & _); [done|].
  exists e. split_and!; [done|done| |].
  - intros Hg. destruct (3 - k)%nat as [|n] eqn:Hn; [done|].
    apply andb_true_iff in Hg as [Hp Hl%negb_true_iff]. destruct (walk_table n _ _ _ _ He Hp Hl) as [_ Htabs].
    rewrite Hw2, Htabs, lookup_app_r by (rewrite length_take; lia).
    rewrite length_take_le by (apply lookup_lt_Some in Ht; lia).
    replace (S k - k)%nat with 1%nat by lia. by destruct n.
  - intros Hg. unfold mmu. rewrite Hw1. by apply (walk_end _ _ _ _ _ He).
Qed.

Lemma no_huge_goes_on st root v k t e : no_huge st root v → (k < 3)%nat → reads (phys_mem st) root v k t e →
  goes_on (3 - k) e = present e.
Proof.
  intros Hno Hk Hrd. specialize (Hno k t e). destruct k as [|[|[|k]]]; [| | |lia]; cbn [Nat.sub goes_on is_leaf].
  - by rewrite andb_true_r.
  - destruct (present e); [|done]. by rewrite Hno by auto.
  - destruct (present e); [|done]. by rewrite Hno by auto.
Qed.

(** One level of the reading descent without huge pages. *)
Lemma read_step {A} (Q : outcome A → Prop) st root v k n t stop (cont : Z → outcome A) : n = (3 - k)%nat →
  page_inv st root → no_huge st root v → tabs 3 (phys_mem st) root v !! k = Some t → (k < 3)%nat →
  (mmu st root v = None → Q stop) →
  (∀ e, tabs 3 (phys_mem st) root v !! S k = Some (frame_addr e) → ((k = 1 ∨ k = 2)%nat → pat e = false) → Q (cont e)) →
  Q (e ← ld st (entry_at t (idx n v)); if negb (present e) then stop else cont e).
Proof.
  intros -> Hs Hno Ht Hk Hstop Hcont. destruct (step_down st root v k t Hs Ht) as (e & -> & Hrd & Hon & Hend); [lia|].
  rewrite outcome_bind_ret. pose proof (no_huge_goes_on _ _ _ _ _ _ Hno Hk Hrd) as Hg.
  destruct (present e) eqn:Hp; cbn [negb]; [apply Hcont; [by apply Hon|intros Hk'; by eapply Hno]|].
  apply Hstop. rewrite Hend by done. unfold leaf_result. by rewrite Hp.
Qed.

Definition unmap_outcome (root v : Z) (r : page_result) st st' : Prop :=
  match mmu st root v with
  | None => r = PAGE_ERR_NOT_MAPPED ∧ st' = st
  | Some _ => r = PAGE_OK ∧ v / PAGE_SIZE ∉ tlb st' ∧ frames st' = frames st ∧
      (∀ u, block 0 u = block 0 v → mmu st' root u = None) ∧
      (∀ u, block 0 u ≠ block 0 v → mmu st' root u = mmu st root u) ∧
      (∀ u, no_huge st root u → no_huge st' root u) ∧
      (∀ u, tabs 3 (phys_mem st') root u = tabs 3 (phys_mem st) root u)
  end.

Lemma page_unmap_page_spec st root v : page_inv st root → private (phys_mem st) root v → no_huge st root v →
  ∃ r st', page_unmap_page root v st = Ret (r, st') ∧ page_inv st' root ∧
    (∀ w, private (phys_mem st) root w → private (phys_mem st') root w) ∧
    if decide (v mod 4096 = 0) then unmap_outcome root v r st st' else r = PAGE_ERR_ALIGNMENT ∧ st' = st.
Proof.
  intros Hs Hpriv Hno. destruct (pi_started _ _ Hs) as [Hi Hd]. unfold page_unmap_page. rewrite Hi, Hd.
  cbn [ccos_assert]. rewrite !outcome_bind_ret. change (PAGE_SIZE - 1) with (2 ^ 12 - 1). rewrite mask_land by lia.
  change (2 ^ 12) with 4096. destruct (Z.eqb_spec (v mod 4096) 0) as [Hv|Hv]; cbn [negb].
  2: { exists PAGE_ERR_ALIGNMENT, st. rewrite decide_False by done. done. }
  rewrite PML4_INDEX_idx, PDPT_INDEX_idx, PD_INDEX_idx, PT_INDEX_idx.
  destruct (decide (v mod 4096 = 0)) as [_|]; [|done].
  set (Q := λ o : outcome (page_result * page_state), ∃ r st', o = Ret (r, st') ∧ page_inv st' root ∧
    (∀ w, private (phys_mem st) root w → private (phys_mem st') root w) ∧ unmap_outcome root v r st st').
  assert (mmu st root v = None → Q (Ret (PAGE_ERR_NOT_MAPPED, st))) as Hmiss.
  { intros Hm. exists PAGE_ERR_NOT_MAPPED, st. unfold unmap_outcome. by rewrite Hm. }
  apply (read_step Q st root v 0); [done..|lia|done|intros e3 Ht1 _].
  apply (read_step Q st root v 1); [done..|lia|done|intros e2 Ht2 _].
  apply (read_step Q st root v 2); [done..|lia|done|intros e1 Ht3 _].
  destruct (step_down st root v 3 _ Hs Ht3) as (e & Hld & Hrd & _ & Hend); [lia|]. cbn [Nat.sub] in Hld, Hend.
  rewrite Hld, outcome_bind_ret. specialize (Hend eq_refl). unfold leaf_result in Hend.
  destruct (present e) eqn:Hp; cbn [negb]; [|by apply Hmiss].
  destruct (write_leaf st root v 3 _ e 0 Hs Hpriv ltac:(lia) Hrd eq_refl eq_refl ltac:(done)) as (st1 & Hst & Hrm).
  cbn [Nat.sub] in Hst, Hrm. rewrite Hst, outcome_bind_ret. do 2 eexists. split; [done|].
  split; [destruct (rm_inv _ _ _ _ _ _ Hrm); by split|]. split; [apply Hrm|]. unfold unmap_outcome. rewrite Hend.
  split; [done|]. split; [cbn [tlb page_invalidate_tlb with_tlb]; set_solver|]. split; [apply Hrm|]. split; [|split; [|split; [|apply Hrm]]].
  - intros u Hu. apply (rm_in _ _ _ _ _ _ Hrm u Hu).
  - intros u Hu. apply (rm_else _ _ _ _ _ _ Hrm u Hu).
  - intros u Hu k a x Hk [Hr|[-> ->]]%(rm_reads _ _ _ _ _ _ Hrm) Hpx; [by eapply Hu|done].
Qed.

(** [page_query] and [page_virt_to_phys] against the processor. *)
Definition query_outcome (x : option (Z * Z)) : page_result * page_query_result :=
  match x with None => (PAGE_ERR_NOT_PRESENT, no_query) | Some (_, e) => (PAGE_OK, query_of e false) end.
Lemma page_query_spec st root v : page_inv st root → no_huge st root v →
  page_query root v st = Ret (query_outcome (mmu st root v)) ∧
  ∀ pa e, mmu st root v = Some (pa, e) → pa = frame_addr e + v mod 4096.
Proof.
  intros Hs Hno. destruct (pi_started _ _ Hs) as [Hi Hd]. unfold page_query. rewrite Hi, Hd.
  cbn [ccos_assert]. rewrite !outcome_bind_ret, PML4_INDEX_idx, PDPT_INDEX_idx, PD_INDEX_idx, PT_INDEX_idx.
  set (Q := λ o : outcome (page_result * page_query_result), o = Ret (query_outcome (mmu st root v)) ∧
    ∀ pa e, mmu st root v = Some (pa, e) → pa = frame_addr e + v mod 4096).
  assert (mmu st root v = None → Q (Ret (PAGE_ERR_NOT_PRESENT, no_query))) as Hmiss.
  { intros Hm. unfold Q. by rewrite Hm. }
  apply (read_step Q st root v 0); [done..|lia|done|intros e3 Ht1 _].
  apply (read_step Q st root v 1); [done..|lia|done|intros e2 Ht2 Hp2]. rewrite Hp2 by auto.
  apply (read_step Q st root v 2); [done..|lia|done|intros e1 Ht3 Hp1]. rewrite Hp1 by auto.
  destruct (step_down st root v 3 _ Hs Ht3) as (e & Hld & _ & _ & Hend); [lia|]. cbn [Nat.sub] in Hld, Hend.
  rewrite Hld, outcome_bind_ret. specialize (Hend eq_refl). unfold leaf_result in Hend.
  destruct (present e); cbn [negb]; [|by apply Hmiss]. unfold Q. rewrite Hend. split; [done|]. by intros pa e' [= <- <-].
Qed.

Lemma page_offset e v : Z.lor (frame_addr e) (Z.land v (PAGE_SIZE - 1)) = frame_addr e + v mod 4096.
Proof.
  change (PAGE_SIZE - 1) with (2 ^ 12 - 1). rewrite mask_land by lia. change (2 ^ 12) with 4096.
  symmetry. apply Z.add_nocarry_lor. apply Z.bits_inj'. intros i Hi. rewrite Z.land_spec, Z.bits_0, frame_addr_bits by done.
  change 4096 with (2 ^ 12). destruct (Z.leb_spec 12 i); [|done]. rewrite Z.mod_pow2_bits_high by lia. apply andb_false_r.
Qed.
Lemma page_virt_to_phys_spec st root v : page_inv st root → no_huge st root v →
  page_virt_to_phys root v st =
    Ret match mmu st root v with Some (pa, _) => (PAGE_OK, Some pa) | None => (PAGE_ERR_NOT_PRESENT, None) end.
Proof.
  intros Hs Hno. unfold page_virt_to_phys. destruct (page_query_spec st root v Hs Hno) as [-> Hpa]. rewrite outcome_bind_ret.
  destruct (mmu st root v) as [[pa e]|]; cbn [query_outcome]; [|done]. rewrite bool_decide_true by done.
  cbn [query_of q_present q_phys_addr andb]. rewrite page_offset. by rewrite (Hpa pa e).
Qed.

(** ** Ranges *)
Lemma mmu_block0 st root u v : block 0 u = block 0 v → mmu st root u = None ↔ mmu st root v = None.
Proof.
  intros Hb. pose proof (proj1 (block_idx 0 u v ltac:(lia)) Hb) as Hi. unfold mmu.
  assert (∀ n t, (n ≤ 3)%nat → mmu_walk n (phys_mem st) t u = None ↔ mmu_walk n (phys_mem st) t v = None) as Hw.
  { intros n. induction n as [|n IH]; intros t Hn; cbn [mmu_walk];
      [rewrite (Hi 3%nat ltac:(lia) : idx 0 u = idx 0 v)|
       replace (idx (S n) u) with (idx (S n) v) by
         (specialize (Hi (3 - S n)%nat ltac:(lia)); by replace (3 - (3 - S n))%nat with (S n) in Hi by lia)];
      destruct (phys_mem st !! _) as [e|]; cbn [mbind option_bind]; try done;
      destruct (present e); cbn [negb]; try done.
    destruct (is_leaf (S n) e); [done|]. apply IH. lia. }
  apply Hw. lia.
Qed.

Section range.
Context (root vbase pbase flags count : Z).
Context (Hfl : flag_set flags VMAP_FLAG_HUGE_2MB = false ∧ flag_set flags VMAP_FLAG_HUGE_1GB = false)
  (Hv : vbase mod 4096 = 0) (Hp : pbase mod 4096 = 0) (Hv0 : 0 ≤ vbase) (Hp0 : 0 ≤ pbase)
  (Hvlt : vbase + 4096 * count ≤ 2 ^ 64) (Hplt : pbase + 4096 * count ≤ 2 ^ 52) (Hcount : 0 ≤ count ≤ 2 ^ 36).

Definition vpage (i : Z) : Z := vbase + 4096 * i.
Definition ppage (i : Z) : Z := pbase + 4096 * i.

Lemma vpage_block i j : 0 ≤ i < count → 0 ≤ j < count → block 0 (vpage i) = block 0 (vpage j) → i = j.
Proof using All.
  intros Hi Hj. unfold block, vpage, block_size. change (2 ^ (12 + 9 * Z.of_nat 0)) with 4096.
  change (2 ^ (36 - 9 * Z.of_nat 0)) with (2 ^ 36). rewrite !(Z.mul_comm 4096), !Z.div_add by lia.
  set (q := vbase / 4096). intros He. assert (0 ≤ q) by (apply Z.div_pos; lia).
  pose proof (Z.div_mod (q + i) (2 ^ 36)). pose proof (Z.div_mod (q + j) (2 ^ 36)). nia.
Qed.
Lemma level0 : size_level flags = 0%nat.
Proof using All. unfold size_level. destruct Hfl as [-> ->]. done. Qed.

(** Walks to the pages of the range are private and meet no huge page. *)
Definition range_ok st : Prop :=
  page_inv st root ∧ ∀ i, 0 ≤ i < count → private (phys_mem st) root (vpage i) ∧ no_huge st root (vpage i).

Definition in_first (i u : Z) : Prop := ∃ j, 0 ≤ j < i ∧ block 0 u = block 0 (vpage j).
(** The first [i] pages of the range are mapped on top of [st0]. *)
Definition mapped_first st0 i st : Prop :=
  (∀ j u, 0 ≤ j < i → block 0 u = block 0 (vpage j) →
     mmu st root u = Some (ppage j + u mod 4096, map_entry (ppage j) flags) ∧ mmu st0 root u = None) ∧
  (∀ u, ¬ in_first i u → mmu st root u = mmu st0 root u).
Definition unmapped_first st0 i st : Prop :=
  (∀ u, in_first i u → mmu st root u = None) ∧ (∀ u, ¬ in_first i u → mmu st root u = mmu st0 root u).

Lemma unmap_range_spec st0 i : range_ok st0 → 0 ≤ i ≤ count →
  ∃ st', page_unmap_range root vbase i st0 = Ret (PAGE_OK, st') ∧ range_ok st' ∧ unmapped_first st0 i st'.
Proof using All.
  intros Hok Hi. unfold page_unmap_range. pose proof Hok as [Hs _]. rewrite (proj1 (pi_started _ _ Hs)).
  cbn [ccos_assert]. rewrite outcome_bind_ret.
  destruct (for_range_ind (λ k st, range_ok st ∧ unmapped_first st0 k st) 0 i
    (λ k st, rs ← page_unmap_page root (vbase ⊞ (k ⊠ PAGE_SIZE)) st; Ret (snd (rs : page_result * page_state))) st0)
    as (st' & -> & Hok' & Hun).
  - split; [done|]. split; [intros u (j & Hj & _); lia|done].
  - intros k st Hk ([Hs1 Hpn] & Hin & Hout). rewrite (u64_small (k * PAGE_SIZE)), u64_small by (unfold PAGE_SIZE; lia).
    replace (vbase + k * PAGE_SIZE) with (vpage k) by (unfold vpage, PAGE_SIZE; lia).
    destruct (Hpn k ltac:(lia)) as [Hpv Hnh].
    destruct (page_unmap_page_spec st root (vpage k) Hs1 Hpv Hnh) as (r & st1 & -> & Hs2 & Hpv2 & Hres).
    rewrite outcome_bind_ret. exists st1. split; [done|].
    assert (vpage k mod 4096 = 0) as Hal by (unfold vpage; rewrite Z.add_comm, Z.mul_comm, Z.add_comm, Z.mod_add by lia; done).
    rewrite decide_True in Hres by done. unfold unmap_outcome in Hres.
    assert (∀ u, in_first (k + 1) u ↔ in_first k u ∨ block 0 u = block 0 (vpage k)) as Hfirst.
    { intros u. split.
      - intros (j & Hj & Hb). destruct (decide (j = k)) as [->|]; [by right|left; exists j; split; [lia|done]].
      - intros [(j & Hj & Hb)|Hb]; [exists j|exists k]; split; try done; lia. }
    destruct (mmu st root (vpage k)) eqn:Hm.
    + destruct Hres as (_ & _ & _ & Hz & Ho & Hnh2 & _). split; [split; [done|]|].
      { intros j Hj. destruct (Hpn j Hj). auto. }
      split; intros u; rewrite Hfirst.
      * intros [Hu|Hu]; [|by apply Hz]. destruct (decide (block 0 u = block 0 (vpage k))); [by apply Hz|].
        rewrite Ho by done. by apply Hin.
      * intros Hu. rewrite Ho by tauto. apply Hout. tauto.
    + destruct Hres as [_ ->]. split; [done|]. split; intros u; rewrite Hfirst.
      * intros [Hu|Hu]; [by apply Hin|]. by apply (mmu_block0 st root u (vpage k)).
      * intros Hu. apply Hout. tauto.
  - rewrite Z.max_r in Hun by lia. by exists st'.
Qed.

Lemma undo_range st0 i st st' : mapped_first st0 i st → unmapped_first st i st' → ∀ u, mmu st' root u = mmu st0 root u.
Proof using All.
  intros [Hin Hout] [Hin' Hout'] u.
  assert (in_first i u ∨ ¬ in_first i u) as [(j & Hj & Hb)|Hu].
  { unfold in_first. destruct (decide (Exists (λ j, block 0 u = block 0 (vpage j)) (seqZ 0 i))) as [Hd|Hd].
    - left. apply Exists_exists in Hd as (j & Hj%elem_of_seqZ & Hb). exists j. split; [lia|done].
    - right. intros (j & Hj & Hb). apply Hd, Exists_exists. exists j. split; [apply elem_of_seqZ; lia|done]. }
  - rewrite Hin' by (by exists j). by destruct (Hin j u Hj Hb) as [_ ->].
  - by rewrite Hout', Hout.
Qed.

(** The next page is added to the first [i]. *)
Lemma mapped_next st0 i st st' : range_ok st → mapped_first st0 i st → 0 ≤ i < count →
  map_outcome root (vpage i) (ppage i) flags true PAGE_OK st st' → mapped_first st0 (i + 1) st'.
Proof using All.
  intros _ [Hin Hout] Hi (_ & _ & _ & _ & Hnone & _ & Hnew & Hold). rewrite level0 in Hnew, Hold.
  assert (¬ in_first i (vpage i)) as Hfresh.
  { intros (j & Hj & Hb). apply vpage_block in Hb; lia. }
  split.
  - intros j u Hj Hb. destruct (decide (j = i)) as [->|Hne].
    + split; [by apply Hnew|]. rewrite Hout in Hnone by done. by apply (mmu_block0 st0 root u (vpage i)).
    + rewrite Hold; [apply Hin; [lia|done]|]. rewrite Hb. intros He. apply vpage_block in He; lia.
  - intros u Hu. rewrite Hold, Hout; [done| |].
    + intros (j & Hj & Hb). apply Hu. exists j. split; [lia|done].
    + intros Hb. apply Hu. exists i. split; [lia|done].
Qed.

Lemma map_outcome_range_ok r v p st st' : range_ok st → map_outcome root v p flags true r st st' → range_ok st'.
Proof using All.
  intros [_ Hpn] (Hs & Hpv & Hnh & _). split; [done|]. intros j Hj. destruct (Hpn j Hj).
  split; [by apply Hpv|apply Hnh; [apply level0|done]].
Qed.

Lemma map_range_loop_spec n i st0 st : Z.of_nat n = count - i → 0 ≤ i → range_ok st → mapped_first st0 i st →
  ∃ r st', map_range_loop n i root vbase pbase flags st = Ret (r, st') ∧ range_ok st' ∧
    (if decide (r = PAGE_OK) then mapped_first st0 count st' else ∀ u, mmu st' root u = mmu st0 root u).
Proof using All.
  revert i st. induction n as [|n IH]; intros i st Hn Hi Hok Hm; cbn [map_range_loop].
  { exists PAGE_OK, st. rewrite decide_True by done. by replace count with i by lia. }
  rewrite !(u64_small (i * PAGE_SIZE)) by (unfold PAGE_SIZE; lia). rewrite !u64_small by (unfold PAGE_SIZE; lia).
  replace (vbase + i * PAGE_SIZE) with (vpage i) by (unfold vpage, PAGE_SIZE; lia).
  replace (pbase + i * PAGE_SIZE) with (ppage i) by (unfold ppage, PAGE_SIZE; lia).
  pose proof Hok as [Hs Hpn]. destruct (Hpn i ltac:(lia)) as [Hpv Hnh].
  destruct (page_map_page_spec st root (vpage i) (ppage i) flags true Hs Hpv) as (r & st1 & -> & Hres).
  { unfold ppage. lia. } { intros a e _. apply Hnh. by left. }
  rewrite outcome_bind_ret. rewrite (proj1 Hfl), level0 in Hres. cbn [andb] in Hres.
  change (block_size 0) with 4096 in Hres. rewrite decide_True in Hres.
  2: { unfold vpage, ppage. split; rewrite Z.mul_comm, Z.mod_add by lia; done. }
  pose proof (map_outcome_range_ok _ _ _ _ _ Hok Hres) as Hok1.
  destruct (decide (r = PAGE_OK)) as [->|Hne].
  - rewrite bool_decide_true by done. cbn [negb]. apply IH; [lia|lia|done|].
    eapply mapped_next; [exact Hok|done|lia|done].
  - rewrite bool_decide_false by done. cbn [negb].
    assert (∀ u, mmu st1 root u = mmu st root u) as Hsame by (destruct Hres as (_ & _ & _ & Hres); destruct r; done || apply Hres).
    destruct (unmap_range_spec st1 i Hok1) as (st2 & -> & Hok2 & Hun); [lia|].
    rewrite outcome_bind_ret. exists r, st2. rewrite decide_False by done. split_and!; [done|done|].
    apply (undo_range st0 i st1); [|done]. destruct Hm as [Hin Hout].
    split; intros; rewrite Hsame; auto.
Qed.

End range.

(** ** The direct map

    What the bootloader leaves: a PML4 in the low 2 MB whose entry 256 is empty,
    a PDPT whose entry 0 leads to the page directory, and a directory whose
    present entries are 2 MB pages in place. *)
Definition huge_at (e p : Z) : Prop := present e = true ∧ pat e = true ∧ frame_addr e = p.
Record boot_tables (m : gmap Z Z) (pml4 : Z) : Prop := {
  bt_pml4 : pml4 mod 4096 = 0 ∧ 0 ≤ pml4 < 0x200000 - 4096 ∧ pml4 ≠ BOOT_PDPT ∧ pml4 ≠ BOOT_PD;
  bt_entry : ∃ e, m !! (pml4 + 8 * 256) = Some e ∧ present e = false;
  bt_pdpt : ∃ e, m !! BOOT_PDPT = Some e ∧ present e = true ∧ pat e = false ∧ frame_addr e = BOOT_PD;
  bt_pd i : 0 ≤ i < 256 → ∃ e, m !! (BOOT_PD + 8 * i) = Some e ∧ (present e = true → huge_at e (i * 0x200000)) }.

Definition pd_entry (i : Z) : Z :=
  Z.lor (Z.lor (Z.lor (Z.land (i * 0x200000) PTE_ADDR_MASK) PAGE_PRESENT) PAGE_WRITE) PAGE_HUGE_PD.
Lemma pd_entry_huge i : 0 ≤ i < 256 → huge_at (pd_entry i) (i * 0x200000).
Proof.
  intros Hi. unfold pd_entry.
  replace (Z.lor (Z.lor (Z.lor (Z.land (i * 0x200000) PTE_ADDR_MASK) PAGE_PRESENT) PAGE_WRITE) PAGE_HUGE_PD)
    with (Z.lor (Z.land (i * 0x200000) PTE_ADDR_MASK) (Z.lor (Z.lor PAGE_PRESENT PAGE_WRITE) PAGE_HUGE_PD))
    by (by rewrite !Z.lor_assoc).
  split_and!; unfold present, pat; rewrite ?low_bit_entry by lia; [done|done|].
  apply frame_addr_entry; [lia| |repeat apply plain_flags_lor; apply plain_flags_pow2; lia].
  replace (i * 0x200000) with (i * 512 * 4096) by lia. apply Z.mod_mul. lia.
Qed.

Lemma expand_pd_spec st pml4 : boot_tables (phys_mem st) pml4 →
  ∃ m', for_range 0 256 expand_pd st = Ret (with_mem m' st) ∧
    (∀ i, 0 ≤ i < 256 → ∃ e, m' !! (BOOT_PD + 8 * i) = Some e ∧ huge_at e (i * 0x200000)) ∧
    (∀ w, w < BOOT_PD ∨ BOOT_PD + 4096 ≤ w → m' !! w = phys_mem st !! w).
Proof.
  intros Hb. destruct (for_range_ind (λ k st', ∃ m', st' = with_mem m' st ∧
      (∀ i, 0 ≤ i < k → ∃ e, m' !! (BOOT_PD + 8 * i) = Some e ∧ huge_at e (i * 0x200000)) ∧
      (∀ i, k ≤ i < 256 → m' !! (BOOT_PD + 8 * i) = phys_mem st !! (BOOT_PD + 8 * i)) ∧
      (∀ w, w < BOOT_PD ∨ BOOT_PD + 4096 ≤ w → m' !! w = phys_mem st !! w)) 0 256 expand_pd st)
    as (st' & Hr & m' & -> & Hdone & _ & Ho).
  - exists (phys_mem st). split_and!; [by destruct st|intros; lia|done|done].
  - intros k st' Hk (m' & -> & Hdone & Htodo & Ho). destruct (bt_pd _ _ Hb k Hk) as (e & He & Hhuge).
    rewrite <- Htodo in He by lia.
    assert (ld_ident (with_mem m' st) (BOOT_PD + 8 * k) = Ret e) as Hld.
    { unfold ld_ident. cbn [phys_mem with_mem]. destruct (Z.ltb_spec (BOOT_PD + 8 * k) 0x200000); [by rewrite He|].
      unfold BOOT_PD in *. lia. }
    unfold expand_pd. rewrite Hld, outcome_bind_ret. destruct (present e) eqn:Hp.
    + eexists. split; [done|]. exists m'. split_and!; [done| |intros; apply Htodo; lia|done].
      intros i Hi. destruct (decide (i = k)) as [->|]; [exists e; auto|apply Hdone; lia].
    + unfold st_ident. rewrite Hld, outcome_bind_ret. eexists. split; [done|]. fold (pd_entry k).
      exists (<[BOOT_PD + 8 * k := pd_entry k]> m'). split_and!; [done|..].
      * intros i Hi. destruct (decide (i = k)) as [->|].
        -- rewrite lookup_insert_eq. exists (pd_entry k). split; [done|]. apply pd_entry_huge. lia.
        -- rewrite lookup_insert_ne by lia. apply Hdone. lia.
      * intros i Hi. rewrite lookup_insert_ne by lia. apply Htodo. lia.
      * intros w Hw. rewrite lookup_insert_ne by lia. by apply Ho.
  - by exists m'.
Qed.

Lemma direct_idx q : 0 ≤ q < 0x20000000 →
  idx 3 (DIRECT_MAP_BASE + q) = 256 ∧ idx 2 (DIRECT_MAP_BASE + q) = 0 ∧
  idx 1 (DIRECT_MAP_BASE + q) = q / 0x200000 ∧ (DIRECT_MAP_BASE + q) mod 2 ^ 21 = q mod 0x200000.
Proof.
  intros Hq. unfold idx, DIRECT_MAP_BASE.
  change (2 ^ (12 + 9 * Z.of_nat 3)) with 0x8000000000. change (2 ^ (12 + 9 * Z.of_nat 2)) with 0x40000000.
  change (2 ^ (12 + 9 * Z.of_nat 1)) with 0x200000. change (2 ^ 21) with 0x200000.
  split_and!; Z.div_mod_to_equations; lia.
Qed.

(** [page_init] on the bootloader's tables. *)
Lemma page_init_spec st cr3 pml4 : s_initialized st = false → Z.land cr3 (~64 0xFFF) = pml4 →
  boot_tables (phys_mem st) pml4 →
  ∃ st', page_init cr3 st = Ret (PAGE_OK, st') ∧ s_initialized st' = true ∧ s_direct_map_established st' = true ∧
    s_kernel_pml4 st' = pml4 ∧ tlb st' = ∅ ∧ frames st' = frames st ∧
    ∀ q, 0 ≤ q < 0x20000000 → ∃ e, mmu st' pml4 (phys_to_virt q) = Some (q, e).
Proof.
  intros Hi Hcr3 Hb. unfold page_init. rewrite Hi, Hcr3. set (st0 := mk_page _ _ _ _ _ _).
  destruct (bt_pml4 _ _ Hb) as (Ha & Hr & Hne1 & Hne2). destruct (bt_entry _ _ Hb) as (e & He & Hp).
  destruct (bt_pdpt _ _ Hb) as (e2 & He2 & Hp2 & Hpat2 & Hf2).
  unfold establish_direct_map. change (s_kernel_pml4 st0) with pml4.
  assert (∀ m', m' !! (pml4 + 8 * 256) = Some e → ld_ident (with_mem m' st0) (pml4 + 8 * 256) = Ret e) as Hld.
  { intros m' Hm'. unfold ld_ident. cbn [phys_mem with_mem]. destruct (Z.ltb_spec (pml4 + 8 * 256) 0x200000); [by rewrite Hm'|lia]. }
  rewrite (Hld (phys_mem st0) He : ld_ident st0 _ = _), outcome_bind_ret, Hp.
  destruct (expand_pd_spec st0 pml4 Hb) as (m1 & -> & Hpd & Ho). rewrite outcome_bind_ret.
  assert (m1 !! (pml4 + 8 * 256) = Some e) as Hm1.
  { rewrite Ho; [done|]. pose proof (Z.div_mod pml4 4096). unfold BOOT_PD in *. lia. }
  unfold st_ident. rewrite (Hld m1 Hm1), outcome_bind_ret, !outcome_bind_ret. rewrite decide_True by done.
  eexists. split; [done|]. cbn [s_initialized s_direct_map_established s_kernel_pml4 tlb frames set_direct with_tlb with_mem].
  split_and!; try done. intros q Hq. unfold mmu, phys_to_virt.
  rewrite u64_small by (unfold DIRECT_MAP_BASE; lia). destruct (direct_idx q Hq) as (H3 & H2 & H1 & Hm).
  cbn [phys_mem set_direct with_tlb with_mem]. set (E := Z.lor _ _). set (m2 := <[_ := E]> m1).
  assert (frame_addr E = BOOT_PDPT ∧ present E = true) as [HE1 HE2] by (by vm_compute).
  destruct (walk_table 2 m2 pml4 (DIRECT_MAP_BASE + q) E) as [-> _]; [rewrite H3; apply lookup_insert_eq|done|done|].
  rewrite HE1. destruct (walk_table 1 m2 BOOT_PDPT (DIRECT_MAP_BASE + q) e2) as [-> _]; [|done|done|].
  { rewrite H2, Z.add_0_r. unfold m2. rewrite lookup_insert_ne by (pose proof (Z.div_mod pml4 4096); unfold BOOT_PDPT in *; lia).
    rewrite Ho by (unfold BOOT_PD, BOOT_PDPT; lia). done. }
  rewrite Hf2. destruct (Hpd (q / 0x200000)) as (e1 & He1 & Hp1 & Hpat1 & Hf1); [split; [apply Z.div_pos; lia|apply Z.div_lt_upper_bound; lia]|].
  destruct (walk_end 1 m2 BOOT_PD (DIRECT_MAP_BASE + q) e1) as [-> _].
  { rewrite H1. unfold m2. rewrite lookup_insert_ne; [done|]. pose proof (Z.div_mod pml4 4096).
    assert (0 ≤ q / 0x200000 < 256) by (split; [apply Z.div_pos; lia|apply Z.div_lt_upper_bound; lia]). unfold BOOT_PD in *. lia. }
  { cbn [goes_on is_leaf]. by rewrite Hp1, Hpat1. }
  exists e1. unfold leaf_result, block_size. rewrite Hp1, Hf1. change (12 + 9 * Z.of_nat 1) with 21. rewrite Hm.
  do 2 f_equal. pose proof (Z.div_mod q 0x200000). lia.
Qed.

End Page.

Import Page.

(** ** The theorems *)


(** C8: [page_unmap_page] of a 4 KB page, with no 2 MB or 1 GB page on the way to the
    address and no shared table: it fails without a change for a misaligned
    or unmapped address; otherwise no byte of the page translates any more, no
    stale translation is cached, and every other translation is unchanged. Inside
    a huge page the function does something else
    ([page_unmap_in_huge_page_clears_data]). *)
Theorem page_unmap_page_correct st root v : page_inv st root → private (phys_mem st) root v → no_huge st root v →
  ∃ r st', page_unmap_page root v st = Ret (r, st') ∧ page_inv st' root ∧
    (∀ w, private (phys_mem st) root w → private (phys_mem st') root w) ∧
    if decide (v mod 4096 = 0) then unmap_outcome root v r st st' else r = PAGE_ERR_ALIGNMENT ∧ st' = st.
Proof. apply page_unmap_page_spec. Qed.

(** C9: [page_map_range] for 4 KB pages (neither huge-page flag given), over aligned
    addresses that do not wrap, with no huge page and no shared table on the way to
    any page of the range, is all or nothing: it either maps every page of the range
    to its frame and leaves all other translations alone, or it reports an error
    and every translation is what it was before, the pages it had mapped being
    unmapped again. *)
Theorem page_map_range_all_or_nothing st root vbase pbase count flags :
  flag_set flags VMAP_FLAG_HUGE_2MB = false ∧ flag_set flags VMAP_FLAG_HUGE_1GB = false →
  vbase mod 4096 = 0 → pbase mod 4096 = 0 → 0 ≤ vbase → 0 ≤ pbase →
  vbase + 4096 * count ≤ 2 ^ 64 → pbase + 4096 * count ≤ 2 ^ 52 → 0 ≤ count ≤ 2 ^ 36 →
  page_inv st root →
  (∀ i, 0 ≤ i < count → private (phys_mem st) root (vbase + 4096 * i) ∧ no_huge st root (vbase + 4096 * i)) →
  ∃ r st', page_map_range root vbase pbase count flags st = Ret (r, st') ∧ page_inv st' root ∧
    if decide (r = PAGE_OK) then
      (∀ i u, 0 ≤ i < count → block 0 u = block 0 (vbase + 4096 * i) →
         mmu st' root u = Some (pbase + 4096 * i + u mod 4096, map_entry (pbase + 4096 * i) flags)) ∧
      (∀ u, (∀ i, 0 ≤ i < count → block 0 u ≠ block 0 (vbase + 4096 * i)) → mmu st' root u = mmu st root u)
    else ∀ u, mmu st' root u = mmu st root u.
Proof.
  intros Hfl Hv Hp Hv0 Hp0 Hvlt Hplt Hc Hs Hok. unfold page_map_range. rewrite (proj1 (pi_started _ _ Hs)).
  cbn [ccos_assert]. rewrite outcome_bind_ret.
  destruct (map_range_loop_spec root vbase pbase flags count Hfl Hv Hp Hv0 Hp0 Hvlt Hplt Hc (Z.to_nat count) 0 st st)
    as (r & st' & -> & (Hs' & _) & Hres); [lia|lia|by split| |].
  { split; [intros; lia|done]. }
  exists r, st'. split; [done|]. split; [done|]. destruct (decide (r = PAGE_OK)); [|done].
  destruct Hres as [Hin Hout]. split.
  - intros i u Hi Hb. by apply Hin.
  - intros u Hu. apply Hout. intros (i & Hi & Hb). by apply (Hu i).
Qed.

(** For addresses that no huge page maps, [page_virt_to_phys] computes the
    translation of the processor, and reports absence exactly when there is none. *)
Theorem page_virt_to_phys_correct st root v : page_inv st root → no_huge st root v →
  page_virt_to_phys root v st =
    Ret match mmu st root v with Some (pa, _) => (PAGE_OK, Some pa) | None => (PAGE_ERR_NOT_PRESENT, None) end.
Proof. apply page_virt_to_phys_spec. Qed.

(** After [page_init] on the tables the bootloader leaves, the processor
    translates [phys_to_virt q] to [q] for each of the first 512 MB. *)
Theorem page_init_direct_map st cr3 pml4 : s_initialized st = false → Z.land cr3 (~64 0xFFF) = pml4 →
  boot_tables (phys_mem st) pml4 →
  ∃ st', page_init cr3 st = Ret (PAGE_OK, st') ∧ s_initialized st' = true ∧ s_direct_map_established st' = true ∧
    s_kernel_pml4 st' = pml4 ∧ tlb st' = ∅ ∧ frames st' = frames st ∧
    ∀ q, 0 ≤ q < 0x20000000 → ∃ e, mmu st' pml4 (phys_to_virt q) = Some (q, e).
Proof. apply page_init_spec. Qed.

(** ** A machine of sixteen frames with an empty PML4 in frame 1 *)
Fixpoint fill_zero (n : nat) (a : Z) : gmap Z Z :=
  match n with O => ∅ | S n' => <[a := 0]> (fill_zero n' (a + 8)) end.
Definition zero_mem (n : Z) : gmap Z Z := fill_zero (Z.to_nat n) 0.
Definition demo_page : page_state :=
  mk_page (zero_mem 8192) (mk_pframe (mk_bitmap [3; 0] 16) 16 0 65536 0 true) 4096 true true ∅.

Lemma fill_zero_lookup n a i : 0 ≤ i < Z.of_nat n → fill_zero n a !! (a + 8 * i) = Some 0.
Proof.
  revert a i. induction n as [|n IH]; intros a i Hi; [lia|]. cbn [fill_zero]. destruct (decide (i = 0)) as [->|Hne].
  - by rewrite Z.mul_0_r, Z.add_0_r, lookup_insert_eq.
  - rewrite lookup_insert_ne by lia. replace (a + 8 * i) with (a + 8 + 8 * (i - 1)) by lia. apply IH. lia.
Qed.
Lemma zero_mem_lookup n i : 0 ≤ i < n → zero_mem n !! (8 * i) = Some 0.
Proof. intros Hi. apply (fill_zero_lookup (Z.to_nat n) 0 i). lia. Qed.
Lemma demo_tabs v : tabs 3 (phys_mem demo_page) 4096 v = [4096].
Proof.
  pose proof (idx_range 3 v). apply (walk_absent 3 _ _ v 0); [|done]. cbn [phys_mem demo_page].
  replace (4096 + 8 * idx 3 v) with (8 * (512 + idx 3 v)) by lia. apply zero_mem_lookup. lia.
Qed.
#[local] Opaque zero_mem.
Lemma demo_unmapped v : mmu demo_page 4096 v = None.
Proof.
  pose proof (idx_range 3 v). refine (proj1 (walk_absent 3 (zero_mem 8192) 4096 v 0 _ eq_refl)).
  replace (4096 + 8 * idx 3 v) with (8 * (512 + idx 3 v)) by lia. apply zero_mem_lookup. lia.
Qed.
Lemma demo_page_inv : page_inv demo_page 4096.
Proof.
  split.
  - apply inv_b_sound. vm_compute. reflexivity.
  - reflexivity.
  - vm_compute. reflexivity.
  - intros w Hw Hw8. change (total_frames (frames demo_page)) with 16 in Hw. cbn [phys_mem demo_page]. pose proof (Z.div_mod w 8).
    replace w with (8 * (w / 8)) by lia. eexists. apply zero_mem_lookup. lia.
  - intros v k t. rewrite demo_tabs. intros [-> <-]%list_lookup_singleton_Some. exists 1.
    split_and!; vm_compute; done.
  - intros v k t e [Ht He] Hk Hp. rewrite demo_tabs in Ht. apply list_lookup_singleton_Some in Ht as [-> <-].
    cbn [phys_mem demo_page] in He. pose proof (idx_range (3 - 0) v).
    replace (4096 + 8 * idx (3 - 0) v) with (8 * (512 + idx (3 - 0) v)) in He by lia.
    rewrite zero_mem_lookup in He by lia. by injection He as <-.
  - done.
Qed.
Lemma demo_private v : private (phys_mem demo_page) 4096 v.
Proof.
  intros u j k a. rewrite !demo_tabs. intros [-> _]%list_lookup_singleton_Some [-> _]%list_lookup_singleton_Some.
  split; [done|lia].
Qed.
Lemma demo_no_huge v : no_huge demo_page 4096 v.
Proof. intros k a e Hk [Ht _]. rewrite demo_tabs in Ht. apply list_lookup_singleton_Some in Ht as [-> _]. lia. Qed.

Lemma page_unmap_page_witness : ∃ r st', page_unmap_page 4096 0x400000 demo_page = Ret (r, st') ∧
  unmap_outcome 4096 0x400000 r demo_page st'.
Proof.
  destruct (page_unmap_page_correct demo_page 4096 0x400000 demo_page_inv (demo_private _) (demo_no_huge _))
    as (r & st' & H1 & _ & _ & H2).
  exists r, st'. split; [exact H1|exact H2].
Defined.
Lemma demo_range i : 0 ≤ i < 3 → private (phys_mem demo_page) 4096 (0x400000 + 4096 * i) ∧
  no_huge demo_page 4096 (0x400000 + 4096 * i).
Proof. intros _. split; [apply demo_private|apply demo_no_huge]. Qed.
Lemma page_map_range_witness : ∃ r st', page_map_range 4096 0x400000 0x5000 3 VMAP_FLAG_WRITE demo_page = Ret (r, st') ∧
  page_inv st' 4096.
Proof.
  destruct (page_map_range_all_or_nothing demo_page 4096 0x400000 0x5000 3 VMAP_FLAG_WRITE (conj eq_refl eq_refl)
    eq_refl eq_refl ltac:(lia) ltac:(lia) ltac:(lia) ltac:(lia) ltac:(lia) demo_page_inv demo_range)
    as (r & st' & H1 & H2 & _).
  exists r, st'. split; [exact H1|exact H2].
Defined.
Lemma page_virt_to_phys_witness : page_virt_to_phys 4096 0x400123 demo_page = Ret (PAGE_ERR_NOT_PRESENT, None).
Proof.
  rewrite (page_virt_to_phys_correct demo_page 4096 0x400123 demo_page_inv (demo_no_huge _)), demo_unmapped. reflexivity.
Defined.

(** The bootloader's tables: PML4 at 0x9000, PDPT and directory behind it. *)
Definition demo_boot : page_state :=
  mk_page (<[0xA000 := 0xB003]> (<[0xB000 := 0x83]> (zero_mem 8192)))
    (mk_pframe (mk_bitmap [3; 0] 16) 16 0 65536 0 false) 0 false false {[ 5 ]}.
Lemma demo_boot_tables : boot_tables (phys_mem demo_boot) 0x9000.
Proof.
  split; unfold BOOT_PDPT, BOOT_PD.
  - done.
  - exists 0. split; [vm_compute; reflexivity|done].
  - eexists. split; [vm_compute; reflexivity|done].
  - intros i Hi. cbn [phys_mem demo_boot]. rewrite lookup_insert_ne by lia. destruct (decide (i = 0)) as [->|Hne].
    + exists 0x83. split; [apply lookup_insert_eq|done].
    + rewrite lookup_insert_ne by lia. exists 0. split; [|done].
      replace (0xB000 + 8 * i) with (8 * (5632 + i)) by lia. apply zero_mem_lookup. lia.
Qed.
Lemma page_init_witness : ∃ st' e, page_init 0x9018 demo_boot = Ret (PAGE_OK, st') ∧
  mmu st' 0x9000 (phys_to_virt 0x12345678) = Some (0x12345678, e).
Proof.
  destruct (page_init_direct_map demo_boot 0x9018 0x9000) as (st' & H1 & _ & _ & _ & _ & _ & H2).
  - reflexivity.
  - vm_compute. reflexivity.
  - exact demo_boot_tables.
  - destruct (H2 0x12345678 ltac:(lia)) as (e & H3). exists st', e. split; [exact H1|exact H3].
Defined.

(** In a 2 MB page [page_virt_to_phys] keeps only the low 12 bits of the offset. *)
Theorem page_virt_to_phys_wrong_in_huge_page :
  (rs ← page_map_page 4096 0x400000 0x200000 VMAP_FLAG_HUGE_2MB true demo_page;
   let st := snd (rs : page_result * page_state) in
   pa ← page_virt_to_phys 4096 0x512345 st; Ret (fst rs, pa, fst <$> mmu st 4096 0x512345)) =
  Ret (PAGE_OK, (PAGE_OK, Some 0x200345), Some 0x312345).
Proof. vm_compute. reflexivity. Qed.

(** [page_unmap_page] inside a 2 MB page takes the page for a table: it succeeds,
    the page stays mapped and a word of its contents is cleared. *)
Theorem page_unmap_in_huge_page_clears_data :
  (rs ← page_map_page 4096 0x400000 0 VMAP_FLAG_HUGE_2MB true demo_page;
   let st := with_mem (<[8 := 0xFF01]> (phys_mem (snd (rs : page_result * page_state)))) (snd rs) in
   us ← page_unmap_page 4096 0x401000 st;
   let st' := snd (us : page_result * page_state) in
   Ret (fst us, fst <$> mmu st' 4096 0x401000, phys_mem st' !! 8)) = Ret (PAGE_OK, Some 0x1000, Some 0).
Proof. vm_compute. reflexivity. Qed.
