(* ===== verification/Vmm.v ===== *)
(** * Virtual memory manager: [kernel/mm/vmm/vmm.c], [vmm.h], [vmm_config.h]

    The state adds to [Page] the table of named regions, the hint of the kernel
    address allocator and the statistics. Frames come from [Pframe], mappings go
    through [Page]. The functions that hold the lock throughout are one step;
    [vmm_map_physical], [vmm_unmap_physical] and [vmm_alloc_pages] release it in
    the middle and are modelled without interference there. The descriptions of
    regions are byte lists. *)
From S2P Require Import Prelude Bits Mem Bitmap E820 Pframe Page.
Import Bitmap Pframe Page.

Module Vmm.

(** ** Layout *)
Definition KERNEL_VIRT_BASE := 0xFFFF800000000000.
Definition KERNEL_TEXT_BASE := 0xFFFFFFFF80000000.
Definition KERNEL_TEXT_SIZE := 2 * 1024 * 1024.
Definition KERNEL_DATA_BASE := KERNEL_TEXT_BASE + KERNEL_TEXT_SIZE.
Definition KERNEL_DATA_SIZE := 2 * 1024 * 1024.
Definition KERNEL_HEAP_BASE := 0xFFFFFFFF81000000.
Definition KERNEL_HEAP_MAX := KERNEL_HEAP_BASE + 128 * 1024 * 1024.
Definition KERNEL_GENERAL_BASE := 0xFFFFFFFF88000000.
Definition KERNEL_GENERAL_MAX := KERNEL_GENERAL_BASE + 128 * 1024 * 1024.
Definition USER_BASE := 0x400000.
Definition USER_END := 0x00007FFFFFFFFFFF.
Definition VMAP_FLAG_NONE := 0.
Definition MAX_REGIONS := 64.

Inductive vmm_result :=
  VMM_OK | VMM_ERR_NOT_INIT | VMM_ERR_OOM | VMM_ERR_INVALID | VMM_ERR_PERM | VMM_ERR_NOT_MAPPED | VMM_ERR_ALREADY_MAPPED.
#[export] Instance vmm_result_eq_dec : EqDecision vmm_result.
Proof. solve_decision. Defined.

(** ** State *)
Record memory_region := mk_region { r_start : Z; r_end : Z; r_phys : Z; r_flags : Z; r_name : list Z }.
Record vmm_stats := mk_vstats { total_pages : Z; mapped_pages : Z; kernel_pages : Z; user_pages : Z; page_tables : Z }.
Record vmm_state := mk_vmm {
  pages : page_state; s_kernel_pml4 : Z; s_stats : vmm_stats; s_regions : list memory_region;
  s_kernel_virt_hint : Z; s_initialized : bool }.
Implicit Types s : vmm_state.

Definition with_pages (p : page_state) s : vmm_state :=
  mk_vmm p (s_kernel_pml4 s) (s_stats s) (s_regions s) (s_kernel_virt_hint s) (s_initialized s).
Definition with_hint (h : Z) s : vmm_state :=
  mk_vmm (pages s) (s_kernel_pml4 s) (s_stats s) (s_regions s) h (s_initialized s).
Definition with_stats (x : vmm_stats) s : vmm_state :=
  mk_vmm (pages s) (s_kernel_pml4 s) x (s_regions s) (s_kernel_virt_hint s) (s_initialized s).
(** [s_stats.mapped_pages += n], [s_stats.kernel_pages += n], [s_stats.total_pages += t] *)
Definition count_kernel (n t : Z) s : vmm_state :=
  let x := s_stats s in
  with_stats (mk_vstats (total_pages x ⊞ t) (mapped_pages x ⊞ n) (kernel_pages x ⊞ n) (user_pages x) (page_tables x)) s.
Definition count_user (n : Z) s : vmm_state :=
  let x := s_stats s in
  with_stats (mk_vstats (total_pages x) (mapped_pages x ⊞ n) (kernel_pages x) (user_pages x ⊞ n) (page_tables x)) s.
Definition count_tables (n : Z) s : vmm_state :=
  let x := s_stats s in
  with_stats (mk_vstats (total_pages x) (mapped_pages x) (kernel_pages x) (user_pages x) (page_tables x ⊞ n)) s.
(** A call of [page.c] or of the frame allocator. *)
Definition on_pages {A} (f : page_state → outcome (A * page_state)) s : outcome (A * vmm_state) :=
  r ← f (pages s); let '(a, p) := r : A * page_state in Ret (a, with_pages p s).
Definition on_frames {A} (f : pframe_state → outcome (A * pframe_state)) s : outcome (A * vmm_state) :=
  r ← f (frames (pages s)); let '(a, x) := r : A * pframe_state in Ret (a, with_pages (with_frames x (pages s)) s).

Definition phys_to_virt_offset (phys : Z) : Z := phys ⊞ KERNEL_VIRT_BASE.
Definition virt_to_phys_offset (virt : Z) : Z := virt ⊟ KERNEL_VIRT_BASE.
Definition vmm_is_kernel_addr (addr : Z) : bool := KERNEL_VIRT_BASE <=? addr.
Definition vmm_is_user_addr (addr : Z) : bool := (USER_BASE <=? addr) && (addr <? USER_END).

Definition vmm_is_canonical (addr : Z) : bool := (Z.shiftr addr 48 =? 0) || (Z.shiftr addr 48 =? 0xFFFF).

(** ** Regions *)
Definition overlaps (start stop : Z) (r : memory_region) : bool := (start <? r_end r) && (r_start r <? stop).
Definition check_region_collision (start stop : Z) s : bool := existsb (overlaps start stop) (s_regions s).

(** The search of [find_free_virt_range]; [n] bounds the positions that are tried. *)
Fixpoint find_free_loop (n : nat) (hint size alignment : Z) s : option Z :=
  match n with
  | O => None
  | S n' =>
      if hint ⊞ size <=? KERNEL_GENERAL_MAX then
        if negb (check_region_collision hint (hint ⊞ size) s) then Some hint
        else find_free_loop n' (hint ⊞ alignment) size alignment s
      else None
  end.
Definition find_free_virt_range (size : Z) s : vmm_result * Z * vmm_state :=
  let alignment := if PAGE_SIZE_2MB <=? size then PAGE_SIZE_2MB else PAGE_SIZE in
  let hint := Z.land (s_kernel_virt_hint s ⊞ alignment ⊟ 1) (~64 (alignment - 1)) in
  match find_free_loop (Z.to_nat ((KERNEL_GENERAL_MAX - hint) / alignment + 1)) hint size alignment s with
  | Some v => (VMM_OK, v, with_hint (v ⊞ size) s)
  | None => (VMM_ERR_OOM, 0, s)
  end.

Definition add_region (start stop phys flags : Z) (name : list Z) s : vmm_state :=
  if MAX_REGIONS <=? Z.of_nat (length (s_regions s)) then s else
  mk_vmm (pages s) (s_kernel_pml4 s) (s_stats s)
    (s_regions s ++ [mk_region start stop phys flags (take 31 name)]) (s_kernel_virt_hint s) (s_initialized s).
Definition find_region (addr : Z) s : option memory_region :=
  head (filter (λ r, (r_start r <=? addr) && (addr <? r_end r) = true) (s_regions s)).

(** ** Initialization *)
Definition name_text := [107; 101; 114; 110; 101; 108; 95; 116; 101; 120; 116].
Definition name_data := [107; 101; 114; 110; 101; 108; 95; 100; 97; 116; 97].
Definition name_heap := [107; 101; 114; 110; 101; 108; 95; 104; 101; 97; 112].
Definition name_temp := [116; 101; 109; 112; 95; 109; 97; 112; 112; 105; 110; 103].
Definition name_pages := [97; 108; 108; 111; 99; 97; 116; 101; 100; 95; 112; 97; 103; 101; 115].
Definition vmm_init s : outcome (vmm_result * vmm_state) :=
  if s_initialized s then Ret (VMM_OK, s) else
  pml4 ← page_get_pml4 (pages s);
  let s := mk_vmm (pages s) pml4 (s_stats s) (s_regions s) (s_kernel_virt_hint s) (s_initialized s) in
  let s := add_region KERNEL_TEXT_BASE (KERNEL_TEXT_BASE + KERNEL_TEXT_SIZE) 0 VMAP_FLAG_NONE name_text s in
  let s := add_region KERNEL_DATA_BASE (KERNEL_DATA_BASE + KERNEL_DATA_SIZE) 0 VMAP_FLAG_WRITE name_data s in
  let s := add_region KERNEL_HEAP_BASE KERNEL_HEAP_MAX 0 VMAP_FLAG_NONE name_heap s in
  Ret (VMM_OK, mk_vmm (pages s) (s_kernel_pml4 s) (s_stats s) (s_regions s) (s_kernel_virt_hint s) true).
Definition vmm_get_kernel_pml4 s : outcome Z := _ ← ccos_assert (s_initialized s); Ret (s_kernel_pml4 s).
Definition vmm_get_stats s : outcome (vmm_result * vmm_stats) := _ ← ccos_assert (s_initialized s); Ret (VMM_OK, s_stats s).

(** ** Single pages *)
Definition vmm_map_physical (phys flags : Z) s : outcome (Z * vmm_state) :=
  _ ← ccos_assert (s_initialized s);
  let '(result, vaddr, s) := find_free_virt_range PAGE_SIZE s in
  if negb (bool_decide (result = VMM_OK)) then Ret (0, s) else
  rs ← on_pages (page_map_page (s_kernel_pml4 s) vaddr phys (Z.lor flags VMAP_FLAG_WRITE) true) s;
  let '(page_result, s) := rs : Page.page_result * vmm_state in
  if negb (bool_decide (page_result = PAGE_OK)) then Ret (0, s) else
  let s := add_region vaddr (vaddr ⊞ PAGE_SIZE) phys flags name_temp s in
  Ret (vaddr, count_kernel 1 0 s).
Definition vmm_unmap_physical (virt : Z) s : outcome (vmm_result * vmm_state) :=
  _ ← ccos_assert (s_initialized s);
  match find_region virt s with
  | None => Ret (VMM_ERR_NOT_MAPPED, s)
  | Some _ =>
      rs ← on_pages (page_unmap_page (s_kernel_pml4 s) virt) s;
      let '(result, s) := rs : Page.page_result * vmm_state in
      if negb (bool_decide (result = PAGE_OK)) then Ret (VMM_ERR_INVALID, s) else
      Ret (VMM_OK, count_kernel (-1) 0 s)
  end.

(** ** Freeing pages *)

(** One page: its frame is freed and it is unmapped. *)
Definition release_page (pml4 vaddr : Z) s : outcome vmm_state :=
  r ← page_virt_to_phys pml4 vaddr (pages s);
  s ← match r : Page.page_result * option Z with
      | (PAGE_OK, Some paddr) => rs ← on_frames (λ f, pframe_free f paddr) s; Ret (snd (rs : pframe_result * vmm_state))
      | _ => Ret s
      end;
  rs ← on_pages (page_unmap_page pml4 vaddr) s;
  Ret (snd (rs : Page.page_result * vmm_state)).
(** One page of [vmm_free_pages]. *)
Definition free_page (virt i : Z) s : outcome vmm_state := release_page (s_kernel_pml4 s) (virt ⊞ (i ⊠ PAGE_SIZE)) s.
Definition vmm_free_pages (virt count : Z) s : outcome (vmm_result * vmm_state) :=
  _ ← ccos_assert (s_initialized s);
  if count =? 0 then Ret (VMM_ERR_INVALID, s) else
  if negb (Z.land virt (PAGE_SIZE - 1) =? 0) then Ret (VMM_ERR_INVALID, s) else
  s ← for_range 0 count (free_page virt) s;
  Ret (VMM_OK, count_kernel (- count) 0 s).

(** ** Allocating pages *)
Definition page_size_of (flags : Z) : Z :=
  if flag_set flags VMAP_FLAG_HUGE_1GB then PAGE_SIZE_1GB else if flag_set flags VMAP_FLAG_HUGE_2MB then PAGE_SIZE_2MB else PAGE_SIZE.

Definition free_some (addr count : Z) s : outcome vmm_state :=
  if 0 <? count then rs ← on_frames (λ f, pframe_free_n f addr count) s; Ret (snd (rs : pframe_result * vmm_state)) else Ret s.
(** The retry loop for huge pages; [None] when no aligned frames were found. *)
Fixpoint alloc_aligned (retries : nat) (page_size : Z) s : outcome (option Z * vmm_state) :=
  let frames_needed := page_size / PAGE_SIZE in
  let alloc_frames := frames_needed ⊠ 2 in
  match retries with
  | O => Ret (None, s)
  | S retries' =>
      rs ← on_frames (λ f, pframe_alloc_n f alloc_frames) s;
      rs ← match rs : pframe_result * option Z * vmm_state with
           | (PFRAME_OK, Some _, _) => Ret rs
           | (_, _, s) => on_frames (λ f, pframe_alloc_n f frames_needed) s
           end;
      match rs : pframe_result * option Z * vmm_state with
      | (PFRAME_OK, Some temp_paddr, s) =>
          let paddr := Z.land (temp_paddr ⊞ page_size ⊟ 1) (~64 (page_size - 1)) in
          if paddr ⊞ page_size <=? temp_paddr ⊞ (alloc_frames ⊠ PAGE_SIZE) then
            let unused_count := (paddr ⊟ temp_paddr) / PAGE_SIZE in
            s ← free_some temp_paddr unused_count s;
            let unused_end := paddr ⊞ page_size in
            let unused_end_count := alloc_frames ⊟ unused_count ⊟ frames_needed in
            s ← free_some unused_end unused_end_count s;
            Ret (Some paddr, s)
          else
            rs ← on_frames (λ f, pframe_free_n f temp_paddr alloc_frames) s;
            alloc_aligned retries' page_size (snd (rs : pframe_result * vmm_state))
      | (_, _, s) => Ret (None, s)
      end
  end.
(** The frames of one page, if there are any. *)
Definition take_frames (page_size : Z) s : outcome (option Z * vmm_state) :=
  if 1 <? page_size / PAGE_SIZE then alloc_aligned 10 page_size s else
  rs ← on_frames pframe_alloc s;
  match rs : pframe_result * option Z * vmm_state with
  | (PFRAME_OK, Some paddr, s) => Ret (Some paddr, s)
  | (_, _, s) => Ret (None, s)
  end.
(** One round of the allocation: frames and a mapping for the page at [vaddr];
    the frames are given back when the mapping fails. *)
Definition alloc_one (vaddr page_size flags : Z) s : outcome (bool * vmm_state) :=
  rs ← take_frames page_size s;
  match rs : option Z * vmm_state with
  | (None, s) => Ret (false, s)
  | (Some paddr, s) =>
      rs ← on_pages (page_map_page (s_kernel_pml4 s) vaddr paddr (Z.lor flags VMAP_FLAG_WRITE) true) s;
      let '(page_result, s) := rs : Page.page_result * vmm_state in
      if bool_decide (page_result = PAGE_OK) then Ret (true, s) else
      rs ← (if 1 <? page_size / PAGE_SIZE then on_frames (λ f, pframe_free_n f paddr (page_size / PAGE_SIZE)) s
            else on_frames (λ f, pframe_free f paddr) s);
      Ret (false, snd (rs : pframe_result * vmm_state))
  end.
(** The loop over the pages, with the rollback of the pages before [i]. *)
Fixpoint alloc_loop (n : nat) (i vaddr page_size flags : Z) s : outcome (bool * vmm_state) :=
  match n with
  | O => Ret (true, s)
  | S n' =>
      rs ← alloc_one (vaddr ⊞ (i ⊠ page_size)) page_size flags s;
      let '(ok, s) := rs : bool * vmm_state in
      if ok then alloc_loop n' (i + 1) vaddr page_size flags s else
      rs ← vmm_free_pages vaddr i s;
      Ret (false, snd (rs : vmm_result * vmm_state))
  end.
(** [mov cr3] *)
Definition flush_tlb s : vmm_state := with_pages (with_tlb ∅ (pages s)) s.
(** The CR3 register is an argument, and part of the result when it is loaded. *)
Definition vmm_get_current_pml4 (cr3 : Z) : Z := Z.land cr3 (~64 0xFFF).
Definition vmm_load_pml4 (pml4_phys : Z) s : Z * vmm_state := (Z.land pml4_phys (~64 0xFFF), flush_tlb s).

(** The result is the address, 0 on failure. *)
Definition vmm_alloc_pages (count flags : Z) s : outcome (Z * vmm_state) :=
  _ ← ccos_assert (s_initialized s);
  if count =? 0 then Ret (0, s) else
  let page_size := page_size_of flags in
  let '(result, vaddr, s) := find_free_virt_range (count ⊠ page_size) s in
  if negb (bool_decide (result = VMM_OK)) then Ret (0, s) else
  rs ← alloc_loop (Z.to_nat count) 0 vaddr page_size flags s;
  let '(ok, s) := rs : bool * vmm_state in
  if negb ok then Ret (0, s) else
  let s := add_region vaddr (vaddr ⊞ (count ⊠ page_size)) 0 flags name_pages s in
  Ret (vaddr, flush_tlb (count_kernel count count s)).

Definition vmm_alloc_pages_at (vaddr count flags : Z) s : outcome (vmm_result * vmm_state) :=
  _ ← ccos_assert (s_initialized s);
  if count =? 0 then Ret (VMM_ERR_INVALID, s) else
  let page_size := page_size_of flags in
  if negb (Z.land vaddr (page_size - 1) =? 0) then Ret (VMM_ERR_INVALID, s) else
  if negb (vmm_is_kernel_addr vaddr) then Ret (VMM_ERR_INVALID, s) else
  rs ← alloc_loop (Z.to_nat count) 0 vaddr page_size flags s;
  let '(ok, s) := rs : bool * vmm_state in
  if negb ok then Ret (VMM_ERR_OOM, s) else
  let s := add_region vaddr (vaddr ⊞ (count ⊠ page_size)) 0 flags name_pages s in
  let region_end := vaddr ⊞ (count ⊠ page_size) in
  let s := if s_kernel_virt_hint s <? region_end then with_hint region_end s else s in
  Ret (VMM_OK, flush_tlb (count_kernel count count s)).

(** ** User address spaces *)
Definition copy_entry (from to i : Z) (p : page_state) : outcome page_state :=
  e ← ld p (phys_to_virt_offset from ⊞ 8 * i); sto (phys_to_virt_offset to ⊞ 8 * i) e p.
(** The address of the new PML4 is delivered through [out_pml4], given with its
    old value. *)
Definition vmm_create_user_space (out_pml4 : Z) s : outcome (vmm_result * Z * vmm_state) :=
  _ ← ccos_assert (s_initialized s);
  rts ← page_create_table out_pml4 (pages s);
  let '(result, pml4, p) := rts : Page.page_result * Z * page_state in
  let s := with_pages p s in
  if negb (bool_decide (result = PAGE_OK)) then Ret (VMM_ERR_OOM, pml4, s) else
  p ← for_range 256 512 (copy_entry (s_kernel_pml4 s) pml4) (pages s);
  Ret (VMM_OK, pml4, count_tables 1 (with_pages p s)).

(** [page_free_table] of the table an entry refers to; the result is ignored. *)
Definition free_table_of (e : Z) (p : page_state) : outcome page_state :=
  rs ← page_free_table (frame_addr e) p; Ret (snd (rs : Page.page_result * page_state)).
Definition entry (table i : Z) (p : page_state) : outcome Z := ld p (phys_to_virt_offset table ⊞ 8 * i).
(** Freeing what hangs below an entry of the page directory, of the PDPT and of
    the PML4. The inner loop over a page table only looks at its entries. *)
Definition destroy_pde (pd k : Z) (p : page_state) : outcome page_state :=
  pde ← entry pd k p;
  if negb (present pde) then Ret p else
  if pat pde then Ret p else
  p ← for_range 0 512 (λ l p, _ ← entry (frame_addr pde) l p; Ret p) p;
  free_table_of pde p.
Definition destroy_pdpte (pdpt j : Z) (p : page_state) : outcome page_state :=
  pdpte ← entry pdpt j p;
  if negb (present pdpte) then Ret p else
  p ← for_range 0 512 (destroy_pde (frame_addr pdpte)) p;
  free_table_of pdpte p.
Definition destroy_pml4e (pml4 i : Z) (p : page_state) : outcome page_state :=
  pml4e ← entry pml4 i p;
  if negb (present pml4e) then Ret p else
  p ← for_range 0 512 (destroy_pdpte (frame_addr pml4e)) p;
  free_table_of pml4e p.
Definition vmm_destroy_user_space (pml4 : Z) s : outcome (vmm_result * vmm_state) :=
  _ ← ccos_assert (s_initialized s);
  p ← for_range 0 256 (destroy_pml4e pml4) (pages s);
  rs ← page_free_table pml4 p;
  Ret (VMM_OK, count_tables (-1) (with_pages (snd (rs : Page.page_result * page_state)) s)).

Fixpoint map_user_loop (n : nat) (i pml4 vaddr paddr flags : Z) (p : page_state) : outcome (bool * page_state) :=
  match n with
  | O => Ret (true, p)
  | S n' =>
      rs ← page_map_page pml4 (vaddr ⊞ (i ⊠ PAGE_SIZE)) (paddr ⊞ (i ⊠ PAGE_SIZE)) flags true p;
      let '(result, p) := rs : Page.page_result * page_state in
      if negb (bool_decide (result = PAGE_OK)) then
        rs ← page_unmap_range pml4 vaddr i p; Ret (false, snd (rs : Page.page_result * page_state))
      else map_user_loop n' (i + 1) pml4 vaddr paddr flags p
  end.
Definition vmm_map_to_user (pml4 vaddr paddr count flags : Z) s : outcome (vmm_result * vmm_state) :=
  _ ← ccos_assert (s_initialized s);
  if negb (vmm_is_user_addr vaddr) then Ret (VMM_ERR_INVALID, s) else
  let flags := Z.lor flags VMAP_FLAG_USER in
  rs ← map_user_loop (Z.to_nat count) 0 pml4 vaddr paddr flags (pages s);
  let '(ok, p) := rs : bool * page_state in
  let s := with_pages p s in
  if negb ok then Ret (VMM_ERR_OOM, s) else Ret (VMM_OK, count_user count s).

(** ** Regions and the search for room *)
Lemma check_region_collision_spec start stop s : check_region_collision start stop s = false ↔
  ∀ r, r ∈ s_regions s → r_end r ≤ start ∨ stop ≤ r_start r.
Proof.
  unfold check_region_collision. rewrite <- not_true_iff_false, existsb_exists. unfold overlaps. split.
  - intros Hn r Hr. destruct (Z.ltb_spec start (r_end r)); [|lia]. destruct (Z.ltb_spec (r_start r) stop); [|lia].
    destruct Hn. exists r. split; [by apply list_elem_of_In|]. apply andb_true_iff. split; lia.
  - intros Ha (r & Hr%list_elem_of_In & Hc). specialize (Ha r Hr). lia.
Qed.
Definition has_room (v size : Z) s : Prop :=
  v + size ≤ KERNEL_GENERAL_MAX ∧ ∀ r, r ∈ s_regions s → r_end r ≤ v ∨ v + size ≤ r_start r.

(** The loop gives the first position of the grid with room; the bound on the
    positions is enough to reach the end of the region. *)
Lemma find_free_loop_spec n hint size al s : 0 ≤ hint ≤ KERNEL_GENERAL_MAX + al → 0 ≤ size < 2 ^ 30 → 0 < al ≤ 2 ^ 21 →
  KERNEL_GENERAL_MAX < hint + al * Z.of_nat n →
  match find_free_loop n hint size al s with
  | Some v => ∃ k, 0 ≤ k ∧ v = hint + al * k ∧ has_room v size s ∧ ∀ j, 0 ≤ j < k → ¬ has_room (hint + al * j) size s
  | None => ∀ j, 0 ≤ j → ¬ has_room (hint + al * j) size s
  end.
Proof.
  unfold KERNEL_GENERAL_MAX, KERNEL_GENERAL_BASE in *. intros Hh Hs Ha. revert hint Hh.
  induction n as [|n IH]; intros hint Hh Hn; cbn [find_free_loop].
  { intros j Hj [Hr _]. unfold KERNEL_GENERAL_MAX, KERNEL_GENERAL_BASE in Hr. nia. }
  rewrite u64_small by lia. unfold KERNEL_GENERAL_MAX, KERNEL_GENERAL_BASE.
  destruct (Z.leb_spec (hint + size) (0xFFFFFFFF88000000 + 128 * 1024 * 1024)) as [Hle|Hgt].
  2: { intros j Hj [Hr _]. unfold KERNEL_GENERAL_MAX, KERNEL_GENERAL_BASE in Hr. nia. }
  destruct (check_region_collision hint (hint + size) s) eqn:Hc; cbn [negb].
  - assert (¬ has_room hint size s) as Hno.
    { intros [_ Hr]. apply check_region_collision_spec in Hr. congruence. }
    rewrite u64_small by lia. specialize (IH (hint + al) ltac:(lia) ltac:(lia)).
    destruct (find_free_loop n (hint + al) size al s) as [v|].
    + destruct IH as (k & Hk & -> & Hroom & Hfirst). exists (k + 1). split_and!; [lia|lia|done|].
      intros j Hj. destruct (decide (j = 0)) as [->|Hne]; [by rewrite Z.mul_0_r, Z.add_0_r|].
      replace (hint + al * j) with (hint + al + al * (j - 1)) by lia. apply Hfirst. lia.
    + intros j Hj. destruct (decide (j = 0)) as [->|Hne]; [by rewrite Z.mul_0_r, Z.add_0_r|].
      replace (hint + al * j) with (hint + al + al * (j - 1)) by lia. apply IH. lia.
  - exists 0. rewrite Z.mul_0_r, Z.add_0_r. split_and!; [lia|done| |lia]. split; [unfold KERNEL_GENERAL_MAX, KERNEL_GENERAL_BASE; lia|].
    by apply check_region_collision_spec.
Qed.

Definition range_alignment (size : Z) : Z := if PAGE_SIZE_2MB <=? size then PAGE_SIZE_2MB else PAGE_SIZE.
Lemma range_alignment_pow size : ∃ k, range_alignment size = 2 ^ k ∧ 12 ≤ k ≤ 21.
Proof. unfold range_alignment. destruct (PAGE_SIZE_2MB <=? size); [exists 21|exists 12]; done. Qed.
Lemma round_up x al : 0 < al → al * ((x + al - 1) / al) mod al = 0 ∧ x ≤ al * ((x + al - 1) / al) < x + al ∧
  ∀ w, w mod al = 0 → x ≤ w → ∃ k, 0 ≤ k ∧ w = al * ((x + al - 1) / al) + al * k.
Proof.
  intros Ha. pose proof (Z.div_mod (x + al - 1) al). pose proof (Z.mod_pos_bound (x + al - 1) al).
  split; [by rewrite Z.mul_comm, Z.mod_mul by lia|]. split; [lia|].
  intros w Hw Hx. pose proof (Z.div_mod w al). exists (w / al - (x + al - 1) / al). split; [|nia].
  assert ((x + al - 1) / al < w / al + 1); [|lia]. apply Z.div_lt_upper_bound; nia.
Qed.
Lemma find_free_virt_range_spec size s :
  KERNEL_GENERAL_BASE ≤ s_kernel_virt_hint s ≤ KERNEL_GENERAL_MAX → 0 < size < 2 ^ 30 →
  let al := range_alignment size in let h := s_kernel_virt_hint s in
  (∃ v, find_free_virt_range size s = (VMM_OK, v, with_hint (v + size) s) ∧ v mod al = 0 ∧ h ≤ v ∧ has_room v size s ∧
     ∀ w, w mod al = 0 → h ≤ w < v → ¬ has_room w size s) ∨
  (find_free_virt_range size s = (VMM_ERR_OOM, 0, s) ∧ ∀ w, w mod al = 0 → h ≤ w → ¬ has_room w size s).
Proof.
  intros Hh Hs al h. destruct (range_alignment_pow size) as (k & Hk & Hk12). fold al in Hk.
  unfold find_free_virt_range. fold (range_alignment size). fold al. fold h in Hh. fold h.
  assert (0 < al ≤ 2 ^ 21) as Hal by (rewrite Hk; split; [lia|apply Z.pow_le_mono_r; lia]).
  unfold KERNEL_GENERAL_BASE, KERNEL_GENERAL_MAX, KERNEL_GENERAL_BASE in Hh.
  rewrite (u64_small (h + al)) by lia. rewrite (u64_small (h + al - 1)) by lia.
  assert (Z.land (h + al - 1) (~64 (al - 1)) = al * ((h + al - 1) / al)) as ->.
  { rewrite Hk. apply lnot_mask_land; [lia|]. rewrite <- Hk. unfold is_u64. lia. }
  destruct (round_up h al) as (Hmod & Hup & Hgrid); [lia|]. set (h0 := al * ((h + al - 1) / al)) in *.
  pose proof (find_free_loop_spec (Z.to_nat ((KERNEL_GENERAL_MAX - h0) / al + 1)) h0 size al s) as Hloop.
  unfold KERNEL_GENERAL_MAX, KERNEL_GENERAL_BASE in Hloop.
  pose proof (Z.div_mod (KERNEL_GENERAL_MAX - h0) al) as Hdm. pose proof (Z.mod_pos_bound (KERNEL_GENERAL_MAX - h0) al) as Hmp.
  unfold KERNEL_GENERAL_MAX, KERNEL_GENERAL_BASE in Hdm, Hmp.
  specialize (Hloop ltac:(lia) ltac:(lia) ltac:(lia) ltac:(nia)).
  fold KERNEL_GENERAL_BASE in Hloop. fold KERNEL_GENERAL_MAX in Hloop.
  destruct (find_free_loop _ h0 size al s) as [v|].
  - left. destruct Hloop as (j & Hj & -> & Hroom & Hfirst). exists (h0 + al * j).
    pose proof Hroom as [Hle _]. unfold KERNEL_GENERAL_MAX, KERNEL_GENERAL_BASE in Hle.
    assert (0 ≤ al * j) by nia. rewrite u64_small by lia. split_and!; [done| |lia|done|].
    + rewrite Z.mul_comm, Z.mod_add by lia. done.
    + intros w Hw Hwr. destruct (Hgrid w Hw) as (i & Hi & ->); [lia|]. apply Hfirst. nia.
  - right. split; [done|]. intros w Hw Hwr. destruct (Hgrid w Hw) as (i & Hi & ->); [lia|]. by apply Hloop.
Qed.

(** ** Frames under page tables *)
Definition is_table (root : Z) (p : page_state) (f : Z) : Prop := ∃ u j, tabs 3 (phys_mem p) root u !! j = Some (4096 * f).
Lemma table_allocated root p f : page_inv p root → is_table root p f → 0 < f < total_frames (frames p) ∧ allocated (frames p) f = true.
Proof. intros Hs (u & j & Ht). destruct (pi_tab _ _ Hs _ _ _ Ht) as (g & Hg & Hr & Ha). assert (g = f) as -> by lia. done. Qed.
(** The frame allocator may change every frame that is neither a table nor frame 0. *)
Lemma page_inv_frames root p x : page_inv p root → Pframe.inv x → total_frames x = total_frames (frames p) →
  initialized x = initialized (frames p) →
  (∀ f, f = 0 ∨ is_table root p f → allocated x f = allocated (frames p) f) → page_inv (with_frames x p) root.
Proof.
  intros Hs Hx Ht Hi Ha. split; cbn [frames phys_mem with_frames].
  - done.
  - rewrite Hi. apply Hs.
  - rewrite Ha by (by left). apply Hs.
  - rewrite Ht. apply Hs.
  - intros v k t Hk. destruct (pi_tab _ _ Hs v k t Hk) as (f & -> & Hf & Hal). exists f. rewrite Ht.
    split_and!; [done|lia|lia|]. rewrite Ha; [done|right]. by exists v, k.
  - apply Hs.
  - apply Hs.
Qed.
(** The status of a frame other than the one that changed. *)
Lemma changed_other x y f v g : changed x y f 1 v → 0 ≤ g < total_frames x → g ≠ f → allocated y g = allocated x g.
Proof.
  intros (_ & _ & Hc) Hg Hne. rewrite Hc by done. destruct (Z.leb_spec f g), (Z.ltb_spec g (f + 1)); cbn [andb]; [lia|done..].
Qed.
Lemma changed_self x y f v : changed x y f 1 v → 0 ≤ f < total_frames x → allocated y f = v.
Proof. intros (_ & _ & Hc) Hf. rewrite Hc by done. destruct (Z.leb_spec f f), (Z.ltb_spec f (f + 1)); [done|lia..]. Qed.

Lemma zlookup_inj {A} (l : list A) i j a : NoDup l → zlookup l i = Some a → zlookup l j = Some a → i = j.
Proof.
  intros Hn Hi Hj. pose proof (zlookup_Some_lt _ _ _ Hi). pose proof (zlookup_Some_lt _ _ _ Hj).
  rewrite zlookup_nonneg in Hi, Hj by lia. pose proof (NoDup_lookup _ _ _ _ Hn Hi Hj). lia.
Qed.

(** ** Allocation of 4 KB pages

    [p0] is the state before the call. In [mapped_to fs k p] the pages from [k]
    on of the list are mapped to fresh frames, the earlier ones have been
    unmapped again. *)
Definition small_pages (flags : Z) : Prop := flag_set flags VMAP_FLAG_HUGE_2MB = false ∧ flag_set flags VMAP_FLAG_HUGE_1GB = false.
Lemma small_pages_lor flags k : small_pages flags → 0 ≤ k < 5 → small_pages (Z.lor flags (2 ^ k)).
Proof.
  intros [H2 H1] Hk.
  assert (∀ j, flag_set flags (2 ^ j) = false → 5 ≤ j → flag_set (Z.lor flags (2 ^ k)) (2 ^ j) = false) as Hf.
  { intros j Hj Hpos. unfold flag_set in *. apply negb_false_iff, Z.eqb_eq in Hj. apply negb_false_iff, Z.eqb_eq.
    rewrite Z.land_lor_distr_l, Hj, Z.lor_0_l. apply Z.bits_inj'. intros i Hi.
    rewrite Z.land_spec, Z.bits_0, !Z.pow2_bits_eqb by lia.
    destruct (Z.eqb_spec k i), (Z.eqb_spec j i); cbn; lia || done. }
  split; [by apply (Hf 5)|by apply (Hf 6)].
Qed.
Section alloc.
Context (root vbase fl count : Z) (p0 : page_state).
Context (Hfl : small_pages fl)
  (Hv : vbase mod 4096 = 0) (Hv0 : 0 ≤ vbase) (Hvlt : vbase + 4096 * count ≤ 2 ^ 64) (Hcount : 0 ≤ count ≤ 2 ^ 36).
#[local] Notation vp := (vpage vbase).

Record mapped_to (fs : list Z) (k : Z) (p : page_state) : Prop := {
  mt_inv : page_inv p root;
  mt_ok j : 0 ≤ j < count → private (phys_mem p) root (vp j) ∧ no_huge p root (vp j);
  mt_k : 0 ≤ k ≤ Z.of_nat (length fs) ≤ count;
  mt_in j f u : zlookup fs j = Some f → k ≤ j → block 0 u = block 0 (vp j) →
    mmu p root u = Some (4096 * f + u mod 4096, map_entry (4096 * f) fl);
  mt_gone j u : 0 ≤ j < k → block 0 u = block 0 (vp j) → mmu p root u = None;
  mt_before j : 0 ≤ j < Z.of_nat (length fs) → mmu p0 root (vp j) = None;
  mt_out u : (∀ j, 0 ≤ j < Z.of_nat (length fs) → block 0 u ≠ block 0 (vp j)) → mmu p root u = mmu p0 root u;
  mt_nodup : NoDup fs;
  mt_frame j f : zlookup fs j = Some f → 0 < f < total_frames (frames p) ∧ allocated (frames p0) f = false ∧
    (k ≤ j → allocated (frames p) f = true ∧ ¬ is_table root p f);
  mt_total : total_frames (frames p) = total_frames (frames p0);
  mt_taken f : 0 ≤ f < total_frames (frames p) → allocated (frames p) f = true →
    allocated (frames p0) f = true ∨ (∃ j, k ≤ j ∧ zlookup fs j = Some f) ∨ is_table root p f;
  mt_kept f : 0 ≤ f < total_frames (frames p) → allocated (frames p0) f = true → allocated (frames p) f = true }.

Lemma vp_block i j : 0 ≤ i < count → 0 ≤ j < count → block 0 (vp i) = block 0 (vp j) → i = j.
Proof using Hv Hv0 Hvlt Hcount.
  apply (vpage_block 0 vbase 0 0 count (conj eq_refl eq_refl) Hv eq_refl Hv0 ltac:(lia) Hvlt ltac:(lia) Hcount).
Qed.
Lemma vp_aligned i : vp i mod 4096 = 0.
Proof using Hv. unfold vpage. rewrite Z.mul_comm, Z.mod_add by lia. done. Qed.
Lemma vp_wrap i : 0 ≤ i < count → vbase ⊞ (i ⊠ PAGE_SIZE) = vp i.
Proof using Hv0 Hvlt Hcount.
  intros Hi. unfold vpage, PAGE_SIZE. rewrite (u64_small (i * 4096)) by lia. rewrite u64_small by lia. lia.
Qed.
Lemma fl_level : size_level fl = 0%nat.
Proof using Hfl. unfold size_level. by rewrite (proj1 Hfl), (proj2 Hfl). Qed.

(** Page [k] is given back. *)
Lemma release_page_spec fs k s : mapped_to fs k (pages s) → k < Z.of_nat (length fs) →
  ∃ p', release_page root (vbase ⊞ (k ⊠ PAGE_SIZE)) s = Ret (with_pages p' s) ∧ mapped_to fs (k + 1) p'.
Proof using Hv Hv0 Hvlt Hcount.
  intros Hm Hk. pose proof (mt_k _ _ _ Hm) as Hkl. pose proof (mt_inv _ _ _ Hm) as Hs.
  destruct (zlookup_lt_is_Some fs k) as [f Hf]; [lia|].
  destruct (mt_frame _ _ _ Hm k f Hf) as (Hfr & Hnew & Hlive). destruct Hlive as [Hal Hnt]; [lia|].
  destruct (mt_ok _ _ _ Hm k) as [Hpv Hnh]; [lia|]. pose proof (inv_small _ (pi_frames _ _ Hs)) as Hsm.
  unfold release_page. rewrite vp_wrap by lia. rewrite (page_virt_to_phys_spec _ _ _ Hs Hnh).
  rewrite (mt_in _ _ _ Hm k f (vp k) Hf) by (lia || done). rewrite vp_aligned, Z.add_0_r, outcome_bind_ret.
  unfold on_frames.
  destruct (pframe_free_step (frames (pages s)) (4096 * f) f true (pi_frames _ _ Hs) (pi_init _ _ Hs)) as (x & Hx & Hch & Hxi);
    [lia| |by rewrite Z.mul_comm, Z.div_mul|lia|done|].
  { apply is_page_aligned_iff. exists f. lia. }
  rewrite Hx, !outcome_bind_ret. cbn [snd]. unfold on_pages. cbn [pages with_pages].
  set (p1 := with_frames x (pages s)). pose proof Hch as (Htot & Hini & _).
  assert (page_inv p1 root) as Hs1.
  { apply page_inv_frames; [done..|]. intros g Hg. apply (changed_other _ _ f false); [done| |].
    - destruct Hg as [->|Hg]; [lia|]. apply (table_allocated _ _ _ Hs) in Hg. lia.
    - intros ->. destruct Hg as [->|Hg]; [lia|done]. }
  destruct (page_unmap_page_spec p1 root (vp k) Hs1 Hpv Hnh) as (r & p2 & Hun & Hs2 & Hpriv & Hout).
  rewrite Hun, !outcome_bind_ret. cbn [snd]. exists p2. split; [done|].
  rewrite decide_True in Hout by apply vp_aligned. unfold unmap_outcome in Hout.
  change (mmu p1 root (vp k)) with (mmu (pages s) root (vp k)) in Hout.
  rewrite (mt_in _ _ _ Hm k f (vp k) Hf) in Hout by (lia || done).
  destruct Hout as (_ & _ & Hfrm & Hgone & Hother & Hnhs & Htabs).
  assert (∀ g, is_table root p2 g ↔ is_table root (pages s) g) as Htab.
  { intros g. unfold is_table. by setoid_rewrite Htabs. }
  assert (∀ j, 0 ≤ j < Z.of_nat (length fs) → j ≠ k → block 0 (vp j) ≠ block 0 (vp k)) as Hne.
  { intros j Hj Hjk Hb. apply vp_block in Hb; lia. }
  assert (∀ g, 0 ≤ g < total_frames (frames (pages s)) → g ≠ f → allocated (frames p2) g = allocated (frames (pages s)) g) as Hoth.
  { intros g Hg Hgf. rewrite Hfrm. by apply (changed_other _ _ f false). }
  assert (total_frames (frames p2) = total_frames (frames (pages s))) as Ht2 by (by rewrite Hfrm).
  split.
  - done.
  - intros j Hj. destruct (mt_ok _ _ _ Hm j Hj). split; [by apply Hpriv|by apply Hnhs].
  - lia.
  - intros j g u Hj Hkj Hb. rewrite Hother; [apply (mt_in _ _ _ Hm j g u Hj); [lia|done]|].
    rewrite Hb. apply zlookup_Some_lt in Hj. apply Hne; lia.
  - intros j u Hj Hb. destruct (decide (j = k)) as [->|Hjk]; [by apply Hgone|].
    rewrite Hother; [apply (mt_gone _ _ _ Hm j u); [lia|done]|]. rewrite Hb. apply Hne; lia.
  - apply Hm.
  - intros u Hu. rewrite Hother by (apply Hu; lia). by apply (mt_out _ _ _ Hm).
  - apply Hm.
  - intros j g Hj. rewrite Ht2. destruct (mt_frame _ _ _ Hm j g Hj) as (Hg & Hg0 & Hgl). split_and!; [lia|lia|done|].
    intros Hkj. destruct Hgl as [Hga Hgt]; [lia|]. rewrite Htab. split; [|done]. rewrite Hoth; [done|lia|].
    intros ->. assert (j = k); [|lia]. by eapply zlookup_inj; [apply (mt_nodup _ _ _ Hm)|..].
  - rewrite Ht2. apply Hm.
  - intros g Hg Hga. rewrite Ht2 in Hg. rewrite Htab. destruct (decide (g = f)) as [->|Hgf].
    { rewrite Hfrm in Hga. change (frames p1) with x in Hga. pose proof (changed_self _ _ _ _ Hch ltac:(lia)). congruence. }
    rewrite Hoth in Hga by done. destruct (mt_taken _ _ _ Hm g Hg Hga) as [?|[(j & Hkj & Hj)|?]]; [by left| |by right; right].
    right. left. exists j. split; [|done]. assert (j ≠ k) by (intros ->; congruence). lia.
  - intros g Hg Hg0. rewrite Ht2 in Hg. rewrite Hoth; [by apply (mt_kept _ _ _ Hm)|done|congruence].
Qed.

(** The frames after frame [f] was taken and tables may have been added. *)
Record frames_after (fs : list Z) (f : Z) (p : page_state) : Prop := {
  fa_range : 0 < f < total_frames (frames p) ∧ allocated (frames p0) f = false ∧ (∀ j, zlookup fs j ≠ Some f);
  fa_live : allocated (frames p) f = true ∧ ¬ is_table root p f;
  fa_frame j g : zlookup fs j = Some g → 0 < g < total_frames (frames p) ∧ allocated (frames p0) g = false ∧
    allocated (frames p) g = true ∧ ¬ is_table root p g;
  fa_total : total_frames (frames p) = total_frames (frames p0);
  fa_taken g : 0 ≤ g < total_frames (frames p) → allocated (frames p) g = true →
    g = f ∨ allocated (frames p0) g = true ∨ (∃ j, 0 ≤ j ∧ zlookup fs j = Some g) ∨ is_table root p g;
  fa_kept g : 0 ≤ g < total_frames (frames p) → allocated (frames p0) g = true → allocated (frames p) g = true }.
Lemma frames_after_grown fs p x f p2 : mapped_to fs 0 p → 0 < f < total_frames (frames p) → allocated (frames p) f = false →
  changed (frames p) x f 1 true → grown root (with_frames x p) p2 → frames_after fs f p2.
Proof.
  intros Hm Hf Hfree Hch [Ht Ha Hta Htn Hto]. pose proof Hch as (Htot & _ & _).
  cbn [frames phys_mem with_frames] in *. rewrite Htot in *. pose proof (mt_inv _ _ _ Hm) as Hs.
  assert (∀ g, 0 ≤ g < total_frames (frames p) → g ≠ f → allocated x g = allocated (frames p) g) as Hx.
  { intros g. by apply (changed_other _ _ f true). }
  assert (allocated x f = true) as Hxf by (apply (changed_self _ _ _ _ Hch); lia).
  assert (∀ g, is_table root p2 g → is_table root p g ∨ 0 ≤ g < total_frames (frames p) ∧ allocated x g = false) as Htab.
  { intros g (u & j & Hu). destruct (Htn _ _ _ Hu) as [Hu'|(h & Hh & Hr & Hn)]; [left; by exists u, j|right].
    assert (h = g) as -> by lia. done. }
  assert (∀ j g, zlookup fs j = Some g → g ≠ f) as Hne.
  { intros j g Hj ->. destruct (mt_frame _ _ _ Hm j f Hj) as (_ & _ & [Hal _]); [apply zlookup_Some_lt in Hj; lia|]. congruence. }
  split; rewrite ?Ht.
  - split_and!; [lia|lia| |].
    + destruct (allocated (frames p0) f) eqn:He; [|done]. rewrite (mt_kept _ _ _ Hm f ltac:(lia) He) in Hfree. done.
    + intros j Hj. by eapply Hne.
  - split; [apply Ha; [lia|done]|]. intros [Htp|[_ Hn]]%Htab; [|congruence].
    apply (table_allocated _ _ _ Hs) in Htp as [_ Htp]. congruence.
  - intros j g Hj. destruct (mt_frame _ _ _ Hm j g Hj) as (Hr & H0 & [Hal Hnt]); [apply zlookup_Some_lt in Hj; lia|].
    assert (allocated x g = true) as Hxg by (rewrite Hx; [done|lia|by eapply Hne]).
    split_and!; [lia|lia|done|apply Ha; [lia|done]|]. intros [Htp|[_ Hn]]%Htab; [done|congruence].
  - apply Hm.
  - intros g Hg Hg2. destruct (decide (g = f)) as [->|Hgf]; [by left|right].
    destruct (Hta g Hg Hg2) as [Hg1|(u & j & Hu)]; [|right; right; by exists u, j].
    rewrite Hx in Hg1 by done. destruct (mt_taken _ _ _ Hm g Hg Hg1) as [?|[?|(u & j & Hu)]]; [by left|by right; left|].
    right. right. exists u, j. by apply Hto.
  - intros g Hg H0. apply Ha; [lia|]. destruct (decide (g = f)) as [->|Hgf]; [done|]. rewrite Hx by done.
    by apply (mt_kept _ _ _ Hm).
Qed.

Lemma with_frames_id p : with_frames (frames p) p = p.
Proof. by destruct p. Qed.
Lemma zlookup_app_one (l : list Z) a j b : zlookup (l ++ [a]) j = Some b →
  zlookup l j = Some b ∨ j = Z.of_nat (length l) ∧ b = a.
Proof.
  intros Hj. pose proof (zlookup_Some_lt _ _ _ Hj) as Hr. rewrite length_app in Hr. cbn [length] in Hr.
  rewrite zlookup_nonneg in Hj by lia. rewrite zlookup_nonneg by lia.
  apply lookup_app_Some in Hj as [Hj|[Hlen Hj]]; [by left|right]. apply list_lookup_singleton_Some in Hj as [Hj <-]. lia.
Qed.

(** The page after the list is mapped to frame [f]. *)
Lemma mapped_to_add fs f p p2 : mapped_to fs 0 p → Z.of_nat (length fs) < count → frames_after fs f p2 → page_inv p2 root →
  (∀ w, private (phys_mem p) root w → private (phys_mem p2) root w) → (∀ w, no_huge p root w → no_huge p2 root w) →
  let v := vp (Z.of_nat (length fs)) in
  mmu p root v = None →
  (∀ u, block 0 u = block 0 v → mmu p2 root u = Some (4096 * f + u mod 4096, map_entry (4096 * f) fl)) →
  (∀ u, block 0 u ≠ block 0 v → mmu p2 root u = mmu p root u) → mapped_to (fs ++ [f]) 0 p2.
Proof using Hv Hv0 Hvlt Hcount.
  intros Hm Hlen [Fr Fl Ff Ft Ftk Fk] Hs2 Hpriv Hnhs v Hnone Hin Hout. set (i := Z.of_nat (length fs)) in *.
  split; rewrite ?length_app; cbn [length]; try done.
  - intros j Hj. destruct (mt_ok _ _ _ Hm j Hj). split; [by apply Hpriv|by apply Hnhs].
  - fold i. lia.
  - intros j g u [Hj|[-> ->]]%zlookup_app_one _ Hb; [|by apply Hin].
    rewrite Hout; [apply (mt_in _ _ _ Hm j g u Hj); [|done]; by apply zlookup_Some_lt in Hj; lia|].
    rewrite Hb. intros He. apply zlookup_Some_lt in Hj. apply vp_block in He; lia.
  - lia.
  - intros j Hj. destruct (decide (j = i)) as [->|Hne]; [|apply (mt_before _ _ _ Hm); lia].
    unfold v in Hnone. rewrite (mt_out _ _ _ Hm) in Hnone; [done|]. intros j Hj' He. apply vp_block in He; lia.
  - intros u Hu. rewrite Hout by (apply Hu; lia). apply (mt_out _ _ _ Hm). intros j Hj. apply Hu. lia.
  - apply NoDup_app. split; [apply Hm|]. split; [|apply NoDup_singleton].
    intros g Hg ->%list_elem_of_singleton. apply list_elem_of_lookup_1 in Hg as [j Hj].
    apply (proj2 (proj2 Fr) (Z.of_nat j)). rewrite zlookup_nonneg by lia. by rewrite Nat2Z.id.
  - intros j g [Hj|[-> ->]]%zlookup_app_one; [destruct (Ff j g Hj) as ([? ?]&?&?&?); by split_and!|].
    destruct Fr as ([? ?] & ? & _). split_and!; [done..|]. intros _. exact Fl.
  - intros g Hg Hga. destruct (Ftk g Hg Hga) as [->|[?|[(j & ? & Hj)|?]]]; [|by left| |by right; right]; right; left.
    + exists i. split; [lia|]. rewrite zlookup_nonneg by lia. apply list_lookup_middle. lia.
    + exists j. split; [done|]. pose proof (zlookup_Some_lt _ _ _ Hj). rewrite zlookup_nonneg in Hj by lia.
      rewrite zlookup_nonneg by lia. by apply lookup_app_l_Some.
Qed.
(** The mapping failed and frame [f] was given back. *)
Lemma mapped_to_undo fs f p p2 y : mapped_to fs 0 p → frames_after fs f p2 → page_inv p2 root →
  (∀ w, private (phys_mem p) root w → private (phys_mem p2) root w) → (∀ w, no_huge p root w → no_huge p2 root w) →
  (∀ u, mmu p2 root u = mmu p root u) → changed (frames p2) y f 1 false → Pframe.inv y →
  mapped_to fs 0 (with_frames y p2).
Proof.
  intros Hm [Fr Fl Ff Ft Ftk Fk] Hs2 Hpriv Hnhs Hsame Hcy Hyi. pose proof Hcy as (Hyt & Hyn & _).
  assert (∀ g, 0 ≤ g < total_frames (frames p2) → g ≠ f → allocated y g = allocated (frames p2) g) as Hyo
    by (intros g; by apply (changed_other _ _ f false)).
  assert (∀ u, mmu (with_frames y p2) root u = mmu p root u) as Hsame' by exact Hsame.
  split; cbn [frames phys_mem with_frames]; rewrite ?Hyt; try done.
  - apply page_inv_frames; [done..|]. intros g Hg. apply Hyo.
    + destruct Hg as [->|Hg]; [lia|]. apply (table_allocated _ _ _ Hs2) in Hg. lia.
    + intros ->. destruct Hg as [->|Hg]; [lia|by apply Fl].
  - intros j Hj. destruct (mt_ok _ _ _ Hm j Hj). split; [by apply Hpriv|by apply Hnhs].
  - apply Hm.
  - intros j g u. rewrite Hsame'. apply Hm.
  - intros j u. rewrite Hsame'. apply Hm.
  - apply Hm.
  - intros u. rewrite Hsame'. apply Hm.
  - apply Hm.
  - intros j g Hj. destruct (Ff j g Hj) as (Hr & H0 & Hal & Hnt). split_and!; [lia|lia|done|]. intros _. split; [|done].
    rewrite Hyo; [done|lia|]. intros ->. by apply (proj2 (proj2 Fr) j).
  - intros g Hg Hga. destruct (decide (g = f)) as [->|Hgf].
    { rewrite (changed_self _ _ _ _ Hcy) in Hga by lia. done. }
    rewrite Hyo in Hga by done. destruct (Ftk g Hg Hga) as [?|[?|[?|?]]]; [done|by left|by right; left|by right; right].
  - intros g Hg H0. rewrite Hyo; [by apply Fk|done|]. intros ->. destruct Fr as (_ & Hn & _). congruence.
Qed.

(** The next page is mapped to the frame [f] that was just taken, or not and the
    frame is given back. *)
Lemma map_fresh_spec fs x f p : mapped_to fs 0 p → Z.of_nat (length fs) < count → 0 < f < total_frames (frames p) →
  allocated (frames p) f = false → changed (frames p) x f 1 true → Pframe.inv x →
  ∃ r p2, page_map_page root (vp (Z.of_nat (length fs))) (4096 * f) fl true (with_frames x p) = Ret (r, p2) ∧
    (∀ w, outside_tables root (phys_mem p2) w → phys_mem p2 !! w = phys_mem p !! w) ∧
    if bool_decide (r = PAGE_OK) then mapped_to (fs ++ [f]) 0 p2
    else ∃ y, pframe_free (frames p2) (4096 * f) = Ret (PFRAME_OK, y) ∧ mapped_to fs 0 (with_frames y p2).
Proof using Hfl Hv Hv0 Hvlt Hcount.
  intros Hm Hlen Hf Hfree Hch Hxi. set (i := Z.of_nat (length fs)) in *. pose proof (mt_inv _ _ _ Hm) as Hs.
  pose proof (inv_small _ (pi_frames _ _ Hs)) as Hsm. set (p1 := with_frames x p). pose proof Hch as (Htot & Hini & _).
  assert (page_inv p1 root) as Hs1.
  { apply page_inv_frames; [done..|]. intros g Hg. apply (changed_other _ _ f true); [done| |].
    - destruct Hg as [->|Hg]; [lia|]. apply (table_allocated _ _ _ Hs) in Hg. lia.
    - intros ->. destruct Hg as [->|Hg]; [lia|]. apply (table_allocated _ _ _ Hs) in Hg as [_ Hg]. congruence. }
  destruct (mt_ok _ _ _ Hm i) as [Hpv Hnh]; [lia|].
  destruct (page_map_page_spec p1 root (vp i) (4096 * f) fl true Hs1 Hpv) as (r & p2 & Hmap & Hres).
  { lia. } { intros a e _. apply Hnh. by left. }
  rewrite (proj1 Hfl), fl_level in Hres. cbn [andb] in Hres. change (block_size 0) with 4096 in Hres.
  rewrite decide_True in Hres by (split; [apply vp_aligned|rewrite Z.mul_comm; apply Z.mod_mul; lia]).
  destruct Hres as (Hs2 & Hpriv & Hnhs & Hgr & Hres). rewrite fl_level in Hres, Hnhs. specialize (Hnhs eq_refl).
  pose proof (frames_after_grown fs p x f p2 Hm ltac:(lia) Hfree Hch Hgr) as Hfa.
  exists r, p2. split; [done|]. split; [apply (gr_mem _ _ _ Hgr)|]. destruct (bool_decide_reflect (r = PAGE_OK)) as [->|Hbad].
  - destruct Hres as (Hnone & _ & Hin & Hout). by eapply mapped_to_add.
  - assert (∀ u, mmu p2 root u = mmu p root u) as Hsame by (destruct r; try done; apply Hres).
    destruct (pframe_free_step (frames p2) (4096 * f) f true (pi_frames _ _ Hs2) (pi_init _ _ Hs2)) as (y & Hy & Hcy & Hyi);
      [lia|apply is_page_aligned_iff; exists f; lia|by rewrite Z.mul_comm, Z.div_mul|apply Hfa|apply Hfa|].
    exists y. split; [done|]. by eapply mapped_to_undo.
Qed.
Lemma alloc_one_spec flags fs s : fl = Z.lor flags VMAP_FLAG_WRITE → mapped_to fs 0 (pages s) → s_kernel_pml4 s = root →
  Z.of_nat (length fs) < count →
  ∃ ok p', alloc_one (vp (Z.of_nat (length fs))) PAGE_SIZE flags s = Ret (ok, with_pages p' s) ∧
    if ok : bool then ∃ f, mapped_to (fs ++ [f]) 0 p' else mapped_to fs 0 p'.
Proof using Hfl Hv Hv0 Hvlt Hcount.
  intros Hfe Hm Hroot Hlen. pose proof (mt_inv _ _ _ Hm) as Hs. pose proof (inv_small _ (pi_frames _ _ Hs)) as Hsm.
  unfold alloc_one, take_frames. change (1 <? PAGE_SIZE / PAGE_SIZE) with false. cbv iota. unfold on_frames.
  destruct (pframe_alloc_cases (frames (pages s)) (pi_frames _ _ Hs) (pi_init _ _ Hs))
    as [(f & x & -> & Hf & Hfree & Hch & Hxi)|[-> _]]; rewrite !outcome_bind_ret.
  2: { exists false, (pages s). rewrite with_frames_id. by split. }
  assert (f ≠ 0) by (intros ->; by rewrite (pi_zero _ _ Hs) in Hfree).
  rewrite frame_to_addr_mul by lia. unfold on_pages. cbn [pages with_pages s_kernel_pml4]. rewrite Hroot, <- Hfe.
  destruct (map_fresh_spec fs x f (pages s) Hm Hlen ltac:(lia) Hfree Hch Hxi) as (r & p2 & -> & _ & Hres). rewrite !outcome_bind_ret.
  destruct (bool_decide (r = PAGE_OK)); [exists true, p2; split; [done|by exists f]|].
  change (1 <? PAGE_SIZE / PAGE_SIZE) with false. cbv iota. destruct Hres as (y & Hy & Hm'). cbn [pages with_pages]. rewrite Hy, !outcome_bind_ret.
  exists false, (with_frames y p2). by split.
Qed.

(** Everything but the pages and the statistics is as in [s]. *)
Definition same_vmm s s' : Prop := s_kernel_pml4 s' = s_kernel_pml4 s ∧ s_regions s' = s_regions s ∧
  s_kernel_virt_hint s' = s_kernel_virt_hint s ∧ s_initialized s' = s_initialized s.

(** The rollback gives all pages of the list back. *)
Lemma vmm_free_pages_spec fs s : mapped_to fs 0 (pages s) → s_kernel_pml4 s = root → s_initialized s = true →
  ∃ r s', vmm_free_pages vbase (Z.of_nat (length fs)) s = Ret (r, s') ∧ same_vmm s s' ∧
    mapped_to fs (Z.of_nat (length fs)) (pages s').
Proof using Hv Hv0 Hvlt Hcount.
  intros Hm Hroot Hi. unfold vmm_free_pages. rewrite Hi. cbn [ccos_assert]. rewrite outcome_bind_ret.
  destruct (Z.eqb_spec (Z.of_nat (length fs)) 0) as [H0|H0]; [by exists VMM_ERR_INVALID, s; rewrite H0|].
  change (PAGE_SIZE - 1) with (2 ^ 12 - 1). rewrite mask_land by lia. change (2 ^ 12) with 4096.
  rewrite Hv. cbn [Z.eqb negb].
  destruct (for_range_ind (λ k t, same_vmm s t ∧ mapped_to fs k (pages t)) 0 (Z.of_nat (length fs)) (free_page vbase) s)
    as (t & -> & Hsame & Hm').
  - by split.
  - intros k t Hk [Hst Hmt]. unfold free_page. rewrite (proj1 Hst), Hroot. destruct (release_page_spec fs k t Hmt) as (p' & -> & Hm'); [lia|].
    eexists. split; [done|]. by split.
  - rewrite outcome_bind_ret. rewrite Z.max_r in Hm' by lia. do 2 eexists. split; [done|]. by split.
Qed.
Lemma alloc_loop_spec flags n fs s : fl = Z.lor flags VMAP_FLAG_WRITE → Z.of_nat n = count - Z.of_nat (length fs) → mapped_to fs 0 (pages s) →
  s_kernel_pml4 s = root → s_initialized s = true →
  ∃ ok s' fs', alloc_loop n (Z.of_nat (length fs)) vbase PAGE_SIZE flags s = Ret (ok, s') ∧ same_vmm s s' ∧
    if ok : bool then Z.of_nat (length fs') = count ∧ mapped_to fs' 0 (pages s')
    else mapped_to fs' (Z.of_nat (length fs')) (pages s').
Proof using Hfl Hv Hv0 Hvlt Hcount.
  intros Hfe. revert fs s. induction n as [|n IH]; intros fs s Hn Hm Hroot Hi; cbn [alloc_loop].
  { exists true, s, fs. split; [done|]. split; [done|]. split; [lia|done]. }
  rewrite vp_wrap by lia. destruct (alloc_one_spec flags fs s Hfe Hm Hroot) as (ok & p' & -> & Hok); [lia|].
  rewrite outcome_bind_ret. destruct ok.
  - destruct Hok as [f Hm']. destruct (IH (fs ++ [f]) (with_pages p' s)) as (ok & s' & fs' & He & Hsame & Hres);
      [rewrite length_app; cbn [length]; lia|done..|].
    exists ok, s', fs'. rewrite length_app in He. cbn [length] in He.
    replace (Z.of_nat (length fs) + 1) with (Z.of_nat (length fs + 1)) by lia. by split.
  - destruct (vmm_free_pages_spec fs (with_pages p' s) Hok Hroot Hi) as (r & s' & -> & Hsame & Hm').
    rewrite outcome_bind_ret. by exists false, s', fs.
Qed.

(** The first state of the loop. *)
Lemma mapped_to_nil : page_inv p0 root → (∀ j, 0 ≤ j < count → private (phys_mem p0) root (vp j) ∧ no_huge p0 root (vp j)) →
  mapped_to [] 0 p0.
Proof using Hcount.
  intros Hs Hok. assert (∀ j f, zlookup (A := Z) [] j ≠ Some f) as Hnil by (intros j f Hj%zlookup_Some_lt; cbn in Hj; lia).
  split; cbn [length]; try done; try lia; try (intros j f u Hj; by apply Hnil in Hj); try (intros j; lia).
  - constructor.
  - intros j f Hj. by apply Hnil in Hj.
  - by left.
Qed.
(** After the rollback every address translates as before. *)
Lemma rolled_back_mmu fs p u : mapped_to fs (Z.of_nat (length fs)) p → mmu p root u = mmu p0 root u.
Proof.
  intros Hm.
  destruct (decide (Exists (λ j, block 0 u = block 0 (vp j)) (seqZ 0 (Z.of_nat (length fs))))) as [He|Hn].
  - apply Exists_exists in He as (j & Hj%elem_of_seqZ & Hb).
    rewrite (mt_gone _ _ _ Hm j u) by (lia || done). symmetry.
    apply (mmu_block0 p0 root u (vp j) Hb). apply (mt_before _ _ _ Hm). lia.
  - apply (mt_out _ _ _ Hm). intros j Hj Hb. apply Hn, Exists_exists. exists j. split; [apply elem_of_seqZ; lia|done].
Qed.
End alloc.
End Vmm.
Import Vmm.

(** C10: [find_free_virt_range], for less than 1 GB, searches the general region from
    the hint [s_kernel_virt_hint] on: among the addresses at or above the hint it
    returns the lowest aligned one with room for the range beside all
    tracked regions and moves the hint behind it, and it reports a failure, with
    nothing changed, only if there is no such address at or above the hint. Room
    below the hint is never looked at, so the search can fail with room left there.
    The search terminates: the bound on its rounds is never what ends it. *)
Theorem find_free_virt_range_correct size s :
  KERNEL_GENERAL_BASE ≤ s_kernel_virt_hint s ≤ KERNEL_GENERAL_MAX → 0 < size < 2 ^ 30 →
  let al := range_alignment size in let h := s_kernel_virt_hint s in
  (∃ v, find_free_virt_range size s = (VMM_OK, v, with_hint (v + size) s) ∧ v mod al = 0 ∧ h ≤ v ∧ has_room v size s ∧
     ∀ w, w mod al = 0 → h ≤ w < v → ¬ has_room w size s) ∨
  (find_free_virt_range size s = (VMM_ERR_OOM, 0, s) ∧ ∀ w, w mod al = 0 → h ≤ w → ¬ has_room w size s).
Proof. apply find_free_virt_range_spec. Qed.

(** What mapping a range of 4 KB pages leaves behind when it succeeds: fresh frames,
    each mapped once, and nothing else changed. *)
Definition mapped_fresh (root vaddr fl count : Z) (p p' : page_state) : Prop :=
  ∃ fs, Z.of_nat (length fs) = count ∧ NoDup fs ∧
    (∀ j f, zlookup fs j = Some f → allocated (frames p) f = false ∧ allocated (frames p') f = true ∧ ¬ is_table root p' f ∧
       ∀ u, block 0 u = block 0 (vpage vaddr j) → mmu p' root u = Some (4096 * f + u mod 4096, map_entry (4096 * f) fl)) ∧
    ∀ u, (∀ j, 0 ≤ j < count → block 0 u ≠ block 0 (vpage vaddr j)) → mmu p' root u = mmu p root u.
(** The pages of the kernel are writable. *)
Definition allocated_pages (root vaddr flags count : Z) : page_state → page_state → Prop :=
  mapped_fresh root vaddr (Z.lor flags VMAP_FLAG_WRITE) count.
(** ... and when it fails: only tables may have been added. *)
Definition rolled_back (root : Z) (p p' : page_state) : Prop :=
  (∀ u, mmu p' root u = mmu p root u) ∧
  ∀ f, 0 ≤ f < total_frames (frames p) → allocated (frames p') f = true → allocated (frames p) f = true ∨ is_table root p' f.

Lemma mapped_to_fresh root vaddr fl count fs p p' : mapped_to root vaddr fl count p fs 0 p' → Z.of_nat (length fs) = count →
  mapped_fresh root vaddr fl count p p'.
Proof.
  intros Hm Hlen. exists fs. split_and!; [done|apply Hm| |].
  - intros j f Hj. assert (0 ≤ j) by (apply zlookup_Some_lt in Hj; lia).
    destruct (mt_frame _ _ _ _ _ _ _ _ Hm j f Hj) as (_ & H0 & [? ?]); [done|]. split_and!; try done.
    intros u Hb. by apply (mt_in _ _ _ _ _ _ _ _ Hm j).
  - intros u Hu. apply (mt_out _ _ _ _ _ _ _ _ Hm). by rewrite Hlen.
Qed.
Lemma mapped_to_rolled_back root vaddr fl count fs p p' : mapped_to root vaddr fl count p fs (Z.of_nat (length fs)) p' →
  rolled_back root p p'.
Proof.
  intros Hm. split; [intros u; by eapply rolled_back_mmu|]. intros f Hf Ha. rewrite <- (mt_total _ _ _ _ _ _ _ _ Hm) in Hf.
  destruct (mt_taken _ _ _ _ _ _ _ _ Hm f Hf Ha) as [?|[(j & Hj & Hjf)|?]]; [by left| |by right]. apply zlookup_Some_lt in Hjf. lia.
Qed.

(** The hypotheses on a range of pages. *)
Record range_ready (root vaddr flags count : Z) (p : page_state) : Prop := {
  rr_flags : small_pages flags;
  rr_align : vaddr mod 4096 = 0;
  rr_range : 0 ≤ vaddr ∧ vaddr + 4096 * count ≤ 2 ^ 64 ∧ 0 ≤ count ≤ 2 ^ 36;
  rr_inv : page_inv p root;
  rr_walk j : 0 ≤ j < count → private (phys_mem p) root (vpage vaddr j) ∧ no_huge p root (vpage vaddr j) }.

Lemma alloc_loop_correct root vaddr flags count s : range_ready root vaddr flags count (pages s) →
  s_kernel_pml4 s = root → s_initialized s = true →
  ∃ ok s', alloc_loop (Z.to_nat count) 0 vaddr (page_size_of flags) flags s = Ret (ok, s') ∧ same_vmm s s' ∧
    page_inv (pages s') root ∧ if ok : bool then allocated_pages root vaddr flags count (pages s) (pages s')
                                else rolled_back root (pages s) (pages s').
Proof.
  intros [Hfl Hv (Hv0 & Hlt & Hc) Hs Hw] Hroot Hi. unfold page_size_of. rewrite (proj1 Hfl), (proj2 Hfl).
  destruct (alloc_loop_spec root vaddr (Z.lor flags VMAP_FLAG_WRITE) count (pages s) (small_pages_lor flags 0 Hfl ltac:(lia)) Hv Hv0 Hlt Hc flags (Z.to_nat count) [] s)
    as (ok & s' & fs & He & Hsame & Hres); [done|cbn; lia|by apply mapped_to_nil|done|done|].
  exists ok, s'. split; [exact He|]. split; [done|]. destruct ok.
  - destruct Hres as [Hlen Hm]. split; [apply Hm|]. by apply (mapped_to_fresh _ _ _ _ fs).
  - split; [apply Hres|]. by apply (mapped_to_rolled_back _ _ _ _ fs _ _ Hres).
Qed.

Lemma flush_inv root p : page_inv p root → page_inv (with_tlb ∅ p) root.
Proof. intros [? ? ? ? ? ? ?]. by split. Qed.

(** C11: [vmm_alloc_pages_at] for 4 KB pages (neither huge-page flag given), with no huge
    page and no shared table on the way to the range, is all or nothing: it maps every page of
    the range, writable, to a fresh frame of its own, records the region and
    drops cached translations, all other translations staying as they are; or it
    reports an error and every translation is as before, each frame it took for
    data having been given back. *)
Theorem vmm_alloc_pages_at_all_or_nothing root vaddr flags count s :
  range_ready root vaddr flags count (pages s) → s_kernel_pml4 s = root → s_initialized s = true →
  vmm_is_kernel_addr vaddr = true → 0 < count →
  ∃ r s', vmm_alloc_pages_at vaddr count flags s = Ret (r, s') ∧ page_inv (pages s') root ∧
    match r with
    | VMM_OK => allocated_pages root vaddr flags count (pages s) (pages s') ∧ tlb (pages s') = ∅ ∧
        (Z.of_nat (length (s_regions s)) < MAX_REGIONS →
         s_regions s' = s_regions s ++ [mk_region vaddr (vaddr ⊞ (count ⊠ 4096)) 0 flags name_pages])
    | VMM_ERR_OOM => rolled_back root (pages s) (pages s') ∧ s_regions s' = s_regions s
    | _ => False
    end.
Proof.
  intros Hr Hroot Hi Hk Hc. unfold vmm_alloc_pages_at. rewrite Hi, Hk. cbn [ccos_assert negb]. rewrite outcome_bind_ret.
  destruct (Z.eqb_spec count 0); [lia|].
  assert (page_size_of flags = 4096) as Hps by (unfold page_size_of; by rewrite (proj1 (rr_flags _ _ _ _ _ Hr)), (proj2 (rr_flags _ _ _ _ _ Hr))).
  destruct (alloc_loop_correct root vaddr flags count s Hr Hroot Hi) as (ok & s' & He & Hsame & Hs' & Hres).
  rewrite He, Hps. change (4096 - 1) with (2 ^ 12 - 1). rewrite mask_land by lia. change (2 ^ 12) with 4096.
  rewrite (rr_align _ _ _ _ _ Hr). cbn [Z.eqb negb]. rewrite outcome_bind_ret. destruct Hsame as (Hp & Hrg & Hh & Hin).
  destruct ok; cbn [negb].
  2: { exists VMM_ERR_OOM, s'. split_and!; done. }
  eexists VMM_OK, _. split; [done|].
  set (s2 := add_region vaddr (vaddr ⊞ (count ⊠ 4096)) 0 flags name_pages s').
  assert (pages s2 = pages s') as Hp2 by (unfold s2, add_region; by destruct (_ <=? _)).
  assert (∀ h, pages (flush_tlb (count_kernel count count (if s_kernel_virt_hint s2 <? h then with_hint h s2 else s2))) =
    with_tlb ∅ (pages s')) as Hp3 by (intros h; destruct (_ <? _); cbn; by rewrite Hp2).
  rewrite Hp3. split; [by apply flush_inv|]. split; [exact Hres|]. split; [done|]. intros Hroom.
  destruct (_ <? _); cbn; unfold s2, add_region; rewrite Hrg;
    (destruct (Z.leb_spec MAX_REGIONS (Z.of_nat (length (s_regions s)))); [unfold MAX_REGIONS in *; lia|done]).
Qed.

(** The general region of the kernel is not covered by huge pages and its tables
    are not shared between addresses. *)
Definition general_ready (root : Z) (p : page_state) : Prop :=
  ∀ u, KERNEL_GENERAL_BASE ≤ u < KERNEL_GENERAL_MAX → private (phys_mem p) root u ∧ no_huge p root u.

Lemma general_range_ready root flags count v p : flag_set flags VMAP_FLAG_HUGE_2MB = false ∧ flag_set flags VMAP_FLAG_HUGE_1GB = false →
  page_inv p root → general_ready root p → 0 < count → KERNEL_GENERAL_BASE ≤ v → v mod 4096 = 0 →
  v + count * 4096 ≤ KERNEL_GENERAL_MAX → range_ready root v flags count p.
Proof.
  intros Hfl Hs Hg Hc Hb Hm He. unfold KERNEL_GENERAL_MAX, KERNEL_GENERAL_BASE in *. split; [done|done|lia|done|].
  intros j Hj. unfold vpage. apply Hg. unfold KERNEL_GENERAL_MAX, KERNEL_GENERAL_BASE. lia.
Qed.

(** [vmm_alloc_pages] for 4 KB pages is all or nothing: it maps every page of
    the first aligned range of the general region with room beside all tracked
    regions, to fresh frames, and returns its address; or it returns 0 and every
    translation is as before, each frame it took for data having been given
    back. *)
Theorem vmm_alloc_pages_all_or_nothing root flags count s :
  flag_set flags VMAP_FLAG_HUGE_2MB = false ∧ flag_set flags VMAP_FLAG_HUGE_1GB = false →
  page_inv (pages s) root → general_ready root (pages s) → s_kernel_pml4 s = root → s_initialized s = true →
  KERNEL_GENERAL_BASE ≤ s_kernel_virt_hint s ≤ KERNEL_GENERAL_MAX → 0 < count < 2 ^ 18 →
  ∃ v s', vmm_alloc_pages count flags s = Ret (v, s') ∧ page_inv (pages s') root ∧
    if v =? 0 then rolled_back root (pages s) (pages s') ∧ s_regions s' = s_regions s
    else v mod 4096 = 0 ∧ KERNEL_GENERAL_BASE ≤ v ∧ has_room v (count * 4096) s ∧ s_kernel_virt_hint s' = v + count * 4096 ∧
      allocated_pages root v flags count (pages s) (pages s') ∧ tlb (pages s') = ∅ ∧
      (Z.of_nat (length (s_regions s)) < MAX_REGIONS →
       s_regions s' = s_regions s ++ [mk_region v (v + count * 4096) 0 flags name_pages]).
Proof.
  intros Hfl Hs Hg Hroot Hi Hh Hc. unfold vmm_alloc_pages. rewrite Hi. cbn [ccos_assert]. rewrite outcome_bind_ret.
  destruct (Z.eqb_spec count 0); [lia|].
  assert (page_size_of flags = 4096) as Hps by (unfold page_size_of; by rewrite (proj1 Hfl), (proj2 Hfl)).
  rewrite Hps, (u64_small (count * 4096)) by lia.
  destruct (find_free_virt_range_spec (count * 4096) s Hh ltac:(lia)) as [(v & He & Hal & Hv & Hroom & _)|[He _]]; rewrite He.
  2: { exists 0, s. split; [done|]. split; [done|]. split; [split; [done|by left]|done]. }
  cbn [negb bool_decide]. rewrite bool_decide_true by done. cbn [negb].
  assert (v mod 4096 = 0) as Hv4.
  { destruct (range_alignment_pow (count * 4096)) as (k & Hk & Hk12). rewrite Hk in Hal. change 4096 with (2 ^ 12).
    apply Z.mod_divide; [lia|]. apply Z.mod_divide in Hal; [|lia]. transitivity (2 ^ k); [|done].
    exists (2 ^ (k - 12)). rewrite <- Z.pow_add_r by lia. f_equal. lia. }
  assert (range_ready root v flags count (pages s)) as Hr.
  { apply general_range_ready; try done; [lia|lia|apply Hroom]. }
  destruct (alloc_loop_correct root v flags count (with_hint (v + count * 4096) s) Hr Hroot Hi)
    as (ok & s' & He' & (Hp & Hrg & Hh' & Hin) & Hs' & Hres).
  rewrite Hps in He'. rewrite He', outcome_bind_ret. cbn [pages with_hint] in Hres.
  assert (v ≠ 0) as Hv0 by (unfold KERNEL_GENERAL_BASE in *; lia).
  destruct ok; cbn [negb].
  2: { exists 0, s'. split_and!; done. }
  pose proof Hroom as [Hle _]. unfold KERNEL_GENERAL_MAX, KERNEL_GENERAL_BASE in Hle, Hh.
  rewrite (u64_small (v + _)) by lia.
  eexists v, _. split; [done|]. set (s2 := add_region _ _ _ _ _ _).
  assert (pages s2 = pages s' ∧ s_kernel_virt_hint s2 = s_kernel_virt_hint s') as [Hp2 Hh2] by (unfold s2, add_region; by destruct (_ <=? _)).
  cbn [pages flush_tlb count_kernel with_stats with_pages]. rewrite Hp2. split; [by apply flush_inv|].
  rewrite (proj2 (Z.eqb_neq _ _) Hv0). split_and!; try done; [unfold KERNEL_GENERAL_BASE; lia|by cbn; rewrite Hh2, Hh'|].
  intros Hlt. cbn. unfold s2, add_region. rewrite Hrg. cbn [s_regions with_hint].
  destruct (Z.leb_spec MAX_REGIONS (Z.of_nat (length (s_regions s)))); [lia|done].
Qed.

(** ** A new address space *)

(** A walk depends on the address of its first table only through the entry it
    reads there. *)
Lemma walk_same_entry n m t t' v : m !! (t + 8 * idx n v) = m !! (t' + 8 * idx n v) →
  mmu_walk n m t v = mmu_walk n m t' v ∧ tail (tabs n m t v) = tail (tabs n m t' v).
Proof. intros He. destruct n; cbn [mmu_walk tabs tail]; by rewrite He. Qed.

(** The copy of the words [lo] to [hi] of a page. *)
Lemma copy_entries_spec lo hi from to p : 0 ≤ lo ≤ hi → hi ≤ 512 →
  0 ≤ from → from + 4096 ≤ 2 ^ 64 → 0 ≤ to → to + 4096 ≤ 2 ^ 64 →
  from + 4096 ≤ to ∨ to + 4096 ≤ from →
  (∀ i, 0 ≤ i < 512 → is_Some (phys_mem p !! (from + 8 * i)) ∧ is_Some (phys_mem p !! (to + 8 * i))) →
  ∃ m, for_range lo hi (copy_entry from to) p = Ret (with_mem m p) ∧
    (∀ i, lo ≤ i < hi → m !! (to + 8 * i) = phys_mem p !! (from + 8 * i)) ∧
    (∀ w, w < to + 8 * lo ∨ to + 4096 ≤ w → m !! w = phys_mem p !! w) ∧ dom m = dom (phys_mem p).
Proof.
  intros Hlo Hhi Hf Hf' Ht Ht' Hd Hmem.
  destruct (for_range_ind (λ i p', ∃ m, p' = with_mem m p ∧
      (∀ j, lo ≤ j < i → m !! (to + 8 * j) = phys_mem p !! (from + 8 * j)) ∧
      (∀ w, w < to + 8 * lo ∨ to + 4096 ≤ w → m !! w = phys_mem p !! w) ∧ dom m = dom (phys_mem p))
    lo hi (copy_entry from to) p) as (p' & Hr & m & -> & Hz & Ho & Hdm).
  - exists (phys_mem p). split_and!; [by destruct p|intros; lia|done|done].
  - intros i p' Hi (m & -> & Hz & Ho & Hdm). destruct (Hmem i) as [[e He] Hs]; [lia|].
    assert (is_Some (m !! (to + 8 * i))) as Hs' by (rewrite <- elem_of_dom, Hdm, elem_of_dom; done).
    assert (m !! (from + 8 * i) = Some e) as He' by (rewrite Ho by lia; done).
    unfold copy_entry, phys_to_virt_offset. rewrite !(Z.add_comm _ KERNEL_VIRT_BASE).
    change (KERNEL_VIRT_BASE ⊞ ?a ⊞ 8 * i) with (entry_at a i).
    rewrite (ld_entry _ from i e) by (done || lia). rewrite outcome_bind_ret, sto_entry by (done || lia). eexists. split; [done|].
    exists (<[to + 8 * i := e]> m). split_and!; [done|..].
    + intros j Hj. destruct (decide (i = j)) as [->|]; [by rewrite lookup_insert_eq|].
      rewrite lookup_insert_ne by lia. apply Hz. lia.
    + intros w Hw. rewrite lookup_insert_ne by lia. by apply Ho.
    + rewrite dom_insert_L, Hdm. apply elem_of_dom in Hs'. rewrite Hdm in Hs'. set_solver.
  - exists m. rewrite Z.max_r in * by lia. done.
Qed.

Section user_space.
  Context (root f : Z) (p p' : page_state).
  Hypothesis (Hs : page_inv p root) (Hf : 0 < f < total_frames (frames p)) (Hfree : allocated (frames p) f = false).
  Hypothesis (Hch : changed (frames p) (frames p') f 1 true) (Hinv : Pframe.inv (frames p')).
  Hypothesis (Hflags : Page.s_initialized p' = Page.s_initialized p ∧ Page.s_direct_map_established p' = Page.s_direct_map_established p).
  Hypothesis (Hlow : ∀ i, 0 ≤ i < 256 → phys_mem p' !! (4096 * f + 8 * i) = Some 0).
  Hypothesis (Hhigh : ∀ i, 256 ≤ i < 512 → phys_mem p' !! (4096 * f + 8 * i) = phys_mem p !! (root + 8 * i)).
  Hypothesis (Hrest : ∀ w, w < 4096 * f ∨ 4096 * f + 4096 ≤ w → phys_mem p' !! w = phys_mem p !! w).
  Hypothesis (Hdom : dom (phys_mem p') = dom (phys_mem p)).

Lemma us_table u k t i : tabs 3 (phys_mem p) root u !! k = Some t → 0 ≤ i < 512 →
  phys_mem p' !! (t + 8 * i) = phys_mem p !! (t + 8 * i).
Proof using Hs Hfree Hrest.
  intros Ht Hi. destruct (pi_tab _ _ Hs _ _ _ Ht) as (g & -> & Hg & Ha). apply Hrest.
  assert (g ≠ f) by congruence. lia.
Qed.
Lemma us_root u : mmu p' root u = mmu p root u ∧ tabs 3 (phys_mem p') root u = tabs 3 (phys_mem p) root u.
Proof using Hs Hfree Hrest. apply walk_agree. intros k a Ha. eapply us_table; [done|apply idx_range]. Qed.
Lemma us_low u : idx 3 u < 256 → mmu p' (4096 * f) u = None ∧ tabs 3 (phys_mem p') (4096 * f) u = [4096 * f].
Proof using Hlow. intros Hu. pose proof (idx_range 3 u). eapply (walk_absent 3); [apply Hlow; lia|done]. Qed.
Lemma us_high u : 256 ≤ idx 3 u → mmu p' (4096 * f) u = mmu p root u ∧
  ∃ l, tabs 3 (phys_mem p') (4096 * f) u = 4096 * f :: l ∧ tabs 3 (phys_mem p) root u = root :: l.
Proof using Hs Hfree Hrest Hhigh.
  intros Hu. pose proof (idx_range 3 u) as Hi. destruct (us_root u) as [<- Ht].
  destruct (walk_same_entry 3 (phys_mem p') (4096 * f) root u) as [Hm Hl].
  { rewrite Hhigh by lia. symmetry. by apply (us_table u 0). }
  split; [exact Hm|]. exists (tail (tabs 3 (phys_mem p') root u)). split; [by rewrite <- Hl|]. by rewrite Ht.
Qed.
Lemma us_allocated g : 0 ≤ g < total_frames (frames p) → allocated (frames p) g = true → allocated (frames p') g = true.
Proof using Hch Hfree. intros Hg Ha. rewrite (changed_other _ _ _ _ _ Hch Hg); [done|congruence]. Qed.

(** Both address spaces are in order. *)
Lemma us_inv t : (t = root ∨ t = 4096 * f) → page_inv p' t.
Proof using Hs Hf Hfree Hch Hinv Hflags Hlow Hhigh Hrest Hdom.
  intros Ht. pose proof Hch as (Htot & Hini & Hst).
  assert (∀ v k a, tabs 3 (phys_mem p') t v !! k = Some a →
    (k = 0%nat ∧ t = a ∧ a = 4096 * f) ∨ tabs 3 (phys_mem p) root v !! k = Some a) as Hcase.
  { intros v k a Ha. destruct Ht as [->| ->]; [right; by rewrite (proj2 (us_root v)) in Ha|].
    destruct k as [|k]; [left; by injection Ha as <-|right].
    destruct (Z.lt_ge_cases (idx 3 v) 256) as [Hv|Hv]; [by rewrite (proj2 (us_low v Hv)) in Ha|].
    destruct (proj2 (us_high v Hv)) as (l & Hl & Hl'). rewrite Hl in Ha. by rewrite Hl'. }
  split.
  - done.
  - rewrite Hini. apply Hs.
  - apply us_allocated; [lia|apply Hs].
  - intros w Hw Hw8. rewrite <- elem_of_dom, Hdom, elem_of_dom. apply (pi_mem _ _ Hs); [by rewrite Htot in Hw|done].
  - intros v k a Ha. rewrite Htot. destruct (Hcase _ _ _ Ha) as [(-> & -> & ->)|Ha'].
    + exists f. split_and!; [done|lia|lia|]. apply (changed_self _ _ _ _ Hch). lia.
    + destruct (pi_tab _ _ Hs _ _ _ Ha') as (g & -> & Hg & Hal). exists g. split_and!; [done|lia|lia|].
      apply us_allocated; [lia|done].
  - intros v k a e [Ha He] Hk Hp. pose proof (idx_range (3 - k) v) as Hi. pose proof (idx_range 3 v) as Hi3. destruct (Hcase _ _ _ Ha) as [(-> & -> & ->)|Ha'].
    + destruct (Z.lt_ge_cases (idx 3 v) 256) as [Hv|Hv].
      * cbn [Nat.sub] in He. rewrite Hlow in He by lia. by injection He as <-.
      * cbn [Nat.sub] in He. rewrite Hhigh in He by lia. by apply (pi_absent _ _ Hs v 0 root e).
    + apply (pi_absent _ _ Hs v k a e); [|done..]. split; [done|]. by rewrite <- (us_table v k a).
  - destruct Hflags as [-> ->]. apply Hs.
Qed.
End user_space.

Lemma create_user_space_spec root out s :
  page_inv (pages s) root → s_kernel_pml4 s = root → s_initialized s = true →
  ∃ r pml4 s', vmm_create_user_space out s = Ret (r, pml4, s') ∧
    match r with
    | VMM_OK => page_inv (pages s') root ∧ page_inv (pages s') pml4 ∧
        (∃ f, pml4 = 4096 * f ∧ allocated (frames (pages s)) f = false ∧ changed (frames (pages s)) (frames (pages s')) f 1 true) ∧
        (∀ u, idx 3 u < 256 → mmu (pages s') pml4 u = None) ∧
        (∀ u, 256 ≤ idx 3 u → mmu (pages s') pml4 u = mmu (pages s) root u) ∧
        (∀ u, mmu (pages s') root u = mmu (pages s) root u) ∧
        page_tables (s_stats s') = page_tables (s_stats s) ⊞ 1
    | VMM_ERR_OOM => pml4 = out ∧ s' = s ∧
        ∀ f, 0 ≤ f < total_frames (frames (pages s)) → allocated (frames (pages s)) f = true
    | _ => False
    end.
Proof.
  intros Hs Hroot Hi. unfold vmm_create_user_space. rewrite Hi. cbn [ccos_assert]. rewrite outcome_bind_ret.
  destruct (create_table_spec out (pages s) root Hs) as [(f & fr & m1 & -> & Hf & Hfree & Hch & Hinv & Hz & Ho & Hd)|[-> Hfull]];
    rewrite outcome_bind_ret.
  2: { exists VMM_ERR_OOM, out, s. split; [by destruct s|done]. }
  rewrite bool_decide_true by done. cbn [negb Vmm.s_kernel_pml4 with_pages pages]. rewrite Hroot.
  destruct (pi_tab _ _ Hs 0 0 root) as (g & -> & Hg & Hga); [done|]. assert (g ≠ f) by congruence.
  pose proof (inv_small _ (pi_frames _ _ Hs)).
  assert (∀ h i, 0 < h < total_frames (frames (pages s)) → 0 ≤ i < 512 → is_Some (m1 !! (4096 * h + 8 * i))) as Hmem.
  { intros h i Hh Hi'. rewrite <- elem_of_dom, Hd, elem_of_dom. apply (pi_mem _ _ Hs); [lia|].
    replace (4096 * h + 8 * i) with ((512 * h + i) * 8) by lia. apply Z.mod_mul. lia. }
  destruct (copy_entries_spec 256 512 (4096 * g) (4096 * f) (with_mem m1 (with_frames fr (pages s)))) as (m & -> & Hhigh & Hrest & Hdm);
    [lia..|intros i Hi'; split; by apply Hmem|]. rewrite outcome_bind_ret.
  cbn [phys_mem with_mem with_frames] in *.
  set (p' := with_mem m _).
  assert (∀ i, 0 ≤ i < 256 → phys_mem p' !! (4096 * f + 8 * i) = Some 0) as Hlow'.
  { intros i Hi'. cbn. rewrite Hrest by lia. apply Hz. lia. }
  assert (∀ i, 256 ≤ i < 512 → phys_mem p' !! (4096 * f + 8 * i) = phys_mem (pages s) !! (4096 * g + 8 * i)) as Hhigh'.
  { intros i Hi'. cbn. rewrite Hhigh by lia. apply Ho. lia. }
  assert (∀ w, w < 4096 * f ∨ 4096 * f + 4096 ≤ w → phys_mem p' !! w = phys_mem (pages s) !! w) as Hrest'.
  { intros w Hw. cbn. rewrite Hrest by lia. by apply Ho. }
  assert (dom (phys_mem p') = dom (phys_mem (pages s))) as Hdom' by (cbn; by rewrite Hdm).
  eexists VMM_OK, _, _. split; [done|]. cbn [pages count_tables with_stats with_pages]. split_and!; [..|done].
  - apply (us_inv (4096 * g) f (pages s) p'); auto.
  - apply (us_inv (4096 * g) f (pages s) p'); auto.
  - by exists f.
  - intros u Hu. by apply us_low.
  - intros u Hu. by apply (us_high (4096 * g) f (pages s) p').
  - intros u. by apply (us_root (4096 * g) f (pages s) p').
Qed.
(** [vmm_create_user_space] takes a free frame for the PML4 of a new address
    space in which the kernel half translates exactly as in the kernel's tables
    and the user half is unmapped; the kernel's own translations are untouched and
    both sets of tables are in order afterwards. It fails, changing nothing, only
    when every frame is in use. *)
Theorem vmm_create_user_space_correct root out s :
  page_inv (pages s) root → s_kernel_pml4 s = root → s_initialized s = true →
  ∃ r pml4 s', vmm_create_user_space out s = Ret (r, pml4, s') ∧
    match r with
    | VMM_OK => page_inv (pages s') root ∧ page_inv (pages s') pml4 ∧
        (∃ f, pml4 = 4096 * f ∧ allocated (frames (pages s)) f = false ∧ changed (frames (pages s)) (frames (pages s')) f 1 true) ∧
        (∀ u, idx 3 u < 256 → mmu (pages s') pml4 u = None) ∧
        (∀ u, 256 ≤ idx 3 u → mmu (pages s') pml4 u = mmu (pages s) root u) ∧
        (∀ u, mmu (pages s') root u = mmu (pages s) root u) ∧
        page_tables (s_stats s') = page_tables (s_stats s) ⊞ 1
    | VMM_ERR_OOM => pml4 = out ∧ s' = s ∧
        ∀ f, 0 ≤ f < total_frames (frames (pages s)) → allocated (frames (pages s)) f = true
    | _ => False
    end.
Proof. apply create_user_space_spec. Qed.

(** ** Tearing an address space down *)

(** [p'] is [p] with the frames of the set [S] given back. *)
Record frees (S : Z → Prop) (p p' : page_state) : Prop := {
  fr_mem : phys_mem p' = phys_mem p;
  fr_total : total_frames (frames p') = total_frames (frames p);
  fr_init : initialized (frames p') = initialized (frames p);
  fr_inv : Pframe.inv (frames p) → Pframe.inv (frames p');
  fr_started : Page.s_initialized p' = Page.s_initialized p;
  fr_alloc g : 0 ≤ g < total_frames (frames p) →
    allocated (frames p') g = true ↔ allocated (frames p) g = true ∧ ¬ S g }.
(** What [page_free_table] relies on. *)
Record running (p : page_state) : Prop := {
  ru_inv : Pframe.inv (frames p); ru_init : initialized (frames p) = true; ru_started : Page.s_initialized p = true }.
Lemma frees_running S p p' : frees S p p' → running p → running p'.
Proof. intros [? ? ? ? ? ?] [? ? ?]. split; auto; congruence. Qed.
Lemma frees_ext S T p p' : (∀ g, S g ↔ T g) → frees S p p' → frees T p p'.
Proof. intros He [? ? ? ? ? Ha]. split; try done. intros g Hg. by rewrite Ha, He. Qed.
Lemma frees_nothing S p : (∀ g, ¬ S g) → frees S p p.
Proof. intros Hn. split; try done. intros g _. specialize (Hn g). tauto. Qed.
Lemma frees_trans S T p1 p2 p3 : frees S p1 p2 → frees T p2 p3 → frees (λ g, S g ∨ T g) p1 p3.
Proof.
  intros [M1 T1 I1 V1 G1 A1] [M2 T2 I2 V2 G2 A2]. split; [congruence..|auto|congruence|].
  intros g Hg. rewrite A2 by (by rewrite T1). rewrite A1 by done. tauto.
Qed.
Lemma for_range_frees (S : Z → Z → Prop) a b body p : running p →
  (∀ i p', a ≤ i < b → running p' → phys_mem p' = phys_mem p → total_frames (frames p') = total_frames (frames p) →
     ∃ p'', body i p' = Ret p'' ∧ frees (S i) p' p'') →
  ∃ p', for_range a b body p = Ret p' ∧ frees (λ g, ∃ i, a ≤ i < b ∧ S i g) p p'.
Proof.
  intros Hp Hbody. destruct (for_range_ind (λ k p', frees (λ g, ∃ i, a ≤ i < k ∧ S i g) p p') a b body p) as (p' & Hr & Hf).
  - apply frees_nothing. intros g (i & Hi & _). lia.
  - intros i p1 Hi H1. destruct (Hbody i p1 Hi (frees_running _ _ _ H1 Hp) (fr_mem _ _ _ H1) (fr_total _ _ _ H1)) as (p2 & Hb & H2).
    exists p2. split; [done|]. eapply frees_ext; [|exact (frees_trans _ _ _ _ _ H1 H2)]. intros g. split.
    + intros [(j & Hj & Hs)|Hs]; [exists j|exists i]; split; [lia|done|lia|done].
    + intros (j & Hj & Hs). destruct (decide (j = i)) as [->|]; [by right|left]. exists j. split; [lia|done].
  - exists p'. split; [done|]. eapply frees_ext; [|exact Hf]. intros g. split; intros (j & Hj & Hs); exists j; (split; [lia|done]).
Qed.

Lemma page_free_table_spec p g : running p → 0 < g < total_frames (frames p) →
  ∃ r p', page_free_table (4096 * g) p = Ret (r, p') ∧ frees (λ h, 4096 * h = 4096 * g) p p'.
Proof.
  intros [Hinv Hi Hst] Hg. unfold page_free_table. rewrite Hst. cbn [ccos_assert]. rewrite outcome_bind_ret.
  pose proof (pframe_free_step (frames p) (4096 * g) g (allocated (frames p) g) Hinv Hi ltac:(lia)) as Hf.
  destruct (allocated (frames p) g) eqn:Ha.
  - destruct Hf as (x & -> & Hch & Hx); [apply is_page_aligned_iff; exists g; lia|by rewrite Z.mul_comm, Z.div_mul|lia|done|].
    rewrite outcome_bind_ret. eexists _, _. split; [done|]. pose proof Hch as (Ht & Hin & _). split; try done.
    intros h Hh. cbn [frames with_frames]. destruct (decide (h = g)) as [->|Hne].
    + rewrite (changed_self _ _ _ _ Hch) by lia. split; [done|]. intros [_ Hn]. by destruct Hn.
    + rewrite (changed_other _ _ _ _ _ Hch Hh Hne). split; [intros ?; split; [done|lia]|tauto].
  - rewrite Hf by (try apply is_page_aligned_iff; try (exists g; lia); try (by rewrite Z.mul_comm, Z.div_mul); lia || done).
    rewrite outcome_bind_ret. eexists _, _. split; [done|]. split; try done.
    intros h Hh. cbn [frames with_frames]. split; [|tauto]. intros Hah. split; [done|].
    intros He. assert (h = g) as -> by lia. congruence.
Qed.

(** The tables below an entry, by recursion on the level, and what it takes to
    read them. *)
Fixpoint under (n : nat) (m : gmap Z Z) (t i g : Z) : Prop :=
  match n with
  | O => False
  | S n' => ∃ e, m !! (t + 8 * i) = Some e ∧ present e = true ∧ is_leaf n e = false ∧
      ((∃ j, 0 ≤ j < 512 ∧ under n' m (frame_addr e) j g) ∨ 4096 * g = frame_addr e)
  end.
Fixpoint readable (n : nat) (m : gmap Z Z) (total t i : Z) : Prop :=
  0 ≤ t < 2 ^ 48 ∧ 0 ≤ i < 512 ∧
  match n with
  | O => is_Some (m !! (t + 8 * i))
  | S n' => ∃ e, m !! (t + 8 * i) = Some e ∧ (n = 2%nat → present e = true → pat e = false) ∧
      (present e = true → is_leaf n e = false → (∃ f, frame_addr e = 4096 * f ∧ 0 < f < total) ∧
         ∀ j, 0 ≤ j < 512 → readable n' m total (frame_addr e) j)
  end.
Lemma entry_ld p t i e : 0 ≤ t < 2 ^ 48 → 0 ≤ i < 512 → phys_mem p !! (t + 8 * i) = Some e → entry t i p = Ret e.
Proof.
  intros Ht Hi He. unfold entry, phys_to_virt_offset. rewrite (Z.add_comm t). change (KERNEL_VIRT_BASE ⊞ t ⊞ 8 * i) with (entry_at t i).
  apply ld_entry; [lia..|done].
Qed.

(** The three destructors free what is under their entry. *)
Lemma destroy_pde_spec p t i : running p → readable 1 (phys_mem p) (total_frames (frames p)) t i →
  ∃ p', destroy_pde t i p = Ret p' ∧ frees (under 1 (phys_mem p) t i) p p'.
Proof.
  intros Hp (Ht & Hi & e & He & _ & Hdown). unfold destroy_pde. rewrite (entry_ld _ _ _ _ Ht Hi He), outcome_bind_ret.
  assert (∀ b, present e && negb (pat e) = b → b = false → frees (under 1 (phys_mem p) t i) p p) as Hnone.
  { intros b <- Hb. apply frees_nothing. intros g (e' & He' & Hpr & Hl & _). assert (e' = e) as -> by congruence.
    cbn [is_leaf] in Hl. by rewrite Hpr, Hl in Hb. }
  destruct (present e) eqn:Hpr; cbn [negb]; [|exists p; split; [done|by eapply Hnone]].
  destruct (pat e) eqn:Hpat; [exists p; split; [done|by eapply Hnone]|].
  destruct (Hdown eq_refl Hpat) as ((f & Hf & Hfr) & Hlow).
  destruct (for_range_frees (λ _ _, False) 0 512 (λ l p, _ ← entry (frame_addr e) l p; Ret p) p Hp) as (p1 & -> & H1).
  { intros l p' Hl _ Hm _. destruct (Hlow l Hl) as (Hf' & _ & x & Hx). rewrite <- Hm in Hx.
    rewrite (entry_ld _ _ _ _ Hf' Hl Hx). exists p'. split; [done|]. apply frees_nothing. intros g []. }
  rewrite outcome_bind_ret. unfold free_table_of. rewrite Hf.
  destruct (page_free_table_spec p1 f (frees_running _ _ _ H1 Hp)) as (r & p2 & -> & H2); [by rewrite (fr_total _ _ _ H1)|].
  exists p2. split; [done|]. eapply frees_ext; [|exact (frees_trans _ _ _ _ _ H1 H2)]. intros g. cbn [under]. split.
  - intros [(? & _ & [])|Hg]. exists e. split_and!; try done. right. by rewrite Hf.
  - intros (e' & He' & _ & _ & [(? & _ & [])|Hg]). right. assert (e' = e) as -> by congruence. by rewrite <- Hf.
Qed.

(** Freeing all that hangs below a table entry, and then the table. *)
Lemma destroy_level n p t i e (body : Z → Z → page_state → outcome page_state) : running p →
  readable (S n) (phys_mem p) (total_frames (frames p)) t i → phys_mem p !! (t + 8 * i) = Some e → is_leaf (S n) e = false →
  present e = true →
  (∀ j p', running p' → readable n (phys_mem p') (total_frames (frames p')) (frame_addr e) j →
     ∃ p'', body (frame_addr e) j p' = Ret p'' ∧ frees (under n (phys_mem p') (frame_addr e) j) p' p'') →
  ∃ p', (p ← for_range 0 512 (body (frame_addr e)) p; free_table_of e p) = Ret p' ∧ frees (under (S n) (phys_mem p) t i) p p'.
Proof.
  intros Hp (Ht & Hi & e' & He' & _ & Hdown) He Hl Hpr Hbody. assert (e' = e) as -> by congruence.
  destruct (Hdown Hpr Hl) as ((f & Hf & Hfr) & Hlow).
  destruct (for_range_frees (under n (phys_mem p) (frame_addr e)) 0 512 (body (frame_addr e)) p Hp) as (p1 & -> & H1).
  { intros j p' Hj Hp' Hm Htot. destruct (Hbody j p' Hp') as (p'' & Hb & Hfs).
    - rewrite Hm, Htot. by apply Hlow.
    - exists p''. rewrite <- Hm. done. }
  rewrite outcome_bind_ret. unfold free_table_of. rewrite Hf.
  destruct (page_free_table_spec p1 f (frees_running _ _ _ H1 Hp)) as (r & p2 & -> & H2); [by rewrite (fr_total _ _ _ H1)|].
  exists p2. split; [done|]. eapply frees_ext; [|exact (frees_trans _ _ _ _ _ H1 H2)]. intros g. cbn [under]. rewrite <- Hf. split.
  - intros Hg. exists e. done.
  - intros (e2 & He2 & _ & _ & Hg). assert (e2 = e) as -> by congruence. done.
Qed.
Lemma under_absent n m t i e g : m !! (t + 8 * i) = Some e → present e = false → ¬ under (S n) m t i g.
Proof. intros He Hp (e' & He' & Hp' & _). congruence. Qed.
Lemma destroy_pdpte_spec p t i : running p → readable 2 (phys_mem p) (total_frames (frames p)) t i →
  ∃ p', destroy_pdpte t i p = Ret p' ∧ frees (under 2 (phys_mem p) t i) p p'.
Proof.
  intros Hp Hr. pose proof Hr as (Ht & Hi & e & He & Hpat & _). unfold destroy_pdpte. rewrite (entry_ld _ _ _ _ Ht Hi He), outcome_bind_ret.
  destruct (present e) eqn:Hpr; cbn [negb].
  2: { exists p. split; [done|]. apply frees_nothing. intros g. by eapply under_absent. }
  apply (destroy_level 1 p t i e destroy_pde); try done; [by apply Hpat|]. intros j p'. apply destroy_pde_spec.
Qed.
Lemma destroy_pml4e_spec p t i : running p → readable 3 (phys_mem p) (total_frames (frames p)) t i →
  ∃ p', destroy_pml4e t i p = Ret p' ∧ frees (under 3 (phys_mem p) t i) p p'.
Proof.
  intros Hp Hr. pose proof Hr as (Ht & Hi & e & He & _). unfold destroy_pml4e. rewrite (entry_ld _ _ _ _ Ht Hi He), outcome_bind_ret.
  destruct (present e) eqn:Hpr; cbn [negb].
  2: { exists p. split; [done|]. apply frees_nothing. intros g. by eapply under_absent. }
  apply (destroy_level 2 p t i e destroy_pdpte); try done. intros j p'. apply destroy_pdpte_spec.
Qed.

(** An address with a given index at level [n] and the indices of [u] above. *)
Lemma set_idx u n i : 0 ≤ i < 512 → ∃ u', idx n u' = i ∧ ∀ l, (n < l)%nat → idx l u' = idx l u.
Proof.
  intros Hi. set (B := 2 ^ (12 + 9 * Z.of_nat n)). assert (0 < B) as HB by (apply Z.pow_pos_nonneg; lia).
  exists ((u / (B * 512) * 512 + i) * B). split.
  - unfold idx. fold B. rewrite Z.div_mul by lia. rewrite Z.add_comm, Z.mod_add by lia. apply Z.mod_small. lia.
  - intros l Hl. unfold idx.
    replace (2 ^ (12 + 9 * Z.of_nat l)) with (B * 512 * 2 ^ (9 * Z.of_nat (l - n - 1))).
    2: { unfold B. change 512 with (2 ^ 9). rewrite <- !Z.pow_add_r by lia. f_equal. lia. }
    rewrite <- !(Z.div_div _ (B * 512)) by lia. do 2 f_equal.
    replace ((u / (B * 512) * 512 + i) * B) with (u / (B * 512) * (B * 512) + i * B) by lia.
    assert (0 ≤ i * B < B * 512) by nia. clearbody B. rewrite Z.div_add_l by lia. rewrite (Z.div_small (i * B)) by done. lia.
Qed.

(** No 1 GB pages in the user half. *)
Definition no_user_1gb (p : page_state) (pml4 : Z) : Prop :=
  ∀ u a e, idx 3 u < 256 → reads (phys_mem p) pml4 u 1 a e → present e = true → pat e = false.
Lemma tables_readable n p pml4 u k t i : page_inv p pml4 → no_user_1gb p pml4 → (k + n = 3)%nat →
  tabs 3 (phys_mem p) pml4 u !! k = Some t → 0 ≤ i < 512 → (if k is O then i < 256 else idx 3 u < 256) →
  readable n (phys_mem p) (total_frames (frames p)) t i.
Proof.
  intros Hs Hno. revert u k t i. induction n as [|n IH]; intros u k t i Hk Ht Hi Hu.
  - destruct (pi_table p pml4 u k t i Hs Ht Hi) as (? & ? & ? & ? & ?). cbn [readable]. split_and!; lia || done.
  - destruct (set_idx u (3 - k) i Hi) as (u' & Hidx & Hup).
    assert (tabs 3 (phys_mem p) pml4 u' !! k = Some t) as Ht'.
    { rewrite (tabs_same 3 _ pml4 u' u k); [done|]. intros l Hl. apply Hup. lia. }
    assert (idx 3 u' < 256) as Hu'.
    { destruct k; [by rewrite <- Hidx in Hu|]. rewrite Hup by lia. done. }
    destruct (step_down p pml4 u' k t Hs Ht') as (e & _ & Hrd & Hon & _); [lia|].
    destruct (pi_table p pml4 u' k t i Hs Ht' Hi) as (? & ? & ? & ? & _). pose proof Hrd as [_ He]. rewrite Hidx in He.
    cbn [readable]. split_and!; [lia..|]. exists e. split_and!; [done| |].
    + intros Hn Hp. apply (Hno u' t e Hu'); [|done]. replace k with 1%nat in Hrd by lia. done.
    + intros Hp Hl. replace (3 - k)%nat with (S n) in Hon by lia.
      assert (tabs 3 (phys_mem p) pml4 u' !! S k = Some (frame_addr e)) as Hd by (apply Hon; cbn [goes_on]; by rewrite Hp, Hl).
      split.
      * destruct (pi_tab _ _ Hs _ _ _ Hd) as (f & Hf & Hfr & _). by exists f.
      * intros j Hj. apply (IH u' (S k)); [lia|done..].
Qed.

(** The tables of the user half, with the PML4. *)
Definition user_table (p : page_state) (pml4 g : Z) : Prop :=
  (∃ i, 0 ≤ i < 256 ∧ under 3 (phys_mem p) pml4 i g) ∨ 4096 * g = pml4.

Lemma destroy_user_space_spec pml4 s :
  page_inv (pages s) pml4 → no_user_1gb (pages s) pml4 → s_initialized s = true →
  ∃ s', vmm_destroy_user_space pml4 s = Ret (VMM_OK, s') ∧ phys_mem (pages s') = phys_mem (pages s) ∧
    Pframe.inv (frames (pages s')) ∧ page_tables (s_stats s') = page_tables (s_stats s) ⊟ 1 ∧
    ∀ g, 0 ≤ g < total_frames (frames (pages s)) →
      allocated (frames (pages s')) g = true ↔ allocated (frames (pages s)) g = true ∧ ¬ user_table (pages s) pml4 g.
Proof.
  intros Hs Hno Hi. unfold vmm_destroy_user_space. rewrite Hi. cbn [ccos_assert]. rewrite outcome_bind_ret.
  assert (running (pages s)) as Hrun by (split; apply Hs).
  destruct (for_range_frees (under 3 (phys_mem (pages s)) pml4) 0 256 (destroy_pml4e pml4) (pages s) Hrun) as (p1 & -> & H1).
  { intros i p' Hi' Hp' Hm Ht. destruct (destroy_pml4e_spec p' pml4 i Hp') as (p'' & Hb & Hf).
    - rewrite Hm, Ht. apply (tables_readable 3 _ pml4 0 0); [done..|lia|lia].
    - exists p''. rewrite <- Hm. done. }
  rewrite outcome_bind_ret. destruct (pi_tab _ _ Hs 0 0 pml4) as (f & -> & Hf & _); [done|].
  destruct (page_free_table_spec p1 f (frees_running _ _ _ H1 Hrun)) as (r & p2 & -> & H2); [by rewrite (fr_total _ _ _ H1)|].
  rewrite outcome_bind_ret. pose proof (frees_trans _ _ _ _ _ H1 H2) as H12. eexists. split; [done|].
  cbn [pages count_tables with_stats with_pages snd s_stats]. split_and!.
  - apply H12.
  - apply H12, Hs.
  - done.
  - intros g Hg. apply (fr_alloc _ _ _ H12 g Hg).
Qed.
(** C12: [vmm_destroy_user_space] gives back the frame of the PML4 and of every page
    table below its user half, each exactly if it was in use, and no other frame:
    neither the tables of the kernel half nor the mapped data. Memory itself is
    not written. The user half must hold no 1 GB page ([no_user_1gb]): its frame
    would be read as a page directory and given back. *)
Theorem vmm_destroy_user_space_frees_tables pml4 s :
  page_inv (pages s) pml4 → no_user_1gb (pages s) pml4 → s_initialized s = true →
  ∃ s', vmm_destroy_user_space pml4 s = Ret (VMM_OK, s') ∧ phys_mem (pages s') = phys_mem (pages s) ∧
    Pframe.inv (frames (pages s')) ∧ page_tables (s_stats s') = page_tables (s_stats s) ⊟ 1 ∧
    ∀ g, 0 ≤ g < total_frames (frames (pages s)) →
      allocated (frames (pages s')) g = true ↔ allocated (frames (pages s)) g = true ∧ ¬ user_table (pages s) pml4 g.
Proof. apply destroy_user_space_spec. Qed.

(** ** Mappings for user programs *)

(** [vmm_map_to_user] repeats the loop of [page_map_range]. *)
Lemma map_user_loop_range n i pml4 vaddr paddr flags p : map_user_loop n i pml4 vaddr paddr flags p =
  (rs ← map_range_loop n i pml4 vaddr paddr flags p;
   Ret (bool_decide (fst (rs : Page.page_result * page_state) = PAGE_OK), snd rs)).
Proof.
  revert i p. induction n as [|n IH]; intros i p; cbn [map_user_loop map_range_loop]; [done|].
  destruct (page_map_page _ _ _ _ _ _) as [[r p']|]; [|done]. rewrite !outcome_bind_ret.
  destruct (bool_decide (r = PAGE_OK)) eqn:Hr; cbn [negb]; [apply IH|].
  destruct (page_unmap_range _ _ _ _) as [[r' p'']|]; [|done]. rewrite !outcome_bind_ret. cbn [fst snd]. by rewrite Hr.
Qed.

(** On a user address [vmm_map_to_user] is [page_map_range] with the user flag
    added, any failure being reported as out of memory and the pages being
    counted on success; other start addresses are refused. Together with
    [page_map_range_all_or_nothing] the whole range is mapped or nothing is. *)
Theorem vmm_map_to_user_is_page_map_range pml4 vaddr paddr count flags s :
  s_initialized s = true → Page.s_initialized (pages s) = true →
  vmm_map_to_user pml4 vaddr paddr count flags s =
    if vmm_is_user_addr vaddr then
      rs ← page_map_range pml4 vaddr paddr count (Z.lor flags VMAP_FLAG_USER) (pages s);
      match rs : Page.page_result * page_state with
      | (PAGE_OK, p) => Ret (VMM_OK, count_user count (with_pages p s))
      | (_, p) => Ret (VMM_ERR_OOM, with_pages p s)
      end
    else Ret (VMM_ERR_INVALID, s).
Proof.
  intros Hi Hp. unfold vmm_map_to_user, page_map_range. rewrite Hi, Hp. cbn [ccos_assert]. rewrite !outcome_bind_ret.
  destruct (vmm_is_user_addr vaddr); cbn [negb]; [|done]. rewrite map_user_loop_range.
  destruct (map_range_loop _ _ _ _ _ _ _) as [[r p]|]; [|done]. rewrite !outcome_bind_ret. cbn [fst snd]. by destruct r.
Qed.

(** ** Witnesses *)
Definition demo_vmm : vmm_state :=
  mk_vmm demo_page 4096 (mk_vstats 0 0 0 0 0) [mk_region KERNEL_GENERAL_BASE (KERNEL_GENERAL_BASE + 8192) 0 0 name_pages]
    KERNEL_GENERAL_BASE true.
Lemma demo_walk u : private (phys_mem (pages demo_vmm)) 4096 u ∧ no_huge (pages demo_vmm) 4096 u.
Proof. split; [apply demo_private|apply demo_no_huge]. Qed.

Lemma demo_search : fst (find_free_virt_range 4096 demo_vmm) = (VMM_OK, KERNEL_GENERAL_BASE + 8192).
Proof. vm_compute. reflexivity. Qed.
Lemma find_free_virt_range_witness :
  find_free_virt_range 4096 demo_vmm =
    (VMM_OK, KERNEL_GENERAL_BASE + 8192, with_hint (KERNEL_GENERAL_BASE + 8192 + 4096) demo_vmm) ∧
  ¬ has_room (KERNEL_GENERAL_BASE + 4096) 4096 demo_vmm.
Proof.
  destruct (find_free_virt_range_correct 4096 demo_vmm) as [(v & He & _ & _ & _ & Hno)|[He _]].
  - unfold demo_vmm, KERNEL_GENERAL_MAX. cbn [s_kernel_virt_hint]. lia.
  - lia.
  - pose proof demo_search as Hv. rewrite He in Hv. cbn [fst] in Hv. injection Hv as ->.
    split; [exact He|]. apply Hno; [reflexivity|]. unfold demo_vmm. cbn [s_kernel_virt_hint]. lia.
  - pose proof demo_search as Hv. rewrite He in Hv. discriminate Hv.
Defined.

Lemma demo_range_ready : range_ready 4096 KERNEL_GENERAL_BASE 0 3 (pages demo_vmm).
Proof. split; [done|reflexivity|vm_compute; done|exact demo_page_inv|]. intros j _. apply demo_walk. Qed.
Lemma vmm_alloc_pages_at_witness : ∃ r s', vmm_alloc_pages_at KERNEL_GENERAL_BASE 3 0 demo_vmm = Ret (r, s') ∧
  page_inv (pages s') 4096.
Proof.
  destruct (vmm_alloc_pages_at_all_or_nothing 4096 KERNEL_GENERAL_BASE 0 3 demo_vmm demo_range_ready eq_refl eq_refl eq_refl ltac:(lia))
    as (r & s' & H1 & H2 & _).
  exists r, s'. split; [exact H1|exact H2].
Defined.
Lemma vmm_alloc_pages_witness : ∃ v s', vmm_alloc_pages 3 0 demo_vmm = Ret (v, s') ∧ page_inv (pages s') 4096.
Proof.
  destruct (vmm_alloc_pages_all_or_nothing 4096 0 3 demo_vmm (conj eq_refl eq_refl) demo_page_inv (λ u _, demo_walk u) eq_refl eq_refl)
    as (v & s' & H1 & H2 & _).
  - unfold demo_vmm, KERNEL_GENERAL_MAX. cbn [s_kernel_virt_hint]. lia.
  - lia.
  - exists v, s'. split; [exact H1|exact H2].
Defined.
Lemma vmm_create_user_space_witness : ∃ r pml4 s', vmm_create_user_space 0 demo_vmm = Ret (r, pml4, s') ∧ r ≠ VMM_ERR_NOT_INIT.
Proof.
  destruct (vmm_create_user_space_correct 4096 0 demo_vmm demo_page_inv eq_refl eq_refl) as (r & pml4 & s' & H1 & H2).
  exists r, pml4, s'. split; [exact H1|]. intros ->. exact H2.
Defined.
Lemma demo_no_1gb : no_user_1gb (pages demo_vmm) 4096.
Proof. intros u a e _ Hr Hp. apply (demo_no_huge u 1%nat a e (or_introl eq_refl) Hr Hp). Qed.
Lemma vmm_destroy_user_space_witness : ∃ s', vmm_destroy_user_space 4096 demo_vmm = Ret (VMM_OK, s') ∧
  allocated (frames (pages s')) 1 ≠ true.
Proof.
  destruct (vmm_destroy_user_space_frees_tables 4096 demo_vmm demo_page_inv demo_no_1gb eq_refl) as (s' & H1 & _ & _ & _ & H2).
  exists s'. split; [exact H1|]. intros Ha.
  assert (0 ≤ 1 < total_frames (frames (pages demo_vmm))) as Hr by (cbn [total_frames frames pages demo_vmm demo_page]; lia).
  destruct (proj1 (H2 1 Hr) Ha) as [_ Hn]. apply Hn. right. reflexivity.
Defined.
Lemma vmm_map_to_user_witness : vmm_map_to_user 4096 0x1000 0x5000 1 0 demo_vmm = Ret (VMM_ERR_INVALID, demo_vmm).
Proof. rewrite (vmm_map_to_user_is_page_map_range 4096 0x1000 0x5000 1 0 demo_vmm eq_refl eq_refl). reflexivity. Defined.

(** When no 1024 frames in a row are free, the request for a 2 MB page falls back
    to 512 frames but goes on as if it had 1024: the 512 frames behind them,
    in use by someone else, are given back. *)
Definition tight_frames : pframe_state :=
  mk_pframe (mk_bitmap (replicate 64 255 ++ replicate 64 0 ++ replicate 64 255) 1536) 1536 0 0x600000 0 true.
Definition tight_vmm : vmm_state := with_pages (with_frames tight_frames demo_page) demo_vmm.
Theorem huge_page_fallback_frees_foreign_frames :
  (rs ← alloc_aligned 10 PAGE_SIZE_2MB tight_vmm; let x := frames (pages (snd rs)) in
   Ret (fst rs, (λ f, allocated (frames (pages tight_vmm)) f) <$> [1024; 1535], (λ f, allocated x f) <$> [512; 1023; 1024; 1535])) =
  Ret (Some 0x200000, [true; true], [true; true; false; false]).
Proof. vm_compute. reflexivity. Qed.
