(* ===== verification/DList.v ===== *)
(** * Intrusive circular lists: [kernel/list/list.c] and [list.h]

    The nodes live in a store from addresses to [(next, prev)] pairs; every
    operation is the source's sequence of pointer reads and writes, and an
    access to an address that holds no node is a [Fault]. A ring through a head
    [h] represents a list of addresses ([is_list]); the operations refine the
    list operations and leave all other nodes alone. *)
From S2P Require Import Prelude.

Module DList.

(** ** Data *)
Record list_head := mk_node { next : Z; prev : Z }.
Abbreviation store := (gmap Z list_head) (only parsing).
Implicit Types m : gmap Z list_head.

#[export] Instance list_head_eq_dec : EqDecision list_head.
Proof. solve_decision. Defined.

Definition get_next (m : store) (a : Z) : outcome Z := access (next <$> m !! a).
Definition get_prev (m : store) (a : Z) : outcome Z := access (prev <$> m !! a).
Definition set_next (a v : Z) (m : store) : outcome store :=
  n ← access (m !! a); Ret (<[a := mk_node v (prev n)]> m).
Definition set_prev (a v : Z) (m : store) : outcome store :=
  n ← access (m !! a); Ret (<[a := mk_node (next n) v]> m).

(** ** Operations *)
Definition INIT_LIST_HEAD (ptr : Z) (m : store) : outcome store :=
  m ← set_next ptr ptr m; set_prev ptr ptr m.

Definition __list_add (new_node prev next : Z) (m : store) : outcome store :=
  m ← set_prev next new_node m;
  m ← set_next new_node next m;
  m ← set_prev new_node prev m;
  set_next prev new_node m.

Definition __list_del (prev next : Z) (m : store) : outcome store :=
  m ← set_prev next prev m;
  set_next prev next m.

Definition list_add (new_node head : Z) (m : store) : outcome store :=
  n ← get_next m head; __list_add new_node head n m.
Definition list_add_tail (new_node head : Z) (m : store) : outcome store :=
  p ← get_prev m head; __list_add new_node p head m.
Definition list_del (entry : Z) (m : store) : outcome store :=
  p ← get_prev m entry; n ← get_next m entry; __list_del p n m.
Definition list_del_init (entry : Z) (m : store) : outcome store :=
  m ← list_del entry m; INIT_LIST_HEAD entry m.

Definition list_replace (old_node new_node : Z) (m : store) : outcome store :=
  n ← get_next m old_node;
  m ← set_next new_node n m;
  nn ← get_next m new_node;
  m ← set_prev nn new_node m;
  p ← get_prev m old_node;
  m ← set_prev new_node p m;
  np ← get_prev m new_node;
  set_next np new_node m.
Definition list_replace_init (old_node new_node : Z) (m : store) : outcome store :=
  m ← list_replace old_node new_node m; INIT_LIST_HEAD old_node m.

Definition list_is_empty (m : store) (head : Z) : outcome bool :=
  n ← get_next m head; Ret (n =? head).
Definition list_is_last (m : store) (entry head : Z) : outcome bool :=
  n ← get_next m entry; Ret (n =? head).
Definition list_is_singular (m : store) (head : Z) : outcome bool :=
  e ← list_is_empty m head;
  if (e : bool) then Ret false else
  n ← get_next m head; p ← get_prev m head; Ret (n =? p).

Definition list_splice (list head : Z) (m : store) : outcome store :=
  e ← list_is_empty m list;
  if (e : bool) then Ret m else
  first ← get_next m list;
  last ← get_prev m list;
  head_next ← get_next m head;
  m ← set_prev first head m;
  m ← set_next head first m;
  m ← set_next last head_next m;
  set_prev head_next last m.

Definition list_splice_tail (list head : Z) (m : store) : outcome store :=
  e ← list_is_empty m list;
  if (e : bool) then Ret m else
  first ← get_next m list;
  last ← get_prev m list;
  head_prev ← get_prev m head;
  m ← set_prev head last m;
  m ← set_next last head m;
  m ← set_next head_prev first m;
  set_prev first head_prev m.

Definition list_splice_init (list head : Z) (m : store) : outcome store :=
  e ← list_is_empty m list;
  if (e : bool) then Ret m else
  first ← get_next m list;
  last ← get_prev m list;
  head_next ← get_next m head;
  m ← set_prev first head m;
  m ← set_next head first m;
  m ← set_next last head_next m;
  m ← set_prev head_next last m;
  INIT_LIST_HEAD list m.

Definition list_cut_position (list head entry : Z) (m : store) : outcome store :=
  e ← list_is_empty m head;
  if (e : bool) then INIT_LIST_HEAD list m else
  sg ← list_is_singular m head;
  hn ← get_next m head;
  if (sg : bool) && (negb (hn =? entry) && negb (head =? entry)) then INIT_LIST_HEAD list m else
  if entry =? head then
    m ← set_next list hn m;
    hp ← get_prev m head;
    m ← set_prev list hp m;
    ln ← get_next m list; m ← set_prev ln list m;
    lp ← get_prev m list; m ← set_next lp list m;
    INIT_LIST_HEAD head m
  else
    m ← set_next list hn m;
    ep ← get_prev m entry;
    m ← set_prev list ep m;
    ln ← get_next m list; m ← set_prev ln list m;
    lp ← get_prev m list; m ← set_next lp list m;
    m ← set_next head entry m;
    set_prev entry head m.

Definition list_on_list (m : store) (node : Z) : outcome bool :=
  n ← get_next m node; p ← get_prev m node;
  Ret (negb (n =? node) && negb (p =? node)).

(** [list_for_each]: from [pos] until the head comes round again. The fuel is
    the number of nodes of the store, which a ring cannot exceed; [None] means
    the walk did not come back to the head. *)
Fixpoint walk (fuel : nat) (m : store) (head pos : Z) : outcome (option (list Z)) :=
  match fuel with
  | O => Ret None
  | S fuel' =>
      if pos =? head then Ret (Some []) else
      n ← get_next m pos;
      r ← walk fuel' m head n;
      Ret (cons pos <$> (r : option (list Z)))
  end.
Definition list_for_each (m : store) (head : Z) : outcome (option (list Z)) :=
  n ← get_next m head; walk (S (size m)) m head n.
Definition list_count (m : store) (head : Z) : outcome (option Z) :=
  r ← list_for_each m head; Ret ((λ l : list Z, Z.of_nat (length l)) <$> (r : option (list Z))).

(** [list_first_entry]: the node of the first element, [None] for NULL. *)
Definition list_first (m : store) (head : Z) : outcome (option Z) :=
  e ← list_is_empty m head;
  if (e : bool) then Ret None else n ← get_next m head; Ret (Some n).

(** ** Representation *)
Definition nxt (m : store) (a : Z) : option Z := next <$> m !! a.
Definition prv (m : store) (a : Z) : option Z := prev <$> m !! a.
Definition linked (m : store) (x y : Z) : Prop := nxt m x = Some y ∧ prv m y = Some x.

(** A path of links from [x] through the nodes [l] to [y]. *)
Fixpoint chain (m : store) (x : Z) (l : list Z) (y : Z) : Prop :=
  match l with
  | [] => linked m x y
  | z :: l' => linked m x z ∧ chain m z l' y
  end.

Definition is_list (m : store) (h : Z) (l : list Z) : Prop := NoDup (h :: l) ∧ chain m h l h.

(** ** Pointer writes *)
Lemma get_next_ok m a v : nxt m a = Some v → get_next m a = Ret v.
Proof. unfold nxt, get_next. by intros ->. Qed.
Lemma get_prev_ok m a v : prv m a = Some v → get_prev m a = Ret v.
Proof. unfold prv, get_prev. by intros ->. Qed.

(** What a sequence of writes leaves behind, read through [nxt] and [prv]. *)
Lemma set_next_ok a v m : is_Some (m !! a) → ∃ m', set_next a v m = Ret m' ∧
  (∀ b, nxt m' b = if decide (b = a) then Some v else nxt m b) ∧ (∀ b, prv m' b = prv m b) ∧
  (∀ b, is_Some (m' !! b) ↔ is_Some (m !! b)) ∧ (∀ b, b ≠ a → m' !! b = m !! b) ∧ dom m' = dom m.
Proof.
  intros [n Hn]. unfold set_next. rewrite Hn. cbn. eexists. split; [done|].
  unfold nxt, prv. split_and!; intros; rewrite ?lookup_insert.
  - destruct (decide (a = b)), (decide (b = a)); by simplify_eq.
  - destruct (decide (a = b)); by simplify_eq/=; rewrite ?Hn.
  - case_decide; subst; [rewrite Hn|]; split; eauto.
  - by case_decide.
  - rewrite dom_insert_L. apply elem_of_dom_2 in Hn. set_solver.
Qed.
Lemma set_prev_ok a v m : is_Some (m !! a) → ∃ m', set_prev a v m = Ret m' ∧
  (∀ b, prv m' b = if decide (b = a) then Some v else prv m b) ∧ (∀ b, nxt m' b = nxt m b) ∧
  (∀ b, is_Some (m' !! b) ↔ is_Some (m !! b)) ∧ (∀ b, b ≠ a → m' !! b = m !! b) ∧ dom m' = dom m.
Proof.
  intros [n Hn]. unfold set_prev. rewrite Hn. cbn. eexists. split; [done|].
  unfold nxt, prv. split_and!; intros; rewrite ?lookup_insert.
  - destruct (decide (a = b)), (decide (b = a)); by simplify_eq.
  - destruct (decide (a = b)); by simplify_eq/=; rewrite ?Hn.
  - case_decide; subst; [rewrite Hn|]; split; eauto.
  - by case_decide.
  - rewrite dom_insert_L. apply elem_of_dom_2 in Hn. set_solver.
Qed.

Lemma nxt_is_Some m a v : nxt m a = Some v → is_Some (m !! a).
Proof. unfold nxt. destruct (m !! a); [eauto|done]. Qed.
Lemma prv_is_Some m a v : prv m a = Some v → is_Some (m !! a).
Proof. unfold prv. destruct (m !! a); [eauto|done]. Qed.

(** ** Chains *)
Lemma chain_app m x l1 z l2 y :
  chain m x (l1 ++ z :: l2) y ↔ chain m x l1 z ∧ chain m z l2 y.
Proof.
  revert x. induction l1 as [|w l1 IH]; intros x; cbn [chain app]; [done|].
  rewrite IH. tauto.
Qed.

Lemma chain_frame m m' x l y :
  (∀ a, a ∈ x :: l → nxt m' a = nxt m a) → (∀ a, a ∈ y :: l → prv m' a = prv m a) →
  chain m x l y → chain m' x l y.
Proof.
  revert x. induction l as [|z l IH]; intros x Hn Hp; cbn [chain].
  - intros [H1 H2]. split; [rewrite Hn by left; done|rewrite Hp by left; done].
  - intros [[H1 H2] Hc]. split.
    + split; [rewrite Hn by left; done|rewrite Hp by (right; left); done].
    + apply IH; [..|done]; intros a Ha; [apply Hn; by right|].
      apply Hp. apply elem_of_cons in Ha as [->|]; [left|by do 2 right].
Qed.

Lemma chain_nodes m x l y a : chain m x l y → a ∈ x :: y :: l → is_Some (m !! a).
Proof.
  revert x. induction l as [|z l IH]; intros x; cbn [chain].
  - intros [H1 H2] Ha. repeat (apply elem_of_cons in Ha as [->|Ha]); eauto using nxt_is_Some, prv_is_Some.
    by apply not_elem_of_nil in Ha.
  - intros [[H1 H2] Hc] Ha. apply elem_of_cons in Ha as [->|Ha]; [eauto using nxt_is_Some|].
    apply (IH z); [done|]. set_solver.
Qed.

Lemma chain_first m x l y : chain m x l y → nxt m x = Some (default y (head l)).
Proof. destruct l; cbn; [by intros []|by intros [[] _]]. Qed.
Lemma chain_last m x l y : chain m x l y → prv m y = Some (default x (last l)).
Proof.
  revert x. induction l as [|z l IH]; intros x; cbn [chain]; [by intros []|].
  intros [_ Hc]. rewrite (IH _ Hc), last_cons. by destruct (last l).
Qed.

Lemma is_list_frame m m' h l : (∀ a, a ∈ h :: l → m' !! a = m !! a) → is_list m h l → is_list m' h l.
Proof.
  intros Hf [Hnd Hc]. split; [done|]. apply (chain_frame m); [..|done]; intros a Ha;
    unfold nxt, prv; by rewrite Hf.
Qed.

Lemma is_list_nodes m h l a : is_list m h l → a ∈ h :: l → is_Some (m !! a).
Proof. intros [_ Hc] Ha. apply (chain_nodes m h l h); [done|]. set_solver. Qed.

(** Moves the end of a chain: only the link out of its last node changes. *)
Lemma chain_retarget m m' x l y y' : NoDup (x :: l) →
  linked m' (default x (last l)) y' →
  (∀ a, a ∈ x :: l → a ≠ default x (last l) → nxt m' a = nxt m a) →
  (∀ a, a ∈ l → prv m' a = prv m a) →
  chain m x l y → chain m' x l y'.
Proof.
  revert x. induction l as [|z l IH]; intros x Hnd Hl Hn Hp; cbn [chain]; [done|].
  intros [[H1 H2] Hc]. apply NoDup_cons in Hnd as [Hx Hnd].
  assert (default x (last (z :: l)) = default z (last l)) as Hlast.
  { rewrite last_cons. by destruct (last l). }
  rewrite Hlast in Hl, Hn. split.
  - split; [|rewrite Hp by left; done]. rewrite Hn; [done|left|]. intros ->. apply Hx.
    destruct (last l) eqn:He; simpl; [|left]. apply last_Some in He as [l' ->]. set_solver.
  - apply IH; [done|done| | |done].
    + intros a Ha Hne. apply Hn; [by right|done].
    + intros a Ha. apply Hp. by right.
Qed.

(** ** Automation for the pointer programs

    [run_ptr] executes reads whose value is known and writes to nodes that
    exist; [ptr_eqs] rewrites the final [nxt] and [prv] back to the initial
    store and splits on the addresses written. *)
Lemma is_Some_trans m m' b : (∀ b, is_Some (m' !! b) ↔ is_Some (m !! b)) →
  is_Some (m !! b) → is_Some (m' !! b).
Proof. intros H. apply H. Qed.

Ltac solve_dom := solve [
  eauto using nxt_is_Some, prv_is_Some |
  repeat (match goal with H : ∀ b, is_Some (?m' !! b) ↔ _ |- is_Some (?m' !! _) => apply H end);
  eauto using nxt_is_Some, prv_is_Some ].

Ltac ptr_eqs :=
  repeat match goal with
  | H : ∀ b, nxt ?m' b = _ |- context [nxt ?m' ?a] => rewrite (H a)
  | H : ∀ b, prv ?m' b = _ |- context [prv ?m' ?a] => rewrite (H a)
  end; repeat (case_decide; subst); try done; try congruence.

Ltac run_ptr :=
  repeat (match goal with
  | |- context [mbind _ (get_next ?m ?a)] =>
      erewrite (get_next_ok m a) by (ptr_eqs; eassumption); cbn [mbind outcome_bind]
  | |- context [mbind _ (get_prev ?m ?a)] =>
      erewrite (get_prev_ok m a) by (ptr_eqs; eassumption); cbn [mbind outcome_bind]
  | |- context [set_next ?a ?v ?m] =>
      let m' := fresh "m" in let H := fresh "Hw" in
      destruct (set_next_ok a v m) as (m' & H & ? & ? & ? & ? & ?);
        [solve_dom | rewrite H; cbn [mbind outcome_bind]; clear H]
  | |- context [set_prev ?a ?v ?m] =>
      let m' := fresh "m" in let H := fresh "Hw" in
      destruct (set_prev_ok a v m) as (m' & H & ? & ? & ? & ? & ?);
        [solve_dom | rewrite H; cbn [mbind outcome_bind]; clear H]
  end).

Ltac frame_eqs :=
  repeat match goal with H : ∀ b, b ≠ _ → ?m' !! b = _ !! b |- context [?m' !! ?a] =>
    rewrite (H a) by (assumption || set_solver) end; done.

Ltac ptr_done :=
  first [solve [intros; ptr_eqs] | solve [split; ptr_eqs] | solve [intros; frame_eqs] | congruence].

(** ** The two link primitives *)
Lemma INIT_LIST_HEAD_spec h m : is_Some (m !! h) →
  ∃ m', INIT_LIST_HEAD h m = Ret m' ∧ is_list m' h [] ∧
    (∀ a, a ≠ h → m' !! a = m !! a) ∧ dom m' = dom m.
Proof.
  intros Hh. unfold INIT_LIST_HEAD. run_ptr. eexists. split; [done|]. split_and!.
  - split; [apply NoDup_singleton|]. split; ptr_eqs.
  - intros a Ha. frame_eqs.
  - congruence.
Qed.

Lemma list_add_prim_spec x p n m : linked m p n → is_Some (m !! x) → x ≠ p → x ≠ n →
  ∃ m', __list_add x p n m = Ret m' ∧ linked m' p x ∧ linked m' x n ∧
    (∀ a, a ≠ p → a ≠ x → nxt m' a = nxt m a) ∧ (∀ a, a ≠ n → a ≠ x → prv m' a = prv m a) ∧
    (∀ a, a ∉ [x; p; n] → m' !! a = m !! a) ∧ dom m' = dom m.
Proof.
  intros [Hpn Hnp] Hx Hxp Hxn. unfold __list_add. run_ptr. eexists. split; [done|].
  split_and!; ptr_done.
Qed.

Lemma list_del_prim_spec p n m : is_Some (m !! p) → is_Some (m !! n) →
  ∃ m', __list_del p n m = Ret m' ∧ linked m' p n ∧
    (∀ a, a ≠ p → nxt m' a = nxt m a) ∧ (∀ a, a ≠ n → prv m' a = prv m a) ∧
    (∀ a, a ∉ [p; n] → m' !! a = m !! a) ∧ dom m' = dom m.
Proof.
  intros Hp Hn. unfold __list_del. run_ptr. eexists. split; [done|].
  split_and!; ptr_done.
Qed.

(** ** Refinement of the list operations *)
Lemma last_in (x : Z) l : default x (last l) ∈ x :: l.
Proof.
  destruct (last l) eqn:He; simpl; [|left]. apply last_Some in He as [l' ->]. set_solver.
Qed.
Lemma head_in (x : Z) l : default x (head l) ∈ x :: l.
Proof. destruct l; simpl; set_solver. Qed.

Lemma list_add_spec x h l m : is_list m h l → x ∉ h :: l → is_Some (m !! x) →
  ∃ m', list_add x h m = Ret m' ∧ is_list m' h (x :: l) ∧
    (∀ a, a ∉ x :: h :: l → m' !! a = m !! a) ∧ dom m' = dom m.
Proof.
  intros [Hnd Hc] Hx Hdom. unfold list_add.
  rewrite (get_next_ok _ _ _ (chain_first _ _ _ _ Hc)). cbn [mbind outcome_bind].
  pose proof (head_in h l) as Hin.
  destruct (list_add_prim_spec x h (default h (head l)) m) as (m' & Hr & H1 & H2 & Hn & Hp & Hf & Hd).
  { destruct l; [apply Hc|apply Hc]. } { done. } { set_solver. } { set_solver. }
  exists m'. split; [done|]. split_and!; [|intros a Ha; apply Hf; set_solver|done].
  split; [apply NoDup_cons; apply NoDup_cons in Hnd; split; [set_solver|]; apply NoDup_cons; set_solver|].
  split; [done|]. destruct l as [|z l]; [done|]. split; [done|]. destruct Hc as [_ Hc].
  apply NoDup_cons in Hnd as [Hh Hnd]. apply NoDup_cons in Hnd as [Hz Hnd].
  apply (chain_frame m); [..|done]; intros a Ha; [apply Hn|apply Hp]; set_solver.
Qed.

Lemma list_add_tail_spec x h l m : is_list m h l → x ∉ h :: l → is_Some (m !! x) →
  ∃ m', list_add_tail x h m = Ret m' ∧ is_list m' h (l ++ [x]) ∧
    (∀ a, a ∉ x :: h :: l → m' !! a = m !! a) ∧ dom m' = dom m.
Proof.
  intros [Hnd Hc] Hx Hdom. unfold list_add_tail.
  pose proof (chain_last _ _ _ _ Hc) as Hl. rewrite (get_prev_ok _ _ _ Hl). cbn [mbind outcome_bind].
  pose proof (last_in h l) as Hin.
  destruct (list_add_prim_spec x (default h (last l)) h m) as (m' & Hr & H1 & H2 & Hn & Hp & Hf & Hd).
  { destruct l as [|z l _] using rev_ind; [done|]. rewrite last_snoc in *. cbn in *.
    apply chain_app in Hc as [_ Hc]. done. }
  { done. } { set_solver. } { set_solver. }
  exists m'. split; [done|]. split_and!; [|intros a Ha; apply Hf; set_solver|done]. split.
  - apply NoDup_cons in Hnd as [Hh Hnd]. apply NoDup_cons. split; [set_solver|].
    apply NoDup_app. split_and!; [done|set_solver|apply NoDup_singleton].
  - apply chain_app. split; [|done]. apply NoDup_cons in Hnd as [Hh Hnd'].
    apply (chain_retarget m m' h l h x); [by apply NoDup_cons|done| | |done].
    + intros a Ha Hne. apply Hn; set_solver.
    + intros a Ha. apply Hp; set_solver.
Qed.

Lemma chain_unlink m m' x l1 e l2 y :
  NoDup (x :: l1 ++ l2) → y ∉ l1 ++ l2 →
  linked m' (default x (last l1)) (default y (head l2)) →
  (∀ a, a ∈ x :: l1 ++ l2 → a ≠ default x (last l1) → nxt m' a = nxt m a) →
  (∀ a, a ∈ y :: l1 ++ l2 → a ≠ default y (head l2) → prv m' a = prv m a) →
  chain m x l1 e → chain m e l2 y → chain m' x (l1 ++ l2) y.
Proof.
  intros Hnd Hy Hl Hn Hp H1 H2. pose proof (last_in x l1) as Hlast.
  assert (NoDup (x :: l1)) as Hnd1.
  { rewrite app_comm_cons in Hnd. by apply NoDup_app in Hnd as (? & _ & _). }
  assert (∀ a, a ∈ x :: l1 → a ∉ l2) as Hdis.
  { rewrite app_comm_cons in Hnd. by apply NoDup_app in Hnd as (_ & ? & _). }
  destruct l2 as [|z l2]; cbn [head default from_option id] in *.
  - rewrite app_nil_r. apply (chain_retarget m m' x l1 e y); [done|done| | |done].
    + intros a Ha Hne. apply Hn; [set_solver|done].
    + intros a Ha. apply Hp; set_solver.
  - apply chain_app. rewrite app_comm_cons in Hnd. apply NoDup_app in Hnd as (_ & _ & Hnd2).
    apply NoDup_cons in Hnd2 as [Hz Hnd2]. split.
    + apply (chain_retarget m m' x l1 e z); [done|done| | |done].
      * intros a Ha Hne. apply Hn; [set_solver|done].
      * intros a Ha. apply Hp; set_solver.
    + destruct H2 as [_ H2]. apply (chain_frame m); [..|done]; intros a Ha.
      * apply Hn; [set_solver|]. intros ->. apply (Hdis _ Hlast). done.
      * apply Hp; [set_solver|]. intros ->. apply elem_of_cons in Ha as [->|]; set_solver.
Qed.

Lemma list_del_spec h l1 e l2 m : is_list m h (l1 ++ e :: l2) →
  ∃ m', list_del e m = Ret m' ∧ is_list m' h (l1 ++ l2) ∧ (∀ a, a ∉ h :: l1 ++ l2 → m' !! a = m !! a) ∧ dom m' = dom m.
Proof.
  intros Hil. pose proof Hil as [Hnd Hc]. apply chain_app in Hc as [H1 H2]. unfold list_del.
  rewrite (get_prev_ok _ _ _ (chain_last _ _ _ _ H1)), outcome_bind_ret.
  rewrite (get_next_ok _ _ _ (chain_first _ _ _ _ H2)), outcome_bind_ret.
  pose proof (last_in h l1) as Hp_in. pose proof (head_in h l2) as Hn_in.
  assert (NoDup (h :: l1 ++ l2)) as Hnd'.
  { eapply sublist_NoDup; [exact Hnd|]. apply sublist_skip, sublist_app; [done|]. by apply sublist_cons. }
  destruct (list_del_prim_spec (default h (last l1)) (default h (head l2)) m)
    as (m1 & -> & Hl & Hn & Hp & Hf & Hd).
  { eapply is_list_nodes; [done|]. set_solver. } { eapply is_list_nodes; [done|]. set_solver. }
  exists m1. split_and!; [done| |intros a Ha; apply Hf; set_solver|done].
  split; [done|]. apply (chain_unlink m m1 h l1 e l2 h); try done.
  - by apply NoDup_cons in Hnd' as [? _].
  - intros a _ Hne. by apply Hn.
  - intros a _ Hne. by apply Hp.
Qed.
Lemma list_del_init_spec h l1 e l2 m : is_list m h (l1 ++ e :: l2) →
  ∃ m', list_del_init e m = Ret m' ∧ is_list m' h (l1 ++ l2) ∧ is_list m' e [] ∧
    (∀ a, a ∉ h :: l1 ++ e :: l2 → m' !! a = m !! a) ∧ dom m' = dom m.
Proof.
  intros Hil. pose proof Hil as [Hnd Hc]. unfold list_del_init.
  assert (e ∉ h :: l1 ++ l2) as He.
  { apply NoDup_cons in Hnd as [Hh Hnd]. apply NoDup_app in Hnd as (_ & Hd & Hnd2).
    apply NoDup_cons in Hnd2 as [Hz _]. set_solver. }
  destruct (list_del_spec h l1 e l2 m Hil) as (m1 & -> & Hil1 & Hf & Hd). cbn [mbind outcome_bind].
  destruct (INIT_LIST_HEAD_spec e m1) as (m2 & -> & Hie & Hf2 & Hd2).
  { apply elem_of_dom. rewrite Hd. apply elem_of_dom. eapply is_list_nodes; [done|]. set_solver. }
  exists m2. split_and!; [done| |done| |congruence].
  - apply (is_list_frame m1); [|done]. intros a Ha. apply Hf2. set_solver.
  - intros a Ha. rewrite Hf2 by set_solver. apply Hf. set_solver.
Qed.

(** Deleting a node that is on no list (it points to itself) changes nothing. *)
Lemma list_del_init_self e m : is_list m e [] → list_del_init e m = Ret m.
Proof.
  intros [_ [Hn Hp]]. unfold nxt, prv in *.
  destruct (m !! e) as [[n p]|] eqn:He; [|done]. cbn in Hn, Hp. simplify_eq.
  unfold list_del_init, list_del, __list_del, INIT_LIST_HEAD, get_prev, get_next, set_prev, set_next.
  repeat (rewrite ?He, ?insert_id by done; cbn [fmap option_fmap option_map access mbind outcome_bind next prev]).
  done.
Qed.

Lemma list_is_empty_spec m h l : is_list m h l → list_is_empty m h = Ret (bool_decide (l = [])).
Proof.
  intros [Hnd Hc]. unfold list_is_empty. rewrite (get_next_ok _ _ _ (chain_first _ _ _ _ Hc)). cbn.
  f_equal. destruct l as [|z l]; cbn; [by rewrite Z.eqb_refl|].
  apply NoDup_cons in Hnd as [Hh _]. apply Z.eqb_neq. set_solver.
Qed.

Lemma list_first_spec m h l : is_list m h l → list_first m h = Ret (head l).
Proof.
  intros Hil. unfold list_first. rewrite (list_is_empty_spec _ _ _ Hil), outcome_bind_ret.
  destruct l as [|z l]; [done|]. cbn [bool_decide].
  destruct Hil as [_ Hc]. by rewrite (get_next_ok _ _ _ (chain_first _ _ _ _ Hc)).
Qed.

(** The end of a splice: the nodes [l2] of one ring move in front of [l1]. *)
Lemma chain_splice m m' s h l1 l2 : l2 ≠ [] →
  NoDup (s :: l2 ++ h :: l1) → chain m s l2 s → chain m h l1 h →
  linked m' h (default s (head l2)) → linked m' (default s (last l2)) (default h (head l1)) →
  (∀ a, a ∈ l2 ++ l1 → a ≠ default s (last l2) → nxt m' a = nxt m a) →
  (∀ a, a ∈ h :: l2 ++ l1 → a ≠ default s (head l2) → a ≠ default h (head l1) → prv m' a = prv m a) →
  chain m' h (l2 ++ l1) h.
Proof.
  intros Hne Hnd H2 H1 Hhf Hlast Hn Hp. destruct l2 as [|f l2]; [done|]. cbn [head default from_option id] in *.
  split; [done|]. destruct H2 as [_ H2]. apply NoDup_cons in Hnd as [_ Hnd].
  apply NoDup_app in Hnd as (Hndf & Hdis & Hndh). pose proof (NoDup_cons_1_1 _ _ Hndf) as Hf.
  assert (default s (last (f :: l2)) = default f (last l2)) as He by (rewrite last_cons; by destruct (last l2)).
  rewrite He in Hlast, Hn. pose proof (last_in f l2) as Hlin.
  apply NoDup_cons in Hndh as [Hh Hnd1].
  destruct l1 as [|z l1]; cbn [head default from_option id] in *.
  - rewrite app_nil_r. apply (chain_retarget m m' f l2 s h); [done|done| | |done].
    + intros a Ha Hx. apply Hn; [set_solver|done].
    + intros a Ha. apply Hp; set_solver.
  - apply chain_app. split.
    + apply (chain_retarget m m' f l2 s z); [done|done| | |done].
      * intros a Ha Hx. apply Hn; [set_solver|done].
      * intros a Ha. apply Hp; set_solver.
    + destruct H1 as [_ H1]. apply NoDup_cons in Hnd1 as [Hz Hnd1].
      apply (chain_frame m); [..|done]; intros a Ha.
      * apply Hn; [set_solver|]. intros ->. apply (Hdis _ Hlin). set_solver.
      * apply Hp; [set_solver|set_solver|]. intros ->. apply elem_of_cons in Ha as [->|]; set_solver.
Qed.

Lemma splice_writes m s h l1 l2 f lst hn : l2 ≠ [] →
  is_list m s l2 → is_list m h l1 → NoDup (s :: l2 ++ h :: l1) →
  f = default s (head l2) → lst = default s (last l2) → hn = default h (head l1) →
  ∃ m', (m ← set_prev f h m; m ← set_next h f m; m ← set_next lst hn m; set_prev hn lst m) = Ret m' ∧
    is_list m' h (l2 ++ l1) ∧ m' !! s = m !! s ∧
    (∀ a, a ∉ s :: l2 ++ h :: l1 → m' !! a = m !! a) ∧ dom m' = dom m.
Proof.
  intros Hne Hs Hh Hnd Hf Hlst Hhn.
  assert (f ∈ l2) as Hfin by (destruct l2; [done|]; subst f; left).
  assert (lst ∈ l2) as Hlin.
  { subst lst. destruct (last l2) eqn:He; [apply last_Some in He as [l' ->]; set_solver|].
    by apply last_None in He. }
  pose proof (head_in h l1) as Hhin. rewrite <- Hhn in Hhin.
  assert (is_Some (m !! f)) by (apply (is_list_nodes m s l2); [done|set_solver]).
  assert (is_Some (m !! lst)) by (apply (is_list_nodes m s l2); [done|set_solver]).
  assert (is_Some (m !! hn)) by (by apply (is_list_nodes m h l1)).
  assert (is_Some (m !! h)) by (apply (is_list_nodes m h l1); [done|set_solver]).
  pose proof Hnd as Hnd0. apply NoDup_cons in Hnd0 as [Hs_out Hnd0].
  apply NoDup_app in Hnd0 as (Hnd2 & Hdis & Hnd1). pose proof (NoDup_cons_1_1 _ _ Hnd1) as Hh_out.
  assert (lst ≠ h) by (intros He; rewrite He in Hlin; apply (Hdis h); [done|left]).
  assert (hn ≠ f) by (intros He; rewrite He in Hhin; by apply (Hdis f)).
  assert (NoDup (h :: l2 ++ l1)) as Hnd3.
  { apply NoDup_cons. split; [intros [Hi|Hi]%elem_of_app; [apply (Hdis h Hi); left|done]|].
    apply NoDup_app. split_and!; [done| |by apply NoDup_cons in Hnd1 as [? ?]].
    intros x Hx Hx1. apply (Hdis x Hx). by right. }
  assert (∀ a, a ∉ l2 ++ h :: l1 → a ≠ f ∧ a ≠ h ∧ a ≠ lst ∧ a ≠ hn) as Hout.
  { intros a Ha. split_and!; intros ->; apply Ha, elem_of_app; auto; right; left. }
  run_ptr. eexists. split; [done|]. split_and!.
  - split; [done|]. apply (chain_splice m _ s h l1 l2); [done|done|apply Hs|apply Hh|..]; rewrite <- ?Hf, <- ?Hlst, <- ?Hhn.
    + split; ptr_eqs.
    + split; ptr_eqs.
    + intros a Ha Hx. assert (a ≠ h) by (intros ->; by apply NoDup_cons in Hnd3 as [? _]). ptr_eqs.
    + intros a Ha Hx Hy. ptr_eqs.
  - destruct (Hout s Hs_out) as (? & ? & ? & ?). frame_eqs.
  - intros a Ha. destruct (Hout a) as (? & ? & ? & ?); [intros Hi; apply Ha; by right|]. frame_eqs.
  - congruence.
Qed.

Lemma list_splice_init_spec m s h l1 l2 :
  is_list m s l2 → is_list m h l1 → NoDup (s :: l2 ++ h :: l1) →
  ∃ m', list_splice_init s h m = Ret m' ∧ is_list m' h (l2 ++ l1) ∧ is_list m' s [] ∧
    (∀ a, a ∉ s :: l2 ++ h :: l1 → m' !! a = m !! a) ∧ dom m' = dom m.
Proof.
  intros Hs Hh Hnd. unfold list_splice_init. rewrite (list_is_empty_spec _ _ _ Hs), outcome_bind_ret.
  case_bool_decide as He; [subst l2; by exists m|].
  rewrite (get_next_ok _ _ _ (chain_first _ _ _ _ (proj2 Hs))), outcome_bind_ret.
  rewrite (get_prev_ok _ _ _ (chain_last _ _ _ _ (proj2 Hs))), outcome_bind_ret.
  rewrite (get_next_ok _ _ _ (chain_first _ _ _ _ (proj2 Hh))), outcome_bind_ret.
  destruct (splice_writes m s h l1 l2 _ _ _ He Hs Hh Hnd eq_refl eq_refl eq_refl)
    as (m1 & Hr & Hil & Hms & Hf & Hd).
  destruct (INIT_LIST_HEAD_spec s m1) as (m2 & Hi & His & Hf2 & Hd2).
  { rewrite Hms. apply (is_list_nodes m s l2); [done|left]. }
  exists m2. split.
  { apply outcome_bind_inv in Hr as (ma & -> & Hr). cbn [mbind outcome_bind].
    apply outcome_bind_inv in Hr as (mb & -> & Hr). cbn [mbind outcome_bind].
    apply outcome_bind_inv in Hr as (mc & -> & Hr). cbn [mbind outcome_bind].
    by rewrite Hr. }
  split_and!; [|done| |congruence].
  - apply (is_list_frame m1); [|done]. intros a Ha. apply Hf2.
    apply NoDup_cons in Hnd as [? _]. set_solver.
  - intros a Ha. rewrite Hf2 by set_solver. by apply Hf.
Qed.

Lemma list_splice_spec m s h l1 l2 :
  is_list m s l2 → is_list m h l1 → NoDup (s :: l2 ++ h :: l1) →
  ∃ m', list_splice s h m = Ret m' ∧ is_list m' h (l2 ++ l1) ∧ m' !! s = m !! s ∧
    (∀ a, a ∉ s :: l2 ++ h :: l1 → m' !! a = m !! a) ∧ dom m' = dom m.
Proof.
  intros Hs Hh Hnd. unfold list_splice. rewrite (list_is_empty_spec _ _ _ Hs), outcome_bind_ret.
  case_bool_decide as He; [subst l2; by exists m|].
  rewrite (get_next_ok _ _ _ (chain_first _ _ _ _ (proj2 Hs))), outcome_bind_ret.
  rewrite (get_prev_ok _ _ _ (chain_last _ _ _ _ (proj2 Hs))), outcome_bind_ret.
  rewrite (get_next_ok _ _ _ (chain_first _ _ _ _ (proj2 Hh))), outcome_bind_ret.
  by apply (splice_writes m s h l1 l2).
Qed.

(** ** Traversal *)
Lemma walk_spec m h l x fuel : chain m x l h → h ∉ l → (length l < fuel)%nat → nxt m x = Some (default h (head l)) →
  walk fuel m h (default h (head l)) = Ret (Some l).
Proof.
  revert x fuel. induction l as [|z l IH]; intros x fuel Hc Hh Hfuel Hx; destruct fuel as [|fuel];
    [simpl in Hfuel; lia| |simpl in Hfuel; lia|]; cbn [head default from_option id walk].
  - by rewrite Z.eqb_refl.
  - destruct (Z.eqb_spec z h) as [->|]; [set_solver|]. destruct Hc as [_ Hc].
    rewrite (get_next_ok _ _ _ (chain_first _ _ _ _ Hc)), outcome_bind_ret.
    rewrite (IH z); [done|done|set_solver|simpl in Hfuel; lia|]. by apply (chain_first _ _ _ _ Hc).
Qed.

Lemma list_for_each_spec m h l : is_list m h l → list_for_each m h = Ret (Some l).
Proof.
  intros Hil. pose proof Hil as [Hnd Hc]. unfold list_for_each.
  rewrite (get_next_ok _ _ _ (chain_first _ _ _ _ Hc)), outcome_bind_ret.
  apply (walk_spec m h l h); [done|by apply NoDup_cons in Hnd as [? _]| |by eapply chain_first].
  apply NoDup_cons in Hnd as [_ Hnd]. apply Nat.lt_succ_r.
  rewrite <- (size_list_to_set (C:=gset Z) l), <- size_dom by done.
  apply subseteq_size. intros a Ha. apply elem_of_dom. eapply is_list_nodes; [done|]. set_solver.
Qed.

End DList.

Import DList.

(** C34: on a ring that represents [l], the insertions at head and tail, the
    removal of a member and the traversal behave as [cons], append, removal
    from the sequence and enumeration, end after finitely many steps, and touch
    no node outside the ring. *)
Theorem list_ops_refine_sequences m h l x : is_list m h l → x ∉ h :: l → is_Some (m !! x) →
  (∃ m', list_add x h m = Ret m' ∧ is_list m' h (x :: l) ∧
     ∀ a, a ∉ x :: h :: l → m' !! a = m !! a) ∧
  (∃ m', list_add_tail x h m = Ret m' ∧ is_list m' h (l ++ [x]) ∧
     ∀ a, a ∉ x :: h :: l → m' !! a = m !! a) ∧
  (∀ l1 e l2, l = l1 ++ e :: l2 →
     ∃ m', list_del_init e m = Ret m' ∧ is_list m' h (l1 ++ l2) ∧ is_list m' e [] ∧
       ∀ a, a ∉ h :: l → m' !! a = m !! a) ∧
  list_for_each m h = Ret (Some l) ∧ list_count m h = Ret (Some (Z.of_nat (length l))) ∧
  list_first m h = Ret (head l).
Proof.
  intros Hil Hx Hdom. split_and!.
  - destruct (list_add_spec x h l m) as (m' & ? & ? & ? & _); eauto.
  - destruct (list_add_tail_spec x h l m) as (m' & ? & ? & ? & _); eauto.
  - intros l1 e l2 ->. destruct (list_del_init_spec h l1 e l2 m) as (m' & ? & ? & ? & ? & _); eauto.
  - by apply list_for_each_spec.
  - unfold list_count. by rewrite (list_for_each_spec _ _ _ Hil).
  - by apply list_first_spec.
Qed.

(** The ring of head 100 with nodes 1, 2 and 3, the lone head 200 and the
    unlinked node 9. *)
Definition demo_store : gmap Z list_head :=
  list_to_map [(100, mk_node 1 3); (1, mk_node 2 100); (2, mk_node 3 1); (3, mk_node 100 2);
               (200, mk_node 200 200); (9, mk_node 9 9)].

Lemma demo_ring : is_list demo_store 100 [1; 2; 3].
Proof. split; [vm_compute; repeat constructor; set_solver|]. repeat split. Qed.

Lemma list_ops_witness : ∃ m', list_add_tail 9 100 demo_store = Ret m' ∧ is_list m' 100 [1; 2; 3; 9].
Proof.
  destruct (list_ops_refine_sequences demo_store 100 [1; 2; 3] 9 demo_ring)
    as (_ & (m' & H1 & H2 & _) & _).
  - set_solver.
  - eexists. reflexivity.
  - exists m'. split; [exact H1|exact H2].
Defined.

(** [list_splice_init] moves all nodes of one ring in front of another
    ring's nodes, leaves the source empty and touches nothing else. *)
Theorem list_splice_init_correct m s h l1 l2 :
  is_list m s l2 → is_list m h l1 → NoDup (s :: l2 ++ h :: l1) →
  ∃ m', list_splice_init s h m = Ret m' ∧ is_list m' h (l2 ++ l1) ∧ is_list m' s [] ∧
    ∀ a, a ∉ s :: l2 ++ h :: l1 → m' !! a = m !! a.
Proof.
  intros. destruct (list_splice_init_spec m s h l1 l2) as (m' & ? & ? & ? & ? & _); eauto.
Qed.

Lemma list_splice_init_witness : ∃ m',
  list_splice_init 100 200 demo_store = Ret m' ∧ is_list m' 200 [1; 2; 3] ∧ is_list m' 100 [].
Proof.
  destruct (list_splice_init_correct demo_store 100 200 [] [1; 2; 3]) as (m' & H1 & H2 & H3 & _).
  - exact demo_ring.
  - split; [apply NoDup_singleton|split; reflexivity].
  - vm_compute. repeat constructor; set_solver.
  - exists m'. split; [exact H1|]. split; [exact H2|exact H3].
Defined.

(** [list_cut_position] with [entry] the first element should move
    nothing; instead the destination head is left pointing into the source ring
    without a link back, so a walk of it never meets its head again. *)
Theorem list_cut_position_at_first_corrupts : ∃ m',
  list_cut_position 200 100 1 demo_store = Ret m' ∧
  is_list m' 100 [1; 2; 3] ∧ nxt m' 200 = Some 1 ∧ prv m' 200 = Some 100 ∧ prv m' 1 = Some 100 ∧
  list_for_each m' 200 = Ret None.
Proof.
  eexists. split; [vm_compute; reflexivity|].
  split; [split; [repeat constructor; set_solver|repeat split]|]. vm_compute. auto.
Qed.
