(* ===== verification/Strings.v ===== *)
(** * C strings: [kernel/base/string.c]

    The string routines over the byte store of [Mem]. Every loop reads the
    store byte by byte in the source's order of evaluation; the pointer of a loop
    moves up by one in each turn and a read outside the store is a [Fault], so a
    loop makes at most [length m] turns and the fuel [S (length m)] is never what
    ends it. A pointer result is [None] for [NULL]. *)
From S2P Require Import Prelude Mem.
Import Mem.

Module Strings.

Implicit Types m l : list Z.

Definition fuel_of (m : list Z) : nat := S (length m).

(** ** Length and copy *)
Fixpoint strlen_loop (fuel : nat) (m : list Z) (p : Z) : outcome Z :=
  match fuel with
  | O => Fail Fault
  | S fuel' => c ← load m p; if c =? 0 then Ret p else strlen_loop fuel' m (p + 1)
  end.
Definition strlen (m : list Z) (s : Z) : outcome Z :=
  p ← strlen_loop (fuel_of m) m s; Ret (u64 (p - s)).

Fixpoint strnlen_loop (fuel : nat) (m : list Z) (p maxlen : Z) : outcome Z :=
  match fuel with
  | O => Fail Fault
  | S fuel' =>
      c ← load m p;
      if negb (c =? 0) && (0 <? maxlen) then strnlen_loop fuel' m (p + 1) (maxlen - 1) else Ret p
  end.
Definition strnlen (m : list Z) (s maxlen : Z) : outcome Z :=
  p ← strnlen_loop (fuel_of m) m s maxlen; Ret (u64 (p - s)).

Fixpoint strcpy_loop (fuel : nat) (d src : Z) (m : list Z) : outcome (list Z) :=
  match fuel with
  | O => Fail Fault
  | S fuel' =>
      c ← load m src; m ← store m d c;
      if c =? 0 then Ret m else strcpy_loop fuel' (d + 1) (src + 1) m
  end.
Definition strcpy (dest src : Z) (m : list Z) : outcome (list Z) := strcpy_loop (fuel_of m) dest src m.

Fixpoint strncpy_loop (fuel : nat) (d src n : Z) (m : list Z) : outcome (list Z) :=
  match fuel with
  | O => Fail Fault
  | S fuel' =>
      c ← load m src; m ← store m d c;
      if negb (c =? 0) && (0 <? n) then strncpy_loop fuel' (d + 1) (src + 1) (n - 1) m else Ret m
  end.
Definition strncpy (dest src n : Z) (m : list Z) : outcome (list Z) :=
  strncpy_loop (fuel_of m) dest src n m.

(** ** Comparison *)
Fixpoint strcmp_loop (fuel : nat) (m : list Z) (s1 s2 : Z) : outcome Z :=
  match fuel with
  | O => Fail Fault
  | S fuel' =>
      c1 ← load m s1;
      if c1 =? 0 then c2 ← load m s2; Ret (c1 - c2) else
      c2 ← load m s2;
      if c1 =? c2 then strcmp_loop fuel' m (s1 + 1) (s2 + 1) else Ret (c1 - c2)
  end.
Definition strcmp (m : list Z) (s1 s2 : Z) : outcome Z := strcmp_loop (fuel_of m) m s1 s2.

Fixpoint strncmp_loop (fuel : nat) (m : list Z) (s1 s2 n : Z) : outcome Z :=
  match fuel with
  | O => Fail Fault
  | S fuel' =>
      if n =? 0 then Ret 0 else
      c1 ← load m s1;
      if c1 =? 0 then c2 ← load m s2; Ret (c1 - c2) else
      c2 ← load m s2;
      if c1 =? c2 then strncmp_loop fuel' m (s1 + 1) (s2 + 1) (n - 1) else Ret (c1 - c2)
  end.
Definition strncmp (m : list Z) (s1 s2 n : Z) : outcome Z := strncmp_loop (fuel_of m) m s1 s2 n.

(** [char] is signed here; the comparison is made on the unsigned difference. *)
Definition tolower (c : Z) : Z :=
  if u32 (sext 8 c - 65) <=? 90 - 65 then u8 (Z.lor c 0x20) else c.

Fixpoint strcasecmp_loop (fuel : nat) (m : list Z) (s1 s2 : Z) : outcome Z :=
  match fuel with
  | O => Fail Fault
  | S fuel' =>
      b1 ← load m s1;
      b2 ← (if b1 =? 0 then Ret 0 else load m s2);
      if negb (b1 =? 0) && negb (b2 =? 0) then
        let c1 := tolower b1 in let c2 := tolower b2 in
        if c1 =? c2 then strcasecmp_loop fuel' m (s1 + 1) (s2 + 1) else Ret (c1 - c2)
      else b1 ← load m s1; b2 ← load m s2; Ret (tolower b1 - tolower b2)
  end.
Definition strcasecmp (m : list Z) (s1 s2 : Z) : outcome Z := strcasecmp_loop (fuel_of m) m s1 s2.

Fixpoint strncasecmp_loop (fuel : nat) (m : list Z) (s1 s2 n : Z) : outcome Z :=
  match fuel with
  | O => Fail Fault
  | S fuel' =>
      if n =? 0 then Ret 0 else
      b1 ← load m s1; b2 ← load m s2;
      let c1 := tolower b1 in let c2 := tolower b2 in
      if negb (c1 =? c2) then Ret (c1 - c2) else
      if c1 =? 0 then Ret 0 else strncasecmp_loop fuel' m (s1 + 1) (s2 + 1) (n - 1)
  end.
Definition strncasecmp (m : list Z) (s1 s2 n : Z) : outcome Z := strncasecmp_loop (fuel_of m) m s1 s2 n.

(** ** Search *)
Fixpoint strchr_loop (fuel : nat) (m : list Z) (s ch : Z) : outcome (option Z) :=
  match fuel with
  | O => Fail Fault
  | S fuel' =>
      c ← load m s;
      if c =? 0 then Ret (if ch =? 0 then Some s else None) else
      if c =? ch then Ret (Some s) else strchr_loop fuel' m (s + 1) ch
  end.
Definition strchr (m : list Z) (s c : Z) : outcome (option Z) := strchr_loop (fuel_of m) m s (u8 c).

Fixpoint strrchr_loop (fuel : nat) (m : list Z) (s ch : Z) (last : option Z) : outcome (option Z) :=
  match fuel with
  | O => Fail Fault
  | S fuel' =>
      c ← load m s;
      let last := if c =? ch then Some s else last in
      if c =? 0 then Ret last else strrchr_loop fuel' m (s + 1) ch last
  end.
Definition strrchr (m : list Z) (s c : Z) : outcome (option Z) := strrchr_loop (fuel_of m) m s (u8 c) None.

(** The inner loop of [strstr]: the position in the needle where it ends. *)
Fixpoint match_loop (fuel : nat) (m : list Z) (h n : Z) : outcome Z :=
  match fuel with
  | O => Fail Fault
  | S fuel' =>
      ch ← load m h;
      if ch =? 0 then Ret n else
      cn ← load m n;
      if cn =? 0 then Ret n else
      if ch =? cn then match_loop fuel' m (h + 1) (n + 1) else Ret n
  end.
Fixpoint strstr_loop (fuel : nat) (m : list Z) (haystack needle : Z) : outcome (option Z) :=
  match fuel with
  | O => Fail Fault
  | S fuel' =>
      c ← load m haystack;
      if c =? 0 then Ret None else
      n ← match_loop (fuel_of m) m haystack needle;
      cn ← load m n;
      if cn =? 0 then Ret (Some haystack) else strstr_loop fuel' m (haystack + 1) needle
  end.
Definition strstr (m : list Z) (haystack needle : Z) : outcome (option Z) :=
  c ← load m needle;
  if c =? 0 then Ret (Some haystack) else strstr_loop (fuel_of m) m haystack needle.

(** The scan of [accept] or [reject] for one byte, the inner loop of
    [strpbrk], [strspn] and [strcspn]. *)
Fixpoint in_set (fuel : nat) (m : list Z) (a c : Z) : outcome bool :=
  match fuel with
  | O => Fail Fault
  | S fuel' =>
      x ← load m a;
      if x =? 0 then Ret false else if c =? x then Ret true else in_set fuel' m (a + 1) c
  end.
Fixpoint strpbrk_loop (fuel : nat) (m : list Z) (s accept : Z) : outcome (option Z) :=
  match fuel with
  | O => Fail Fault
  | S fuel' =>
      c ← load m s;
      if c =? 0 then Ret None else
      b ← in_set (fuel_of m) m accept c;
      if (b : bool) then Ret (Some s) else strpbrk_loop fuel' m (s + 1) accept
  end.
Definition strpbrk (m : list Z) (s accept : Z) : outcome (option Z) := strpbrk_loop (fuel_of m) m s accept.

(** [strspn] ([stop = false]: it ends at the first byte outside the set) and
    [strcspn] ([stop = true]: it ends at the first byte inside it). *)
Fixpoint span_loop (fuel : nat) (m : list Z) (s set : Z) (stop : bool) (count : Z) : outcome Z :=
  match fuel with
  | O => Fail Fault
  | S fuel' =>
      c ← load m s;
      if c =? 0 then Ret count else
      b ← in_set (fuel_of m) m set c;
      if Bool.eqb b stop then Ret count else span_loop fuel' m (s + 1) set stop (count ⊞ 1)
  end.
Definition strspn (m : list Z) (s accept : Z) : outcome Z := span_loop (fuel_of m) m s accept false 0.
Definition strcspn (m : list Z) (s reject : Z) : outcome Z := span_loop (fuel_of m) m s reject true 0.

(** ** Tokens: the result, the new [*saveptr] and the store *)
Definition strtok_r (str : option Z) (delim : Z) (saveptr : option Z) (m : list Z)
    : outcome (option Z * option Z * list Z) :=
  match (match str with Some s => Some s | None => saveptr end) with
  | None => Ret (None, saveptr, m)
  | Some s =>
      k ← strspn m s delim;
      let token := s + k in
      c ← load m token;
      if c =? 0 then Ret (None, None, m) else
      k ← strcspn m token delim;
      let e := token + k in
      c ← load m e;
      if c =? 0 then Ret (Some token, None, m) else
      m ← store m e 0;
      Ret (Some token, Some (e + 1), m)
  end.
(** The static [save] pointer of [strtok] is the state it threads. *)
Definition strtok (str : option Z) (delim : Z) (save : option Z) (m : list Z)
    : outcome (option Z * option Z * list Z) := strtok_r str delim save m.

(** ** Strings in the store *)
Fixpoint cstr (m : list Z) (s : Z) (l : list Z) : Prop :=
  match l with
  | [] => zlookup m s = Some 0
  | c :: l' => zlookup m s = Some c ∧ c ≠ 0 ∧ cstr m (s + 1) l'
  end.

Lemma load_eq m a c : zlookup m a = Some c → load m a = Ret c.
Proof. unfold load. by intros ->. Qed.

Lemma cstr_head m s l : cstr m s l → zlookup m s = Some (default 0 (head l)).
Proof. destruct l; simpl; [done|]. by intros [? _]. Qed.

Lemma cstr_bound m s l : cstr m s l → 0 ≤ s ∧ s + Z.of_nat (length l) < Z.of_nat (length m).
Proof.
  revert s. induction l as [|c l IH]; intros s; cbn [cstr length].
  - intros H%zlookup_Some_lt. lia.
  - intros (H%zlookup_Some_lt & _ & Hl%IH). lia.
Qed.
Lemma cstr_fuel m s l : cstr m s l → (length l < fuel_of m)%nat.
Proof. intros H%cstr_bound. unfold fuel_of. lia. Qed.

Lemma cstr_nonzero m s l : cstr m s l → Forall (λ c, c ≠ 0) l.
Proof. revert s. induction l as [|c l IH]; intros s; [done|]. intros (_ & ? & ?). constructor; eauto. Qed.

Lemma cstr_app m s l1 l2 : cstr m s (l1 ++ l2) → cstr m (s + Z.of_nat (length l1)) l2.
Proof.
  revert s. induction l1 as [|c l1 IH]; intros s; cbn [cstr app length].
  - by rewrite Z.add_0_r.
  - intros (_ & _ & H%IH). by replace (s + Z.of_nat (S (length l1))) with (s + 1 + Z.of_nat (length l1)) by lia.
Qed.

Lemma cstr_frame m m' s l :
  (∀ i, s ≤ i ≤ s + Z.of_nat (length l) → zlookup m' i = zlookup m i) → cstr m s l → cstr m' s l.
Proof.
  revert s. induction l as [|c l IH]; intros s Hf; cbn [cstr length] in *.
  - rewrite Hf by lia. done.
  - intros (? & ? & Hc). rewrite Hf by lia. split_and!; [done..|]. apply IH; [|done].
    intros i Hi. apply Hf. lia.
Qed.

(** Writing a terminator over a byte of the string splits it. *)
Lemma cstr_cut m s l1 c l2 : cstr m s (l1 ++ c :: l2) →
  cstr (zinsert m (s + Z.of_nat (length l1)) 0) s l1 ∧
  cstr (zinsert m (s + Z.of_nat (length l1)) 0) (s + Z.of_nat (length l1) + 1) l2.
Proof.
  intros Hc. pose proof (cstr_bound _ _ _ Hc) as Hb. rewrite length_app in Hb. cbn [length] in Hb. split.
  - revert s Hc Hb. induction l1 as [|x l1 IH]; intros s Hc Hb; cbn [cstr app length] in *.
    + rewrite Z.add_0_r. apply zlookup_zinsert_eq. lia.
    + destruct Hc as (? & ? & Hc). rewrite zlookup_zinsert_ne by lia. split_and!; [done..|].
      replace (s + Z.of_nat (S (length l1))) with (s + 1 + Z.of_nat (length l1)) by lia.
      apply IH; [done|lia].
  - apply cstr_app in Hc as (_ & _ & Hc). eapply cstr_frame; [|done].
    intros i Hi. apply zlookup_zinsert_ne. lia.
Qed.

(** Runs one turn of a loop on a string whose first byte is known. *)
Ltac step H := rewrite (load_eq _ _ _ H), outcome_bind_ret.
Ltac byte_case := match goal with |- context [?a =? ?b] => destruct (Z.eqb_spec a b) end; try lia; try done.

Lemma strlen_loop_spec m s l fuel : cstr m s l → (length l < fuel)%nat →
  strlen_loop fuel m s = Ret (s + Z.of_nat (length l)).
Proof.
  revert s fuel. induction l as [|c l IH]; intros s [|f] Hc Hf; cbn [length] in *; try lia; cbn [strlen_loop].
  - step Hc. cbn. f_equal; lia.
  - destruct Hc as (H & ? & Hc). step H. byte_case. rewrite IH by (done || lia). f_equal; lia.
Qed.
Lemma strlen_spec m s l : Z.of_nat (length m) ≤ 2 ^ 64 → cstr m s l → strlen m s = Ret (Z.of_nat (length l)).
Proof.
  intros Hm Hc. unfold strlen. rewrite (strlen_loop_spec _ _ l) by eauto using cstr_fuel.
  cbn. f_equal. pose proof (cstr_bound _ _ _ Hc). rewrite u64_small; lia.
Qed.

Lemma strchr_loop_absent m s l ch fuel : cstr m s l → (length l < fuel)%nat → ch ≠ 0 → ch ∉ l →
  strchr_loop fuel m s ch = Ret None.
Proof.
  revert s fuel. induction l as [|c l IH]; intros s [|f] Hc Hf Hch Hn; cbn [length] in *; try lia; cbn [strchr_loop].
  - step Hc. cbn. byte_case.
  - destruct Hc as (H & ? & Hc). step H. apply not_elem_of_cons in Hn as [? ?]. byte_case. byte_case.
    apply IH; (done || lia).
Qed.

Lemma in_set_spec m a d c fuel : cstr m a d → (length d < fuel)%nat →
  in_set fuel m a c = Ret (bool_decide (c ∈ d)).
Proof.
  revert a fuel. induction d as [|x d IH]; intros a [|f] Hc Hf; cbn [length] in *; try lia; cbn [in_set].
  - step Hc. cbn. by rewrite bool_decide_eq_false_2 by set_solver.
  - destruct Hc as (H & ? & Hc). step H. byte_case. byte_case.
    + by rewrite bool_decide_eq_true_2 by (subst; left).
    + rewrite IH by (done || lia). f_equal. apply bool_decide_ext. set_solver.
Qed.

(** [strspn] and [strcspn] return the length of the longest prefix inside,
    respectively outside, the set. *)
Lemma span_loop_spec m s l set d stop count fuel :
  cstr m s l → cstr m set d → (length l < fuel)%nat → 0 ≤ count → count + Z.of_nat (length l) < 2 ^ 64 →
  ∃ l1 l2, l = l1 ++ l2 ∧ span_loop fuel m s set stop count = Ret (count + Z.of_nat (length l1)) ∧
    Forall (λ c, bool_decide (c ∈ d) = negb stop) l1 ∧
    (∀ c, head l2 = Some c → bool_decide (c ∈ d) = stop).
Proof.
  revert s count fuel. induction l as [|c l IH]; intros s count [|f] Hc Hd Hf H0 Hb; cbn [length] in *;
    try lia; cbn [span_loop].
  - step Hc. exists [], []. cbn. split_and!; [done|f_equal; lia|done..].
  - destruct Hc as (H & ? & Hc). step H. byte_case.
    rewrite (in_set_spec m set d) by eauto using cstr_fuel. rewrite outcome_bind_ret.
    destruct (Bool.eqb_spec (bool_decide (c ∈ d)) stop) as [He|He].
    + exists [], (c :: l). split_and!; [done|cbn; f_equal; lia|done|]. intros ? [= <-]. done.
    + rewrite u64_small by lia.
      destruct (IH (s + 1) (count + 1) f) as (l1 & l2 & -> & Hr & Hall & Hh); [done..|lia|lia|lia|].
      exists (c :: l1), l2. split_and!; [done|rewrite Hr; cbn [length]; f_equal; lia| |done].
      constructor; [|done]. destruct (bool_decide (c ∈ d)), stop; done.
Qed.

Lemma match_loop_spec m h lh n ln fuel : cstr m h lh → cstr m n ln → (length lh < fuel)%nat →
  ∃ p r, match_loop fuel m h n = Ret (n + Z.of_nat (length p)) ∧ ln = p ++ r ∧
    (r = [] ↔ ln `prefix_of` lh).
Proof.
  revert h n ln fuel. induction lh as [|c lh IH]; intros h n ln [|f] Hh Hn Hf; cbn [length] in *;
    try lia; cbn [match_loop].
  - step Hh. exists [], ln. cbn. split_and!; [f_equal; lia|done|].
    split; [by intros ->|]. intros H. by apply prefix_nil_inv in H.
  - destruct Hh as (H & ? & Hh). step H. byte_case. destruct ln as [|x ln]; cbn [cstr] in Hn.
    + step Hn. exists [], []. cbn. split_and!; [f_equal; lia|done|]. split; [|done]. intros _. apply prefix_nil.
    + destruct Hn as (Hx & ? & Hn). step Hx. byte_case. byte_case.
      * subst x. destruct (IH (h + 1) (n + 1) ln f) as (p & r & Hr & -> & Hi); [done..|lia|].
        exists (c :: p), r. split_and!; [rewrite Hr; cbn [length]; f_equal; lia|done|].
        rewrite Hi. split; [apply prefix_cons|apply prefix_cons_inv_2].
      * exists [], (x :: ln). split_and!; [cbn; f_equal; lia|done|]. split; [done|].
        intros Hp%prefix_cons_inv_1. lia.
Qed.

Lemma strstr_loop_spec m h lh n ln fuel : ln ≠ [] → cstr m h lh → cstr m n ln → (length lh < fuel)%nat →
  ∃ r, strstr_loop fuel m h n = Ret r ∧
    match r with
    | Some q => ∃ k, q = h + Z.of_nat k ∧ ln `prefix_of` drop k lh ∧
                     ∀ j, (j < k)%nat → ¬ ln `prefix_of` drop j lh
    | None => ∀ j, ¬ ln `prefix_of` drop j lh
    end.
Proof.
  intros Hne. revert h fuel. induction lh as [|c lh IH]; intros h [|f] Hh Hn Hf; cbn [length] in *;
    try lia; cbn [strstr_loop].
  - step Hh. cbn. eexists. split; [done|]. intros j. rewrite drop_nil. intros H. by apply prefix_nil_inv in H.
  - pose proof Hh as (H & ? & Hh'). step H. byte_case.
    destruct (match_loop_spec m h (c :: lh) n ln (fuel_of m)) as (p & r & -> & He & Hi);
      [done|done|by eapply cstr_fuel|]. rewrite outcome_bind_ret.
    pose proof Hn as Hn2. rewrite He in Hn2. apply cstr_app in Hn2. step (cstr_head _ _ _ Hn2).
    destruct r as [|x r]; cbn [head default from_option id].
    + eexists. split; [done|]. exists 0%nat. split_and!; [lia|by apply Hi|lia].
    + destruct Hn2 as (_ & ? & _). byte_case.
      destruct (IH (h + 1) f) as (r' & -> & Hr); [done..|lia|]. exists r'. split; [done|].
      assert (¬ ln `prefix_of` c :: lh) as Hno by (rewrite <- Hi; done).
      destruct r' as [q|].
      * destruct Hr as (k & -> & Hp & Hall). exists (S k). split_and!; [lia|done|].
        intros [|j] Hj; [done|]. apply Hall. lia.
      * intros [|j]; [done|]. apply Hr.
Qed.

Lemma strcmp_loop_spec m s1 l1 s2 l2 fuel : cstr m s1 l1 → cstr m s2 l2 → (length l1 < fuel)%nat →
  ∃ p r1 r2, l1 = p ++ r1 ∧ l2 = p ++ r2 ∧
    strcmp_loop fuel m s1 s2 = Ret (default 0 (head r1) - default 0 (head r2)) ∧
    (head r1 = head r2 → r1 = [] ∧ r2 = []).
Proof.
  revert s1 s2 l2 fuel. induction l1 as [|c l1 IH]; intros s1 s2 l2 [|f] H1 H2 Hf; cbn [length] in *;
    try lia; cbn [strcmp_loop].
  - step H1. cbn [Z.eqb]. step (cstr_head _ _ _ H2). exists [], [], l2. split_and!; [done..|].
    by destruct l2.
  - destruct H1 as (H & ? & H1). step H. byte_case. step (cstr_head _ _ _ H2). byte_case.
    + subst c. destruct l2 as [|x l2]; [done|]. cbn [head default from_option id] in *.
      destruct H2 as (_ & _ & H2).
      destruct (IH (s1 + 1) (s2 + 1) l2 f) as (p & r1 & r2 & -> & -> & -> & Hi); [done..|lia|].
      exists (x :: p), r1, r2. done.
    + exists [], (c :: l1), l2. split_and!; [done..|]. destruct l2; [done|]. cbn in *. by intros [= ->].
Qed.

(** [strncpy] copies the bytes up to and including the terminator or the byte
    at index [n], whichever comes first. *)
Lemma strncpy_loop_spec m d s l n fuel : cstr m s l → 0 ≤ n → (length l < fuel)%nat →
  let k := Z.min n (Z.of_nat (length l)) + 1 in
  valid m d k → d + k ≤ s ∨ s + Z.of_nat (length l) < d →
  ∃ m', strncpy_loop fuel d s n m = Ret m' ∧ written m m' d k (zlookup (l ++ [0])).
Proof.
  revert m d s n fuel. induction l as [|c l IH]; intros m d s n [|f] Hc Hn Hf k Hv Hdis; cbn [length] in *;
    try lia; cbn [strncpy_loop]; unfold valid in Hv.
  - step Hc. rewrite store_ok by lia. cbn. eexists. split; [done|]. split; [apply length_zinsert|].
    intros i. rewrite lookup_zinsert by lia. unfold k. split_range. by replace (i - d) with 0 by lia.
  - pose proof Hc as (H & ? & Hc'). step H. rewrite store_ok, outcome_bind_ret by lia. byte_case.
    cbn [negb andb]. destruct (Z.ltb_spec 0 n).
    + destruct (IH (zinsert m d c) (d + 1) (s + 1) (n - 1) f) as (m' & Hr & Hlen & Hw).
      * eapply cstr_frame; [|done]. intros i Hi. rewrite zlookup_zinsert_ne by lia. done.
      * lia.
      * lia.
      * unfold valid. rewrite length_zinsert. lia.
      * lia.
      * exists m'. split; [done|]. rewrite length_zinsert in Hlen. split; [done|].
        intros i. rewrite Hw, lookup_zinsert by lia. unfold k. split_range.
        -- rewrite !zlookup_nonneg by lia. cbn [app].
           by replace (Z.to_nat (i - d)) with (S (Z.to_nat (i - (d + 1)))) by lia.
        -- by replace (i - d) with 0 by lia.
    + eexists. split; [done|]. split; [apply length_zinsert|].
      intros i. rewrite lookup_zinsert by lia. unfold k. split_range. by replace (i - d) with 0 by lia.
Qed.

(** ** Tokens *)

(** The maximal non-empty fields of [l] without a byte of [d]. *)
Fixpoint fields (d l : list Z) : list (list Z) :=
  match l with
  | [] => []
  | c :: l' =>
      if bool_decide (c ∈ d) then fields d l' else
      match l' with
      | [] => [[c]]
      | c' :: _ =>
          if bool_decide (c' ∈ d) then [c] :: fields d l' else
          match fields d l' with [] => [[c]] | t :: ts => (c :: t) :: ts end
      end
  end.

Lemma fields_skip d l1 l2 : Forall (λ c, bool_decide (c ∈ d) = true) l1 → fields d (l1 ++ l2) = fields d l2.
Proof. induction 1 as [|c l1 Hc _ IH]; [done|]. cbn. by rewrite Hc. Qed.

Lemma fields_token d t l : t ≠ [] → Forall (λ c, bool_decide (c ∈ d) = false) t →
  (∀ c, head l = Some c → bool_decide (c ∈ d) = true) → fields d (t ++ l) = t :: fields d l.
Proof.
  intros Hne Ht Hl. induction Ht as [|c t Hc Ht IH]; [done|]. destruct t as [|c' t].
  - cbn. rewrite Hc. destruct l as [|x l]; [done|]. by rewrite (Hl x).
  - specialize (IH ltac:(done)). change (fields d ((c :: c' :: t) ++ l)) with
      (if bool_decide (c ∈ d) then fields d ((c' :: t) ++ l) else
       if bool_decide (c' ∈ d) then [c] :: fields d ((c' :: t) ++ l) else
       match fields d ((c' :: t) ++ l) with [] => [[c]] | u :: ts => (c :: u) :: ts end).
    rewrite IH, Hc. apply Forall_cons in Ht as [-> _]. done.
Qed.

(** One call: skips delimiters, returns the next field and leaves the rest of
    the string behind the save pointer; it writes inside the string only. *)
Lemma strtok_r_spec m s l delim d save :
  Z.of_nat (length m) ≤ 2 ^ 64 → cstr m s l → cstr m delim d →
  delim + Z.of_nat (length d) < s ∨ s + Z.of_nat (length l) < delim →
  (strtok_r (Some s) delim save m = Ret (None, None, m) ∧ fields d l = []) ∨
  ∃ p t save' m' rest, strtok_r (Some s) delim save m = Ret (Some p, save', m') ∧
    fields d l = t :: fields d rest ∧ cstr m' p t ∧ length m' = length m ∧
    s ≤ p ∧ p + Z.of_nat (length t) + Z.of_nat (length rest) ≤ s + Z.of_nat (length l) ∧
    (length rest < length l)%nat ∧
    (∀ i, i < s ∨ s + Z.of_nat (length l) ≤ i → zlookup m' i = zlookup m i) ∧
    match save' with
    | None => rest = []
    | Some q => cstr m' q rest ∧ p + Z.of_nat (length t) < q ∧
                q + Z.of_nat (length rest) = s + Z.of_nat (length l)
    end.
Proof.
  intros Hm Hc Hd Hdis. unfold strtok_r. pose proof (cstr_bound _ _ _ Hc) as Hb.
  destruct (span_loop_spec m s l delim d false 0 (fuel_of m)) as (sk & l1 & -> & Hr & Hsk & Hh1);
    [done..|by eapply cstr_fuel|lia|lia|].
  unfold strspn. rewrite Hr, outcome_bind_ret, Z.add_0_l. rewrite length_app in Hb.
  pose proof (cstr_app _ _ _ _ Hc) as Hc1. step (cstr_head _ _ _ Hc1).
  destruct l1 as [|c l1]; cbn [head default from_option id].
  { left. split; [done|]. by rewrite fields_skip. }
  right. pose proof Hc1 as (_ & Hc0 & _). byte_case.
  destruct (span_loop_spec m (s + Z.of_nat (length sk)) (c :: l1) delim d true 0 (fuel_of m))
    as (t & l2 & He & Hr2 & Ht & Hh2); [done..|by eapply cstr_fuel|lia|cbn [length] in *; lia|].
  unfold strcspn. rewrite Hr2, outcome_bind_ret, Z.add_0_l. rewrite He in *. rewrite length_app in Hb.
  assert (t ≠ []) as Htne.
  { intros ->. cbn [app] in He. subst l2. specialize (Hh1 c eq_refl). by rewrite (Hh2 c) in Hh1. }
  pose proof (cstr_app _ _ _ _ Hc1) as Hc2. step (cstr_head _ _ _ Hc2).
  destruct l2 as [|c2 l2]; cbn [head default from_option id].
  - eexists _, t, None, m, []. split; [done|].
    rewrite fields_skip, fields_token by done. rewrite app_nil_r in *.
    rewrite !length_app. cbn [length]. destruct t; [done|]. cbn [length]. split_and!; (done || lia).
  - pose proof Hc2 as (_ & Hc20 & _). byte_case. cbn [length] in Hb.
    rewrite store_ok, outcome_bind_ret by lia. destruct (cstr_cut _ _ _ _ _ Hc1) as [Hca Hcb].
    eexists _, t, (Some _), _, l2. split; [done|].
    rewrite fields_skip, fields_token by done. cbn [fields]. rewrite (Hh2 c2 eq_refl).
    rewrite !length_app, length_zinsert. cbn [length]. split_and!; try (done || lia).
    intros i Hi. apply zlookup_zinsert_ne. lia.
Qed.

(** [while ((tok = strtok_r(NULL, delim, &save)) != NULL)], collecting [tok]. *)
Fixpoint strtok_all (fuel : nat) (save : option Z) (delim : Z) (m : list Z) : outcome (list Z * list Z) :=
  match fuel with
  | O => Fail Fault
  | S fuel' =>
      r ← strtok_r None delim save m;
      match r with
      | (None, _, m) => Ret ([], m)
      | (Some p, save, m) => q ← strtok_all fuel' save delim m; Ret (p :: fst q, snd q)
      end
  end.

Lemma strtok_all_spec fuel m s l delim d :
  (length l < fuel)%nat → Z.of_nat (length m) ≤ 2 ^ 64 → cstr m s l → cstr m delim d →
  delim + Z.of_nat (length d) < s ∨ s + Z.of_nat (length l) < delim →
  ∃ ps m', strtok_all fuel (Some s) delim m = Ret (ps, m') ∧ Forall2 (cstr m') ps (fields d l) ∧
    ∀ i, i < s ∨ s + Z.of_nat (length l) ≤ i → zlookup m' i = zlookup m i.
Proof.
  revert m s l. induction fuel as [|fuel IH]; intros m s l Hf Hm Hc Hd Hdis; [lia|]. cbn [strtok_all].
  change (strtok_r None delim (Some s) m) with (strtok_r (Some s) delim (Some s) m).
  destruct (strtok_r_spec m s l delim d (Some s)) as
    [[-> ->]|(p & t & save' & m1 & rest & -> & -> & Ht & Hlen & Hp & Hle & Hlt & Hfr & Hsv)];
    [done..| |]; rewrite outcome_bind_ret.
  { eexists _, _. split_and!; [done|constructor|done]. }
  destruct save' as [q|].
  - destruct Hsv as (Hq & Hpq & Hql).
    destruct (IH m1 q rest) as (ps & m' & -> & Hall & Hfr2); [lia|lia|done| |lia|].
    { eapply cstr_frame; [|done]. intros i Hi. apply Hfr. lia. }
    rewrite outcome_bind_ret. eexists _, _. cbn. split_and!; [done| |].
    + constructor; [|done]. eapply cstr_frame; [|done]. intros i Hi. apply Hfr2. lia.
    + intros i Hi. rewrite Hfr2, Hfr by lia. done.
  - subst rest. destruct fuel; [lia|]. cbn [strtok_all strtok_r].
    rewrite !outcome_bind_ret. eexists _, _. cbn. split_and!; [done|by repeat constructor|done].
Qed.

End Strings.

Import Strings.

(** The loop over [strtok_r] ends and yields exactly the maximal
    delimiter-free fields of the string, in order, as terminated strings; no
    byte outside the string changes. *)
Theorem strtok_r_enumerates_fields m s l delim d :
  Z.of_nat (length m) ≤ 2 ^ 64 → cstr m s l → cstr m delim d →
  delim + Z.of_nat (length d) < s ∨ s + Z.of_nat (length l) < delim →
  ∃ ps m', strtok_all (S (length l)) (Some s) delim m = Ret (ps, m') ∧
    Forall2 (cstr m') ps (fields d l) ∧
    ∀ i, i < s ∨ s + Z.of_nat (length l) ≤ i → zlookup m' i = zlookup m i.
Proof. intros. apply strtok_all_spec; (done || lia). Qed.

(** The string "/a//bc" at 0 and the delimiter string "/" at 7. *)
Definition demo_mem : list Z := [47; 97; 47; 47; 98; 99; 0; 47; 0; 1; 2; 3; 4; 5].

Lemma strtok_r_witness : ∃ m', strtok_all 7 (Some 0) 7 demo_mem = Ret ([1; 4], m') ∧
  cstr m' 1 [97] ∧ cstr m' 4 [98; 99].
Proof.
  destruct (strtok_r_enumerates_fields demo_mem 0 [47; 97; 47; 47; 98; 99] 7 [47])
    as (ps & m' & Hr & Hall & _).
  - by vm_compute.
  - repeat split; done.
  - repeat split; done.
  - right. by vm_compute.
  - assert (ps = [1; 4]) as ->.
    { assert (fst <$> strtok_all 7 (Some 0) 7 demo_mem = Ret [1; 4]) as He by (vm_compute; reflexivity).
      cbn [length] in Hr. rewrite Hr in He. by injection He. }
    exists m'. split; [exact Hr|].
    change (fields [47] [47; 97; 47; 47; 98; 99]) with [[97]; [98; 99]] in Hall.
    inversion_clear Hall as [|? ? ? ? Ha Hb]. inversion_clear Hb as [|? ? ? ? Hb' _].
    split; [exact Ha|exact Hb'].
Defined.

(** [strstr] ends and returns the first position of the haystack at which
    the needle occurs, and NULL exactly when it occurs nowhere. *)
Theorem strstr_finds_first m h lh n ln : cstr m h lh → cstr m n ln →
  ∃ r, strstr m h n = Ret r ∧
    match r with
    | Some q => ∃ k, q = h + Z.of_nat k ∧ ln `prefix_of` drop k lh ∧
                     ∀ j, (j < k)%nat → ¬ ln `prefix_of` drop j lh
    | None => ∀ j, ¬ ln `prefix_of` drop j lh
    end.
Proof.
  intros Hh Hn. unfold strstr. step (cstr_head _ _ _ Hn). destruct ln as [|c ln].
  - eexists. split; [done|]. exists 0%nat. split_and!; [lia|apply prefix_nil|lia].
  - pose proof Hn as (_ & ? & _). cbn [head default from_option id]. byte_case.
    apply (strstr_loop_spec m h lh); [done..|by eapply cstr_fuel].
Qed.

Lemma strstr_witness : strstr demo_mem 0 7 = Ret (Some 0) ∧ [47] `prefix_of` [47; 97; 47; 47; 98; 99].
Proof.
  destruct (strstr_finds_first demo_mem 0 [47; 97; 47; 47; 98; 99] 7 [47]) as (r & Hr & Hq).
  - repeat split; done.
  - repeat split; done.
  - assert (r = Some 0) as -> by (vm_compute in Hr; injection Hr as <-; reflexivity).
    split; [exact Hr|]. destruct Hq as (k & Hk & Hp & _).
    replace k with 0%nat in Hp by lia. exact Hp.
Defined.

(** [strncpy] on a source longer than [n] writes [n + 1] bytes, one more
    than the size it was given, and no terminator. *)
Theorem strncpy_overruns m d s l n : cstr m s l → 0 ≤ n < Z.of_nat (length l) →
  valid m d (n + 1) → d + n < s ∨ s + Z.of_nat (length l) < d →
  ∃ m', strncpy d s n m = Ret m' ∧ written m m' d (n + 1) (zlookup l).
Proof.
  intros Hc Hn Hv Hdis. unfold strncpy.
  destruct (strncpy_loop_spec m d s l n (fuel_of m)) as (m' & Hr & Hlen & Hw);
    rewrite ?Z.min_l by lia; [done|lia|by eapply cstr_fuel|done|lia|].
  rewrite Z.min_l in Hw by lia. exists m'. split; [done|]. split; [done|]. intros i. rewrite Hw.
  split_range. rewrite !zlookup_nonneg by lia. apply lookup_app_l. lia.
Qed.

Lemma strncpy_overruns_witness : ∃ m',
  strncpy 9 0 4 demo_mem = Ret m' ∧ written demo_mem m' 9 5 (zlookup [47; 97; 47; 47; 98; 99]).
Proof.
  apply (strncpy_overruns demo_mem 9 0 [47; 97; 47; 47; 98; 99] 4).
  - repeat split; done.
  - simpl; lia.
  - unfold valid; simpl; lia.
  - right. simpl. lia.
Defined.
