(* ===== verification/StrConv.v ===== *)
(** * Numbers and strings: [kernel/base/strhelpers.c]

    [strtol], [strtoul] and the four integer printers, over the byte store of
    [Mem]. Signed overflow, which C leaves undefined, is a [Fault]; unsigned
    arithmetic wraps. *)
From S2P Require Import Prelude Mem Strings.
Import Mem Strings.

Module StrConv.

Implicit Types m l : list Z.

(** ** Character classes *)

(** The literal " \t\n\v\f\r". *)
Definition space_chars : list Z := [32; 9; 10; 11; 12; 13; 0].
Definition isspace (ch : Z) : outcome bool :=
  if ch =? 0 then Ret false else r ← strchr space_chars 0 ch; Ret (bool_decide (is_Some (r : option Z))).
Definition isdigit (ch : Z) : bool := (48 <=? sext 8 ch) && (sext 8 ch <=? 57).

(** ** Parsing *)
Fixpoint skip_space (fuel : nat) (m : list Z) (s : Z) : outcome Z :=
  match fuel with
  | O => Fail Fault
  | S fuel' => c ← load m s; b ← isspace c; if (b : bool) then skip_space fuel' m (s + 1) else Ret s
  end.

(** The prefix test: the base in force and where the digits start. *)
Definition is_x (c : Z) : bool := (c =? 120) || (c =? 88).
Definition detect_base (m : list Z) (s base : Z) : outcome (Z * Z) :=
  if base =? 0 then
    c ← load m s;
    if c =? 48 then
      x ← load m (s + 1);
      if is_x x then Ret (16, s + 2) else Ret (8, s + 1)
    else Ret (10, s)
  else if base =? 16 then
    c ← load m s;
    if c =? 48 then x ← load m (s + 1); if is_x x then Ret (16, s + 2) else Ret (16, s)
    else Ret (16, s)
  else Ret (base, s).

Definition digit_of (c : Z) : option Z :=
  let c := sext 8 c in
  if (48 <=? c) && (c <=? 57) then Some (c - 48)
  else if (97 <=? c) && (c <=? 122) then Some (c - 97 + 10)
  else if (65 <=? c) && (c <=? 90) then Some (c - 65 + 10)
  else None.

(** The digit loop; [acc] is the width's [result * base + digit]. *)
Fixpoint digit_loop (fuel : nat) (acc : Z → outcome Z) (m : list Z) (s base result : Z) : outcome (Z * Z) :=
  match fuel with
  | O => Fail Fault
  | S fuel' =>
      c ← load m s;
      if c =? 0 then Ret (s, result) else
      match digit_of c with
      | None => Ret (s, result)
      | Some digit =>
          if base <=? digit then Ret (s, result) else
          r ← acc (result * base + digit);
          digit_loop fuel' acc m (s + 1) base r
      end
  end.
Definition long_acc (x : Z) : outcome Z := if (- 2 ^ 63 <=? x) && (x <? 2 ^ 63) then Ret x else Fail Fault.
Definition ulong_acc (x : Z) : outcome Z := Ret (u64 x).

(** The result and the value stored through [endptr]. *)
Definition strtol (m : list Z) (nptr base : Z) : outcome (Z * Z) :=
  s ← skip_space (fuel_of m) m nptr;
  c ← load m s;
  let neg := c =? 45 in
  let s := if neg then s + 1 else if c =? 43 then s + 1 else s in
  bs ← detect_base m s base;
  let '(base, start) := bs : Z * Z in
  r ← digit_loop (fuel_of m) long_acc m start base 0;
  let '(s, result) := r : Z * Z in
  Ret (if neg then - result else result, if s =? start then nptr else s).
Definition strtoll (m : list Z) (nptr base : Z) : outcome (Z * Z) := strtol m nptr base.

Definition strtoul (m : list Z) (nptr base : Z) : outcome (Z * Z) :=
  s ← skip_space (fuel_of m) m nptr;
  c ← load m s;
  let s := if c =? 43 then s + 1 else s in
  bs ← detect_base m s base;
  let '(base, start) := bs : Z * Z in
  r ← digit_loop (fuel_of m) ulong_acc m start base 0;
  let '(s, result) := r : Z * Z in
  Ret (result, if s =? start then nptr else s).

Definition atoi (m : list Z) (nptr : Z) : outcome Z :=
  r ← strtol m nptr 10; Ret (s32 (fst r)).

(** ** Printing *)

(** [while (i < j)] of [reverse_str]; [i] and [j] close in on each other, so
    [len] turns are enough. *)
Fixpoint reverse_loop (fuel : nat) (str i j : Z) (m : list Z) : outcome (list Z) :=
  match fuel with
  | O => Ret m
  | S fuel' =>
      if i <? j then
        tmp ← load m (str + i);
        c ← load m (str + j);
        m ← store m (str + i) c;
        m ← store m (str + j) tmp;
        reverse_loop fuel' str (i + 1) (j - 1) m
      else Ret m
  end.
Definition reverse_str (str len : Z) (m : list Z) : outcome (list Z) :=
  reverse_loop (Z.to_nat len) str 0 (len - 1) m.

Definition digit_char (d : Z) : Z := if d <? 10 then 48 + d else 97 + d - 10.

(** The [do ... while (uval != 0)] loop: the next index and the store. A value
    below [2^64] has at most 64 digits in a base of two or more. *)
Fixpoint print_loop (fuel : nat) (uval base str i : Z) (m : list Z) : outcome (Z * list Z) :=
  match fuel with
  | O => Fail Fault
  | S fuel' =>
      m ← store m (str + i) (digit_char (uval mod base));
      let uval := uval / base in
      if uval =? 0 then Ret (i + 1, m) else print_loop fuel' uval base str (i + 1) m
  end.

(** The common tail: digits, optional sign, terminator, reversal. *)
Definition print_num (uval base str : Z) (neg : bool) (m : list Z) : outcome (list Z) :=
  im ← print_loop 65 uval base str 0 m;
  let '(i, m) := im : Z * list Z in
  m ← (if neg then store m (str + i) 45 else Ret m);
  let i := if neg then i + 1 else i in
  m ← store m (str + i) 0;
  reverse_str str i m.

Definition bad_base (base : Z) : bool := (base <? 2) || (36 <? base).

Definition itoa (value str base : Z) (m : list Z) : outcome (list Z) :=
  if bad_base base then store m str 0 else
  if (value <? 0) && (base =? 10) then
    if value =? - 2 ^ 31 then Fail Fault (* -INT_MIN *)
    else print_num (u32 (- value)) base str true m
  else print_num (u32 value) base str false m.
Definition uitoa (value str base : Z) (m : list Z) : outcome (list Z) :=
  if bad_base base then store m str 0 else print_num value base str false m.
Definition itoa_signed (value str base : Z) (m : list Z) : outcome (list Z) :=
  if bad_base base then store m str 0 else
  if (value <? 0) && (base =? 10) then
    if value =? - 2 ^ 63 then Fail Fault (* -INT64_MIN *)
    else print_num (u64 (- value)) base str true m
  else print_num (u64 value) base str false m.
Definition uitoa64 (value str base : Z) (m : list Z) : outcome (list Z) :=
  if bad_base base then store m str 0 else print_num value base str false m.

(** ** Digits *)

(** The value of a digit list, least significant digit first. *)
Definition dvalue (base : Z) (ds : list Z) : Z := foldr (λ d a, d + base * a) 0 ds.
Definition horner (base a : Z) (ds : list Z) : Z := foldl (λ a d, a * base + d) a ds.

(** The digits of a number, least significant first. *)
Fixpoint digits_of (fuel : nat) (base u : Z) : list Z :=
  match fuel with
  | O => []
  | S fuel' => u mod base :: if u / base =? 0 then [] else digits_of fuel' base (u / base)
  end.
Definition numeral (base u : Z) : list Z := digit_char <$> reverse (digits_of 65 base u).

Lemma horner_snoc base a ds d : horner base a (ds ++ [d]) = horner base a ds * base + d.
Proof. unfold horner. by rewrite foldl_app. Qed.
Lemma horner_reverse base ds : horner base 0 (reverse ds) = dvalue base ds.
Proof.
  induction ds as [|d ds IH]; [done|]. rewrite reverse_cons, horner_snoc, IH. unfold dvalue. simpl. lia.
Qed.
Lemma horner_ge base a ds : 1 ≤ base → 0 ≤ a → Forall (λ d, 0 ≤ d < base) ds → a ≤ horner base a ds.
Proof.
  intros Hb. revert a. induction ds as [|d ds IH]; intros a Ha Hds; cbn; [lia|].
  apply Forall_cons in Hds as [Hd Hds]. specialize (IH (a * base + d) ltac:(nia) Hds).
  unfold horner in IH |- *. nia.
Qed.

Lemma sext8_small c : 0 ≤ c < 128 → sext 8 c = c.
Proof.
  intros. unfold sext. rewrite Z.mod_small by lia. change (2 ^ (8 - 1)) with 128.
  destruct (Z.ltb_spec c 128); lia.
Qed.
Lemma digit_of_char d : 0 ≤ d < 36 → digit_of (digit_char d) = Some d.
Proof.
  intros. unfold digit_of, digit_char. destruct (Z.ltb_spec d 10); rewrite sext8_small by lia; cbv zeta;
    repeat match goal with |- context [?a <=? ?b] => destruct (Z.leb_spec a b); try lia; cbn [andb] end;
    f_equal; lia.
Qed.
Lemma digit_char_range d : 0 ≤ d < 36 → 48 ≤ digit_char d ≤ 57 ∨ 97 ≤ digit_char d ≤ 122.
Proof. unfold digit_char. destruct (Z.ltb_spec d 10); lia. Qed.

Lemma isspace_false c : 33 ≤ c < 128 → isspace c = Ret false.
Proof.
  intros Hc. unfold isspace, strchr, fuel_of, space_chars. rewrite u8_small by lia.
  destruct (Z.eqb_spec c 0); [done|].
  rewrite (strchr_loop_absent _ _ [32; 9; 10; 11; 12; 13]); [done|by repeat split|cbn; lia|lia|].
  rewrite !not_elem_of_cons. split_and!; try lia. apply not_elem_of_nil.
Qed.

Lemma digit_loop_spec m s base a ds fuel : 1 ≤ base ≤ 36 → 0 ≤ a → Forall (λ d, 0 ≤ d < base) ds →
  horner base a ds < 2 ^ 63 → cstr m s (digit_char <$> ds) → (length ds < fuel)%nat →
  digit_loop fuel long_acc m s base a = Ret (s + Z.of_nat (length ds), horner base a ds).
Proof.
  intros Hb. revert s a fuel. induction ds as [|d ds IH]; intros s a [|f] Ha Hds Hh Hc Hf;
    cbn [length] in *; try lia; cbn [digit_loop].
  - rewrite (load_eq _ _ _ Hc), outcome_bind_ret. cbn. do 2 f_equal. lia.
  - apply Forall_cons in Hds as [Hd Hds]. destruct Hc as (H & ? & Hc).
    rewrite (load_eq _ _ _ H), outcome_bind_ret. destruct (Z.eqb_spec (digit_char d) 0); [done|].
    rewrite digit_of_char by lia. destruct (Z.leb_spec base d); [lia|].
    change (horner base a (d :: ds)) with (horner base (a * base + d) ds) in *.
    pose proof (horner_ge base (a * base + d) ds ltac:(lia) ltac:(nia) Hds).
    unfold long_acc. destruct (Z.leb_spec (- 2 ^ 63) (a * base + d)); [|nia].
    destruct (Z.ltb_spec (a * base + d) (2 ^ 63)); [|lia]. cbn [andb]. rewrite outcome_bind_ret.
    rewrite IH by (done || lia || nia). do 2 f_equal. lia.
Qed.

(** ** The printers *)
Lemma digits_of_spec fuel n base u : 2 ≤ base → 0 ≤ u < base ^ Z.of_nat n → (0 < n ≤ fuel)%nat →
  let ds := digits_of fuel base u in
  dvalue base ds = u ∧ Forall (λ d, 0 ≤ d < base) ds ∧ (0 < length ds ≤ n)%nat.
Proof.
  intros Hb. revert n u. induction fuel as [|f IH]; intros n u Hu Hn; [lia|]. cbn [digits_of].
  pose proof (Z.mod_pos_bound u base ltac:(lia)) as Hmod.
  pose proof (Z.div_mod u base ltac:(lia)) as Hdm.
  destruct (Z.eqb_spec (u / base) 0) as [Hz|Hz].
  - cbn. split_and!; [lia|by apply Forall_singleton|lia|lia].
  - destruct n as [|n]; [lia|]. rewrite Nat2Z.inj_succ, Z.pow_succ_r in Hu by lia.
    assert (0 ≤ u / base < base ^ Z.of_nat n).
    { split; [apply Z.div_pos; lia|]. apply Z.div_lt_upper_bound; lia. }
    destruct n as [|n]; [change (base ^ Z.of_nat 0) with 1 in *; lia|].
    destruct (IH (S n) (u / base)) as (Hv & Hall & Hl); [lia|lia|].
    cbn [dvalue foldr length] in *. split_and!; [|by constructor|lia|lia].
    unfold dvalue in Hv. rewrite Hv. lia.
Qed.

Lemma print_loop_spec fuel n u base str i m :
  2 ≤ base → 0 ≤ u < base ^ Z.of_nat n → (0 < n ≤ fuel)%nat → valid m (str + i) (Z.of_nat n) →
  let ds := digits_of fuel base u in
  ∃ m', print_loop fuel u base str i m = Ret (i + Z.of_nat (length ds), m') ∧
    written m m' (str + i) (Z.of_nat (length ds)) (zlookup (digit_char <$> ds)).
Proof.
  intros Hb. revert n u i m. induction fuel as [|f IH]; intros n u i m Hu Hn Hv; [lia|].
  cbn [print_loop digits_of]. unfold valid in Hv. rewrite store_ok, outcome_bind_ret by lia.
  destruct (Z.eqb_spec (u / base) 0) as [Hz|Hz].
  - eexists. split; [done|]. split; [apply length_zinsert|].
    intros j. rewrite lookup_zinsert by lia. cbn. split_range. by replace (j - (str + i)) with 0 by lia.
  - destruct n as [|n]; [lia|]. rewrite Nat2Z.inj_succ, Z.pow_succ_r in Hu by lia.
    assert (0 ≤ u / base < base ^ Z.of_nat n).
    { split; [apply Z.div_pos; lia|]. apply Z.div_lt_upper_bound; lia. }
    destruct n as [|n]; [change (base ^ Z.of_nat 0) with 1 in *; lia|].
    destruct (IH (S n) (u / base) (i + 1) (zinsert m (str + i) (digit_char (u mod base))))
      as (m' & -> & Hl & Hw); [lia|lia|unfold valid; rewrite length_zinsert; lia|].
    exists m'. split; [cbn [length]; do 2 f_equal; lia|].
    split; [by rewrite Hl, length_zinsert|]. intros j. rewrite Hw, lookup_zinsert by lia.
    cbn [length fmap list_fmap]. split_range.
    + rewrite !zlookup_nonneg by lia.
      by replace (Z.to_nat (j - (str + i))) with (S (Z.to_nat (j - (str + (i + 1))))) by lia.
    + by replace (j - (str + i)) with 0 by lia.
Qed.

Lemma reverse_loop_spec fuel str i j m : 0 ≤ str + i → i ≤ j + 1 → j + 1 - i ≤ Z.of_nat fuel →
  str + j < Z.of_nat (length m) →
  ∃ m', reverse_loop fuel str i j m = Ret m' ∧
    written m m' (str + i) (j + 1 - i) (λ k, zlookup m (str + j - k)).
Proof.
  revert i j m. induction fuel as [|f IH]; intros i j m H0 Hij Hf Hl; cbn [reverse_loop].
  - exists m. split; [done|]. split; [done|]. intros k. split_range.
  - destruct (Z.ltb_spec i j).
    + destruct (load_ok m (str + i)) as (a & -> & Ha); [lia|]. destruct (load_ok m (str + j)) as (b & -> & Hb); [lia|].
      rewrite !outcome_bind_ret, store_ok, outcome_bind_ret, store_ok, outcome_bind_ret
        by (rewrite ?length_zinsert; lia).
      destruct (IH (i + 1) (j - 1) (zinsert (zinsert m (str + i) b) (str + j) a)) as (m' & -> & Hlen & Hw);
        [lia|lia|lia|rewrite !length_zinsert; lia|].
      exists m'. split; [done|]. rewrite !length_zinsert in Hlen. split; [done|]. intros k. rewrite Hw.
      rewrite !lookup_zinsert by (rewrite ?length_zinsert; lia).
      split_range; subst;
        first [rewrite <- Ha; f_equal; lia | rewrite <- Hb; f_equal; lia | f_equal; lia].
    + exists m. split; [done|]. split; [done|]. intros k. split_range. f_equal. lia.
Qed.

Lemma cstr_of_lookup m s l : Forall (λ c, c ≠ 0) l →
  (∀ i, 0 ≤ i < Z.of_nat (length l) → zlookup m (s + i) = zlookup l i) →
  zlookup m (s + Z.of_nat (length l)) = Some 0 → cstr m s l.
Proof.
  revert s. induction l as [|c l IH]; intros s Hnz Hl Hz; cbn [cstr length] in *.
  - by rewrite Z.add_0_r in Hz.
  - apply Forall_cons in Hnz as [? ?]. split_and!; [|done|].
    + specialize (Hl 0 ltac:(lia)). rewrite Z.add_0_r in Hl. exact Hl.
    + apply IH; [done| |by replace (s + 1 + Z.of_nat (length l)) with (s + Z.of_nat (S (length l))) by lia].
      intros i Hi. replace (s + 1 + i) with (s + (i + 1)) by lia. rewrite Hl, !zlookup_nonneg by lia.
      by replace (Z.to_nat (i + 1)) with (S (Z.to_nat i)) by lia.
Qed.

(** Reversing a written block in place. *)
Lemma reverse_str_spec m str l : 0 ≤ str → str + Z.of_nat (length l) < Z.of_nat (length m) →
  Forall (λ c, c ≠ 0) l → (∀ i, 0 ≤ i < Z.of_nat (length l) → zlookup m (str + i) = zlookup l i) →
  zlookup m (str + Z.of_nat (length l)) = Some 0 →
  ∃ m', reverse_str str (Z.of_nat (length l)) m = Ret m' ∧ cstr m' str (reverse l) ∧ length m' = length m ∧
    ∀ i, i < str ∨ str + Z.of_nat (length l) ≤ i → zlookup m' i = zlookup m i.
Proof.
  intros Hs Hb Hnz Hl Hz. unfold reverse_str.
  destruct (reverse_loop_spec (Z.to_nat (Z.of_nat (length l))) str 0 (Z.of_nat (length l) - 1) m)
    as (m' & Hr & Hlen & Hw); [lia..|].
  exists m'. split; [done|]. split_and!; [|done|].
  - apply cstr_of_lookup; [by apply Forall_reverse| |]; rewrite length_reverse.
    + intros i Hi. rewrite Hw. split_range.
      replace (str + (Z.of_nat (length l) - 1) - (str + i - (str + 0)))
        with (str + (Z.of_nat (length l) - 1 - i)) by lia.
      rewrite Hl, !zlookup_nonneg by lia. rewrite reverse_lookup by lia. f_equal. lia.
    + rewrite Hw. split_range.
  - intros i Hi. rewrite Hw. split_range.
Qed.

Definition sign (neg : bool) : list Z := if neg then [45] else [].

(** A number of at most [n] digits needs [n + 2] bytes: sign and terminator. *)
Lemma print_num_spec n u base str neg m : 2 ≤ base ≤ 36 → 0 ≤ u < base ^ Z.of_nat n → (0 < n ≤ 65)%nat →
  valid m str (Z.of_nat n + 2) →
  ∃ m', print_num u base str neg m = Ret m' ∧ cstr m' str (sign neg ++ numeral base u) ∧
    length m' = length m ∧ ∀ i, i < str ∨ str + Z.of_nat n + 2 ≤ i → zlookup m' i = zlookup m i.
Proof.
  intros Hb Hu Hn65 Hv. unfold print_num, valid, numeral in *.
  destruct (digits_of_spec 65 n base u) as (Hval & Hall & Hlen); [lia..|].
  destruct (print_loop_spec 65 n u base str 0 m) as (m1 & -> & Hl1 & Hw);
    [lia|lia|lia|unfold valid; lia|].
  revert Hval Hall Hlen Hw. generalize (digits_of 65 base u). intros ds Hval Hall Hlen Hw.
  rewrite outcome_bind_ret, Z.add_0_l, Z.add_0_r in *.
  assert (0 < Z.of_nat (length ds) ≤ Z.of_nat n) as Hn by lia.
  rename n into nmax. set (n := Z.of_nat (length ds)) in *.
  set (l := (digit_char <$> ds) ++ sign neg).
  assert (Z.of_nat (length l) = if neg then n + 1 else n) as Hll.
  { unfold l. rewrite length_app, length_fmap. destruct neg; cbn; lia. }
  set (m2 := if neg then zinsert m1 (str + n) 45 else m1).
  assert ((if neg then store m1 (str + n) 45 else Ret m1) = Ret m2) as ->.
  { unfold m2. destruct neg; [apply store_ok; lia|done]. }
  assert (length m2 = length m) as Hl2 by (unfold m2; destruct neg; rewrite ?length_zinsert; done).
  rewrite outcome_bind_ret. cbv zeta. rewrite <- Hll.
  rewrite store_ok, outcome_bind_ret by (destruct neg; lia).
  assert (∀ i, zlookup m2 i = if (str <=? i) && (i <? str + Z.of_nat (length l)) then zlookup l (i - str) else zlookup m i) as Hm2.
  { intros i. rewrite Hll. unfold m2, l. destruct neg; [rewrite lookup_zinsert by lia|]; rewrite Hw; fold n; split_range.
    - rewrite !zlookup_nonneg by lia. rewrite lookup_app_l by (rewrite length_fmap; lia). done.
    - subst i. rewrite zlookup_nonneg by lia. rewrite lookup_app_r, length_fmap by (rewrite length_fmap; lia).
      by replace (Z.to_nat (str + n - str) - length ds)%nat with 0%nat by lia.
    - by rewrite app_nil_r. }
  destruct (reverse_str_spec (zinsert m2 (str + Z.of_nat (length l)) 0) str l) as (m' & -> & Hc & Hl' & Hfr).
  - lia.
  - rewrite length_zinsert, Hl2, Hll. destruct neg; lia.
  - unfold l. apply Forall_app. split; [|destruct neg; by repeat constructor].
    apply Forall_fmap. eapply Forall_impl; [done|]. intros d Hd. cbn.
    cbn in Hd. pose proof (digit_char_range d ltac:(lia)). lia.
  - intros i Hi. rewrite lookup_zinsert, Hm2 by (rewrite Hl2, Hll; destruct neg; lia). split_range. f_equal. lia.
  - rewrite lookup_zinsert by (rewrite Hl2, Hll; destruct neg; lia). by rewrite Z.eqb_refl.
  - exists m'. split_and!; [done| |by rewrite Hl', length_zinsert|].
    + unfold l in Hc. rewrite reverse_app, <- fmap_reverse in Hc. by destruct neg.
    + assert (Z.of_nat (length l) ≤ Z.of_nat nmax + 1) by (rewrite Hll; destruct neg; lia).
      intros i Hi. rewrite Hfr, lookup_zinsert, Hm2 by lia. split_range.
Qed.

(** 64 digits are enough for 64 bits (the exponent is kept abstract). *)
Lemma u64_digits base u : 2 ≤ base → 0 ≤ u < 2 ^ 64 → ∃ n, n = 64%nat ∧ u < base ^ Z.of_nat n.
Proof.
  intros Hb [_ Hu]. exists 64%nat. split; [done|]. eapply Z.lt_le_trans; [exact Hu|].
  apply (Z.pow_le_mono_l 2 base 64). split; [done|exact Hb].
Qed.

(** [strtol] on a printed number. *)
Lemma strtol_digits m s base neg ds : 2 ≤ base ≤ 36 → Forall (λ d, 0 ≤ d < base) ds → ds ≠ [] →
  dvalue base ds < 2 ^ 63 → cstr m s (sign neg ++ (digit_char <$> reverse ds)) →
  strtol m s base = Ret (if neg then - dvalue base ds else dvalue base ds,
                         s + Z.of_nat (length (sign neg ++ ds))).
Proof.
  intros Hb Hds Hne Hv Hc. apply Forall_reverse in Hds. rewrite <- horner_reverse in *.
  assert (length (sign neg ++ ds) = length (sign neg ++ reverse ds)) as ->
    by (rewrite !length_app, length_reverse; done).
  assert (reverse ds ≠ []) as Hne' by (intros H; apply Hne; apply (f_equal reverse) in H; by rewrite reverse_involutive in H).
  revert Hds Hne' Hv Hc. generalize (reverse ds). clear Hne ds. intros ds Hds Hne Hv Hc.
  assert (∃ c l, sign neg ++ (digit_char <$> ds) = c :: l ∧ 33 ≤ c < 128 ∧ (c =? 45) = neg ∧ c ≠ 43) as (c & l & He & Hr & Hn & Hp).
  { destruct neg; cbn; [by eexists _, _|]. destruct ds as [|d ds]; [done|]. cbn. eexists _, _. split; [done|].
    apply Forall_cons in Hds as [Hd _]. pose proof (digit_char_range d ltac:(lia)). split_and!; [lia|lia| |lia].
    apply Z.eqb_neq. lia. }
  unfold strtol. rewrite He in Hc. pose proof Hc as (Hx & _).
  assert (skip_space (fuel_of m) m s = Ret s) as ->.
  { cbn [fuel_of skip_space]. rewrite (load_eq _ _ _ Hx), outcome_bind_ret, isspace_false by done. done. }
  rewrite outcome_bind_ret, (load_eq _ _ _ Hx), outcome_bind_ret, Hn. destruct (Z.eqb_spec c 43); [done|].
  assert (cstr m (s + Z.of_nat (length (sign neg))) (digit_char <$> ds)) as Hcd.
  { apply cstr_app. by rewrite He. }
  replace (if neg then s + 1 else s) with (s + Z.of_nat (length (sign neg))) by (destruct neg; cbn; lia).
  assert (detect_base m (s + Z.of_nat (length (sign neg))) base = Ret (base, s + Z.of_nat (length (sign neg)))) as ->.
  { unfold detect_base. destruct (Z.eqb_spec base 0); [lia|]. destruct (Z.eqb_spec base 16) as [->|]; [|done].
    rewrite (load_eq _ _ _ (cstr_head _ _ _ Hcd)), outcome_bind_ret. destruct (_ =? 48); [|done].
    destruct ds as [|d ds]; [done|]. destruct Hcd as (_ & _ & Hcd).
    rewrite (load_eq _ _ _ (cstr_head _ _ _ Hcd)), outcome_bind_ret.
    destruct ds as [|d2 ds]; cbn; [done|]. do 2 (apply Forall_cons in Hds as [? Hds]).
    unfold is_x, digit_char. destruct (Z.ltb_spec d2 10); repeat (match goal with |- context [?a =? ?b] =>
      destruct (Z.eqb_spec a b); [lia|] end); done. }
  rewrite outcome_bind_ret, (digit_loop_spec _ _ _ _ ds), outcome_bind_ret;
    [|lia|lia|done|done|done|pose proof (cstr_fuel _ _ _ Hcd); by rewrite length_fmap in *].
  assert (0 < length ds)%nat by (destruct ds; [done|cbn; lia]).
  destruct (Z.eqb_spec (s + Z.of_nat (length (sign neg)) + Z.of_nat (length ds)) (s + Z.of_nat (length (sign neg)))); [lia|].
  rewrite length_app. do 2 f_equal. lia.
Qed.

End StrConv.

Import StrConv.

(** Printing a 64-bit value and parsing the text gives the value back, in
    base ten for every value but the least one and in every other base for the
    non-negative ones; the text is terminated, ends where [endptr] says, and at
    most 66 bytes of the buffer change. *)
Theorem itoa_strtol_roundtrip m value str base : 2 ≤ base ≤ 36 → valid m str 66 →
  - 2 ^ 63 < value < 2 ^ 63 → 0 ≤ value ∨ base = 10 →
  ∃ m' l, itoa_signed value str base m = Ret m' ∧ cstr m' str l ∧
    strtol m' str base = Ret (value, str + Z.of_nat (length l)) ∧
    ∀ i, i < str ∨ str + 66 ≤ i → zlookup m' i = zlookup m i.
Proof.
  intros Hb Hv Hval Hsign. unfold itoa_signed, bad_base.
  destruct (Z.ltb_spec base 2), (Z.ltb_spec 36 base); [lia..|]. cbn [orb].
  set (neg := (value <? 0) && (base =? 10)).
  assert (neg = (value <? 0)) as Hneg.
  { unfold neg. destruct (Z.ltb_spec value 0), (Z.eqb_spec base 10); try done; lia. }
  assert ((if neg then if value =? - 2 ^ 63 then Fail Fault else print_num (u64 (- value)) base str true m
           else print_num (u64 value) base str false m) = print_num (Z.abs value) base str neg m) as ->.
  { rewrite Hneg. destruct (Z.ltb_spec value 0), (Z.eqb_spec value (- 2 ^ 63)); try lia;
      rewrite u64_small by lia; [rewrite Z.abs_neq by lia|rewrite Z.abs_eq by lia]; reflexivity. }
  destruct (u64_digits base (Z.abs value)) as (n & Hn & Hpow); [lia|lia|].
  destruct (print_num_spec n (Z.abs value) base str neg m) as (m' & Hp & Hc & _ & Hfr);
    [lia|lia|lia|unfold valid in *; lia|]. rewrite Hp.
  destruct (digits_of_spec 65 n base (Z.abs value)) as (Hd & Hall & Hlen); [lia..|].
  exists m', (sign neg ++ numeral base (Z.abs value)). split_and!; [done|done| |].
  - rewrite (strtol_digits m' str base neg (digits_of 65 base (Z.abs value))); [|lia|done| |lia|done].
    + rewrite Hd. unfold numeral. rewrite !length_app, length_fmap, length_reverse.
      do 2 f_equal. rewrite Hneg. destruct (Z.ltb_spec value 0); lia.
    + intros He. rewrite He in Hlen. cbn in Hlen. lia.
  - intros i Hi. apply Hfr. lia.
Qed.

Lemma itoa_strtol_witness : ∃ m' l, itoa_signed (-42) 1 10 (replicate 70 7) = Ret m' ∧ cstr m' 1 l ∧
  strtol m' 1 10 = Ret (-42, 1 + Z.of_nat (length l)).
Proof.
  destruct (itoa_strtol_roundtrip (replicate 70 7) (-42) 1 10) as (m' & l & H1 & H2 & H3 & _).
  - lia.
  - unfold valid. vm_compute. intuition congruence.
  - lia.
  - by right.
  - exists m', l. split; [exact H1|]. split; [exact H2|exact H3].
Defined.
