(* ===== verification/Format.v ===== *)
(** * Formatted output: [kernel/klogs/private/format.c] and [ksnprintf.c]

    The output buffer and the static number buffer [g_format_buffer] (32 bytes)
    are objects of their own; the format and the string arguments are read from
    a byte store. A variadic argument is the 64-bit slot the calling convention
    gives it, and reading past the last one is a [Fault], as is an overflow of
    the [int] width. *)
From S2P Require Import Prelude Mem Strings StrConv.
Import Mem Strings StrConv.

Module Format.

Definition KPRINTF_FORMAT_BUFFER_SIZE : Z := 32.

(** The buffer and [pos]. *)
Abbreviation buf := (list Z * Z)%type (only parsing).
Definition put (c : Z) (b : list Z * Z) : outcome (list Z * Z) :=
  out ← store (fst b) (snd b) (u8 c); Ret (out, snd b + 1).
Definition room (size : Z) (b : list Z * Z) : bool := snd b <? size - 1.

(** [for (int i = 0; i < n && pos < size - 1; i++) buffer[pos++] = c;] *)
Fixpoint pad_loop (n : nat) (c size : Z) (b : list Z * Z) : outcome (list Z * Z) :=
  match n with
  | O => Ret b
  | S n' => if room size b then b ← put c b; pad_loop n' c size b else Ret b
  end.
Definition pad (n c size : Z) (b : list Z * Z) : outcome (list Z * Z) := pad_loop (Z.to_nat n) c size b.

(** The copy of a string into the buffer while there is room. *)
Fixpoint copy_loop (fuel : nat) (m : list Z) (s size : Z) (b : list Z * Z) : outcome (list Z * Z) :=
  match fuel with
  | O => Fail Fault
  | S fuel' =>
      c ← load m s;
      if negb (c =? 0) && room size b then b ← put c b; copy_loop fuel' m (s + 1) size b else Ret b
  end.
Definition copy (m : list Z) (s size : Z) (b : list Z * Z) : outcome (list Z * Z) :=
  copy_loop (fuel_of m) m s size b.

Definition int_ok (x : Z) : outcome Z := if x <? 2 ^ 31 then Ret x else Fail Fault.
Definition int_len (m : list Z) (s : Z) : outcome Z :=
  p ← strlen_loop (fuel_of m) m s; int_ok (p - s).

Definition va_arg (args : list Z) : outcome (Z * list Z) :=
  match args with a :: r => Ret (a, r) | [] => Fail Fault end.

(** ** The parts of a conversion specification *)
Fixpoint parse_width (fuel : nat) (m : list Z) (p width : Z) : outcome (Z * Z) :=
  match fuel with
  | O => Fail Fault
  | S fuel' =>
      c ← load m p;
      if isdigit c then w ← int_ok (width * 10 + (c - 48)); parse_width fuel' m (p + 1) w
      else Ret (p, width)
  end.
Definition parse_long (m : list Z) (p : Z) : outcome (Z * bool) :=
  c ← load m p;
  if c =? 108 then
    c ← load m (p + 1);
    if c =? 108 then Ret (p + 2, true) else Ret (p + 1, true)
  else Ret (p, false).

(** The case of the [X] conversion: [a] to [f] become upper case in place. *)
Definition upcase (c : Z) : Z := if (97 <=? sext 8 c) && (sext 8 c <=? 102) then u8 (c - 97 + 65) else c.
Fixpoint upcase_loop (fuel : nat) (s : Z) (g : list Z) : outcome (list Z) :=
  match fuel with
  | O => Fail Fault
  | S fuel' =>
      c ← load g s;
      if c =? 0 then Ret g else g ← store g s (upcase c); upcase_loop fuel' (s + 1) g
  end.

(** ** The conversions; [g] is the number buffer *)
Definition fmt_c (size width : Z) (left_align : bool) (c : Z) (b : list Z * Z) : outcome (list Z * Z) :=
  if 1 <? width then
    if left_align then b ← put c b; pad (width - 1) 32 size b
    else b ← pad (width - 1) 32 size b; if room size b then put c b else Ret b
  else put c b.

Definition null_text : list Z := [40; 110; 117; 108; 108; 41; 0]. (* "(null)" *)
Definition fmt_s (size width : Z) (left_align : bool) (m : list Z) (s : Z) (b : list Z * Z)
    : outcome (list Z * Z) :=
  let '(m, s) := if s =? 0 then (null_text, 0) else (m, s) in
  len ← int_len m s;
  if len <? width then
    let pad_count := width - len in
    if left_align then b ← copy m s size b; pad pad_count 32 size b
    else b ← pad pad_count 32 size b; copy m s size b
  else copy m s size b.

(** Padding and digits of [d], [i] and [u]. *)
Definition fmt_num (size width : Z) (left_align zero : bool) (g : list Z) (b : list Z * Z)
    : outcome (list Z * Z) :=
  len ← int_len g 0;
  b ← (if (len <? width) && negb left_align then pad (width - len) (if zero then 48 else 32) size b
       else Ret b);
  b ← copy g 0 size b;
  if (len <? width) && left_align then pad (width - len) 32 size b else Ret b.

(** [x] and [X] pad on the left only. *)
Definition fmt_x (size width : Z) (zero upper : bool) (val : Z) (g : list Z) (b : list Z * Z)
    : outcome (list Z * (list Z * Z)) :=
  g ← uitoa64 val 0 16 g;
  g ← (if upper then upcase_loop (fuel_of g) 0 g else Ret g);
  len ← int_len g 0;
  b ← (if len <? width then pad (width - len) (if zero then 48 else 32) size b else Ret b);
  b ← copy g 0 size b;
  Ret (g, b).

Definition fmt_p (size val : Z) (g : list Z) (b : list Z * Z) : outcome (list Z * (list Z * Z)) :=
  b ← put 48 b;
  b ← (if room size b then put 120 b else Ret b);
  g ← uitoa64 val 0 16 g;
  b ← copy g 0 size b;
  Ret (g, b).

(** The [switch]: the number buffer, the remaining arguments and the buffer. *)
Definition convert (size : Z) (m : list Z) (left_align zero : bool) (width : Z) (is_long : bool) (c : Z)
    (g args : list Z) (b : list Z * Z) : outcome (list Z * list Z * (list Z * Z)) :=
  if c =? 37 then b ← put 37 b; Ret (g, args, b)
  else if c =? 99 then
    va ← va_arg args; b ← fmt_c size width left_align (fst va) b; Ret (g, snd va, b)
  else if c =? 115 then
    va ← va_arg args; b ← fmt_s size width left_align m (u64 (fst va)) b; Ret (g, snd va, b)
  else if (c =? 100) || (c =? 105) then
    va ← va_arg args;
    g ← itoa_signed (if is_long then s64 (fst va) else s32 (fst va)) 0 10 g;
    b ← fmt_num size width left_align zero g b; Ret (g, snd va, b)
  else if c =? 117 then
    va ← va_arg args;
    g ← uitoa64 (if is_long then u64 (fst va) else u32 (fst va)) 0 10 g;
    b ← fmt_num size width left_align zero g b; Ret (g, snd va, b)
  else if (c =? 120) || (c =? 88) then
    va ← va_arg args;
    gb ← fmt_x size width zero (c =? 88) (if is_long then u64 (fst va) else u32 (fst va)) g b;
    Ret (fst gb, snd va, snd gb)
  else if c =? 112 then
    va ← va_arg args; gb ← fmt_p size (u64 (fst va)) g b; Ret (fst gb, snd va, snd gb)
  else b ← put c b; Ret (g, args, b).

(** The main loop; every turn moves [p] up, so [fuel_of m] turns are enough. *)
Fixpoint format_loop (fuel : nat) (size : Z) (m : list Z) (p : Z) (g args : list Z) (b : list Z * Z)
    : outcome (list Z * (list Z * Z)) :=
  match fuel with
  | O => Fail Fault
  | S fuel' =>
      c ← load m p;
      if (c =? 0) || negb (room size b) then Ret (g, b) else
      if negb (c =? 37) then b ← put c b; format_loop fuel' size m (p + 1) g args b else
      let p := p + 1 in
      c ← load m p;
      if c =? 0 then b ← put 37 b; Ret (g, b) else
      let left_align := c =? 45 in
      let p := if left_align then p + 1 else p in
      c ← load m p;
      let zero := (c =? 48) && negb left_align in
      let p := if zero then p + 1 else p in
      pw ← parse_width (fuel_of m) m p 0;
      let '(p, width) := pw : Z * Z in
      pl ← parse_long m p;
      let '(p, is_long) := pl : Z * bool in
      c ← load m p;
      r ← convert size m left_align zero width is_long c g args b;
      let '(g, args, b) := r : list Z * list Z * (list Z * Z) in
      format_loop fuel' size m (p + 1) g args b
  end.

(** The return value, the buffer and the number buffer. *)
Definition klog_format_string (buffer : option (list Z)) (size : Z) (m : list Z) (format : Z)
    (g args : list Z) : outcome (Z * option (list Z) * list Z) :=
  match buffer with
  | None => Ret (-1, None, g)
  | Some out =>
      if size =? 0 then Ret (-1, Some out, g) else
      r ← format_loop (fuel_of m) size m format g args (out, 0);
      let '(g, (out, pos)) := r : list Z * (list Z * Z) in
      out ← store out pos 0;
      Ret (s32 pos, Some out, g)
  end.
Definition kvsnprintf := klog_format_string.
Definition ksnprintf := kvsnprintf.

(** ** What a format means *)
Inductive conv := CPercent | CChar | CStr | CInt (i : bool) | CUInt | CHex (upper : bool) | CPtr | COther (c : Z).
Inductive item :=
  | Lit (c : Z)
  | Spec (left_align zero : bool) (digits : list Z) (ls : nat) (k : conv).

Definition conv_char (k : conv) : Z :=
  match k with
  | CPercent => 37 | CChar => 99 | CStr => 115 | CInt false => 100 | CInt true => 105 | CUInt => 117
  | CHex false => 120 | CHex true => 88 | CPtr => 112 | COther c => c
  end.

Definition encode_item (it : item) : list Z :=
  match it with
  | Lit c => [c]
  | Spec la z ds ls k =>
      37 :: (if la then [45] else []) ++ (if z then [48] else []) ++ ((λ d, 48 + d) <$> ds) ++
        replicate ls 108 ++ [conv_char k]
  end.
Definition encode (its : list item) : list Z := its ≫= encode_item.

(** A format the parser reads back as written: the zero flag excludes left
    alignment, a width after no flag does not start with 0, the width fits an
    [int], at most two [l]; another conversion character is not a flag. *)
Definition wf_item (it : item) : Prop :=
  match it with
  | Lit c => 0 < c < 256 ∧ c ≠ 37
  | Spec la z ds ls k =>
      (la = true → z = false) ∧ Forall (λ d, 0 ≤ d < 10) ds ∧
      (la = false → z = false → head ds ≠ Some 0) ∧ horner 10 0 ds < 2 ^ 31 ∧ (ls ≤ 2)%nat ∧
      match k with
      | COther c => (57 < c < 128 ∨ c = 46) ∧ c ∉ [88; 99; 100; 105; 108; 112; 115; 117; 120]
      | _ => True
      end
  end.

Definition fill (n : Z) (c : Z) : list Z := replicate (Z.to_nat n) c.
Definition padded (width : Z) (la zero : bool) (t : list Z) : list Z :=
  let n := width - Z.of_nat (length t) in
  if la then t ++ fill n 32 else fill n (if zero then 48 else 32) ++ t.

(** The text of one item and the arguments left; [str] gives the string
    arguments. [None] where the call is undefined: no argument left, no string
    at the pointer, the one value [itoa_signed] cannot negate. *)
Definition render_item (str : Z → option (list Z)) (it : item) (args : list Z)
    : option (list Z * list Z) :=
  match it with
  | Lit c => Some ([c], args)
  | Spec la z ds ls k =>
      let width := horner 10 0 ds in
      let lng := (0 <? ls)%nat in
      match k, args with
      | CPercent, _ => Some ([37], args)
      | COther c, _ => Some ([c], args)
      | CChar, a :: r => Some (padded width la false [u8 a], r)
      | CStr, a :: r => t ← (if u64 a =? 0 then Some [40; 110; 117; 108; 108; 41] else str (u64 a));
                        Some (padded width la false t, r)
      | CInt _, a :: r =>
          let v := if lng then s64 a else s32 a in
          if v =? - 2 ^ 63 then None else
          Some (padded width la z (sign (v <? 0) ++ numeral 10 (Z.abs v)), r)
      | CUInt, a :: r => Some (padded width la z (numeral 10 (if lng then u64 a else u32 a)), r)
      | CHex up, a :: r =>
          let t := numeral 16 (if lng then u64 a else u32 a) in
          Some (padded width false z (if up then upcase <$> t else t), r)
      | CPtr, a :: r => Some ([48; 120] ++ numeral 16 (u64 a), r)
      | _, [] => None
      end
  end.
Fixpoint render (str : Z → option (list Z)) (its : list item) (args : list Z) : option (list Z) :=
  match its with
  | [] => Some []
  | it :: its' => ta ← render_item str it args; t ← render str its' (snd ta); Some (fst ta ++ t)
  end.

(** ** The buffer holds a text, cut to what fits *)
Definition holds (n : nat) (txt : list Z) (b : list Z * Z) : Prop :=
  length (fst b) = S n ∧ snd b = Z.of_nat (length (take n txt)) ∧ take n txt `prefix_of` fst b.

Section buffer.
Context (n : nat).
Abbreviation size := (Z.of_nat n + 1).
Implicit Types (b : list Z * Z) (txt t : list Z).

Lemma room_holds txt b : holds n txt b → room size b = (length txt <? n)%nat.
Proof.
  intros (_ & Hp & _). unfold room. rewrite Hp, length_take.
  destruct (Z.ltb_spec (Z.of_nat (n `min` length txt)) (Z.of_nat n + 1 - 1)), (Nat.ltb_spec (length txt) n); lia.
Qed.

Lemma holds_full txt t b : (n ≤ length txt)%nat → holds n txt b → holds n (txt ++ t) b.
Proof. intros. unfold holds. by rewrite take_app_le. Qed.

Lemma put_holds c txt b : holds n txt b → (length txt < n)%nat →
  ∃ b', put c b = Ret b' ∧ holds n (txt ++ [u8 c]) b'.
Proof.
  destruct b as [out pos]. intros (Hl & Hp & Hpre) Hlt. cbn [fst snd] in *. unfold put. cbn [fst snd].
  rewrite take_ge in Hp, Hpre by lia. rewrite store_ok by lia. cbn. eexists. split; [done|].
  split_and!; cbn [fst snd].
  - by rewrite length_zinsert.
  - rewrite take_ge, length_app by (rewrite length_app; cbn; lia). cbn. lia.
  - rewrite take_ge by (rewrite length_app; cbn; lia). destruct Hpre as [r Hr].
    destruct r as [|x r]; [rewrite app_nil_r in Hr; subst; lia|]. exists r. subst out pos.
    unfold zinsert. destruct (Z.ltb_spec (Z.of_nat (length txt)) 0); [lia|].
    rewrite Nat2Z.id, insert_app_r_alt, Nat.sub_diag by lia. cbn. by rewrite <- app_assoc.
Qed.

(** Adding a byte when the buffer may be full already. *)
Lemma put_room_holds c txt b : holds n txt b →
  ∃ b', (if room size b then put c b else Ret b) = Ret b' ∧ holds n (txt ++ [u8 c]) b'.
Proof.
  intros Hb. rewrite (room_holds _ _ Hb). destruct (Nat.ltb_spec (length txt) n).
  - by apply put_holds.
  - eexists. split; [done|]. by apply holds_full.
Qed.

Lemma pad_holds k c txt b : holds n txt b → 0 ≤ c < 256 →
  ∃ b', pad k c size b = Ret b' ∧ holds n (txt ++ fill k c) b'.
Proof.
  unfold pad, fill. intros Hb Hc. revert txt b Hb.
  induction (Z.to_nat k) as [|k' IH]; intros txt b Hb; cbn [pad_loop replicate].
  - rewrite app_nil_r. eauto.
  - rewrite (room_holds _ _ Hb). destruct (Nat.ltb_spec (length txt) n).
    + destruct (put_holds c txt b) as (b1 & -> & H1); [done..|]. rewrite outcome_bind_ret.
      destruct (IH _ _ H1) as (b2 & -> & H2). rewrite <- app_assoc, u8_small in H2 by lia. eauto.
    + eexists. split; [done|]. by apply holds_full.
Qed.

Lemma copy_holds m s l txt b : cstr m s l → Forall is_u8 l → holds n txt b →
  ∃ b', copy m s size b = Ret b' ∧ holds n (txt ++ l) b'.
Proof.
  intros Hc. unfold copy. pose proof (cstr_fuel _ _ _ Hc) as Hf. revert Hf. generalize (fuel_of m).
  revert s txt b Hc. induction l as [|c l IH]; intros s txt b Hc [|f] Hf Hu Hb; cbn [length] in *;
    try lia; cbn [copy_loop].
  - rewrite (load_eq _ _ _ Hc). cbn. rewrite app_nil_r. eauto.
  - destruct Hc as (H & Hnz & Hc). rewrite (load_eq _ _ _ H), outcome_bind_ret.
    apply Forall_cons in Hu as [Hu1 Hu]. destruct (Z.eqb_spec c 0); [done|]. cbn [negb andb].
    rewrite (room_holds _ _ Hb). destruct (Nat.ltb_spec (length txt) n).
    + destruct (put_holds c txt b) as (b1 & -> & H1); [done..|]. rewrite outcome_bind_ret.
      unfold is_u8 in Hu1. rewrite u8_small in H1 by lia.
      destruct (IH (s + 1) (txt ++ [c]) b1 Hc f) as (b2 & -> & H2); [lia|done..|].
      rewrite <- app_assoc in H2. eauto.
    + eexists. split; [done|]. by apply holds_full.
Qed.

Lemma int_len_spec m s l : cstr m s l → Z.of_nat (length l) < 2 ^ 31 → int_len m s = Ret (Z.of_nat (length l)).
Proof.
  intros Hc Hl. unfold int_len. rewrite (strlen_loop_spec _ _ l) by eauto using cstr_fuel.
  cbn. unfold int_ok. rewrite Z.add_simpl_l. destruct (Z.ltb_spec (Z.of_nat (length l)) (2 ^ 31)); [done|lia].
Qed.

Lemma fill_neg k c : k ≤ 0 → fill k c = [].
Proof. intros. unfold fill. by replace (Z.to_nat k) with 0%nat by lia. Qed.

Lemma fmt_c_holds width la c txt b : holds n txt b → (length txt < n)%nat →
  ∃ b', fmt_c size width la c b = Ret b' ∧ holds n (txt ++ padded width la false [u8 c]) b'.
Proof.
  intros Hb Hlt. unfold fmt_c, padded. cbn [length]. change (Z.of_nat 1) with 1.
  destruct (Z.ltb_spec 1 width).
  - destruct la.
    + destruct (put_holds c txt b) as (b1 & -> & H1); [done..|]. rewrite outcome_bind_ret, app_assoc.
      apply pad_holds; [done|lia].
    + destruct (pad_holds (width - 1) 32 txt b) as (b1 & -> & H1); [done|lia|].
      rewrite outcome_bind_ret, app_assoc. by apply put_room_holds.
  - rewrite !fill_neg by lia. cbn [app]. destruct la; by apply put_holds.
Qed.

Lemma fmt_s_holds width la m s l txt b :
  (if s =? 0 then l = [40; 110; 117; 108; 108; 41] else cstr m s l) →
  Forall is_u8 l → Z.of_nat (length l) < 2 ^ 31 → holds n txt b →
  ∃ b', fmt_s size width la m s b = Ret b' ∧ holds n (txt ++ padded width la false l) b'.
Proof.
  intros Hs Hu Hl Hb. unfold fmt_s.
  assert (∃ m' s', (if s =? 0 then (null_text, 0) else (m, s)) = (m', s') ∧ cstr m' s' l) as (m' & s' & -> & Hc).
  { destruct (s =? 0); eexists _, _; (split; [done|]); [subst; by repeat split|done]. }
  rewrite (int_len_spec _ _ l) by done. rewrite outcome_bind_ret. unfold padded.
  destruct (Z.ltb_spec (Z.of_nat (length l)) width).
  - destruct la.
    + destruct (copy_holds m' s' l txt b) as (b1 & -> & H1); [done..|]. rewrite outcome_bind_ret, app_assoc.
      apply pad_holds; [done|lia].
    + destruct (pad_holds (width - Z.of_nat (length l)) 32 txt b) as (b1 & -> & H1); [done|lia|].
      rewrite outcome_bind_ret, app_assoc. by apply copy_holds.
  - rewrite !fill_neg by lia. rewrite app_nil_r, app_nil_l. destruct la; by apply copy_holds.
Qed.

Lemma fmt_num_holds width la zero g l txt b : cstr g 0 l → Forall is_u8 l → Z.of_nat (length l) < 2 ^ 31 →
  holds n txt b → (la = true → zero = false) →
  ∃ b', fmt_num size width la zero g b = Ret b' ∧ holds n (txt ++ padded width la zero l) b'.
Proof.
  intros Hc Hu Hl Hb Hz. unfold fmt_num. rewrite (int_len_spec _ _ l) by done. rewrite outcome_bind_ret. unfold padded.
  destruct (Z.ltb_spec (Z.of_nat (length l)) width), la; cbn [andb negb].
  - rewrite outcome_bind_ret. destruct (copy_holds g 0 l txt b) as (b1 & -> & H1); [done..|].
    rewrite outcome_bind_ret, app_assoc. apply pad_holds; [done|lia].
  - destruct (pad_holds (width - Z.of_nat (length l)) (if zero then 48 else 32) txt b) as (b1 & -> & H1);
      [done|destruct zero; lia|].
    rewrite outcome_bind_ret, app_assoc. destruct (copy_holds g 0 l _ b1 Hc Hu H1) as (b2 & -> & H2). eauto.
  - rewrite outcome_bind_ret, fill_neg, app_nil_r by lia.
    destruct (copy_holds g 0 l _ b Hc Hu Hb) as (b2 & -> & H2). eauto.
  - rewrite outcome_bind_ret, fill_neg, app_nil_l by lia.
    destruct (copy_holds g 0 l _ b Hc Hu Hb) as (b2 & -> & H2). eauto.
Qed.

(** ** Numbers *)
Lemma numeral_ok base k u : 2 ≤ base ≤ 36 → 0 ≤ u < base ^ Z.of_nat k → (0 < k ≤ 65)%nat →
  Forall is_u8 (numeral base u) ∧ (length (numeral base u) ≤ k)%nat.
Proof.
  intros Hb Hu Hk. destruct (digits_of_spec 65 k base u) as (_ & Hall & Hlen); [lia..|].
  unfold numeral. rewrite length_fmap, length_reverse. split; [|lia].
  apply Forall_fmap, Forall_reverse. eapply Forall_impl; [done|]. intros d Hd. cbn in *. unfold is_u8.
  pose proof (digit_char_range d ltac:(lia)). lia.
Qed.

Lemma print_ok base u neg g : base = 10 ∨ base = 16 → is_u64 u → Z.of_nat (length g) = 32 →
  ∃ g', print_num u base 0 neg g = Ret g' ∧ cstr g' 0 (sign neg ++ numeral base u) ∧
    Z.of_nat (length g') = 32 ∧ Forall is_u8 (sign neg ++ numeral base u) ∧
    (length (sign neg ++ numeral base u) ≤ 21)%nat.
Proof.
  intros Hb Hu Hg. assert (∃ k, k = 20%nat ∧ 2 ^ 64 < base ^ Z.of_nat k) as (k & Hk & Hpow).
  { exists 20%nat. destruct Hb as [-> | ->]; split; reflexivity. }
  unfold is_u64 in Hu. destruct (numeral_ok base k u) as [Hn Hl]; [lia..|].
  destruct (print_num_spec k u base 0 neg g) as (g' & -> & Hc & Hlen & _);
    [lia|lia|lia|unfold valid; lia|].
  exists g'. rewrite length_app. split_and!; [done|done|lia| |].
  - apply Forall_app. split; [|done]. destruct neg; [|done]. apply Forall_singleton. by split.
  - destruct neg; cbn [sign length]; lia.
Qed.

Lemma upcase_range c : is_u8 c → c ≠ 0 → is_u8 (upcase c) ∧ upcase c ≠ 0.
Proof.
  unfold upcase, is_u8. intros ? ?. destruct ((97 <=? sext 8 c) && (sext 8 c <=? 102)) eqn:E; [|lia].
  apply andb_true_iff in E as [E1%Z.leb_le E2%Z.leb_le].
  assert (sext 8 c = c).
  { unfold sext in E1 |- *. rewrite Z.mod_small in * by lia. destruct (c <? _) eqn:Hc; [done|lia]. }
  rewrite u8_small by lia. lia.
Qed.

Lemma upcase_loop_spec g s l fuel : cstr g s l → Forall is_u8 l → (length l < fuel)%nat →
  ∃ g', upcase_loop fuel s g = Ret g' ∧ cstr g' s (upcase <$> l) ∧ length g' = length g ∧
    ∀ i, i < s → zlookup g' i = zlookup g i.
Proof.
  revert g s fuel. induction l as [|c l IH]; intros g s [|f] Hc Hu Hf; cbn [length] in *; try lia;
    cbn [upcase_loop].
  - rewrite (load_eq _ _ _ Hc). cbn. eauto.
  - pose proof (cstr_bound _ _ _ Hc) as Hb. cbn [length] in Hb. destruct Hc as (H & Hnz & Hc).
    rewrite (load_eq _ _ _ H), outcome_bind_ret. apply Forall_cons in Hu as [Hu1 Hu].
    destruct (Z.eqb_spec c 0); [done|]. rewrite store_ok, outcome_bind_ret by lia.
    destruct (IH (zinsert g s (upcase c)) (s + 1) f) as (g' & -> & Hg & Hlen & Hfr).
    + eapply cstr_frame; [|done]. intros i Hi. apply zlookup_zinsert_ne. lia.
    + done.
    + lia.
    + exists g'. rewrite length_zinsert in Hlen. split_and!; [done| |done|].
      * cbn [fmap list_fmap cstr]. rewrite Hfr, zlookup_zinsert_eq by lia.
        split_and!; [done|by apply upcase_range|done].
      * intros i Hi. rewrite Hfr, zlookup_zinsert_ne by lia. done.
Qed.

Lemma itoa_ok v g : - 2 ^ 63 < v < 2 ^ 63 → Z.of_nat (length g) = 32 →
  itoa_signed v 0 10 g = print_num (Z.abs v) 10 0 (v <? 0) g.
Proof.
  intros Hv Hg. unfold itoa_signed, bad_base. cbn [Z.ltb Z.compare Pos.compare Pos.compare_cont orb Z.eqb Pos.eqb].
  rewrite andb_true_r. destruct (Z.ltb_spec v 0).
  - destruct (Z.eqb_spec v (- 2 ^ 63)); [lia|]. rewrite u64_small, Z.abs_neq by lia. done.
  - rewrite u64_small, Z.abs_eq by lia. done.
Qed.

Lemma fmt_x_holds width zero upper v g txt b : is_u64 v → Z.of_nat (length g) = 32 → holds n txt b →
  ∃ g' b', fmt_x size width zero upper v g b = Ret (g', b') ∧ Z.of_nat (length g') = 32 ∧
    holds n (txt ++ padded width false zero (if upper then upcase <$> numeral 16 v else numeral 16 v)) b'.
Proof.
  intros Hv Hg Hb. unfold fmt_x, uitoa64. cbn [bad_base].
  destruct (print_ok 16 v false g) as (g1 & Hp & Hc & Hg1 & Hu & Hl); [by right|done..|].
  change (bad_base 16) with false. cbn iota. rewrite Hp, outcome_bind_ret. cbn [sign app] in *.
  assert (∃ g2, (if upper then upcase_loop (fuel_of g1) 0 g1 else Ret g1) = Ret g2 ∧
    cstr g2 0 (if upper then upcase <$> numeral 16 v else numeral 16 v) ∧ Z.of_nat (length g2) = 32)
    as (g2 & -> & Hc2 & Hg2).
  { destruct upper; [|eauto]. destruct (upcase_loop_spec g1 0 (numeral 16 v) (fuel_of g1))
      as (g2 & -> & ? & ? & _); [done|done|by eapply cstr_fuel|]. exists g2. split_and!; [done..|lia]. }
  rewrite outcome_bind_ret. pose proof (cstr_nonzero _ _ _ Hc) as Hnz.
  set (t := if upper then _ else _) in *.
  assert (Forall is_u8 t ∧ length t = length (numeral 16 v)) as [Hut Hlt].
  { unfold t. destruct upper; [|done]. rewrite length_fmap. split; [|done]. apply Forall_fmap.
    apply Forall_forall. intros c Hin. apply upcase_range; [by eapply Forall_forall|].
    eapply (proj1 (Forall_forall _ _) Hnz); done. }
  rewrite (int_len_spec _ _ t) by (done || lia). rewrite outcome_bind_ret. unfold padded.
  assert (∃ b1, (if Z.of_nat (length t) <? width then pad (width - Z.of_nat (length t)) (if zero then 48 else 32) size b
    else Ret b) = Ret b1 ∧ holds n (txt ++ fill (width - Z.of_nat (length t)) (if zero then 48 else 32)) b1)
    as (b1 & -> & Hb1).
  { destruct (Z.ltb_spec (Z.of_nat (length t)) width).
    - apply pad_holds; [done|destruct zero; lia].
    - rewrite fill_neg, app_nil_r by lia. eauto. }
  rewrite outcome_bind_ret. destruct (copy_holds g2 0 t _ b1 Hc2 Hut Hb1) as (b2 & -> & Hb2).
  rewrite outcome_bind_ret, <- app_assoc in *. eauto.
Qed.

Lemma fmt_p_holds v g txt b : is_u64 v → Z.of_nat (length g) = 32 → holds n txt b → (length txt < n)%nat →
  ∃ g' b', fmt_p size v g b = Ret (g', b') ∧ Z.of_nat (length g') = 32 ∧
    holds n (txt ++ [48; 120] ++ numeral 16 v) b'.
Proof.
  intros Hv Hg Hb Hlt. unfold fmt_p, uitoa64. destruct (put_holds 48 txt b) as (b1 & -> & H1); [done..|].
  rewrite outcome_bind_ret. destruct (put_room_holds 120 _ b1 H1) as (b2 & -> & H2). rewrite outcome_bind_ret.
  destruct (print_ok 16 v false g) as (g1 & Hp & Hc & Hg1 & Hu & _); [by right|done..|].
  change (bad_base 16) with false. cbn iota. rewrite Hp, outcome_bind_ret.
  destruct (copy_holds g1 0 _ _ b2 Hc Hu H2) as (b3 & -> & H3). rewrite outcome_bind_ret.
  eexists _, _. split; [done|]. split; [done|]. by rewrite <- !app_assoc in H3.
Qed.

(** ** One item *)
Context (m : list Z) (str : Z → option (list Z)).
Context (Hstr : ∀ a t, str a = Some t → cstr m a t ∧ Forall is_u8 t ∧ Z.of_nat (length t) < 2 ^ 31).

Lemma convert_holds la z ds ls k args t r g txt b :
  wf_item (Spec la z ds ls k) → render_item str (Spec la z ds ls k) args = Some (t, r) →
  Z.of_nat (length g) = 32 → holds n txt b → (length txt < n)%nat →
  ∃ g' b', convert size m la z (horner 10 0 ds) (0 <? ls)%nat (conv_char k) g args b = Ret (g', r, b') ∧
    Z.of_nat (length g') = 32 ∧ holds n (txt ++ t) b'.
Proof.
  intros (Hla & _ & _ & _ & _ & Hk) Hr Hg Hb Hlt. unfold convert. cbn [render_item] in Hr.
  destruct k as [| | | i | | up | |c]; [|destruct args as [|a args]; [done|]..|].
  - cbn. injection Hr as <- <-. destruct (put_holds 37 txt b) as (b1 & -> & H1); [done..|].
    rewrite outcome_bind_ret. eauto.
  - injection Hr as <- <-. cbn [conv_char Z.eqb Pos.eqb va_arg]. rewrite outcome_bind_ret. cbn [fst snd].
    destruct (fmt_c_holds (horner 10 0 ds) la a txt b) as (b1 & -> & H1); [done..|]. rewrite outcome_bind_ret. eauto.
  - apply bind_Some in Hr as (t' & Ht & [= <- <-]).
    cbn [conv_char Z.eqb Pos.eqb va_arg]. rewrite outcome_bind_ret. cbn [fst snd].
    destruct (fmt_s_holds (horner 10 0 ds) la m (u64 a) t' txt b) as (b1 & -> & H1).
    + destruct (u64 a =? 0); [by injection Ht|]. by apply Hstr.
    + destruct (u64 a =? 0); [|by apply (Hstr _ _ Ht)]. injection Ht as <-. repeat constructor; done.
    + destruct (u64 a =? 0); [|by apply (Hstr _ _ Ht)]. injection Ht as <-. done.
    + done.
    + rewrite outcome_bind_ret. eauto.
  - set (v := if (0 <? ls)%nat then s64 a else s32 a) in *.
    destruct (Z.eqb_spec v (- 2 ^ 63)) as [|Hmin]; [done|]. injection Hr as <- <-.
    assert (- 2 ^ 63 < v < 2 ^ 63) as Hv.
    { pose proof (Z.mod_pos_bound a (2 ^ 64) ltac:(lia)). pose proof (Z.mod_pos_bound a (2 ^ 32) ltac:(lia)).
      unfold v, s64, s32, sext in *. cbv zeta in *. change (64 - 1) with 63 in *. change (32 - 1) with 31 in *.
      repeat case_match; try destruct (Z.ltb_spec (a mod 2 ^ 64) (2 ^ 63)); lia. }
    destruct (print_ok 10 (Z.abs v) (v <? 0) g) as (g1 & Hp & Hc & Hg1 & Hu & Hl);
      [by left|unfold is_u64; lia|done|].
    replace ((conv_char (CInt i) =? 100) || (conv_char (CInt i) =? 105)) with true by (by destruct i).
    replace (conv_char (CInt i) =? 37) with false by (by destruct i).
    replace (conv_char (CInt i) =? 99) with false by (by destruct i).
    replace (conv_char (CInt i) =? 115) with false by (by destruct i).
    cbn [va_arg]. rewrite outcome_bind_ret. cbn [fst snd]. fold v.
    rewrite itoa_ok, Hp, outcome_bind_ret by done.
    destruct (fmt_num_holds (horner 10 0 ds) la z g1 _ txt b Hc Hu ltac:(lia) Hb Hla) as (b1 & -> & H1).
    rewrite outcome_bind_ret. eauto.
  - injection Hr as <- <-. cbn [conv_char Z.eqb Pos.eqb va_arg orb]. rewrite outcome_bind_ret. cbn [fst snd].
    destruct (print_ok 10 (if (0 <? ls)%nat then u64 a else u32 a) false g) as (g1 & Hp & Hc & Hg1 & Hu & Hl);
      [by left|destruct (0 <? ls)%nat; [apply u64_range|pose proof (u32_range a); unfold is_u32, is_u64 in *; lia]|done|].
    unfold uitoa64. change (bad_base 10) with false. cbn iota. rewrite Hp, outcome_bind_ret.
    destruct (fmt_num_holds (horner 10 0 ds) la z g1 _ txt b Hc Hu ltac:(lia) Hb Hla) as (b1 & -> & H1).
    rewrite outcome_bind_ret. eauto.
  - injection Hr as <- <-.
    replace ((conv_char (CHex up) =? 100) || (conv_char (CHex up) =? 105)) with false by (by destruct up).
    replace (conv_char (CHex up) =? 37) with false by (by destruct up).
    replace (conv_char (CHex up) =? 99) with false by (by destruct up).
    replace (conv_char (CHex up) =? 115) with false by (by destruct up).
    replace (conv_char (CHex up) =? 117) with false by (by destruct up).
    replace ((conv_char (CHex up) =? 120) || (conv_char (CHex up) =? 88)) with true by (by destruct up).
    replace (conv_char (CHex up) =? 88) with up by (by destruct up).
    cbn [va_arg]. rewrite outcome_bind_ret. cbn [fst snd].
    destruct (fmt_x_holds (horner 10 0 ds) z up (if (0 <? ls)%nat then u64 a else u32 a) g txt b)
      as (g1 & b1 & -> & Hg1 & H1); [|done|done|].
    { destruct (0 <? ls)%nat; [apply u64_range|pose proof (u32_range a); unfold is_u32, is_u64 in *; lia]. }
    rewrite outcome_bind_ret. eauto.
  - injection Hr as <- <-. cbn [conv_char Z.eqb Pos.eqb va_arg orb]. rewrite outcome_bind_ret. cbn [fst snd].
    destruct (fmt_p_holds (u64 a) g txt b) as (g1 & b1 & -> & Hg1 & H1); [apply u64_range|done..|].
    rewrite outcome_bind_ret. eauto.
  - injection Hr as <- <-. destruct Hk as [Hc Hnot]. rewrite !not_elem_of_cons in Hnot. cbn [conv_char].
    repeat (match goal with |- context [c =? ?x] => destruct (Z.eqb_spec c x); [lia|] end). cbn [orb].
    destruct (put_holds c txt b) as (b1 & -> & H1); [done..|]. rewrite u8_small in H1 by lia.
    rewrite outcome_bind_ret. eauto.
Qed.

Lemma parse_width_spec p ds rest w fuel : cstr m p (((λ d, 48 + d) <$> ds) ++ rest) →
  Forall (λ d, 0 ≤ d < 10) ds → (∀ c, head rest = Some c → isdigit c = false) →
  0 ≤ w → horner 10 w ds < 2 ^ 31 → (length ds < fuel)%nat →
  parse_width fuel m p w = Ret (p + Z.of_nat (length ds), horner 10 w ds).
Proof.
  revert p w fuel. induction ds as [|d ds IH]; intros p w [|f] Hc Hds Hrest Hw Hh Hf; cbn [length] in *;
    try lia; cbn [parse_width].
  - cbn [fmap list_fmap app] in Hc. rewrite (load_eq _ _ _ (cstr_head _ _ _ Hc)), outcome_bind_ret.
    assert (isdigit (default 0 (head rest)) = false) as ->.
    { destruct rest as [|c rest]; [done|]. by apply Hrest. }
    cbn. do 2 f_equal. lia.
  - apply Forall_cons in Hds as [Hd Hds]. destruct Hc as (H & _ & Hc).
    rewrite (load_eq _ _ _ H), outcome_bind_ret.
    change (horner 10 w (d :: ds)) with (horner 10 (w * 10 + d) ds) in *.
    pose proof (horner_ge 10 (w * 10 + d) ds ltac:(lia) ltac:(lia) Hds).
    assert (isdigit (48 + d) = true) as ->.
    { unfold isdigit. rewrite sext8_small by lia. apply andb_true_iff. split; apply Z.leb_le; lia. }
    unfold int_ok. replace (48 + d - 48) with d by lia.
    destruct (Z.ltb_spec (w * 10 + d) (2 ^ 31)); [|lia]. rewrite outcome_bind_ret.
    rewrite IH by (done || lia). do 2 f_equal. lia.
Qed.

Lemma parse_long_spec p ls k rest : cstr m p (replicate ls 108 ++ conv_char k :: rest) →
  conv_char k ≠ 108 → (ls ≤ 2)%nat → parse_long m p = Ret (p + Z.of_nat ls, (0 <? ls)%nat).
Proof.
  intros Hc Hk Hls. unfold parse_long. destruct ls as [|[|[|ls]]]; [..|lia]; cbn [replicate app] in Hc.
  - destruct Hc as (H & _). rewrite (load_eq _ _ _ H), outcome_bind_ret.
    destruct (Z.eqb_spec (conv_char k) 108); [done|]. cbn. do 2 f_equal. lia.
  - destruct Hc as (H & _ & H2 & _). rewrite (load_eq _ _ _ H), outcome_bind_ret. cbn [Z.eqb Pos.eqb].
    rewrite (load_eq _ _ _ H2), outcome_bind_ret. destruct (Z.eqb_spec (conv_char k) 108); [done|]. done.
  - destruct Hc as (H & _ & H2 & _). rewrite (load_eq _ _ _ H), outcome_bind_ret. cbn [Z.eqb Pos.eqb].
    rewrite (load_eq _ _ _ H2), outcome_bind_ret. done.
Qed.

Lemma conv_char_ok la z ds ls k : wf_item (Spec la z ds ls k) →
  (conv_char k = 37 ∨ conv_char k = 46 ∨ 57 < conv_char k < 128) ∧ conv_char k ≠ 108.
Proof.
  intros (_ & _ & _ & _ & _ & Hk). destruct k as [| | |[]| |[]| |c]; cbn in *; try lia.
  destruct Hk as [Hc Hn]. rewrite !not_elem_of_cons in Hn. lia.
Qed.

(** What follows the flags: the first byte is neither a flag nor the end. *)
Lemma body_head la z ds ls k rest : wf_item (Spec la z ds ls k) →
  ∃ c, head (((λ d, 48 + d) <$> ds) ++ replicate ls 108 ++ conv_char k :: rest) = Some c ∧
    0 < c < 128 ∧ c ≠ 45 ∧ (head ds ≠ Some 0 → c ≠ 48).
Proof.
  intros Hw. pose proof (conv_char_ok _ _ _ _ _ Hw) as [Hk _]. destruct Hw as (_ & Hds & _).
  destruct ds as [|d ds].
  - destruct ls; cbn; eexists; (split; [done|]); (split_and!; [lia..|intros; lia]).
  - apply Forall_cons in Hds as [Hd _]. cbn. eexists. split; [done|].
    split_and!; [lia..|]. intros Hne He. apply Hne. f_equal. lia.
Qed.

Lemma isdigit_false c : 57 < c < 128 ∨ c = 37 ∨ c = 46 → isdigit c = false.
Proof.
  intros Hc. unfold isdigit. rewrite sext8_small by lia.
  destruct (Z.leb_spec 48 c), (Z.leb_spec c 57); (done || lia).
Qed.

(** The turn of the loop on a conversion specification, up to the [switch]. *)
Lemma format_loop_spec_item fuel p la z ds ls k rest g args b :
  wf_item (Spec la z ds ls k) → cstr m p (encode_item (Spec la z ds ls k) ++ rest) → room size b = true →
  ∃ p', cstr m p' rest ∧
    format_loop (S fuel) size m p g args b =
    (r ← convert size m la z (horner 10 0 ds) (0 <? ls)%nat (conv_char k) g args b;
     let '(g, args, b) := r : list Z * list Z * (list Z * Z) in format_loop fuel size m p' g args b).
Proof.
  intros Hw Hc Hroom. cbn [format_loop]. cbn [encode_item app] in Hc. rewrite <- !app_assoc in Hc. cbn [app] in Hc.
  pose proof Hc as (H0 & _ & Hc1). rewrite (load_eq _ _ _ H0), outcome_bind_ret, Hroom. cbn [Z.eqb Pos.eqb orb negb].
  destruct (body_head _ _ _ _ _ rest Hw) as (c & Hbh & Hc0 & Hc45 & Hc48).
  pose proof (conv_char_ok _ _ _ _ _ Hw) as [Hk Hk108].
  destruct Hw as (Hla & Hds & Hz & Hh & Hls & _).
  set (body := ((λ d, 48 + d) <$> ds) ++ replicate ls 108 ++ conv_char k :: rest) in *.
  assert (∃ c1, zlookup m (p + 1) = Some c1 ∧ c1 ≠ 0 ∧ (c1 =? 45) = la) as (c1 & H1 & Hc1n & Hc1la).
  { rewrite (cstr_head _ _ _ Hc1). destruct la; [by eexists|]. destruct z; [by eexists|]. cbn [app].
    rewrite Hbh. eexists. split; [done|]. cbn. split; [lia|]. by apply Z.eqb_neq. }
  rewrite (load_eq _ _ _ H1), outcome_bind_ret. destruct (Z.eqb_spec c1 0); [done|]. rewrite Hc1la.
  assert (cstr m (if la then p + 1 + 1 else p + 1) ((if z then [48] else []) ++ body)) as Hc2.
  { destruct la; [by destruct Hc1 as (_ & _ & ?)|done]. }
  set (p2 := if la then p + 1 + 1 else p + 1) in *.
  assert (∃ c2, zlookup m p2 = Some c2 ∧ (c2 =? 48) && negb la = z) as (c2 & H2 & Hc2z).
  { rewrite (cstr_head _ _ _ Hc2). destruct la.
    - rewrite (Hla eq_refl). cbn [app]. eexists. split; [done|]. by rewrite andb_false_r.
    - destruct z; [by eexists|]. cbn [app]. rewrite Hbh. eexists. split; [done|]. cbn.
      rewrite andb_true_r. apply Z.eqb_neq. by apply Hc48, Hz. }
  rewrite (load_eq _ _ _ H2), outcome_bind_ret, Hc2z.
  assert (cstr m (if z then p2 + 1 else p2) body) as Hc3.
  { destruct z; [by destruct Hc2 as (_ & _ & ?)|done]. }
  set (p3 := if z then p2 + 1 else p2) in *.
  rewrite (parse_width_spec p3 ds (replicate ls 108 ++ conv_char k :: rest)); [|done|done| |lia|done|].
  2:{ intros x. destruct ls; cbn; intros [= <-]; apply isdigit_false; lia. }
  2:{ pose proof (cstr_fuel _ _ _ Hc3) as Hf. unfold body in Hf. rewrite length_app, length_fmap in Hf. lia. }
  rewrite outcome_bind_ret. unfold body in Hc3. apply cstr_app in Hc3. rewrite length_fmap in Hc3.
  rewrite (parse_long_spec _ ls k rest), outcome_bind_ret by done.
  apply cstr_app in Hc3. rewrite length_replicate in Hc3. destruct Hc3 as (H3 & _ & Hrest).
  rewrite (load_eq _ _ _ H3), outcome_bind_ret. eexists. split; [exact Hrest|]. done.
Qed.

Lemma format_loop_holds its args text g txt b p fuel :
  Forall wf_item its → cstr m p (encode its) → render str its args = Some text →
  (length its < fuel)%nat → holds n txt b → Z.of_nat (length g) = 32 →
  ∃ g' b', format_loop fuel size m p g args b = Ret (g', b') ∧ Z.of_nat (length g') = 32 ∧ holds n (txt ++ text) b'.
Proof.
  revert args text g txt b p fuel. induction its as [|it its IH];
    intros args text g txt b p [|fuel] Hwf Hc Hr Hf Hb Hg; cbn [length] in *; try lia.
  - cbn [format_loop]. rewrite (load_eq _ _ _ Hc). cbn. injection Hr as <-. rewrite app_nil_r. eauto.
  - apply Forall_cons in Hwf as [Hw Hwf]. cbn [render] in Hr.
    apply bind_Some in Hr as ([t args'] & Hr1 & (text' & Hr2 & [= <-])%bind_Some).
    unfold encode in Hc. cbn [mbind list_bind] in Hc. fold (encode its) in Hc. cbn [fst snd] in *.
    destruct (room size b) eqn:Hroom.
    + pose proof Hroom as Hlt. rewrite (room_holds _ _ Hb) in Hlt. apply Nat.ltb_lt in Hlt. rewrite app_assoc.
      destruct it as [c|la z ds ls k].
      * cbn [encode_item app] in Hc. destruct Hc as (H0 & Hc0 & Hc). destruct Hw as [Hcu Hc37].
        cbn [render_item] in Hr1. injection Hr1 as <- <-. cbn [format_loop].
        rewrite (load_eq _ _ _ H0), outcome_bind_ret, Hroom.
        destruct (Z.eqb_spec c 0), (Z.eqb_spec c 37); try done. cbn [orb negb].
        destruct (put_holds c txt b) as (b1 & -> & H1); [done..|]. rewrite outcome_bind_ret.
        rewrite u8_small in H1 by lia. apply (IH args); (done || lia).
      * destruct (format_loop_spec_item fuel p la z ds ls k (encode its) g args b) as (p' & Hp & ->); [done..|].
        destruct (convert_holds la z ds ls k args t args' g txt b) as (g1 & b1 & -> & Hg1 & H1); [done..|].
        rewrite outcome_bind_ret. apply (IH args'); (done || lia).
    + exists g, b. split; [|split; [done|]].
      * assert (∃ c, zlookup m p = Some c) as [c H0].
        { eexists. apply (cstr_head _ _ _ Hc). }
        cbn [format_loop]. rewrite (load_eq _ _ _ H0), outcome_bind_ret, Hroom. by rewrite orb_true_r.
      * rewrite (room_holds _ _ Hb) in Hroom. apply Nat.ltb_ge in Hroom. by apply holds_full.
Qed.

End buffer.

Lemma length_encode its : (length its ≤ length (encode its))%nat.
Proof.
  induction its as [|it its IH]; [done|]. unfold encode in *. cbn [mbind list_bind length].
  rewrite length_app. destruct it; cbn [encode_item length]; lia.
Qed.

End Format.

Import Format.

Lemma klog_format_string_spec n m str fmt its args text g out :
  (∀ a t, str a = Some t → cstr m a t ∧ Forall is_u8 t ∧ Z.of_nat (length t) < 2 ^ 31) →
  Forall wf_item its → cstr m fmt (encode its) → render str its args = Some text →
  Z.of_nat (length g) = KPRINTF_FORMAT_BUFFER_SIZE → length out = S n → Z.of_nat n < 2 ^ 31 →
  ∃ out' g', klog_format_string (Some out) (Z.of_nat n + 1) m fmt g args =
      Ret (Z.of_nat (length (take n text)), Some out', g') ∧
    Z.of_nat (length g') = 32 ∧ length out' = length out ∧ take n text ++ [0] `prefix_of` out'.
Proof.
  intros Hstr Hwf Hc Hr Hg Hout Hn. unfold klog_format_string.
  destruct (Z.eqb_spec (Z.of_nat n + 1) 0); [lia|].
  destruct (format_loop_holds n m str Hstr its args text g [] (out, 0) fmt (fuel_of m))
    as (g' & [out1 pos] & -> & Hg' & (Hl & Hp & Hpre)); [done..| | |done|].
  { pose proof (cstr_fuel _ _ _ Hc). pose proof (length_encode its). lia. }
  { split_and!; [done|by rewrite take_nil|rewrite take_nil; apply prefix_nil]. }
  rewrite outcome_bind_ret. cbn [fst snd app] in *. subst pos. pose proof (length_take text n) as Hlt.
  rewrite store_ok, outcome_bind_ret by lia. eexists _, g'. split_and!.
  - unfold s32, sext. rewrite Z.mod_small by lia. change (32 - 1) with 31.
    destruct (Z.ltb_spec (Z.of_nat (length (take n text))) (2 ^ 31)); [done|lia].
  - exact Hg'.
  - rewrite length_zinsert. lia.
  - destruct Hpre as [r ->]. destruct r as [|x r]; [rewrite app_nil_r in Hl; lia|]. exists r.
    unfold zinsert. destruct (Z.ltb_spec (Z.of_nat (length (take n text))) 0); [lia|].
    rewrite Nat2Z.id, insert_app_r_alt, Nat.sub_diag by lia. cbn. by rewrite <- app_assoc.
Qed.

(** C36: for a well-formed format with enough arguments, [klog_format_string]
    ends and leaves in the buffer the rendered text, cut to [size - 1] bytes and
    terminated; it never writes outside the [size] bytes of the buffer or the 32
    bytes of the number buffer, and returns the number of bytes it kept. *)
Theorem klog_format_string_renders n m str fmt its args text g out :
  (∀ a t, str a = Some t → cstr m a t ∧ Forall is_u8 t ∧ Z.of_nat (length t) < 2 ^ 31) →
  Forall wf_item its → cstr m fmt (encode its) → render str its args = Some text →
  Z.of_nat (length g) = KPRINTF_FORMAT_BUFFER_SIZE → length out = S n → Z.of_nat n < 2 ^ 31 →
  ∃ out' g', klog_format_string (Some out) (Z.of_nat n + 1) m fmt g args =
      Ret (Z.of_nat (length (take n text)), Some out', g') ∧
    length out' = length out ∧ take n text ++ [0] `prefix_of` out'.
Proof.
  intros Hstr Hwf Hc Hr Hg Hout Hn.
  destruct (klog_format_string_spec n m str fmt its args text g out) as (out' & g' & E & _ & Hl & Hp); [done..|]. by exists out', g'.
Qed.

(** The format "v=%04lX %s" and the string "ok!" behind it; a buffer of 8. *)
Definition demo_items : list item :=
  [Lit 118; Lit 61; Spec false true [4] 1 (CHex true); Lit 32; Spec false false [] 0 CStr].
Definition demo_text : list Z := encode demo_items ++ [0] ++ [111; 107; 33; 0].

Lemma klog_format_string_witness : ∃ out' g',
  klog_format_string (Some (replicate 8 7)) 8 demo_text 0 (replicate 32 0) [0xABC; 11] =
    Ret (7, Some out', g') ∧ [118; 61; 48; 65; 66; 67; 32; 0] `prefix_of` out'.
Proof.
  destruct (klog_format_string_renders 7 demo_text
    (λ a, if a =? 11 then Some [111; 107; 33] else None) 0 demo_items [0xABC; 11]
    [118; 61; 48; 65; 66; 67; 32; 111; 107; 33] (replicate 32 0) (replicate 8 7)) as (out' & g' & H1 & _ & H2).
  - intros a t. destruct (Z.eqb_spec a 11) as [->|]; [|done]. intros [= <-].
    split; [repeat split; done|]. split; [repeat constructor; done|by vm_compute].
  - repeat constructor; cbn; try done; try lia.
  - repeat split; done.
  - reflexivity.
  - reflexivity.
  - reflexivity.
  - by vm_compute.
  - exists out', g'. split; [exact H1|exact H2].
Defined.

(** the conversion character is taken to exist: a format that ends inside
    a specification makes the loop step over the terminator and read what lies
    behind the format. The format is "%5", followed by the bytes of "SECRET". *)
Theorem klog_format_string_reads_past_format : ∃ out' g',
  cstr [37; 53; 0; 83; 69; 67; 82; 69; 84; 0] 0 [37; 53] ∧
  klog_format_string (Some (replicate 16 7)) 16 [37; 53; 0; 83; 69; 67; 82; 69; 84; 0] 0 (replicate 32 0) [] =
    Ret (7, Some out', g') ∧ [0; 83; 69; 67; 82; 69; 84; 0] `prefix_of` out'.
Proof.
  eexists _, _. split; [repeat split; done|]. split; [vm_compute; reflexivity|]. by eexists.
Qed.
