(* ===== verification/Heap.v ===== *)
(** * The kernel heap: [kernel/mm/heap/heap.c]

    The memory is a store of 64-bit words at 8-aligned addresses, so that a
    header written over its neighbour is visible; an access to an address that
    is not mapped, or not aligned, is a [Fault]. A block header has the layout
    of [heap_block_t]: [size] at 0, [used] at 8, [prev] at 16, [next] at 24,
    [magic] (32 bits) at 32 and, since the structure is aligned to 16, eight
    bytes of padding at 40 that no one writes; [sizeof(heap_block_t)] is 48. The
    page allocator below the heap is an interface ([PageProvider]). The lock
    only serialises; what it allows between [kfree]'s two critical sections is
    modelled by their being two functions. *)
From S2P Require Import Prelude Mem Bits.

(** ** The interface of the page allocator

    [vmm_alloc_pages_at vaddr count] maps [count] pages at [vaddr] or reports an
    error; it leaves memory outside the range alone. *)
Definition VMM_OK : Z := 0.
Class PageProvider (V : Type) := {
  vmm_alloc_pages_at : Z → Z → V → gmap Z Z → Z * V * gmap Z Z;
  alloc_pages_at_frame vaddr count v m r v' m' :
    vmm_alloc_pages_at vaddr count v m = (r, v', m') →
    ∀ w, w < vaddr ∨ vaddr + count * 4096 ≤ w → m' !! w = m !! w;
  alloc_pages_at_mapped vaddr count v m v' m' :
    vmm_alloc_pages_at vaddr count v m = (VMM_OK, v', m') →
    ∀ w, vaddr ≤ w < vaddr + count * 4096 → w mod 8 = 0 → is_Some (m' !! w)
}.

Module Heap.

Definition PAGE_SIZE : Z := 4096.
Definition HEAP_BLOCK_MAGIC : Z := 0x00114514.
Definition HEAP_ALIGN : Z := 16.
Definition HEAP_MIN_BLOCK : Z := 32.
Definition HEAP_INIT_PAGES : Z := 16.
Definition KERNEL_HEAP_BASE : Z := 0xFFFFFFFF81000000.
Definition KERNEL_HEAP_MAX : Z := KERNEL_HEAP_BASE + 128 * 1024 * 1024.
Definition sizeof_block : Z := 48.

Inductive heap_result :=
  HEAP_OK | HEAP_ERR_NOT_INIT | HEAP_ERR_OOM | HEAP_ERR_INVALID | HEAP_ERR_DOUBLE_FREE | HEAP_ERR_CORRUPTED.

Record heap_stats := mk_stats {
  total_bytes : Z; used_bytes : Z; free_bytes : Z;
  total_blocks : Z; used_blocks : Z; free_blocks : Z;
  alloc_count : Z; free_count : Z; expand_count : Z }.
Definition zero_stats : heap_stats := mk_stats 0 0 0 0 0 0 0 0 0.

(** [heap_state_t], with the memory and the page allocator's state it works on. *)
Record heap_state (V : Type) := mk_heap {
  heap_start : Z; heap_end : Z; heap_brk : Z; free_list : Z;
  stats : heap_stats; initialized : bool; mem : gmap Z Z; vmm : V }.
Arguments mk_heap {V}. Arguments heap_start {V}. Arguments heap_end {V}. Arguments heap_brk {V}.
Arguments free_list {V}. Arguments stats {V}. Arguments initialized {V}. Arguments mem {V}. Arguments vmm {V}.

Section ops.
Context {V : Type} `{PageProvider V}.
Implicit Types st : heap_state V.

Definition with_mem (m : gmap Z Z) st : heap_state V :=
  mk_heap (heap_start st) (heap_end st) (heap_brk st) (free_list st) (stats st) (initialized st) m (vmm st).
Definition with_free_list (p : Z) st : heap_state V :=
  mk_heap (heap_start st) (heap_end st) (heap_brk st) p (stats st) (initialized st) (mem st) (vmm st).
Definition with_stats (s : heap_stats) st : heap_state V :=
  mk_heap (heap_start st) (heap_end st) (heap_brk st) (free_list st) s (initialized st) (mem st) (vmm st).
Definition with_brk (b : Z) st : heap_state V :=
  mk_heap (heap_start st) (heap_end st) b (free_list st) (stats st) (initialized st) (mem st) (vmm st).

(** ** Words and header fields *)
Definition ld st (a : Z) : outcome Z := access (mem st !! a).
Definition wr (a v : Z) st : outcome (heap_state V) :=
  _ ← access (mem st !! a); Ret (with_mem (<[a := v]> (mem st)) st).

Definition get_size st b : outcome Z := ld st b.
Definition get_used st b : outcome bool := w ← ld st (b + 8); Ret (negb (w mod 2 ^ 8 =? 0)).
Definition get_prev st b : outcome Z := ld st (b + 16).
Definition get_next st b : outcome Z := ld st (b + 24).
Definition get_magic st b : outcome Z := w ← ld st (b + 32); Ret (w mod 2 ^ 32).
Definition set_size (b v : Z) st : outcome (heap_state V) := wr b v st.
Definition set_used (b : Z) (u : bool) st : outcome (heap_state V) :=
  w ← ld st (b + 8); wr (b + 8) (w - w mod 2 ^ 8 + Z.b2z u) st.
Definition set_prev (b v : Z) st : outcome (heap_state V) := wr (b + 16) v st.
Definition set_next (b v : Z) st : outcome (heap_state V) := wr (b + 24) v st.
Definition set_magic (b v : Z) st : outcome (heap_state V) :=
  w ← ld st (b + 32); wr (b + 32) (w - w mod 2 ^ 32 + v) st.

(** ** Helpers *)
Definition align_size (size : Z) : Z := Z.land (size ⊞ HEAP_ALIGN ⊟ 1) (~64 (HEAP_ALIGN - 1)).
Definition total_block_size (user_size : Z) : Z := align_size user_size ⊞ sizeof_block.
Definition block_to_ptr (block : Z) : Z := block ⊞ sizeof_block.

Definition ptr_to_block st (ptr : Z) : outcome Z :=
  let addr := ptr in
  orig ← ld st (addr ⊟ 8);
  if (heap_start st <=? orig) && (orig <? heap_brk st) && (Z.land orig 0xF =? 0) then
    let raw_user_ptr := orig in
    let potential_block := raw_user_ptr ⊟ sizeof_block in
    magic ← get_magic st potential_block;
    if magic =? HEAP_BLOCK_MAGIC then
      size ← get_size st potential_block;
      let block_start := raw_user_ptr in
      let block_end := raw_user_ptr ⊞ size ⊟ sizeof_block in
      if (block_start <=? addr) && (addr <? block_end) then Ret potential_block
      else Ret (addr ⊟ sizeof_block)
    else Ret (addr ⊟ sizeof_block)
  else Ret (addr ⊟ sizeof_block).

Definition next_block st (block : Z) : outcome Z := s ← get_size st block; Ret (block ⊞ s).
Definition is_last_block st (block : Z) : outcome bool :=
  next_addr ← next_block st block;
  Ret ((heap_brk st <=? next_addr) || (heap_end st <=? next_addr)).

Definition validate_block st (block : Z) : outcome bool :=
  if block =? 0 then Ret false else
  magic ← get_magic st block;
  if negb (magic =? HEAP_BLOCK_MAGIC) then Ret false else
  if (block <? heap_start st) || (heap_end st <=? block) then Ret false else
  if negb (Z.land block (HEAP_ALIGN - 1) =? 0) then Ret false else
  size ← get_size st block;
  Ret (negb ((size <? sizeof_block) || (heap_end st <? block ⊞ size))).

(** ** The free list *)
Definition remove_from_free_list (block : Z) st : outcome (heap_state V) :=
  used ← get_used st block;
  _ ← ccos_assert (negb used);
  prev ← get_prev st block;
  next ← get_next st block;
  st ← (if negb (prev =? 0) then set_next prev next st else Ret (with_free_list next st));
  st ← (if negb (next =? 0) then set_prev next prev st else Ret st);
  st ← set_prev block 0 st;
  set_next block 0 st.

(** [while (curr && curr < block)]: the last node before [block] and the
    first one not before it. A free list has fewer nodes than memory has words,
    which is the fuel of all walks along it. *)
Fixpoint find_place (fuel : nat) st (block prev curr : Z) : outcome (Z * Z) :=
  match fuel with
  | O => Fail Fault
  | S fuel' =>
      if negb (curr =? 0) && (curr <? block) then
        next ← get_next st curr; find_place fuel' st block curr next
      else Ret (prev, curr)
  end.
Definition walk_fuel st : nat := S (size (mem st)).

Definition insert_to_free_list (block : Z) st : outcome (heap_state V) :=
  used ← get_used st block;
  _ ← ccos_assert (negb used);
  p ← get_prev st block;
  _ ← ccos_assert (p =? 0);
  n ← get_next st block;
  _ ← ccos_assert (n =? 0);
  pc ← find_place (walk_fuel st) st block 0 (free_list st);
  let '(prev, curr) := pc : Z * Z in
  st ← set_next block curr st;
  st ← (if negb (curr =? 0) then set_prev curr block st else Ret st);
  st ← set_prev block prev st;
  if negb (prev =? 0) then set_next prev block st else Ret (with_free_list block st).

Fixpoint best_fit_loop (fuel : nat) st (sz best best_size curr : Z) : outcome Z :=
  match fuel with
  | O => Fail Fault
  | S fuel' =>
      if curr =? 0 then Ret best else
      s ← get_size st curr;
      if (sz <=? s) && ((best =? 0) || (s <? best_size)) then
        if s =? sz then Ret curr else
        next ← get_next st curr; best_fit_loop fuel' st sz curr s next
      else next ← get_next st curr; best_fit_loop fuel' st sz best best_size next
  end.
(** [best->size] is read again in every turn; nothing changes it meanwhile, so
    the loop carries it. *)
Definition find_best_fit (sz : Z) st : outcome Z := best_fit_loop (walk_fuel st) st sz 0 0 (free_list st).

(** ** Statistics updates *)
Definition bump_blocks (dt du df : Z) (s : heap_stats) : heap_stats :=
  mk_stats (total_bytes s) (used_bytes s) (free_bytes s) (total_blocks s ⊞ dt) (used_blocks s ⊞ du)
    (free_blocks s ⊞ df) (alloc_count s) (free_count s) (expand_count s).
Definition bump_bytes (dt du df : Z) (s : heap_stats) : heap_stats :=
  mk_stats (total_bytes s ⊞ dt) (used_bytes s ⊞ du) (free_bytes s ⊞ df) (total_blocks s) (used_blocks s)
    (free_blocks s) (alloc_count s) (free_count s) (expand_count s).
Definition bump_ops (da df de : Z) (s : heap_stats) : heap_stats :=
  mk_stats (total_bytes s) (used_bytes s) (free_bytes s) (total_blocks s) (used_blocks s)
    (free_blocks s) (alloc_count s ⊞ da) (free_count s ⊞ df) (expand_count s ⊞ de).
Definition upd_stats (f : heap_stats → heap_stats) st : heap_state V := with_stats (f (stats st)) st.

(** ** Splitting and merging *)
Definition init_free_block (b size : Z) st : outcome (heap_state V) :=
  st ← set_size b size st;
  st ← set_used b false st;
  st ← set_magic b HEAP_BLOCK_MAGIC st;
  st ← set_prev b 0 st;
  set_next b 0 st.

Definition split_block (block needed_size : Z) st : outcome (heap_state V) :=
  s ← get_size st block;
  let remaining := s ⊟ needed_size in
  if HEAP_MIN_BLOCK <=? remaining then
    let new_block := block ⊞ needed_size in
    st ← init_free_block new_block remaining st;
    st ← set_size block needed_size st;
    st ← insert_to_free_list new_block st;
    Ret (upd_stats (λ s, bump_bytes 0 0 remaining (bump_blocks 1 0 1 s)) st)
  else Ret st.

(** The first half of [coalesce_block]: merge the next block into this one. *)
Definition coalesce_next (block : Z) st : outcome (heap_state V) :=
  last ← is_last_block st block;
  if (last : bool) then Ret st else
  next ← next_block st block;
  used ← get_used st next;
  valid ← (if (used : bool) then Ret false else validate_block st next);
  if (valid : bool) then
    st ← remove_from_free_list next st;
    s1 ← get_size st block;
    s2 ← get_size st next;
    st ← set_size block (s1 ⊞ s2) st;
    Ret (upd_stats (bump_blocks (-1) 0 (-1)) st)
  else Ret st.
(** The second half: merge this block into the free block before it. *)
Definition coalesce_prev (block : Z) st : outcome (heap_state V) :=
  pc ← find_place (walk_fuel st) st block 0 (free_list st);
  let prev_in_free := fst pc in
  if prev_in_free =? 0 then Ret st else
  sp ← get_size st prev_in_free;
  if prev_in_free ⊞ sp =? block then
    s ← get_size st block;
    st ← set_size prev_in_free (sp ⊞ s) st;
    st ← remove_from_free_list block st;
    Ret (upd_stats (bump_blocks (-1) 0 (-1)) st)
  else Ret st.
Definition coalesce_block (block : Z) st : outcome (heap_state V) :=
  used ← get_used st block;
  _ ← ccos_assert (negb used);
  st ← coalesce_next block st;
  coalesce_prev block st.

(** ** Growing the heap *)

(** [memset(..., 0, ...)] of a region of whole words. *)
Fixpoint clear_words (n : nat) (a : Z) st : outcome (heap_state V) :=
  match n with O => Ret st | S n' => st ← wr a 0 st; clear_words n' (a + 8) st end.

Definition expand_pages (min_needed : Z) : Z :=
  let page_count := (min_needed ⊞ PAGE_SIZE ⊟ 1) / PAGE_SIZE in
  if page_count <? 4 then 4 else page_count.
Definition expand_target st : Z :=
  let target := if heap_brk st =? 0 then KERNEL_HEAP_BASE else heap_brk st in
  Z.land (target ⊞ PAGE_SIZE ⊟ 1) (~64 (PAGE_SIZE - 1)).

Definition expand_heap_locked (min_needed : Z) st : outcome (heap_result * heap_state V) :=
  let page_count := expand_pages min_needed in
  let target := expand_target st in
  let '(r, v, m) := vmm_alloc_pages_at target page_count (vmm st) (mem st) in
  let st := mk_heap (heap_start st) (heap_end st) (heap_brk st) (free_list st) (stats st) (initialized st) m v in
  if negb (r =? VMM_OK) then Ret (HEAP_ERR_OOM, st) else
  let size := page_count ⊠ PAGE_SIZE in
  st ← init_free_block target size st;
  st ← clear_words (Z.to_nat ((size - sizeof_block) / 8)) (target + sizeof_block) st;
  st ← insert_to_free_list target st;
  let st := with_brk (target ⊞ size) st in
  let st := upd_stats (λ s, bump_ops 0 0 1 (bump_blocks 1 0 1 (bump_bytes size 0 size s))) st in
  st ← coalesce_block target st;
  Ret (HEAP_OK, st).

(** ** The interface of the heap; [None] is NULL *)
Definition heap_init st : outcome (heap_result * heap_state V) :=
  if initialized st then Ret (HEAP_OK, st) else
  let st := mk_heap KERNEL_HEAP_BASE KERNEL_HEAP_MAX 0 0 zero_stats false (mem st) (vmm st) in
  rs ← expand_heap_locked (HEAP_INIT_PAGES ⊠ PAGE_SIZE) st;
  let '(r, st) := rs : heap_result * heap_state V in
  match r with
  | HEAP_OK =>
      Ret (HEAP_OK, mk_heap (free_list st) (heap_end st) (heap_brk st) (free_list st) (stats st) true (mem st) (vmm st))
  | _ => Ret (r, st)
  end.

(** The part of [kmalloc] after a block was found. *)
Definition take_block (block total_size : Z) st : outcome (option Z * heap_state V) :=
  st ← remove_from_free_list block st;
  st ← split_block block total_size st;
  st ← set_used block true st;
  s ← get_size st block;
  Ret (Some (block_to_ptr block),
       upd_stats (λ x, bump_ops 1 0 0 (bump_blocks 0 1 (-1) (bump_bytes 0 s (- s) x))) st).

Definition kmalloc (sz : Z) st : outcome (option Z * heap_state V) :=
  if negb (initialized st) then Ret (None, st) else
  if sz =? 0 then Ret (None, st) else
  let total_size := total_block_size sz in
  block ← find_best_fit total_size st;
  if block =? 0 then
    rs ← expand_heap_locked total_size st;
    let '(r, st) := rs : heap_result * heap_state V in
    match r with
    | HEAP_OK =>
        block ← find_best_fit total_size st;
        if block =? 0 then Ret (None, st) else take_block block total_size st
    | _ => Ret (None, st)
    end
  else take_block block total_size st.

(** [kfree] up to the point where it drops the lock: the block to put back. *)
Definition kfree_mark (ptr : option Z) st : outcome (option Z * heap_state V) :=
  if negb (initialized st) then Ret (None, st) else
  match ptr with
  | None => Ret (None, st)
  | Some ptr =>
      block ← ptr_to_block st ptr;
      valid ← validate_block st block;
      if negb valid then Ret (None, st) else
      used ← get_used st block;
      if negb used then Ret (None, st) else
      st ← set_used block false st;
      s ← get_size st block;
      Ret (Some block, upd_stats (λ x, bump_ops 0 1 0 (bump_blocks 0 (-1) 1 (bump_bytes 0 (- s) s x))) st)
  end.
(** The second critical section. *)
Definition kfree_insert (block : Z) st : outcome (heap_state V) :=
  st ← insert_to_free_list block st;
  coalesce_block block st.
Definition kfree (ptr : option Z) st : outcome (heap_state V) :=
  bs ← kfree_mark ptr st;
  match bs with
  | (None, st) => Ret st
  | (Some block, st) => kfree_insert block st
  end.

(** Bytes inside the word store, for [krealloc]'s [memcpy]. *)
Definition ld8 st (a : Z) : outcome Z := w ← ld st (a - a mod 8); Ret ((w / 2 ^ (8 * (a mod 8))) mod 2 ^ 8).
Definition wr8 (a v : Z) st : outcome (heap_state V) :=
  w ← ld st (a - a mod 8);
  let k := 2 ^ (8 * (a mod 8)) in
  wr (a - a mod 8) (w - (w / k) mod 2 ^ 8 * k + v * k) st.
Fixpoint copy_bytes (n : nat) (dest src : Z) st : outcome (heap_state V) :=
  match n with
  | O => Ret st
  | S n' => c ← ld8 st src; st ← wr8 dest c st; copy_bytes n' (dest + 1) (src + 1) st
  end.

Definition krealloc (ptr : option Z) (new_size : Z) st : outcome (option Z * heap_state V) :=
  match ptr with
  | None => kmalloc new_size st
  | Some p =>
      if new_size =? 0 then st ← kfree ptr st; Ret (None, st) else
      if negb (initialized st) then Ret (None, st) else
      old_block ← ptr_to_block st p;
      valid ← validate_block st old_block;
      used ← (if (valid : bool) then get_used st old_block else Ret false);
      if negb used then Ret (None, st) else
      s ← get_size st old_block;
      let old_user_size := s ⊟ sizeof_block in
      let new_total := total_block_size new_size in
      if new_total <=? s then Ret (Some p, st) else
      rs ← kmalloc new_size st;
      let '(r, st) := rs : option Z * heap_state V in
      match r with
      | None => Ret (None, st)
      | Some new_ptr =>
          let copy_size := if old_user_size <? new_size then old_user_size else new_size in
          st ← copy_bytes (Z.to_nat copy_size) new_ptr p st;
          st ← kfree ptr st;
          Ret (Some new_ptr, st)
      end
  end.

Definition kmalloc_aligned (sz alignment : Z) st : outcome (option Z * heap_state V) :=
  if negb (initialized st) then Ret (None, st) else
  if sz =? 0 then Ret (None, st) else
  if (alignment =? 0) || negb (Z.land alignment (alignment ⊟ 1) =? 0) then Ret (None, st) else
  let alignment := if alignment <? HEAP_ALIGN then HEAP_ALIGN else alignment in
  let total_size := total_block_size sz ⊞ alignment ⊞ 8 in
  rs ← kmalloc total_size st;
  let '(r, st) := rs : option Z * heap_state V in
  match r with
  | None => Ret (None, st)
  | Some raw_start =>
      let aligned_addr := BitOps.align_up (raw_start ⊞ 8) alignment in
      st ← wr (aligned_addr ⊟ 8) raw_start st;
      Ret (Some aligned_addr, st)
  end.

(** The walk of [heap_get_stats]; a block is at least eight bytes long in a
    heap that is not corrupted, so the fuel is the number of words. *)
Fixpoint stats_loop (fuel : nat) st (block : Z) (s : heap_stats) : outcome (option heap_stats) :=
  match fuel with
  | O => Ret None
  | S fuel' =>
      if block <? heap_brk st then
        valid ← validate_block st block;
        sz ← get_size st block;
        s ← (if (valid : bool) then
               used ← get_used st block;
               let user_bytes := sz ⊟ sizeof_block in
               if (used : bool) then Ret (bump_bytes user_bytes user_bytes 0 (bump_blocks 1 1 0 s))
               else Ret (bump_bytes user_bytes 0 user_bytes (bump_blocks 1 0 1 s))
             else Ret s);
        stats_loop fuel' st (block ⊞ sz) s
      else Ret (Some s)
  end.
Definition heap_get_stats (want : bool) st : outcome (heap_result * option heap_stats) :=
  if negb (initialized st) then Ret (HEAP_ERR_NOT_INIT, None) else
  if negb want then Ret (HEAP_ERR_INVALID, None) else
  r ← stats_loop (walk_fuel st) st (heap_start st)
        (mk_stats 0 0 0 0 0 0 (alloc_count (stats st)) (free_count (stats st)) (expand_count (stats st)));
  Ret (HEAP_OK, r).

End ops.

(** ** The layout of the heap

    A block: its address, its size, whether it is in use, and whether it is on
    the free list (between two steps of an operation a free block need not be). *)
Record blk := Blk { ba : Z; bs : Z; bu : bool; bl : bool }.

(** The blocks [l] tile the range from [a] to [e]. *)
Fixpoint tiled (a : Z) (l : list blk) (e : Z) : Prop :=
  match l with
  | [] => a = e
  | b :: l' => ba b = a ∧ sizeof_block ≤ bs b ∧ (16 | bs b) ∧ tiled (a + bs b) l' e
  end.
Definition flist (l : list blk) : list Z := ba <$> filter (λ b, bl b = true) l.

Lemma tiled_app a l1 l2 e : tiled a (l1 ++ l2) e ↔ ∃ x, tiled a l1 x ∧ tiled x l2 e.
Proof.
  revert a. induction l1 as [|b l1 IH]; intros a; cbn [tiled app].
  - split; [eauto|]. by intros (x & <- & ?).
  - setoid_rewrite IH. naive_solver.
Qed.

Lemma tiled_in a l e b : tiled a l e → (16 | a) → b ∈ l →
  a ≤ ba b ∧ ba b + bs b ≤ e ∧ sizeof_block ≤ bs b ∧ (16 | ba b).
Proof.
  revert a. induction l as [|c l IH]; intros a; [by intros _ _ ?%not_elem_of_nil|].
  intros (<- & Hs & H16 & Ht) Ha [->|Hb]%elem_of_cons.
  - assert (ba c + bs c ≤ e); [|unfold sizeof_block in *; split_and!; (done || lia)].
    clear -Ht. revert Ht. generalize (ba c + bs c). induction l as [|d l IH]; intros x; cbn; [lia|].
    intros (<- & Hs & _ & Ht%IH). unfold sizeof_block in *. lia.
  - destruct (IH _ Ht) as (? & ? & ? & ?); [by apply Z.divide_add_r|done|]. unfold sizeof_block in *.
    split_and!; (done || lia).
Qed.

Lemma tiled_mid a l1 b l2 e : tiled a (l1 ++ b :: l2) e → (16 | a) →
  a ≤ ba b ∧ ba b + bs b ≤ e ∧ sizeof_block ≤ bs b ∧ (16 | ba b) ∧ (16 | bs b) ∧
  (∀ c, c ∈ l1 → ba c + bs c ≤ ba b ∧ sizeof_block ≤ bs c) ∧
  (∀ c, c ∈ l2 → ba b + bs b ≤ ba c ∧ sizeof_block ≤ bs c).
Proof.
  intros Ht Ha. destruct (tiled_in _ _ _ b Ht Ha) as (? & ? & ? & ?); [set_solver|].
  apply tiled_app in Ht as (x & HL & <- & ? & ? & HR). split_and!; [done..| |]; intros c Hc.
  - by destruct (tiled_in _ _ _ c HL Ha Hc) as (? & ? & ? & ?).
  - destruct (tiled_in _ _ _ c HR ltac:(by apply Z.divide_add_r) Hc) as (? & ? & ? & ?). done.
Qed.

(** Two blocks of a layout are the same or a header apart. *)
Lemma tiled_apart a l e b c : tiled a l e → (16 | a) → b ∈ l → c ∈ l →
  b = c ∨ ba b + sizeof_block ≤ ba c ∨ ba c + sizeof_block ≤ ba b.
Proof.
  intros Ht Ha Hb Hc. apply list_elem_of_split in Hb as (l1 & l2 & ->).
  destruct (tiled_mid _ _ _ _ _ Ht Ha) as (_ & _ & ? & _ & _ & HL & HR).
  apply elem_of_app in Hc as [Hc|[->|Hc]%elem_of_cons]; [|by left|]; right.
  - apply HL in Hc. lia.
  - apply HR in Hc. lia.
Qed.

Lemma flist_app l1 l2 : flist (l1 ++ l2) = flist l1 ++ flist l2.
Proof. unfold flist. by rewrite filter_app, fmap_app. Qed.
Lemma flist_in l x : x ∈ flist l → ∃ b, b ∈ l ∧ ba b = x ∧ bl b = true.
Proof. unfold flist. intros (b & -> & Hb)%list_elem_of_fmap. apply list_elem_of_filter in Hb as []. eauto. Qed.
Lemma flist_cons b l : flist (b :: l) = (if bl b then [ba b] else []) ++ flist l.
Proof. unfold flist. rewrite filter_cons. destruct (bl b) eqn:E; by case_decide. Qed.

Lemma flist_snoc l b : flist (l ++ [b]) = flist l ++ (if bl b then [ba b] else []).
Proof. by rewrite flist_app, flist_cons, app_nil_r. Qed.

(** ** The free list as a doubly linked segment *)
Fixpoint seg (m : gmap Z Z) (p : Z) (F : list Z) (q : Z) : Prop :=
  match F with
  | [] => True
  | x :: F' => m !! (x + 16) = Some p ∧ m !! (x + 24) = Some (default q (head F')) ∧ seg m x F' q
  end.

Lemma seg_app m p F1 F2 q :
  seg m p (F1 ++ F2) q ↔ seg m p F1 (default q (head F2)) ∧ seg m (default p (last F1)) F2 q.
Proof.
  revert p. induction F1 as [|x F1 IH]; intros p; cbn [seg app]; [cbn; tauto|].
  rewrite IH, last_cons. destruct F1 as [|y F1]; cbn [app head default from_option id last].
  - naive_solver.
  - destruct (last (y :: F1)) eqn:E; [naive_solver|]. by apply last_None in E.
Qed.

Lemma seg_end m m' p F q q' : NoDup F → seg m p F q →
  (∀ x, x ∈ F → m' !! (x + 16) = m !! (x + 16)) →
  (∀ x, x ∈ F → last F ≠ Some x → m' !! (x + 24) = m !! (x + 24)) →
  (∀ x, last F = Some x → m' !! (x + 24) = Some q') → seg m' p F q'.
Proof.
  revert p. induction F as [|x F IH]; intros p Hnd; cbn [seg]; [done|].
  intros (Hp & Hn & Hs) H16 H24 Hl. apply NoDup_cons in Hnd as [Hx Hnd].
  split_and!; [by rewrite H16 by left| |].
  - destruct F as [|y F]; [by apply Hl|]. cbn [head default from_option id] in *.
    rewrite H24; [done|left|]. intros He. apply Hx. apply last_Some_elem_of. by rewrite last_cons_cons in He.
  - destruct F as [|y F]; [done|]. apply IH; [done|done|..].
    + intros z Hz. apply H16. by right.
    + intros z Hz. rewrite <- (last_cons_cons x). apply H24. by right.
    + intros z. rewrite <- (last_cons_cons x). apply Hl.
Qed.

Lemma seg_start m m' p p' F q : NoDup F → seg m p F q →
  (∀ x, x ∈ F → m' !! (x + 24) = m !! (x + 24)) →
  (∀ x, x ∈ F → head F ≠ Some x → m' !! (x + 16) = m !! (x + 16)) →
  (∀ x, head F = Some x → m' !! (x + 16) = Some p') → seg m' p' F q.
Proof.
  destruct F as [|x F]; intros Hnd; cbn [seg]; [done|]. intros (Hp & Hn & Hs) H24 H16 Hh.
  split_and!; [by apply Hh|by rewrite H24 by left|]. apply NoDup_cons in Hnd as [Hx Hnd].
  assert (∀ y, y ∈ F → m' !! (y + 24) = m !! (y + 24) ∧ m' !! (y + 16) = m !! (y + 16)) as Hf.
  { intros y Hy. split; [apply H24; by right|]. apply H16; [by right|]. cbn. intros [= ->]. done. }
  clear -Hs Hf. revert x Hs. induction F as [|y F IH]; intros x; cbn [seg]; [done|].
  intros (? & ? & ?). destruct (Hf y) as [-> ->]; [left|]. split_and!; [done..|].
  apply IH; [|done]. intros z Hz. apply Hf. by right.
Qed.

(** ** The invariant *)
Definition hdr (m : gmap Z Z) (b : blk) : Prop :=
  m !! ba b = Some (bs b) ∧
  (∃ w, m !! (ba b + 8) = Some w ∧ w mod 2 ^ 8 = Z.b2z (bu b)) ∧
  (∃ w, m !! (ba b + 32) = Some w ∧ w mod 2 ^ 32 = HEAP_BLOCK_MAGIC) ∧
  (bl b = false → m !! (ba b + 16) = Some 0 ∧ m !! (ba b + 24) = Some 0) ∧
  (bl b = true → bu b = false).

(** The state between two steps of an operation, where the blocks end at [e]
    (which is the break, but for a moment while the heap grows). *)
Record ginv_at {V} (e : Z) (st : heap_state V) (l : list blk) : Prop := {
  g_tiled : tiled (heap_start st) l e;
  g_start : 0 < heap_start st ∧ (16 | heap_start st);
  g_end : e ≤ heap_end st < 2 ^ 64;
  g_map : ∀ w, heap_start st ≤ w < e → w mod 8 = 0 → is_Some (mem st !! w);
  g_hdr : ∀ b, b ∈ l → hdr (mem st) b;
  g_head : free_list st = default 0 (head (flist l));
  g_seg : seg (mem st) 0 (flist l) 0 }.
Arguments g_tiled {V e st l}. Arguments g_start {V e st l}. Arguments g_end {V e st l}. Arguments g_map {V e st l}.
Arguments g_hdr {V e st l}. Arguments g_head {V e st l}. Arguments g_seg {V e st l}.

(** [m'] is [m] but for header words of blocks of [l]. *)
Definition headers_only (l : list blk) (m m' : gmap Z Z) : Prop :=
  ∀ w, (∀ b, b ∈ l → w < ba b ∨ ba b + 40 ≤ w) → m' !! w = m !! w.

(** Everything of the state but the memory, the list head and the statistics. *)
Definition same_region {V} (st st' : heap_state V) : Prop :=
  heap_start st' = heap_start st ∧ heap_end st' = heap_end st ∧ heap_brk st' = heap_brk st ∧
  initialized st' = initialized st ∧ vmm st' = vmm st.

Section proofs.
Context {V : Type} `{PageProvider V} {e : Z}.
Implicit Types st : heap_state V.
Abbreviation ginv := (ginv_at e).

Lemma headers_only_trans l m1 m2 m3 : headers_only l m1 m2 → headers_only l m2 m3 → headers_only l m1 m3.
Proof. intros H1 H2 w Hw. by rewrite H2, H1. Qed.

Lemma hdr_frame (m m' : gmap Z Z) b : (∀ w, ba b ≤ w < ba b + 40 → m' !! w = m !! w) → hdr m b → hdr m' b.
Proof. intros Hf (? & ? & ? & ? & ?). unfold hdr. rewrite !Hf by lia. done. Qed.

(** A change of links only. *)
Lemma hdr_links (m m' : gmap Z Z) b :
  (∀ w, w = ba b ∨ w = ba b + 8 ∨ w = ba b + 32 → m' !! w = m !! w) →
  (bl b = false → m' !! (ba b + 16) = m !! (ba b + 16) ∧ m' !! (ba b + 24) = m !! (ba b + 24)) →
  hdr m b → hdr m' b.
Proof.
  intros Hf Hl (? & ? & ? & Hz & ?). unfold hdr. rewrite !Hf by lia. split_and!; try done.
  intros Hb. destruct (Hl Hb) as [-> ->]. by apply Hz.
Qed.

Lemma wr_ok a v st : is_Some (mem st !! a) → wr a v st = Ret (with_mem (<[a := v]> (mem st)) st).
Proof. intros [x Hx]. unfold wr. by rewrite Hx. Qed.
Lemma ld_ok a v st : mem st !! a = Some v → ld st a = Ret v.
Proof. unfold ld. by intros ->. Qed.
Lemma get_used_ok st b : hdr (mem st) b → get_used st (ba b) = Ret (bu b).
Proof.
  intros (_ & (w & Hw & Hu) & _). unfold get_used. rewrite (ld_ok _ _ _ Hw). cbn. rewrite Hu. by destruct (bu b).
Qed.
Lemma get_size_ok st b : hdr (mem st) b → get_size st (ba b) = Ret (bs b).
Proof. intros (Hs & _). by apply ld_ok. Qed.
Lemma get_magic_ok st b : hdr (mem st) b → get_magic st (ba b) = Ret HEAP_BLOCK_MAGIC.
Proof. intros (_ & _ & (w & Hw & Hu) & _). unfold get_magic. rewrite (ld_ok _ _ _ Hw). cbn. by rewrite Hu. Qed.

(** The free list is strictly increasing, so it has no repetition. *)
Lemma flist_sorted a l z : tiled a l z → (16 | a) → NoDup (flist l) ∧ Forall (λ x, a ≤ x) (flist l).
Proof.
  revert a. induction l as [|b l IH]; intros a; [by split; constructor|].
  intros (<- & Hs & H16 & Ht) Ha. destruct (IH _ Ht ltac:(by apply Z.divide_add_r)) as [Hnd Hall].
  unfold sizeof_block in Hs. rewrite flist_cons. destruct (bl b); cbn [app]; [|split; [done|]].
  - split.
    + apply NoDup_cons. split; [|done]. intros Hin. eapply Forall_forall in Hall; [|done]. cbn in Hall. lia.
    + constructor; [lia|]. eapply Forall_impl; [done|]. cbn. lia.
  - eapply Forall_impl; [done|]. cbn. lia.
Qed.

Lemma flist_fuel st l : ginv st l → (length (flist l) < walk_fuel st)%nat.
Proof.
  intros Hg. destruct (flist_sorted _ _ _ (g_tiled Hg)) as [Hnd _]; [apply Hg|].
  unfold walk_fuel. apply Nat.lt_succ_r. rewrite <- (size_list_to_set (C:=gset Z) (flist l)), <- size_dom by done.
  apply subseteq_size. intros x Hx%elem_of_list_to_set. apply flist_in in Hx as (b & Hb & <- & _).
  apply elem_of_dom. destruct (g_hdr Hg b Hb) as [-> _]. eauto.
Qed.

Lemma ginv_apart st l b c : ginv st l → b ∈ l → c ∈ l →
  b = c ∨ ba b + sizeof_block ≤ ba c ∨ ba c + sizeof_block ≤ ba b.
Proof. intros Hg. apply (tiled_apart _ _ _ _ _ (g_tiled Hg)). apply Hg. Qed.

(** ** Separation facts of a layout around one block *)
Lemma around st l1 b l2 : ginv st (l1 ++ b :: l2) →
  0 < ba b ∧ heap_start st ≤ ba b ∧ ba b + bs b ≤ e ∧ sizeof_block ≤ bs b ∧ (16 | ba b) ∧ (16 | bs b) ∧
  (∀ c, c ∈ l1 → 0 < ba c ∧ ba c + 48 ≤ ba b) ∧ (∀ c, c ∈ l2 → ba b + bs b ≤ ba c) ∧
  (∀ x, x ∈ flist l1 → 0 < x ∧ x + 48 ≤ ba b) ∧ (∀ x, x ∈ flist l2 → ba b + bs b ≤ x).
Proof.
  intros Hg. pose proof (g_start Hg) as [? ?].
  destruct (tiled_mid _ _ _ _ _ (g_tiled Hg)) as (? & ? & ? & ? & ? & HL & HR); [done|].
  assert (∀ c, c ∈ l1 → 0 < ba c ∧ ba c + 48 ≤ ba b) as HL'.
  { intros c Hc. pose proof (HL c Hc). unfold sizeof_block in *.
    destruct (tiled_in _ _ _ c (g_tiled Hg)) as (? & _); [done|set_solver|]. lia. }
  split_and!; try done; [lia|by intros c Hc; apply HR|..]; intros x (c & Hc & <- & _)%flist_in; [by apply HL'|].
  by apply HR.
Qed.

(** ** Taking one block off the list or putting it on

    Both operations write the links of the block [a] and of its neighbours [p]
    and [n] on the list. *)
Record relinked (m m' : gmap Z Z) (a p n pa na pn np : Z) : Prop := {
  r_prev : m' !! (a + 16) = Some pa;
  r_next : m' !! (a + 24) = Some na;
  r_p : p ≠ 0 → m' !! (p + 24) = Some pn;
  r_n : n ≠ 0 → m' !! (n + 16) = Some np;
  r_other : ∀ w, w ≠ a + 16 → w ≠ a + 24 → (p ≠ 0 → w ≠ p + 24) → (n ≠ 0 → w ≠ n + 16) → m' !! w = m !! w;
  r_dom : ∀ w, is_Some (m !! w) → is_Some (m' !! w) }.

Abbreviation before l := (default 0 (last (flist l))).
Abbreviation after l := (default 0 (head (flist l))).

Lemma before_in l : before l ≠ 0 → ∃ c, c ∈ l ∧ ba c = before l ∧ bl c = true.
Proof.
  destruct (last (flist l)) as [x|] eqn:E; [|done]. intros _. apply flist_in. by apply last_Some_elem_of.
Qed.
Lemma after_in l : after l ≠ 0 → ∃ c, c ∈ l ∧ ba c = after l ∧ bl c = true.
Proof. destruct (flist l) as [|x F] eqn:E; [done|]. intros _. apply flist_in. rewrite E. left. Qed.

Lemma relinked_other_hdr st l1 b l2 m' pa na pn np c : ginv st (l1 ++ b :: l2) → c ∈ l1 ∨ c ∈ l2 →
  relinked (mem st) m' (ba b) (before l1) (after l2) pa na pn np → hdr m' c.
Proof.
  intros Hg Hc Hr. pose proof (around _ _ _ _ Hg) as (? & _ & _ & ? & _ & _ & HL & HR & _). unfold sizeof_block in *.
  assert (c ∈ l1 ++ b :: l2) as Hin by set_solver. pose proof (g_hdr Hg c Hin) as Hh.
  pose proof (λ d, ginv_apart st _ c d Hg Hin) as Hap.
  assert (ba c + 48 ≤ ba b ∨ ba b + 48 ≤ ba c) as Hcb.
  { destruct Hc as [Hc|Hc]; [apply HL in Hc|apply HR in Hc]; lia. }
  apply (hdr_links (mem st)); [..|done].
  - intros w Hw. apply (r_other _ _ _ _ _ _ _ _ _ Hr); [lia|lia|..]; intros Hne.
    + destruct (before_in _ Hne) as (d & Hd & Hdp & _). destruct (Hap d) as [<-|]; [set_solver|..];
        unfold sizeof_block in *; lia.
    + destruct (after_in _ Hne) as (d & Hd & Hdp & _). destruct (Hap d) as [<-|]; [set_solver|..];
        unfold sizeof_block in *; lia.
  - intros Hbl. split; apply (r_other _ _ _ _ _ _ _ _ _ Hr); try lia; intros Hne.
    1,3: destruct (before_in _ Hne) as (d & Hd & Hdp & Hdl). 3,4: destruct (after_in _ Hne) as (d & Hd & Hdp & Hdl).
    all: destruct (Hap d) as [<-|]; [set_solver|congruence|]; unfold sizeof_block in *; lia.
Qed.

Lemma relinked_headers_only st l1 b l2 m' pa na pn np : ginv st (l1 ++ b :: l2) →
  relinked (mem st) m' (ba b) (before l1) (after l2) pa na pn np →
  headers_only (l1 ++ b :: l2) (mem st) m'.
Proof.
  intros Hg Hr w Hw. pose proof (Hw b ltac:(set_solver)).
  apply (r_other _ _ _ _ _ _ _ _ _ Hr); [lia|lia|..]; intros Hne.
  - destruct (before_in _ Hne) as (d & Hd & <- & _). specialize (Hw d ltac:(set_solver)). lia.
  - destruct (after_in _ Hne) as (d & Hd & <- & _). specialize (Hw d ltac:(set_solver)). lia.
Qed.

(** The two halves of the list keep their links up to the cut. *)
Lemma relinked_segs st l1 b l2 m' pa na pn np q1 p2 : ginv st (l1 ++ b :: l2) →
  relinked (mem st) m' (ba b) (before l1) (after l2) pa na pn np →
  seg (mem st) 0 (flist l1) q1 → seg (mem st) p2 (flist l2) 0 →
  seg m' 0 (flist l1) pn ∧ seg m' np (flist l2) 0.
Proof.
  intros Hg Hr H1 H2. pose proof (around _ _ _ _ Hg) as (Hb0 & _ & _ & ? & _ & _ & _ & _ & HL & HR).
  unfold sizeof_block in *. destruct (flist_sorted _ _ _ (g_tiled Hg)) as [Hnd _]; [apply Hg|].
  rewrite flist_app, flist_cons in Hnd. apply NoDup_app in Hnd as (Hnd1 & _ & Hnd2).
  apply NoDup_app in Hnd2 as (_ & _ & Hnd2).
  assert (∀ x, x ∈ flist l1 → x ≠ before l1 → before l1 ≠ 0 → x + 24 ≠ before l1 + 24 ∧ x + 16 ≠ before l1 + 24) as Hp.
  { intros x Hx Hne Hz. split; [lia|]. apply before_in in Hz as (d & Hd & Hde & _).
    apply flist_in in Hx as (c & Hc & <- & _).
    destruct (ginv_apart _ _ c d Hg) as [->|];
      [set_solver|set_solver|congruence|]. unfold sizeof_block in *. lia. }
  assert (∀ x, x ∈ flist l2 → x ≠ after l2 → after l2 ≠ 0 → x + 24 ≠ after l2 + 16 ∧ x + 16 ≠ after l2 + 16) as Hn.
  { intros x Hx Hne Hz. split; [|lia]. apply after_in in Hz as (d & Hd & Hde & _).
    apply flist_in in Hx as (c & Hc & <- & _).
    destruct (ginv_apart _ _ c d Hg) as [->|];
      [set_solver|set_solver|congruence|]. unfold sizeof_block in *. lia. }
  assert (before l1 ≠ 0 → before l1 + 48 ≤ ba b) as Hpb.
  { intros Hne. destruct (last (flist l1)) as [x|] eqn:E; [|done]. apply (HL x). by apply last_Some_elem_of. }
  assert (after l2 ≠ 0 → ba b + 48 ≤ after l2) as Hnb.
  { intros Hne. destruct (flist l2) as [|x F]; [done|]. cbn in *. specialize (HR x ltac:(left)). lia. }
  split.
  - apply (seg_end (mem st) _ _ _ q1); [done..| | |].
    + intros x Hx. pose proof (HL x Hx). apply (r_other _ _ _ _ _ _ _ _ _ Hr); [lia|lia|..]; intros Hne.
      * destruct (decide (x = before l1)); [lia|]. by apply Hp.
      * specialize (Hnb Hne). lia.
    + intros x Hx Hlast. pose proof (HL x Hx). apply (r_other _ _ _ _ _ _ _ _ _ Hr); [lia|lia|..]; intros Hne.
      * apply Hp; [done| |done]. intros He. apply Hlast. destruct (last (flist l1)); [by subst|done].
      * specialize (Hnb Hne). lia.
    + intros x Hx. pose proof (HL x (last_Some_elem_of _ _ Hx)) as [? _]. pose proof (r_p _ _ _ _ _ _ _ _ _ Hr) as Hrp.
      rewrite Hx in Hrp. cbn in Hrp. apply Hrp. lia.
  - apply (seg_start (mem st) _ p2); [done..| | |].
    + intros x Hx. pose proof (HR x Hx). apply (r_other _ _ _ _ _ _ _ _ _ Hr); [lia|lia|..]; intros Hne.
      * specialize (Hpb Hne). lia.
      * destruct (decide (x = after l2)); [lia|]. by apply Hn.
    + intros x Hx Hhead. pose proof (HR x Hx). apply (r_other _ _ _ _ _ _ _ _ _ Hr); [lia|lia|..]; intros Hne.
      * specialize (Hpb Hne). lia.
      * apply Hn; [done| |done]. intros He. apply Hhead. destruct (flist l2); [done|by subst].
    + intros x Hx. assert (x ∈ flist l2) as Hin by (destruct (flist l2); [done|injection Hx as ->; left]).
      pose proof (HR x Hin). pose proof (r_n _ _ _ _ _ _ _ _ _ Hr) as Hrn. rewrite Hx in Hrn. cbn in Hrn. apply Hrn. lia.
Qed.

Definition off (b : blk) : blk := Blk (ba b) (bs b) false false.
Definition on (b : blk) : blk := Blk (ba b) (bs b) false true.

(** Flipping the list membership of one block. *)
Lemma relinked_ginv st st' l1 b b' l2 pa na pn np : ginv st (l1 ++ b :: l2) → bu b = false → bl b = negb (bl b') →
  b' = Blk (ba b) (bs b) false (bl b') → same_region st st' →
  relinked (mem st) (mem st') (ba b) (before l1) (after l2) pa na pn np →
  (if bl b' then pa = before l1 ∧ na = after l2 ∧ pn = ba b ∧ np = ba b
   else pa = 0 ∧ na = 0 ∧ pn = after l2 ∧ np = before l1) →
  free_list st' = default 0 (head (flist (l1 ++ b' :: l2))) → ginv st' (l1 ++ b' :: l2).
Proof.
  intros Hg Hu Hlb Hb' (Hs & He & Hbr & _) Hr Hv Hfl.
  pose proof (around _ _ _ _ Hg) as (? & ? & ? & ? & _ & _ & HL & HR & HL2 & HR2). unfold sizeof_block in *.
  assert (∃ q1 p2, seg (mem st) 0 (flist l1) q1 ∧ seg (mem st) p2 (flist l2) 0) as (q1 & p2 & H1' & H2').
  { pose proof (g_seg Hg) as Hsg. rewrite flist_app, flist_cons in Hsg.
    apply seg_app in Hsg as [? Hsg]. apply seg_app in Hsg as [_ ?]. eauto. }
  destruct (relinked_segs st l1 b l2 _ _ _ _ _ q1 p2 Hg Hr H1' H2') as [Hseg1 Hseg2].
  destruct Hg as [Ht Hst Hen Hmap Hhdr Hhead Hsegs] eqn:Hge. clear Hge. split; rewrite ?Hs, ?He; try done.
  - apply tiled_app in Ht as (x & Ht1 & Hx). apply tiled_app. exists x. split; [done|].
    rewrite Hb'. exact Hx.
  - intros w Hw H8. apply (r_dom _ _ _ _ _ _ _ _ _ Hr). by apply Hmap.
  - intros c Hc. apply elem_of_app in Hc as [Hc|[->|Hc]%elem_of_cons];
      [eapply (relinked_other_hdr st l1 b l2); by eauto| |eapply (relinked_other_hdr st l1 b l2); by eauto].
    destruct (Hhdr b ltac:(set_solver)) as (Hsz & Hus & Hmg & _).
    assert (∀ w, w = ba b ∨ w = ba b + 8 ∨ w = ba b + 32 → mem st' !! w = mem st !! w) as Hsame.
    { intros w Hw. apply (r_other _ _ _ _ _ _ _ _ _ Hr); [lia|lia|..]; intros Hne.
      - apply before_in in Hne as (d & Hd & <- & _). specialize (HL d Hd). lia.
      - apply after_in in Hne as (d & Hd & <- & _). specialize (HR d Hd). lia. }
    rewrite Hb'. unfold hdr; cbn [ba bs bu bl]. rewrite !Hsame by lia. rewrite Hu in Hus.
    split_and!; [done..| |done]. intros Hbl. rewrite Hbl in Hv. destruct Hv as (-> & -> & _).
    by split; [apply (r_prev _ _ _ _ _ _ _ _ _ Hr)|apply (r_next _ _ _ _ _ _ _ _ _ Hr)].
  - rewrite flist_app, flist_cons. pose proof (r_prev _ _ _ _ _ _ _ _ _ Hr). pose proof (r_next _ _ _ _ _ _ _ _ _ Hr).
    replace (ba b') with (ba b) by (by rewrite Hb').
    destruct (bl b') eqn:Eb; destruct Hv as (-> & -> & -> & ->); cbn [app].
    + apply seg_app. split; [exact Hseg1|]. cbn [seg]. done.
    + apply seg_app. split; [|done]. destruct (flist l2); exact Hseg1.
Qed.

Lemma before_mapped st l1 b l2 : ginv st (l1 ++ b :: l2) → before l1 ≠ 0 →
  before l1 + 48 ≤ ba b ∧ is_Some (mem st !! (before l1 + 24)).
Proof.
  intros Hg Hne. destruct (before_in _ Hne) as (d & Hd & <- & _).
  pose proof (around _ _ _ _ Hg) as (_ & _ & ? & ? & _ & _ & HL & _). unfold sizeof_block in *.
  destruct (tiled_in _ _ _ d (g_tiled Hg)) as (? & ? & ? & [k Hk]); [apply Hg|set_solver|].
  specialize (HL d Hd). unfold sizeof_block in *. split; [lia|]. apply (g_map Hg); [lia|].
  rewrite Hk. replace (k * 16 + 24) with ((k * 2 + 3) * 8) by lia. apply Z.mod_mul. lia.
Qed.
Lemma after_mapped st l1 b l2 : ginv st (l1 ++ b :: l2) → after l2 ≠ 0 →
  ba b + 48 ≤ after l2 ∧ is_Some (mem st !! (after l2 + 16)).
Proof.
  intros Hg Hne. destruct (after_in _ Hne) as (d & Hd & <- & _).
  pose proof (around _ _ _ _ Hg) as (_ & _ & ? & ? & _ & _ & _ & HR & _). unfold sizeof_block in *.
  destruct (tiled_in _ _ _ d (g_tiled Hg)) as (? & ? & ? & [k Hk]); [apply Hg|set_solver|].
  specialize (HR d Hd). unfold sizeof_block in *. split; [lia|]. apply (g_map Hg); [lia|].
  rewrite Hk. replace (k * 16 + 16) with ((k * 2 + 2) * 8) by lia. apply Z.mod_mul. lia.
Qed.
Lemma before_zero st l1 b l2 : ginv st (l1 ++ b :: l2) → before l1 = 0 → flist l1 = [].
Proof.
  intros Hg Hz. pose proof (around _ _ _ _ Hg) as (_ & _ & _ & _ & _ & _ & _ & _ & HL & _).
  destruct (last (flist l1)) as [x|] eqn:E; [|by apply last_None].
  apply last_Some_elem_of, HL in E. cbn in Hz. lia.
Qed.
Lemma header_mapped st l b w : ginv st l → b ∈ l → w = ba b + 16 ∨ w = ba b + 24 → is_Some (mem st !! w).
Proof.
  intros Hg Hb Hw. destruct (tiled_in _ _ _ b (g_tiled Hg)) as (? & ? & ? & [k Hk]); [apply Hg|done|].
  unfold sizeof_block in *. apply (g_map Hg); [lia|]. destruct Hw as [-> | ->]; rewrite Hk.
  - replace (k * 16 + 16) with ((k * 2 + 2) * 8) by lia. apply Z.mod_mul. lia.
  - replace (k * 16 + 24) with ((k * 2 + 3) * 8) by lia. apply Z.mod_mul. lia.
Qed.

(** A store that is made only when [c] holds. *)
Definition put_if (c : bool) (a v : Z) (m : gmap Z Z) : gmap Z Z := if c then <[a := v]> m else m.
Lemma wr_if (c : bool) a v st : (c = true → is_Some (mem st !! a)) →
  (if c then wr a v st else Ret st) = Ret (with_mem (put_if c a v (mem st)) st).
Proof. destruct c; cbn; intros Hc; [by apply wr_ok, Hc|]. by destruct st. Qed.
Lemma lookup_put_if (c : bool) a v m w :
  put_if c a v m !! w = if c && (w =? a) then Some v else m !! w.
Proof.
  destruct c; cbn; [|done]. destruct (Z.eqb_spec w a) as [->|]; [apply lookup_insert_eq|].
  by apply lookup_insert_ne.
Qed.
Lemma put_if_mapped (c : bool) a v m w : is_Some (m !! w) → is_Some (put_if c a v m !! w).
Proof. destruct c; [|done]. cbn. rewrite lookup_insert_is_Some'. auto. Qed.
Hint Resolve put_if_mapped : core.

(** Decides every comparison of addresses by arithmetic. *)
Ltac addr := repeat match goal with
  | |- context [?a =? ?b] => destruct (Z.eqb_spec a b); try lia; cbn [andb negb]
  end; try done; try congruence.

(** The stores of both list operations, whatever values they write. *)
Lemma relinked_puts st l1 b l2 pa na pn np : ginv st (l1 ++ b :: l2) →
  relinked (mem st)
    (put_if (negb (before l1 =? 0)) (before l1 + 24) pn
      (put_if (negb (after l2 =? 0)) (after l2 + 16) np
        (put_if true (ba b + 16) pa (put_if true (ba b + 24) na (mem st)))))
    (ba b) (before l1) (after l2) pa na pn np.
Proof.
  intros Hg. pose proof (before_mapped _ _ _ _ Hg) as Hp. pose proof (after_mapped _ _ _ _ Hg) as Hn.
  split; rewrite ?lookup_put_if; try (intros; eauto); rewrite ?lookup_put_if.
  - addr; destruct Hp, Hn; (done || lia).
  - addr; destruct Hp, Hn; (done || lia).
  - addr.
  - addr; destruct Hp, Hn; (done || lia).
  - addr; naive_solver lia.
Qed.

Lemma put_if_comm c1 c2 a1 a2 v1 v2 m : (c1 = true → c2 = true → a1 ≠ a2) →
  put_if c1 a1 v1 (put_if c2 a2 v2 m) = put_if c2 a2 v2 (put_if c1 a1 v1 m).
Proof.
  intros Hne. apply map_eq. intros w. rewrite !lookup_put_if.
  destruct c1, c2; cbn; try done. specialize (Hne eq_refl eq_refl). addr.
Qed.

(** What [remove_from_free_list] writes, from what it reads. *)
Lemma remove_eval st a p n : get_used st a = Ret false → mem st !! (a + 16) = Some p → mem st !! (a + 24) = Some n →
  (p ≠ 0 → is_Some (mem st !! (p + 24))) → (n ≠ 0 → is_Some (mem st !! (n + 16))) →
  remove_from_free_list a st =
    Ret (with_mem (put_if true (a + 24) 0 (put_if true (a + 16) 0 (put_if (negb (n =? 0)) (n + 16) p
                     (put_if (negb (p =? 0)) (p + 24) n (mem st)))))
          (with_free_list (if p =? 0 then n else free_list st) st)).
Proof.
  intros Hu Hbp Hbn Hp Hn. unfold remove_from_free_list, get_prev, get_next, set_prev, set_next. rewrite Hu.
  cbn [ccos_assert negb]. rewrite !outcome_bind_ret, (ld_ok _ _ _ Hbp), outcome_bind_ret, (ld_ok _ _ _ Hbn), outcome_bind_ret.
  set (st1 := with_mem (put_if (negb (p =? 0)) (p + 24) n (mem st))
                (with_free_list (if p =? 0 then n else free_list st) st)).
  assert ((if negb (p =? 0) then wr (p + 24) n st else Ret (with_free_list n st)) = Ret st1) as ->.
  { unfold st1. destruct (Z.eqb_spec p 0); cbn [negb put_if]; [done|]. rewrite wr_ok by (by apply Hp). done. }
  rewrite outcome_bind_ret, (wr_if (negb (n =? 0))), outcome_bind_ret.
  2:{ intros Hc%negb_true_iff%Z.eqb_neq. apply put_if_mapped. by apply Hn. }
  rewrite wr_ok by (do 2 apply put_if_mapped; eauto).
  rewrite outcome_bind_ret, wr_ok by (apply (put_if_mapped true); do 2 apply put_if_mapped; eauto). done.
Qed.

(** The links of a listed block. *)
Lemma listed_links st l1 b l2 : ginv st (l1 ++ b :: l2) → bl b = true →
  mem st !! (ba b + 16) = Some (before l1) ∧ mem st !! (ba b + 24) = Some (after l2) ∧ bu b = false.
Proof.
  intros Hg Hbl. pose proof (g_seg Hg) as Hsg. rewrite flist_app, flist_cons, Hbl in Hsg. cbn [app] in Hsg.
  apply seg_app in Hsg as [_ (Hbp & Hbn & _)]. split_and!; [done..|].
  apply (g_hdr Hg b); [set_solver|done].
Qed.

Lemma remove_spec st l1 b l2 : ginv st (l1 ++ b :: l2) → bl b = true →
  ∃ st', remove_from_free_list (ba b) st = Ret st' ∧ ginv st' (l1 ++ off b :: l2) ∧ same_region st st' ∧
    stats st' = stats st ∧ headers_only (l1 ++ b :: l2) (mem st) (mem st').
Proof.
  intros Hg Hbl. destruct (listed_links _ _ _ _ Hg Hbl) as (Hbp & Hbn & Hu).
  pose proof (before_mapped _ _ _ _ Hg) as Hp. pose proof (after_mapped _ _ _ _ Hg) as Hn.
  rewrite (remove_eval st (ba b) (before l1) (after l2)); [|rewrite get_used_ok, Hu; [done|]; apply (g_hdr Hg); set_solver|done..|naive_solver|naive_solver].
  pose proof (relinked_puts st l1 b l2 0 0 (after l2) (before l1) Hg) as Hrel.
  eexists. split; [done|].
  match type of Hrel with relinked _ ?m _ _ _ _ _ _ _ => match goal with |- context [with_mem ?m2] =>
    assert (m2 = m) as -> end end.
  { apply map_eq. intros w. rewrite !lookup_put_if. addr; destruct Hp, Hn; (done || lia). }
  split_and!.
  - eapply (relinked_ginv st _ l1 b (off b) l2); [done|done|by rewrite Hbl|done|done|exact Hrel|by split_and!|].
    cbn [free_list with_mem with_free_list]. rewrite flist_app, flist_cons. cbn [bl off app].
    pose proof (g_head Hg) as Hhd. rewrite flist_app, flist_cons, Hbl in Hhd. cbn [app] in Hhd.
    destruct (Z.eqb_spec (before l1) 0) as [Hp0|Hp0]; [by rewrite (before_zero _ _ _ _ Hg Hp0)|].
    rewrite Hhd. by destruct (flist l1).
  - done.
  - done.
  - by eapply (relinked_headers_only st l1 b l2).
Qed.

(** ** Walks along the list *)
Lemma find_place_spec st block p F1 F2 fuel : seg (mem st) p (F1 ++ F2) 0 → 0 < block →
  (∀ x, x ∈ F1 → 0 < x < block) → (∀ x, x ∈ F2 → block ≤ x) → (length F1 < fuel)%nat →
  find_place fuel st block p (default 0 (head (F1 ++ F2))) = Ret (default p (last F1), default 0 (head F2)).
Proof.
  revert p fuel. induction F1 as [|x F1 IH]; intros p [|f] Hs Hb H1 H2 Hf; cbn [length] in *; try lia;
    cbn [find_place].
  - cbn [app]. destruct F2 as [|y F2]; cbn; [done|]. specialize (H2 y ltac:(left)).
    destruct (Z.ltb_spec y block); [lia|]. by rewrite andb_false_r.
  - cbn [app head default from_option id]. destruct (H1 x ltac:(left)).
    destruct (Z.eqb_spec x 0); [lia|]. destruct (Z.ltb_spec x block); [|lia]. cbn [negb andb].
    destruct Hs as (_ & Hn & Hs). unfold get_next. rewrite (ld_ok _ _ _ Hn), outcome_bind_ret.
    rewrite IH; [|done|done|intros y Hy; apply H1; by right|done|lia]. rewrite last_cons.
    by destruct (last F1).
Qed.

(** In a layout the place of a block is between what is listed before and after it. *)
Lemma find_place_ginv st l1 b l2 : ginv st (l1 ++ b :: l2) →
  find_place (walk_fuel st) st (ba b) 0 (free_list st) =
    Ret (before l1, if bl b then ba b else after l2).
Proof.
  intros Hg. pose proof (around _ _ _ _ Hg) as (? & _ & _ & ? & _ & _ & _ & _ & HL & HR). unfold sizeof_block in *.
  pose proof (flist_fuel _ _ Hg) as Hf. rewrite (g_head Hg). pose proof (g_seg Hg) as Hs.
  rewrite flist_app in *. rewrite length_app in Hf.
  rewrite (find_place_spec st (ba b) 0 (flist l1) (flist (b :: l2)));
    [|done|lia|intros x Hx%HL; lia| |lia].
  - rewrite flist_cons. by destruct (bl b).
  - intros x. rewrite flist_cons. destruct (bl b); cbn [app]; [intros [->|Hx]%elem_of_cons; [lia|]|intros Hx];
      apply HR in Hx; lia.
Qed.

Lemma insert_spec st l1 b l2 : ginv st (l1 ++ b :: l2) → bl b = false → bu b = false →
  ∃ st', insert_to_free_list (ba b) st = Ret st' ∧ ginv st' (l1 ++ on b :: l2) ∧ same_region st st' ∧
    stats st' = stats st ∧ headers_only (l1 ++ b :: l2) (mem st) (mem st').
Proof.
  intros Hg Hbl Hu. assert (b ∈ l1 ++ b :: l2) as Hin by set_solver. pose proof (g_hdr Hg b Hin) as Hh.
  pose proof (around _ _ _ _ Hg) as (? & _).
  pose proof (before_mapped _ _ _ _ Hg) as Hp. pose proof (after_mapped _ _ _ _ Hg) as Hn.
  pose proof Hh as (_ & _ & _ & Hz & _). destruct (Hz Hbl) as [Hz16 Hz24].
  unfold insert_to_free_list, get_prev, get_next, set_prev, set_next. rewrite get_used_ok, Hu by done.
  cbn [ccos_assert negb]. rewrite !outcome_bind_ret, (ld_ok _ _ _ Hz16), outcome_bind_ret.
  cbn [ccos_assert Z.eqb]. rewrite !outcome_bind_ret, (ld_ok _ _ _ Hz24), outcome_bind_ret.
  cbn [ccos_assert Z.eqb]. rewrite !outcome_bind_ret, (find_place_ginv _ _ _ _ Hg), Hbl, outcome_bind_ret.
  pose proof (relinked_puts st l1 b l2 (before l1) (after l2) (ba b) (ba b) Hg) as Hrel.
  set (p := before l1) in *. set (n := after l2) in *.
  rewrite wr_ok by eauto. rewrite outcome_bind_ret, (wr_if (negb (n =? 0))), outcome_bind_ret.
  2:{ intros Hc%negb_true_iff%Z.eqb_neq. apply (put_if_mapped true). by apply Hn. }
  rewrite wr_ok by (apply put_if_mapped, (put_if_mapped true); eauto). rewrite outcome_bind_ret.
  cbn [mem with_mem].
  set (m3 := <[ba b + 16 := p]> _).
  set (st' := with_mem (put_if (negb (p =? 0)) (p + 24) (ba b) m3)
                (with_free_list (if p =? 0 then ba b else free_list st) st)).
  match goal with |- context [if negb (p =? 0) then ?x else ?y] =>
    assert ((if negb (p =? 0) then x else y) = Ret st') as -> end.
  { unfold st'. destruct (Z.eqb_spec p 0); cbn [negb put_if]; [done|].
    rewrite wr_ok; [done|]. cbn [mem with_mem]. unfold m3. apply (put_if_mapped true), put_if_mapped, (put_if_mapped true).
    by apply Hp. }
  exists st'. split; [done|].
  assert (mem st' = put_if (negb (p =? 0)) (p + 24) (ba b) (put_if (negb (n =? 0)) (n + 16) (ba b)
    (put_if true (ba b + 16) p (put_if true (ba b + 24) n (mem st))))) as Hm.
  { unfold st', m3. cbn [mem with_mem]. f_equal.
    change (put_if true (ba b + 16) p (put_if (negb (n =? 0)) (n + 16) (ba b) (put_if true (ba b + 24) n (mem st))) =
      put_if (negb (n =? 0)) (n + 16) (ba b) (put_if true (ba b + 16) p (put_if true (ba b + 24) n (mem st)))).
    apply put_if_comm. intros _ Hc%negb_true_iff%Z.eqb_neq. destruct (Hn Hc). lia. }
  rewrite <- Hm in Hrel. split_and!.
  - eapply (relinked_ginv st st' l1 b (on b) l2); [done..|exact Hrel|by split_and!|].
    unfold st'. cbn [free_list with_mem with_free_list]. rewrite flist_app, flist_cons. cbn [bl on app].
    pose proof (g_head Hg) as Hhd. rewrite flist_app, flist_cons, Hbl in Hhd. cbn [app] in Hhd.
    destruct (Z.eqb_spec p 0) as [Hp0|Hp0]; [by rewrite (before_zero _ _ _ _ Hg Hp0)|].
    rewrite Hhd. unfold p in Hp0. by destruct (flist l1).
  - done.
  - done.
  - by eapply (relinked_headers_only st l1 b l2).
Qed.

(** [find_best_fit]: the smallest listed block that is large enough. *)
Lemma best_fit_loop_spec st (sz_of : Z → Z) want F p best bsz fuel :
  seg (mem st) p F 0 → (∀ x, x ∈ F → 0 < x ∧ mem st !! x = Some (sz_of x)) → (length F < fuel)%nat →
  (best ≠ 0 → want < bsz) →
  ∃ r, best_fit_loop fuel st want best bsz (default 0 (head F)) = Ret r ∧
    (r = best ∧ (∀ x, x ∈ F → want ≤ sz_of x → best ≠ 0 ∧ bsz ≤ sz_of x) ∨
     r ∈ F ∧ want ≤ sz_of r ∧ (best ≠ 0 → sz_of r ≤ bsz) ∧ ∀ x, x ∈ F → want ≤ sz_of x → sz_of r ≤ sz_of x).
Proof.
  revert p best bsz fuel. induction F as [|x F IH]; intros p best bsz [|f] Hs Hsz Hf Hb; cbn [length] in *; try lia;
    cbn [best_fit_loop head default from_option id].
  - cbn. eexists. split; [done|]. left. split; [done|]. intros x Hx. by apply not_elem_of_nil in Hx.
  - destruct (Hsz x ltac:(left)) as [Hx0 Hx]. destruct (Z.eqb_spec x 0); [lia|].
    unfold get_size. rewrite (ld_ok _ _ _ Hx), outcome_bind_ret. destruct Hs as (_ & Hn & Hs).
    unfold get_next. rewrite (ld_ok _ _ _ Hn), !outcome_bind_ret.
    assert (∀ y, y ∈ F → 0 < y ∧ mem st !! y = Some (sz_of y)) as HszF by (intros y Hy; apply Hsz; by right).
    destruct ((want <=? sz_of x) && ((best =? 0) || (sz_of x <? bsz))) eqn:Ec.
    + apply andb_true_iff in Ec as [Hw%Z.leb_le Hbt].
      assert (best ≠ 0 → sz_of x < bsz) as Hlt.
      { intros Hb0. apply orb_true_iff in Hbt as [?%Z.eqb_eq|?%Z.ltb_lt]; lia. }
      destruct (Z.eqb_spec (sz_of x) want) as [He|He].
      * eexists. split; [done|]. right. split_and!; [left|lia|intros; specialize (Hlt ltac:(done)); lia|].
        intros y _. lia.
      * destruct (IH x x (sz_of x) f) as (r & -> & Hr); [done|done|lia|lia|]. exists r. split; [done|]. right.
        destruct Hr as [[-> Hall]|(Hin & Hwr & Hle & Hall)].
        -- split_and!; [left|lia|intros; specialize (Hlt ltac:(done)); lia|].
           intros y [->|Hy]%elem_of_cons Hwy; [lia|]. by apply Hall.
        -- specialize (Hle ltac:(lia)). split_and!; [by right|done|intros; specialize (Hlt ltac:(done)); lia|].
           intros y [->|Hy]%elem_of_cons Hwy; [lia|]. by apply Hall.
    + assert (want ≤ sz_of x → best ≠ 0 ∧ bsz ≤ sz_of x) as Hno.
      { intros Hw. destruct (Z.leb_spec want (sz_of x)); [|lia]. cbn [andb] in Ec.
        apply orb_false_iff in Ec as [?%Z.eqb_neq ?%Z.ltb_ge]. done. }
      destruct (IH x best bsz f) as (r & -> & Hr); [done|done|lia|done|]. exists r. split; [done|].
      destruct Hr as [[-> Hall]|(Hin & Hwr & Hle & Hall)]; [left|right].
      * split; [done|]. intros y [->|Hy]%elem_of_cons Hwy; [by apply Hno|by apply Hall].
      * split_and!; [by right|done|done|]. intros y [->|Hy]%elem_of_cons Hwy; [|by apply Hall].
        destruct (Hno Hwy) as [Hb0 ?]. specialize (Hle Hb0). lia.
Qed.

Lemma find_best_fit_spec st l want : ginv st l → 
  (find_best_fit want st = Ret 0 ∧ ∀ c, c ∈ l → bl c = true → bs c < want) ∨
  ∃ l1 b l2, l = l1 ++ b :: l2 ∧ bl b = true ∧ want ≤ bs b ∧ find_best_fit want st = Ret (ba b) ∧
    ∀ c, c ∈ l → bl c = true → want ≤ bs c → bs b ≤ bs c.
Proof.
  intros Hg. set (sz_of x := default 0 (mem st !! x)).
  assert (∀ c, c ∈ l → sz_of (ba c) = bs c) as Hsz.
  { intros c Hc. unfold sz_of. destruct (g_hdr Hg c Hc) as [-> _]. done. }
  assert (∀ c, c ∈ l → bl c = true → ba c ∈ flist l) as Hfl.
  { intros c Hc Hl. unfold flist. apply list_elem_of_fmap. exists c. split; [done|]. by apply list_elem_of_filter. }
  destruct (best_fit_loop_spec st sz_of want (flist l) 0 0 0 (walk_fuel st)) as (r & Hr & Hres).
  - apply Hg.
  - intros x (c & Hc & <- & _)%flist_in. destruct (tiled_in _ _ _ c (g_tiled Hg)) as (? & _); [apply Hg|done|].
    pose proof (proj1 (g_start Hg)). split; [lia|]. unfold sz_of. destruct (g_hdr Hg c Hc) as [-> _]. done.
  - by apply flist_fuel.
  - lia.
  - unfold find_best_fit. rewrite (g_head Hg), Hr.
    destruct Hres as [[-> Hall]|(Hin & Hw & _ & Hall)]; [left|right].
    + split; [done|]. intros c Hc Hl. destruct (Z.lt_ge_cases (bs c) want); [done|].
      destruct (Hall (ba c)); [by apply Hfl|rewrite Hsz by done; lia|done].
    + apply flist_in in Hin as (b & Hb & <- & Hbl). pose proof Hb as (l1 & l2 & ->)%list_elem_of_split.
      rewrite Hsz in Hw by done. exists l1, b, l2. split_and!; [done..|]. intros c Hc Hl Hwc.
      rewrite <- (Hsz b), <- (Hsz c) by done. apply Hall; [by apply Hfl|by rewrite Hsz].
Qed.

(** ** Replacing a few neighbouring blocks by others that fill the same range *)
Lemma seg_frame (m m' : gmap Z Z) p F q : seg m p F q →
  (∀ x, x ∈ F → m' !! (x + 16) = m !! (x + 16) ∧ m' !! (x + 24) = m !! (x + 24)) → seg m' p F q.
Proof.
  revert p. induction F as [|x F IH]; intros p; cbn [seg]; [done|]. intros (? & ? & ?) Hf.
  destruct (Hf x) as [-> ->]; [left|]. split_and!; [done..|]. apply IH; [done|]. intros y Hy. apply Hf. by right.
Qed.

Lemma ginv_replace st m' l1 mid mid' l2 : ginv st (l1 ++ mid ++ l2) → flist mid' = flist mid →
  (∀ x y, tiled x mid y → (16 | x) → tiled x mid' y) → (∀ c, c ∈ mid' → hdr m' c) →
  (∀ c w, c ∈ l1 ∨ c ∈ l2 → ba c ≤ w < ba c + 40 → m' !! w = mem st !! w) →
  (∀ x, x ∈ flist mid → m' !! (x + 16) = mem st !! (x + 16) ∧ m' !! (x + 24) = mem st !! (x + 24)) →
  (∀ w, is_Some (mem st !! w) → is_Some (m' !! w)) →
  ginv (with_mem m' st) (l1 ++ mid' ++ l2).
Proof.
  intros Hg Hfl Ht Hh Hsame Hlk Hdom. split; cbn [heap_start heap_end free_list mem with_mem].
  - pose proof (g_tiled Hg) as (x & H1 & (y & H2 & H3)%tiled_app)%tiled_app.
    apply tiled_app. exists x. split; [done|]. apply tiled_app. exists y. split; [|done]. apply Ht; [done|].
    destruct l1 as [|c l1]; [cbn in H1; subst; apply Hg|].
    clear -H1 Hg. pose proof (proj2 (g_start Hg)) as H16. revert H1 H16. generalize (heap_start st).
    generalize (c :: l1). clear. intros l. induction l as [|b l IH]; intros a; cbn; [by intros ->|].
    intros (_ & _ & ? & Hx) Ha. eapply IH; [done|]. by apply Z.divide_add_r.
  - apply Hg.
  - apply Hg.
  - intros w Hw H8. apply Hdom. by apply (g_map Hg).
  - intros c Hc. rewrite !elem_of_app in Hc. destruct Hc as [Hc|[Hc|Hc]]; [|by apply Hh|];
      (apply (hdr_frame (mem st)); [intros w Hw; apply (Hsame c); auto|apply (g_hdr Hg); set_solver]).
  - rewrite (g_head Hg), !flist_app, Hfl. done.
  - rewrite !flist_app, Hfl, <- !flist_app. eapply seg_frame; [apply (g_seg Hg)|].
    intros x. rewrite !flist_app, !elem_of_app. intros [Hx|[Hx|Hx]]; [|by apply Hlk|];
      apply flist_in in Hx as (c & Hc & <- & _); split; apply (Hsame c); (auto || lia).
Qed.

(** Headers outside the block at hand. *)
Lemma outside st l1 b l2 c w : ginv st (l1 ++ b :: l2) → c ∈ l1 ∨ c ∈ l2 → ba c ≤ w < ba c + 40 →
  w + 8 ≤ ba b ∨ ba b + bs b ≤ w.
Proof.
  intros Hg Hc Hw. pose proof (around _ _ _ _ Hg) as (_ & _ & _ & ? & _ & _ & HL & HR & _). unfold sizeof_block in *.
  destruct Hc as [Hc|Hc]; [apply HL in Hc|apply HR in Hc]; lia.
Qed.

Lemma mod_set w v k : 0 < k → 0 ≤ v < k → (w - w mod k + v) mod k = v.
Proof.
  intros Hk Hv. pose proof (Z.div_mod w k ltac:(lia)).
  replace (w - w mod k + v) with (v + (w / k) * k) by lia.
  rewrite Z.mod_add, Z.mod_small by lia. done.
Qed.

(** Marking a block that is not on the list. *)
Lemma set_used_spec st l1 b l2 u : ginv st (l1 ++ b :: l2) → bl b = false →
  ∃ m', set_used (ba b) u st = Ret (with_mem m' st) ∧
    ginv (with_mem m' st) (l1 ++ Blk (ba b) (bs b) u false :: l2) ∧ headers_only (l1 ++ b :: l2) (mem st) m'.
Proof.
  intros Hg Hbl. pose proof (g_hdr Hg b ltac:(set_solver)) as (Hs & (w & Hw & Hu) & Hm & Hz & _).
  unfold set_used. rewrite (ld_ok _ _ _ Hw), outcome_bind_ret, wr_ok by eauto. eexists. split; [done|].
  pose proof (around _ _ _ _ Hg) as (_ & _ & _ & ? & _). unfold sizeof_block in *. split.
  - apply (ginv_replace st _ l1 [b] [Blk (ba b) (bs b) u false] l2); [done|by rewrite !flist_cons, Hbl| | | | |].
    + done.
    + intros c ->%list_elem_of_singleton. unfold hdr; cbn [ba bs bu bl].
      rewrite lookup_insert_eq, !(lookup_insert_ne _ _ (ba b)), !(lookup_insert_ne _ _ (ba b + 16)),
        !(lookup_insert_ne _ _ (ba b + 24)), !(lookup_insert_ne _ _ (ba b + 32)) by lia.
      split_and!; [done| |done|auto|done].
      eexists. split; [done|]. apply mod_set; [lia|]. destruct u; cbn; lia.
    + intros c x Hc Hx. apply lookup_insert_ne. pose proof (outside _ _ _ _ _ _ Hg Hc Hx). lia.
    + intros x. rewrite flist_cons, Hbl. by intros ?%not_elem_of_nil.
    + intros x Hx. rewrite lookup_insert_is_Some'. auto.
  - intros x Hx. specialize (Hx b ltac:(set_solver)). apply lookup_insert_ne. lia.
Qed.

Lemma init_free_block_spec st b sz :
  (∀ w, b ≤ w < b + 40 → (w - b) mod 8 = 0 → is_Some (mem st !! w)) →
  ∃ m', init_free_block b sz st = Ret (with_mem m' st) ∧ hdr m' (Blk b sz false false) ∧
    (∀ w, w < b ∨ b + 40 ≤ w → m' !! w = mem st !! w) ∧ (∀ w, is_Some (mem st !! w) → is_Some (m' !! w)).
Proof.
  intros Hm. assert (∀ k, k = 0 ∨ k = 8 ∨ k = 16 ∨ k = 24 ∨ k = 32 → is_Some (mem st !! (b + k))) as Hk.
  { intros k Hk. apply Hm; [lia|]. rewrite Z.add_simpl_l. destruct Hk as [->|[->|[->|[->| ->]]]]; done. }
  pose proof (Hk 0) as H0. rewrite Z.add_0_r in H0.
  unfold init_free_block, set_size, set_used, set_magic, set_prev, set_next.
  rewrite wr_ok, outcome_bind_ret by auto. destruct (Hk 8) as [w8 H8]; [auto|].
  rewrite (ld_ok _ w8), outcome_bind_ret by (cbn; by rewrite lookup_insert_ne by lia).
  rewrite wr_ok, outcome_bind_ret by (cbn; rewrite lookup_insert_is_Some'; eauto). cbn [mem with_mem].
  destruct (Hk 32) as [w32 H32]; [auto|].
  rewrite (ld_ok _ w32), outcome_bind_ret by (cbn; by rewrite !lookup_insert_ne by lia).
  rewrite wr_ok, outcome_bind_ret by (cbn; rewrite !lookup_insert_is_Some'; eauto). cbn [mem with_mem].
  rewrite wr_ok, outcome_bind_ret by (cbn; rewrite !lookup_insert_is_Some'; auto 10). cbn [mem with_mem].
  rewrite wr_ok by (cbn; rewrite !lookup_insert_is_Some'; auto 10). cbn [mem with_mem].
  eexists. split; [reflexivity|]. split_and!.
  - unfold hdr; cbn [ba bs bu bl]. split_and!; [| | |intros _; split|done].
    + rewrite !lookup_insert_ne, lookup_insert_eq by lia. done.
    + eexists. rewrite !(lookup_insert_ne _ _ (b + 8)), lookup_insert_eq by lia. split; [done|]. apply mod_set; cbn; lia.
    + eexists. rewrite !(lookup_insert_ne _ _ (b + 32)), lookup_insert_eq by lia. split; [done|].
      apply mod_set; unfold HEAP_BLOCK_MAGIC; lia.
    + rewrite !(lookup_insert_ne _ _ (b + 16)), lookup_insert_eq by lia. done.
    + by rewrite lookup_insert_eq.
  - intros w Hw. by rewrite !lookup_insert_ne by lia.
  - intros w Hw. rewrite !lookup_insert_is_Some'. auto 10.
Qed.

Lemma with_mem_mem (m m' : gmap Z Z) st : with_mem m (with_mem m' st) = with_mem m st.
Proof. done. Qed.

(** ** Splitting *)
Lemma split_spec st l1 b l2 need : ginv st (l1 ++ b :: l2) → bl b = false → bu b = false →
  sizeof_block ≤ need ≤ bs b → (16 | need) → bs b - need ≠ 32 →
  ∃ st' l', split_block (ba b) need st = Ret st' ∧ ginv st' (l1 ++ l' ++ l2) ∧ same_region st st' ∧
    (∀ w, (∀ c, c ∈ l1 ++ l2 → w < ba c ∨ ba c + 40 ≤ w) → w < ba b ∨ ba b + bs b ≤ w → mem st' !! w = mem st !! w) ∧
    (bs b - need < 32 ∧ l' = [b] ∧ st' = st ∨
     sizeof_block ≤ bs b - need ∧ l' = [Blk (ba b) need false false; Blk (ba b + need) (bs b - need) false true] ∧
     stats st' = bump_bytes 0 0 (bs b - need) (bump_blocks 1 0 1 (stats st))).
Proof.
  intros Hg Hbl Hu Hneed H16 H32. pose proof (around _ _ _ _ Hg) as (Hpos & Hst & Hle & Hsz & [k Hk] & [k2 Hk2] & HL & HR & _).
  pose proof (g_end Hg) as Hend. destruct H16 as [k3 Hk3].
  pose proof (g_hdr Hg b ltac:(set_solver)) as Hh. unfold split_block. rewrite get_size_ok, outcome_bind_ret by done.
  unfold sizeof_block, HEAP_MIN_BLOCK in *. rewrite !u64_small by lia.
  destruct (Z.leb_spec 32 (bs b - need)).
  2:{ exists st, [b]. split_and!; [done..|]. left. split_and!; (done || lia). }
  assert (48 ≤ bs b - need) by lia. set (nb := ba b + need). set (rem := bs b - need) in *.
  destruct (init_free_block_spec st nb rem) as (m1 & -> & Hh1 & Hf1 & Hd1).
  { intros w Hw Hm8. apply (g_map Hg); [unfold nb in *; lia|]. unfold nb in *.
    replace w with (w - (ba b + need) + (k * 2 + k3 * 2) * 8) by lia. by rewrite Z.mod_add. }
  rewrite outcome_bind_ret. unfold set_size. rewrite wr_ok by (cbn; apply Hd1; destruct Hh as [-> _]; eauto).
  rewrite outcome_bind_ret, with_mem_mem. cbn [mem with_mem]. set (m2 := <[ba b := need]> m1).
  set (b1 := Blk (ba b) need false false). set (c1 := Blk nb rem false false).
  assert (∀ w, w ≠ ba b → w < nb ∨ nb + 40 ≤ w → m2 !! w = mem st !! w) as Hm2.
  { intros w Hw1 Hw2. unfold m2. rewrite lookup_insert_ne by done. by apply Hf1. }
  assert (ginv (with_mem m2 st) ((l1 ++ [b1]) ++ c1 :: l2)) as Hg2.
  { rewrite <- app_assoc. apply (ginv_replace st m2 l1 [b] [b1; c1] l2).
    - done.
    - by rewrite !flist_cons, Hbl.
    - intros x y (<- & _ & _ & <-) _. cbn [tiled ba bs b1 c1]. unfold nb, rem, sizeof_block.
      split_and!; [done|lia|by exists k3|done|lia|exists (k2 - k3); lia|lia].
    - intros c [->|[->|Hc]%elem_of_cons]%elem_of_cons; [| |by apply not_elem_of_nil in Hc].
      + destruct Hh as (_ & Hus & Hmg & Hz & _). unfold hdr, b1; cbn [ba bs bu bl].
        rewrite Hu in Hus. rewrite (Hm2 (ba b + 8)), (Hm2 (ba b + 16)), (Hm2 (ba b + 24)), (Hm2 (ba b + 32)) by (unfold nb; lia).
        split_and!; [apply lookup_insert_eq|done..|auto|done].
      + eapply hdr_frame; [|exact Hh1]. intros w Hw. cbn in Hw. apply lookup_insert_ne. unfold nb in *. lia.
    - intros c w Hc Hw. pose proof (outside _ _ _ _ _ _ Hg Hc Hw). apply Hm2; unfold nb in *; lia.
    - intros x. rewrite flist_cons, Hbl. by intros ?%not_elem_of_nil.
    - intros w Hw. unfold m2. rewrite lookup_insert_is_Some'. auto. }
  change nb with (ba c1). destruct (insert_spec _ _ _ _ Hg2 eq_refl eq_refl) as (st3 & -> & Hg3 & Hr3 & Hs3 & Ho3).
  rewrite outcome_bind_ret. eexists _, [b1; on c1]. split; [done|]. rewrite <- app_assoc in Hg3. split_and!.
  - destruct Hg3. by split.
  - done.
  - intros w Hw1 Hw2. cbn [mem upd_stats with_stats]. rewrite Ho3.
    + apply Hm2; unfold nb in *; lia.
    + intros c. rewrite !elem_of_app, !elem_of_cons, elem_of_nil.
      intros [[Hc|[->|[]]]|[->|Hc]]; cbn [ba b1 c1]; [apply Hw1; set_solver|lia|unfold nb; lia|apply Hw1; set_solver].
  - right. split_and!; [lia|done|]. unfold upd_stats. cbn [stats with_stats]. by rewrite Hs3.
Qed.

(** ** Merging *)
Lemma validate_ok st l c : ginv st l → c ∈ l → validate_block st (ba c) = Ret true.
Proof.
  intros Hg Hc. pose proof (g_hdr Hg c Hc) as Hh. pose proof (g_end Hg). pose proof (g_start Hg) as [? ?].
  destruct (tiled_in _ _ _ c (g_tiled Hg)) as (? & ? & ? & [k Hk]); [done|done|]. unfold sizeof_block in *.
  unfold validate_block. destruct (Z.eqb_spec (ba c) 0); [lia|].
  rewrite (get_magic_ok _ _ Hh), outcome_bind_ret, Z.eqb_refl. cbn [negb].
  destruct (Z.ltb_spec (ba c) (heap_start st)); [lia|]. destruct (Z.leb_spec (heap_end st) (ba c)); [lia|]. cbn [orb].
  change (HEAP_ALIGN - 1) with (2 ^ 4 - 1). rewrite mask_land, Hk by lia.
  change (2 ^ 4) with 16. rewrite Z.mod_mul by lia. cbn [negb Z.eqb]. rewrite <- Hk.
  rewrite (get_size_ok _ _ Hh), outcome_bind_ret, u64_small by lia. unfold sizeof_block.
  destruct (Z.ltb_spec (bs c) 48); [lia|]. destruct (Z.ltb_spec (heap_end st) (ba c + bs c)); [lia|]. done.
Qed.

Definition merge (b c : blk) : blk := Blk (ba b) (bs b + bs c) (bu b) (bl b).

(** Setting the size of a block to swallow its unlisted neighbour. *)
Lemma swallow_spec st l1 b c l2 : ginv st (l1 ++ b :: c :: l2) → bl c = false →
  ginv (with_mem (<[ba b := bs b + bs c]> (mem st)) st) (l1 ++ merge b c :: l2) ∧
  headers_only (l1 ++ b :: c :: l2) (mem st) (<[ba b := bs b + bs c]> (mem st)).
Proof.
  intros Hg Hcl. pose proof (around _ _ _ _ Hg) as (_ & _ & _ & ? & _ & [k2 Hk2] & _). unfold sizeof_block in *.
  pose proof (g_hdr Hg b ltac:(set_solver)) as (Hs & Hus & Hmg & Hz & Hlu).
  assert (∀ w, w ≠ ba b → <[ba b := bs b + bs c]> (mem st) !! w = mem st !! w) as Hm by (intros; by apply lookup_insert_ne).
  split.
  - apply (ginv_replace st _ l1 [b; c] [merge b c] l2); [done|by rewrite !flist_cons, Hcl| | | | |].
    + intros x y (Hx & _ & Hb & Hcx & Hc & Hc16 & Hy) _. cbn [tiled merge ba bs] in *. unfold sizeof_block in *.
      split_and!; [done|lia|by apply Z.divide_add_r|lia].
    + intros d ->%list_elem_of_singleton. unfold hdr, merge; cbn [ba bs bu bl].
      rewrite lookup_insert_eq, !Hm by lia. done.
    + intros d w Hd Hw. apply Hm. assert (d ∈ l1 ∨ d ∈ c :: l2) as Hd' by (destruct Hd; [by left|right; by right]).
      pose proof (outside _ _ _ _ _ _ Hg Hd' Hw). lia.
    + intros x Hx. rewrite flist_cons in Hx. destruct (bl b); cbn [app] in Hx;
        rewrite flist_cons, Hcl in Hx; cbn in Hx; [|by apply not_elem_of_nil in Hx].
      apply list_elem_of_singleton in Hx as ->. rewrite !Hm by lia. done.
    + intros w Hw. rewrite lookup_insert_is_Some'. auto.
  - intros w Hw. apply Hm. specialize (Hw b ltac:(set_solver)). lia.
Qed.

Lemma headers_only_same l l' (m m' : gmap Z Z) : (∀ c, c ∈ l → ∃ d, d ∈ l' ∧ ba d = ba c) →
  headers_only l m m' → headers_only l' m m'.
Proof. intros Hl Hh w Hw. apply Hh. intros c (d & Hd & <-)%Hl. by apply Hw. Qed.

Lemma ginv_stats st l f : ginv st l → ginv (upd_stats f st) l.
Proof. intros Hg. destruct Hg. by split. Qed.

Lemma coalesce_next_spec st l1 b r : heap_brk st = e → ginv st (l1 ++ b :: r) → bu b = false →
  (∀ c, c ∈ r → bl c = negb (bu c)) →
  ∃ st' b' r', coalesce_next (ba b) st = Ret st' ∧ ginv st' (l1 ++ b' :: r') ∧ same_region st st' ∧
    headers_only (l1 ++ b :: r) (mem st) (mem st') ∧
    ((∀ c, head r = Some c → bu c = true) ∧ b' = b ∧ r' = r ∧ st' = st ∨
     ∃ c, r = c :: r' ∧ bu c = false ∧ b' = merge b c ∧ stats st' = bump_blocks (-1) 0 (-1) (stats st)).
Proof.
  intros He Hg Hu Hr. pose proof (around _ _ _ _ Hg) as (? & ? & ? & ? & _ & _ & _ & HR & _).
  pose proof (g_end Hg). pose proof (g_hdr Hg b ltac:(set_solver)) as Hh. unfold sizeof_block in *.
  unfold coalesce_next, is_last_block, next_block. rewrite !(get_size_ok _ _ Hh), !outcome_bind_ret, u64_small, He by lia.
  pose proof (g_tiled Hg) as (x & _ & Hx & _ & _ & Ht)%tiled_app. destruct r as [|c r].
  { cbn in Ht. destruct (Z.leb_spec e (ba b + bs b)); [|lia]. cbn. exists st, b, []. split_and!; [done..|]. left. done. }
  destruct Ht as (Hc & Hcs & _ & Ht). unfold sizeof_block in *.
  destruct (tiled_in _ _ _ c (g_tiled Hg)) as (_ & ? & _); [apply Hg|set_solver|].
  destruct (Z.leb_spec e (ba b + bs b)); [lia|]. destruct (Z.leb_spec (heap_end st) (ba b + bs b)); [lia|].
  cbn [orb]. subst x. rewrite <- Hc.
  rewrite (get_used_ok st c) by (apply (g_hdr Hg); set_solver). rewrite outcome_bind_ret.
  destruct (bu c) eqn:Hcu.
  { cbn. exists st, b, (c :: r). split_and!; [done..|]. left. split_and!; [|done..]. by intros ? [= <-]. }
  rewrite (validate_ok st _ c Hg) by set_solver. rewrite outcome_bind_ret.
  replace (l1 ++ b :: c :: r) with ((l1 ++ [b]) ++ c :: r) in Hg by (by rewrite <- app_assoc).
  destruct (remove_spec st (l1 ++ [b]) c r Hg) as (st1 & -> & Hg1 & Hr1 & Hs1 & Ho1);
    [by rewrite (Hr c ltac:(left)), Hcu|].
  rewrite outcome_bind_ret. rewrite <- app_assoc in Hg1, Ho1. cbn [app] in Hg1, Ho1.
  rewrite (get_size_ok st1 b) by (apply (g_hdr Hg1); set_solver). rewrite outcome_bind_ret.
  change (ba c) with (ba (off c)).
  rewrite (get_size_ok st1 (off c)) by (apply (g_hdr Hg1); set_solver). rewrite outcome_bind_ret.
  destruct (swallow_spec _ _ _ _ _ Hg1 eq_refl) as [Hg2 Ho2]. cbn [bs off] in *.
  unfold set_size. rewrite u64_small, wr_ok by (try (destruct (g_hdr Hg1 b ltac:(set_solver)) as [-> _]; eauto); lia).
  rewrite outcome_bind_ret. eexists _, (merge b c), r. split; [done|]. split_and!.
  - apply ginv_stats. exact Hg2.
  - done.
  - cbn [mem upd_stats with_stats with_mem]. eapply headers_only_trans; [exact Ho1|].
    eapply headers_only_same; [|exact Ho2]. intros d. rewrite !elem_of_app, !elem_of_cons.
    intros [?|[->|[->|?]]]; [exists d|exists b|exists c|exists d]; rewrite ?elem_of_app, ?elem_of_cons; (split; [tauto|done]).
  - right. exists c. split_and!; [done..|]. unfold upd_stats. cbn [stats with_stats with_mem]. by rewrite Hs1.
Qed.

(** The source enlarges the previous block first and takes this one off the
    list afterwards; the two commute. *)
Lemma set_size_remove st l0 c b r v : ginv st ((l0 ++ [c]) ++ b :: r) → bl b = true →
  ∃ st', remove_from_free_list (ba b) st = Ret st' ∧
    remove_from_free_list (ba b) (with_mem (<[ba c := v]> (mem st)) st) =
      Ret (with_mem (<[ba c := v]> (mem st')) st').
Proof.
  intros Hg Hbl. destruct (listed_links _ _ _ _ Hg Hbl) as (Hbp & Hbn & Hu).
  pose proof (before_mapped _ _ _ _ Hg) as Hp. pose proof (after_mapped _ _ _ _ Hg) as Hn.
  pose proof (before_in (l0 ++ [c])) as Hpin. pose proof (g_hdr Hg b ltac:(set_solver)) as Hh.
  pose proof (around _ _ _ _ Hg) as (_ & _ & _ & _ & _ & _ & HL & _). destruct (HL c) as [_ Hcb]; [set_solver|].
  assert (before (l0 ++ [c]) ≠ 0 → before (l0 ++ [c]) + 24 ≠ ba c) as Hpc.
  { intros Hne. destruct (Hpin Hne) as (d & Hd & <- & _).
    destruct (ginv_apart _ _ d c Hg) as [->|]; [set_solver|set_solver|lia|]. unfold sizeof_block in *. lia. }
  set (p := before (l0 ++ [c])) in *. set (n := after r) in *.
  assert (∀ w, w ≠ ba c → <[ba c := v]> (mem st) !! w = mem st !! w) as Hsame by (intros; by apply lookup_insert_ne).
  rewrite (remove_eval st (ba b) p n); [|by rewrite get_used_ok, Hu|done..|naive_solver|naive_solver].
  eexists. split; [done|]. rewrite (remove_eval _ (ba b) p n).
  - cbn [mem with_mem free_list with_free_list]. f_equal.
    match goal with |- with_mem ?m1 ?s1 = with_mem ?m2 ?s2 => assert (m1 = m2) as ->; [|done] end.
    change (<[ba c := v]> ?m) with (put_if true (ba c) v m).
    apply map_eq. intros w. rewrite !lookup_put_if. cbn [andb]. addr; destruct Hp, Hn; try done; try lia.
  - unfold get_used, ld. cbn [mem with_mem]. rewrite Hsame by lia. pose proof (get_used_ok st b Hh) as Hgu.
    unfold get_used, ld in Hgu. by rewrite Hgu, Hu.
  - cbn [mem with_mem]. by rewrite Hsame by lia.
  - cbn [mem with_mem]. by rewrite Hsame by lia.
  - intros Hne. cbn [mem with_mem]. rewrite Hsame by (by apply Hpc). by apply Hp.
  - intros Hne. cbn [mem with_mem]. destruct (Hn Hne). rewrite Hsame by lia. done.
Qed.

Lemma coalesce_prev_spec st l1 b r : ginv st (l1 ++ b :: r) → bl b = true → (∀ c, c ∈ l1 → bl c = negb (bu c)) →
  ∃ st' l', coalesce_prev (ba b) st = Ret st' ∧ ginv st' (l' ++ r) ∧ same_region st st' ∧
    headers_only (l1 ++ b :: r) (mem st) (mem st') ∧
    ((∀ c, last l1 = Some c → bu c = true) ∧ l' = l1 ++ [b] ∧ st' = st ∨
     ∃ l0 c, l1 = l0 ++ [c] ∧ bu c = false ∧ l' = l0 ++ [merge c b] ∧ stats st' = bump_blocks (-1) 0 (-1) (stats st)).
Proof.
  intros Hg Hbl Hr. unfold coalesce_prev. rewrite (find_place_ginv _ _ _ _ Hg), outcome_bind_ret. cbn [fst].
  pose proof (around _ _ _ _ Hg) as (? & ? & ? & ? & _ & _ & HL & _). pose proof (g_end Hg).
  assert (l1 ++ b :: r = (l1 ++ [b]) ++ r) as Happ by (by rewrite <- app_assoc).
  destruct l1 as [|c l0 _] using rev_ind.
  { cbn. exists st, [b]. split_and!; [done..|]. left. done. }
  rewrite last_snoc. destruct (HL c ltac:(set_solver)). pose proof (Hr c ltac:(set_solver)) as Hcl.
  pose proof (g_tiled Hg) as Ht. rewrite <- app_assoc in Ht. apply tiled_app in Ht as (x & Ht0 & Hx & Hcs & _ & Hbx & _).
  subst x. unfold sizeof_block in *. destruct (bu c) eqn:Hcu; cbn [negb] in Hcl.
  - exists st, ((l0 ++ [c]) ++ [b]). rewrite <- Happ. split; [|by split_and!; try done; left; split_and!; [intros ? [= <-]|..]].
    rewrite flist_snoc, Hcl, app_nil_r. destruct (Z.eqb_spec (before l0) 0) as [|Hne]; [done|].
    destruct (before_in _ Hne) as (d & Hd & Hdb & _). rewrite <- Hdb.
    rewrite (get_size_ok st d) by (apply (g_hdr Hg); set_solver). rewrite outcome_bind_ret.
    pose proof Hg as Hg2. rewrite <- app_assoc in Hg2. cbn [app] in Hg2.
    destruct (tiled_mid _ _ _ _ _ (g_tiled Hg2)) as (? & ? & _ & _ & _ & HL0 & _); [apply Hg|].
    destruct (HL0 d Hd) as [? ?]. destruct (tiled_in _ _ _ d (g_tiled Hg)) as (? & _); [apply Hg|set_solver|].
    pose proof (proj1 (g_start Hg)). unfold sizeof_block in *.
    rewrite u64_small by lia. destruct (Z.eqb_spec (ba d + bs d) (ba b)); [lia|done].
  - rewrite flist_snoc, Hcl, last_snoc. cbn [default from_option id].
    destruct (Z.eqb_spec (ba c) 0); [lia|].
    rewrite (get_size_ok st c) by (apply (g_hdr Hg); set_solver). rewrite outcome_bind_ret, u64_small by lia.
    rewrite Hbx, Z.eqb_refl, <- Hbx.
    rewrite (get_size_ok st b) by (apply (g_hdr Hg); set_solver). rewrite outcome_bind_ret, u64_small by lia.
    unfold set_size. rewrite wr_ok by (destruct (g_hdr Hg c ltac:(set_solver)) as [-> _]; eauto). rewrite outcome_bind_ret.
    destruct (set_size_remove st l0 c b r (bs c + bs b) Hg Hbl) as (st1 & Hrm & ->). rewrite outcome_bind_ret.
    destruct (remove_spec st (l0 ++ [c]) b r Hg Hbl) as (st1' & Hrm' & Hg1 & Hr1 & Hs1 & Ho1).
    rewrite Hrm in Hrm'. injection Hrm' as <-. rewrite <- app_assoc in Hg1. cbn [app] in Hg1.
    destruct (swallow_spec _ _ _ _ _ Hg1 eq_refl) as [Hg2 Ho2]. cbn [bs off] in *.
    eexists _, (l0 ++ [merge c b]). split; [done|]. split_and!.
    + rewrite <- app_assoc. apply ginv_stats. exact Hg2.
    + done.
    + cbn [mem upd_stats with_stats with_mem]. eapply headers_only_trans; [exact Ho1|].
      eapply headers_only_same; [|exact Ho2]. intros d. rewrite <- app_assoc, !elem_of_app, !elem_of_cons. cbn [app].
      intros [?|[->|[->|?]]]; [exists d|exists c|exists b|exists d]; rewrite ?elem_of_app, ?elem_of_cons; (split; [tauto|done]).
    + right. exists l0, c. split_and!; [done..|]. unfold upd_stats. cbn [stats with_stats with_mem]. by rewrite Hs1.
Qed.

End proofs.

(** ** The invariant between operations *)
Fixpoint no_adj (l : list blk) : Prop :=
  match l with
  | b :: l' => (∀ c, head l' = Some c → bu b = true ∨ bu c = true) ∧ no_adj l'
  | [] => True
  end.
Definition used (l : list blk) : list blk := filter (λ b, bu b = true) l.

(** The counters of the statistics agree with the blocks. *)
Definition counted (s : heap_stats) (l : list blk) : Prop :=
  total_blocks s = u64 (Z.of_nat (length l)) ∧ used_blocks s = u64 (Z.of_nat (length (used l))) ∧
  free_blocks s = u64 (Z.of_nat (length l) - Z.of_nat (length (used l))) ∧
  used_bytes s = u64 (foldr Z.add 0 (bs <$> used l)).

Record inv {V} (st : heap_state V) (l : list blk) : Prop := {
  i_ginv : ginv_at (heap_brk st) st l;
  i_flags : ∀ c, c ∈ l → bl c = negb (bu c);
  i_adj : no_adj l;
  i_brk : (4096 | heap_brk st) ∧ 0 < heap_brk st;
  i_counted : counted (stats st) l;
  i_init : initialized st = true }.
Arguments i_ginv {V st l}. Arguments i_flags {V st l}. Arguments i_adj {V st l}. Arguments i_brk {V st l}.
Arguments i_counted {V st l}. Arguments i_init {V st l}.

Lemma no_adj_app l1 l2 : no_adj (l1 ++ l2) ↔
  no_adj l1 ∧ no_adj l2 ∧ ∀ b c, last l1 = Some b → head l2 = Some c → bu b = true ∨ bu c = true.
Proof.
  induction l1 as [|x l1 IH]; cbn [app no_adj]; [naive_solver|]. rewrite IH. destruct l1 as [|y l1]; cbn [app head].
  - cbn. naive_solver.
  - rewrite last_cons_cons. naive_solver.
Qed.

Lemma used_app l1 l2 : used (l1 ++ l2) = used l1 ++ used l2.
Proof. apply filter_app. Qed.
Lemma used_cons b l : used (b :: l) = (if bu b then [b] else []) ++ used l.
Proof. unfold used. rewrite filter_cons. destruct (bu b) eqn:E; by case_decide. Qed.

Lemma u64_add_l x y : u64 (u64 x + y) = u64 (x + y).
Proof. apply Z.add_mod_idemp_l. lia. Qed.

(** One block less, and it was a free one. *)
Lemma counted_merge s l l' : counted s l → length l = S (length l') → used l' = used l →
  counted (bump_blocks (-1) 0 (-1) s) l'.
Proof.
  intros (Ht & Hu & Hf & Hb) Hl Hus. unfold counted. cbn. rewrite Ht, Hu, Hf, !u64_add_l, Hus, Hb.
  split_and!; [f_equal; lia|f_equal; lia|f_equal; lia|done].
Qed.

(** ** The operations of the heap *)
Section top.
Context {V : Type} `{PageProvider V}.
Implicit Types st : heap_state V.

(** The free blocks after a merge: the old ones, and the one that [b] became. *)
Definition free_size (l : list blk) (x : Z) : Prop := x = 0 ∨ ∃ d, d ∈ l ∧ bu d = false ∧ bs d = x.
Definition grown (l1 : list blk) (b : blk) (r l' : list blk) : Prop :=
  (∃ c, c ∈ l' ∧ bu c = false ∧ bs b ≤ bs c) ∧
  ∀ c, c ∈ l' → bu c = false → c ∈ l1 ∨ c ∈ r ∨ ∃ x y, free_size l1 x ∧ free_size r y ∧ bs c = x + bs b + y.

Lemma coalesce_block_spec st l1 b r : let e := heap_brk st in ginv_at e st (l1 ++ b :: r) → bl b = true → bu b = false →
  (∀ c, c ∈ l1 ∨ c ∈ r → bl c = negb (bu c)) → no_adj l1 → no_adj r → counted (stats st) (l1 ++ b :: r) →
  ∃ st' l', coalesce_block (ba b) st = Ret st' ∧ ginv_at e st' l' ∧ same_region st st' ∧
    headers_only (l1 ++ b :: r) (mem st) (mem st') ∧ (∀ c, c ∈ l' → bl c = negb (bu c)) ∧ no_adj l' ∧
    used l' = used (l1 ++ b :: r) ∧ counted (stats st') l' ∧ grown l1 b r l'.
Proof.
  intros e Hg Hbl Hbu Hfl Hn1 Hnr Hcnt. unfold coalesce_block.
  rewrite (get_used_ok st b) by (apply (g_hdr Hg); set_solver). rewrite Hbu, outcome_bind_ret.
  cbn [negb ccos_assert]. rewrite outcome_bind_ret.
  destruct (coalesce_next_spec st l1 b r eq_refl Hg Hbu) as (st1 & b1 & r1 & -> & Hg1 & Hr1 & Ho1 & Hc1); [auto|].
  rewrite outcome_bind_ret.
  assert (ba b1 = ba b ∧ bl b1 = true ∧ bu b1 = false ∧ no_adj r1 ∧ (∀ c, c ∈ r1 → c ∈ r) ∧
    (∀ c, head r1 = Some c → bu c = true) ∧ used (l1 ++ b1 :: r1) = used (l1 ++ b :: r) ∧
    counted (stats st1) (l1 ++ b1 :: r1) ∧ bs b ≤ bs b1 ∧ (∃ y, free_size r y ∧ bs b1 = bs b + y))
    as (Hba & Hb1l & Hb1u & Hnr1 & Hsub & Hh1 & Hus1 & Hcn1 & Hge1 & (y & Hy & Hby)).
  { destruct Hc1 as [(Hh & -> & -> & ->)|(c & -> & Hcu & -> & Hst1)].
    { split_and!; auto; [lia|]. exists 0. split; [by left|lia]. }
    destruct (tiled_in _ _ _ c (g_tiled Hg)) as (_ & _ & Hcs & _); [apply Hg|set_solver|]. unfold sizeof_block in *.
    destruct Hnr as [Hh Hnr]. assert (used (l1 ++ merge b c :: r1) = used (l1 ++ b :: c :: r1)) as Hus.
    { rewrite !used_app, !used_cons. cbn [bu merge]. by rewrite Hbu, Hcu. }
    split_and!; [done|done|done|done|set_solver| |done| | |].
    - intros d Hd. destruct (Hh d Hd); [congruence|done].
    - rewrite Hst1. eapply counted_merge; [done| |done]. rewrite !length_app. cbn. lia.
    - cbn. lia.
    - exists (bs c). split; [right; exists c; set_solver|done]. }
  rewrite <- Hba. destruct (coalesce_prev_spec st1 l1 b1 r1 Hg1 Hb1l) as (st2 & l' & -> & Hg2 & Hr2 & Ho2 & Hc2); [auto|].
  exists st2, (l' ++ r1). split; [done|]. split; [done|]. split; [unfold same_region in *; intuition congruence|].
  split.
  { eapply headers_only_trans; [exact Ho1|]. eapply headers_only_same; [|exact Ho2].
    intros c. rewrite !elem_of_app, !elem_of_cons. intros [?|[->|?%Hsub]]; [exists c|exists b|exists c];
      rewrite ?elem_of_app, ?elem_of_cons; (split; [tauto|done]). }
  assert (∀ l x, (∀ c, c ∈ l → bl c = negb (bu c)) → bl x = true → bu x = false → (∀ c, c ∈ l → c ∈ l1) →
    ∀ c, c ∈ (l ++ [x]) ++ r1 → bl c = negb (bu c)) as Hflags.
  { intros l x Hl Hx1 Hx2 Hsl c. rewrite !elem_of_app, list_elem_of_singleton.
    intros [[?| ->]|?]; [auto|by rewrite Hx1, Hx2|auto]. }
  destruct Hc2 as [(Hlast & -> & ->)|(l0 & c & -> & Hcu & -> & Hst2)].
  - split_and!.
    + apply Hflags; auto.
    + rewrite <- app_assoc. apply no_adj_app. split_and!; [done|split; [|done]; auto|].
      cbn. intros x z Hx [= <-]. left. auto.
    + by rewrite <- app_assoc.
    + by rewrite <- app_assoc.
    + split; [exists b1; set_solver|]. intros d. rewrite !elem_of_app, list_elem_of_singleton.
      intros [[?| ->]|?] Hd; [by left| |right; left; auto]. right; right. exists 0, y. split_and!; [by left|done|lia].
  - pose proof (Hfl c ltac:(set_solver)) as Hcl. rewrite Hcu in Hcl.
    assert (used ((l0 ++ [merge c b1]) ++ r1) = used ((l0 ++ [c]) ++ b1 :: r1)) as Hus.
    { rewrite <- !app_assoc, !used_app, !used_cons. cbn [bu merge]. rewrite Hcu, Hb1u. done. }
    split_and!.
    + apply Hflags; [|done..|]; set_solver.
    + apply no_adj_app in Hn1 as (Hn0 & _ & Hn01). rewrite <- app_assoc. apply no_adj_app. split_and!; [done|split; [|done]; auto|].
      cbn. intros x z Hx [= <-]. destruct (Hn01 x c Hx eq_refl); [by left|congruence].
    + by rewrite Hus, Hus1.
    + rewrite Hst2. eapply counted_merge; [done| |done]. rewrite !length_app. cbn. lia.
    + destruct (tiled_in _ _ _ c (g_tiled Hg)) as (_ & _ & Hcs & _); [apply Hg|set_solver|]. unfold sizeof_block in *.
      split; [exists (merge c b1); split_and!; [set_solver|done|cbn; lia]|].
      intros d. rewrite !elem_of_app, list_elem_of_singleton.
      intros [[?| ->]|?] Hd; [left; auto| |right; left; auto]. right; right. exists (bs c), y.
      split_and!; [right; exists c; set_solver|done|cbn; lia].
Qed.

(** Only headers change, so what the blocks hold does not. *)
Lemma headers_user e st l m' c w : ginv_at e st l → headers_only l (mem st) m' → c ∈ l →
  ba c + 40 ≤ w < ba c + bs c → m' !! w = mem st !! w.
Proof.
  intros Hg Ho Hc Hw. apply Ho. intros d Hd. apply list_elem_of_split in Hc as (l1 & l2 & ->).
  destruct (tiled_mid _ _ _ _ _ (g_tiled Hg)) as (_ & _ & _ & _ & _ & HL & HR); [apply Hg|]. unfold sizeof_block in *.
  apply elem_of_app in Hd as [Hd|[->|Hd]%elem_of_cons]; [specialize (HL d Hd)| |specialize (HR d Hd)]; lia.
Qed.

(** A pointer whose padding word does not look like a stored pointer. *)
Definition plain st (b : blk) : Prop :=
  ∃ w, mem st !! (ba b + 40) = Some w ∧ (w < heap_start st ∨ heap_brk st ≤ w ∨ Z.land w 0xF ≠ 0).

Lemma ptr_to_block_plain e st l b : ginv_at e st l → b ∈ l → plain st b → ptr_to_block st (block_to_ptr (ba b)) = Ret (ba b).
Proof.
  intros Hg Hb (w & Hw & Hpl). pose proof (g_end Hg). pose proof (g_start Hg) as [? ?].
  destruct (tiled_in _ _ _ b (g_tiled Hg)) as (? & ? & ? & _); [done|done|]. unfold sizeof_block in *.
  unfold ptr_to_block, block_to_ptr, sizeof_block. rewrite !u64_small by (rewrite ?u64_small; lia).
  replace (ba b + 48 - 8) with (ba b + 40) by lia. replace (ba b + 48 - 48) with (ba b) by lia.
  rewrite (ld_ok _ _ _ Hw), outcome_bind_ret.
  destruct (Z.leb_spec (heap_start st) w), (Z.ltb_spec w (heap_brk st)), (Z.eqb_spec (Z.land w 0xF) 0);
    (done || lia).
Qed.

Lemma foldr_add (l : list Z) z : foldr Z.add z l = foldr Z.add 0 l + z.
Proof. induction l as [|x l IH]; cbn; [lia|]. rewrite IH. lia. Qed.

(** The counters after a block changed hands. *)
Lemma counted_free s l1 b b' l2 : counted s (l1 ++ b :: l2) → bu b = true → bu b' = false →
  counted (bump_ops 0 1 0 (bump_blocks 0 (-1) 1 (bump_bytes 0 (- bs b) (bs b) s))) (l1 ++ b' :: l2).
Proof.
  intros (Ht & Hu & Hf & Hb) H1 H2. unfold counted in *. rewrite !used_app, !used_cons, H1 in *. rewrite H2.
  cbn [app] in *. rewrite !length_app in *. cbn [length] in *. rewrite fmap_app in *. cbn [fmap list_fmap] in *.
  rewrite foldr_app in Hb. rewrite foldr_app. cbn [foldr] in Hb. cbn. rewrite Ht, Hu, Hf, Hb, !u64_add_l.
  rewrite (foldr_add _ (bs b + _)), (foldr_add _ (foldr Z.add 0 (bs <$> used l2))).
  split_and!; f_equal; lia.
Qed.
Lemma counted_take s l1 b b' l2 : counted s (l1 ++ b :: l2) → bu b = false → bu b' = true →
  counted (bump_ops 1 0 0 (bump_blocks 0 1 (-1) (bump_bytes 0 (bs b') (- bs b') s))) (l1 ++ b' :: l2).
Proof.
  intros (Ht & Hu & Hf & Hb) H1 H2. unfold counted in *. rewrite !used_app, !used_cons, H1 in *. rewrite H2.
  cbn [app] in *. rewrite !length_app in *. cbn [length] in *. rewrite fmap_app in *. cbn [fmap list_fmap] in *.
  rewrite foldr_app in Hb. rewrite foldr_app. cbn [foldr] in Hb. cbn. rewrite Ht, Hu, Hf, Hb, !u64_add_l.
  rewrite (foldr_add _ (bs b' + _)), (foldr_add _ (foldr Z.add 0 (bs <$> used l2))).
  split_and!; f_equal; lia.
Qed.

Lemma kfree_spec st l1 b l2 : inv st (l1 ++ b :: l2) → bu b = true → plain st b →
  ∃ st' l', kfree (Some (block_to_ptr (ba b))) st = Ret st' ∧ inv st' l' ∧ same_region st st' ∧
    used l' = used l1 ++ used l2 ∧ headers_only (l1 ++ b :: l2) (mem st) (mem st').
Proof.
  intros [Hg Hfl Hadj Hbrk Hcnt Hini] Hbu Hpl.
  pose proof (Hfl b ltac:(set_solver)) as Hbl. rewrite Hbu in Hbl. cbn in Hbl.
  unfold kfree, kfree_mark. rewrite Hini. cbn [negb].
  assert (b ∈ l1 ++ b :: l2) as Hin by set_solver.
  rewrite (ptr_to_block_plain _ _ _ b Hg Hin Hpl), outcome_bind_ret.
  rewrite (validate_ok st _ b Hg ltac:(set_solver)), outcome_bind_ret. cbn [negb].
  rewrite (get_used_ok st b) by (apply (g_hdr Hg); set_solver). rewrite Hbu, outcome_bind_ret. cbn [negb].
  destruct (set_used_spec st l1 b l2 false Hg Hbl) as (m1 & -> & Hg1 & Ho1). rewrite outcome_bind_ret.
  set (b0 := Blk (ba b) (bs b) false false) in *. change (ba b) with (ba b0).
  rewrite (get_size_ok _ b0) by (apply (g_hdr Hg1); set_solver). rewrite !outcome_bind_ret.
  set (f := λ x, bump_ops 0 1 0 _). set (st1 := upd_stats f (with_mem m1 st)).
  assert (ginv_at (heap_brk st) st1 (l1 ++ b0 :: l2)) as Hg1' by (by apply ginv_stats).
  unfold kfree_insert. destruct (insert_spec st1 l1 b0 l2 Hg1' eq_refl eq_refl) as (st2 & -> & Hg2 & Hr2 & Hs2 & Ho2).
  rewrite outcome_bind_ret. change (ba b0) with (ba (on b0)).
  apply no_adj_app in Hadj as (Hn1 & [_ Hn2] & _).
  assert (heap_brk st2 = heap_brk st) as Hbr by apply Hr2.
  destruct (coalesce_block_spec st2 l1 (on b0) l2) as (st3 & l' & -> & Hg3 & Hr3 & Ho3 & Hfl3 & Hadj3 & Hus3 & Hcn3 & _);
    [by rewrite Hbr|done|done|intros c Hc; apply Hfl; set_solver|done|done| |].
  { rewrite Hs2. unfold st1, upd_stats, f. cbn [stats with_stats with_mem]. change (bs b0) with (bs b).
    by apply (counted_free _ l1 b (on b0) l2). }
  assert (heap_brk st3 = heap_brk st) as Hbr3 by (unfold same_region in *; intuition congruence).
  exists st3, l'. split; [done|]. split_and!.
  - split; rewrite ?Hbr3; try done; [by rewrite <- Hbr|]. unfold same_region in *. cbn in *. intuition congruence.
  - unfold same_region in *. cbn in *. intuition congruence.
  - by rewrite Hus3, used_app, used_cons.
  - assert (∀ c, c ∈ l1 ++ b0 :: l2 → ∃ d, d ∈ l1 ++ b :: l2 ∧ ba d = ba c) as Hba.
    { intros c. rewrite elem_of_app, elem_of_cons. intros [?|[->|?]]; [exists c|exists b|exists c]; (split; [set_solver|done]). }
    eapply headers_only_trans; [exact Ho1|]. eapply headers_only_trans; [eapply headers_only_same; [exact Hba|exact Ho2]|].
    eapply headers_only_same; [|exact Ho3].
    intros c. rewrite elem_of_app, elem_of_cons. intros [?|[->|?]]; [exists c|exists b|exists c]; (split; [set_solver|done]).
Qed.

Lemma kfree_double st l b : inv st l → b ∈ l → bu b = false → plain st b →
  kfree (Some (block_to_ptr (ba b))) st = Ret st.
Proof.
  intros Hi Hb Hbu Hpl. pose proof (i_ginv Hi) as Hg. unfold kfree, kfree_mark. rewrite (i_init Hi). cbn [negb].
  rewrite (ptr_to_block_plain _ _ _ _ Hg Hb Hpl), outcome_bind_ret, (validate_ok st _ b Hg Hb), outcome_bind_ret. cbn [negb].
  rewrite (get_used_ok st b) by (by apply (g_hdr Hg)). by rewrite Hbu.
Qed.

(** ** Growing *)
Lemma clear_words_spec n a st : (∀ k, 0 ≤ k < Z.of_nat n → is_Some (mem st !! (a + 8 * k))) →
  ∃ m', clear_words n a st = Ret (with_mem m' st) ∧
    (∀ w, w < a ∨ a + 8 * Z.of_nat n ≤ w → m' !! w = mem st !! w) ∧
    (∀ w, is_Some (mem st !! w) → is_Some (m' !! w)).
Proof.
  revert a st. induction n as [|n IH]; intros a st Hm; cbn [clear_words].
  - exists (mem st). split; [by destruct st|done].
  - rewrite wr_ok, outcome_bind_ret by (specialize (Hm 0 ltac:(lia)); by rewrite Z.mul_0_r, Z.add_0_r in Hm).
    destruct (IH (a + 8) (with_mem (<[a := 0]> (mem st)) st)) as (m' & -> & Hf & Hd).
    { intros k Hk. cbn. rewrite lookup_insert_is_Some'. right.
      replace (a + 8 + 8 * k) with (a + 8 * (k + 1)) by lia. apply Hm. lia. }
    exists m'. split; [done|]. split; intros w Hw.
    + rewrite Hf by lia. cbn. apply lookup_insert_ne. lia.
    + apply Hd. cbn. rewrite lookup_insert_is_Some'. auto.
Qed.

(** A fresh block behind the last one. *)
Lemma ginv_append e st l sz m' (v : V) : ginv_at e st l → sizeof_block ≤ sz → (16 | sz) → e + sz ≤ heap_end st →
  (∀ w, w < e → m' !! w = mem st !! w) → hdr m' (Blk e sz false false) →
  (∀ w, e ≤ w < e + sz → w mod 8 = 0 → is_Some (m' !! w)) →
  ginv_at (e + sz) (mk_heap (heap_start st) (heap_end st) (heap_brk st) (free_list st) (stats st) (initialized st) m' v)
    (l ++ [Blk e sz false false]).
Proof.
  intros Hg Hs H16 He Hm Hh Hmap. pose proof (g_start Hg) as [? ?]. split; cbn [heap_start heap_end free_list mem].
  - apply tiled_app. exists e. split; [apply Hg|]. by split_and!.
  - done.
  - pose proof (g_end Hg). lia.
  - intros w Hw H8. destruct (Z.lt_ge_cases w e); [rewrite Hm by lia; apply (g_map Hg); lia|apply Hmap; lia].
  - intros c. rewrite elem_of_app, list_elem_of_singleton. intros [Hc| ->]; [|done].
    destruct (tiled_in _ _ _ c (g_tiled Hg)) as (? & ? & ? & _); [done|done|]. unfold sizeof_block in *.
    apply (hdr_frame (mem st)); [|by apply (g_hdr Hg)]. intros w Hw. apply Hm. lia.
  - rewrite flist_snoc, app_nil_r. apply Hg.
  - rewrite flist_snoc, app_nil_r. eapply seg_frame; [apply Hg|].
    intros x (c & Hc & <- & _)%flist_in. destruct (tiled_in _ _ _ c (g_tiled Hg)) as (? & ? & ? & _); [done|done|].
    unfold sizeof_block in *. split; apply Hm; lia.
Qed.

(** What a call may leave behind on failure: memory above the blocks. *)
Definition same_below (e : Z) (m m' : gmap Z Z) : Prop := ∀ w, w < e → m' !! w = m !! w.
Lemma ginv_below e st l m' (v : V) : ginv_at e st l → same_below e (mem st) m' →
  ginv_at e (mk_heap (heap_start st) (heap_end st) (heap_brk st) (free_list st) (stats st) (initialized st) m' v) l.
Proof.
  intros Hg Hm. pose proof (g_start Hg) as [? ?].
  assert (∀ c w, c ∈ l → ba c ≤ w < ba c + 40 → m' !! w = mem st !! w) as Hc.
  { intros c w Hc Hw. destruct (tiled_in _ _ _ c (g_tiled Hg)) as (? & ? & ? & _); [done|done|].
    unfold sizeof_block in *. apply Hm. lia. }
  split; cbn [heap_start heap_end free_list mem]; try apply Hg; try done.
  - intros w Hw H8. rewrite Hm by lia. by apply (g_map Hg).
  - intros c Hin. apply (hdr_frame (mem st)); [by intros w Hw; apply (Hc c)|by apply (g_hdr Hg)].
  - eapply seg_frame; [apply Hg|]. intros x (c & Hin & <- & _)%flist_in. split; apply (Hc c); (done || lia).
Qed.

Definition grow_bytes (need : Z) : Z := expand_pages need * PAGE_SIZE.

Lemma counted_append s l sz : counted s l →
  counted (bump_ops 0 0 1 (bump_blocks 1 0 1 (bump_bytes sz 0 sz s))) (l ++ [Blk 0 sz false true]).
Proof.
  intros (Ht & Hu & Hf & Hb). unfold counted. rewrite used_app, used_cons. cbn [bu app]. rewrite app_nil_r, length_app.
  cbn. rewrite Ht, Hu, Hf, Hb, !u64_add_l. split_and!; f_equal; lia.
Qed.
Lemma counted_ext s l l' : counted s l → length l' = length l → used l' = used l → counted s l'.
Proof. unfold counted. by intros ? -> ->. Qed.

Lemma expand_spec st l e need : ginv_at e st l → expand_target st = e → (∀ c, c ∈ l → bl c = negb (bu c)) →
  no_adj l → counted (stats st) l → (4096 | e) → e + grow_bytes need ≤ heap_end st → 4 ≤ expand_pages need →
  ∃ r st', expand_heap_locked need st = Ret (r, st') ∧ heap_start st' = heap_start st ∧ heap_end st' = heap_end st ∧
    initialized st' = initialized st ∧
    (r = HEAP_ERR_OOM ∧ ginv_at e st' l ∧ heap_brk st' = heap_brk st ∧ stats st' = stats st ∧
       same_below e (mem st) (mem st') ∧
       (vmm_alloc_pages_at e (expand_pages need) (vmm st) (mem st)).1.1 ≠ VMM_OK ∨
     r = HEAP_OK ∧ ∃ l', heap_brk st' = e + grow_bytes need ∧ ginv_at (heap_brk st') st' l' ∧
       (∀ c, c ∈ l' → bl c = negb (bu c)) ∧ no_adj l' ∧ used l' = used l ∧ counted (stats st') l' ∧
       grown l (Blk e (grow_bytes need) false true) [] l' ∧
       ∀ c w, c ∈ l → ba c + 40 ≤ w < ba c + bs c → mem st' !! w = mem st !! w).
Proof.
  intros Hg Htg Hfl Hadj Hcnt [ke Hke] Hend Hpg. unfold expand_heap_locked, grow_bytes, PAGE_SIZE in *. rewrite Htg.
  set (pages := expand_pages need) in *. pose proof (g_end Hg). pose proof (g_start Hg) as [Hst0 Hst16].
  assert (heap_start st ≤ e) as Hse.
  { destruct l as [|c l]; [pose proof (g_tiled Hg) as He; cbn in He; lia|].
    destruct (tiled_in _ _ _ c (g_tiled Hg)) as (? & ? & ? & _); [done|left|]. unfold sizeof_block in *. lia. }
  destruct (vmm_alloc_pages_at e pages (vmm st) (mem st)) as [[r v] m] eqn:Hv.
  pose proof (alloc_pages_at_frame _ _ _ _ _ _ _ Hv) as Hfr.
  assert (same_below e (mem st) m) as Hbel by (intros w Hw; apply Hfr; lia).
  destruct (Z.eqb_spec r VMM_OK) as [->|Hr]; cbn [negb].
  2:{ eexists _, _. split; [done|]. split_and!; [done..|]. left.
      split_and!; [done|by apply ginv_below|done|done|done|]. cbn. done. }
  pose proof (alloc_pages_at_mapped _ _ _ _ _ _ Hv) as Hmap. rewrite (u64_small (pages * 4096)) by lia.
  set (sz := pages * 4096) in *. set (st0 := mk_heap _ _ _ _ _ _ m v).
  destruct (init_free_block_spec st0 e sz) as (m1 & -> & Hh1 & Hf1 & Hd1).
  { intros w Hw H8. apply Hmap; [lia|]. rewrite Hke in H8. replace w with (w - ke * 4096 + ke * 512 * 8) by lia.
    by rewrite Z.mod_add. }
  rewrite outcome_bind_ret. unfold sizeof_block at 1 2.
  assert (sz - 48 = 8 * (pages * 512 - 6)) as Hsz by (unfold sz; lia).
  rewrite Hsz, Z.mul_comm, Z.div_mul by lia.
  destruct (clear_words_spec (Z.to_nat (pages * 512 - 6)) (e + 48) (with_mem m1 st0)) as (m2 & -> & Hf2 & Hd2).
  { intros k Hk. cbn. apply Hd1, Hmap; [lia|]. replace (e + 48 + 8 * k) with ((ke * 512 + 6 + k) * 8) by lia.
    apply Z.mod_mul. lia. }
  cbn [mem with_mem] in Hf2, Hd2. rewrite outcome_bind_ret, with_mem_mem.
  set (nb := Blk e sz false false). set (l1 := l ++ [nb]).
  assert (ginv_at (e + sz) (with_mem m2 st0) l1) as Hg2.
  { apply (ginv_append e st l sz m2 v); [done|unfold sizeof_block; lia|exists (pages * 256); lia|done| | |].
    - intros w Hw. rewrite Hf2, Hf1 by lia. by apply Hbel.
    - eapply hdr_frame; [|exact Hh1]. cbn. intros w Hw. apply Hf2. lia.
    - intros w Hw H8. apply Hd2, Hd1, Hmap; [lia|done]. }
  destruct (insert_spec (with_mem m2 st0) l nb [] Hg2 eq_refl eq_refl) as (st3 & Hins & Hg3 & Hr3 & Hs3 & Ho3).
  change (ba nb) with e in Hins. rewrite Hins, outcome_bind_ret. rewrite u64_small by lia.
  set (st4 := upd_stats _ (with_brk (e + sz) st3)).
  assert (ginv_at (heap_brk st4) st4 (l ++ [on nb])) as Hg4 by (destruct Hg3; by split).
  destruct (coalesce_block_spec st4 l (on nb) []) as (st5 & l' & Hco & Hg5 & Hr5 & Ho5 & Hfl5 & Hadj5 & Hus5 & Hcn5 & Hgr5);
    [done|done|done|intros c [Hc|Hc]; [auto|by apply not_elem_of_nil in Hc]|done|done| |].
  { unfold st4, upd_stats. cbn [stats with_stats with_brk]. rewrite Hs3. cbn [stats with_mem st0].
    eapply counted_ext; [by apply counted_append| |].
    - rewrite !length_app. done.
    - rewrite !used_app. done. }
  change (ba (on nb)) with e in Hco. rewrite Hco, outcome_bind_ret. eexists _, _. split; [done|].
  destruct Hr3 as (Hr3s & Hr3e & _ & Hr3i & _). destruct Hr5 as (Hr5s & Hr5e & Hr5b & Hr5i & _).
  split; [by rewrite Hr5s|]. split; [by rewrite Hr5e|]. split; [by rewrite Hr5i|]. right. split; [done|]. exists l'.
  split; [done|]. split; [rewrite Hr5b; exact Hg5|]. split; [done|]. split; [done|].
  split; [rewrite Hus5, used_app, used_cons; cbn; by rewrite app_nil_r|]. split; [done|]. split; [done|].
  intros c w Hc Hw. assert (c ∈ l ++ [nb]) as Hin by set_solver.
  destruct (tiled_in _ _ _ c (g_tiled Hg)) as (? & ? & ? & _); [done|done|].
  rewrite (headers_user _ st4 _ _ c w Hg4 Ho5 ltac:(set_solver) Hw).
  change (mem st4) with (mem st3). rewrite (headers_user _ _ _ _ c w Hg2 Ho3 Hin Hw). cbn [mem with_mem].
  rewrite Hf2, Hf1 by lia. apply Hbel. lia.
Qed.

(** ** Allocation *)
Lemma counted_split s l1 b b1 c1 l2 x : counted s (l1 ++ b :: l2) → bu b = false → bu b1 = false → bu c1 = false →
  counted (bump_bytes 0 0 x (bump_blocks 1 0 1 s)) (l1 ++ [b1; c1] ++ l2).
Proof.
  intros (Ht & Hu & Hf & Hb) H1 H2 H3. unfold counted in *. cbn [app]. rewrite !used_app, !used_cons, ?H1, ?H2, ?H3 in *.
  cbn [app] in *. rewrite !length_app in *. cbn [length] in *. cbn. rewrite Ht, Hu, Hf, Hb, !u64_add_l.
  split_and!; f_equal; lia.
Qed.

Lemma inv_ginv st l : inv st l → ginv_at (heap_brk st) st l.
Proof. apply i_ginv. Qed.

(** User words of the blocks around [b] are neither headers nor inside [b]. *)
Lemma user_apart e st l1 b l2 c w : ginv_at e st (l1 ++ b :: l2) → c ∈ l1 ++ l2 →
  ba c + 40 ≤ w < ba c + bs c →
  (∀ d, d ∈ l1 ++ l2 → w < ba d ∨ ba d + 40 ≤ w) ∧ (w < ba b ∨ ba b + bs b ≤ w).
Proof.
  intros Hg Hc Hw. pose proof (proj2 (g_start Hg)) as H16. split.
  - intros d Hd. assert (c ∈ l1 ++ b :: l2) as (k1 & k2 & He)%list_elem_of_split by set_solver.
    assert (d ∈ l1 ++ b :: l2) as Hd' by set_solver.
    destruct (tiled_mid (heap_start st) k1 c k2 e) as (_ & _ & _ & _ & _ & HL & HR); [rewrite <- He; apply Hg|done|].
    unfold sizeof_block in *. rewrite He in Hd'. apply elem_of_app in Hd' as [Hk|[->|Hk]%elem_of_cons];
      [specialize (HL d Hk)| |specialize (HR d Hk)]; lia.
  - destruct (tiled_mid _ _ _ _ _ (g_tiled Hg) H16) as (_ & _ & _ & _ & _ & HL & HR). unfold sizeof_block in *.
    apply elem_of_app in Hc as [Hk|Hk]; [specialize (HL c Hk)|specialize (HR c Hk)]; lia.
Qed.

Lemma take_block_spec st l1 b l2 need : inv st (l1 ++ b :: l2) → bl b = true → sizeof_block ≤ need ≤ bs b → (16 | need) →
  bs b - need ≠ 32 →
  ∃ st' l' b', take_block (ba b) need st = Ret (Some (block_to_ptr (ba b)), st') ∧ inv st' l' ∧ same_region st st' ∧
    b' ∈ l' ∧ ba b' = ba b ∧ bu b' = true ∧ need ≤ bs b' ∧ used l' = used l1 ++ b' :: used l2 ∧
    ∀ c w, c ∈ l1 ++ l2 → ba c + 40 ≤ w < ba c + bs c → mem st' !! w = mem st !! w.
Proof.
  intros [Hg Hfl Hadj Hbrk Hcnt Hini] Hbl Hneed H16 H32.
  pose proof (Hfl b ltac:(set_solver)) as Hbu. rewrite Hbl in Hbu. symmetry in Hbu. apply negb_true_iff in Hbu.
  unfold take_block. destruct (remove_spec st l1 b l2 Hg Hbl) as (st1 & -> & Hg1 & Hr1 & Hs1 & Ho1).
  rewrite outcome_bind_ret.
  destruct (split_spec st1 l1 (off b) l2 need Hg1 eq_refl eq_refl Hneed H16 H32)
    as (st2 & ls & Hsp & Hg2 & Hr2 & Hf2 & Hcase). cbn [ba bs off] in *. rewrite Hsp, outcome_bind_ret.
  apply no_adj_app in Hadj as (Hn1 & [Hh2 Hn2] & _).
  assert (∃ b1 t, ls = b1 :: t ∧ ba b1 = ba b ∧ need ≤ bs b1 ∧ bl b1 = false ∧ bu b1 = false ∧
    (∀ c, c ∈ t → bl c = negb (bu c)) ∧ used t = [] ∧ no_adj (t ++ l2) ∧ counted (stats st2) (l1 ++ b1 :: t ++ l2))
    as (b1 & t & -> & Hba1 & Hbs1 & Hbl1 & Hbu1 & Hflt & Hust & Hadjt & Hcn2).
  { destruct Hcase as [(_ & -> & ->)|(Hge & -> & Hst2)].
    - exists (off b), []. split_and!;
        [done|done|cbn; lia|done|done|by intros c ?%not_elem_of_nil|done|done|].
      rewrite Hs1. eapply counted_ext; [exact Hcnt|by rewrite !length_app|].
      cbn [app]. rewrite !used_app, !used_cons, Hbu. done.
    - eexists _, _. split; [done|]. cbn [ba bs bl bu]. split_and!; try (done || lia).
      + intros c ->%list_elem_of_singleton. done.
      + split; [|done]. intros c Hc. destruct (Hh2 c Hc); [congruence|by right].
      + rewrite Hst2, Hs1. by apply (counted_split _ l1 b). }
  rewrite <- Hba1. destruct (set_used_spec st2 l1 b1 (t ++ l2) true Hg2 Hbl1) as (m3 & -> & Hg3 & Ho3).
  rewrite outcome_bind_ret. set (b' := Blk (ba b1) (bs b1) true false) in *.
  assert (get_size (with_mem m3 st2) (ba b1) = Ret (bs b1)) as ->
    by (apply (get_size_ok _ b'), (g_hdr Hg3); set_solver).
  rewrite outcome_bind_ret.
  unfold same_region in *. destruct Hr1 as (? & ? & Hb1 & ? & ?), Hr2 as (? & ? & Hb2 & ? & ?).
  eexists _, (l1 ++ b' :: t ++ l2), b'. split; [reflexivity|]. split_and!; try (cbn; congruence); try (cbn; lia).
  - split; cbn [heap_brk stats initialized upd_stats with_stats with_mem]; rewrite ?Hb2, ?Hb1; try done; try congruence.
    + apply ginv_stats. exact Hg3.
    + intros c. rewrite elem_of_app, elem_of_cons, elem_of_app. intros [?|[->|[?|?]]]; [apply Hfl; set_solver|done|auto|apply Hfl; set_solver].
    + apply no_adj_app. split_and!; [done|split; [|done]; by left|]. intros x y _ [= <-]. by right.
    + by apply (counted_take _ l1 b1 b').
  - set_solver.
  - rewrite used_app, used_cons, used_app, Hust. done.
  - intros c w Hc Hw. cbn [mem upd_stats with_stats with_mem].
    destruct (user_apart _ _ _ _ _ c w Hg Hc Hw) as [Hapart Hnb].
    rewrite (headers_user _ st2 _ _ c w Hg2 Ho3 ltac:(set_solver) Hw), (Hf2 w Hapart Hnb).
    apply (headers_user _ st _ _ c w Hg Ho1); [set_solver|done].
Qed.

Lemma total_value sz : 0 < sz < 2 ^ 63 →
  total_block_size sz = 16 * ((sz + 15) / 16) + 48.
Proof.
  intros Hs. unfold total_block_size, align_size, HEAP_ALIGN, sizeof_block.
  change (16 - 1) with (2 ^ 4 - 1). rewrite lnot_mask_land by (try apply u64_range; lia).
  change (2 ^ 4) with 16. rewrite (u64_small (sz + 16)), (u64_small (sz + 16 - 1)) by (rewrite ?u64_small; lia).
  replace (sz + 16 - 1) with (sz + 15) by lia. rewrite u64_small; [done|].
  pose proof (Z.div_mod (sz + 15) 16 ltac:(lia)). pose proof (Z.mod_pos_bound (sz + 15) 16 ltac:(lia)). lia.
Qed.
Lemma total_bounds sz : 0 < sz < 2 ^ 63 →
  sz + 48 ≤ total_block_size sz ≤ sz + 63 ∧ sizeof_block ≤ total_block_size sz ∧ (16 | total_block_size sz).
Proof.
  intros Hs. rewrite total_value by done. unfold sizeof_block.
  pose proof (Z.div_mod (sz + 15) 16 ltac:(lia)). pose proof (Z.mod_pos_bound (sz + 15) 16 ltac:(lia)).
  split_and!; [lia..|]. exists ((sz + 15) / 16 + 3). lia.
Qed.
Lemma grow_enough need : 0 < need < 2 ^ 63 + 2 ^ 12 → 4 ≤ expand_pages need ∧ need ≤ grow_bytes need.
Proof.
  intros Hn. unfold grow_bytes, expand_pages, PAGE_SIZE. rewrite !u64_small by (rewrite ?u64_small; lia).
  pose proof (Z.div_mod (need + 4096 - 1) 4096 ltac:(lia)). pose proof (Z.mod_pos_bound (need + 4096 - 1) 4096 ltac:(lia)).
  destruct (Z.ltb_spec ((need + 4096 - 1) / 4096) 4); lia.
Qed.
Lemma target_brk st : (4096 | heap_brk st) → 0 < heap_brk st < 2 ^ 64 - 4096 → expand_target st = heap_brk st.
Proof.
  intros [k Hk] Hb. unfold expand_target. destruct (Z.eqb_spec (heap_brk st) 0); [lia|].
  unfold PAGE_SIZE. change (4096 - 1) with (2 ^ 12 - 1). rewrite lnot_mask_land by (try apply u64_range; lia).
  change (2 ^ 12) with 4096. rewrite !u64_small by (rewrite ?u64_small; lia). rewrite Hk.
  replace (k * 4096 + 4096 - 1) with (4095 + k * 4096) by lia. rewrite Z.div_add, (Z.div_small 4095) by lia. lia.
Qed.

(** [kmalloc], on success and on failure. *)
Definition kmalloc_post st l sz (r : option Z) st' : Prop :=
  match r with
  | None =>
      inv st' l ∧ (∀ c, c ∈ l → bu c = false → bs c < total_block_size sz) ∧
      (vmm_alloc_pages_at (heap_brk st) (expand_pages (total_block_size sz)) (vmm st) (mem st)).1.1 ≠ VMM_OK
  | Some p =>
      ∃ l' b, inv st' l' ∧ b ∈ l' ∧ bu b = true ∧ p = ba b + 48 ∧ (16 | p) ∧ sz ≤ bs b - 48 ∧
        used l' ≡ₚ b :: used l
  end ∧
  ∀ c w, c ∈ used l → ba c + 48 ≤ w < ba c + bs c → mem st' !! w = mem st !! w.

Lemma in_used l c : c ∈ used l ↔ bu c = true ∧ c ∈ l.
Proof. unfold used. by rewrite list_elem_of_filter. Qed.

Lemma take_block_post st st0 l0 l sz b : inv st l → used l = used l0 →
  (∀ c w, c ∈ used l0 → ba c + 48 ≤ w < ba c + bs c → mem st !! w = mem st0 !! w) →
  (∃ l1 l2, l = l1 ++ b :: l2) → bl b = true → 0 < sz < 2 ^ 63 → total_block_size sz ≤ bs b →
  bs b - total_block_size sz ≠ 32 →
  ∃ r st', take_block (ba b) (total_block_size sz) st = Ret (r, st') ∧ kmalloc_post st0 l0 sz r st'.
Proof.
  intros Hi Hus Hsame (l1 & l2 & ->) Hbl Hsz Hneed H32. destruct (total_bounds sz Hsz) as (Htb & Ht48 & Ht16).
  destruct (take_block_spec st l1 b l2 _ Hi Hbl (conj Ht48 Hneed) Ht16 H32)
    as (st' & l' & b' & Hr & Hi' & _ & Hin & Hba & Hbu' & Hbs & Hu' & Hf).
  eexists _, _. split; [exact Hr|]. pose proof (inv_ginv _ _ Hi) as Hg.
  pose proof (around _ _ _ _ Hg) as (? & _ & ? & ? & [k Hk] & _). pose proof (g_end Hg). unfold sizeof_block in *.
  assert (bu b = false) as Hbu by (by apply (g_hdr Hg b); [set_solver|]). split.
  - exists l', b'. unfold block_to_ptr, sizeof_block. rewrite u64_small by lia. split_and!; [done..|by rewrite Hba| |lia|].
    + exists (k + 3). lia.
    + rewrite Hu', <- Hus, used_app, used_cons, Hbu. cbn. by rewrite Permutation_middle.
  - intros c w Hc Hw. rewrite (Hf c w); [by apply (Hsame c)| |lia].
    rewrite <- Hus in Hc. apply in_used in Hc as [Hcu Hc].
    apply elem_of_app in Hc as [?|[->|?]%elem_of_cons]; [set_solver|congruence|set_solver].
Qed.

Lemma kmalloc_spec st l sz : inv st l → 0 < sz < 2 ^ 63 →
  heap_brk st + grow_bytes (total_block_size sz) ≤ heap_end st →
  (∀ x, free_size l x → x - total_block_size sz ≠ 32 ∧ x + grow_bytes (total_block_size sz) - total_block_size sz ≠ 32) →
  ∃ r st', kmalloc sz st = Ret (r, st') ∧ kmalloc_post st l sz r st'.
Proof.
  intros Hi Hsz Hend Hno. pose proof (inv_ginv _ _ Hi) as Hg. pose proof (i_flags Hi) as Hfl.
  destruct (total_bounds sz Hsz) as (Htb & Ht48 & Ht16). set (need := total_block_size sz) in *.
  destruct (grow_enough need) as [Hpg Hgrow]; [lia|].
  unfold kmalloc. rewrite (i_init Hi). cbn [negb]. destruct (Z.eqb_spec sz 0); [lia|]. fold need.
  destruct (find_best_fit_spec st l need Hg) as [[-> Hnone]|(l1 & b & l2 & -> & Hbl & Hw & -> & _)];
    rewrite outcome_bind_ret.
  - cbn [Z.eqb]. pose proof (g_end Hg). destruct (i_brk Hi) as [Hb4 Hb0].
    destruct (expand_spec st l (heap_brk st) need Hg) as (r & st1 & -> & Hs1 & He1 & Hi1 & Hcase);
      [apply target_brk; [done|]; unfold grow_bytes, PAGE_SIZE in *; lia|apply Hi..|done|done|].
    rewrite outcome_bind_ret.
    destruct Hcase as [(-> & Hg1 & Hb1 & Hst1 & Hbel & Hvm)|(-> & l' & Hb1 & Hg1 & Hfl1 & Hadj1 & Hus1 & Hcn1 & [(c & Hc & Hcu & Hcs) Hgr] & Hsame)].
    + eexists _, _. split; [done|]. split; [split_and!|].
      * split; rewrite ?Hb1, ?Hst1, ?Hi1; try apply Hi. done.
      * intros c Hc Hcu. apply Hnone; [done|]. by rewrite Hfl, Hcu.
      * exact Hvm.
      * intros c w [Hcu Hc]%in_used Hw. apply Hbel.
        destruct (tiled_in _ _ _ c (g_tiled Hg)) as (? & ? & _); [apply Hg|done|]. lia.
    + assert (inv st1 l') as Hi'.
      { split; [done|done|done| |done|rewrite Hi1; apply Hi]. rewrite Hb1. split; [|unfold grow_bytes, PAGE_SIZE in *; lia].
        apply Z.divide_add_r; [done|]. by exists (expand_pages need). }
      destruct (find_best_fit_spec st1 l' need Hg1) as [[-> Hnone1]|(l1 & b & l2 & Hl' & Hbl & Hw & -> & Hbest)].
      * exfalso. cbn in Hcs. assert (bs c < need); [|lia]. apply Hnone1; [done|]. by rewrite Hfl1, Hcu.
      * rewrite outcome_bind_ret. assert (b ∈ l') as Hbin by (rewrite Hl'; set_solver).
        destruct (tiled_in _ _ _ b (g_tiled Hg1)) as (? & _ & _ & _); [apply Hg1|done|].
        pose proof (proj1 (g_start Hg1)). destruct (Z.eqb_spec (ba b) 0); [lia|].
        apply (take_block_post st1 st l l'); [done|done| |by eauto|done|done|done|].
        -- intros d w [_ Hd]%in_used Hw'. apply (Hsame d); [done|lia].
        -- assert (bu b = false) as Hbu by (by apply (g_hdr Hg1 b)).
           destruct (Hgr b Hbin Hbu) as [Hin|[Hin|(x & y & Hx & Hy & Hxy)]].
           ++ apply (Hno (bs b)). right. eauto.
           ++ by apply not_elem_of_nil in Hin.
           ++ cbn [bs] in Hxy. destruct Hy as [->|(d & Hd & _)]; [|by apply not_elem_of_nil in Hd].
              destruct (Hno x Hx). fold need. lia.
  - pose proof (around _ _ _ _ Hg) as (? & _). destruct (Z.eqb_spec (ba b) 0); [lia|].
    apply (take_block_post st st _ (l1 ++ b :: l2)); [done..|by eauto|done|done|done|].
    apply Hno. right. exists b. split_and!; [set_solver| |done]. by apply (g_hdr Hg b); [set_solver|].
Qed.

(** ** Initialization *)
Lemma single_free st l e : ginv_at e st l → no_adj l → used l = [] → heap_start st < e →
  (∀ c, c ∈ l → bl c = negb (bu c)) → l = [Blk (heap_start st) (e - heap_start st) false true].
Proof.
  intros Hg Hadj Hus Hlt Hfl. assert (∀ c, c ∈ l → bu c = false) as Hfree.
  { intros c Hc. destruct (bu c) eqn:E; [|done]. assert (c ∈ used l) as Hin by (by apply in_used).
    rewrite Hus in Hin. by apply not_elem_of_nil in Hin. }
  pose proof (g_tiled Hg) as Ht. destruct l as [|b [|c l]].
  - cbn in Ht. lia.
  - destruct Ht as (Hb & _ & _ & Hbe). cbn in Hbe. pose proof (Hfree b ltac:(left)). pose proof (Hfl b ltac:(left)) as Hbl.
    destruct b as [a sz u f]. cbn in *. subst. do 2 f_equal. lia.
  - destruct Hadj as [Hbc _]. destruct (Hbc c eq_refl) as [Hb|Hc].
    + by rewrite Hfree in Hb by left.
    + by rewrite Hfree in Hc by (right; left).
Qed.

Lemma heap_init_spec st : initialized st = false →
  ∃ r st', heap_init st = Ret (r, st') ∧
    ((vmm_alloc_pages_at KERNEL_HEAP_BASE 16 (vmm st) (mem st)).1.1 ≠ VMM_OK ∧ r = HEAP_ERR_OOM ∧ initialized st' = false ∨
     r = HEAP_OK ∧ inv st' [Blk KERNEL_HEAP_BASE 65536 false true] ∧ heap_end st' = KERNEL_HEAP_MAX ∧
     heap_brk st' = KERNEL_HEAP_BASE + 65536).
Proof.
  intros Hini. unfold heap_init. rewrite Hini.
  set (st1 := mk_heap KERNEL_HEAP_BASE KERNEL_HEAP_MAX 0 0 zero_stats false (mem st) (vmm st)).
  assert (ginv_at KERNEL_HEAP_BASE st1 []) as Hg.
  { split; try done.
    - split; [done|]. by exists (KERNEL_HEAP_BASE / 16).
    - intros w Hw. cbn in Hw. lia.
    - intros b Hb. by apply not_elem_of_nil in Hb. }
  change (HEAP_INIT_PAGES ⊠ PAGE_SIZE) with 65536.
  destruct (expand_spec st1 [] KERNEL_HEAP_BASE 65536 Hg) as (r & st2 & -> & Hs2 & He2 & Hi2 & Hcase);
    [done|intros c Hc; by apply not_elem_of_nil in Hc|done|done|by exists (KERNEL_HEAP_BASE / 4096)|done|done|].
  rewrite outcome_bind_ret.
  destruct Hcase as [(-> & _ & _ & _ & _ & Hvm)|(-> & l' & Hb2 & Hg2 & Hfl2 & Hadj2 & Hus2 & Hcn2 & _)].
  { eexists _, _. split; [done|]. left. done. }
  change (grow_bytes 65536) with 65536 in Hb2.
  assert (l' = [Blk KERNEL_HEAP_BASE 65536 false true]) as ->.
  { rewrite (single_free st2 l' _ Hg2); [|done|done|rewrite Hs2, Hb2; done|done].
    rewrite Hs2, Hb2. done. }
  eexists _, _. split; [done|]. right.
  assert (free_list st2 = KERNEL_HEAP_BASE) as Hfl by (rewrite (g_head Hg2); done).
  split_and!; [done| |done|done]. split; cbn [heap_brk stats initialized].
  - destruct Hg2. rewrite Hs2 in *. split; cbn [heap_start heap_end free_list mem]; rewrite ?Hfl; done.
  - done.
  - done.
  - rewrite Hb2. split; [|done]. by exists ((KERNEL_HEAP_BASE + 65536) / 4096).
  - done.
  - done.
Qed.

End top.

End Heap.

Import Heap.

(** ** A page allocator with unlimited zeroed memory, to run the heap on *)
Fixpoint map_words (n : nat) (a : Z) (m : gmap Z Z) : gmap Z Z :=
  match n with O => m | S n' => map_words n' (a + 8) (<[a := 0]> m) end.

Lemma map_words_frame n a m w : w < a ∨ a + 8 * Z.of_nat n ≤ w → map_words n a m !! w = m !! w.
Proof.
  revert a m. induction n as [|n IH]; intros a m Hw; cbn [map_words]; [done|].
  rewrite IH by lia. apply lookup_insert_ne. lia.
Qed.
Lemma map_words_keep n a m w : is_Some (m !! w) → is_Some (map_words n a m !! w).
Proof.
  revert a m. induction n as [|n IH]; intros a m Hw; cbn [map_words]; [done|].
  apply IH. rewrite lookup_insert_is_Some'. auto.
Qed.
Lemma map_words_mapped n a m k : 0 ≤ k < Z.of_nat n → is_Some (map_words n a m !! (a + 8 * k)).
Proof.
  revert a m k. induction n as [|n IH]; intros a m k Hk; cbn [map_words]; [lia|].
  destruct (Z.eq_dec k 0) as [->|].
  - apply map_words_keep. rewrite Z.mul_0_r, Z.add_0_r, lookup_insert_eq. eauto.
  - replace (a + 8 * k) with (a + 8 + 8 * (k - 1)) by lia. apply IH. lia.
Qed.

#[export] Program Instance zero_pages : PageProvider unit := {|
  vmm_alloc_pages_at vaddr count v m :=
    if (vaddr mod 4096 =? 0) && (0 <? count) then (VMM_OK, v, map_words (Z.to_nat (count * 512)) vaddr m)
    else (-1, v, m) |}.
Next Obligation.
  intros vaddr count v m r v' m' Hr w Hw. cbn beta in Hr.
  destruct (Z.eqb_spec (vaddr mod 4096) 0), (Z.ltb_spec 0 count); cbn in Hr; injection Hr as <- <- <-; try done.
  apply map_words_frame. lia.
Qed.
Next Obligation.
  intros vaddr count v m v' m' Hr w Hw H8. cbn beta in Hr.
  destruct (Z.eqb_spec (vaddr mod 4096) 0) as [Ha|], (Z.ltb_spec 0 count); cbn in Hr; try done.
  injection Hr as <- <-. pose proof (Z.div_mod w 8 ltac:(lia)). pose proof (Z.div_mod vaddr 4096 ltac:(lia)).
  replace w with (vaddr + 8 * (w / 8 - vaddr / 4096 * 512)) by lia. apply map_words_mapped. lia.
Qed.

Definition boot : heap_state unit := mk_heap 0 0 0 0 zero_stats false ∅ tt.

(** [heap_init] on a fresh kernel either fails because no pages could be
    mapped, or yields a heap of one free block of 64 KB in which the invariant
    holds. *)
Theorem heap_init_correct {V} `{PageProvider V} (st : heap_state V) : initialized st = false →
  ∃ r st', heap_init st = Ret (r, st') ∧
    ((vmm_alloc_pages_at KERNEL_HEAP_BASE 16 (vmm st) (mem st)).1.1 ≠ VMM_OK ∧ r = HEAP_ERR_OOM ∧ initialized st' = false ∨
     r = HEAP_OK ∧ inv st' [Blk KERNEL_HEAP_BASE 65536 false true] ∧ heap_end st' = KERNEL_HEAP_MAX ∧
     heap_brk st' = KERNEL_HEAP_BASE + 65536).
Proof. apply heap_init_spec. Qed.

Lemma heap_init_witness : ∃ st', heap_init boot = Ret (HEAP_OK, st') ∧
  inv st' [Blk KERNEL_HEAP_BASE 65536 false true].
Proof.
  destruct (heap_init_correct boot eq_refl) as (r & st' & Hr & [[Hvm _]|(-> & Hi & _)]).
  - exfalso. apply Hvm. vm_compute. reflexivity.
  - exists st'. split; [exact Hr|exact Hi].
Defined.



(** C22: [kfree] of a block in use ends, gives the block back and merges it
    with its free neighbours, so that the invariant holds again; every other
    used block stays and keeps its contents. [kfree] of a block that is free
    changes nothing, so a second [kfree] is ignored as long as the block still
    stands in the heap as a free block of its own, that is as long as it has not
    been merged into the free block before it; what happens after such a merge is
    not stated. The pointer must be one whose padding word does not look like the
    pointer an aligned allocation stores there ([plain]). *)
Theorem kfree_correct {V} `{PageProvider V} (st : heap_state V) l b : inv st l → b ∈ l → plain st b →
  (bu b = true →
   ∃ st' l', kfree (Some (block_to_ptr (ba b))) st = Ret st' ∧ inv st' l' ∧ b :: used l' ≡ₚ used l ∧
     ∀ c w, c ∈ l → c ≠ b → ba c + 48 ≤ w < ba c + bs c → mem st' !! w = mem st !! w) ∧
  (bu b = false → kfree (Some (block_to_ptr (ba b))) st = Ret st).
Proof.
  intros Hi Hb Hpl. split; intros Hbu; [|by eapply kfree_double].
  pose proof Hb as (l1 & l2 & ->)%list_elem_of_split.
  destruct (kfree_spec st l1 b l2 Hi Hbu Hpl) as (st' & l' & Hr & Hi' & _ & Hu & Ho).
  exists st', l'. split_and!; [done..| |].
  - rewrite Hu, used_app, used_cons, Hbu. cbn. apply Permutation_middle.
  - intros c w Hc _ Hw. apply (headers_user _ _ _ _ c w (inv_ginv _ _ Hi) Ho Hc). lia.
Qed.

(** The first block is allocated and given back. *)
Lemma kfree_witness : ∃ (st st' : heap_state unit) l l' b, inv st l ∧ b ∈ l ∧ bu b = true ∧ plain st b ∧
  kfree (Some (KERNEL_HEAP_BASE + 48)) st = Ret st' ∧ inv st' l' ∧ b :: used l' ≡ₚ used l.
Proof.
  destruct (heap_init_spec boot eq_refl) as (r0 & st0 & Hr0 & [[Hvm _]|(_ & Hi0 & He & Hb)]).
  { exfalso. apply Hvm. vm_compute. reflexivity. }
  destruct (kmalloc_spec st0 [Blk KERNEL_HEAP_BASE 65536 false true] 100 Hi0) as (r & st & Hr & Hpost).
  { lia. }
  { rewrite Hb, He. vm_compute. discriminate. }
  { intros x [->|(d & Hd & _ & <-)]; [split; vm_compute; discriminate|].
    apply list_elem_of_singleton in Hd as ->. split; vm_compute; discriminate. }
  assert ((λ x, (fst x, mem (snd x) !! (KERNEL_HEAP_BASE + 40), 0 <? heap_start (snd x))) <$> (rs ← heap_init boot; kmalloc 100 (snd rs)) =
    Ret (Some (KERNEL_HEAP_BASE + 48), Some 0, true)) as Hc by (vm_compute; reflexivity).
  rewrite Hr0 in Hc. cbn [mbind outcome_bind snd] in Hc. rewrite Hr in Hc. cbn in Hc. injection Hc as Hp Hw Hs. rewrite Hp in Hpost.
  destruct Hpost as [(l & b & Hi & Hin & Hu & Hpb & _) _].
  assert (ba b = KERNEL_HEAP_BASE) as Hba by lia.
  assert (plain st b) as Hpl by (exists 0; rewrite Hba; split; [exact Hw|left; by apply Z.ltb_lt]).
  destruct (kfree_correct st l b Hi Hin Hpl) as [Hfree _]. destruct (Hfree Hu) as (st' & l' & Hk & Hi' & Hperm & _).
  unfold block_to_ptr, sizeof_block in Hk. rewrite Hba in Hk.
  exists st, st', l, l', b. split_and!; [exact Hi|exact Hin|exact Hu|exact Hpl|exact Hk|exact Hi'|exact Hperm].
Defined.

(** the smallest rest [split_block] keeps is 32 bytes, but a header takes
    48: after allocating 112 and 100 bytes, freeing the first and asking for 80,
    the header of the 32-byte rest lies over the header of the block behind it,
    whose size becomes the magic number. *)
Theorem split_sliver_overwrites_neighbour : ∃ b,
  (rs ← heap_init boot;
   pa ← kmalloc 112 (snd rs); pb ← kmalloc 100 (snd pa);
   sb ← get_size (snd pb) (default 0 (fst pb) - 48);
   st ← kfree (fst pa) (snd pb);
   pc ← kmalloc 80 st;
   sb' ← get_size (snd pc) (default 0 (fst pb) - 48);
   Ret (fst pb, sb, sb')) = Ret (Some b, 160, HEAP_BLOCK_MAGIC).
Proof. eexists. vm_compute. reflexivity. Qed.

(** [kfree] drops the lock between marking the block and listing it. If another
    [kfree] of the block before runs in between, it takes the marked block off a
    list it is not on, which empties the list: all free memory is lost. *)
Theorem kfree_race_loses_free_list :
  (rs ← heap_init boot;
   pa ← kmalloc 100 (snd rs); pb ← kmalloc 200 (snd pa); pc ← kmalloc 300 (snd pb);
   mb ← kfree_mark (fst pb) (snd pc);
   st ← kfree (fst pa) (snd mb);
   Ret (free_list (snd pc) =? 0, free_list st)) = Ret (false, 0).
Proof. vm_compute. reflexivity. Qed.

(** A request near [2^64] wraps to a header-sized block instead of failing. *)
Theorem kmalloc_huge_request_wraps :
  (rs ← heap_init boot; p ← kmalloc (2 ^ 64 - 1) (snd rs); s ← get_size (snd p) KERNEL_HEAP_BASE;
   Ret (fst p, s)) = Ret (Some (KERNEL_HEAP_BASE + 48), 48).
Proof. vm_compute. reflexivity. Qed.
