(* ===== verification/Hashmap.v ===== *)
(** * The chained hash map: [kernel/base/hashmap.c]

    Keys and values are pointers (0 is NULL); a bucket is the chain of its
    entries from the head on. The hash and equality functions are a class with
    the law a client must keep, and the two pairs the file provides are
    instances of it. Equality need not be identity of pointers ([eq_uint64]
    compares what they point to), so the map is a function on keys up to
    [eq_func], and looking up is [Proper] for it. Whether [kmalloc] succeeds is
    an argument of the operations that call it. *)
From S2P Require Import Prelude Bits.

Module Hashmap.

(** ** Hash functions *)
Class HashKey := { hash_func : Z → Z; eq_func : Z → Z → bool }.
Class HashLaws (h : HashKey) := {
  eq_equiv : Equivalence (λ a b, eq_func a b = true);
  eq_hash a b : eq_func a b = true → hash_func a = hash_func b }.

(** [km] is the memory the key pointers point into. *)
Definition hash_uint64 (km : Z → Z) (key : Z) : Z :=
  let val := km key in
  let hash := 14695981039346656037 in
  let hash := Z.lxor hash (Z.land (Z.shiftr val 32) 0xFFFFFFFF) in
  let hash := hash ⊠ 1099511628211 in
  let hash := Z.lxor hash (Z.land val 0xFFFFFFFF) in
  hash ⊠ 1099511628211.
Definition eq_uint64 (km : Z → Z) (a b : Z) : bool := km a =? km b.
Definition hash_ptr (key : Z) : Z := Z.lxor (Z.shiftr key 3) (u64 (Z.shiftl key (8 * 8 - 3))).
Definition eq_ptr (a b : Z) : bool := a =? b.

(** ** Data *)
Record hashmap := mk_map { buckets : list (list (Z * Z)); num_buckets : Z; size : Z }.

Section ops.
Context {h : HashKey}.

Definition bucket_index (map : hashmap) (key : Z) : Z := Z.land (hash_func key) (num_buckets map ⊟ 1).
Definition get_bucket (map : hashmap) (i : Z) : outcome (list (Z * Z)) := access (zlookup (buckets map) i).

(** The number of buckets [hashmap_create] makes. *)
Definition round_buckets (n : Z) : Z :=
  if negb (Z.land n (n ⊟ 1) =? 0) then
    BitOps.smear 16 (BitOps.smear 8 (BitOps.smear 4 (BitOps.smear 2 (BitOps.smear 1 (n ⊟ 1))))) ⊞ 1
  else n.
(** [ok1] and [ok2]: whether the structure and the bucket array were allocated;
    [fns]: whether both functions were given. *)
Definition hashmap_create (n : Z) (fns ok1 ok2 : bool) : option hashmap :=
  if (n =? 0) || negb fns then None else
  let b := round_buckets n in
  if negb ok1 then None else
  if negb ok2 then None else
  Some (mk_map (replicate (Z.to_nat b) []) b 0).

(** The entries [hashmap_destroy] frees, in order. *)
Definition hashmap_destroy (map : option hashmap) : list (Z * Z) :=
  match map with None => [] | Some map => concat (buckets map) end.

Fixpoint update_chain (chain : list (Z * Z)) (key value : Z) : option (list (Z * Z)) :=
  match chain with
  | [] => None
  | (k, v) :: rest =>
      if eq_func k key then Some ((k, value) :: rest)
      else cons (k, v) <$> update_chain rest key value
  end.
Definition hashmap_put (map : option hashmap) (key value : Z) (kmalloc_ok : bool) : outcome (Z * option hashmap) :=
  match map with
  | None => Ret (-1, None)
  | Some map =>
      if key =? 0 then Ret (-1, Some map) else
      let idx := bucket_index map key in
      chain ← get_bucket map idx;
      match update_chain chain key value with
      | Some chain' => Ret (0, Some (mk_map (zinsert (buckets map) idx chain') (num_buckets map) (size map)))
      | None =>
          if kmalloc_ok then
            Ret (0, Some (mk_map (zinsert (buckets map) idx ((key, value) :: chain)) (num_buckets map) (size map ⊞ 1)))
          else Ret (-2, Some map)
      end
  end.

Fixpoint find_chain (chain : list (Z * Z)) (key : Z) : option Z :=
  match chain with
  | [] => None
  | (k, v) :: rest => if eq_func k key then Some v else find_chain rest key
  end.
Definition hashmap_get (map : option hashmap) (key : Z) : outcome Z :=
  match map with
  | None => Ret 0
  | Some map =>
      if key =? 0 then Ret 0 else
      chain ← get_bucket map (bucket_index map key); Ret (default 0 (find_chain chain key))
  end.

Fixpoint remove_chain (chain : list (Z * Z)) (key : Z) : option (Z * list (Z * Z)) :=
  match chain with
  | [] => None
  | (k, v) :: rest =>
      if eq_func k key then Some (v, rest)
      else (λ r, (fst r, (k, v) :: snd r)) <$> remove_chain rest key
  end.
Definition hashmap_remove (map : option hashmap) (key : Z) : outcome (Z * option hashmap) :=
  match map with
  | None => Ret (0, None)
  | Some map =>
      if key =? 0 then Ret (0, Some map) else
      let idx := bucket_index map key in
      chain ← get_bucket map idx;
      match remove_chain chain key with
      | Some (v, chain') => Ret (v, Some (mk_map (zinsert (buckets map) idx chain') (num_buckets map) (size map ⊟ 1)))
      | None => Ret (0, Some map)
      end
  end.

Definition hashmap_size (map : option hashmap) : Z := match map with None => 0 | Some map => size map end.
Definition hashmap_contains (map : option hashmap) (key : Z) : outcome bool :=
  v ← hashmap_get map key; Ret (negb (v =? 0)).
Definition hashmap_clear (map : option hashmap) : option hashmap :=
  map ← map; Some (mk_map ((λ _, []) <$> buckets map) (num_buckets map) 0).

(** The iterator threads its context; the count includes the entry it stopped at. *)
Fixpoint foreach_loop {C} (iter_fn : Z → Z → C → bool * C) (es : list (Z * Z)) (count : Z) (ctx : C) : Z * C :=
  match es with
  | [] => (count, ctx)
  | (k, v) :: rest =>
      let '(go, ctx) := iter_fn k v ctx in
      if (go : bool) then foreach_loop iter_fn rest (count ⊞ 1) ctx else (count ⊞ 1, ctx)
  end.
Definition hashmap_foreach {C} (map : option hashmap) (iter_fn : option (Z → Z → C → bool * C)) (ctx : C) : Z * C :=
  match map, iter_fn with
  | Some map, Some f => foreach_loop f (concat (buckets map)) 0 ctx
  | _, _ => (0, ctx)
  end.

End ops.

(** ** Invariant and abstraction *)
Section spec.
Context {h : HashKey} {HL : HashLaws h}.

Definition keq (a b : Z) : Prop := eq_func a b = true.
#[local] Instance keq_equiv : Equivalence keq := eq_equiv.

Definition lookup_key (map : hashmap) (key : Z) : option Z :=
  chain ← zlookup (buckets map) (bucket_index map key); find_chain chain key.

(** No two entries of a chain have equivalent keys. *)
Fixpoint distinct (chain : list (Z * Z)) : Prop :=
  match chain with
  | [] => True
  | (k, _) :: rest => (∀ e, e ∈ rest → ¬ keq k (fst e)) ∧ distinct rest
  end.
Record wf (map : hashmap) : Prop := {
  wf_pow : ∃ j, 0 ≤ j < 64 ∧ num_buckets map = 2 ^ j;
  wf_len : Z.of_nat (length (buckets map)) = num_buckets map;
  wf_chain : ∀ i chain, zlookup (buckets map) i = Some chain →
    distinct chain ∧ ∀ e, e ∈ chain → bucket_index map (fst e) = i;
  wf_size : size map = u64 (Z.of_nat (length (concat (buckets map)))) }.

#[export] Instance find_chain_proper : Proper (eq ==> keq ==> eq) find_chain.
Proof.
  intros c ? <- k1 k2 Hk. induction c as [|[k v] c IH]; [done|]. cbn. rewrite IH.
  destruct (eq_func k k1) eqn:E1, (eq_func k k2) eqn:E2; try done; exfalso.
  - assert (keq k k2) as E by (etrans; [exact E1|exact Hk]). unfold keq in E. congruence.
  - assert (keq k k1) as E by (etrans; [exact E2|by symmetry]). unfold keq in E. congruence.
Qed.
#[export] Instance bucket_index_proper : Proper (eq ==> keq ==> eq) bucket_index.
Proof. intros m ? <- k1 k2 Hk. unfold bucket_index. by rewrite (eq_hash _ _ Hk). Qed.
#[export] Instance lookup_key_proper : Proper (eq ==> keq ==> eq) lookup_key.
Proof.
  intros m ? <- k1 k2 Hk. unfold lookup_key. rewrite Hk.
  destruct (zlookup _ _); cbn; [by rewrite Hk|done].
Qed.

Lemma bucket_index_range map key : wf map → 0 ≤ bucket_index map key < Z.of_nat (length (buckets map)).
Proof.
  intros Hw. destruct (wf_pow _ Hw) as (j & Hj & Hn). rewrite (wf_len _ Hw). unfold bucket_index.
  assert (0 < 2 ^ j < 2 ^ 64) by (split; [lia|apply Z.pow_lt_mono_r; lia]).
  rewrite Hn, u64_small, mask_land by lia. apply Z.mod_pos_bound. lia.
Qed.
Lemma get_bucket_ok map key : wf map → ∃ chain, get_bucket map (bucket_index map key) = Ret chain ∧
  zlookup (buckets map) (bucket_index map key) = Some chain.
Proof.
  intros Hw. destruct (zlookup_lt_is_Some _ _ (bucket_index_range map key Hw)) as [c Hc].
  exists c. unfold get_bucket. by rewrite Hc.
Qed.

(** ** Chains *)
Lemma find_chain_absent c k : (∀ e, e ∈ c → ¬ keq (fst e) k) → find_chain c k = None.
Proof.
  induction c as [|[k' v] c IH]; intros Hc; [done|]. cbn. destruct (eq_func k' k) eqn:E.
  - by destruct (Hc (k', v)); [left|].
  - apply IH. intros e He. apply Hc. by right.
Qed.

Lemma update_chain_spec c key v c' : update_chain c key v = Some c' → distinct c →
  is_Some (find_chain c key) ∧ distinct c' ∧ length c' = length c ∧
  (∀ e, e ∈ c' → ∃ e', e' ∈ c ∧ fst e' = fst e) ∧
  ∀ k, find_chain c' k = if eq_func key k then Some v else find_chain c k.
Proof.
  revert c'. induction c as [|[k1 v1] c IH]; intros c' Hu; [done|]. cbn in *. intros [Hd1 Hd].
  destruct (eq_func k1 key) eqn:E.
  - injection Hu as <-. split_and!; [by eexists|by split|done| |].
    + intros e [->|He]%elem_of_cons; [exists (k1, v1); by split; [left|]|exists e; by split; [right|]].
    + intros k. cbn. destruct (eq_func k1 k) eqn:E1, (eq_func key k) eqn:E2; try done; exfalso.
      * assert (keq key k) as Hx by (etrans; [symmetry; exact E|exact E1]). unfold keq in Hx. congruence.
      * assert (keq k1 k) as Hx by (etrans; [exact E|exact E2]). unfold keq in Hx. congruence.
  - apply fmap_Some in Hu as (c1 & Hu & ->). destruct (IH c1 Hu Hd) as (Hs & Hd' & Hl & Hin & Hf).
    split_and!; [done|split; [|done]|cbn; lia| |].
    + intros e (e' & He' & <-)%Hin. by apply Hd1.
    + intros e [->|(e' & He' & Hfe)%Hin]%elem_of_cons; [exists (k1, v1); by split; [left|]|exists e'; by split; [right|]].
    + intros k. cbn. rewrite Hf. destruct (eq_func k1 k) eqn:E1, (eq_func key k) eqn:E2; try done.
      exfalso. assert (keq k1 key) as Hx by (etrans; [exact E1|symmetry; exact E2]). unfold keq in Hx. congruence.
Qed.
Lemma update_chain_none c key v : update_chain c key v = None → ∀ e, e ∈ c → ¬ keq (fst e) key.
Proof.
  induction c as [|[k1 v1] c IH]; [by intros _ e ?%not_elem_of_nil|]. cbn. destruct (eq_func k1 key) eqn:E; [done|].
  intros Hn%fmap_None e [->|He]%elem_of_cons; [unfold keq; cbn; congruence|by apply IH].
Qed.

Lemma remove_chain_spec c key v c' : remove_chain c key = Some (v, c') → distinct c →
  find_chain c key = Some v ∧ distinct c' ∧ length c = S (length c') ∧ (∀ e, e ∈ c' → e ∈ c) ∧
  ∀ k, find_chain c' k = if eq_func key k then None else find_chain c k.
Proof.
  revert c'. induction c as [|[k1 v1] c IH]; intros c' Hu; [done|]. cbn in *. intros [Hd1 Hd].
  destruct (eq_func k1 key) eqn:E.
  - injection Hu as <- <-. split_and!; [done|done|done|intros e He; by right|].
    intros k. destruct (eq_func key k) eqn:E2.
    + apply find_chain_absent. intros e He Hk. apply (Hd1 e He). etrans; [exact E|]. etrans; [exact E2|by symmetry].
    + destruct (eq_func k1 k) eqn:E1; [|done]. exfalso.
      assert (keq key k) as Hx by (etrans; [symmetry; exact E|exact E1]). unfold keq in Hx. congruence.
  - apply fmap_Some in Hu as ([w c1] & Hu & [= <- ->]). destruct (IH c1 Hu Hd) as (Hs & Hd' & Hl & Hin & Hf).
    split_and!; [done|split; [|done]|cbn; lia| |].
    + intros e He. by apply Hd1, Hin.
    + intros e [->|He]%elem_of_cons; [left|right; auto].
    + intros k. cbn. rewrite Hf. destruct (eq_func k1 k) eqn:E1, (eq_func key k) eqn:E2; try done.
      exfalso. assert (keq k1 key) as Hx by (etrans; [exact E1|symmetry; exact E2]). unfold keq in Hx. congruence.
Qed.
Lemma remove_chain_none c key : remove_chain c key = None → find_chain c key = None.
Proof.
  induction c as [|[k1 v1] c IH]; [done|]. cbn. destruct (eq_func k1 key); [done|]. intros Hn%fmap_None. auto.
Qed.

(** ** All entries *)
Definition entries (map : hashmap) : list (Z * Z) := concat (buckets map).
Lemma elem_of_entries map e : e ∈ entries map ↔ ∃ i c, zlookup (buckets map) i = Some c ∧ e ∈ c.
Proof.
  unfold entries. rewrite list_elem_of_In, in_concat. split.
  - intros (c & Hc%list_elem_of_In & He%list_elem_of_In). apply list_elem_of_lookup in Hc as [i Hi].
    exists (Z.of_nat i), c. split; [|done]. unfold zlookup. destruct (Z.ltb_spec (Z.of_nat i) 0); [lia|]. by rewrite Nat2Z.id.
  - intros (i & c & Hi & He). exists c. rewrite <- !list_elem_of_In. split; [|done].
    unfold zlookup in Hi. destruct (i <? 0); [done|]. by eapply list_elem_of_lookup_2.
Qed.
Lemma distinct_find c k v : distinct c → (k, v) ∈ c → find_chain c k = Some v.
Proof.
  induction c as [|[k1 v1] c IH]; [by intros _ ?%not_elem_of_nil|]. cbn. intros [Hd1 Hd] [[= <- <-]|He]%elem_of_cons.
  - by rewrite (reflexivity (R := keq) k : eq_func k k = true).
  - destruct (eq_func k1 k) eqn:E; [by destruct (Hd1 _ He)|by apply IH].
Qed.
Lemma find_elem c k v : find_chain c k = Some v → ∃ k', keq k' k ∧ (k', v) ∈ c.
Proof.
  induction c as [|[k1 v1] c IH]; [done|]. cbn. destruct (eq_func k1 k) eqn:E.
  - intros [= <-]. exists k1. by split; [|left].
  - intros (k' & Hk & He)%IH. exists k'. by split; [|right].
Qed.
Lemma entry_lookup map k v : wf map → (k, v) ∈ entries map → lookup_key map k = Some v.
Proof.
  intros Hw (i & c & Hc & He)%elem_of_entries. destruct (wf_chain _ Hw _ _ Hc) as [Hd Hi].
  unfold lookup_key. rewrite (Hi _ He : bucket_index map k = i), Hc. by apply distinct_find.
Qed.
Lemma lookup_entry map k v : lookup_key map k = Some v → ∃ k', keq k' k ∧ (k', v) ∈ entries map.
Proof.
  unfold lookup_key. destruct (zlookup _ _) as [c|] eqn:Hc; [|done]. intros (k' & Hk & He)%find_elem.
  exists k'. split; [done|]. apply elem_of_entries. by eexists _, _.
Qed.

(** ** Replacing one chain *)
Lemma concat_replace (bs : list (list (Z * Z))) i c c' : zlookup bs i = Some c →
  Z.of_nat (length (concat (zinsert bs i c'))) =
  Z.of_nat (length (concat bs)) - Z.of_nat (length c) + Z.of_nat (length c').
Proof.
  unfold zlookup, zinsert. destruct (Z.ltb_spec i 0); [done|]. generalize (Z.to_nat i). clear.
  induction bs as [|b bs IH]; intros [|n] Hl; try done.
  - injection Hl as ->. change (<[0%nat := c']> (c :: bs)) with (c' :: bs). cbn [concat]. rewrite !length_app. lia.
  - change (<[S n := c']> (b :: bs)) with (b :: <[n := c']> bs). cbn [concat]. rewrite !length_app.
    specialize (IH n Hl). lia.
Qed.

Definition set_chain (map : hashmap) (i : Z) (c : list (Z * Z)) (n : Z) : hashmap :=
  mk_map (zinsert (buckets map) i c) (num_buckets map) n.

Lemma set_chain_wf map i c c' n : wf map → zlookup (buckets map) i = Some c →
  distinct c' → (∀ e, e ∈ c' → bucket_index map (fst e) = i) →
  n = u64 (Z.of_nat (length (concat (buckets map))) - Z.of_nat (length c) + Z.of_nat (length c')) →
  wf (set_chain map i c' n) ∧
  ∀ k, lookup_key (set_chain map i c' n) k =
    if bucket_index map k =? i then find_chain c' k else lookup_key map k.
Proof.
  intros [Hp Hl Hc Hs] Hi Hd Hin Hn. pose proof (zlookup_Some_lt _ _ _ Hi) as Hr.
  assert (∀ j, zlookup (zinsert (buckets map) i c') j = if j =? i then Some c' else zlookup (buckets map) j) as Hz.
  { intros j. destruct (Z.eqb_spec j i) as [->|]; [by apply zlookup_zinsert_eq|by apply zlookup_zinsert_ne]. }
  split.
  - split; cbn [buckets num_buckets size set_chain]; [done|by rewrite length_zinsert| |].
    + intros j ch Hj. rewrite Hz in Hj. change (bucket_index (set_chain map i c' n)) with (bucket_index map).
      destruct (Z.eqb_spec j i) as [->|]; [injection Hj as <-; done|]. by apply Hc.
    + rewrite (concat_replace _ _ c) by done. done.
  - intros k. unfold lookup_key. change (bucket_index (set_chain map i c' n)) with (bucket_index map).
    cbn [buckets set_chain]. rewrite Hz. by destruct (_ =? _).
Qed.

Lemma lookup_key_chain map k c : zlookup (buckets map) (bucket_index map k) = Some c → lookup_key map k = find_chain c k.
Proof. unfold lookup_key. by intros ->. Qed.

(** Entries with an equivalent key are in the same bucket. *)
Lemma same_bucket map key k : keq key k → bucket_index map k = bucket_index map key.
Proof. intros Hk. by rewrite Hk. Qed.

Lemma hashmap_put_spec map key v ok : wf map → key ≠ 0 → is_Some (lookup_key map key) ∨ ok = true →
  ∃ map', hashmap_put (Some map) key v ok = Ret (0, Some map') ∧ wf map' ∧
    (∀ k, lookup_key map' k = if eq_func key k then Some v else lookup_key map k) ∧
    size map' = (match lookup_key map key with Some _ => size map | None => size map ⊞ 1 end).
Proof.
  intros Hw Hk Hok. unfold hashmap_put. destruct (Z.eqb_spec key 0); [done|].
  destruct (get_bucket_ok map key Hw) as (c & -> & Hc). rewrite outcome_bind_ret.
  destruct (wf_chain _ Hw _ _ Hc) as [Hd Hin]. rewrite (lookup_key_chain _ _ _ Hc) in *.
  destruct (update_chain c key v) as [c'|] eqn:Hu.
  - destruct (update_chain_spec _ _ _ _ Hu Hd) as ([x Hx] & Hd' & Hl & Hin' & Hf).
    destruct (set_chain_wf map _ c c' (size map) Hw Hc Hd') as [Hw' Hlk].
    { intros e (e' & He' & <-)%Hin'. by apply Hin. }
    { rewrite (wf_size _ Hw). f_equal. lia. }
    eexists. split; [done|]. split; [exact Hw'|]. rewrite Hx. split; [|done]. intros k. rewrite Hlk.
    destruct (Z.eqb_spec (bucket_index map k) (bucket_index map key)) as [He|He].
    + rewrite Hf. destruct (eq_func key k); [done|]. symmetry. apply lookup_key_chain. by rewrite He.
    + destruct (eq_func key k) eqn:E; [|done]. destruct He. by rewrite (same_bucket map key k).
  - pose proof (update_chain_none _ _ _ Hu) as Hno. rewrite (find_chain_absent _ _ Hno) in *.
    destruct Hok as [[x Hx]|Hok]; [done|]. subst ok.
    destruct (set_chain_wf map _ c ((key, v) :: c) (size map ⊞ 1) Hw Hc) as [Hw' Hlk].
    { split; [|done]. intros e He Hke. apply (Hno e He). by symmetry. }
    { intros e [->|He]%elem_of_cons; [done|by apply Hin]. }
    { rewrite (wf_size _ Hw). unfold u64. rewrite Z.add_mod_idemp_l by lia. f_equal. cbn [length]. lia. }
    eexists. split; [done|]. split; [exact Hw'|]. split; [|done]. intros k. rewrite Hlk.
    destruct (Z.eqb_spec (bucket_index map k) (bucket_index map key)) as [He|He].
    + cbn. destruct (eq_func key k); [done|]. symmetry. apply lookup_key_chain. by rewrite He.
    + destruct (eq_func key k) eqn:E; [|done]. destruct He. by rewrite (same_bucket map key k).
Qed.

Lemma put_oom map key v : wf map → key ≠ 0 → lookup_key map key = None →
  hashmap_put (Some map) key v false = Ret (-2, Some map).
Proof.
  intros Hw Hk Hn. unfold hashmap_put. destruct (Z.eqb_spec key 0); [done|].
  destruct (get_bucket_ok map key Hw) as (c & -> & Hc). rewrite outcome_bind_ret.
  destruct (wf_chain _ Hw _ _ Hc) as [Hd _]. rewrite (lookup_key_chain _ _ _ Hc) in Hn.
  destruct (update_chain c key v) as [c'|] eqn:Hu; [|done].
  destruct (update_chain_spec _ _ _ _ Hu Hd) as ([x Hx] & _). congruence.
Qed.

Lemma hashmap_get_spec map key : wf map → key ≠ 0 → hashmap_get (Some map) key = Ret (default 0 (lookup_key map key)).
Proof.
  intros Hw Hk. unfold hashmap_get. destruct (Z.eqb_spec key 0); [done|].
  destruct (get_bucket_ok map key Hw) as (c & -> & Hc). rewrite outcome_bind_ret. by rewrite (lookup_key_chain _ _ _ Hc).
Qed.

Lemma hashmap_remove_spec map key : wf map → key ≠ 0 →
  ∃ map', hashmap_remove (Some map) key = Ret (default 0 (lookup_key map key), Some map') ∧ wf map' ∧
    (∀ k, lookup_key map' k = if eq_func key k then None else lookup_key map k) ∧
    size map' = (match lookup_key map key with Some _ => size map ⊟ 1 | None => size map end).
Proof.
  intros Hw Hk. unfold hashmap_remove. destruct (Z.eqb_spec key 0); [done|].
  destruct (get_bucket_ok map key Hw) as (c & -> & Hc). rewrite outcome_bind_ret.
  destruct (wf_chain _ Hw _ _ Hc) as [Hd Hin]. rewrite (lookup_key_chain _ _ _ Hc).
  destruct (remove_chain c key) as [[x c']|] eqn:Hu.
  - destruct (remove_chain_spec _ _ _ _ Hu Hd) as (Hx & Hd' & Hl & Hin' & Hf).
    destruct (set_chain_wf map _ c c' (size map ⊟ 1) Hw Hc Hd') as [Hw' Hlk]; [auto| |].
    { rewrite (wf_size _ Hw). unfold u64. rewrite Zminus_mod_idemp_l. f_equal. lia. }
    rewrite Hx. eexists. split; [done|]. split; [exact Hw'|]. split; [|done]. intros k. rewrite Hlk.
    destruct (Z.eqb_spec (bucket_index map k) (bucket_index map key)) as [He|He].
    + rewrite Hf. destruct (eq_func key k); [done|]. symmetry. apply lookup_key_chain. by rewrite He.
    + destruct (eq_func key k) eqn:E; [|done]. destruct He. by rewrite (same_bucket map key k).
  - rewrite (remove_chain_none _ _ Hu). exists map. split_and!; [done|done| |done].
    intros k. destruct (eq_func key k) eqn:E; [|done].
    assert (keq key k) as Hkk by exact E. rewrite <- Hkk, (lookup_key_chain _ _ _ Hc). by apply remove_chain_none.
Qed.

(** ** Creation *)
Lemma pow2_land n : 0 < n < 2 ^ 64 → Z.land n (n ⊟ 1) = 0 → ∃ j, 0 ≤ j < 64 ∧ n = 2 ^ j.
Proof.
  intros Hn Hl. rewrite u64_small in Hl by lia. exists (Z.log2 n). pose proof (Z.log2_nonneg n).
  pose proof (Z.log2_spec n ltac:(lia)) as [Hlo Hhi].
  split; [split; [done|]; apply Z.log2_lt_pow2; lia|].
  destruct (Z.eq_dec n (2 ^ Z.log2 n)) as [|Hne]; [done|]. exfalso.
  assert (Z.testbit (Z.land n (n - 1)) (Z.log2 n) = true); [|by rewrite Hl, Z.bits_0 in *].
  rewrite Z.land_spec, Z.bit_log2 by lia. cbn.
  replace (Z.log2 n) with (Z.log2 (n - 1)); [apply Z.bit_log2; lia|].
  apply Z.log2_unique; [lia|]. replace (Z.succ (Z.log2 n)) with (Z.log2 n + 1) in * by lia. lia.
Qed.

Lemma round_buckets_spec n : 0 < n ≤ 2 ^ 32 → ∃ j, 0 ≤ j ≤ 32 ∧ round_buckets n = 2 ^ j ∧ n ≤ 2 ^ j ∧ 2 ^ j < 2 * n.
Proof.
  intros Hn. unfold round_buckets. destruct (Z.eqb_spec (Z.land n (n ⊟ 1)) 0) as [Hz|Hz]; cbn [negb].
  - destruct (pow2_land n ltac:(lia) Hz) as (j & Hj & ->). exists j. split_and!; try lia.
    apply (Z.pow_le_mono_r_iff 2); lia.
  - assert (n ≠ 1) by (intros ->; done). rewrite (u64_small (n - 1)) by lia.
    pose proof (smear_pow2_value n _ 32 ltac:(lia) ltac:(lia) (smeared_32 (n - 1) ltac:(lia))) as Hv.
    pose proof (Z.log2_up_spec n ltac:(lia)) as [Hlo Hhi]. pose proof (Z.log2_up_nonneg n).
    assert (Z.log2_up n ≤ 32) by (apply Z.log2_up_le_pow2; lia).
    exists (Z.log2_up n). split_and!; [done|done| |done|].
    + rewrite Hv. apply pow2_u64. lia.
    + replace (2 ^ Z.log2_up n) with (2 * 2 ^ Z.pred (Z.log2_up n)); [lia|].
      rewrite <- Z.pow_succ_r; [f_equal; lia|]. pose proof (Z.log2_up_pos n ltac:(lia)). lia.
Qed.

Lemma hashmap_create_spec n : 0 < n ≤ 2 ^ 32 → ∃ map, hashmap_create n true true true = Some map ∧ wf map ∧
  n ≤ num_buckets map < 2 * n ∧ ∀ k, lookup_key map k = None.
Proof.
  intros Hn. unfold hashmap_create. destruct (Z.eqb_spec n 0); [lia|]. cbn [orb negb].
  destruct (round_buckets_spec n Hn) as (j & Hj & -> & Hge & Hlt). eexists. split; [done|].
  assert (∀ i c, zlookup (replicate (Z.to_nat (2 ^ j)) []) i = Some c → c = ([] : list (Z * Z))) as Hc.
  { intros i c. unfold zlookup. destruct (i <? 0); [done|]. by intros [-> _]%lookup_replicate. }
  split_and!; [|cbn; lia..|].
  - split; cbn [buckets num_buckets size].
    + exists j. split; [lia|done].
    + rewrite length_replicate. lia.
    + intros i c ->%Hc. split; [done|]. intros e He. by apply not_elem_of_nil in He.
    + assert (concat (replicate (Z.to_nat (2 ^ j)) ([] : list (Z * Z))) = []) as ->; [|done].
      clear. induction (Z.to_nat (2 ^ j)) as [|k IH]; [done|exact IH].
  - intros k. unfold lookup_key. destruct (zlookup _ _) as [c|] eqn:E; [|done]. cbn in *. by rewrite (Hc _ _ E).
Qed.

Lemma foreach_all {C} (f : Z → Z → C → C) es n ctx : 0 ≤ n → n + Z.of_nat (length es) < 2 ^ 64 →
  foreach_loop (λ k v c, (true, f k v c)) es n ctx =
    (n + Z.of_nat (length es), foldl (λ c e, f (fst e) (snd e) c) ctx es).
Proof.
  revert n ctx. induction es as [|[k v] es IH]; intros n ctx H0 Hn; cbn [foreach_loop length foldl fst snd] in *.
  - f_equal. lia.
  - rewrite u64_small by lia. rewrite IH by lia. f_equal. lia.
Qed.

End spec.

(** ** The instances the file provides *)
#[export] Instance uint64_key (km : Z → Z) : HashKey := {| hash_func := hash_uint64 km; eq_func := eq_uint64 km |}.
#[export] Instance ptr_key : HashKey := {| hash_func := hash_ptr; eq_func := eq_ptr |}.

#[export] Instance uint64_laws km : HashLaws (uint64_key km).
Proof.
  split; cbn.
  - split; intros ?; unfold eq_uint64; [apply Z.eqb_refl|..]; intros; rewrite ?Z.eqb_eq in *; congruence.
  - unfold eq_uint64, hash_uint64. intros a b ->%Z.eqb_eq. done.
Qed.
#[export] Instance ptr_laws : HashLaws ptr_key.
Proof.
  split; cbn; unfold eq_ptr.
  - split; intros ?; [apply Z.eqb_refl|..]; intros; rewrite ?Z.eqb_eq in *; congruence.
  - by intros a b ->%Z.eqb_eq.
Qed.

End Hashmap.

Import Hashmap.

(** C35: for any hash function that respects the key equality, the map behaves
    as a partial function on keys up to that equality: [hashmap_put] updates it
    at one class of keys (and only fails, with -2 and no change, when a new
    entry cannot be allocated), [hashmap_get] reads it, [hashmap_remove] clears
    it at one class and returns what was there, the invariant and the exact
    entry count are kept, and a fresh map is empty. *)
Theorem hashmap_refines_function {h : HashKey} `{!HashLaws h} map key v : wf map → key ≠ 0 →
  (∀ ok, is_Some (lookup_key map key) ∨ ok = true →
   ∃ map', hashmap_put (Some map) key v ok = Ret (0, Some map') ∧ wf map' ∧
    (∀ k, lookup_key map' k = if eq_func key k then Some v else lookup_key map k)) ∧
  (lookup_key map key = None → hashmap_put (Some map) key v false = Ret (-2, Some map)) ∧
  hashmap_get (Some map) key = Ret (default 0 (lookup_key map key)) ∧
  (∃ map', hashmap_remove (Some map) key = Ret (default 0 (lookup_key map key), Some map') ∧ wf map' ∧
    (∀ k, lookup_key map' k = if eq_func key k then None else lookup_key map k)) ∧
  hashmap_size (Some map) = u64 (Z.of_nat (length (concat (buckets map)))) ∧
  (∀ n, 0 < n ≤ 2 ^ 32 → ∃ m, hashmap_create n true true true = Some m ∧ wf m ∧ n ≤ num_buckets m ∧
    ∀ k, lookup_key m k = None).
Proof.
  intros Hw Hk. split_and!.
  - intros ok Hok. destruct (hashmap_put_spec map key v ok Hw Hk Hok) as (m & ? & ? & ? & _). eauto.
  - by apply put_oom.
  - by apply hashmap_get_spec.
  - destruct (hashmap_remove_spec map key Hw Hk) as (m & ? & ? & ? & _). eauto.
  - apply (wf_size _ Hw).
  - intros n Hn. destruct (hashmap_create_spec n Hn) as (m & ? & ? & [? _] & ?). eauto.
Qed.

(** Keys are pointers to the words 7, 7 and 9, at 8, 16 and 24. *)
Definition demo_keys (p : Z) : Z := if p =? 24 then 9 else 7.

Lemma hashmap_witness : ∃ m m', hashmap_create 3 true true true = Some m ∧
  hashmap_put (h := uint64_key demo_keys) (Some m) 8 100 true = Ret (0, Some m') ∧
  lookup_key (h := uint64_key demo_keys) m' 16 = Some 100.
Proof.
  destruct (hashmap_create_spec (h := uint64_key demo_keys) 3) as (m & Hm & Hw & _ & He); [lia|].
  destruct (hashmap_refines_function (h := uint64_key demo_keys) m 8 100 Hw) as (Hput & _).
  - lia.
  - destruct (Hput true) as (m' & Hp & _ & Hl); [by right|].
    exists m, m'. split; [exact Hm|]. split; [exact Hp|]. rewrite Hl. reflexivity.
Defined.
