(* ===== verification/Cow.v ===== *)
(** * Copy on write and page faults: [kernel/mm/vmm/cow.c], [cow.h], [fault.c], [fault.h]

    The reference counts of shared frames live in blocks from the kernel heap
    that a hash map ([Hashmap], keyed by the address of the block) collects; a
    block is found by walking the whole map. The mappings are those of [Page].
    What [kmalloc] will answer is a list in the state, 0 for a failure; the
    theorems ask only that it does not hand out a block in use. The linked list
    of regions is a sequence. *)
From S2P Require Import Prelude Bits Mem Bitmap E820 Pframe Page Vmm Hashmap.
Import Bitmap Pframe Page Vmm Hashmap.

Module Cow.

Definition COW_FLAG_MASK := 2 ^ 9.
Definition COW_MAX_REFCOUNT := 0xFFFF.
Definition COW_HASH_SIZE := 256.

Inductive cow_result := COW_OK | COW_ERR_NOT_INIT | COW_ERR_OOM | COW_ERR_INVALID | COW_ERR_NOT_COW | COW_ERR_MAX_REFCOUNT.
#[export] Instance cow_result_eq_dec : EqDecision cow_result.
Proof. solve_decision. Defined.

(** ** State *)
Record cow_block := mk_block { orig_phys : Z; refcount : Z }.
Record cow_region := mk_cow_region { cr_start : Z; page_count : Z; cr_pml4 : Z }.
Record cow_stats := mk_cstats {
  cow_faults_handled : Z; cow_pages_allocated : Z; cow_pages_freed : Z;
  cow_current_blocks : Z; cow_write_faults : Z; cow_coalesced : Z }.
Definition no_stats : cow_stats := mk_cstats 0 0 0 0 0 0.
Record cow_state := mk_cow {
  mem : page_state; page_map : option hashmap; blocks : gmap Z cow_block;
  regions : list cow_region; stats : cow_stats; initialized : bool; kmallocs : list Z }.
Implicit Types st : cow_state.

Definition with_mem (p : page_state) st : cow_state :=
  mk_cow p (page_map st) (blocks st) (regions st) (stats st) (initialized st) (kmallocs st).
Definition with_blocks (b : gmap Z cow_block) st : cow_state :=
  mk_cow (mem st) (page_map st) b (regions st) (stats st) (initialized st) (kmallocs st).
Definition with_map (m : option hashmap) st : cow_state :=
  mk_cow (mem st) m (blocks st) (regions st) (stats st) (initialized st) (kmallocs st).
Definition with_regions (r : list cow_region) st : cow_state :=
  mk_cow (mem st) (page_map st) (blocks st) r (stats st) (initialized st) (kmallocs st).
Definition with_stats (x : cow_stats) st : cow_state :=
  mk_cow (mem st) (page_map st) (blocks st) (regions st) x (initialized st) (kmallocs st).
Definition count_allocated (x : cow_stats) : cow_stats :=
  mk_cstats (cow_faults_handled x) (cow_pages_allocated x ⊞ 1) (cow_pages_freed x)
    (cow_current_blocks x ⊞ 1) (cow_write_faults x) (cow_coalesced x).
Definition count_freed (x : cow_stats) : cow_stats :=
  mk_cstats (cow_faults_handled x) (cow_pages_allocated x) (cow_pages_freed x ⊞ 1)
    (cow_current_blocks x ⊟ 1) (cow_write_faults x) (cow_coalesced x).
Definition count_handled (x : cow_stats) : cow_stats :=
  mk_cstats (cow_faults_handled x ⊞ 1) (cow_pages_allocated x) (cow_pages_freed x)
    (cow_current_blocks x) (cow_write_faults x) (cow_coalesced x).
Definition count_write_fault (x : cow_stats) : cow_stats :=
  mk_cstats (cow_faults_handled x) (cow_pages_allocated x) (cow_pages_freed x)
    (cow_current_blocks x) (cow_write_faults x ⊞ 1) (cow_coalesced x).
Definition count_coalesced (x : cow_stats) : cow_stats :=
  mk_cstats (cow_faults_handled x) (cow_pages_allocated x) (cow_pages_freed x)
    (cow_current_blocks x) (cow_write_faults x) (cow_coalesced x ⊞ 1).
(** The next answer of [kmalloc]. *)
Definition kmalloc_next st : Z * cow_state :=
  (default 0 (head (kmallocs st)),
   mk_cow (mem st) (page_map st) (blocks st) (regions st) (stats st) (initialized st) (tail (kmallocs st))).

Definition cow_is_cow_page (pte_flags : Z) : bool := flag_set pte_flags COW_FLAG_MASK.
Definition cow_set_cow_flag (pte_flags : Z) : Z := Z.lor pte_flags COW_FLAG_MASK.
Definition cow_clear_cow_flag (pte_flags : Z) : Z := Z.land pte_flags (~64 COW_FLAG_MASK).
(** [phys & ~(PAGE_SIZE - 1)] *)
Definition page_of (phys : Z) : Z := Z.land phys (~64 (PAGE_SIZE - 1)).

(** ** Finding a block *)
Definition search_by_phys_iterator (bs : gmap Z cow_block) (target key value : Z) (result : outcome Z) : bool * outcome Z :=
  match bs !! value with
  | None => (false, Fail Fault)
  | Some block => if orig_phys block =? target then (false, Ret value) else (true, result)
  end.
(** The address of the block, 0 if there is none. *)
Definition find_block_by_phys (phys : Z) st : outcome Z :=
  match initialized st, page_map st with
  | true, Some _ => snd (hashmap_foreach (page_map st) (Some (search_by_phys_iterator (blocks st) (page_of phys))) (Ret 0))
  | _, _ => Ret 0
  end.
Definition cow_lookup_block (phys : Z) st : outcome Z := find_block_by_phys phys st.

(** [ok1], [ok2]: whether [hashmap_create] gets its memory. *)
Definition cow_init (ok1 ok2 : bool) st : cow_result * cow_state :=
  if initialized st then (COW_OK, st) else
  match hashmap_create COW_HASH_SIZE true ok1 ok2 with
  | None => (COW_ERR_OOM, with_map None st)
  | Some m => (COW_OK, mk_cow (mem st) (Some m) (blocks st) [] no_stats true (kmallocs st))
  end.
Definition cow_get_stats st : cow_result * option cow_stats :=
  if negb (initialized st) then (COW_ERR_NOT_INIT, None) else (COW_OK, Some (stats st)).

(** ** Reference counts *)
Definition cow_inc_refcount (phys : Z) st : outcome (cow_result * cow_state) :=
  if negb (initialized st) then Ret (COW_ERR_NOT_INIT, st) else
  let phys := page_of phys in
  block ← cow_lookup_block phys st;
  if block =? 0 then Ret (COW_ERR_NOT_COW, st) else
  b ← access (blocks st !! block);
  if COW_MAX_REFCOUNT <=? refcount b then Ret (COW_ERR_MAX_REFCOUNT, st) else
  Ret (COW_OK, with_blocks (<[block := mk_block (orig_phys b) (s32 (refcount b + 1))]> (blocks st)) st).
Definition cow_dec_refcount (phys : Z) st : outcome (cow_result * cow_state) :=
  if negb (initialized st) then Ret (COW_ERR_NOT_INIT, st) else
  let phys := page_of phys in
  block ← cow_lookup_block phys st;
  if block =? 0 then Ret (COW_ERR_NOT_COW, st) else
  b ← access (blocks st !! block);
  let n := s32 (refcount b - 1) in
  let st := with_blocks (<[block := mk_block (orig_phys b) n]> (blocks st)) st in
  if n =? 0 then
    vm ← hashmap_remove (h := ptr_key) (page_map st) block;
    let st := with_map (snd (vm : Z * option hashmap)) st in
    Ret (COW_OK, with_stats (count_freed (stats st)) (with_blocks (delete block (blocks st)) st))
  else Ret (COW_OK, st).
Definition cow_get_refcount (phys : Z) st : outcome (cow_result * option Z) :=
  if negb (initialized st) then Ret (COW_ERR_NOT_INIT, None) else
  let phys := page_of phys in
  block ← cow_lookup_block phys st;
  if block =? 0 then Ret (COW_ERR_NOT_COW, None) else
  b ← access (blocks st !! block); Ret (COW_OK, Some (u16 (refcount b))).
Definition cow_add_page (phys : Z) st : outcome (cow_result * cow_state) :=
  if negb (initialized st) then Ret (COW_ERR_NOT_INIT, st) else
  let phys := page_of phys in
  existing ← find_block_by_phys phys st;
  if negb (existing =? 0) then cow_inc_refcount phys st else
  let '(block, st) := kmalloc_next st in
  if block =? 0 then Ret (COW_ERR_OOM, st) else
  let st := with_blocks (<[block := mk_block phys 1]> (blocks st)) st in
  let '(entry, st) := kmalloc_next st in
  rm ← hashmap_put (h := ptr_key) (page_map st) block block (negb (entry =? 0));
  let '(result, m) := rm : Z * option hashmap in
  let st := with_map m st in
  if negb (result =? 0) then Ret (COW_ERR_OOM, with_blocks (delete block (blocks st)) st) else
  Ret (COW_OK, with_stats (count_allocated (stats st)) st).

(** ** Page table entries *)
Definition cow_mark_page_readonly (pml4 vaddr : Z) st : outcome (cow_result * cow_state) :=
  rq ← page_query pml4 vaddr (mem st);
  if negb (bool_decide (fst (rq : Page.page_result * page_query_result) = PAGE_OK)) then Ret (COW_ERR_INVALID, st) else
  pml4e ← entry pml4 (PML4_INDEX vaddr) (mem st);
  if negb (present pml4e) then Ret (COW_ERR_INVALID, st) else
  pdpte ← entry (frame_addr pml4e) (PDPT_INDEX vaddr) (mem st);
  if negb (present pdpte) then Ret (COW_ERR_INVALID, st) else
  pde ← entry (frame_addr pdpte) (PD_INDEX vaddr) (mem st);
  if negb (present pde) then Ret (COW_ERR_INVALID, st) else
  pte ← entry (frame_addr pde) (PT_INDEX vaddr) (mem st);
  let pte := Z.land pte (~64 PAGE_WRITE) in
  let pte := cow_set_cow_flag pte in
  p ← sto (phys_to_virt_offset (frame_addr pde) ⊞ 8 * PT_INDEX vaddr) pte (mem st);
  Ret (COW_OK, with_mem (page_invalidate_tlb vaddr p) st).

Definition cow_make_writable (pml4 vaddr phys : Z) st : outcome (cow_result * cow_state) :=
  rq ← page_query pml4 vaddr (mem st);
  let '(result, query) := rq : Page.page_result * page_query_result in
  if negb (bool_decide (result = PAGE_OK)) then Ret (COW_ERR_INVALID, st) else
  let new_flags := q_flags query in
  let new_flags := Z.lor new_flags PAGE_WRITE in
  let new_flags := cow_clear_cow_flag new_flags in
  rp ← page_map_page pml4 vaddr phys new_flags false (mem st);
  let '(result, p) := rp : Page.page_result * page_state in
  let st := with_mem (page_invalidate_tlb vaddr p) st in
  Ret (if bool_decide (result = PAGE_OK) then COW_OK else COW_ERR_INVALID, st).

(** [memcpy] of a page through the direct map, a word at a time. *)
Definition copy_page (new orig : Z) (p : page_state) : outcome page_state := for_range 0 512 (copy_entry orig new) p.
Definition cow_copy_on_write (pml4 vaddr orig_phys : Z) st : outcome (cow_result * cow_state) :=
  r ← pframe_alloc (frames (mem st));
  match r : pframe_result * option Z * pframe_state with
  | (PFRAME_OK, Some new_phys, x) =>
      p ← copy_page new_phys orig_phys (with_frames x (mem st));
      let st := with_mem p st in
      rs ← cow_dec_refcount orig_phys st;
      let st := snd (rs : cow_result * cow_state) in
      let flags := Z.lor (Z.lor PAGE_PRESENT PAGE_WRITE) PAGE_USER in
      rq ← page_query pml4 vaddr (mem st);
      let '(res, query) := rq : Page.page_result * page_query_result in
      let flags := if bool_decide (res = PAGE_OK) then
          let flags := if flag_set (q_flags query) PAGE_USER then Z.lor flags PAGE_USER else flags in
          if flag_set (q_flags query) PAGE_NO_EXEC then Z.lor flags PAGE_NO_EXEC else flags
        else flags in
      rp ← page_map_page pml4 vaddr new_phys flags false (mem st);
      let st := with_mem (page_invalidate_tlb vaddr (snd (rp : Page.page_result * page_state))) st in
      Ret (COW_OK, with_stats (count_handled (stats st)) st)
  | (_, _, x) => Ret (COW_ERR_OOM, with_mem (with_frames x (mem st)) st)
  end.

Definition cow_handle_fault (pml4 fault_addr : Z) st : outcome (cow_result * cow_state) :=
  if negb (initialized st) then Ret (COW_ERR_NOT_INIT, st) else
  let st := with_stats (count_write_fault (stats st)) st in
  rq ← page_query pml4 fault_addr (mem st);
  let '(result, query) := rq : Page.page_result * page_query_result in
  if negb (bool_decide (result = PAGE_OK)) || negb (q_present query) then Ret (COW_ERR_NOT_COW, st) else
  if flag_set (q_flags query) PAGE_WRITE || negb (cow_is_cow_page (q_flags query)) then Ret (COW_ERR_NOT_COW, st) else
  let orig_phys := q_phys_addr query in
  block ← cow_lookup_block orig_phys st;
  if block =? 0 then Ret (COW_ERR_INVALID, st) else
  b ← access (blocks st !! block);
  if refcount b =? 1 then cow_make_writable pml4 fault_addr orig_phys (with_stats (count_coalesced (stats st)) st)
  else cow_copy_on_write pml4 fault_addr orig_phys st.

(** ** Regions *)
Definition register_page (pml4 base i : Z) st : outcome cow_state :=
  let vaddr := base ⊞ (i ⊠ PAGE_SIZE) in
  rq ← page_query pml4 vaddr (mem st);
  let '(result, query) := rq : Page.page_result * page_query_result in
  if negb (bool_decide (result = PAGE_OK)) || negb (q_present query) then Ret st else
  rs ← cow_add_page (q_phys_addr query) st;
  rs ← cow_inc_refcount (q_phys_addr query) (snd (rs : cow_result * cow_state));
  rs ← cow_mark_page_readonly pml4 vaddr (snd (rs : cow_result * cow_state));
  Ret (snd (rs : cow_result * cow_state)).
Definition cow_register_region (pml4 base size : Z) st : outcome (cow_result * cow_state) :=
  if negb (initialized st) then Ret (COW_ERR_NOT_INIT, st) else
  if negb (Z.land base (PAGE_SIZE - 1) =? 0) then Ret (COW_ERR_INVALID, st) else
  if negb (Z.land size (PAGE_SIZE - 1) =? 0) then Ret (COW_ERR_INVALID, st) else
  let page_count := size / PAGE_SIZE in
  st ← for_range 0 page_count (register_page pml4 base) st;
  let '(region, st) := kmalloc_next st in
  if region =? 0 then Ret (COW_ERR_OOM, st) else
  Ret (COW_OK, with_regions (mk_cow_region base page_count pml4 :: regions st) st).

(** The first matching region and the list without it. *)
Fixpoint take_region (pml4 base : Z) (rs : list cow_region) : option (cow_region * list cow_region) :=
  match rs with
  | [] => None
  | r :: rest =>
      if (cr_pml4 r =? pml4) && (cr_start r =? base) then Some (r, rest)
      else (λ x, (fst x, r :: snd x)) <$> take_region pml4 base rest
  end.
Definition unregister_page (pml4 start i : Z) st : outcome cow_state :=
  rq ← page_query pml4 (start ⊞ (i ⊠ PAGE_SIZE)) (mem st);
  let '(result, query) := rq : Page.page_result * page_query_result in
  if bool_decide (result = PAGE_OK) then
    rs ← cow_dec_refcount (q_phys_addr query) st; Ret (snd (rs : cow_result * cow_state))
  else Ret st.
Definition cow_unregister_region (pml4 base : Z) st : outcome (cow_result * cow_state) :=
  if negb (initialized st) then Ret (COW_ERR_NOT_INIT, st) else
  match take_region pml4 base (regions st) with
  | None => Ret (COW_ERR_NOT_COW, st)
  | Some (region, rest) =>
      st ← for_range 0 (page_count region) (unregister_page pml4 (cr_start region)) (with_regions rest st);
      Ret (COW_OK, st)
  end.

End Cow.

(** ** Page faults *)
Module Fault.
Import Cow.

Record page_fault_info := mk_info {
  fault_addr : Z; error_code : Z; i_present : bool; i_write : bool; i_user : bool; reserved_bit : bool; instruction_fetch : bool }.
Inductive pf_result := PF_SUCCESS | PF_NOT_OUR_FAULT | PF_OOM | PF_ACCESS_DENIED | PF_INVALID_ADDRESS | PF_KERNEL_PANIC.
#[export] Instance pf_result_eq_dec : EqDecision pf_result.
Proof. solve_decision. Defined.
Record pf_stats := mk_pstats {
  total_faults : Z; kernel_faults : Z; user_faults : Z; not_present_faults : Z; protection_faults : Z; write_faults : Z;
  handled_cow : Z; handled_demand : Z }.
Record fault_state := mk_fault { cow : cow_state; s_pf_stats : pf_stats; pf_initialized : bool }.
Implicit Types f : fault_state.

Definition PF_ERR_PRESENT := 1.
Definition PF_ERR_WRITE := 2.
Definition PF_ERR_USER := 4.
Definition PF_ERR_RESERVED := 8.
Definition PF_ERR_INSTR := 16.
Definition pf_parse_error_code (addr code : Z) : page_fault_info :=
  mk_info addr code (flag_set code PF_ERR_PRESENT) (flag_set code PF_ERR_WRITE) (flag_set code PF_ERR_USER)
    (flag_set code PF_ERR_RESERVED) (flag_set code PF_ERR_INSTR).

Definition with_cow (c : cow_state) f : fault_state := mk_fault c (s_pf_stats f) (pf_initialized f).
Definition with_pf_stats (x : pf_stats) f : fault_state := mk_fault (cow f) x (pf_initialized f).
Definition bump (b : bool) (n : Z) : Z := if b then n ⊞ 1 else n.
(** The counters at the head of [pf_handler]. *)
Definition count_fault (i : page_fault_info) (x : pf_stats) : pf_stats :=
  mk_pstats (total_faults x ⊞ 1) (bump (negb (i_user i)) (kernel_faults x)) (bump (i_user i) (user_faults x))
    (bump (negb (i_present i)) (not_present_faults x)) (bump (i_present i) (protection_faults x))
    (bump (i_write i) (write_faults x)) (handled_cow x) (handled_demand x).
Definition pf_init f : fault_state := if pf_initialized f then f else mk_fault (cow f) (s_pf_stats f) true.

Definition pf_handle_cow (pml4 addr : Z) f : outcome (pf_result * fault_state) :=
  rs ← cow_handle_fault pml4 addr (cow f);
  let '(result, c) := rs : cow_result * cow_state in
  let f := with_cow c f in
  if bool_decide (result = COW_OK) then
    let x := s_pf_stats f in
    Ret (PF_SUCCESS, with_pf_stats (mk_pstats (total_faults x) (kernel_faults x) (user_faults x) (not_present_faults x)
      (protection_faults x) (write_faults x) (handled_cow x ⊞ 1) (handled_demand x)) f)
  else Ret (PF_NOT_OUR_FAULT, f).
Definition pf_register_cow_region (pml4 base size : Z) f : outcome (vmm_result * fault_state) :=
  rs ← cow_register_region pml4 base size (cow f);
  let '(result, c) := rs : cow_result * cow_state in
  Ret (if bool_decide (result = COW_OK) then VMM_OK else VMM_ERR_INVALID, with_cow c f).
Definition pf_handle_demand_page (addr : Z) (user : bool) f : pf_result * fault_state :=
  let x := s_pf_stats f in
  (PF_NOT_OUR_FAULT, with_pf_stats (mk_pstats (total_faults x) (kernel_faults x) (user_faults x) (not_present_faults x)
     (protection_faults x) (write_faults x) (handled_cow x) (handled_demand x ⊞ 1)) f).

(** How the handler ends: it returns to the faulting instruction, ends the process
    by [proc_exit(SIGSEGV)], or halts the machine. *)
Inductive pf_end := Resume | ExitSegv | Halt.
#[export] Instance pf_end_eq_dec : EqDecision pf_end.
Proof. solve_decision. Defined.
(** [cr2] and [cr3] are the registers; [current] is the current process, if any,
    as its [is_user_mode]. *)
Definition pf_handler (cr2 cr3 error_code : Z) (current : option bool) f : outcome (pf_end * fault_state) :=
  _ ← ccos_assert (pf_initialized f);
  let info := pf_parse_error_code cr2 error_code in
  let f := with_pf_stats (count_fault info (s_pf_stats f)) f in
  if negb (vmm_is_canonical cr2) then Ret (Halt, f) else
  if reserved_bit info then Ret (Halt, f) else
  if negb (i_user info) then Ret (Halt, f) else
  rs ← (if i_present info && i_write info && negb (reserved_bit info)
        then pf_handle_cow (vmm_get_current_pml4 cr3) cr2 f else Ret (PF_NOT_OUR_FAULT, f));
  let '(cow_result, f) := rs : pf_result * fault_state in
  if bool_decide (cow_result = PF_SUCCESS) then Ret (Resume, f) else
  let '(demand_result, f) :=
    (if negb (i_present info) && vmm_is_user_addr cr2 then pf_handle_demand_page cr2 true f else (PF_NOT_OUR_FAULT, f)) in
  if bool_decide (demand_result = PF_SUCCESS) then Ret (Resume, f) else
  match current with
  | Some true => Ret (ExitSegv, f)
  | _ => Ret (Halt, f)
  end.
End Fault.
Import Cow Fault.

(** ** Reference counts as a function of frames *)

(** The count of the frame at [p], 0 when it is not tracked. *)
Definition counts_for (p : Z) (b : cow_block) : Z := if orig_phys b =? p then refcount b else 0.
Definition refs (bs : gmap Z cow_block) (p : Z) : Z := map_fold (λ _ b acc, counts_for p b + acc) 0 bs.
Lemma refs_insert bs a b p : bs !! a = None → refs (<[a := b]> bs) p = counts_for p b + refs bs p.
Proof. intros Ha. unfold refs. rewrite map_fold_insert_L; [done|intros; lia|done]. Qed.
Lemma refs_delete bs a b p : bs !! a = Some b → refs bs p = counts_for p b + refs (delete a bs) p.
Proof. intros Ha. rewrite <- (insert_delete_id _ _ _ Ha) at 1. apply refs_insert, lookup_delete_eq. Qed.
Lemma refs_update bs a b b' p : bs !! a = Some b →
  refs (<[a := b']> bs) p = refs bs p - counts_for p b + counts_for p b'.
Proof.
  intros Ha. rewrite <- insert_delete_eq, (refs_insert _ _ _ _ (lookup_delete_eq _ _)), (refs_delete bs a b p Ha). lia.
Qed.

(** Every tracked frame has one block, counted at least once, and the map holds
    exactly the blocks. *)
Record cow_inv (st : cow_state) : Prop := {
  ci_init : Cow.initialized st = true;
  ci_map : ∃ m, page_map st = Some m ∧ wf (h := ptr_key) m ∧
    ∀ k v, lookup_key (h := ptr_key) m k = Some v ↔ k = v ∧ is_Some (blocks st !! k);
  ci_null : blocks st !! 0 = None;
  ci_inj a a' b b' : blocks st !! a = Some b → blocks st !! a' = Some b' → orig_phys b = orig_phys b' → a = a';
  ci_block a b : blocks st !! a = Some b → page_of (orig_phys b) = orig_phys b ∧ 1 ≤ refcount b ≤ COW_MAX_REFCOUNT;
  ci_count : cow_current_blocks (stats st) = u64 (Z.of_nat (base.size (blocks st))) }.
(** The next block from the heap is not in use. *)
Definition heap_fresh st : Prop := ∀ a, head (kmallocs st) = Some a → a ≠ 0 → blocks st !! a = None.
(** [kmalloc] will answer both calls a new frame makes: the block and the entry of the map. *)
Definition heap_gives_two st : bool :=
  negb (default 0 (head (kmallocs st)) =? 0) && negb (default 0 (head (tail (kmallocs st))) =? 0).

Lemma page_of_idem p : page_of (page_of p) = page_of p.
Proof. unfold page_of. by rewrite <- Z.land_assoc, Z.land_diag. Qed.
Lemma refs_absent bs p : (∀ a b, bs !! a = Some b → orig_phys b ≠ p) → refs bs p = 0.
Proof.
  induction bs as [|a b bs Ha IH] using map_ind; intros Hn; [done|]. rewrite refs_insert by done.
  unfold counts_for. destruct (Z.eqb_spec (orig_phys b) p) as [He|].
  - by destruct (Hn a b (lookup_insert_eq _ _ _)).
  - apply IH. intros a' b' Ha'. apply (Hn a'). rewrite lookup_insert_ne by congruence. done.
Qed.
Lemma refs_present st a b : cow_inv st → blocks st !! a = Some b → refs (blocks st) (orig_phys b) = refcount b.
Proof.
  intros Hi Ha. rewrite (refs_delete _ _ _ _ Ha), refs_absent.
  - unfold counts_for. rewrite Z.eqb_refl. lia.
  - intros a' b' [Hne Ha']%lookup_delete_Some He. apply Hne. by eapply ci_inj.
Qed.

(** The search through the map. *)
Lemma search_spec bs p es n : (∀ k v, (k, v) ∈ es → is_Some (bs !! v) ∧ v ≠ 0) →
  ∃ a, snd (foreach_loop (search_by_phys_iterator bs p) es n (Ret 0)) = Ret a ∧
    ((a = 0 ∧ ∀ k v b, (k, v) ∈ es → bs !! v = Some b → orig_phys b ≠ p) ∨
     (a ≠ 0 ∧ ∃ b, bs !! a = Some b ∧ orig_phys b = p)).
Proof.
  revert n. induction es as [|[k v] es IH]; intros n Hes.
  { exists 0. split; [done|]. left. split; [done|]. by intros ? ? ? ?%not_elem_of_nil. }
  destruct (Hes k v) as [[b Hb] Hv0]; [by left|]. cbn [foreach_loop]. unfold search_by_phys_iterator at 1. rewrite Hb.
  destruct (Z.eqb_spec (orig_phys b) p) as [He|He].
  - exists v. split; [done|]. right. split; [done|]. by exists b.
  - destruct (IH (n ⊞ 1)) as (a & -> & Ha); [intros k' v' Hin; apply (Hes k'); by right|].
    exists a. split; [done|]. destruct Ha as [[-> Hn]|Ha]; [left|by right]. split; [done|].
    intros k' v' b' [[= -> ->]|Hin]%elem_of_cons Hb'; [congruence|by eapply Hn].
Qed.
Lemma find_block_spec st phys : cow_inv st → ∃ a, find_block_by_phys phys st = Ret a ∧
  ((a = 0 ∧ refs (blocks st) (page_of phys) = 0) ∨
   (a ≠ 0 ∧ ∃ n, blocks st !! a = Some (mk_block (page_of phys) n) ∧ refs (blocks st) (page_of phys) = n ∧
      1 ≤ n ≤ COW_MAX_REFCOUNT)).
Proof.
  intros Hi. destruct (ci_map _ Hi) as (m & Hm & Hw & Hl). unfold find_block_by_phys. rewrite (ci_init _ Hi), Hm.
  cbn [hashmap_foreach].
  destruct (search_spec (blocks st) (page_of phys) (entries m) 0) as (a & He & Ha).
  { intros k v Hin%entry_lookup; [|done]. apply Hl in Hin as [-> Hs]. split; [done|]. intros ->.
    rewrite (ci_null _ Hi) in Hs. by destruct Hs. }
  exists a. split; [exact He|]. destruct Ha as [[-> Hn]|(Ha & b & Hb & Ho)]; [left|right].
  - split; [done|]. apply refs_absent. intros a b Hb.
    destruct (lookup_entry m a a) as (k & _ & Hk); [apply Hl; by split; [|exists b]|]. by eapply Hn.
  - split; [done|]. exists (refcount b). destruct b as [o n]. cbn in Ho. subst o. split; [done|].
    split; [apply (refs_present _ _ _ Hi Hb)|apply (ci_block _ Hi _ _ Hb)].
Qed.

(** One count changed and nothing else. *)
Definition counted (p n : Z) st st' : Prop :=
  refs (blocks st') p = n ∧ (∀ q, q ≠ p → refs (blocks st') q = refs (blocks st) q) ∧ mem st' = mem st.
Lemma counts_for_self p n : counts_for p (mk_block p n) = n.
Proof. unfold counts_for. cbn. by rewrite Z.eqb_refl. Qed.
Lemma counts_for_other p q n : q ≠ p → counts_for q (mk_block p n) = 0.
Proof. intros Hq. unfold counts_for. cbn. destruct (Z.eqb_spec p q); [congruence|done]. Qed.

Lemma update_block_spec st a p n n' : cow_inv st → blocks st !! a = Some (mk_block p n) → 1 ≤ n' ≤ COW_MAX_REFCOUNT →
  let st' := with_blocks (<[a := mk_block p n']> (blocks st)) st in cow_inv st' ∧ counted p n' st st'.
Proof.
  intros Hi Ha Hn. cbv zeta. split.
  - split; cbn [blocks with_blocks Cow.initialized page_map stats].
    + apply Hi.
    + destruct (ci_map _ Hi) as (m & Hm & Hw & Hl). exists m. split_and!; [done..|]. intros k v. rewrite Hl, lookup_insert_is_Some'.
      split; [intros [? ?]; auto|]. intros [? [<-|?]]; [|done]. split; [done|by eexists].
    + rewrite lookup_insert_ne; [apply Hi|]. intros ->. by rewrite (ci_null _ Hi) in Ha.
    + intros b b' x x' [[<- <-]|[Hb Hx]]%lookup_insert_Some [[<- <-]|[Hb' Hx']]%lookup_insert_Some Ho; try done.
      * by apply (ci_inj _ Hi _ _ _ _ Ha Hx').
      * by apply (ci_inj _ Hi _ _ _ _ Hx Ha).
      * by apply (ci_inj _ Hi _ _ _ _ Hx Hx').
    + intros b x [[<- <-]|[Hb Hx]]%lookup_insert_Some; [|by apply (ci_block _ Hi b)].
      split; [apply (ci_block _ Hi _ _ Ha)|done].
    + rewrite map_size_insert_Some by eauto. apply Hi.
  - split_and!; [| |done]; cbn [blocks with_blocks].
    + rewrite (refs_update _ _ _ _ _ Ha), !counts_for_self, (refs_present _ _ _ Hi Ha : refs (blocks st) p = n). lia.
    + intros q Hq. rewrite (refs_update _ _ _ _ _ Ha), !counts_for_other by done. lia.
Qed.

Lemma inc_spec st phys : cow_inv st → let p := page_of phys in let n := refs (blocks st) p in
  ∃ r st', cow_inc_refcount phys st = Ret (r, st') ∧ cow_inv st' ∧ kmallocs st' = kmallocs st ∧
    if n =? 0 then r = COW_ERR_NOT_COW ∧ st' = st
    else if n =? COW_MAX_REFCOUNT then r = COW_ERR_MAX_REFCOUNT ∧ st' = st
    else r = COW_OK ∧ counted p (n + 1) st st'.
Proof.
  intros Hi p n. unfold cow_inc_refcount, cow_lookup_block. rewrite (ci_init _ Hi). cbn [negb].
  destruct (find_block_spec st (page_of phys) Hi) as (a & -> & Ha). rewrite page_of_idem in Ha. fold p n in Ha.
  rewrite outcome_bind_ret. destruct Ha as [[-> Hn]|(Ha & n' & Hb & <- & Hn)].
  { exists COW_ERR_NOT_COW, st. rewrite Hn. by split_and!. }
  destruct (Z.eqb_spec a 0); [done|]. rewrite Hb. cbn [access]. rewrite outcome_bind_ret. cbn [refcount orig_phys].
  destruct (Z.eqb_spec n 0); [lia|]. destruct (Z.eqb_spec n COW_MAX_REFCOUNT) as [He|He].
  - destruct (Z.leb_spec COW_MAX_REFCOUNT n); [|lia]. exists COW_ERR_MAX_REFCOUNT, st. by split_and!.
  - destruct (Z.leb_spec COW_MAX_REFCOUNT n); [lia|].
    rewrite s32_small by (unfold COW_MAX_REFCOUNT in *; lia).
    destruct (update_block_spec st a p n (n + 1) Hi Hb) as [Hi' Hc]; [lia|]. eexists COW_OK, _. split; [done|]. by split_and!.
Qed.

(** Removing the block of a frame, from the map and from the heap. *)
Lemma remove_block_spec st a p n m x : cow_inv st → blocks st !! a = Some (mk_block p n) → page_map st = Some m →
  hashmap_remove (h := ptr_key) (Some m) a = Ret x →
  let st' := Cow.with_stats (count_freed (stats st)) (with_blocks (delete a (blocks st)) (with_map (snd x) st)) in
  cow_inv st' ∧ counted p 0 st st'.
Proof.
  intros Hi Ha Hm Hx. cbv zeta. destruct (ci_map _ Hi) as (m0 & Hm0 & Hw & Hl). assert (m0 = m) as -> by congruence.
  assert (a ≠ 0) as Ha0 by (intros ->; by rewrite (ci_null _ Hi) in Ha).
  destruct (hashmap_remove_spec (h := ptr_key) m a Hw Ha0) as (m' & Hx' & Hw' & Hl' & _). rewrite Hx' in Hx. injection Hx as <-.
  split.
  - split; cbn [blocks with_blocks with_map Cow.with_stats Cow.initialized page_map stats snd].
    + apply Hi.
    + exists m'. split_and!; [done..|]. intros k v. rewrite Hl'. cbn. unfold eq_ptr. destruct (Z.eqb_spec a k) as [<-|Hne].
      * rewrite lookup_delete_eq. split; [done|]. intros [_ [? ?]]. done.
      * rewrite lookup_delete_ne by done. apply Hl.
    + rewrite lookup_delete_ne by done. apply Hi.
    + intros b b' y y' [_ Hb]%lookup_delete_Some [_ Hb']%lookup_delete_Some. by apply (ci_inj _ Hi).
    + intros b y [_ Hb]%lookup_delete_Some. by apply (ci_block _ Hi b).
    + cbn [cow_current_blocks count_freed]. rewrite (ci_count _ Hi), map_size_delete_Some by eauto.
      assert (base.size (blocks st) ≠ 0%nat) by (rewrite map_size_ne_0_lookup; eauto).
      unfold u64. rewrite Zminus_mod_idemp_l. f_equal. lia.
  - split_and!; [| |done]; cbn [blocks with_blocks Cow.with_stats].
    + pose proof (refs_delete _ _ _ p Ha) as Hd. rewrite counts_for_self in Hd.
      rewrite (refs_present _ _ _ Hi Ha : refs (blocks st) p = n) in Hd. lia.
    + intros q Hq. rewrite (refs_delete _ _ _ q Ha), counts_for_other by done. lia.
Qed.
Lemma dec_spec st phys : cow_inv st → let p := page_of phys in let n := refs (blocks st) p in
  ∃ r st', cow_dec_refcount phys st = Ret (r, st') ∧ cow_inv st' ∧ kmallocs st' = kmallocs st ∧
    if n =? 0 then r = COW_ERR_NOT_COW ∧ st' = st else r = COW_OK ∧ counted p (n - 1) st st'.
Proof.
  intros Hi p n. unfold cow_dec_refcount, cow_lookup_block. rewrite (ci_init _ Hi). cbn [negb].
  destruct (find_block_spec st (page_of phys) Hi) as (a & -> & Ha). rewrite page_of_idem in Ha. fold p n in Ha.
  rewrite outcome_bind_ret. destruct Ha as [[-> Hn]|(Ha & n' & Hb & <- & Hn)].
  { exists COW_ERR_NOT_COW, st. rewrite Hn. by split_and!. }
  destruct (Z.eqb_spec a 0); [done|]. rewrite Hb. cbn [access]. rewrite outcome_bind_ret. cbn [refcount orig_phys].
  destruct (Z.eqb_spec n 0); [lia|]. rewrite s32_small by (unfold COW_MAX_REFCOUNT in *; lia).
  destruct (ci_map _ Hi) as (m & Hm & Hw & _). cbn [page_map with_blocks].
  destruct (hashmap_remove_spec (h := ptr_key) m a Hw Ha) as (m' & Hrm & _).
  destruct (Z.eqb_spec (n - 1) 0) as [Hz|Hz].
  - rewrite Hm, Hrm, outcome_bind_ret. eexists COW_OK, _. split; [done|]. cbn [snd blocks with_map with_blocks stats].
    destruct (remove_block_spec st a p n m _ Hi Hb Hm Hrm) as [Hi' Hc]. rewrite delete_insert_eq, Hz. by split_and!.
  - destruct (update_block_spec st a p n (n - 1) Hi Hb) as [Hi' Hc]; [lia|]. eexists COW_OK, _. split; [done|]. by split_and!.
Qed.

(** A new block of count 1 for a frame that had none. *)
Lemma new_block_spec st a p m x : cow_inv st → page_of p = p → refs (blocks st) p = 0 → a ≠ 0 → blocks st !! a = None →
  page_map st = Some m → hashmap_put (h := ptr_key) (Some m) a a true = Ret x →
  let st' := Cow.with_stats (count_allocated (stats st)) (with_map (snd x) (with_blocks (<[a := mk_block p 1]> (blocks st)) st)) in
  fst x = 0 ∧ cow_inv st' ∧ counted p 1 st st'.
Proof.
  intros Hi Hp Hr Ha0 Ha Hm Hx. cbv zeta. destruct (ci_map _ Hi) as (m0 & Hm0 & Hw & Hl). assert (m0 = m) as -> by congruence.
  destruct (hashmap_put_spec (h := ptr_key) m a a true Hw Ha0) as (m' & Hx' & Hw' & Hl' & _); [by right|].
  rewrite Hx' in Hx. injection Hx as <-.
  assert (∀ b y, blocks st !! b = Some y → orig_phys y ≠ p) as Hno.
  { intros b y Hb <-. rewrite (refs_present _ _ _ Hi Hb) in Hr. pose proof (proj2 (ci_block _ Hi _ _ Hb)). lia. }
  split; [done|]. split.
  - split; cbn [blocks with_blocks with_map Cow.with_stats Cow.initialized page_map stats snd].
    + apply Hi.
    + exists m'. split_and!; [done..|]. intros k v. rewrite Hl'. cbn. unfold eq_ptr. destruct (Z.eqb_spec a k) as [<-|Hne].
      * rewrite lookup_insert_eq. split; [intros [= <-]; by eauto|by intros [<- _]].
      * rewrite lookup_insert_ne by done. apply Hl.
    + rewrite lookup_insert_ne by done. apply Hi.
    + intros b b' y y' [[<- <-]|[Hb Hy]]%lookup_insert_Some [[<- <-]|[Hb' Hy']]%lookup_insert_Some Ho; try done.
      * by destruct (Hno _ _ Hy').
      * by destruct (Hno _ _ Hy).
      * by apply (ci_inj _ Hi _ _ _ _ Hy Hy').
    + intros b y [[<- <-]|[Hb Hy]]%lookup_insert_Some; [|by apply (ci_block _ Hi b)].
      split; [done|]. cbn. unfold COW_MAX_REFCOUNT. lia.
    + cbn [cow_current_blocks count_allocated]. rewrite (ci_count _ Hi), map_size_insert_None by done.
      unfold u64. rewrite Zplus_mod_idemp_l. f_equal. lia.
  - split_and!; [| |done]; cbn [blocks with_blocks with_map Cow.with_stats].
    + rewrite refs_insert, counts_for_self, Hr by done. done.
    + intros q Hq. rewrite refs_insert, counts_for_other by done. lia.
Qed.
Lemma add_spec st phys : cow_inv st → heap_fresh st → let p := page_of phys in let n := refs (blocks st) p in
  ∃ r st', cow_add_page phys st = Ret (r, st') ∧ cow_inv st' ∧
    if n =? COW_MAX_REFCOUNT then r = COW_ERR_MAX_REFCOUNT ∧ st' = st
    else if (n =? 0) && negb (heap_gives_two st) then r = COW_ERR_OOM ∧ counted p 0 st st'
    else r = COW_OK ∧ counted p (n + 1) st st'.
Proof.
  intros Hi Hf p n. unfold cow_add_page. rewrite (ci_init _ Hi). cbn [negb].
  destruct (find_block_spec st (page_of phys) Hi) as (a & -> & Ha). rewrite page_of_idem in Ha. fold p n in Ha.
  rewrite outcome_bind_ret. destruct Ha as [[-> Hn]|(Ha & n' & Hb & <- & Hn)].
  2: { destruct (Z.eqb_spec a 0); [done|]. cbn [negb]. fold p.
       destruct (inc_spec st p Hi) as (r & st' & -> & Hi' & _ & Hr). unfold p in Hr. rewrite page_of_idem in Hr. fold p n in Hr.
       exists r, st'. split; [done|]. split; [done|]. by destruct (Z.eqb_spec n 0); [lia|]. }
  rewrite Hn. cbn [Z.eqb COW_MAX_REFCOUNT andb]. unfold heap_gives_two.
  cbn [Z.eqb negb kmalloc_next fst snd]. set (b := default 0 (head (kmallocs st))). fold p.
  set (st1 := mk_cow _ _ _ _ _ _ _). assert (cow_inv st1) as Hi1 by (destruct Hi; by split).
  assert (counted p 0 st st1) as Hc1 by (by split_and!).
  destruct (Z.eqb_spec b 0) as [Hb|Hb]; [exists COW_ERR_OOM, st1; by split_and!|]. cbn [negb andb].
  assert (blocks st !! b = None) as Hfr.
  { apply Hf; [|done]. unfold b in *. destruct (head (kmallocs st)); [done|by destruct Hb]. }
  destruct (ci_map _ Hi) as (m & Hm & Hw & Hl). cbn [page_map with_blocks st1 mem blocks regions stats Cow.initialized kmallocs].
  rewrite Hm. set (e := negb (_ =? 0)).
  assert (lookup_key (h := ptr_key) m b = None) as Hnone.
  { destruct (lookup_key m b) eqn:E; [|done]. apply Hl in E as [_ [? ?]]. congruence. }
  destruct e.
  - destruct (hashmap_put_spec (h := ptr_key) m b b true Hw Hb) as (m' & Hput & _); [by right|]. rewrite Hput, outcome_bind_ret.
    cbn [negb Z.eqb]. eexists COW_OK, _. split; [done|].
    set (st2 := mk_cow (mem st) (page_map st) (blocks st) (regions st) (stats st) (Cow.initialized st) (tail (tail (kmallocs st)))).
    assert (cow_inv st2) as Hi2 by (destruct Hi; by split).
    destruct (new_block_spec st2 b p m (0, Some m') Hi2 (page_of_idem phys) Hn Hb Hfr Hm Hput) as (_ & Hi' & Hc).
    split; [exact Hi'|]. split; [done|]. exact Hc.
  - rewrite (put_oom (h := ptr_key) m b b Hw Hb Hnone), outcome_bind_ret. cbn [negb Z.eqb].
    eexists COW_ERR_OOM, _. split; [done|]. cbn [blocks with_map with_blocks]. rewrite delete_insert_id by done.
    split; [|by split_and!]. destruct Hi; split; cbn [blocks with_map with_blocks]; try done. by exists m.
Qed.

(** ** Memory that is not a table *)

(** A change of memory and frames that no table is part of. *)
Record data_change (root : Z) (p p' : page_state) : Prop := {
  dc_tab u k t i : tabs 3 (phys_mem p) root u !! k = Some t → 0 ≤ i < 512 → phys_mem p' !! (t + 8 * i) = phys_mem p !! (t + 8 * i);
  dc_dom : dom (phys_mem p') = dom (phys_mem p);
  dc_inv : Pframe.inv (frames p');
  dc_total : total_frames (frames p') = total_frames (frames p);
  dc_init : Pframe.initialized (frames p') = Pframe.initialized (frames p);
  dc_kept f : 0 ≤ f < total_frames (frames p) → allocated (frames p) f = true → allocated (frames p') f = true;
  dc_flags : Page.s_initialized p' = Page.s_initialized p ∧ s_direct_map_established p' = s_direct_map_established p }.
Lemma data_walk root p p' u : data_change root p p' →
  mmu p' root u = mmu p root u ∧ tabs 3 (phys_mem p') root u = tabs 3 (phys_mem p) root u.
Proof. intros Hd. apply walk_agree. intros k a Ha. eapply (dc_tab _ _ _ Hd); [done|apply idx_range]. Qed.
Lemma data_reads root p p' u k t e : data_change root p p' →
  reads (phys_mem p') root u k t e ↔ reads (phys_mem p) root u k t e.
Proof.
  intros Hd. unfold reads. rewrite (proj2 (data_walk _ _ _ u Hd)). split; intros [Ht He]; (split; [done|]);
    by rewrite (dc_tab _ _ _ Hd u k t _ Ht (idx_range _ _)) in *.
Qed.
Lemma data_inv root p p' : data_change root p p' → page_inv p root → page_inv p' root.
Proof.
  intros Hd Hs. split.
  - apply Hd.
  - rewrite (dc_init _ _ _ Hd). apply Hs.
  - apply (dc_kept _ _ _ Hd); [|apply Hs]. destruct (pi_tab _ _ Hs 0 0 root) as (f & _ & Hf & _); [done|]. lia.
  - intros w Hw Hw8. rewrite <- elem_of_dom, (dc_dom _ _ _ Hd), elem_of_dom. apply (pi_mem _ _ Hs); [|done].
    by rewrite (dc_total _ _ _ Hd) in Hw.
  - intros v k t. rewrite (proj2 (data_walk _ _ _ v Hd)). intros (f & -> & Hf & Ha)%(pi_tab _ _ Hs).
    exists f. rewrite (dc_total _ _ _ Hd). split_and!; [done|lia|lia|]. apply (dc_kept _ _ _ Hd); [lia|done].
  - intros v k t e He%(data_reads _ _ _ _ _ _ _ Hd). by apply (pi_absent _ _ Hs v k t e).
  - destruct (dc_flags _ _ _ Hd) as [-> ->]. apply Hs.
Qed.
Lemma data_private root p p' v : data_change root p p' → private (phys_mem p) root v → private (phys_mem p') root v.
Proof. intros Hd Hp u j k a. rewrite !(proj2 (data_walk _ _ _ _ Hd)). apply Hp. Qed.
Lemma data_no_huge root p p' v : data_change root p p' → no_huge p root v → no_huge p' root v.
Proof. intros Hd Hn k a e Hk He%(data_reads _ _ _ _ _ _ _ Hd). by eapply Hn. Qed.

(** A mapping that is already there is never replaced by [page_map_page]. *)
Lemma map_present p root v q flags : page_inv p root → private (phys_mem p) root v → no_huge p root v → mmu p root v ≠ None →
  0 ≤ q < 2 ^ 52 → ∃ r p', page_map_page root v q flags false p = Ret (r, p') ∧ r ≠ PAGE_OK ∧ page_inv p' root ∧
    (∀ u, mmu p' root u = mmu p root u).
Proof.
  intros Hs Hp Hn Hm Hq. destruct (page_map_page_spec p root v q flags false Hs Hp Hq) as (r & p' & -> & Hr).
  { intros a e _. apply Hn. by left. }
  exists r, p'. split; [done|]. destruct (_ && _); [by destruct Hr as [-> ->]|].
  destruct (decide _); [|by destruct Hr as [-> ->]]. destruct Hr as (Hs' & _ & _ & _ & Hr).
  destruct (decide (r = PAGE_OK)) as [->|Hne]; [by destruct Hm; apply Hr|]. split_and!; [done|done|].
  destruct r; [done|apply Hr..].
Qed.
Lemma invalidate_inv p root v : page_inv p root → page_inv (page_invalidate_tlb v p) root.
Proof. intros [? ? ? ? ? ? ?]. by split. Qed.
Lemma frame_addr_range e : 0 ≤ frame_addr e < 2 ^ 52 ∧ frame_addr e mod 4096 = 0.
Proof.
  unfold frame_addr, frame, PAGE_SHIFT. rewrite Z.land_ones, Z.shiftl_mul_pow2 by lia.
  pose proof (Z.mod_pos_bound (Z.shiftr e 12) (2 ^ 40)). split; [lia|]. apply Z.mod_mul. lia.
Qed.

Lemma page_of_aligned x : is_u64 x → x mod 4096 = 0 → page_of x = x.
Proof.
  intros Hx Hm. unfold page_of. change (PAGE_SIZE - 1) with (2 ^ 12 - 1). rewrite lnot_mask_land by (done || lia).
  change (2 ^ 12) with 4096. pose proof (Z.div_mod x 4096). lia.
Qed.
Lemma with_mem_inv st p : cow_inv st → cow_inv (Cow.with_mem p st).
Proof. intros [? ? ? ? ? ?]. by split. Qed.
Lemma with_stats_inv st x : cow_inv st → cow_current_blocks x = cow_current_blocks (stats st) → cow_inv (Cow.with_stats x st).
Proof. intros [? ? ? ? ? ?] Hx. split; try done. cbn. by rewrite Hx. Qed.

(** What a fault needs to find: tables in order, no huge page at the address, and
    tracked frames that the frame allocator knows as taken. *)
Record fault_ready (pml4 v : Z) st : Prop := {
  fy_cow : cow_inv st;
  fy_pages : page_inv (mem st) pml4;
  fy_private : private (phys_mem (mem st)) pml4 v;
  fy_small : no_huge (mem st) pml4 v;
  fy_frames a b : blocks st !! a = Some b →
    ∃ g, orig_phys b = 4096 * g ∧ 0 ≤ g < total_frames (frames (mem st)) ∧ allocated (frames (mem st)) g = true }.

Lemma copy_on_write_spec pml4 v g st : fault_ready pml4 v st → mmu (mem st) pml4 v ≠ None →
  0 ≤ g < total_frames (frames (mem st)) → allocated (frames (mem st)) g = true → refs (blocks st) (4096 * g) ≠ 0 →
  ∃ r st', cow_copy_on_write pml4 v (4096 * g) st = Ret (r, st') ∧ cow_inv st' ∧ page_inv (mem st') pml4 ∧
    (∀ u, mmu (mem st') pml4 u = mmu (mem st) pml4 u) ∧
    if decide (r = COW_OK) then refs (blocks st') (4096 * g) = refs (blocks st) (4096 * g) - 1
    else r = COW_ERR_OOM ∧ blocks st' = blocks st.
Proof.
  intros [Hi Hs Hp Hn _] Hm Hg Hga Hr. unfold cow_copy_on_write. pose proof (inv_small _ (pi_frames _ _ Hs)) as Hsm.
  destruct (pframe_alloc_cases (frames (mem st)) (pi_frames _ _ Hs) (pi_init _ _ Hs))
    as [(f & x & -> & Hf & Hfree & Hch & Hx)|[-> _]]; rewrite outcome_bind_ret.
  2: { exists COW_ERR_OOM, st. split; [by destruct st as [[]]|]. rewrite decide_False by done. by split_and!. }
  rewrite frame_to_addr_mul by lia. assert (f ≠ g) by congruence.
  assert (∀ h i, 0 ≤ h < total_frames (frames (mem st)) → 0 ≤ i < 512 → is_Some (phys_mem (mem st) !! (4096 * h + 8 * i))) as Hmem.
  { intros h i Hh Hi'. apply (pi_mem _ _ Hs); [lia|]. replace (4096 * h + 8 * i) with ((512 * h + i) * 8) by lia. apply Z.mod_mul. lia. }
  destruct (copy_entries_spec 0 512 (4096 * g) (4096 * f) (with_frames x (mem st))) as (m & Hcp & _ & Ho & Hdm);
    [lia..|intros i Hi'; split; by apply Hmem|]. cbn [phys_mem with_frames] in Ho, Hdm.
  unfold copy_page. rewrite Hcp, outcome_bind_ret. set (p := Page.with_mem m _). pose proof Hch as (Ht & Hin & _).
  assert (data_change pml4 (mem st) p) as Hd.
  { split; try done.
    - intros u k t i Hu Hi'. destruct (pi_tab _ _ Hs _ _ _ Hu) as (h & -> & Hh & Ha). apply Ho. assert (h ≠ f) by congruence. lia.
    - intros h Hh Ha. cbn. rewrite (changed_other _ _ _ _ _ Hch Hh); [done|congruence]. }
  assert (page_of (4096 * g) = 4096 * g) as Hpo.
  { apply page_of_aligned; [unfold is_u64; lia|]. rewrite Z.mul_comm. apply Z.mod_mul. lia. }
  destruct (dec_spec (Cow.with_mem p st) (4096 * g) (with_mem_inv _ p Hi)) as (r & st2 & -> & Hi2 & _ & Hdec).
  rewrite Hpo in Hdec. cbn [blocks Cow.with_mem] in Hdec. destruct (Z.eqb_spec (refs (blocks st) (4096 * g)) 0); [done|].
  destruct Hdec as [-> (Hr2 & _ & Hm2)]. cbn [mem Cow.with_mem] in Hm2. rewrite outcome_bind_ret. cbn [snd]. rewrite Hm2.
  pose proof (data_inv _ _ _ Hd Hs) as Hs'. pose proof (data_no_huge _ _ _ _ Hd Hn) as Hn'.
  destruct (page_query_spec p pml4 v Hs' Hn') as [-> _]. rewrite outcome_bind_ret.
  destruct (query_outcome (mmu p pml4 v)) as [res query]. set (flags := if bool_decide (res = PAGE_OK) then _ else _).
  destruct (map_present p pml4 v (4096 * f) flags Hs' (data_private _ _ _ _ Hd Hp) Hn') as (rm & p' & -> & _ & Hs2 & Hmm);
    [by rewrite (proj1 (data_walk _ _ _ v Hd))|lia|].
  rewrite outcome_bind_ret. eexists COW_OK, _. split; [done|]. rewrite decide_True by done.
  cbn [mem Cow.with_stats Cow.with_mem snd blocks stats]. split_and!.
  - apply with_stats_inv; [by apply with_mem_inv|done].
  - by apply invalidate_inv.
  - intros u. change (mmu p' pml4 u = mmu (mem st) pml4 u). rewrite Hmm. apply (data_walk _ _ _ u Hd).
  - done.
Qed.

(** C13: The reference counts of copy on write refine a function from frames to
    counts, 0 for a frame that is not shared: [cow_add_page] adds one up to the limit
    and refuses with [COW_ERR_OOM] exactly when the frame is not tracked yet and
    [kmalloc] refuses the block or the entry of the map, [cow_inc_refcount] adds one up to
    the limit, [cow_dec_refcount] takes one away and stops tracking at zero,
    [cow_get_refcount] reads it, each reporting exactly the errors that apply
    and keeping the hash map, the blocks and the counter of blocks consistent. *)
Theorem cow_refcounts_refine_function st phys : cow_inv st → heap_fresh st →
  let p := page_of phys in let n := refs (blocks st) p in
  (∃ r st', cow_add_page phys st = Ret (r, st') ∧ cow_inv st' ∧
     if n =? COW_MAX_REFCOUNT then r = COW_ERR_MAX_REFCOUNT ∧ st' = st
     else if (n =? 0) && negb (heap_gives_two st) then r = COW_ERR_OOM ∧ counted p 0 st st'
     else r = COW_OK ∧ counted p (n + 1) st st') ∧
  (∃ r st', cow_inc_refcount phys st = Ret (r, st') ∧ cow_inv st' ∧
     if n =? 0 then r = COW_ERR_NOT_COW ∧ st' = st
     else if n =? COW_MAX_REFCOUNT then r = COW_ERR_MAX_REFCOUNT ∧ st' = st
     else r = COW_OK ∧ counted p (n + 1) st st') ∧
  (∃ r st', cow_dec_refcount phys st = Ret (r, st') ∧ cow_inv st' ∧
     if n =? 0 then r = COW_ERR_NOT_COW ∧ st' = st else r = COW_OK ∧ counted p (n - 1) st st') ∧
  cow_get_refcount phys st = Ret (if n =? 0 then (COW_ERR_NOT_COW, None) else (COW_OK, Some n)).
Proof.
  intros Hi Hf p n. split; [by apply add_spec|]. split.
  { destruct (inc_spec st phys Hi) as (r & st' & ? & ? & _ & ?). by exists r, st'. }
  split.
  { destruct (dec_spec st phys Hi) as (r & st' & ? & ? & _ & ?). by exists r, st'. }
  unfold cow_get_refcount, cow_lookup_block. rewrite (ci_init _ Hi). cbn [negb].
  destruct (find_block_spec st (page_of phys) Hi) as (a & -> & Ha). rewrite page_of_idem in Ha. fold p n in Ha.
  rewrite outcome_bind_ret. destruct Ha as [[-> Hn]|(Ha & n' & Hb & <- & Hn)]; [by rewrite Hn|].
  destruct (Z.eqb_spec a 0); [done|]. rewrite Hb. cbn [access]. rewrite outcome_bind_ret. cbn [refcount].
  destruct (Z.eqb_spec n 0); [lia|]. unfold u16, COW_MAX_REFCOUNT in *. by rewrite Z.mod_small by lia.
Qed.

(** [cow_handle_fault] never gives the faulting program a writable page: the
    new mapping is made with [page_map_page], which refuses an address that is
    mapped. Whatever it reports, every translation is as before; when it reports
    success a count has been taken from the shared frame, and with a single
    owner left it always fails. *)
Theorem cow_handle_fault_changes_no_translation pml4 v st : fault_ready pml4 v st →
  ∃ r st', cow_handle_fault pml4 v st = Ret (r, st') ∧ cow_inv st' ∧ page_inv (mem st') pml4 ∧
    (∀ u, mmu (mem st') pml4 u = mmu (mem st) pml4 u) ∧
    (r = COW_OK → ∃ pa e, mmu (mem st) pml4 v = Some (pa, e) ∧ 1 < refs (blocks st) (frame_addr e) ∧
       refs (blocks st') (frame_addr e) = refs (blocks st) (frame_addr e) - 1).
Proof.
  intros [Hi Hs Hp Hn Hfr]. unfold cow_handle_fault. rewrite (ci_init _ Hi). cbn [negb].
  set (st1 := Cow.with_stats _ st). assert (cow_inv st1) as Hi1 by (by apply with_stats_inv).
  cbn [mem st1 Cow.with_stats]. destruct (page_query_spec (mem st) pml4 v Hs Hn) as [-> Hpa]. rewrite outcome_bind_ret.
  assert (∀ r, r ≠ COW_OK → ∃ r' st', Ret (r, st1) = Ret (r', st') ∧ cow_inv st' ∧ page_inv (mem st') pml4 ∧
    (∀ u, mmu (mem st') pml4 u = mmu (mem st) pml4 u) ∧ (r' = COW_OK → ∃ pa e, mmu (mem st) pml4 v = Some (pa, e) ∧
      1 < refs (blocks st) (frame_addr e) ∧ refs (blocks st') (frame_addr e) = refs (blocks st) (frame_addr e) - 1)) as Hstop.
  { intros r Hr. exists r, st1. by split_and!. }
  destruct (mmu (mem st) pml4 v) as [[pa e]|] eqn:Hm; cbn [query_outcome]; [|by apply Hstop].
  rewrite bool_decide_true by done. cbn [negb orb query_of q_present q_flags q_phys_addr].
  destruct (_ || _); [by apply Hstop|]. unfold cow_lookup_block.
  destruct (find_block_spec st1 (frame_addr e) Hi1) as (a & -> & Ha). rewrite outcome_bind_ret.
  destruct (frame_addr_range e) as [Hrg Hal]. rewrite page_of_aligned in Ha by (unfold is_u64; lia || done).
  destruct Ha as [[-> _]|(Ha & n & Hb & Hrf & Hrange)]; [by apply Hstop|]. destruct (Z.eqb_spec a 0); [done|].
  cbn [blocks st1 Cow.with_stats] in Hb, Hrf |- *. rewrite Hb. cbn [access]. rewrite outcome_bind_ret. cbn [refcount].
  destruct (Z.eqb_spec n 1) as [->|Hn1].
  - unfold cow_make_writable. cbn [mem Cow.with_stats st1]. destruct (page_query_spec (mem st) pml4 v Hs Hn) as [-> _].
    rewrite Hm, outcome_bind_ret. cbn [query_outcome]. rewrite bool_decide_true by done. cbn [negb].
    set (fl := cow_clear_cow_flag _).
    destruct (map_present (mem st) pml4 v (frame_addr e) fl Hs Hp Hn) as (r & p' & -> & Hr & Hs' & Hmm); [by rewrite Hm|done|].
    rewrite outcome_bind_ret. rewrite bool_decide_false by done. eexists COW_ERR_INVALID, _. split; [done|]. split_and!; try done.
    + apply with_mem_inv, with_stats_inv; done.
    + by apply invalidate_inv.
  - destruct (Hfr a _ Hb) as (g & Hg & Hgr & Hga). cbn in Hg. rewrite Hg in *.
    destruct (copy_on_write_spec pml4 v g st1) as (r & st' & -> & Hi' & Hs' & Hmm & Hres); try done.
    { cbn [mem st1 Cow.with_stats]. by rewrite Hm. }
    { cbn [blocks st1 Cow.with_stats]. lia. }
    exists r, st'. split; [done|]. split_and!; try done. intros ->. exists pa, e. rewrite decide_True in Hres by done. rewrite Hg.
    split; [done|]. cbn [blocks st1 Cow.with_stats] in Hres. split; [lia|done].
Qed.

(** ** Marking a page *)
Definition readonly_entry (e : Z) : Z := cow_set_cow_flag (Z.land e (~64 PAGE_WRITE)).
Lemma readonly_bits e i : 0 ≤ i < 64 → Z.testbit (readonly_entry e) i = (i =? 9) || (negb (i =? 1) && Z.testbit e i).
Proof.
  intros Hi. unfold readonly_entry, cow_set_cow_flag, COW_FLAG_MASK, PAGE_WRITE, u64.
  rewrite Z.lor_spec, Z.land_spec, Z.mod_pow2_bits_low, Z.lnot_spec, !Z.pow2_bits_eqb by lia.
  rewrite (Z.eqb_sym 9 i), (Z.eqb_sym 1 i). destruct (i =? 9), (i =? 1), (Z.testbit e i); done.
Qed.
Lemma readonly_frame e : frame_addr (readonly_entry e) = frame_addr e.
Proof.
  apply Z.bits_inj'. intros i Hi. rewrite !frame_addr_bits by done.
  destruct (Z.leb_spec 12 i), (Z.ltb_spec i 52); cbn [andb]; try done. rewrite readonly_bits by lia.
  destruct (Z.eqb_spec i 9), (Z.eqb_spec i 1); try lia; done.
Qed.
Lemma entry_at_eq t i p : entry t i p = ld p (entry_at t i).
Proof. unfold entry, phys_to_virt_offset. by rewrite (Z.add_comm t). Qed.

(** [cow_mark_page_readonly] takes the write permission from a mapped page and
    marks it as copy on write, keeping its frame and its other bits, drops the
    cached translation and leaves every other page alone; an unmapped page is
    refused. *)
Theorem cow_mark_page_readonly_correct pml4 v st :
  page_inv (mem st) pml4 → private (phys_mem (mem st)) pml4 v → no_huge (mem st) pml4 v →
  ∃ r st', cow_mark_page_readonly pml4 v st = Ret (r, st') ∧ page_inv (mem st') pml4 ∧
    match mmu (mem st) pml4 v with
    | None => r = COW_ERR_INVALID ∧ st' = st
    | Some (_, e) => r = COW_OK ∧ v / PAGE_SIZE ∉ tlb (mem st') ∧
        (∀ u, block 0 u = block 0 v → mmu (mem st') pml4 u = Some (frame_addr e + u mod 4096, readonly_entry e)) ∧
        (∀ u, block 0 u ≠ block 0 v → mmu (mem st') pml4 u = mmu (mem st) pml4 u) ∧
        (∀ i, 0 ≤ i < 64 → Z.testbit (readonly_entry e) i = (i =? 9) || (negb (i =? 1) && Z.testbit e i)) ∧
        blocks st' = blocks st
    end.
Proof.
  intros Hs Hp Hn. unfold cow_mark_page_readonly. destruct (page_query_spec (mem st) pml4 v Hs Hn) as [-> _]. rewrite outcome_bind_ret.
  destruct (mmu (mem st) pml4 v) as [[pa e]|] eqn:Hm; cbn [query_outcome fst].
  2: { exists COW_ERR_INVALID, st. by split_and!. }
  rewrite bool_decide_true by done. cbn [negb]. rewrite PML4_INDEX_idx, PDPT_INDEX_idx, PD_INDEX_idx, PT_INDEX_idx, entry_at_eq.
  match goal with |- ∃ r st', ?o = Ret (r, st') ∧ @?P r st' => set (Q' := λ o', ∃ r st', o' = Ret (r, st') ∧ P r st'); change (Q' o) end.
  assert (∀ o, mmu (mem st) pml4 v = None → Q' o) as Hmiss by (intros o; congruence).
  apply (read_step Q' (mem st) pml4 v 0); [done..|lia|apply Hmiss|intros e3 Ht1 _]. rewrite entry_at_eq.
  apply (read_step Q' (mem st) pml4 v 1); [done..|lia|apply Hmiss|intros e2 Ht2 _]. rewrite entry_at_eq.
  apply (read_step Q' (mem st) pml4 v 2); [done..|lia|apply Hmiss|intros e1 Ht3 _]. rewrite entry_at_eq.
  destruct (step_down (mem st) pml4 v 3 _ Hs Ht3) as (e0 & Hld & Hrd & _ & Hend); [lia|]. cbn [Nat.sub] in Hld, Hend.
  rewrite Hld, outcome_bind_ret. specialize (Hend eq_refl). rewrite Hm in Hend. unfold leaf_result in Hend.
  destruct (present e0) eqn:Hpr; [|done]. injection Hend as _ <-. fold (readonly_entry e).
  assert (present (readonly_entry e) = true) as Hpr'.
  { unfold present in *. rewrite readonly_bits by lia. by rewrite Hpr. }
  destruct (write_leaf (mem st) pml4 v 3 (frame_addr e1) e (readonly_entry e) Hs Hp) as (p' & Hst & Hrm); [lia|done|done|done|congruence|].
  unfold phys_to_virt_offset. rewrite (Z.add_comm (frame_addr e1)).
  change (KERNEL_VIRT_BASE ⊞ frame_addr e1 ⊞ 8 * idx 0 v) with (entry_at (frame_addr e1) (idx 0 v)).
  cbn [Nat.sub] in Hst. rewrite Hst, outcome_bind_ret. unfold Q'. eexists COW_OK, _. split; [done|].
  cbn [mem Cow.with_mem]. split; [apply invalidate_inv, Hrm|]. split; [done|]. split_and!.
  - cbn [tlb page_invalidate_tlb with_tlb]. set_solver.
  - intros u Hu. change (mmu p' pml4 u = Some (frame_addr e + u mod 4096, readonly_entry e)).
    rewrite (rm_in _ _ _ _ _ _ Hrm u Hu). unfold leaf_result. by rewrite Hpr', readonly_frame.
  - intros u Hu. by apply (rm_else _ _ _ _ _ _ Hrm).
  - apply readonly_bits.
  - done.
Qed.

(** ** The handler *)

(** The handler returns to the program only after a copy-on-write fault that
    [cow_handle_fault] reported as solved: a user-mode write to a present page. *)
Lemma pf_handler_resumes cr2 cr3 code current f f' : pf_handler cr2 cr3 code current f = Ret (Resume, f') →
  vmm_is_canonical cr2 = true ∧ flag_set code PF_ERR_RESERVED = false ∧ flag_set code PF_ERR_USER = true ∧
  flag_set code PF_ERR_PRESENT = true ∧ flag_set code PF_ERR_WRITE = true ∧
  cow_handle_fault (vmm_get_current_pml4 cr3) cr2 (cow f) = Ret (COW_OK, cow f').
Proof.
  unfold pf_handler, pf_handle_cow. destruct (pf_initialized f); [|done]. cbn [ccos_assert]. rewrite outcome_bind_ret.
  destruct (vmm_is_canonical cr2); [|done]. cbn [negb pf_parse_error_code reserved_bit i_user i_present i_write].
  destruct (flag_set code PF_ERR_RESERVED); [done|]. destruct (flag_set code PF_ERR_USER); [|done]. cbn [negb].
  destruct (flag_set code PF_ERR_PRESENT), (flag_set code PF_ERR_WRITE); cbn [andb negb];
    try (rewrite outcome_bind_ret; cbn; destruct (vmm_is_user_addr cr2); cbn; by destruct current as [[]|]).
  cbn [cow with_pf_stats]. destruct (cow_handle_fault _ _ _) as [[r c]|] eqn:Hc; [|done]. rewrite outcome_bind_ret.
  destruct (bool_decide (r = COW_OK)) eqn:Hr; rewrite outcome_bind_ret; cbn.
  - apply bool_decide_eq_true in Hr as ->. intros [= <-]. by split_and!.
  - by destruct current as [[]|].
Qed.

(** ** Witnesses *)
Definition demo_blocks (n : Z) : gmap Z cow_block := {[ 0x7000 := mk_block 0x1000 n ]}.
Definition empty_buckets : hashmap := mk_map (replicate 256 []) 256 0.
Definition demo_entries : option hashmap :=
  match hashmap_put (h := ptr_key) (Some empty_buckets) 0x7000 0x7000 true with Ret (_, m) => m | _ => None end.
Definition demo_cow (n : Z) : cow_state :=
  mk_cow demo_page demo_entries (demo_blocks n) [] (mk_cstats 0 0 0 1 0 0) true [0x8000; 0x9000].
Lemma demo_cow_inv n : 1 ≤ n ≤ COW_MAX_REFCOUNT → cow_inv (demo_cow n).
Proof.
  intros Hn. split; cbn [demo_cow Cow.initialized page_map blocks stats cow_current_blocks].
  - done.
  - assert (∃ m, hashmap_create 256 true true true = Some m ∧ wf (h := ptr_key) m ∧
      ∀ k, lookup_key (h := ptr_key) m k = None) as (m & Hm & Hw & He).
    { destruct (hashmap_create_spec (h := ptr_key) 256) as (m & ? & ? & _ & ?); [lia|]. by exists m. }
    assert (m = empty_buckets) as -> by (vm_compute in Hm; unfold empty_buckets; cbn; congruence).
    destruct (hashmap_put_spec (h := ptr_key) empty_buckets 0x7000 0x7000 true Hw) as (m' & Hp & Hw' & Hl & _); [done|by right|].
    exists m'. unfold demo_entries. rewrite Hp. split_and!; [done..|]. intros k v. rewrite Hl, He.
    change (eq_func 0x7000 k) with (0x7000 =? k). unfold demo_blocks.
    destruct (Z.eqb_spec 0x7000 k) as [<-|Hne].
    + split; [intros [= <-]|by intros [<- _]]. split; [done|]. rewrite lookup_singleton_eq. by eexists.
    + split; [done|]. intros [_ [x [Hk _]%lookup_singleton_Some]]. done.
  - done.
  - unfold demo_blocks. intros a a' b b' [<- _]%lookup_singleton_Some [<- _]%lookup_singleton_Some. done.
  - unfold demo_blocks. intros a b [<- <-]%lookup_singleton_Some. done.
  - unfold demo_blocks. by rewrite map_size_singleton.
Qed.
Lemma cow_refcounts_witness : ∃ st', cow_dec_refcount 0x1234 (demo_cow 2) = Ret (COW_OK, st') ∧ refs (blocks st') 0x1000 = 1.
Proof.
  destruct (cow_refcounts_refine_function (demo_cow 2) 0x1234) as (_ & _ & (r & st' & H1 & _ & H2) & _).
  - apply demo_cow_inv. unfold COW_MAX_REFCOUNT. lia.
  - intros a [= <-] _. reflexivity.
  - change (refs (blocks (demo_cow 2)) (page_of 0x1234)) with 2 in H2. cbn [Z.eqb] in H2.
    destruct H2 as [-> (H2 & _)]. exists st'. split; [exact H1|exact H2].
Defined.
Lemma demo_fault_ready : fault_ready 4096 0x400000 (demo_cow 2).
Proof.
  split; cbn [demo_cow mem blocks].
  - apply demo_cow_inv. unfold COW_MAX_REFCOUNT. lia.
  - exact demo_page_inv.
  - apply demo_private.
  - apply demo_no_huge.
  - unfold demo_blocks. intros a b [<- <-]%lookup_singleton_Some. exists 1. split; [done|]. split; [done|]. vm_compute. done.
Qed.
Lemma cow_handle_fault_witness : ∃ r st', cow_handle_fault 4096 0x400000 (demo_cow 2) = Ret (r, st') ∧ r ≠ COW_OK.
Proof.
  destruct (cow_handle_fault_changes_no_translation 4096 0x400000 (demo_cow 2) demo_fault_ready) as (r & st' & H1 & _ & _ & _ & H2).
  exists r, st'. split; [exact H1|]. intros Hr. destruct (H2 Hr) as (pa & e & H3 & _).
  cbn [demo_cow mem] in H3. rewrite demo_unmapped in H3. discriminate H3.
Defined.
Lemma cow_mark_page_witness : ∃ r st', cow_mark_page_readonly 4096 0x400000 (demo_cow 2) = Ret (r, st') ∧ page_inv (mem st') 4096.
Proof.
  destruct (cow_mark_page_readonly_correct 4096 0x400000 (demo_cow 2) demo_page_inv (demo_private _) (demo_no_huge _))
    as (r & st' & H1 & H2 & _).
  exists r, st'. split; [exact H1|exact H2].
Defined.

(** A program shares a page of its own for copy on write and writes to it: the
    first fault is reported as solved but the page stays read-only, the second one
    ends the program. *)
Definition shared_page : page_state :=
  mk_page (zero_mem 8192) (mk_pframe (mk_bitmap [3; 128] 16) 16 0 65536 0 true) 4096 true true ∅.
Definition write_twice : outcome (pf_end * pf_end * option Z) :=
  rp ← page_map_page 4096 0x400000 0xF000 (Z.lor VMAP_FLAG_WRITE VMAP_FLAG_USER) true shared_page;
  let c := mk_cow (snd (rp : Page.page_result * page_state)) (Some empty_buckets) ∅ [] no_stats true [0x7000; 0x8000; 0x9000] in
  let f := mk_fault c (mk_pstats 0 0 0 0 0 0 0 0) true in
  rf ← pf_register_cow_region 4096 0x400000 4096 f;
  e1 ← pf_handler 0x400008 4096 7 (Some true) (snd (rf : vmm_result * fault_state));
  e2 ← pf_handler 0x400008 4096 7 (Some true) (snd (e1 : pf_end * fault_state));
  Ret (fst e1, fst (e2 : pf_end * fault_state),
       (λ x, Z.land (snd x) PAGE_WRITE) <$> mmu (mem (cow (snd e2))) 4096 0x400008).
Theorem shared_page_write_kills_program : write_twice = Ret (Resume, ExitSegv, Some 0).
Proof. vm_compute. reflexivity. Qed.
