(* ===== verification/Sched.v ===== *)
(** * The scheduler: [kernel/process/sched.c], [sched_rr.c], [sched_prio.c] and
      [schedule] of [process.c]

    The run queues are rings of the list component, over its node store; a task
    is named by the address of its [pcb] and its two list nodes lie at fixed
    offsets in it. A scheduling class is the record of operations the source
    keeps in [sched_class_t], and the framework calls through it. The context
    switch itself is not modelled: [schedule] ends where it would happen. Logging
    is left out; the lock makes each operation one step. *)
From S2P Require Import Prelude DList.
Import DList.

Module Sched.

Definition DEF_TIMESLICE_MS : Z := 10.
Definition RR_TIMESLICE_DEFAULT : Z := DEF_TIMESLICE_MS.
Definition PRIO_MAX : Z := 0.
Definition PRIO_MIN : Z := 127.
Definition PRIO_DEFAULT : Z := 64.
Definition PRIO_LEVELS : Z := 128.
Definition PRIO_TIMESLICE (prio : Z) : Z := if prio =? 0 then 100 else if prio <? 64 then 50 else 20.

(** ** Data *)
Definition SCHED_NORMAL : Z := 0.
Definition SCHED_PRIORITY : Z := 1.
Definition SCHED_MAX : Z := 2.
Inductive process_state := PROC_READY | PROC_RUNNING | PROC_BLOCKED | PROC_ZOMBIE.
(** The two classes that exist, as the pointers to their structures. *)
Inductive class_ptr := rr_sched_class | prio_sched_class.

#[export] Instance process_state_eq_dec : EqDecision process_state.
Proof. solve_decision. Defined.
#[export] Instance class_ptr_eq_dec : EqDecision class_ptr.
Proof. solve_decision. Defined.

(** The fields of [pcb] the scheduler uses, with those of [sched_entity_t]. *)
Record task := mk_task {
  state : process_state; policy : Z; sched_class : option class_ptr;
  time_slice : Z; time_slice_total : Z; priority : Z; nice : Z }.

Record sched_rq := mk_rq { rq_class : option class_ptr; nr_running : Z; class_data : bool }.
Record prio_rq_data := mk_prio { nr_active : Z; nr_expired : Z; highest_prio : Z; active_expired : bool }.

(** Where the list nodes and heads lie: the two nodes of a task, the queue of
    a policy, the legacy queue, the level queues of the priority class and the
    [temp] head on the stack of the swap. *)
Class Layout := {
  se_off : Z; run_off : Z;
  rq_queue : Z → Z; legacy_queue : Z;
  active_head : Z → Z; expired_head : Z → Z; temp_head : Z }.

Record scheduler := mk_sched {
  nodes : gmap Z list_head; tasks : gmap Z task;
  rqs : list sched_rq; rq_set : bool; classes : list (option class_ptr); prio_data : prio_rq_data;
  current : option Z; idle : option Z; total_running : Z; need_resched : bool }.

Section sched.
Context `{Layout}.
Implicit Types (s : scheduler) (t rq : Z).

Definition se_node t : Z := t + se_off.
Definition run_node t : Z := t + run_off.
(** [list_entry(node, struct pcb, sched_entity.run_list)] *)
Definition se_task (n : Z) : Z := n - se_off.

(** ** Field access *)
Definition with_nodes (m : gmap Z list_head) s : scheduler :=
  mk_sched m (tasks s) (rqs s) (rq_set s) (classes s) (prio_data s) (current s) (idle s) (total_running s) (need_resched s).
Definition with_tasks (ts : gmap Z task) s : scheduler :=
  mk_sched (nodes s) ts (rqs s) (rq_set s) (classes s) (prio_data s) (current s) (idle s) (total_running s) (need_resched s).
Definition with_rqs (r : list sched_rq) s : scheduler :=
  mk_sched (nodes s) (tasks s) r (rq_set s) (classes s) (prio_data s) (current s) (idle s) (total_running s) (need_resched s).
Definition with_prio (d : prio_rq_data) s : scheduler :=
  mk_sched (nodes s) (tasks s) (rqs s) (rq_set s) (classes s) d (current s) (idle s) (total_running s) (need_resched s).
Definition with_current (c : option Z) s : scheduler :=
  mk_sched (nodes s) (tasks s) (rqs s) (rq_set s) (classes s) (prio_data s) c (idle s) (total_running s) (need_resched s).
Definition with_total (n : Z) s : scheduler :=
  mk_sched (nodes s) (tasks s) (rqs s) (rq_set s) (classes s) (prio_data s) (current s) (idle s) n (need_resched s).
Definition with_resched (b : bool) s : scheduler :=
  mk_sched (nodes s) (tasks s) (rqs s) (rq_set s) (classes s) (prio_data s) (current s) (idle s) (total_running s) b.

Definition get_task s t : outcome task := access (tasks s !! t).
Definition upd_task t (f : task → task) s : outcome scheduler :=
  x ← get_task s t; Ret (with_tasks (<[t := f x]> (tasks s)) s).
Definition get_rq s rq : outcome sched_rq := access (zlookup (rqs s) rq).
Definition upd_rq rq (f : sched_rq → sched_rq) s : outcome scheduler :=
  x ← get_rq s rq; Ret (with_rqs (zinsert (rqs s) rq (f x)) s).
Definition on_nodes (f : gmap Z list_head → outcome (gmap Z list_head)) s : outcome scheduler :=
  m ← f (nodes s); Ret (with_nodes m s).

Definition set_state (x : process_state) (t : task) : task :=
  mk_task x (policy t) (sched_class t) (time_slice t) (time_slice_total t) (priority t) (nice t).
Definition set_class (p : Z) (c : option class_ptr) (t : task) : task :=
  mk_task (state t) p c (time_slice t) (time_slice_total t) (priority t) (nice t).
Definition set_slice (x tot : Z) (t : task) : task :=
  mk_task (state t) (policy t) (sched_class t) x tot (priority t) (nice t).
Definition set_prio (p n : Z) (t : task) : task :=
  mk_task (state t) (policy t) (sched_class t) (time_slice t) (time_slice_total t) p n.
Definition add_running (d : Z) (r : sched_rq) : sched_rq := mk_rq (rq_class r) (u32 (nr_running r + d)) (class_data r).

(** ** The operations of a class: [sched_class_t] *)
Record sched_class_ops := mk_ops {
  enqueue_task : Z → Z → bool → scheduler → outcome scheduler;
  dequeue_task : Z → Z → scheduler → outcome scheduler;
  pick_next_task : Z → option Z → scheduler → outcome (option Z * scheduler);
  should_preempt : Z → Z → scheduler → outcome bool;
  task_tick : Z → Z → scheduler → outcome scheduler;
  task_fork : Z → Z → scheduler → outcome scheduler;
  get_time_slice : task → Z }.

(** ** Round robin *)
Definition rr_enqueue_task rq t (head : bool) s : outcome scheduler :=
  s ← on_nodes (if head then list_add (se_node t) (rq_queue rq) else list_add_tail (se_node t) (rq_queue rq)) s;
  upd_rq rq (add_running 1) s.
Definition rr_dequeue_task rq t s : outcome scheduler :=
  s ← on_nodes (list_del_init (se_node t)) s;
  upd_rq rq (add_running (-1)) s.
Definition rr_pick_next_task rq (prev : option Z) s : outcome (option Z * scheduler) :=
  n ← list_first (nodes s) (rq_queue rq);
  Ret (se_task <$> (n : option Z), s).
Definition rr_should_preempt (p curr : Z) s : outcome bool :=
  c ← get_task s curr; Ret (time_slice c =? 0).
(** Both classes tick the same way. *)
Definition tick (t : task) : task :=
  if 0 <? time_slice t then set_slice (time_slice t - 1) (time_slice_total t) t else t.
Definition rr_task_tick rq t s : outcome scheduler := upd_task t tick s.
Definition rr_task_fork t (nice : Z) s : outcome scheduler :=
  upd_task t (λ x, set_prio 0 0 (set_slice RR_TIMESLICE_DEFAULT RR_TIMESLICE_DEFAULT
                     (set_class SCHED_NORMAL (Some rr_sched_class) x))) s.
Definition rr_get_time_slice (t : task) : Z := RR_TIMESLICE_DEFAULT.
Definition rr_ops : sched_class_ops :=
  mk_ops rr_enqueue_task rr_dequeue_task rr_pick_next_task rr_should_preempt rr_task_tick rr_task_fork
    rr_get_time_slice.

(** ** Priorities *)
Definition clamp_prio (prio : Z) : Z :=
  if prio <? PRIO_MAX then PRIO_MAX else if PRIO_MIN <? prio then PRIO_MIN else prio.

(** The scan of the active queues from level 0 on. *)
Definition find_highest_prio s : outcome Z :=
  i ← find_loop (Z.to_nat PRIO_LEVELS) 0 (λ i, e ← list_is_empty (nodes s) (active_head i); Ret (negb e));
  Ret (if i =? -1 then PRIO_MIN else i).

Definition swap_level (i : Z) (m : gmap Z list_head) : outcome (gmap Z list_head) :=
  m ← INIT_LIST_HEAD temp_head m;
  m ← list_splice_init (active_head i) temp_head m;
  m ← list_splice_init (expired_head i) (active_head i) m;
  list_splice_init temp_head (expired_head i) m.
Definition prio_swap_active_expired s : outcome scheduler :=
  s ← on_nodes (for_range 0 PRIO_LEVELS swap_level) s;
  let d := prio_data s in
  let s := with_prio (mk_prio (nr_expired d) (nr_active d) (highest_prio d) (active_expired d)) s in
  h ← find_highest_prio s;
  let d := prio_data s in
  Ret (with_prio (mk_prio (nr_active d) (nr_expired d) h false) s).

Definition prio_enqueue_task rq t (head : bool) s : outcome scheduler :=
  x ← get_task s t;
  let prio := clamp_prio (priority x) in
  let add := if head then list_add (se_node t) else list_add_tail (se_node t) in
  let d := prio_data s in
  s ← (if time_slice x =? 0 then
         s ← on_nodes (add (expired_head prio)) s;
         Ret (with_prio (mk_prio (nr_active d) (u32 (nr_expired d + 1)) (highest_prio d) (active_expired d)) s)
       else
         s ← on_nodes (add (active_head prio)) s;
         Ret (with_prio (mk_prio (u32 (nr_active d + 1)) (nr_expired d)
                (if prio <? highest_prio d then prio else highest_prio d) (active_expired d)) s));
  upd_rq rq (add_running 1) s.

Definition prio_dequeue_task rq t s : outcome scheduler :=
  s ← on_nodes (list_del_init (se_node t)) s;
  x ← get_task s t;
  let d := prio_data s in
  let d :=
    if (time_slice x =? 0) && (0 <? nr_expired d) then
      mk_prio (nr_active d) (nr_expired d - 1) (highest_prio d) (active_expired d)
    else if 0 <? nr_active d then
      mk_prio (nr_active d - 1) (nr_expired d) (highest_prio d) (active_expired d)
    else d in
  s ← upd_rq rq (add_running (-1)) (with_prio d s);
  h ← find_highest_prio s;
  let d := prio_data s in
  Ret (with_prio (mk_prio (nr_active d) (nr_expired d) h (active_expired d)) s).

Definition prio_pick_next_task rq (prev : option Z) s : outcome (option Z * scheduler) :=
  if (nr_active (prio_data s) =? 0) && negb (0 <? nr_expired (prio_data s)) then Ret (None, s) else
  s ← (if nr_active (prio_data s) =? 0 then prio_swap_active_expired s else Ret s);
  highest ← find_highest_prio s;
  if PRIO_LEVELS <=? highest then Ret (None, s) else
  n ← list_first (nodes s) (active_head highest);
  Ret (se_task <$> (n : option Z), s).

Definition prio_should_preempt (p curr : Z) s : outcome bool :=
  x ← get_task s p; c ← get_task s curr;
  Ret ((priority x <? priority c) || (priority x =? priority c) && (time_slice c =? 0)).
Definition prio_task_tick rq t s : outcome scheduler := upd_task t tick s.
Definition prio_task_fork t (nice : Z) s : outcome scheduler :=
  upd_task t (λ x,
    let x := set_class SCHED_PRIORITY (Some prio_sched_class) x in
    let p := if nice <? 0 then (let p := PRIO_DEFAULT + nice in if p <? PRIO_MAX then PRIO_MAX else p)
             else PRIO_DEFAULT in
    let p := clamp_prio p in
    set_prio p nice (set_slice (PRIO_TIMESLICE p) (PRIO_TIMESLICE p) x)) s.
Definition prio_get_time_slice (t : task) : Z := PRIO_TIMESLICE (priority t).
Definition prio_ops : sched_class_ops :=
  mk_ops prio_enqueue_task prio_dequeue_task prio_pick_next_task prio_should_preempt prio_task_tick
    prio_task_fork prio_get_time_slice.

Definition ops (c : class_ptr) : sched_class_ops :=
  match c with rr_sched_class => rr_ops | prio_sched_class => prio_ops end.

(** ** The framework; [None] is a NULL task *)
Definition sched_timer_tick_handler s : outcome scheduler :=
  match current s with
  | None => Ret s
  | Some t =>
      if negb (rq_set s) then Ret s else
      x ← get_task s t;
      match sched_class x with
      | None => Ret s
      | Some c => task_tick (ops c) (policy x) t s
      end
  end.

(** Runs [f] on the class of a task, if there is a task and it has a class. *)
Definition with_class (p : option Z) s {A} (none : A) (f : Z → task → class_ptr → outcome A) : outcome A :=
  match p with
  | None => Ret none
  | Some t => x ← get_task s t; match sched_class x with None => Ret none | Some c => f t x c end
  end.

Definition sched_init_time_slice (p : option Z) s : outcome scheduler :=
  with_class p s s (λ t x c, let slice := get_time_slice (ops c) x in upd_task t (set_slice slice slice) s).
Definition sched_reset_time_slice (p : option Z) s : outcome scheduler :=
  with_class p s s (λ t x c, upd_task t (λ x, set_slice (time_slice_total x) (time_slice_total x) x) s).

Definition sched_class_init s : outcome scheduler :=
  m ← for_range 0 SCHED_MAX (λ i, INIT_LIST_HEAD (rq_queue i)) (nodes s);
  m ← INIT_LIST_HEAD legacy_queue m;
  Ret (mk_sched m (tasks s) (replicate (Z.to_nat SCHED_MAX) (mk_rq None 0 false)) true
         (replicate (Z.to_nat SCHED_MAX) None) (prio_data s) (current s) (idle s) (total_running s) (need_resched s)).

Definition sched_class_register (class : option class_ptr) (pol : Z) s : outcome (Z * scheduler) :=
  match class with
  | None => Ret (-1, s)
  | Some c =>
      if SCHED_MAX <=? pol then Ret (-1, s) else
      x ← access (zlookup (classes s) pol);
      match x with
      | Some _ => Ret (-1, s)
      | None =>
          s ← upd_rq pol (λ r, mk_rq (Some c) (nr_running r) (class_data r)) s;
          Ret (0, mk_sched (nodes s) (tasks s) (rqs s) (rq_set s) (zinsert (classes s) pol (Some c)) (prio_data s)
                    (current s) (idle s) (total_running s) (need_resched s))
      end
  end.
Definition sched_rr_init s : outcome (Z * scheduler) := sched_class_register (Some rr_sched_class) SCHED_NORMAL s.
Definition sched_prio_init (kmalloc_ok : bool) s : outcome (Z * scheduler) :=
  if negb kmalloc_ok then Ret (-1, s) else
  m ← for_range 0 PRIO_LEVELS (λ i m, m ← INIT_LIST_HEAD (active_head i) m; INIT_LIST_HEAD (expired_head i) m) (nodes s);
  let s := with_prio (mk_prio 0 0 PRIO_MIN false) (with_nodes m s) in
  s ← upd_rq SCHED_PRIORITY (λ r, mk_rq (rq_class r) (nr_running r) true) s;
  sched_class_register (Some prio_sched_class) SCHED_PRIORITY s.

Definition sched_enqueue_task (p : option Z) (head : bool) s : outcome scheduler :=
  with_class p s s (λ t x c,
    s ← enqueue_task (ops c) (policy x) t head s;
    on_nodes (list_add_tail (run_node t) legacy_queue) (with_total (u32 (total_running s + 1)) s)).
Definition sched_dequeue_task (p : option Z) s : outcome scheduler :=
  with_class p s s (λ t x c,
    s ← dequeue_task (ops c) (policy x) t s;
    on_nodes (list_del_init (run_node t))
      (if 0 <? total_running s then with_total (total_running s - 1) s else s)).

(** One queue of the selection: its class is asked when it has tasks. *)
Definition pick_from rq (prev : option Z) s : outcome (option Z * scheduler) :=
  r ← get_rq s rq;
  match rq_class r with
  | Some c => if 0 <? nr_running r then pick_next_task (ops c) rq prev s else Ret (None, s)
  | None => Ret (None, s)
  end.
Definition sched_pick_next_task s : outcome (option Z * scheduler) :=
  let prev := current s in
  keep ← match prev with
         | None => Ret false
         | Some t => x ← get_task s t; Ret (bool_decide (state x = PROC_RUNNING) && (0 <? time_slice x))
         end;
  if (keep : bool) then
    ps ← pick_from SCHED_PRIORITY prev s;
    match ps, prev with
    | (Some p, s), Some cur =>
        x ← get_task s p;
        c ← access (sched_class x);
        pre ← should_preempt (ops c) p cur s;
        Ret (if (pre : bool) then Some p else prev, s)
    | (_, s), _ => Ret (prev, s)
    end
  else
    ps ← pick_from SCHED_PRIORITY prev s;
    match ps with
    | (Some p, s) => Ret (Some p, s)
    | (None, s) => pick_from SCHED_NORMAL prev s
    end.

Definition sched_needs_reschedule s : bool := need_resched s.
Definition sched_set_resched s : scheduler := with_resched true s.
Definition sched_clear_resched s : scheduler := with_resched false s.

Definition sched_set_policy (p : option Z) (pol prio : Z) s : outcome (Z * scheduler) :=
  match p with
  | None => Ret (-1, s)
  | Some t =>
      if SCHED_MAX <=? pol then Ret (-1, s) else
      c ← access (zlookup (classes s) pol);
      match c with
      | None => Ret (-1, s)
      | Some c =>
          s ← upd_task t (set_class pol (Some c)) s;
          s ← task_fork (ops c) t prio s;
          Ret (0, s)
      end
  end.
Definition sched_get_policy (p : option Z) s : outcome Z :=
  match p with None => Ret SCHED_NORMAL | Some t => x ← get_task s t; Ret (policy x) end.

(** ** [schedule], up to the context switch; the result is the task that runs. *)
Definition schedule s : outcome (option Z * scheduler) :=
  let prev := current s in
  let s := sched_clear_resched s in
  ns ← sched_pick_next_task s;
  let '(next, s) := ns : option Z * scheduler in
  let next := match next with Some n => Some n | None => idle s end in
  match next with
  | None => Ret (prev, s)
  | Some n =>
      if bool_decide (Some n = prev) then Ret (prev, s) else
      s ← match prev with
          | Some p =>
              if bool_decide (Some p = idle s) then Ret s else
              s ← upd_task p (λ x, if bool_decide (state x = PROC_RUNNING) then set_state PROC_READY x else x) s;
              x ← get_task s p;
              if bool_decide (state x = PROC_READY) then sched_enqueue_task (Some p) false s else Ret s
          | None => Ret s
          end;
      s ← (if bool_decide (Some n = idle s) then Ret s else sched_dequeue_task (Some n) s);
      s ← upd_task n (set_state PROC_RUNNING) s;
      s ← sched_reset_time_slice (Some n) (with_current (Some n) s);
      Ret (Some n, s)
  end.

(** ** Round robin as a FIFO

    The queue of a policy holds the tasks [ts] in this order, and its counter
    is their number. *)
Definition rr_queue s rq (r : sched_rq) (ts : list Z) : Prop :=
  is_list (nodes s) (rq_queue rq) (se_node <$> ts) ∧
  zlookup (rqs s) rq = Some r ∧ nr_running r = Z.of_nat (length ts).

Lemma se_task_node t : se_task (se_node t) = t.
Proof. unfold se_task, se_node. lia. Qed.
#[local] Instance se_node_inj : Inj (=) (=) se_node.
Proof. intros x y. unfold se_node. lia. Qed.
#[local] Instance run_node_inj : Inj (=) (=) run_node.
Proof. intros x y. unfold run_node. lia. Qed.

Lemma get_task_ok s t x : tasks s !! t = Some x → get_task s t = Ret x.
Proof. unfold get_task. by intros ->. Qed.
Lemma upd_task_ok s t x f : tasks s !! t = Some x →
  upd_task t f s = Ret (with_tasks (<[t := f x]> (tasks s)) s).
Proof. intros Hx. unfold upd_task. by rewrite (get_task_ok _ _ _ Hx). Qed.
Lemma get_rq_ok s rq r : zlookup (rqs s) rq = Some r → get_rq s rq = Ret r.
Proof. unfold get_rq. by intros ->. Qed.
Lemma upd_rq_ok s rq r f : zlookup (rqs s) rq = Some r →
  upd_rq rq f s = Ret (with_rqs (zinsert (rqs s) rq (f r)) s).
Proof. intros Hr. unfold upd_rq. by rewrite (get_rq_ok _ _ _ Hr). Qed.
Lemma on_nodes_ok s f m : f (nodes s) = Ret m → on_nodes f s = Ret (with_nodes m s).
Proof. unfold on_nodes. by intros ->. Qed.

Lemma se_node_fresh t (ts : list Z) h : se_node t ≠ h → t ∉ ts → se_node t ∉ h :: (se_node <$> ts).
Proof.
  intros Hne Hnin. rewrite not_elem_of_cons, list_elem_of_fmap. split; [done|].
  intros (y & ?%(inj se_node) & ?). by subst.
Qed.

Lemma add_tasks_spec m h t ts (at_head : bool) :
  is_list m h (se_node <$> ts) → is_Some (m !! se_node t) → se_node t ≠ h → t ∉ ts →
  ∃ m', (if at_head then list_add (se_node t) h else list_add_tail (se_node t) h) m = Ret m' ∧
    is_list m' h (se_node <$> (if at_head then t :: ts else ts ++ [t])) ∧
    (∀ a, a ∉ h :: (se_node <$> t :: ts) → m' !! a = m !! a) ∧ dom m' = dom m.
Proof.
  intros Hl Hdom Hne Hnin. pose proof (se_node_fresh _ _ _ Hne Hnin) as Hfresh.
  destruct at_head.
  - destruct (list_add_spec _ _ _ _ Hl Hfresh Hdom) as (m' & ? & ? & Hf & ?).
    exists m'. split_and!; try done. intros a Ha. apply Hf. set_solver.
  - destruct (list_add_tail_spec _ _ _ _ Hl Hfresh Hdom) as (m' & ? & ? & Hf & ?).
    exists m'. rewrite fmap_app. split_and!; try done. intros a Ha. apply Hf. set_solver.
Qed.

Lemma rr_enqueue_spec s rq r ts t at_head :
  rr_queue s rq r ts → is_Some (nodes s !! se_node t) → se_node t ≠ rq_queue rq → t ∉ ts →
  ∃ m', rr_enqueue_task rq t at_head s = Ret (with_rqs (zinsert (rqs s) rq (add_running 1 r)) (with_nodes m' s)) ∧
    is_list m' (rq_queue rq) (se_node <$> (if at_head then t :: ts else ts ++ [t])) ∧
    (∀ a, a ∉ rq_queue rq :: (se_node <$> t :: ts) → m' !! a = nodes s !! a) ∧ dom m' = dom (nodes s).
Proof.
  intros (Hl & Hr & Hn) Hdom Hne Hnin.
  destruct (add_tasks_spec _ _ t _ at_head Hl Hdom Hne Hnin) as (m' & Hm & ? & ? & ?).
  exists m'. unfold rr_enqueue_task. rewrite (on_nodes_ok _ _ _ Hm), outcome_bind_ret.
  by rewrite (upd_rq_ok _ _ r).
Qed.

Lemma rr_dequeue_spec s rq r ts1 t ts2 : rr_queue s rq r (ts1 ++ t :: ts2) →
  ∃ m', rr_dequeue_task rq t s = Ret (with_rqs (zinsert (rqs s) rq (add_running (-1) r)) (with_nodes m' s)) ∧
    is_list m' (rq_queue rq) (se_node <$> ts1 ++ ts2) ∧ is_list m' (se_node t) [] ∧
    (∀ a, a ∉ rq_queue rq :: (se_node <$> ts1 ++ t :: ts2) → m' !! a = nodes s !! a) ∧ dom m' = dom (nodes s).
Proof.
  intros (Hl & Hr & Hn). rewrite fmap_app, fmap_cons in Hl.
  destruct (list_del_init_spec _ _ _ _ _ Hl) as (m' & Hm & ? & ? & ? & ?).
  exists m'. unfold rr_dequeue_task. rewrite (on_nodes_ok _ _ _ Hm), outcome_bind_ret.
  rewrite (upd_rq_ok _ _ r) by done. by rewrite !fmap_app.
Qed.

Lemma rr_queue_update s rq r (ts ts' : list Z) m d :
  zlookup (rqs s) rq = Some r → nr_running r = Z.of_nat (length ts) →
  Z.of_nat (length ts') = Z.of_nat (length ts) + d → Z.of_nat (length ts') < 2 ^ 32 →
  is_list m (rq_queue rq) (se_node <$> ts') →
  rr_queue (with_rqs (zinsert (rqs s) rq (add_running d r)) (with_nodes m s)) rq (add_running d r) ts'.
Proof.
  intros Hr Hn Hlen Hlt Hl. split_and!; cbn -[zlookup zinsert u32]; [done| |rewrite Hn, u32_small; lia].
  apply zlookup_zinsert_eq. by eapply zlookup_Some_lt.
Qed.

Lemma rr_pick_spec s rq r ts prev :
  rr_queue s rq r ts → rr_pick_next_task rq prev s = Ret (head ts, s).
Proof.
  intros (Hl & _). unfold rr_pick_next_task. rewrite (list_first_spec _ _ _ Hl), outcome_bind_ret.
  destruct ts; cbn; [done|]. by rewrite se_task_node.
Qed.

(** ** The queues of the normal policy as [schedule] sees them

    Class queue and legacy queue hold the same tasks; the nodes of all tasks
    involved are distinct and lie apart from the two heads. *)
Definition apart (ts : list Z) : Prop :=
  NoDup ts ∧ rq_queue SCHED_NORMAL ≠ legacy_queue ∧
  (∀ t, t ∈ ts → rq_queue SCHED_NORMAL ∉ [se_node t; run_node t] ∧ legacy_queue ∉ [se_node t; run_node t]) ∧
  (∀ t u, t ∈ ts → u ∈ ts → se_node t ≠ run_node u).
Definition rr_queues s (ts : list Z) : Prop :=
  (∃ r, rr_queue s SCHED_NORMAL r ts ∧ rq_class r = Some rr_sched_class) ∧
  is_list (nodes s) legacy_queue (run_node <$> ts) ∧ total_running s = Z.of_nat (length ts).
Definition rr_task (st : process_state) (x : task) : Prop :=
  state x = st ∧ policy x = SCHED_NORMAL ∧ sched_class x = Some rr_sched_class ∧
  time_slice_total x = RR_TIMESLICE_DEFAULT.
(** What the queue operations leave alone. *)
Definition queues_only s s' : Prop :=
  tasks s' = tasks s ∧ rq_set s' = rq_set s ∧ current s' = current s ∧ idle s' = idle s ∧
  zlookup (rqs s') SCHED_PRIORITY = zlookup (rqs s) SCHED_PRIORITY ∧ dom (nodes s') = dom (nodes s).

Lemma apart_perm ts ts' : ts ≡ₚ ts' → apart ts → apart ts'.
Proof.
  unfold apart. intros Hp (Hnd & Hne & Hh & Hd). split_and!.
  - by rewrite <- Hp.
  - done.
  - intros t. rewrite <- Hp. apply Hh.
  - intros t u. rewrite <- !Hp. apply Hd.
Qed.
Lemma apart_disjoint ts ts1 ts2 a : apart ts → ts1 ⊆ ts → ts2 ⊆ ts →
  a ∈ rq_queue SCHED_NORMAL :: (se_node <$> ts1) → a ∈ legacy_queue :: (run_node <$> ts2) → False.
Proof.
  intros (_ & Hne & Hh & Hd) H1 H2. rewrite !elem_of_cons, !list_elem_of_fmap.
  intros [->|(t & -> & Ht)] [He|(u & He & Hu)].
  - done.
  - destruct (Hh u (H2 _ Hu)) as [Hq _]. set_solver.
  - destruct (Hh t (H1 _ Ht)) as [_ Hq]. set_solver.
  - by apply (Hd t u (H1 _ Ht) (H2 _ Hu)).
Qed.
Lemma apart_frame ts ts1 ts2 m m' : apart ts → ts1 ⊆ ts → ts2 ⊆ ts →
  (∀ a, a ∉ rq_queue SCHED_NORMAL :: (se_node <$> ts1) → m' !! a = m !! a) →
  is_list m legacy_queue (run_node <$> ts2) → is_list m' legacy_queue (run_node <$> ts2).
Proof.
  intros Hap H1 H2 Hf. apply is_list_frame. intros a Ha. apply Hf. intros Ha'.
  by eapply (apart_disjoint ts ts1 ts2 a).
Qed.
Lemma apart_frame_legacy ts ts1 ts2 m m' : apart ts → ts1 ⊆ ts → ts2 ⊆ ts →
  (∀ a, a ∉ legacy_queue :: (run_node <$> ts2) → m' !! a = m !! a) →
  is_list m (rq_queue SCHED_NORMAL) (se_node <$> ts1) → is_list m' (rq_queue SCHED_NORMAL) (se_node <$> ts1).
Proof.
  intros Hap H1 H2 Hf. apply is_list_frame. intros a Ha. apply Hf. intros Ha'.
  by eapply (apart_disjoint ts ts1 ts2 a).
Qed.

Lemma dom_is_Some (m m' : gmap Z list_head) a : dom m' = dom m → is_Some (m !! a) → is_Some (m' !! a).
Proof. intros Hd. rewrite <- !elem_of_dom, Hd. done. Qed.

(** The nodes of the two queues. *)
Definition queue_nodes (ts : list Z) : list Z := rq_queue SCHED_NORMAL :: legacy_queue :: (se_node <$> ts) ++ (run_node <$> ts).
Lemma sched_enqueue_rr s ts t x st : rr_queues s ts → apart (t :: ts) →
  tasks s !! t = Some x → rr_task st x →
  is_Some (nodes s !! se_node t) → is_Some (nodes s !! run_node t) → Z.of_nat (length ts) + 1 < 2 ^ 32 →
  ∃ s', sched_enqueue_task (Some t) false s = Ret s' ∧ rr_queues s' (ts ++ [t]) ∧
    (∀ a, a ∉ queue_nodes (t :: ts) → nodes s' !! a = nodes s !! a) ∧ queues_only s s'.
Proof.
  intros ((r & Hq & Hc) & Hleg & Htot) Hap Hx (_ & Hpol & Hcls & _) Hd1 Hd2 Hlen.
  pose proof Hap as (Hnd & _ & Hh & Hdis). apply NoDup_cons in Hnd as [Hnt Hnd].
  destruct (Hh t) as [Hh1 Hh2]; [left|].
  destruct (rr_enqueue_spec s SCHED_NORMAL r ts t false Hq Hd1) as (m1 & Hr1 & Hl1 & Hf1 & Hdm1);
    [set_solver|done|].
  assert (is_list m1 legacy_queue (run_node <$> ts)) as Hleg1.
  { eapply (apart_frame (t :: ts) (t :: ts) ts); [done|done|set_solver|done|done]. }
  destruct (list_add_tail_spec (run_node t) _ _ _ Hleg1) as (m2 & Hr2 & Hl2 & Hf2 & Hdm2).
  { rewrite not_elem_of_cons, list_elem_of_fmap. split; [set_solver|]. by intros (u & ->%(inj run_node) & ?). }
  { by apply (dom_is_Some (nodes s)). }
  unfold sched_enqueue_task, with_class. rewrite (get_task_ok _ _ _ Hx), outcome_bind_ret, Hcls, Hpol.
  cbn [ops rr_ops enqueue_task]. rewrite Hr1, outcome_bind_ret, (on_nodes_ok _ _ m2) by done.
  eexists. split; [done|]. destruct Hq as (Hl & Hr & Hn). split; [|split].
  - split; [|split].
    + exists (add_running 1 r). split; [|done].
      change (rr_queue (with_rqs (zinsert (rqs s) SCHED_NORMAL (add_running 1 r)) (with_nodes m2 s))
        SCHED_NORMAL (add_running 1 r) (ts ++ [t])).
      apply (rr_queue_update _ _ _ ts); rewrite ?length_app; cbn [length]; try done; try lia.
      eapply (apart_frame_legacy (t :: ts) (ts ++ [t]) (t :: ts)); [done|set_solver|done| |done].
      intros a Ha. apply Hf2. set_solver.
    + by rewrite fmap_app.
    + cbn -[u32 Z.of_nat length]. rewrite Htot, u32_small, length_app by lia. cbn [length]. lia.
  - intros a Ha. unfold queue_nodes in Ha. rewrite !fmap_cons, !not_elem_of_cons, not_elem_of_app, !not_elem_of_cons in Ha.
    cbn. rewrite Hf2, Hf1; [done|..]; rewrite ?fmap_cons, !not_elem_of_cons; tauto.
  - split_and!; try done; cbn -[zlookup zinsert]; [|congruence].
    by apply zlookup_zinsert_ne.
Qed.

Lemma sched_dequeue_rr s ts1 t ts2 x st : rr_queues s (ts1 ++ t :: ts2) → apart (ts1 ++ t :: ts2) →
  tasks s !! t = Some x → rr_task st x → Z.of_nat (length (ts1 ++ t :: ts2)) < 2 ^ 32 →
  ∃ s', sched_dequeue_task (Some t) s = Ret s' ∧ rr_queues s' (ts1 ++ ts2) ∧ queues_only s s'.
Proof.
  intros ((r & Hq & Hc) & Hleg & Htot) Hap Hx (_ & Hpol & Hcls & _) Hlen.
  set (ts := ts1 ++ t :: ts2) in *. assert (ts1 ++ ts2 ⊆ ts) as Hsub by set_solver.
  assert (Z.of_nat (length ts) = Z.of_nat (length (ts1 ++ ts2)) + 1) as Hlen'.
  { subst ts. rewrite !length_app. cbn [length]. lia. }
  destruct (rr_dequeue_spec s SCHED_NORMAL r ts1 t ts2 Hq) as (m1 & Hr1 & Hl1 & Hs1 & Hf1 & Hdm1).
  assert (is_list m1 legacy_queue (run_node <$> ts)) as Hleg1.
  { by eapply (apart_frame ts ts ts). }
  unfold ts in Hleg1. rewrite fmap_app, fmap_cons in Hleg1.
  destruct (list_del_init_spec _ _ _ _ _ Hleg1) as (m2 & Hr2 & Hl2 & _ & Hf2 & Hdm2).
  unfold sched_dequeue_task, with_class. rewrite (get_task_ok _ _ _ Hx), outcome_bind_ret, Hcls, Hpol.
  cbn [ops rr_ops dequeue_task]. rewrite Hr1, outcome_bind_ret. cbn [total_running with_rqs with_nodes].
  destruct (Z.ltb_spec 0 (total_running s)); [|lia].
  rewrite (on_nodes_ok _ _ m2) by done.
  eexists. split; [done|]. destruct Hq as (Hl & Hr & Hn). split.
  - split; [|split].
    + exists (add_running (-1) r). split; [|done].
      change (rr_queue (with_rqs (zinsert (rqs s) SCHED_NORMAL (add_running (-1) r)) (with_nodes m2 s))
        SCHED_NORMAL (add_running (-1) r) (ts1 ++ ts2)).
      apply (rr_queue_update _ _ _ ts); try done; try lia.
      eapply (apart_frame_legacy ts (ts1 ++ ts2) ts); [done..| |done].
      intros a Ha. apply Hf2. by rewrite <- fmap_cons, <- fmap_app.
    + by rewrite fmap_app.
    + cbn -[Z.of_nat length app]. lia.
  - split_and!; try done; cbn -[zlookup zinsert]; [|congruence].
    by apply zlookup_zinsert_ne.
Qed.

(** [c] runs under the normal policy, the tasks [ts] wait for their turn, and
    the priority queue is empty. *)
Definition rr_running s (c : Z) (ts : list Z) : Prop :=
  current s = Some c ∧ rq_set s = true ∧ (∀ t, t ∈ c :: ts → idle s ≠ Some t) ∧
  (∃ x, tasks s !! c = Some x ∧ rr_task PROC_RUNNING x ∧ 0 ≤ time_slice x ≤ RR_TIMESLICE_DEFAULT) ∧
  (∀ t, t ∈ ts → ∃ x, tasks s !! t = Some x ∧ rr_task PROC_READY x) ∧
  rr_queues s ts ∧ (∃ r, zlookup (rqs s) SCHED_PRIORITY = Some r ∧ nr_running r = 0) ∧
  apart (c :: ts) ∧ is_Some (nodes s !! se_node c) ∧ is_Some (nodes s !! run_node c) ∧
  Z.of_nat (length ts) + 1 < 2 ^ 32.
Definition slice_of s (c : Z) : Z := default 0 (time_slice <$> tasks s !! c).

(** Timer interrupts, then a call of the scheduler. *)
Fixpoint ticks (n : nat) s : outcome scheduler :=
  match n with O => Ret s | S n' => s ← sched_timer_tick_handler s; ticks n' s end.
Definition turn (n : nat) s : outcome scheduler := s ← ticks n s; r ← schedule s; Ret (snd (r : option Z * scheduler)).
Fixpoint turns (n k : nat) s : outcome scheduler :=
  match k with O => Ret s | S k' => s ← turn n s; turns n k' s end.

Lemma pick_from_empty s rq r prev : zlookup (rqs s) rq = Some r → nr_running r = 0 →
  pick_from rq prev s = Ret (None, s).
Proof.
  intros Hr Hn. unfold pick_from. rewrite (get_rq_ok _ _ _ Hr), outcome_bind_ret, Hn. by destruct (rq_class r).
Qed.
Lemma pick_from_rr s r t ts prev : rr_queue s SCHED_NORMAL r (t :: ts) → rq_class r = Some rr_sched_class →
  pick_from SCHED_NORMAL prev s = Ret (Some t, s).
Proof.
  intros Hq Hc. pose proof Hq as (_ & Hr & Hn). unfold pick_from.
  rewrite (get_rq_ok _ _ _ Hr), outcome_bind_ret, Hc, Hn.
  destruct (Z.ltb_spec 0 (Z.of_nat (length (t :: ts)))) as [_|Hlt]; [|cbn [length] in Hlt; lia].
  cbn [ops rr_ops pick_next_task]. by rewrite (rr_pick_spec _ _ _ _ _ Hq).
Qed.

Lemma rr_tick s c ts : rr_running s c ts → ∃ s', sched_timer_tick_handler s = Ret s' ∧ rr_running s' c ts ∧
  slice_of s' c = Z.max 0 (slice_of s c - 1).
Proof.
  intros (Hc & Hset & Hidle & (x & Hx & Hrx & Hsl) & Hts & Hq & Hp & Hap & Hd1 & Hd2 & Hlen).
  unfold sched_timer_tick_handler. rewrite Hc, Hset, (get_task_ok _ _ _ Hx). cbn [negb]. rewrite outcome_bind_ret.
  pose proof Hrx as (Hst & Hpol & Hcls & Htot). rewrite Hcls. cbn [ops rr_ops task_tick]. unfold rr_task_tick.
  rewrite (upd_task_ok _ _ _ _ Hx). eexists. split; [done|]. split.
  - split_and!; try done.
    + exists (tick x). cbn [tasks with_tasks]. rewrite lookup_insert_eq. split; [done|].
      unfold tick. destruct (Z.ltb_spec 0 (time_slice x)); [|by split].
      split; [done|]. cbn [time_slice set_slice]. lia.
    + intros t Ht. cbn [tasks with_tasks]. rewrite lookup_insert_ne; [by apply Hts|]. intros ->.
      destruct Hap as (Hnd & _). by apply NoDup_cons in Hnd as [? _].
  - unfold slice_of. cbn [tasks with_tasks]. rewrite lookup_insert_eq, Hx. cbn [fmap option_fmap option_map default from_option id].
    unfold tick. destruct (Z.ltb_spec 0 (time_slice x)); cbn [time_slice set_slice]; lia.
Qed.

Lemma rr_ticks n s c ts : rr_running s c ts → ∃ s', ticks n s = Ret s' ∧ rr_running s' c ts ∧
  slice_of s' c = Z.max 0 (slice_of s c - Z.of_nat n).
Proof.
  revert s. induction n as [|n IH]; intros s Hs; cbn [ticks].
  - exists s. split_and!; try done. destruct Hs as (_ & _ & _ & (x & Hx & _ & Hsl) & _).
    unfold slice_of. rewrite Hx. cbn. lia.
  - destruct (rr_tick s c ts Hs) as (s1 & -> & Hs1 & He1). rewrite outcome_bind_ret.
    destruct (IH s1 Hs1) as (s2 & -> & Hs2 & He2). exists s2. split_and!; [done..|lia].
Qed.

Lemma rr_pick_next s c t ts : rr_running s c (t :: ts) → slice_of s c = 0 →
  sched_pick_next_task (sched_clear_resched s) = Ret (Some t, sched_clear_resched s).
Proof.
  intros (Hc & Hset & Hidle & (x & Hx & Hrx & Hsl) & Hts & Hq & (rp & Hrp & Hnp) & _) Hz.
  unfold slice_of in Hz. rewrite Hx in Hz. cbn in Hz.
  set (s0 := sched_clear_resched s). destruct Hq as ((r & Hq & Hcl) & _).
  unfold sched_pick_next_task. cbn [current s0 sched_clear_resched with_resched].
  rewrite Hc, (get_task_ok s0 _ _ Hx), !outcome_bind_ret, Hz. rewrite andb_false_r.
  rewrite (pick_from_empty s0 _ _ _ Hrp Hnp), outcome_bind_ret. by apply (pick_from_rr s0 r t ts).
Qed.

(** The switch from [c] to [t], once [t] has been picked. *)
Definition preempted (x : task) : task := set_state PROC_READY x.
Definition dispatched (y : task) : task :=
  set_slice (time_slice_total y) (time_slice_total y) (set_state PROC_RUNNING y).

Lemma rr_switch s c t ts x y : rr_running s c (t :: ts) → slice_of s c = 0 →
  tasks s !! c = Some x → tasks s !! t = Some y →
  ∃ s', schedule s = Ret (Some t, s') ∧ rr_queues s' (ts ++ [c]) ∧
    tasks s' = <[t := dispatched y]> (<[c := preempted x]> (tasks s)) ∧ current s' = Some t ∧
    rq_set s' = rq_set s ∧ idle s' = idle s ∧
    zlookup (rqs s') SCHED_PRIORITY = zlookup (rqs s) SCHED_PRIORITY ∧ dom (nodes s') = dom (nodes s).
Proof.
  intros Hs Hz Hx Hy. pose proof (rr_pick_next _ _ _ _ Hs Hz) as Hpick.
  destruct Hs as (Hc & Hset & Hidle & (x' & Hx' & Hrx & Hsl) & Hts & Hq & _ & Hap & Hd1 & Hd2 & Hlen).
  assert (c ≠ t) as Hct. { destruct Hap as (Hnd & _). apply NoDup_cons in Hnd as [? _]. set_solver. }
  destruct (Hts t) as (y' & Hy' & Hry); [left|].
  assert (x' = x) as -> by congruence. assert (y' = y) as -> by congruence.
  set (s0 := sched_clear_resched s) in *. set (s1 := with_tasks (<[c := preempted x]> (tasks s0)) s0).
  assert (rr_task PROC_READY (preempted x)) as Hrx1 by (destruct Hrx as (? & ?); by split).
  destruct (sched_enqueue_rr s1 (t :: ts) c (preempted x) PROC_READY)
    as (s2 & He2 & Hq2 & _ & Ht2 & Hs2 & Hc2 & Hi2 & Hr2 & Hd'2); [done|done|apply lookup_insert_eq|done..|].
  assert (apart ((t :: ts) ++ [c])) as Hap2. { eapply apart_perm; [|done]. by rewrite (comm app). }
  destruct (sched_dequeue_rr s2 [] t (ts ++ [c]) y PROC_READY)
    as (s3 & He3 & Hq3 & Ht3 & Hs3 & Hc3 & Hi3 & Hr3 & Hd'3);
    [done|done|by rewrite Ht2; cbn; rewrite lookup_insert_ne|done| |].
  { rewrite app_nil_l. cbn [length] in *. rewrite length_app. cbn [length]. lia. }
  set (y1 := set_state PROC_RUNNING y).
  assert (tasks s3 !! t = Some y) as Hy3. { rewrite Ht3, Ht2. cbn. by rewrite lookup_insert_ne. }
  set (s4 := with_current (Some t) (with_tasks (<[t := y1]> (tasks s3)) s3)).
  exists (with_tasks (<[t := dispatched y]> (tasks s4)) s4). split; [|split_and!; cbn -[zlookup]; try done].
  - unfold schedule. fold s0. rewrite Hpick, outcome_bind_ret, Hc.
    rewrite bool_decide_false by congruence.
    change (idle s0) with (idle s). rewrite bool_decide_false by (intros He; by apply (Hidle c); [left|]).
    rewrite (upd_task_ok s0 _ _ _ Hx). rewrite bool_decide_true by apply Hrx. rewrite outcome_bind_ret.
    change (with_tasks (<[c := set_state PROC_READY x]> (tasks s0)) s0) with s1.
    rewrite (get_task_ok s1 c (preempted x)) by apply lookup_insert_eq. rewrite outcome_bind_ret, bool_decide_true by done.
    rewrite He2, outcome_bind_ret, Hi2. change (idle s1) with (idle s).
    rewrite bool_decide_false by (intros He; by apply (Hidle t); [right; left|]).
    rewrite He3, outcome_bind_ret, (upd_task_ok s3 _ _ _ Hy3), outcome_bind_ret.
    unfold sched_reset_time_slice, with_class. fold y1 s4.
    rewrite (get_task_ok s4 t y1) by apply lookup_insert_eq. rewrite outcome_bind_ret.
    replace (sched_class y1) with (Some rr_sched_class) by (symmetry; apply Hry).
    rewrite (upd_task_ok s4 t y1) by apply lookup_insert_eq. by rewrite outcome_bind_ret.
  - rewrite insert_insert_eq. by rewrite Ht3, Ht2.
  - by rewrite Hs3, Hs2.
  - by rewrite Hi3, Hi2.
  - by rewrite Hr3, Hr2.
  - by rewrite Hd'3, Hd'2.
Qed.

(** The whole of [schedule] when the running task has used up its slice: it
    goes to the back of the queue and the first waiting task runs. *)
Lemma schedule_rotates s c t ts : rr_running s c (t :: ts) → slice_of s c = 0 →
  ∃ s', schedule s = Ret (Some t, s') ∧ rr_running s' t (ts ++ [c]) ∧ slice_of s' t = RR_TIMESLICE_DEFAULT.
Proof.
  intros Hs Hz. pose proof Hs as (Hc & Hset & Hidle & (x & Hx & Hrx & Hsl) & Hts & Hq & Hp & Hap & Hd1 & Hd2 & Hlen).
  destruct (Hts t) as (y & Hy & Hry); [left|].
  assert (t :: ts ++ [c] ≡ₚ c :: t :: ts) as Hperm by (by rewrite app_comm_cons, (comm app)).
  assert (NoDup (t :: ts ++ [c])) as Hnd by (rewrite Hperm; apply Hap).
  destruct (rr_switch s c t ts x y Hs Hz Hx Hy) as (s' & -> & Hq' & Ht' & Hc' & Hset' & Hi' & Hr' & Hd').
  pose proof Hry as (_ & _ & _ & Htot). pose proof Hq as ((r & (Hl & _) & _) & Hleg & _).
  exists s'. split; [done|]. split; [|unfold slice_of; rewrite Ht', lookup_insert_eq; done].
  unfold rr_running. rewrite Hset', Hc', Hi', Hr', Ht'. split_and!; try done.
  - intros u Hu. apply Hidle. by rewrite <- Hperm.
  - exists (dispatched y). rewrite lookup_insert_eq. split; [done|].
    destruct Hry as (_ & ? & ? & ?). split; [by split|]. cbn [dispatched set_slice time_slice]. rewrite Htot.
    unfold RR_TIMESLICE_DEFAULT, DEF_TIMESLICE_MS. lia.
  - intros u Hu. apply NoDup_cons in Hnd as [Ht Hnd]. rewrite lookup_insert_ne by (intros ->; done).
    destruct (decide (u = c)) as [->|Huc].
    + rewrite lookup_insert_eq. exists (preempted x). split; [done|]. destruct Hrx as (? & ?). by split.
    + rewrite lookup_insert_ne by done. apply Hts. set_solver.
  - by eapply apart_perm.
  - eapply dom_is_Some; [done|]. apply (is_list_nodes _ _ _ _ Hl). right; left.
  - eapply dom_is_Some; [done|]. apply (is_list_nodes _ _ _ _ Hleg). right; left.
  - rewrite length_app. cbn [length] in *. lia.
Qed.

(** A turn: the running task receives its whole slice and the scheduler is
    called. *)
Lemma rr_turn n s c t ts : rr_running s c (t :: ts) → (Z.to_nat RR_TIMESLICE_DEFAULT ≤ n)%nat →
  ∃ s', turn n s = Ret s' ∧ rr_running s' t (ts ++ [c]).
Proof.
  intros Hs Hn. unfold turn. destruct (rr_ticks n s c (t :: ts) Hs) as (s1 & -> & Hs1 & Hz). rewrite outcome_bind_ret.
  destruct (schedule_rotates s1 c t ts Hs1) as (s2 & -> & Hs2 & _).
  - destruct Hs as (_ & _ & _ & (x & Hx & _ & Hsl) & _). rewrite Hz. unfold slice_of. rewrite Hx.
    cbn [fmap option_fmap option_map default from_option id]. lia.
  - by exists s2.
Qed.

(** C23: Round robin is fair, over the whole path of timer ticks, task selection,
    re-queueing and dispatch: when tasks of the normal policy share the machine,
    each turn gives the processor to the task that has waited longest, so that
    after [k] turns the running task is the one [k] places after the first in
    the cycle, and every task runs once in every [length] turns; no task is ever
    lost from the queues. *)
Theorem round_robin_fair n k s c ts :
  rr_running s c ts → ts ≠ [] → (Z.to_nat RR_TIMESLICE_DEFAULT ≤ n)%nat →
  ∃ s' c' ts', turns n k s = Ret s' ∧ rr_running s' c' ts' ∧ c' :: ts' = rotate k (c :: ts) ∧
    current s' = (c :: ts) !! (k mod length (c :: ts))%nat.
Proof.
  intros Hs Hne Hn.
  assert (∃ s' c' ts', turns n k s = Ret s' ∧ rr_running s' c' ts' ∧ c' :: ts' = rotate k (c :: ts))
    as (s' & c' & ts' & ? & Hs' & He).
  { revert s c ts Hs Hne. induction k as [|k IH]; intros s c ts Hs Hne; cbn [turns].
    - exists s, c, ts. by rewrite rotate_0.
    - destruct ts as [|t ts]; [done|]. destruct (rr_turn n s c t ts Hs Hn) as (s1 & -> & Hs1).
      rewrite outcome_bind_ret. destruct (IH s1 t (ts ++ [c]) Hs1) as (s2 & c2 & ts2 & -> & Hs2 & He2).
      { by destruct ts. }
      exists s2, c2, ts2. by rewrite rotate_S. }
  exists s', c', ts'. split_and!; try done. destruct Hs' as (-> & _).
  change (Some c') with ((c' :: ts') !! 0%nat). rewrite He, lookup_rotate_r by (cbn; lia).
  assert (k mod length (c :: ts) < length (c :: ts))%nat as Hlt by (by apply Nat.mod_upper_bound).
  rewrite rotate_nat_add_add_mod, rotate_nat_add_alt, Nat.add_0_r, decide_True by (done || cbn; lia). done.
Qed.

(** ** The level queues of the priority class *)
Definition head_of (act : bool) (i : Z) : Z := if act then active_head i else expired_head i.
Definition level (i : Z) : Prop := 0 ≤ i < PRIO_LEVELS.

(** [Q true i] and [Q false i] are the tasks in the active and the expired
    queue of level [i], first to last. *)
Record levels (m : gmap Z list_head) (Q : bool → Z → list Z) : Prop := mk_levels {
  lv_list b i : level i → is_list m (head_of b i) (se_node <$> Q b i);
  lv_heads b i b' i' : level i → level i' → head_of b i = head_of b' i' → b = b' ∧ i = i';
  lv_disj b i b' i' t : level i → level i' → t ∈ Q b i → t ∈ Q b' i' → b = b' ∧ i = i';
  lv_nodes b i b' i' t : level i → level i' → t ∈ Q b i → se_node t ≠ head_of b' i';
  lv_temp : is_Some (m !! temp_head);
  lv_temp_fresh b i : level i → temp_head ∉ head_of b i :: (se_node <$> Q b i) }.

Definition cell (Q : bool → Z → list Z) (b : bool) (i : Z) : list Z := head_of b i :: (se_node <$> Q b i).
Definition swapped (i : Z) (Q : bool → Z → list Z) : bool → Z → list Z :=
  λ b j, if j =? i then Q (negb b) j else Q b j.

Lemma cells_disjoint m Q b i b' i' a : levels m Q → level i → level i' →
  a ∈ cell Q b i → a ∈ cell Q b' i' → b = b' ∧ i = i'.
Proof.
  intros Hl Hi Hi'. unfold cell. rewrite !elem_of_cons, !list_elem_of_fmap.
  intros [->|(t & -> & Ht)] [He|(u & He & Hu)].
  - by eapply lv_heads.
  - exfalso. by eapply (lv_nodes _ _ Hl b' i' b i).
  - exfalso. by eapply (lv_nodes _ _ Hl b i b' i').
  - apply (inj se_node) in He as ->. by eapply lv_disj.
Qed.

Lemma swap_rings m a e la le :
  is_list m a la → is_list m e le → is_Some (m !! temp_head) → NoDup (temp_head :: a :: e :: la ++ le) →
  ∃ m', (m ← INIT_LIST_HEAD temp_head m; m ← list_splice_init a temp_head m;
         m ← list_splice_init e a m; list_splice_init temp_head e m) = Ret m' ∧
    is_list m' a le ∧ is_list m' e la ∧ (∀ x, x ∉ temp_head :: a :: e :: la ++ le → m' !! x = m !! x) ∧
    dom m' = dom m.
Proof.
  intros Ha He Ht Hnd.
  assert (∀ l, l ⊆+ temp_head :: a :: e :: la ++ le → NoDup l) as Hsub.
  { intros l [k Hk]%submseteq_Permutation. rewrite Hk in Hnd. by apply NoDup_app in Hnd as (? & _). }
  apply NoDup_cons in Hnd as [Hn1 Hnd]. apply NoDup_cons in Hnd as [Hn2 Hnd]. apply NoDup_cons in Hnd as [Hn3 Hnd].
  apply NoDup_app in Hnd as (_ & Hdis & _).
  destruct (INIT_LIST_HEAD_spec temp_head m Ht) as (m1 & -> & Hl1 & Hf1 & Hd1). rewrite outcome_bind_ret.
  destruct (list_splice_init_spec m1 a temp_head [] la) as (m2 & -> & Hl2 & Ha2 & Hf2 & Hd2).
  { apply (is_list_frame m); [|done]. intros x Hx. apply Hf1. set_solver. }
  { done. } { apply Hsub. solve_submseteq. }
  rewrite app_nil_r in Hl2. rewrite outcome_bind_ret.
  destruct (list_splice_init_spec m2 e a [] le) as (m3 & -> & Ha3 & He3 & Hf3 & Hd3).
  { apply (is_list_frame m); [|done]. intros x Hx. rewrite Hf2, Hf1; set_solver. }
  { done. } { apply Hsub. solve_submseteq. }
  rewrite app_nil_r in Ha3. rewrite outcome_bind_ret.
  destruct (list_splice_init_spec m3 temp_head e [] la) as (m4 & -> & He4 & Ht4 & Hf4 & Hd4).
  { apply (is_list_frame m2); [|done]. intros x Hx. apply Hf3. set_solver. }
  { done. } { apply Hsub. solve_submseteq. }
  rewrite app_nil_r in He4. exists m4. split_and!; [done| |done| |congruence].
  - apply (is_list_frame m3); [|done]. intros x Hx. apply Hf4. set_solver.
  - intros x Hx. rewrite Hf4, Hf3, Hf2, Hf1; set_solver.
Qed.

(** [levels] only depends on the nodes of its rings and on which tasks are
    where: the rings of [m'] may hold other tasks of the same set. *)
Lemma levels_change m m' Q Q' : levels m Q → dom m' = dom m →
  (∀ b i, level i → is_list m' (head_of b i) (se_node <$> Q' b i)) →
  (∀ b i t, level i → t ∈ Q' b i → ∃ b' i', level i' ∧ t ∈ Q b' i') →
  (∀ b i b' i' t, level i → level i' → t ∈ Q' b i → t ∈ Q' b' i' → b = b' ∧ i = i') →
  levels m' Q'.
Proof.
  intros Hl Hd Hlist Hin Hdisj. split; try done.
  - apply Hl.
  - intros b i b' i' t Hi Hi' Ht. destruct (Hin b i t Hi Ht) as (b2 & i2 & Hi2 & Ht2). by eapply (lv_nodes _ _ Hl b2 i2).
  - eapply dom_is_Some; [done|]. apply Hl.
  - intros b i Hi. rewrite not_elem_of_cons, list_elem_of_fmap. split.
    + pose proof (lv_temp_fresh _ _ Hl b i Hi). set_solver.
    + intros (t & He & Ht). destruct (Hin b i t Hi Ht) as (b2 & i2 & Hi2 & Ht2).
      apply (lv_temp_fresh _ _ Hl b2 i2 Hi2). right. apply list_elem_of_fmap. eauto.
Qed.

Lemma swap_level_spec m Q i : levels m Q → level i →
  ∃ m', swap_level i m = Ret m' ∧ levels m' (swapped i Q).
Proof.
  intros Hl Hi. destruct (swap_rings m (active_head i) (expired_head i) (se_node <$> Q true i) (se_node <$> Q false i))
    as (m' & Hr & Ha & He & Hf & Hd).
  { apply (lv_list _ _ Hl true i Hi). } { apply (lv_list _ _ Hl false i Hi). } { apply Hl. }
  { pose proof (lv_temp_fresh _ _ Hl true i Hi) as Ht1. pose proof (lv_temp_fresh _ _ Hl false i Hi) as Ht2.
    pose proof (proj1 (lv_list _ _ Hl true i Hi)) as Hn1. pose proof (proj1 (lv_list _ _ Hl false i Hi)) as Hn2.
    assert (∀ a, a ∈ cell Q true i → a ∈ cell Q false i → False) as Hdis.
    { intros a H1 H2. by destruct (cells_disjoint m Q true i false i a). }
    unfold cell in Hdis. cbn [head_of] in *. apply NoDup_cons in Hn1 as [? ?]. apply NoDup_cons in Hn2 as [? ?].
    rewrite !NoDup_cons, NoDup_app. split_and!; try done; set_solver. }
  exists m'. split; [done|]. apply (levels_change m m' Q); [done|done|..]; unfold swapped.
  - intros b j Hj. destruct (Z.eqb_spec j i) as [->|Hne]; [by destruct b|].
    apply (is_list_frame m); [|by apply Hl]. intros a Hc. apply Hf.
    rewrite not_elem_of_cons. split; [intros ->; by apply (lv_temp_fresh _ _ Hl b j Hj)|].
    intros Hin. assert (a ∈ cell Q true i ∨ a ∈ cell Q false i) as [Hc'|Hc'] by (unfold cell; set_solver);
      destruct (cells_disjoint m Q b j _ i a Hl Hj Hi Hc Hc'); done.
  - intros b j t Hj. destruct (j =? i); eauto.
  - intros b j b' j' t Hj Hj'. destruct (Z.eqb_spec j i) as [->|], (Z.eqb_spec j' i) as [->|];
      intros H1 H2; destruct (lv_disj _ _ Hl _ _ _ _ _ Hj Hj' H1 H2); try done.
    by destruct b, b'.
Qed.

Lemma levels_ext m Q Q' : levels m Q → (∀ b i, level i → Q' b i = Q b i) → levels m Q'.
Proof.
  intros Hl He. apply (levels_change m m Q); [done|done|..].
  - intros b i Hi. rewrite He by done. by apply Hl.
  - intros b i t Hi. rewrite He by done. eauto.
  - intros b i b' i' t Hi Hi'. rewrite !He by done. by apply Hl.
Qed.

Lemma swap_levels_spec m Q : levels m Q →
  ∃ m', for_range 0 PRIO_LEVELS swap_level m = Ret m' ∧ levels m' (λ b, Q (negb b)).
Proof.
  intros Hl. destruct (for_range_ind (λ k m, levels m (λ b j, if j <? k then Q (negb b) j else Q b j))
    0 PRIO_LEVELS swap_level m) as (m' & Hr & Hl').
  - apply (levels_ext _ _ _ Hl). intros b i [Hi _]. destruct (Z.ltb_spec i 0); [lia|done].
  - intros i m1 Hi Hl1. destruct (swap_level_spec m1 _ i Hl1 Hi) as (m2 & Hr & Hl2). exists m2. split; [done|].
    apply (levels_ext _ _ _ Hl2). intros b j Hj. unfold swapped.
    destruct (Z.eqb_spec j i), (Z.ltb_spec j i), (Z.ltb_spec j (i + 1)); try done; lia.
  - exists m'. split; [done|]. apply (levels_ext _ _ _ Hl'). intros b i [_ Hi].
    destruct (Z.ltb_spec i (Z.max 0 PRIO_LEVELS)); [done|lia].
Qed.

(** [h] is the level of the first waiting active task, 127 when there is none. *)
Definition is_highest (Q : bool → Z → list Z) (h : Z) : Prop :=
  level h ∧ (∀ j, 0 ≤ j < h → Q true j = []) ∧ (Q true h = [] → h = PRIO_MIN).

Lemma is_highest_none Q h j : is_highest Q h → Q true h = [] → level j → Q true j = [].
Proof.
  intros (_ & Hlt & Hh) He [Hj0 Hj]. specialize (Hh He). destruct (decide (j = h)) as [->|]; [done|].
  apply Hlt. unfold PRIO_MIN, PRIO_LEVELS in *. lia.
Qed.

Lemma find_highest_spec s Q : levels (nodes s) Q → ∃ h, find_highest_prio s = Ret h ∧ is_highest Q h.
Proof.
  intros Hl. unfold find_highest_prio.
  destruct (find_loop_spec (Z.to_nat PRIO_LEVELS) 0
    (λ i, e ← list_is_empty (nodes s) (active_head i); Ret (negb e)) (λ i, negb (bool_decide (se_node <$> Q true i = []))))
    as [(r & -> & Hr & Hq & Hall)|(-> & Hall)].
  - intros j Hj. pose proof (lv_list _ _ Hl true j Hj) as Hlj. cbn [head_of] in Hlj.
    by rewrite (list_is_empty_spec _ _ _ Hlj).
  - cbn [mbind outcome_bind]. destruct (Z.eqb_spec r (-1)); [lia|]. exists r. split; [done|]. split; [done|]. split.
    + intros j Hj. specialize (Hall j Hj). apply negb_false_iff, bool_decide_eq_true in Hall. by eapply fmap_nil_inv.
    + intros He. by rewrite He in Hq.
  - cbn [mbind outcome_bind]. exists PRIO_MIN. split; [done|]. split; [unfold level, PRIO_MIN, PRIO_LEVELS; lia|].
    split; [|done]. intros j Hj. specialize (Hall j). unfold PRIO_MIN, PRIO_LEVELS in *.
    assert (negb (bool_decide (se_node <$> Q true j = [])) = false) as Hb by (apply Hall; lia).
    apply negb_false_iff, bool_decide_eq_true in Hb. by eapply fmap_nil_inv.
Qed.

(** ** Updates of one level *)
Definition set_level (Q : bool → Z → list Z) (b : bool) (i : Z) (l : list Z) : bool → Z → list Z :=
  λ b' i', if eqb b b' && (i =? i') then l else Q b' i'.
Definition queued (Q : bool → Z → list Z) (t : Z) : Prop := ∃ b i, level i ∧ t ∈ Q b i.

Lemma set_level_same Q b i l : set_level Q b i l b i = l.
Proof. unfold set_level. by rewrite eqb_reflx, Z.eqb_refl. Qed.
Lemma set_level_other Q b i l b' i' : (b', i') ≠ (b, i) → set_level Q b i l b' i' = Q b' i'.
Proof.
  intros Hne. unfold set_level. destruct (eqb b b') eqn:He; [|done]. apply eqb_prop in He as <-.
  destruct (Z.eqb_spec i i') as [<-|]; [|done]. done.
Qed.

(** A task can be queued: its node exists and is no queue head. *)
Definition can_queue (m : gmap Z list_head) (t : Z) : Prop :=
  is_Some (m !! se_node t) ∧ se_node t ≠ temp_head ∧ (∀ b i, level i → se_node t ≠ head_of b i).

Lemma levels_insert m m' Q b i t l' : levels m Q → level i → ¬ queued Q t → can_queue m t →
  is_list m' (head_of b i) (se_node <$> l') → l' ≡ₚ t :: Q b i →
  (∀ a, a ∉ head_of b i :: (se_node <$> t :: Q b i) → m' !! a = m !! a) → dom m' = dom m →
  levels m' (set_level Q b i l').
Proof.
  intros Hl Hi Hnq (Hs & Hnt & Hnh) Hlist Hp Hf Hd.
  assert (∀ b' i' u, level i' → u ∈ set_level Q b i l' b' i' →
    (u = t ∧ (b', i') = (b, i)) ∨ (u ≠ t ∧ u ∈ Q b' i')) as Hin.
  { intros b' i' u Hi'. destruct (decide ((b', i') = (b, i))) as [He|Hne].
    - injection He as -> ->. rewrite set_level_same, Hp. intros [->|Hu]%elem_of_cons; [by left|right].
      split; [|done]. intros ->. apply Hnq. by exists b, i.
    - rewrite set_level_other by done. intros Hu. right. split; [|done]. intros ->. apply Hnq. by exists b', i'. }
  split.
  - intros b' i' Hi'. destruct (decide ((b', i') = (b, i))) as [He|Hne].
    + injection He as -> ->. by rewrite set_level_same.
    + rewrite set_level_other by done. apply (is_list_frame m); [|by apply Hl]. intros a Ha. apply Hf.
      intros [->|[->|Ha']%elem_of_cons]%elem_of_cons.
      * destruct (cells_disjoint m Q b' i' b i (head_of b i)); [done..|by left|naive_solver].
      * apply elem_of_cons in Ha as [Ha|(u & He & Hu)%list_elem_of_fmap]; [by eapply Hnh|].
        apply (inj se_node) in He as <-. apply Hnq. by exists b', i'.
      * destruct (cells_disjoint m Q b' i' b i a); [done..|by right|naive_solver].
  - apply Hl.
  - intros b1 i1 b2 i2 u Hi1 Hi2 H1 H2.
    destruct (Hin _ _ _ Hi1 H1) as [[-> H1']|[Hu1 H1']], (Hin _ _ _ Hi2 H2) as [[Hu2 H2']|[Hu2 H2']];
      [naive_solver|done|done|by eapply lv_disj].
  - intros b1 i1 b2 i2 u Hi1 Hi2 H1.
    destruct (Hin _ _ _ Hi1 H1) as [[-> H1']|[Hu1 H1']]; [by apply Hnh|by eapply (lv_nodes _ _ Hl b1 i1)].
  - eapply dom_is_Some; [done|]. apply Hl.
  - intros b1 i1 Hi1. rewrite not_elem_of_cons, list_elem_of_fmap. split.
    + pose proof (lv_temp_fresh _ _ Hl b1 i1 Hi1). set_solver.
    + intros (u & He & Hu). destruct (Hin _ _ _ Hi1 Hu) as [[-> _]|[_ Hu']]; [done|].
      apply (lv_temp_fresh _ _ Hl b1 i1 Hi1). right. apply list_elem_of_fmap. eauto.
Qed.

Lemma levels_remove m m' Q b i l1 t l2 : levels m Q → level i → Q b i = l1 ++ t :: l2 →
  is_list m' (head_of b i) (se_node <$> l1 ++ l2) →
  (∀ a, a ∉ head_of b i :: (se_node <$> Q b i) → m' !! a = m !! a) → dom m' = dom m →
  levels m' (set_level Q b i (l1 ++ l2)).
Proof.
  intros Hl Hi HQ Hlist Hf Hd.
  assert (∀ b' i' u, u ∈ set_level Q b i (l1 ++ l2) b' i' → u ∈ Q b' i') as Hin.
  { intros b' i' u. destruct (decide ((b', i') = (b, i))) as [He|Hne].
    - injection He as -> ->. rewrite set_level_same, HQ. set_solver.
    - by rewrite set_level_other. }
  apply (levels_change m m' Q); [done|done|..].
  - intros b' i' Hi'. destruct (decide ((b', i') = (b, i))) as [He|Hne].
    + injection He as -> ->. by rewrite set_level_same.
    + rewrite set_level_other by done. apply (is_list_frame m); [|by apply Hl]. intros a Ha. apply Hf. intros Ha'.
      destruct (cells_disjoint m Q b' i' b i a); [done..|naive_solver].
  - intros b' i' u Hi' Hu. eauto.
  - intros b1 i1 b2 i2 u Hi1 Hi2 H1%Hin H2%Hin. by eapply lv_disj.
Qed.

(** The number of tasks in the active or the expired queues. *)
Definition count (Q : bool → Z → list Z) (b : bool) : Z :=
  foldr (λ i n, Z.of_nat (length (Q b i)) + n) 0 (seqZ 0 PRIO_LEVELS).

Lemma sum_change (f g : Z → Z) i l : NoDup l → i ∈ l → (∀ j, j ≠ i → g j = f j) →
  foldr (λ i n, g i + n) 0 l = foldr (λ i n, f i + n) 0 l - f i + g i.
Proof.
  intros Hnd Hi Hfg. induction l as [|x l IH]; [set_solver|]. apply NoDup_cons in Hnd as [Hx Hnd].
  cbn [foldr]. destruct (decide (x = i)) as [->|Hne].
  - assert (∀ l, i ∉ l → foldr (λ i n, g i + n) 0 l = foldr (λ i n, f i + n) 0 l) as He.
    { clear -Hfg. induction l as [|y l IH]; [done|]. intros Hy. cbn [foldr]. rewrite IH, Hfg by set_solver. done. }
    rewrite He by done. lia.
  - rewrite IH, (Hfg x) by set_solver. lia.
Qed.

Lemma count_set_level Q b i l : level i → count (set_level Q b i l) b = count Q b - Z.of_nat (length (Q b i)) + Z.of_nat (length l).
Proof.
  intros Hi. unfold count. rewrite (sum_change (λ j, Z.of_nat (length (Q b j))) (λ j, Z.of_nat (length (set_level Q b i l b j))) i).
  - by rewrite set_level_same.
  - apply NoDup_seqZ.
  - apply elem_of_seqZ. unfold level in Hi. lia.
  - intros j Hj. rewrite set_level_other by congruence. done.
Qed.
Lemma count_set_level_other Q b b' i l : b ≠ b' → count (set_level Q b i l) b' = count Q b'.
Proof.
  intros Hne. unfold count. assert (∀ j, set_level Q b i l b' j = Q b' j) as He.
  { intros j. apply set_level_other. congruence. }
  induction (seqZ 0 PRIO_LEVELS) as [|j js IH]; [done|]. cbn [foldr]. by rewrite He, IH.
Qed.
Lemma count_nonneg Q b : 0 ≤ count Q b.
Proof. unfold count. induction (seqZ 0 PRIO_LEVELS); cbn [foldr]; lia. Qed.
Lemma count_zero Q b i : count Q b = 0 → level i → Q b i = [].
Proof.
  unfold count. intros Hc Hi. assert (i ∈ seqZ 0 PRIO_LEVELS) as Hin by (apply elem_of_seqZ; unfold level in Hi; lia).
  assert (∀ l, 0 ≤ foldr (λ i n, Z.of_nat (length (Q b i)) + n) 0 l) as Hpos.
  { intros l. induction l; cbn [foldr]; lia. }
  clear Hi. induction (seqZ 0 PRIO_LEVELS) as [|x l IH]; [set_solver|]. cbn [foldr] in Hc. specialize (Hpos l).
  apply elem_of_cons in Hin as [->|Hin]; [|apply IH; [lia|done]]. destruct (Q b x); [done|]. cbn [length] in Hc. lia.
Qed.
Lemma count_empty Q b : (∀ i, level i → Q b i = []) → count Q b = 0.
Proof.
  intros He. unfold count. assert (∀ i, i ∈ seqZ 0 PRIO_LEVELS → Q b i = []) as He'.
  { intros i Hi%elem_of_seqZ. apply He. unfold level. lia. }
  clear He. induction (seqZ 0 PRIO_LEVELS) as [|x l IH]; [done|]. cbn [foldr]. rewrite He', IH by set_solver. done.
Qed.

(** The invariant of the priority queue: rings, counters and the cached
    highest level agree. *)
Definition prio_inv s rq (Q : bool → Z → list Z) : Prop :=
  levels (nodes s) Q ∧ nr_active (prio_data s) = count Q true ∧ nr_expired (prio_data s) = count Q false ∧
  is_highest Q (highest_prio (prio_data s)) ∧ count Q true + count Q false + 1 < 2 ^ 32 ∧
  ∃ r, zlookup (rqs s) rq = Some r ∧ nr_running r = count Q true + count Q false.

Lemma prio_swap_spec s rq Q : prio_inv s rq Q →
  ∃ s', prio_swap_active_expired s = Ret s' ∧ prio_inv s' rq (λ b, Q (negb b)) ∧ tasks s' = tasks s.
Proof.
  intros (Hl & Ha & He & _ & Hlt & r & Hr & Hn). destruct (swap_levels_spec _ _ Hl) as (m' & Hm & Hl').
  unfold prio_swap_active_expired. rewrite (on_nodes_ok _ _ _ Hm), outcome_bind_ret.
  set (s1 := with_prio _ _). destruct (find_highest_spec s1 (λ b, Q (negb b)) Hl') as (h & -> & Hh).
  rewrite outcome_bind_ret. eexists. split; [done|]. split; [|done].
  split; [exact Hl'|]. split_and!; [done|done|exact Hh| |].
  - change (count Q false + count Q true + 1 < 2 ^ 32). lia.
  - exists r. split; [done|]. change (nr_running r = count Q false + count Q true). lia.
Qed.

Lemma clamp_prio_level p : level (clamp_prio p).
Proof.
  unfold clamp_prio, level, PRIO_MAX, PRIO_MIN, PRIO_LEVELS. destruct (Z.ltb_spec p 0); [lia|]. destruct (Z.ltb_spec 127 p); lia.
Qed.

(** Where an enqueue puts a task. *)
Definition enqueued (Q : bool → Z → list Z) (t : Z) (x : task) (at_head : bool) : bool → Z → list Z :=
  let b := negb (time_slice x =? 0) in let i := clamp_prio (priority x) in
  set_level Q b i (if at_head then t :: Q b i else Q b i ++ [t]).

Lemma is_highest_set_active Q h i l : is_highest Q h → level i → l ≠ [] →
  is_highest (set_level Q true i l) (if i <? h then i else h).
Proof.
  intros (Hh & Hlt & Hn) Hi Hne. destruct (Z.ltb_spec i h) as [Hih|Hih].
  - split; [done|]. split; [|by rewrite set_level_same]. intros j Hj. rewrite set_level_other by (intros [=]; lia). apply Hlt. lia.
  - split; [done|]. split; [intros j Hj; rewrite set_level_other by (intros [=]; lia); by apply Hlt|].
    destruct (decide (i = h)) as [->|Hne']; [by rewrite set_level_same|]. by rewrite set_level_other by congruence.
Qed.
Lemma is_highest_set_expired Q h i l : is_highest Q h → is_highest (set_level Q false i l) h.
Proof. done. Qed.

Lemma add_fun_if (at_head : bool) t h m :
  (if at_head then list_add t else list_add_tail t) h m = (if at_head then list_add t h else list_add_tail t h) m.
Proof. by destruct at_head. Qed.

Lemma prio_inv_update s rq Q m d r n : levels m Q →
  nr_active d = count Q true → nr_expired d = count Q false → is_highest Q (highest_prio d) →
  zlookup (rqs s) rq = Some r → nr_running r + n = count Q true + count Q false →
  count Q true + count Q false + 1 < 2 ^ 32 →
  prio_inv (with_rqs (zinsert (rqs s) rq (add_running n r)) (with_prio d (with_nodes m s))) rq Q.
Proof.
  intros Hl Ha He Hh Hr Hn Hlt. split_and!; try done. exists (add_running n r).
  pose proof (count_nonneg Q true). pose proof (count_nonneg Q false). split.
  - apply zlookup_zinsert_eq. by eapply zlookup_Some_lt.
  - cbn -[u32]. rewrite u32_small; lia.
Qed.

Lemma prio_enqueue_spec s rq Q t x at_head : prio_inv s rq Q → tasks s !! t = Some x →
  ¬ queued Q t → can_queue (nodes s) t → count Q true + count Q false + 2 < 2 ^ 32 →
  ∃ s', prio_enqueue_task rq t at_head s = Ret s' ∧ prio_inv s' rq (enqueued Q t x at_head) ∧ tasks s' = tasks s.
Proof.
  intros (Hl & Ha & He & Hh & _ & r & Hr & Hn) Hx Hnq Hcq Hlt.
  pose proof (clamp_prio_level (priority x)) as Hi. set (i := clamp_prio (priority x)) in *.
  pose proof (count_nonneg Q true). pose proof (count_nonneg Q false). pose proof (zlookup_Some_lt _ _ _ Hr).
  set (b := negb (time_slice x =? 0)). set (l' := if at_head then t :: Q b i else Q b i ++ [t]).
  assert (l' ≡ₚ t :: Q b i) as Hp by (unfold l'; destruct at_head; [done|by rewrite (comm app)]).
  destruct (add_tasks_spec _ _ t _ at_head (lv_list _ _ Hl b i Hi)) as (m' & Hm & Hl1 & Hf & Hd).
  { apply Hcq. } { by apply Hcq. } { intros Ht. apply Hnq. by exists b, i. }
  pose proof (levels_insert _ _ _ _ _ _ _ Hl Hi Hnq Hcq Hl1 Hp Hf Hd) as Hl'. fold l' in Hl'.
  assert (count (set_level Q b i l') b = count Q b + 1) as Hc1.
  { rewrite count_set_level, Hp by done. cbn [length]. lia. }
  assert (count (set_level Q b i l') (negb b) = count Q (negb b)) as Hc2 by (apply count_set_level_other; by destruct b).
  unfold prio_enqueue_task. rewrite (get_task_ok _ _ _ Hx), outcome_bind_ret. fold i.
  unfold enqueued. fold i b l'. destruct (time_slice x =? 0) eqn:Hz; subst b; cbn [negb head_of] in *;
    rewrite (on_nodes_ok _ _ m') by (by rewrite add_fun_if); rewrite !outcome_bind_ret, (upd_rq_ok _ _ r) by done;
    (eexists; split; [done|]); (split; [|done]);
    apply (prio_inv_update s rq _ m' (mk_prio _ _ _ _) r 1); cbn [nr_active nr_expired highest_prio]; try done; try lia.
  - rewrite u32_small; lia.
  - rewrite u32_small; lia.
  - apply is_highest_set_active; [done..|]. intros Hnil. by rewrite Hnil in Hp; apply Permutation_nil_cons in Hp.
Qed.

(** The dequeue decrements the counter its guess names; the guess is right when
    the task has no time left exactly if it sits in an expired queue. *)
Lemma prio_dequeue_spec s rq Q t x b i l1 l2 : prio_inv s rq Q → tasks s !! t = Some x →
  level i → Q b i = l1 ++ t :: l2 → b = negb (time_slice x =? 0) →
  ∃ s', prio_dequeue_task rq t s = Ret s' ∧ prio_inv s' rq (set_level Q b i (l1 ++ l2)) ∧ tasks s' = tasks s.
Proof.
  intros (Hl & Ha & He & Hh & Hlt & r & Hr & Hn) Hx Hi HQ Hb.
  pose proof (count_nonneg Q true). pose proof (count_nonneg Q false). pose proof (zlookup_Some_lt _ _ _ Hr).
  pose proof (lv_list _ _ Hl b i Hi) as Hlist. rewrite HQ, fmap_app, fmap_cons in Hlist.
  destruct (list_del_init_spec _ _ _ _ _ Hlist) as (m' & Hm & Hl1 & _ & Hf & Hd).
  rewrite <- fmap_app in Hl1. rewrite <- fmap_cons, <- fmap_app, <- HQ in Hf.
  pose proof (levels_remove _ _ _ _ _ _ _ _ Hl Hi HQ Hl1 Hf Hd) as Hl'.
  assert (count (set_level Q b i (l1 ++ l2)) b = count Q b - 1) as Hc1.
  { rewrite count_set_level, HQ, !length_app by done. cbn [length]. lia. }
  assert (count (set_level Q b i (l1 ++ l2)) (negb b) = count Q (negb b)) as Hc2 by (apply count_set_level_other; by destruct b).
  pose proof (count_nonneg (set_level Q b i (l1 ++ l2)) b) as Hpos.
  unfold prio_dequeue_task. rewrite (on_nodes_ok _ _ _ Hm), outcome_bind_ret, (get_task_ok _ _ x) by done.
  rewrite outcome_bind_ret. cbn [prio_data with_nodes].
  set (d := if _ && _ then _ else _).
  assert (nr_active d = count (set_level Q b i (l1 ++ l2)) true ∧ nr_expired d = count (set_level Q b i (l1 ++ l2)) false) as [Hda Hde].
  { subst d b. destruct (time_slice x =? 0); cbn [negb andb] in *.
    - destruct (Z.ltb_spec 0 (nr_expired (prio_data s))); [|lia]. cbn [nr_active nr_expired]. lia.
    - destruct (Z.ltb_spec 0 (nr_active (prio_data s))); [|lia]. cbn [nr_active nr_expired]. lia. }
  rewrite (upd_rq_ok _ _ r) by done. rewrite outcome_bind_ret.
  set (s1 := with_rqs _ _). destruct (find_highest_spec s1 _ Hl') as (h & -> & Hh'). rewrite outcome_bind_ret.
  eexists. split; [done|]. split; [|done].
  apply (prio_inv_update s rq _ m' (mk_prio _ _ _ _) r (-1)); cbn [nr_active nr_expired highest_prio]; try done;
    destruct b; cbn [negb] in *; lia.
Qed.

(** The queue operations of the priority class keep its invariant (the 256
    rings, the counters, the cached highest level): a task is queued at the end
    or the front of the level its clamped priority names, on the active side if
    it has time left and on the expired side if not; a dequeued task leaves its
    queue and nothing else moves, as long as the task still has time left just
    when it sits on the active side. *)
Theorem prio_queue_operations s rq Q t x : prio_inv s rq Q → tasks s !! t = Some x →
  (¬ queued Q t → can_queue (nodes s) t → count Q true + count Q false + 2 < 2 ^ 32 → ∀ at_head,
     ∃ s', prio_enqueue_task rq t at_head s = Ret s' ∧ prio_inv s' rq (enqueued Q t x at_head) ∧ tasks s' = tasks s) ∧
  (∀ b i l1 l2, level i → Q b i = l1 ++ t :: l2 → b = negb (time_slice x =? 0) →
     ∃ s', prio_dequeue_task rq t s = Ret s' ∧ prio_inv s' rq (set_level Q b i (l1 ++ l2)) ∧ tasks s' = tasks s).
Proof. intros Hs Hx. split; intros; [by apply prio_enqueue_spec|by eapply prio_dequeue_spec]. Qed.

(** The side the next task is taken from: the expired queues become the active
    ones when no active task is left. *)
Definition pick_side (Q : bool → Z → list Z) : bool → Z → list Z :=
  if count Q true =? 0 then λ b, Q (negb b) else Q.

Lemma prio_pick_active s Q : levels (nodes s) Q → count Q true ≠ 0 →
  ∃ t i l, (highest ← find_highest_prio s; if PRIO_LEVELS <=? highest then Ret (None, s) else
            n ← list_first (nodes s) (active_head highest); Ret (se_task <$> (n : option Z), s)) = Ret (Some t, s) ∧
    level i ∧ Q true i = t :: l ∧ ∀ j, 0 ≤ j < i → Q true j = [].
Proof.
  intros Hl Hc. destruct (find_highest_spec s Q Hl) as (h & -> & Hh). rewrite outcome_bind_ret.
  pose proof Hh as (Hlev & Hlt & _). destruct (Z.leb_spec PRIO_LEVELS h) as [Hge|_]; [destruct Hlev; lia|].
  pose proof (lv_list _ _ Hl true h Hlev) as Hlist. cbn [head_of] in Hlist.
  rewrite (list_first_spec _ _ _ Hlist), outcome_bind_ret. destruct (Q true h) as [|t l] eqn:HQ.
  - destruct Hc. apply count_empty. intros i. by apply (is_highest_none Q h).
  - exists t, h, l. cbn. by rewrite se_task_node.
Qed.

(** [t] is the first task of the first non-empty active level. *)
Definition is_first (Q : bool → Z → list Z) (t : Z) : Prop :=
  ∃ i l, level i ∧ Q true i = t :: l ∧ ∀ j, 0 ≤ j < i → Q true j = [].
Lemma is_first_unique Q t u : is_first Q t → is_first Q u → t = u.
Proof.
  intros (i & l & Hi & Ht & Hlt) (j & k & Hj & Hu & Hlt'). unfold level in *.
  destruct (Z.lt_trichotomy i j) as [Hij|[->|Hij]]; [|congruence|].
  - rewrite Hlt' in Ht by lia. done.
  - rewrite Hlt in Hu by lia. done.
Qed.

Lemma prio_pick_spec s rq Q prev : prio_inv s rq Q →
  ∃ r s', prio_pick_next_task rq prev s = Ret (r, s') ∧ tasks s' = tasks s ∧
    match r with
    | None => s' = s ∧ ∀ t, ¬ queued Q t
    | Some t => prio_inv s' rq (pick_side Q) ∧ is_first (pick_side Q) t
    end.
Proof.
  intros Hs. pose proof Hs as (Hl & Ha & He & _).
  pose proof (count_nonneg Q true). pose proof (count_nonneg Q false).
  unfold prio_pick_next_task. destruct (Z.eqb_spec (nr_active (prio_data s)) 0) as [Hz|Hz];
    destruct (Z.ltb_spec 0 (nr_expired (prio_data s))) as [Hp|Hp]; cbn [andb negb].
  2: { exists None, s. split_and!; try done. intros t (b & i & Hi & Ht).
       rewrite (count_zero Q b i) in Ht by (destruct b; lia || done). by apply not_elem_of_nil in Ht. }
  - destruct (prio_swap_spec _ _ _ Hs) as (s' & -> & Hs' & Ht). rewrite outcome_bind_ret.
    pose proof Hs' as (Hl' & _). destruct (prio_pick_active s' _ Hl') as (t & i & l & -> & Hrest); [change (count Q false ≠ 0); lia|].
    exists (Some t), s'. unfold pick_side. rewrite <- Ha, Hz. cbn [Z.eqb]. unfold is_first. eauto 10.
  - rewrite outcome_bind_ret. destruct (prio_pick_active s _ Hl) as (t & i & l & -> & Hrest); [lia|].
    exists (Some t), s. unfold pick_side. destruct (Z.eqb_spec (count Q true) 0); [lia|]. unfold is_first. eauto 10.
  - rewrite outcome_bind_ret. destruct (prio_pick_active s _ Hl) as (t & i & l & -> & Hrest); [lia|].
    exists (Some t), s. unfold pick_side. destruct (Z.eqb_spec (count Q true) 0); [lia|]. unfold is_first. eauto 10.
Qed.

(** C24: Selection in the priority class, in a state where the counters [nr_active] and
    [nr_expired] and the cached best level are exact ([prio_inv]; enqueueing
    and picking keep them so, but [prio_dequeue_task] can leave them wrong, see
    [prio_task_starves]): there is no next task only if no queue
    holds one; otherwise the next task is the first of the first non-empty level
    of the active queues, after the expired queues have taken their place if
    those were empty. The task stays queued and the invariant is kept. *)
Theorem prio_pick_correct s rq Q prev : prio_inv s rq Q →
  ∃ r s', prio_pick_next_task rq prev s = Ret (r, s') ∧ tasks s' = tasks s ∧
    match r with
    | None => s' = s ∧ ∀ t, ¬ queued Q t
    | Some t => prio_inv s' rq (pick_side Q) ∧ is_first (pick_side Q) t
    end.
Proof. apply prio_pick_spec. Qed.

Lemma is_first_queued Q t : is_first (pick_side Q) t → queued Q t.
Proof.
  unfold pick_side. intros (i & l & Hi & HQ & _). destruct (count Q true =? 0).
  - exists false, i. cbn in HQ. rewrite HQ. split; [done|left].
  - exists true, i. rewrite HQ. split; [done|left].
Qed.

Lemma queued_count Q t : queued Q t → 0 < count Q true + count Q false.
Proof.
  intros (b & i & Hi & Ht). pose proof (count_nonneg Q true). pose proof (count_nonneg Q false).
  destruct (decide (count Q b = 0)) as [Hz|Hz]; [|destruct b; lia].
  rewrite (count_zero Q b i Hz Hi) in Ht. by apply not_elem_of_nil in Ht.
Qed.

(** A running task with time left is only preempted by a better priority: the
    selection compares it with the task the priority class would run next and
    takes that one if its priority number is strictly smaller; otherwise, and
    when no priority task waits, the running task is kept. *)
Theorem running_task_preempted_by_priority s Q c x r :
  current s = Some c → tasks s !! c = Some x → state x = PROC_RUNNING → 0 < time_slice x →
  prio_inv s SCHED_PRIORITY Q → zlookup (rqs s) SCHED_PRIORITY = Some r → rq_class r = Some prio_sched_class →
  (∀ t, queued Q t → ∃ y, tasks s !! t = Some y ∧ sched_class y = Some prio_sched_class) →
  ∃ n s', sched_pick_next_task s = Ret (Some n, s') ∧ tasks s' = tasks s ∧
    ((∀ t, ¬ queued Q t) → n = c) ∧
    ∀ t y, is_first (pick_side Q) t → tasks s !! t = Some y → n = if priority y <? priority x then t else c.
Proof.
  intros Hc Hx Hst Hsl Hs Hr Hcls Htasks. unfold sched_pick_next_task.
  rewrite Hc, (get_task_ok _ _ _ Hx), !outcome_bind_ret, bool_decide_true by done.
  destruct (Z.ltb_spec 0 (time_slice x)); [|lia]. cbn [andb]. unfold pick_from.
  rewrite (get_rq_ok _ _ _ Hr), outcome_bind_ret, Hcls. cbn [ops prio_ops pick_next_task].
  destruct (prio_pick_spec s SCHED_PRIORITY Q (Some c) Hs) as ([t|] & s' & Hp & Ht & Hrest).
  - destruct Hrest as (Hs' & Hfirst). destruct (Htasks t (is_first_queued _ _ Hfirst)) as (y & Hy & Hcy).
    assert (0 < nr_running r) as Hn.
    { destruct Hs as (_ & _ & _ & _ & _ & r' & Hr' & Hn'). assert (r' = r) as -> by congruence.
      rewrite Hn'. by eapply queued_count, is_first_queued. }
    destruct (Z.ltb_spec 0 (nr_running r)); [|lia]. rewrite Hp, outcome_bind_ret.
    rewrite <- Ht in Hx, Hy. rewrite (get_task_ok _ _ _ Hy), outcome_bind_ret, Hcy. cbn [access]. rewrite outcome_bind_ret.
    cbn [ops prio_ops should_preempt]. unfold prio_should_preempt.
    rewrite (get_task_ok _ _ _ Hy), outcome_bind_ret, (get_task_ok _ _ _ Hx).
    rewrite !outcome_bind_ret. destruct (Z.eqb_spec (time_slice x) 0); [lia|]. rewrite andb_false_r, orb_false_r.
    exists (if priority y <? priority x then t else c), s'. split; [by destruct (_ <? _)|]. split; [done|]. split.
    + intros Hno. by destruct (Hno t (is_first_queued _ _ Hfirst)).
    + intros t' y' Hf' Hy'. assert (t' = t) as -> by (by eapply is_first_unique). rewrite <- Ht in Hy'. by simplify_eq.
  - exists c, s. destruct Hrest as (-> & Hno). split; [|split; [done|split; [done|]]].
    + destruct (0 <? nr_running r); [by rewrite Hp|done].
    + intros t y Hf. by destruct (Hno t (is_first_queued _ _ Hf)).
Qed.

End sched.

(** ** A concrete machine: two tasks at 10000 and 11000, no idle task *)
#[local] Instance demo_layout : Layout := {|
  se_off := 8; run_off := 40; rq_queue i := 1000 + 16 * i; legacy_queue := 1100;
  active_head i := 2000 + 16 * i; expired_head i := 6000 + 16 * i; temp_head := 900 |}.

Definition demo_nodes : gmap Z list_head :=
  list_to_map ((λ a, (a, mk_node a a)) <$>
    [900; 1000; 1016; 1100; 10008; 10040; 11008; 11040] ++
    (active_head <$> seqZ 0 PRIO_LEVELS) ++ (expired_head <$> seqZ 0 PRIO_LEVELS)).
Definition demo_task : task := mk_task PROC_READY SCHED_NORMAL None DEF_TIMESLICE_MS DEF_TIMESLICE_MS PRIO_DEFAULT 0.
Definition demo_start : scheduler :=
  mk_sched demo_nodes (list_to_map [(10000, demo_task); (11000, demo_task)]) [] false [] (mk_prio 0 0 0 false)
    None None 0 false.
(** Both classes registered, then both tasks given a policy and queued. *)
Definition demo_boot : outcome scheduler :=
  s ← sched_class_init demo_start; r ← sched_rr_init s; p ← sched_prio_init true (snd (r : Z * scheduler));
  Ret (snd (p : Z * scheduler)).
Definition demo_queue (pol : Z) : outcome scheduler :=
  s ← demo_boot;
  a ← sched_set_policy (Some 10000) pol 0 s;
  b ← sched_set_policy (Some 11000) pol 0 (snd (a : Z * scheduler));
  s ← sched_enqueue_task (Some 10000) false (snd (b : Z * scheduler));
  sched_enqueue_task (Some 11000) false s.
Definition demo_run (pol : Z) (n k : nat) : outcome scheduler :=
  s ← demo_queue pol; r ← schedule s; turns n k (snd (r : option Z * scheduler)).
Definition the_state (o : outcome scheduler) : scheduler := match o with Ret s => s | Fail _ => demo_start end.

Definition demo_rr : scheduler := the_state (demo_run SCHED_NORMAL 10 0).

Lemma is_list_self m h : m !! h = Some (mk_node h h) → is_list m h [].
Proof. intros Hh. split; [apply NoDup_singleton|]. unfold chain, linked, nxt, prv. by rewrite Hh. Qed.

Lemma demo_apart : apart [10000; 11000].
Proof.
  split_and!; [repeat constructor; set_solver|done|set_solver|].
  intros t u. rewrite !elem_of_cons, !elem_of_nil. unfold se_node, run_node. cbn. lia.
Qed.

Lemma demo_rr_running : rr_running demo_rr 10000 [11000].
Proof.
  split; [vm_compute; reflexivity|]. split; [vm_compute; reflexivity|].
  split; [vm_compute; intros; discriminate|].
  split; [eexists; split; [vm_compute; reflexivity|split; [by repeat split|vm_compute; split; discriminate]]|].
  split; [intros t ->%list_elem_of_singleton; eexists; split; [vm_compute; reflexivity|by repeat split]|].
  split; [|split; [eexists; split; [vm_compute; reflexivity|reflexivity]|split; [exact demo_apart|]]].
  - split; [|split; [split; [|vm_compute; by repeat split]|vm_compute; reflexivity]].
    + eexists. split; [split; [split; [|vm_compute; by repeat split]|split; [vm_compute; reflexivity|reflexivity]]|reflexivity].
      repeat constructor; set_solver.
    + repeat constructor; set_solver.
  - split; [vm_compute; by eexists|]. split; [vm_compute; by eexists|vm_compute; done].
Qed.

Lemma round_robin_fair_witness : ∃ s', turns 10 3 demo_rr = Ret s' ∧ current s' = Some 11000.
Proof.
  destruct (round_robin_fair 10 3 demo_rr 10000 [11000] demo_rr_running) as (s' & c' & ts' & H1 & _ & _ & H2).
  - discriminate.
  - vm_compute. lia.
  - exists s'. split; [exact H1|]. rewrite H2. reflexivity.
Defined.

(** The empty priority queue after initialization. *)
Definition demo_prio : scheduler :=
  the_state (s ← demo_boot; a ← sched_set_policy (Some 10000) SCHED_PRIORITY (-3) s; Ret (snd (a : Z * scheduler))).
Definition demo_x : task := default demo_task (tasks demo_prio !! 10000).
Definition no_tasks : bool → Z → list Z := λ _ _, [].

Lemma demo_heads b i : level i → nodes demo_prio !! head_of b i = Some (mk_node (head_of b i) (head_of b i)).
Proof.
  intros Hi. assert (i ∈ seqZ 0 PRIO_LEVELS) as Hin by (apply elem_of_seqZ; unfold level in Hi; lia).
  assert (Forall (λ i, nodes demo_prio !! head_of b i = Some (mk_node (head_of b i) (head_of b i))) (seqZ 0 PRIO_LEVELS)) as Hall.
  { apply (bool_decide_unpack _). destruct b; vm_compute; exact I. }
  by eapply Forall_forall in Hall.
Qed.

Lemma demo_prio_inv : prio_inv demo_prio SCHED_PRIORITY no_tasks.
Proof.
  split; [|split; [vm_compute; reflexivity|split; [vm_compute; reflexivity|split; [|split]]]].
  - split.
    + intros b i Hi. exact (is_list_self _ _ (demo_heads b i Hi)).
    + intros b i b' i' Hi Hi'. unfold level, PRIO_LEVELS in *. destruct b, b'; cbn; lia.
    + by intros b i b' i' t _ _ []%not_elem_of_nil.
    + by intros b i b' i' t _ _ []%not_elem_of_nil.
    + vm_compute. by eexists.
    + intros b i [Hi Hi']. unfold PRIO_LEVELS in Hi'. cbn [fmap list_fmap no_tasks].
      intros Hin%list_elem_of_singleton. destruct b; cbn in Hin; lia.
  - split; [vm_compute; split; discriminate || reflexivity|]. split; [reflexivity|]. intros _. vm_compute. reflexivity.
  - vm_compute. reflexivity.
  - eexists. split; [vm_compute; reflexivity|vm_compute; reflexivity].
Qed.

Lemma demo_can_queue : can_queue (nodes demo_prio) 10000.
Proof.
  split; [vm_compute; by eexists|]. split; [vm_compute; done|].
  intros b i [Hi Hi']. unfold PRIO_LEVELS in Hi'. unfold se_node. destruct b; cbn; lia.
Qed.

Lemma demo_x_ok : tasks demo_prio !! 10000 = Some demo_x.
Proof. vm_compute. reflexivity. Qed.

Lemma prio_queue_operations_witness : ∃ s', prio_enqueue_task SCHED_PRIORITY 10000 false demo_prio = Ret s' ∧
  prio_inv s' SCHED_PRIORITY (enqueued no_tasks 10000 demo_x false).
Proof.
  destruct (prio_queue_operations demo_prio SCHED_PRIORITY no_tasks 10000 demo_x demo_prio_inv demo_x_ok) as (He & _).
  destruct (He ltac:(intros (? & ? & _ & []%not_elem_of_nil)) demo_can_queue ltac:(vm_compute; reflexivity) false) as (s' & H1 & H2 & _).
  exists s'. split; [exact H1|exact H2].
Defined.

Lemma prio_pick_witness : ∃ s t s', prio_enqueue_task SCHED_PRIORITY 10000 false demo_prio = Ret s ∧
  prio_pick_next_task SCHED_PRIORITY None s = Ret (Some t, s').
Proof.
  destruct (prio_enqueue_spec demo_prio SCHED_PRIORITY no_tasks 10000 demo_x false demo_prio_inv demo_x_ok
    ltac:(intros (? & ? & _ & []%not_elem_of_nil)) demo_can_queue ltac:(vm_compute; reflexivity)) as (s & H1 & H2 & _).
  destruct (prio_pick_correct s SCHED_PRIORITY _ None H2) as ([t|] & s' & H3 & _ & H4).
  - exists s, t, s'. split; [exact H1|exact H3].
  - destruct H4 as (_ & H4). destruct (H4 10000). exists true, 61. clear. split; [unfold level, PRIO_LEVELS; lia|].
    vm_compute. left.
Defined.

(** A task of default priority runs and nothing waits. *)
Definition demo_running : scheduler :=
  with_current (Some 11000) (with_tasks (<[11000 := set_state PROC_RUNNING demo_task]> (tasks demo_prio)) demo_prio).
Lemma running_task_preempted_witness : ∃ s', sched_pick_next_task demo_running = Ret (Some 11000, s').
Proof.
  assert (prio_inv demo_running SCHED_PRIORITY no_tasks) as Hs by exact demo_prio_inv.
  destruct (running_task_preempted_by_priority demo_running no_tasks 11000 (set_state PROC_RUNNING demo_task)
    (mk_rq (Some prio_sched_class) 0 true)) as (n & s' & H1 & _ & H2 & _).
  - reflexivity.
  - apply lookup_insert_eq.
  - reflexivity.
  - reflexivity.
  - exact Hs.
  - vm_compute. reflexivity.
  - reflexivity.
  - intros t (? & ? & _ & []%not_elem_of_nil).
  - exists s'. rewrite H1, H2; [reflexivity|]. intros t (? & ? & _ & []%not_elem_of_nil).
Defined.

(** Two tasks of equal priority that use up their slices: the first runs, the
    second runs, the first runs again, and from then on the second never runs
    although it waits in the queue. A dequeue looks at the remaining time to
    guess the side a task is on; after the queues were swapped the guess is
    wrong, and the wrong counter hides the waiting task for good. *)
Theorem prio_task_starves : ∃ s,
  demo_run SCHED_PRIORITY 20 3 = Ret s ∧
  (current <$> demo_run SCHED_PRIORITY 20 0) = Ret (Some 10000) ∧
  (current <$> demo_run SCHED_PRIORITY 20 1) = Ret (Some 11000) ∧
  (current <$> demo_run SCHED_PRIORITY 20 2) = Ret (Some 10000) ∧
  (state <$> tasks s !! 11000) = Some PROC_READY ∧
  list_for_each (nodes s) (expired_head PRIO_DEFAULT) = Ret (Some [se_node 11000]) ∧
  rqs s !! Z.to_nat SCHED_PRIORITY = Some (mk_rq (Some prio_sched_class) 1 true) ∧
  ∀ k, turns 20 k s = Ret s ∧ current s = Some 10000.
Proof.
  exists (the_state (demo_run SCHED_PRIORITY 20 3)). set (s := the_state _).
  assert (turn 20 s = Ret s) as Hfix by (vm_compute; reflexivity).
  do 7 (split; [vm_compute; reflexivity|]). intros k. split; [|vm_compute; reflexivity].
  induction k as [|k IH]; [reflexivity|]. cbn [turns]. by rewrite Hfix, outcome_bind_ret.
Qed.

End Sched.
