(* ===== verification/Process.v ===== *)
(** * Processes and threads: [kernel/process/process.c], [thread.c], [process.h]

    A process control block is named by its address. What the scheduler uses of
    it is the task of [Sched], its list nodes lie at fixed offsets in the node
    store of [DList], the rest is the record [pcb]. The heap is the set of blocks
    in use and the list of the next answers of [kmalloc]; freeing a control block
    removes its record and its nodes, so that any later use of it faults. Address
    spaces come from [Vmm], process identifiers from a [Bitmap]. A call of
    [schedule] ends an operation: the context switch is assembly. Command names
    and start times, which are only displayed, are left out. *)
From S2P Require Import Prelude Bits Mem Bitmap E820 Pframe Page Vmm DList Sched.
Import Bitmap Pframe Page Vmm DList Sched.

Module Process.

Definition PID_MAX := 32768.
Definition KERNEL_STACK_SIZE := 16 * 1024.
Definition THREAD_STACK_BASE := USER_END - 64 * 1024 * 1024.
Definition THREAD_STACK_SIZE := 256 * 1024.

(** ** Data *)
Record memory_context := mk_mm { pml4_phys : Z; brk : Z; stack_start : Z }.
Record cpu_context := mk_ctx { c_rip : Z; c_rsp : Z }.
Record pcb := mk_pcb {
  pid : Z; ppid : Z; parent : Z; tgid : Z; is_thread : bool; exit_code : Z;
  mm : memory_context; mm_refcount : Z;
  cpu_ctx : Z; trap_frame : Z; kernel_stack : Z; kernel_stack_base : Z;
  is_user_mode : bool; user_stack : Z; user_stack_size : Z;
  join_waiters : Z; detached : bool; return_value : Z; thread_entry : Z; thread_arg : Z }.

(** Where the other list nodes of a control block lie, and the address of
    [thread_entry_wrapper]. *)
Class PcbLayout := {
  pl_sched :: Layout;
  siblings_off : Z; children_off : Z; zombie_off : Z; thread_list_off : Z; thread_group_off : Z;
  thread_entry_wrapper : Z }.

Record proc_state := mk_proc {
  sched : scheduler; pcbs : gmap Z pcb; ctxs : gmap Z cpu_context; pid_map : bitmap; vmm : vmm_state;
  heap : gset Z; kmallocs : list Z; join_queues : gmap Z (list Z); s_next_thread_stack : Z }.

Section process.
Context `{PcbLayout}.
Implicit Types (s : proc_state) (p : Z).

Definition siblings p : Z := p + siblings_off.
Definition children p : Z := p + children_off.
Definition zombie_children p : Z := p + zombie_off.
Definition thread_list p : Z := p + thread_list_off.
Definition thread_group p : Z := p + thread_group_off.
Definition pcb_nodes p : list Z :=
  [run_node p; siblings p; children p; zombie_children p; se_node p; thread_list p; thread_group p].

(** ** Field access *)
Definition with_sched (x : scheduler) s : proc_state :=
  mk_proc x (pcbs s) (ctxs s) (pid_map s) (vmm s) (heap s) (kmallocs s) (join_queues s) (s_next_thread_stack s).
Definition with_pcbs (x : gmap Z pcb) s : proc_state :=
  mk_proc (sched s) x (ctxs s) (pid_map s) (vmm s) (heap s) (kmallocs s) (join_queues s) (s_next_thread_stack s).
Definition with_ctxs (x : gmap Z cpu_context) s : proc_state :=
  mk_proc (sched s) (pcbs s) x (pid_map s) (vmm s) (heap s) (kmallocs s) (join_queues s) (s_next_thread_stack s).
Definition with_pids (x : bitmap) s : proc_state :=
  mk_proc (sched s) (pcbs s) (ctxs s) x (vmm s) (heap s) (kmallocs s) (join_queues s) (s_next_thread_stack s).
Definition with_vmm (x : vmm_state) s : proc_state :=
  mk_proc (sched s) (pcbs s) (ctxs s) (pid_map s) x (heap s) (kmallocs s) (join_queues s) (s_next_thread_stack s).
Definition with_heap (x : gset Z) (k : list Z) s : proc_state :=
  mk_proc (sched s) (pcbs s) (ctxs s) (pid_map s) (vmm s) x k (join_queues s) (s_next_thread_stack s).
Definition with_joins (x : gmap Z (list Z)) s : proc_state :=
  mk_proc (sched s) (pcbs s) (ctxs s) (pid_map s) (vmm s) (heap s) (kmallocs s) x (s_next_thread_stack s).
Definition with_stack (x : Z) s : proc_state :=
  mk_proc (sched s) (pcbs s) (ctxs s) (pid_map s) (vmm s) (heap s) (kmallocs s) (join_queues s) x.

Definition get_pcb p s : outcome pcb := access (pcbs s !! p).
Definition upd_pcb p (f : pcb → pcb) s : outcome proc_state :=
  x ← get_pcb p s; Ret (with_pcbs (<[p := f x]> (pcbs s)) s).
Definition on_sched (f : scheduler → outcome scheduler) s : outcome proc_state :=
  x ← f (sched s); Ret (with_sched x s).
Definition on_list (f : gmap Z list_head → outcome (gmap Z list_head)) s : outcome proc_state := on_sched (on_nodes f) s.
Definition on_vmm (f : vmm_state → outcome vmm_state) s : outcome proc_state := x ← f (vmm s); Ret (with_vmm x s).

Definition set_ids (i pp par tg : Z) (t : bool) (x : pcb) : pcb :=
  mk_pcb i pp par tg t (exit_code x) (mm x) (mm_refcount x) (cpu_ctx x) (trap_frame x) (kernel_stack x) (kernel_stack_base x)
    (is_user_mode x) (user_stack x) (user_stack_size x) (join_waiters x) (detached x) (return_value x) (thread_entry x) (thread_arg x).
Definition set_pid (i : Z) (x : pcb) : pcb := set_ids i (ppid x) (parent x) (tgid x) (is_thread x) x.
Definition set_exit (c : Z) (x : pcb) : pcb :=
  mk_pcb (pid x) (ppid x) (parent x) (tgid x) (is_thread x) c (mm x) (mm_refcount x) (cpu_ctx x) (trap_frame x) (kernel_stack x) (kernel_stack_base x)
    (is_user_mode x) (user_stack x) (user_stack_size x) (join_waiters x) (detached x) (return_value x) (thread_entry x) (thread_arg x).
Definition set_mm (m : memory_context) (x : pcb) : pcb :=
  mk_pcb (pid x) (ppid x) (parent x) (tgid x) (is_thread x) (exit_code x) m (mm_refcount x) (cpu_ctx x) (trap_frame x) (kernel_stack x) (kernel_stack_base x)
    (is_user_mode x) (user_stack x) (user_stack_size x) (join_waiters x) (detached x) (return_value x) (thread_entry x) (thread_arg x).
Definition set_ref (r : Z) (x : pcb) : pcb :=
  mk_pcb (pid x) (ppid x) (parent x) (tgid x) (is_thread x) (exit_code x) (mm x) r (cpu_ctx x) (trap_frame x) (kernel_stack x) (kernel_stack_base x)
    (is_user_mode x) (user_stack x) (user_stack_size x) (join_waiters x) (detached x) (return_value x) (thread_entry x) (thread_arg x).
Definition set_bufs (ctx stack base : Z) (x : pcb) : pcb :=
  mk_pcb (pid x) (ppid x) (parent x) (tgid x) (is_thread x) (exit_code x) (mm x) (mm_refcount x) ctx (trap_frame x) stack base
    (is_user_mode x) (user_stack x) (user_stack_size x) (join_waiters x) (detached x) (return_value x) (thread_entry x) (thread_arg x).
Definition set_user (u : bool) (st sz : Z) (x : pcb) : pcb :=
  mk_pcb (pid x) (ppid x) (parent x) (tgid x) (is_thread x) (exit_code x) (mm x) (mm_refcount x) (cpu_ctx x) (trap_frame x) (kernel_stack x) (kernel_stack_base x)
    u st sz (join_waiters x) (detached x) (return_value x) (thread_entry x) (thread_arg x).
Definition set_thread (j : Z) (d : bool) (r e a : Z) (x : pcb) : pcb :=
  mk_pcb (pid x) (ppid x) (parent x) (tgid x) (is_thread x) (exit_code x) (mm x) (mm_refcount x) (cpu_ctx x) (trap_frame x) (kernel_stack x) (kernel_stack_base x)
    (is_user_mode x) (user_stack x) (user_stack_size x) j d r e a.
Definition zero_pcb : pcb := mk_pcb 0 0 0 0 false 0 (mk_mm 0 0 0) 0 0 0 0 0 false 0 0 0 false 0 0 0.
Definition zero_task : task := mk_task PROC_READY 0 None 0 0 0 0.

(** ** The heap *)
Definition kmalloc s : Z * proc_state :=
  let a := default 0 (head (kmallocs s)) in
  (a, with_heap (if a =? 0 then heap s else {[ a ]} ∪ heap s) (tail (kmallocs s)) s).
Definition kfree (a : Z) s : proc_state := with_heap (heap s ∖ {[ a ]}) (kmallocs s) s.
(** [memset(pcb, 0, sizeof(pcb_t))] on a new block *)
Definition clear_pcb p s : proc_state :=
  let x := sched s in
  let m := foldl (λ m a, <[a := mk_node 0 0]> m) (nodes x) (pcb_nodes p) in
  with_pcbs (<[p := zero_pcb]> (pcbs s)) (with_sched (with_tasks (<[p := zero_task]> (tasks x)) (with_nodes m x)) s).
Definition kfree_pcb p s : proc_state :=
  let x := sched s in
  let m := foldl (λ m a, delete a m) (nodes x) (pcb_nodes p) in
  kfree p (with_pcbs (delete p (pcbs s)) (with_sched (with_tasks (delete p (tasks x)) (with_nodes m x)) s)).
Definition kfree_ctx (c : Z) s : proc_state := kfree c (with_ctxs (delete c (ctxs s)) s).

(** ** Process identifiers *)
Definition pid_alloc_init (buffer : list Z) s : outcome proc_state :=
  m ← bitmap_init false buffer PID_MAX; m ← bitmap_set m 0; Ret (with_pids m s).
Definition pid_alloc s : outcome (Z * proc_state) :=
  i ← bitmap_find_first_zero (pid_map s);
  if (i <? 0) || (PID_MAX <=? i) then Ret (-1, s) else
  m ← bitmap_set (pid_map s) i; Ret (i, with_pids m s).
Definition pid_free (i : Z) s : outcome proc_state :=
  if (0 <? i) && (i <? PID_MAX) then m ← bitmap_clear (pid_map s) i; Ret (with_pids m s) else Ret s.

(** ** Control blocks *)
Definition init_lists p s : outcome proc_state :=
  s ← on_list (INIT_LIST_HEAD (run_node p)) s;
  s ← on_list (INIT_LIST_HEAD (siblings p)) s;
  s ← on_list (INIT_LIST_HEAD (children p)) s;
  s ← on_list (INIT_LIST_HEAD (zombie_children p)) s;
  on_list (INIT_LIST_HEAD (se_node p)) s.
Definition default_entity (t : task) : task :=
  mk_task (state t) SCHED_NORMAL None DEF_TIMESLICE_MS DEF_TIMESLICE_MS PRIO_DEFAULT 0.
Definition proc_alloc_pcb s : outcome (Z * proc_state) :=
  let '(p, s) := kmalloc s in
  if p =? 0 then Ret (0, s) else
  let s := clear_pcb p s in
  let '(ctx, s) := kmalloc s in
  s ← upd_pcb p (λ x, set_bufs ctx (kernel_stack x) (kernel_stack_base x) x) s;
  if ctx =? 0 then Ret (0, kfree_pcb p s) else
  let s := with_ctxs (<[ctx := mk_ctx 0 0]> (ctxs s)) s in
  let '(stack, s) := kmalloc s in
  s ← upd_pcb p (λ x, set_bufs (cpu_ctx x) (kernel_stack x) stack x) s;
  if stack =? 0 then Ret (0, kfree_pcb p (kfree_ctx ctx s)) else
  s ← upd_pcb p (λ x, set_bufs (cpu_ctx x) (stack ⊞ KERNEL_STACK_SIZE) (kernel_stack_base x) x) s;
  s ← init_lists p s;
  s ← on_sched (upd_task p default_entity) s;
  s ← upd_pcb p (λ x, set_ids (pid x) (ppid x) (parent x) 0 false (set_user false 0 0 x)) s;
  s ← on_list (INIT_LIST_HEAD (thread_list p)) s;
  s ← on_list (INIT_LIST_HEAD (thread_group p)) s;
  s ← upd_pcb p (λ x, set_thread 0 false 0 0 0 (set_ref 1 x)) s;
  Ret (p, s).

Definition release_range (pml4 base count : Z) : proc_state → outcome proc_state :=
  on_vmm (for_range 0 count (λ i, release_page pml4 (base ⊞ (i ⊠ PAGE_SIZE)))).
Definition kfree_opt (a : Z) s : proc_state := if a =? 0 then s else kfree a s.
Definition proc_free_pcb p s : outcome proc_state :=
  if p =? 0 then Ret s else
  x ← get_pcb p s;
  let s := if cpu_ctx x =? 0 then s else kfree_ctx (cpu_ctx x) s in
  let s := kfree_opt (kernel_stack_base x) s in
  let s := kfree_opt (trap_frame x) s in
  s ← (if is_user_mode x && negb (user_stack x =? 0) && (0 <? user_stack_size x) then
         release_range (pml4_phys (mm x)) (user_stack x) (user_stack_size x / PAGE_SIZE) s
       else Ret s);
  s ← (if negb (pml4_phys (mm x) =? 0) then
         let n := s32 (mm_refcount x - 1) in
         s ← upd_pcb p (set_ref n) s;
         if n =? 0 then on_vmm (λ v, r ← vmm_destroy_user_space (pml4_phys (mm x)) v; Ret (snd (r : vmm_result * vmm_state))) s
         else Ret s
       else Ret s);
  let s := kfree_opt (join_waiters x) s in
  Ret (kfree_pcb p s).

(** The first block of the list with the given identifier. *)
Fixpoint find_pid (i : Z) (ps : list Z) s : outcome Z :=
  match ps with
  | [] => Ret 0
  | p :: rest => x ← get_pcb p s; if pid x =? i then Ret p else find_pid i rest s
  end.
(** [list_for_each_entry] over a ring whose nodes lie at [off]; [None] is a
    traversal that does not end. *)
Definition entries_of (head off : Z) s : outcome (list Z) :=
  l ← list_for_each (nodes (sched s)) head; l ← access (l : option (list Z)); Ret ((λ n, n - off) <$> (l : list Z)).
Definition find_current (i : Z) s : outcome Z :=
  match current (sched s) with
  | Some c => x ← get_pcb c s; Ret (if pid x =? i then c else 0)
  | None => Ret 0
  end.
Definition proc_find (i : Z) s : outcome Z :=
  c ← find_current i s;
  if negb (c =? 0) then Ret c else
  ps ← entries_of legacy_queue run_off s; find_pid i ps s.

(** [schedule]; the result is the block that runs afterwards. *)
Definition run_schedule s : outcome (option Z * proc_state) :=
  r ← schedule (sched s); Ret (fst (r : option Z * scheduler), with_sched (snd r) s).

(** ** Fork *)
Definition proc_copy_address_space (par child : Z) s : outcome (Z * proc_state) :=
  c ← get_pcb child s;
  r ← vmm_create_user_space (pml4_phys (mm c)) (vmm s);
  let '(result, pml4, v) := r : vmm_result * Z * vmm_state in
  let s := with_vmm v s in
  s ← upd_pcb child (λ x, set_mm (mk_mm pml4 (brk (mm x)) (stack_start (mm x))) x) s;
  if negb (bool_decide (result = VMM_OK)) then Ret (-1, s) else
  px ← get_pcb par s;
  s ← upd_pcb child (λ x, set_mm (mk_mm (pml4_phys (mm x)) (brk (mm px)) (stack_start (mm px))) x) s;
  Ret (0, s).
(** The end of [proc_fork]: the child is linked into its parent's children and queued. *)
Definition fork_finish (par child : Z) s : outcome (Z * proc_state) :=
  s ← on_list (list_add_tail (siblings child) (children par)) s;
  rs ← sched_set_policy (Some child) SCHED_NORMAL 0 (sched s);
  let s := with_sched (snd (rs : Z * scheduler)) s in
  s ← on_sched (sched_enqueue_task (Some child) false) s;
  if bool_decide (current (sched s) = Some child) then Ret (0, s) else
  x ← get_pcb child s; Ret (pid x, s).
Definition proc_fork s : outcome (Z * proc_state) :=
  match current (sched s) with
  | None => Ret (-1, s)
  | Some par =>
      ps ← proc_alloc_pcb s;
      let '(child, s) := ps : Z * proc_state in
      if child =? 0 then Ret (-1, s) else
      ip ← pid_alloc s;
      let '(i, s) := ip : Z * proc_state in
      s ← upd_pcb child (set_pid i) s;
      if i <? 0 then s ← proc_free_pcb child s; Ret (-1, s) else
      px ← get_pcb par s;
      s ← upd_pcb child (λ x, set_ref 1 (set_ids (pid x) (pid px) par (pid x) false x)) s;
      s ← on_sched (upd_task child (set_state PROC_READY)) s;
      rs ← proc_copy_address_space par child s;
      let '(r, s) := rs : Z * proc_state in
      if negb (r =? 0) then s ← pid_free i s; s ← proc_free_pcb child s; Ret (-1, s) else
      fork_finish par child s
  end.

(** ** Exit and wait

    [None]: without a current process the machine is halted for good. *)
Definition proc_exit (code : Z) s : outcome (option (option Z) * proc_state) :=
  match current (sched s) with
  | None => Ret (None, s)
  | Some c =>
      s ← on_sched (upd_task c (set_state PROC_ZOMBIE)) s;
      s ← upd_pcb c (set_exit code) s;
      s ← on_list (list_del (run_node c)) s;
      x ← get_pcb c s;
      s ← (if parent x =? 0 then Ret s
           else on_list (list_add_tail (zombie_children c) (zombie_children (parent x))) s);
      let y := sched s in
      let s := with_sched (with_total (u32 (total_running y - 1)) y) s in
      r ← run_schedule s; Ret (Some (fst (r : option Z * proc_state)), snd r)
  end.
Inductive wait_end := WaitError | Reaped (i status : Z) | WaitBlocked (next : option Z).
Definition proc_wait4 (i : Z) s : outcome (wait_end * proc_state) :=
  match current (sched s) with
  | None => Ret (WaitError, s)
  | Some c =>
      zs ← entries_of (zombie_children c) zombie_off s;
      target ← (if i =? -1 then Ret (default 0 (head zs)) else find_pid i zs s);
      if negb (target =? 0) then
        x ← get_pcb target s;
        s ← on_list (list_del (zombie_children target)) s;
        s ← proc_free_pcb target s;
        Ret (Reaped (pid x) (exit_code x), s)
      else
        s ← on_sched (upd_task c (set_state PROC_BLOCKED)) s;
        r ← run_schedule s; Ret (WaitBlocked (fst (r : option Z * proc_state)), snd r)
  end.

(** [ok]: whether [sched_prio_init] gets its memory; [buffer] holds the bits of the
    identifiers. *)
Definition proc_init (ok : bool) (buffer : list Z) s : outcome (Z * proc_state) :=
  s ← on_sched sched_class_init s;
  rs ← sched_rr_init (sched s);
  let '(ret, x) := rs : Z * scheduler in
  let s := with_sched x s in
  if negb (ret =? 0) then Ret (ret, s) else
  rs ← sched_prio_init ok (sched s);
  let s := with_sched (snd (rs : Z * scheduler)) s in
  s ← on_list (INIT_LIST_HEAD legacy_queue) s;
  let x := sched s in
  let s := with_sched (mk_sched (nodes x) (tasks x) (rqs x) (rq_set x) (classes x) (prio_data x) None None 0 false) s in
  s ← pid_alloc_init buffer s;
  Ret (0, s).

(** ** Thread stacks *)
Definition page_round (size : Z) : Z := Z.land (size ⊞ PAGE_SIZE ⊟ 1) (~64 (PAGE_SIZE - 1)).
(** The pages from [i] on; a failure releases those before [i]. *)
Fixpoint map_stack (n : nat) (i pml4 base : Z) s : outcome (bool * proc_state) :=
  match n with
  | O => Ret (true, s)
  | S n' =>
      let vaddr := base ⊞ (i ⊠ PAGE_SIZE) in
      fr ← on_frames pframe_alloc (vmm s);
      match fr : pframe_result * option Z * vmm_state with
      | (PFRAME_OK, Some paddr, v) =>
          mr ← vmm_map_to_user pml4 vaddr paddr 1 (Z.lor VMAP_FLAG_WRITE VMAP_FLAG_USER) v;
          let '(result, v) := mr : vmm_result * vmm_state in
          if bool_decide (result = VMM_OK) then map_stack n' (i + 1) pml4 base (with_vmm v s) else
          rs ← on_frames (λ f, pframe_free f paddr) v;
          s ← release_range pml4 base i (with_vmm (snd (rs : pframe_result * vmm_state)) s);
          Ret (false, s)
      | (_, _, v) => s ← release_range pml4 base i (with_vmm v s); Ret (false, s)
      end
  end.
(** The top of the stack, 0 on failure. *)
Definition thread_alloc_user_stack (par stack_size : Z) s : outcome (Z * proc_state) :=
  if (par =? 0) || (stack_size =? 0) then Ret (0, s) else
  let stack_size := page_round stack_size in
  let stack_size := if THREAD_STACK_SIZE <? stack_size then THREAD_STACK_SIZE else stack_size in
  let stack_top := s_next_thread_stack s in
  let stack_base := stack_top ⊟ stack_size in
  if stack_base <? THREAD_STACK_BASE - 64 * 1024 * 1024 then Ret (0, s) else
  let s := with_stack stack_base s in
  px ← get_pcb par s;
  rs ← map_stack (Z.to_nat (stack_size / PAGE_SIZE)) 0 (pml4_phys (mm px)) stack_base s;
  let '(ok, s) := rs : bool * proc_state in
  Ret (if ok then stack_top else 0, s).
Definition thread_free_user_stack p s : outcome proc_state :=
  if p =? 0 then Ret s else
  x ← get_pcb p s;
  if negb (is_user_mode x) || (user_stack x =? 0) then Ret s else
  let stack_size := if user_stack_size x =? 0 then THREAD_STACK_SIZE else user_stack_size x in
  let stack_size := page_round stack_size in
  release_range (pml4_phys (mm x)) (user_stack x ⊟ stack_size) (stack_size / PAGE_SIZE) s.

(** ** Threads *)
(** The thread lists of the blocks in the run queue. *)
Fixpoint find_in_groups (i : Z) (ps : list Z) s : outcome Z :=
  match ps with
  | [] => Ret 0
  | p :: rest =>
      ts ← entries_of (thread_list p) thread_group_off s;
      t ← find_pid i ts s;
      if negb (t =? 0) then Ret t else find_in_groups i rest s
  end.
Definition proc_find_by_tid (i : Z) s : outcome Z :=
  c ← find_current i s;
  if negb (c =? 0) then Ret c else
  ps ← entries_of legacy_queue run_off s;
  t ← find_pid i ps s;
  if negb (t =? 0) then Ret t else find_in_groups i ps s.

(** [kmalloc] of a wait queue and [init_waitqueue_head] *)
Definition new_wait_queue s : Z * proc_state :=
  let '(wq, s) := kmalloc s in
  (wq, if wq =? 0 then s else with_joins (<[wq := []]> (join_queues s)) s).
Definition set_context p s : outcome proc_state :=
  x ← get_pcb p s;
  _ ← access (ctxs s !! cpu_ctx x);
  Ret (with_ctxs (<[cpu_ctx x := mk_ctx thread_entry_wrapper (kernel_stack x)]> (ctxs s)) s).
Definition start_task p s : outcome proc_state :=
  rs ← sched_set_policy (Some p) SCHED_NORMAL 0 (sched s);
  on_sched (sched_enqueue_task (Some p) false) (with_sched (snd (rs : Z * scheduler)) s).

(** The result is the block, 0 on failure. *)
Definition proc_create_kernel_thread (fn arg : Z) s : outcome (Z * proc_state) :=
  if fn =? 0 then Ret (0, s) else
  ps ← proc_alloc_pcb s;
  let '(t, s) := ps : Z * proc_state in
  if t =? 0 then Ret (0, s) else
  ip ← pid_alloc s;
  let '(i, s) := ip : Z * proc_state in
  s ← upd_pcb t (set_pid i) s;
  if i <? 0 then s ← proc_free_pcb t s; Ret (0, s) else
  s ← upd_pcb t (λ x, set_thread (join_waiters x) (detached x) (return_value x) fn arg
                        (set_user false (user_stack x) (user_stack_size x) (set_ids (pid x) 0 0 (pid x) true x))) s;
  s ← on_sched (upd_task t (set_state PROC_READY)) s;
  pml4 ← match current (sched s) with
         | Some c => cx ← get_pcb c s; Ret (pml4_phys (mm cx))
         | None => vmm_get_kernel_pml4 (vmm s)
         end;
  s ← upd_pcb t (λ x, set_mm (mk_mm pml4 (brk (mm x)) (stack_start (mm x))) x) s;
  let '(wq, s) := new_wait_queue s in
  if wq =? 0 then s ← pid_free i s; s ← proc_free_pcb t s; Ret (0, s) else
  s ← upd_pcb t (λ x, set_thread wq (detached x) (return_value x) (thread_entry x) (thread_arg x) x) s;
  s ← set_context t s;
  s ← start_task t s;
  Ret (t, s).

Definition proc_create_user_thread (par entry arg stack_addr stack_size : Z) s : outcome (Z * proc_state) :=
  if par =? 0 then Ret (-1, s) else
  if entry =? 0 then Ret (-1, s) else
  ps ← proc_alloc_pcb s;
  let '(t, s) := ps : Z * proc_state in
  if t =? 0 then Ret (-1, s) else
  ip ← pid_alloc s;
  let '(i, s) := ip : Z * proc_state in
  s ← upd_pcb t (set_pid i) s;
  if i <? 0 then s ← proc_free_pcb t s; Ret (-1, s) else
  px ← get_pcb par s;
  s ← upd_pcb t (λ x, set_thread (join_waiters x) (detached x) (return_value x) entry arg
         (set_user true (user_stack x) (user_stack_size x)
           (set_ids (pid x) (pid px) par (if negb (tgid px =? 0) then tgid px else pid px) true x))) s;
  s ← on_sched (upd_task t (set_state PROC_READY)) s;
  s ← upd_pcb t (set_mm (mm px)) s;
  s ← upd_pcb par (λ x, set_ref (s32 (mm_refcount x + 1)) x) s;
  px ← get_pcb par s;
  s ← upd_pcb t (set_ref (mm_refcount px)) s;
  rs ← (if stack_addr =? 0 then
          let stack_size := if stack_size =? 0 then THREAD_STACK_SIZE else stack_size in
          rs ← thread_alloc_user_stack par stack_size s;
          let '(top, s) := rs : Z * proc_state in
          s ← upd_pcb t (λ x, set_user (is_user_mode x) top (user_stack_size x) x) s;
          if top =? 0 then Ret (false, s) else
          s ← upd_pcb t (λ x, set_user (is_user_mode x) (user_stack x) stack_size x) s; Ret (true, s)
        else
          s ← upd_pcb t (λ x, set_user (is_user_mode x) stack_addr stack_size x) s; Ret (true, s));
  let '(ok, s) := rs : bool * proc_state in
  if negb ok then s ← pid_free i s; s ← proc_free_pcb t s; Ret (-1, s) else
  let '(wq, s) := new_wait_queue s in
  if wq =? 0 then s ← thread_free_user_stack t s; s ← pid_free i s; s ← proc_free_pcb t s; Ret (-1, s) else
  s ← upd_pcb t (λ x, set_thread wq (detached x) (return_value x) (thread_entry x) (thread_arg x) x) s;
  s ← set_context t s;
  s ← on_list (list_add_tail (thread_group t) (thread_list par)) s;
  s ← start_task t s;
  Ret (i, s).

(** [wake_up_all] on a queue of joiners, none of which is exclusive *)
Fixpoint make_ready (ts : list Z) s : outcome proc_state :=
  match ts with
  | [] => Ret s
  | t :: rest =>
      s ← on_sched (upd_task t (set_state PROC_READY)) s;
      s ← on_sched (sched_enqueue_task (Some t) false) s;
      make_ready rest s
  end.
Definition wake_joiners (wq : Z) s : outcome proc_state :=
  ts ← access (join_queues s !! wq);
  s ← make_ready ts (with_joins (<[wq := []]> (join_queues s)) s);
  Ret (if bool_decide (ts = []) then s else with_sched (sched_set_resched (sched s)) s).
(** [None]: halted for lack of a current process. *)
Definition proc_thread_exit (retval : Z) s : outcome (option (option Z) * proc_state) :=
  match current (sched s) with
  | None => Ret (None, s)
  | Some c =>
      s ← upd_pcb c (λ x, set_thread (join_waiters x) (detached x) retval (thread_entry x) (thread_arg x) x) s;
      x ← get_pcb c s;
      s ← (if parent x =? 0 then Ret s else on_list (list_del (thread_group c)) s);
      s ← on_sched (upd_task c (set_state PROC_ZOMBIE)) s;
      s ← (if detached x then s ← thread_free_user_stack c s; proc_free_pcb c s
           else if join_waiters x =? 0 then Ret s else wake_joiners (join_waiters x) s);
      r ← run_schedule s; Ret (Some (fst (r : option Z * proc_state)), snd r)
  end.

(** A join ends with a result and the value of the thread, or the caller sleeps in
    the queue of the thread and goes on with [join_loop] when it is woken. *)
Inductive join_end := JoinError | Joined (retval : Z) | JoinSleeps (next : option Z).
Definition join_collect (target : Z) s : outcome (join_end * proc_state) :=
  x ← get_pcb target s;
  s ← thread_free_user_stack target s;
  s ← proc_free_pcb target s;
  Ret (Joined (return_value x), s).
Definition join_loop (c target : Z) s : outcome (join_end * proc_state) :=
  y ← get_task (sched s) target;
  if bool_decide (state y = PROC_ZOMBIE) then join_collect target s else
  x ← get_pcb target s;
  ts ← access (join_queues s !! join_waiters x);
  let s := with_joins (<[join_waiters x := ts ++ [c]]> (join_queues s)) s in
  s ← on_sched (upd_task c (set_state PROC_BLOCKED)) s;
  r ← run_schedule s; Ret (JoinSleeps (fst (r : option Z * proc_state)), snd r).
Definition proc_thread_join (i : Z) s : outcome (join_end * proc_state) :=
  match current (sched s) with
  | None => Ret (JoinError, s)
  | Some c =>
      target ← proc_find_by_tid i s;
      if target =? 0 then Ret (JoinError, s) else
      x ← get_pcb target s; cx ← get_pcb c s;
      if negb (tgid x =? tgid cx) then Ret (JoinError, s) else
      if detached x then Ret (JoinError, s) else
      y ← get_task (sched s) target;
      if bool_decide (state y = PROC_ZOMBIE) then join_collect target s else
      if join_waiters x =? 0 then join_collect target s else join_loop c target s
  end.
Definition proc_thread_detach (i : Z) s : outcome (Z * proc_state) :=
  match current (sched s) with
  | None => Ret (-1, s)
  | Some c =>
      target ← proc_find_by_tid i s;
      if target =? 0 then Ret (-1, s) else
      x ← get_pcb target s; cx ← get_pcb c s;
      if negb (tgid x =? tgid cx) then Ret (-1, s) else
      s ← upd_pcb target (λ x, set_thread (join_waiters x) true (return_value x) (thread_entry x) (thread_arg x) x) s;
      y ← get_task (sched s) target;
      if bool_decide (state y = PROC_ZOMBIE) then
        s ← thread_free_user_stack target s; s ← proc_free_pcb target s; Ret (0, s)
      else Ret (0, s)
  end.

End process.
End Process.
Import Process.

(** Membership in the nodes of a control block. *)
Ltac in_nodes := unfold pcb_nodes; cbn; rewrite !elem_of_cons; tauto.

Section process_proofs.
Context `{PcbLayout}.
Implicit Types (s : proc_state) (p : Z).

(** ** Identifiers *)
Record pids_ok (m : bitmap) : Prop := {
  po_wf : Bitmap.wf m; po_len : nbits m = PID_MAX; po_zero : bit m 0 = true }.
(** [m'] is [m] with identifier [i] in use or not. *)
Definition pid_change (i : Z) (v : bool) (m m' : bitmap) : Prop :=
  pids_ok m' ∧ ∀ j, 0 ≤ j → bit m' j = if j =? i then v else bit m j.

Lemma pid_alloc_cases s : pids_ok (pid_map s) →
  (∃ i m, pid_alloc s = Ret (i, with_pids m s) ∧ 0 < i < PID_MAX ∧ bit (pid_map s) i = false ∧ pid_change i true (pid_map s) m) ∨
  (pid_alloc s = Ret (-1, s) ∧ ∀ j, 0 ≤ j < PID_MAX → bit (pid_map s) j = true).
Proof.
  intros [Hw Hl Hz]. unfold pid_alloc, bitmap_find_first_zero.
  destruct (bitmap_find_next_zero_spec (pid_map s) 0 Hw) as [(i & -> & Hi & Hb & _)|[-> Hall]]; [lia| |]; rewrite outcome_bind_ret.
  - left. rewrite Hl in Hi. assert (i ≠ 0) by (intros ->; congruence).
    destruct (Z.ltb_spec i 0); [lia|]. destruct (Z.leb_spec PID_MAX i); [lia|]. cbn [orb].
    destruct (bitmap_set_spec (pid_map s) i Hw) as (m & -> & Hw' & Hl' & _ & Hbm); [lia|]. rewrite outcome_bind_ret.
    exists i, m. split_and!; try done; try lia. split; [|done]. split; [done|congruence|].
    rewrite Hbm by lia. by destruct (Z.eqb_spec 0 i).
  - right. split; [done|]. intros j Hj. apply Hall. by rewrite Hl.
Qed.
Lemma pid_free_spec s i : pids_ok (pid_map s) → 0 < i < PID_MAX →
  ∃ m, pid_free i s = Ret (with_pids m s) ∧ pid_change i false (pid_map s) m.
Proof.
  intros [Hw Hl Hz] Hi. unfold pid_free. destruct (Z.ltb_spec 0 i); [|lia]. destruct (Z.ltb_spec i PID_MAX); [|lia]. cbn [andb].
  destruct (bitmap_clear_spec (pid_map s) i Hw) as (m & -> & Hw' & Hl' & _ & Hbm); [lia|]. rewrite outcome_bind_ret.
  exists m. split; [done|]. split; [|done]. split; [done|congruence|]. rewrite Hbm by lia. destruct (Z.eqb_spec 0 i); [lia|done].
Qed.

(** ** Maps under a list of updates *)
Lemma lookup_foldl_delete {A} (m : gmap Z A) l b : foldl (λ m a, delete a m) m l !! b = if decide (b ∈ l) then None else m !! b.
Proof.
  revert m. induction l as [|a l IH]; intros m; cbn [foldl]; [by rewrite decide_False by apply not_elem_of_nil|].
  rewrite IH. destruct (decide (a = b)) as [->|Hne].
  - rewrite lookup_delete_eq, (decide_True (P := b ∈ b :: l)) by (by left). by destruct (decide _).
  - rewrite lookup_delete_ne by done. destruct (decide (b ∈ l)), (decide (b ∈ a :: l)); set_solver.
Qed.
Lemma lookup_foldl_insert {A} (v : A) (m : gmap Z A) l b :
  foldl (λ m a, <[a := v]> m) m l !! b = if decide (b ∈ l) then Some v else m !! b.
Proof.
  revert m. induction l as [|a l IH]; intros m; cbn [foldl]; [by rewrite decide_False by apply not_elem_of_nil|].
  rewrite IH. destruct (decide (a = b)) as [->|Hne].
  - rewrite lookup_insert_eq, (decide_True (P := b ∈ b :: l)) by (by left). by destruct (decide _).
  - rewrite lookup_insert_ne by done. destruct (decide (b ∈ l)), (decide (b ∈ a :: l)); set_solver.
Qed.

(** ** A state with one more control block

    [plus b s] is [s] with the block [b_addr b]: its record, its task, the nodes
    [b_nodes b], and the three heap blocks it takes. *)
Record new_block := mk_new {
  b_addr : Z; b_ctx : Z; b_stack : Z; b_pcb : pcb; b_task : task; b_nodes : gmap Z list_head; b_answers : list Z }.
Definition plus (b : new_block) s : proc_state :=
  mk_proc (with_tasks (<[b_addr b := b_task b]> (tasks (sched s))) (with_nodes (b_nodes b) (sched s)))
    (<[b_addr b := b_pcb b]> (pcbs s)) (<[b_ctx b := mk_ctx 0 0]> (ctxs s)) (pid_map s) (vmm s)
    ({[ b_stack b ]} ∪ ({[ b_ctx b ]} ∪ ({[ b_addr b ]} ∪ heap s))) (b_answers b) (join_queues s) (s_next_thread_stack s).
Definition set_b_pcb (f : pcb → pcb) (b : new_block) : new_block :=
  mk_new (b_addr b) (b_ctx b) (b_stack b) (f (b_pcb b)) (b_task b) (b_nodes b) (b_answers b).
Definition set_b_task (f : task → task) (b : new_block) : new_block :=
  mk_new (b_addr b) (b_ctx b) (b_stack b) (b_pcb b) (f (b_task b)) (b_nodes b) (b_answers b).
Definition set_b_nodes (m : gmap Z list_head) (b : new_block) : new_block :=
  mk_new (b_addr b) (b_ctx b) (b_stack b) (b_pcb b) (b_task b) m (b_answers b).
(** The nodes of the block are new, the others as they were. *)
Definition extends_nodes (b : new_block) s : Prop :=
  (∀ a, a ∉ pcb_nodes (b_addr b) → b_nodes b !! a = nodes (sched s) !! a) ∧
  (∀ a, a ∈ pcb_nodes (b_addr b) → is_Some (b_nodes b !! a)).

Lemma get_pcb_plus b s : get_pcb (b_addr b) (plus b s) = Ret (b_pcb b).
Proof. unfold get_pcb. cbn [pcbs plus]. by rewrite lookup_insert_eq. Qed.
Lemma upd_pcb_plus b f s : upd_pcb (b_addr b) f (plus b s) = Ret (plus (set_b_pcb f b) s).
Proof. unfold upd_pcb. rewrite get_pcb_plus, outcome_bind_ret. unfold plus, with_pcbs. cbn. by rewrite insert_insert_eq. Qed.
Lemma upd_task_plus b f s : on_sched (upd_task (b_addr b) f) (plus b s) = Ret (plus (set_b_task f b) s).
Proof.
  unfold on_sched. rewrite (upd_task_ok _ _ (b_task b)) by (cbn; by rewrite lookup_insert_eq). rewrite outcome_bind_ret.
  unfold plus, with_sched, with_tasks, with_nodes. cbn. by rewrite insert_insert_eq.
Qed.
Lemma on_list_plus b g m s : g (b_nodes b) = Ret m → on_list g (plus b s) = Ret (plus (set_b_nodes m b) s).
Proof. intros Hg. unfold on_list, on_sched. rewrite (on_nodes_ok _ _ m) by done. done. Qed.
Lemma init_node_plus b a s : extends_nodes b s → a ∈ pcb_nodes (b_addr b) →
  ∃ m, on_list (INIT_LIST_HEAD a) (plus b s) = Ret (plus (set_b_nodes m b) s) ∧ extends_nodes (set_b_nodes m b) s ∧
    is_list m a [] ∧ ∀ c, c ≠ a → m !! c = b_nodes b !! c.
Proof.
  intros [Ho Hn] Ha. destruct (INIT_LIST_HEAD_spec a (b_nodes b) (Hn a Ha)) as (m & Hm & Hl & Hf & Hd).
  exists m. split; [by apply on_list_plus|]. split_and!; [|done|done]. split; cbn.
  - intros c Hc. rewrite Hf; [by apply Ho|]. set_solver.
  - intros c Hc. apply (dom_is_Some (b_nodes b)); [done|by apply Hn].
Qed.

(** What a block must be like when it is handed out. *)
Record fresh_block b s : Prop := {
  fb_addr : b_addr b ≠ 0 ∧ b_addr b ∉ heap s ∧ pcbs s !! b_addr b = None ∧ tasks (sched s) !! b_addr b = None;
  fb_ctx : b_ctx b ≠ 0 ∧ b_ctx b ∉ heap s ∧ ctxs s !! b_ctx b = None ∧ b_ctx b ≠ b_addr b;
  fb_stack : b_stack b ≠ 0 ∧ b_stack b ∉ heap s ∧ b_stack b ≠ b_addr b ∧ b_stack b ≠ b_ctx b;
  fb_nodes a : a ∈ pcb_nodes (b_addr b) → nodes (sched s) !! a = None }.

(** Giving the record and the nodes of a new block back. *)
Lemma kfree_pcb_restore p x y m h k s : pcbs s !! p = None → tasks (sched s) !! p = None →
  (∀ a, a ∈ pcb_nodes p → nodes (sched s) !! a = None) → (∀ a, a ∉ pcb_nodes p → m !! a = nodes (sched s) !! a) →
  h ∖ {[ p ]} = heap s →
  kfree_pcb p (mk_proc (with_tasks (<[p := y]> (tasks (sched s))) (with_nodes m (sched s))) (<[p := x]> (pcbs s)) (ctxs s)
    (pid_map s) (vmm s) h k (join_queues s) (s_next_thread_stack s)) = with_heap (heap s) k s.
Proof.
  intros Hp Ht Hn Ho Hh. destruct s as [sc ps cs pm v hp km jq ns].
  unfold kfree_pcb, kfree, with_heap, with_pcbs, with_sched.
  cbn [sched pcbs ctxs pid_map vmm heap kmallocs join_queues s_next_thread_stack] in *. f_equal; [|by rewrite delete_insert_id|done].
  destruct sc as [nd tk rq rs cl pd cu id tr nr]. unfold with_tasks, with_nodes.
  cbn [nodes tasks rqs rq_set classes prio_data current idle total_running need_resched] in *. f_equal.
  - apply map_eq. intros a. rewrite lookup_foldl_delete. destruct (decide (a ∈ pcb_nodes p)); [by rewrite Hn|by apply Ho].
  - by rewrite delete_insert_id.
Qed.
(** Giving a whole new block back restores the state. *)
Lemma free_plus b s : fresh_block b s → extends_nodes b s →
  cpu_ctx (b_pcb b) = b_ctx b → kernel_stack_base (b_pcb b) = b_stack b → trap_frame (b_pcb b) = 0 → is_user_mode (b_pcb b) = false →
  pml4_phys (mm (b_pcb b)) = 0 → join_waiters (b_pcb b) = 0 →
  proc_free_pcb (b_addr b) (plus b s) = Ret (with_heap (heap s) (b_answers b) s).
Proof.
  intros [(Ha & Hah & Hap & Hat) (Hc & Hch & Hcc & Hca) (Hs & Hsh & Hsa & Hsc) Hfn] [Ho Hn] H1 H2 H3 H4 H5 H6.
  unfold proc_free_pcb. destruct (Z.eqb_spec (b_addr b) 0); [done|]. rewrite get_pcb_plus, outcome_bind_ret.
  rewrite H1, H2, H3, H4, H5, H6. destruct (Z.eqb_spec (b_ctx b) 0); [done|]. cbn [negb Z.eqb andb kfree_opt].
  unfold kfree_opt. destruct (Z.eqb_spec (b_stack b) 0); [done|]. cbn [Z.eqb]. rewrite !outcome_bind_ret. f_equal.
  rewrite <- (kfree_pcb_restore (b_addr b) (b_pcb b) (b_task b) (b_nodes b) ({[ b_addr b ]} ∪ heap s) (b_answers b) s); try done.
  2: set_solver.
  f_equal. unfold kfree, kfree_ctx, kfree, plus, with_heap, with_ctxs.
  cbn [sched pcbs ctxs pid_map vmm heap kmallocs join_queues s_next_thread_stack]. f_equal; [by rewrite delete_insert_id|set_solver].
Qed.

(** ** Allocation *)
Definition answer (n : nat) s : Z := default 0 (kmallocs s !! n).
(** The next three blocks of the heap are not in use. *)
Record heap_ok s : Prop := {
  ho_pcb : answer 0 s ≠ 0 → answer 0 s ∉ heap s ∧ pcbs s !! answer 0 s = None ∧ tasks (sched s) !! answer 0 s = None ∧
    ∀ a, a ∈ pcb_nodes (answer 0 s) → nodes (sched s) !! a = None;
  ho_ctx : answer 1 s ≠ 0 → answer 1 s ∉ heap s ∧ ctxs s !! answer 1 s = None ∧ answer 1 s ≠ answer 0 s;
  ho_stack : answer 2 s ≠ 0 → answer 2 s ∉ heap s ∧ answer 2 s ≠ answer 0 s ∧ answer 2 s ≠ answer 1 s }.
Definition fresh_pcb (ctx stack : Z) : pcb :=
  mk_pcb 0 0 0 0 false 0 (mk_mm 0 0 0) 1 ctx 0 (stack ⊞ KERNEL_STACK_SIZE) stack false 0 0 0 false 0 0 0.
Definition inited (l : list Z) (m : gmap Z list_head) : Prop := ∀ a, a ∈ l → is_list m a [].
Lemma init_step b a l s : extends_nodes b s → inited l (b_nodes b) → a ∈ pcb_nodes (b_addr b) →
  ∃ m, on_list (INIT_LIST_HEAD a) (plus b s) = Ret (plus (set_b_nodes m b) s) ∧ extends_nodes (set_b_nodes m b) s ∧ inited (a :: l) m.
Proof.
  intros He Hl Ha. destruct (init_node_plus b a s He Ha) as (m & Hm & He' & Hla & Hf). exists m. split_and!; [done..|].
  intros c [->|Hc]%elem_of_cons; [done|]. destruct (decide (c = a)) as [->|Hne]; [done|].
  apply (is_list_frame (b_nodes b)); [|by apply Hl]. intros d ->%list_elem_of_singleton. by apply Hf.
Qed.

Lemma kmalloc_eq n s1 s : kmallocs s1 = drop n (kmallocs s) →
  kmalloc s1 = (answer n s, with_heap (if answer n s =? 0 then heap s1 else {[ answer n s ]} ∪ heap s1) (drop (S n) (kmallocs s)) s1).
Proof.
  intros Hk. unfold kmalloc, answer. rewrite Hk.
  assert (head (drop n (kmallocs s)) = kmallocs s !! n) as ->.
  { rewrite <- (Nat.add_0_r n) at 2. rewrite <- lookup_drop. by destruct (drop n (kmallocs s)). }
  assert (tail (drop n (kmallocs s)) = drop (S n) (kmallocs s)) as ->; [|done].
  clear Hk. revert n. induction (kmallocs s) as [|a l IH]; intros [|n]; [done..|apply IH].
Qed.
Lemma upd_pcb_at p x ps f s : pcbs s = <[p := x]> ps → upd_pcb p f s = Ret (with_pcbs (<[p := f x]> ps) s).
Proof.
  intros Hp. unfold upd_pcb, get_pcb. rewrite Hp, lookup_insert_eq. cbn [access]. by rewrite outcome_bind_ret, insert_insert_eq.
Qed.
Lemma alloc_pcb_spec s : heap_ok s →
  (∃ b, proc_alloc_pcb s = Ret (b_addr b, plus b s) ∧ fresh_block b s ∧ extends_nodes b s ∧
     b_pcb b = fresh_pcb (b_ctx b) (b_stack b) ∧ b_task b = default_entity zero_task ∧ inited (pcb_nodes (b_addr b)) (b_nodes b) ∧
     b_answers b = drop 3 (kmallocs s)) ∨
  (∃ k, proc_alloc_pcb s = Ret (0, with_heap (heap s) k s)).
Proof.
  intros [Hp Hc Hst]. unfold proc_alloc_pcb. rewrite (kmalloc_eq 0 s s) by done. cbv beta iota.
  destruct (Z.eqb_spec (answer 0 s) 0) as [H0|H0]; [right; by eexists|].
  destruct (Hp H0) as (Hph & Hpp & Hpt & Hpn). set (p := answer 0 s) in *. set (m0 := foldl (λ m a, <[a := mk_node 0 0]> m) (nodes (sched s)) (pcb_nodes p)).
  assert (∀ a, a ∉ pcb_nodes p → m0 !! a = nodes (sched s) !! a) as Ho.
  { intros a Ha. unfold m0. by rewrite lookup_foldl_insert, decide_False. }
  assert (∀ a, a ∈ pcb_nodes p → is_Some (m0 !! a)) as Hm0.
  { intros a Ha. unfold m0. rewrite lookup_foldl_insert, decide_True by done. by eexists. }
  rewrite (kmalloc_eq 1 _ s) by done. cbv beta iota.
  cbn [clear_pcb with_pcbs with_sched with_heap kmallocs heap sched pcbs ctxs pid_map vmm join_queues s_next_thread_stack].
  erewrite upd_pcb_at by reflexivity. rewrite outcome_bind_ret.
  cbn [with_pcbs sched pcbs ctxs pid_map vmm heap kmallocs join_queues s_next_thread_stack].
  fold m0. destruct (Z.eqb_spec (answer 1 s) 0) as [H1|H1].
  { right. eexists. do 2 f_equal. refine (kfree_pcb_restore p _ zero_task m0 _ _ s Hpp Hpt Hpn Ho _). set_solver. }
  destruct (Hc H1) as (Hch & Hcc & Hcp). set (c := answer 1 s) in *.
  rewrite (kmalloc_eq 2 _ s) by done. cbv beta iota.
  cbn [with_ctxs with_heap kmallocs heap sched pcbs ctxs pid_map vmm join_queues s_next_thread_stack].
  erewrite upd_pcb_at by reflexivity. rewrite outcome_bind_ret.
  cbn [with_pcbs sched pcbs ctxs pid_map vmm heap kmallocs join_queues s_next_thread_stack].
  destruct (Z.eqb_spec (answer 2 s) 0) as [H2|H2].
  { right. exists (drop 3 (kmallocs s)). do 2 f_equal.
    match goal with |- context [<[p := ?x]> (pcbs s)] =>
      rewrite <- (kfree_pcb_restore p x zero_task m0 ({[ p ]} ∪ heap s) (drop 3 (kmallocs s)) s Hpp Hpt Hpn Ho ltac:(set_solver)) end.
    apply f_equal. unfold kfree_ctx, kfree, with_ctxs, with_heap.
    cbn [sched pcbs ctxs pid_map vmm heap kmallocs join_queues s_next_thread_stack]. f_equal; [by apply delete_insert_id|set_solver]. }
  destruct (Hst H2) as (Hsh & Hsp & Hsc). set (st := answer 2 s) in *. left.
  set (x1 := set_bufs _ _ _ (set_bufs _ _ _ _)).
  set (b1 := mk_new p c st x1 zero_task m0 (drop 3 (kmallocs s))).
  match goal with |- context [upd_pcb p _ ?S ≫= _] => change S with (plus b1 s) end.
  assert (extends_nodes b1 s) as He1.
  { by split. }
  rewrite (upd_pcb_plus b1), outcome_bind_ret. set (b2 := set_b_pcb _ b1). assert (extends_nodes b2 s) as He2 by done.
  assert (inited [] (b_nodes b2)) as Hi2 by (by intros a ?%not_elem_of_nil).
  unfold init_lists.
  destruct (init_step b2 (run_node p) [] s He2 Hi2) as (m3 & -> & He3 & Hi3); [in_nodes|]. rewrite outcome_bind_ret.
  destruct (init_step (set_b_nodes m3 b2) (siblings p) _ s He3 Hi3) as (m4 & -> & He4 & Hi4); [in_nodes|]. rewrite outcome_bind_ret.
  destruct (init_step _ (children p) _ s He4 Hi4) as (m5 & -> & He5 & Hi5); [in_nodes|]. rewrite outcome_bind_ret.
  destruct (init_step _ (zombie_children p) _ s He5 Hi5) as (m6 & -> & He6 & Hi6); [in_nodes|]. rewrite outcome_bind_ret.
  destruct (init_step _ (se_node p) _ s He6 Hi6) as (m7 & -> & He7 & Hi7); [in_nodes|]. rewrite outcome_bind_ret.
  set (b7 := set_b_nodes m7 _). change p with (b_addr b7) at 1. rewrite (upd_task_plus b7), outcome_bind_ret.
  set (b8 := set_b_task _ b7). change p with (b_addr b8) at 1. rewrite (upd_pcb_plus b8), outcome_bind_ret.
  set (b9 := set_b_pcb _ b8).
  destruct (init_step b9 (thread_list p) _ s He7 Hi7) as (m10 & -> & He10 & Hi10); [in_nodes|]. rewrite outcome_bind_ret.
  destruct (init_step _ (thread_group p) _ s He10 Hi10) as (m11 & -> & He11 & Hi11); [in_nodes|]. rewrite outcome_bind_ret.
  set (b11 := set_b_nodes m11 _). change (b_addr b8) with (b_addr b11).
  rewrite upd_pcb_plus, outcome_bind_ret.
  set (b := set_b_pcb _ b11). exists b. split; [done|]. split_and!; try done.
  - intros a Ha. apply Hi11. unfold pcb_nodes in Ha. cbn in Ha. set_solver.
Qed.
End process_proofs.
