(* ===== verification/Fork.v ===== *)
(** * Theorems on processes: fork, exit, wait and threads ([kernel/process]) *)
From S2P Require Import Prelude Bits Mem Bitmap E820 Pframe Page Vmm DList Sched Process.
Import Bitmap Pframe Page Vmm DList Sched Process.

Section fork_proofs.
Context `{PcbLayout}.
Implicit Types (s : proc_state) (p : Z).

(** ** What [proc_fork] may rely on

    The parent runs and the tasks [ts] wait for the processor, the children ring of
    the parent holds [kids] and lies apart from the run queues, the allocators are
    in order and the nodes of a control block are distinct. *)
Record fork_ready s (par : Z) (ts kids : list Z) (root : Z) (px : pcb) : Prop := {
  fr_run : rr_running (sched s) par ts;
  fr_len : Z.of_nat (length ts) + 2 < 2 ^ 32;
  fr_idle i : idle (sched s) = Some i → is_Some (tasks (sched s) !! i);
  fr_class : zlookup (classes (sched s)) SCHED_NORMAL = Some (Some rr_sched_class);
  fr_kids : is_list (nodes (sched s)) (children par) (siblings <$> kids);
  fr_apart a : a ∈ children par :: (siblings <$> kids) → a ∉ queue_nodes (par :: ts);
  fr_pids : pids_ok (pid_map s);
  fr_heap : heap_ok s;
  fr_layout p : NoDup (pcb_nodes p);
  fr_inv : page_inv (pages (vmm s)) root;
  fr_kernel : s_kernel_pml4 (vmm s) = root;
  fr_init : s_initialized (vmm s) = true;
  fr_par : pcbs s !! par = Some px }.

Lemma fr_current s par ts kids root px : fork_ready s par ts kids root px → current (sched s) = Some par.
Proof. intros [(? & _) _ _ _ _ _ _ _ _ _ _ _ _]. done. Qed.

(** The nodes in use are not those of a new block. *)
Lemma fresh_node b s a : fresh_block b s → is_Some (nodes (sched s) !! a) → a ∉ pcb_nodes (b_addr b).
Proof. intros [_ _ _ Hf] [x Hx] Ha. rewrite Hf in Hx by done. done. Qed.
Lemma queue_nodes_some (s : scheduler) par ts a : rr_running s par ts → a ∈ queue_nodes (par :: ts) → is_Some (nodes s !! a).
Proof.
  intros (_ & _ & _ & _ & _ & ((r & (Hl & _) & _) & Hleg & _) & _ & _ & H1 & H2 & _). unfold queue_nodes.
  rewrite !fmap_cons, !elem_of_cons, elem_of_app, !elem_of_cons.
  intros [->|[->|[[->|?]|[->|?]]]]; [..|done| |done|];
    solve [eapply is_list_nodes; [exact Hl|set_solver]|eapply is_list_nodes; [exact Hleg|set_solver]].
Qed.

Lemma apart_tail t ts : apart (t :: ts) → apart ts.
Proof.
  intros (Hn & Hne & Hh & Hd). apply NoDup_cons in Hn as [_ Hn]. split_and!; [done|done|..]; intros; [apply Hh|apply Hd]; by right.
Qed.
(** A new block next to the running tasks. *)
Lemma apart_new b s par ts : fresh_block b s → rr_running (sched s) par ts → NoDup (pcb_nodes (b_addr b)) →
  apart (par :: ts ++ [b_addr b]).
Proof.
  intros Hb Hs Hnd. pose proof (λ a Ha, fresh_node b s a Hb (queue_nodes_some _ _ _ a Hs Ha)) as Hfr.
  destruct Hs as (_ & _ & _ & (x & Hx & _) & Hts & _ & _ & (Hn & Hne & Hh & Hd) & _).
  destruct Hb as [(_ & _ & _ & Ht) _ _ _]. set (c := b_addr b) in *.
  assert (c ∉ par :: ts) as Hc. { intros [->|Hin]%elem_of_cons; [congruence|]. destruct (Hts _ Hin) as (y & Hy & _). congruence. }
  assert (∀ t, t ∈ par :: ts → se_node t ∉ pcb_nodes c ∧ run_node t ∉ pcb_nodes c) as Hold.
  { intros t Hin. split; apply Hfr; unfold queue_nodes; rewrite !elem_of_cons, elem_of_app; do 2 right; [left|right];
      by apply list_elem_of_fmap_2. }
  assert (se_node c ≠ run_node c) as Hsr.
  { unfold pcb_nodes in Hnd. apply NoDup_cons in Hnd as [Hnd _]. intros He. apply Hnd. rewrite <- He. in_nodes. }
  assert (se_node c ∈ pcb_nodes c ∧ run_node c ∈ pcb_nodes c) as [Hsn Hrn] by (split; in_nodes).
  assert (∀ t, t ∈ par :: ts ++ [c] → t ∈ par :: ts ∨ t = c) as Hcase by set_solver.
  split_and!; [|done|..].
  - rewrite app_comm_cons, NoDup_app. split_and!; [done|set_solver|apply NoDup_singleton].
  - intros t [Hin| ->]%Hcase; [by apply Hh|].
    assert (rq_queue SCHED_NORMAL ∉ pcb_nodes c ∧ legacy_queue ∉ pcb_nodes c) as [H1 H2].
    { split; apply Hfr; unfold queue_nodes; rewrite !elem_of_cons; tauto. }
    split; rewrite !not_elem_of_cons; split_and!; try apply not_elem_of_nil; intros He; rewrite He in *; done.
  - intros t u [Hin| ->]%Hcase [Hiu| ->]%Hcase; [by apply Hd|..]; intros He; [|..|done].
    + apply (proj1 (Hold t Hin)). by rewrite He.
    + apply (proj2 (Hold u Hiu)). by rewrite <- He.
Qed.

(** ** Linking the child *)
Definition child_task (y : task) : task :=
  set_prio 0 0 (set_slice RR_TIMESLICE_DEFAULT RR_TIMESLICE_DEFAULT
    (set_class SCHED_NORMAL (Some rr_sched_class) (set_class SCHED_NORMAL (Some rr_sched_class) y))).
Lemma fork_policy b s : zlookup (classes (sched s)) SCHED_NORMAL = Some (Some rr_sched_class) →
  sched_set_policy (Some (b_addr b)) SCHED_NORMAL 0 (sched (plus b s)) = Ret (0, sched (plus (set_b_task child_task b) s)).
Proof.
  intros Hc. unfold sched_set_policy. change (SCHED_MAX <=? SCHED_NORMAL) with false. cbv iota.
  change (classes (sched (plus b s))) with (classes (sched s)). rewrite Hc. cbn [access]. rewrite outcome_bind_ret.
  rewrite (upd_task_ok _ _ (b_task b)) by (cbn; apply lookup_insert_eq). rewrite outcome_bind_ret.
  cbn [ops rr_ops task_fork]. unfold rr_task_fork.
  erewrite upd_task_ok by (cbn; apply lookup_insert_eq). rewrite outcome_bind_ret. cbn. by rewrite !insert_insert_eq.
Qed.

(** The rings of the parent and of the run queues in the state with the new block. *)
Lemma ring_plus b s h l : fresh_block b s → extends_nodes b s → is_list (nodes (sched s)) h l → is_list (b_nodes b) h l.
Proof.
  intros Hb [Ho _] Hl. apply (is_list_frame (nodes (sched s))); [|done]. intros a Ha. apply Ho.
  apply (fresh_node b s); [done|by eapply is_list_nodes].
Qed.

Lemma queues_plus b s m ts : fresh_block b s → extends_nodes b s → rr_queues (sched s) ts →
  (∀ a, a ∈ queue_nodes ts → m !! a = b_nodes b !! a) → rr_queues (sched (plus (set_b_nodes m b) s)) ts.
Proof.
  intros Hb He ((r & (Hl & Hr & Hn) & Hc) & Hleg & Htot) Hf. unfold queue_nodes in Hf.
  assert (∀ h l, is_list (nodes (sched s)) h l → (∀ a, a ∈ h :: l → a ∈ queue_nodes ts) → is_list m h l) as Hk.
  { intros h l Hi Hs. apply (is_list_frame (b_nodes b)); [intros a Ha; apply Hf, Hs, Ha|by apply (ring_plus b s)]. }
  split; [|split]; [|apply Hk; [done|]|done].
  - exists r. split; [|done]. split; [|done]. apply Hk; [done|]. intros a. unfold queue_nodes. rewrite !elem_of_cons, elem_of_app. tauto.
  - intros a. unfold queue_nodes. rewrite !elem_of_cons, elem_of_app. tauto.
Qed.

Lemma child_new b s par ts kids root px : fork_ready s par ts kids root px → fresh_block b s →
  b_addr b ∉ par :: ts ∧ idle (sched s) ≠ Some (b_addr b) ∧ siblings (b_addr b) ∉ children par :: (siblings <$> kids) ∧
  siblings (b_addr b) ∉ queue_nodes (b_addr b :: par :: ts) ∧ children par ∉ pcb_nodes (b_addr b) ∧ par ≠ b_addr b.
Proof.
  intros [Hr _ Hi _ Hk _ _ _ Hnd _ _ _ Hpx] Hb. pose proof Hb as [(_ & _ & Hp & Ht) _ _ _]. set (c := b_addr b) in *.
  assert (siblings c ∈ pcb_nodes c) as Hc by in_nodes.
  assert (c ∉ par :: ts) as Hn.
  { destruct Hr as (_ & _ & _ & (x & Hx & _) & Hts & _). intros [->|Hin]%elem_of_cons; [congruence|].
    destruct (Hts _ Hin) as (y & Hy & _). congruence. }
  split_and!; [done|..].
  - intros Hx. destruct (Hi _ Hx) as [y Hy]. congruence.
  - intros Ha. eapply (fresh_node b s); [done|by eapply is_list_nodes|done].
  - intros Ha. assert (siblings c = se_node c ∨ siblings c = run_node c ∨ siblings c ∈ queue_nodes (par :: ts)) as [He|[He|Hq]].
    { unfold queue_nodes in *. rewrite !fmap_cons, !elem_of_cons, elem_of_app, !elem_of_cons in Ha.
      rewrite !fmap_cons, !elem_of_cons, elem_of_app, !elem_of_cons. tauto. }
    + pose proof (Hnd c) as Hd. unfold pcb_nodes in Hd. rewrite !NoDup_cons in Hd. rewrite He in Hd. set_solver.
    + pose proof (Hnd c) as Hd. unfold pcb_nodes in Hd. rewrite !NoDup_cons in Hd. rewrite He in Hd. set_solver.
    + eapply (fresh_node b s); [done|by eapply queue_nodes_some|done].
  - apply (fresh_node b s); [done|]. eapply is_list_nodes; [done|left].
  - intros ->. set_solver.
Qed.

Lemma fork_link b s par ts kids root px : fork_ready s par ts kids root px → fresh_block b s → extends_nodes b s →
  state (b_task b) = PROC_READY →
  ∃ m sc, list_add_tail (siblings (b_addr b)) (children par) (b_nodes b) = Ret m ∧
    sched_enqueue_task (Some (b_addr b)) false (sched (plus (set_b_task child_task (set_b_nodes m b)) s)) = Ret sc ∧
    rr_running sc par (ts ++ [b_addr b]) ∧ is_list (nodes sc) (children par) (siblings <$> kids ++ [b_addr b]) ∧
    tasks sc !! b_addr b = Some (child_task (b_task b)).
Proof.
  intros Hs Hb He Hst. destruct (child_new b s par ts kids root px Hs Hb) as (Hc & Hidc & Hsib & Hsq & Hch & Hpc).
  pose proof (apart_new b s par ts Hb (fr_run _ _ _ _ _ _ Hs) (fr_layout _ _ _ _ _ _ Hs _)) as Hap.
  pose proof (λ a, queue_nodes_some (sched s) par ts a (fr_run _ _ _ _ _ _ Hs)) as Hsome.
  destruct Hs as [Hrun Hlen _ _ Hk Hapart _ _ _ _ _ _ _]. pose proof He as [Ho Hin]. set (c := b_addr b) in *.
  destruct (list_add_tail_spec (siblings c) (children par) (siblings <$> kids) (b_nodes b)) as (m & Hm & Hl & Hf & Hd);
    [by apply (ring_plus b s)|done|apply Hin; in_nodes|].
  exists m. set (s1 := sched (plus (set_b_task child_task (set_b_nodes m b)) s)).
  assert (∀ a, a ∈ queue_nodes (par :: ts) → m !! a = b_nodes b !! a) as Hfq.
  { intros a Ha. apply Hf. intros [->|Hx]%elem_of_cons; [|by apply (Hapart a Hx)].
    eapply (fresh_node b s); [done|by apply Hsome|in_nodes]. }
  assert (queue_nodes ts ⊆ queue_nodes (par :: ts)) as Hsub.
  { intros a. unfold queue_nodes. rewrite !fmap_cons, !elem_of_cons, !elem_of_app, !elem_of_cons. tauto. }
  pose proof Hrun as (Hcur & Hset & Hidle & (x & Hx & Hrx & Hsl) & Hts & Hq & Hprio & _ & Hn1 & Hn2 & _).
  assert (rr_task PROC_READY (child_task (b_task b))) as Hct by (by split_and!).
  assert (tasks s1 !! c = Some (child_task (b_task b))) as Hxc by apply lookup_insert_eq.
  destruct (sched_enqueue_rr s1 ts c (child_task (b_task b)) PROC_READY)
    as (sc & Hsc & Hq' & Hfr & Ht' & Hs' & Hc' & Hi' & Hp' & Hd'); [..|done|done| | |lia|].
  { apply (queues_plus b s m ts); [done..|]. intros a Ha. apply Hfq, Hsub, Ha. }
  { apply (apart_tail par). eapply apart_perm; [|exact Hap]. by rewrite (Permutation_app_comm ts [c]). }
  1-2: apply (dom_is_Some (b_nodes b)); [done|apply Hin; in_nodes].
  exists sc. split_and!; [done|done| | |by rewrite Ht'].
  - unfold rr_running. rewrite Hs', Hc', Hi', Hp', Ht', length_app. cbn [length]. split_and!; try done; [..|lia].
    + intros t [->|[Ht| ->%list_elem_of_singleton]%elem_of_app]%elem_of_cons; [apply Hidle; left|apply Hidle; by right|done].
    + exists x. split; [|done]. cbn. by rewrite lookup_insert_ne by (by apply not_eq_sym).
    + intros t [Ht| ->%list_elem_of_singleton]%elem_of_app; [|by eexists].
      destruct (Hts t Ht) as (y & Hy & Hry). exists y. split; [|done]. cbn. rewrite lookup_insert_ne; [done|].
      intros He'. apply Hc. right. change (b_addr _) with c in He'. by rewrite He'.
    + apply (dom_is_Some m); [done|]. rewrite Hfq by (unfold queue_nodes; set_solver). rewrite Ho; [done|]. by apply (fresh_node b s).
    + apply (dom_is_Some m); [done|]. rewrite Hfq by (unfold queue_nodes; set_solver). rewrite Ho; [done|]. by apply (fresh_node b s).
  - rewrite fmap_app. apply (is_list_frame m); [|done]. intros a Ha. rewrite Hfr; [done|].
    assert (a = siblings c ∨ a ∈ children par :: (siblings <$> kids)) as [->|Hak] by set_solver.
    + intros Hqa. apply Hsq. unfold queue_nodes in *.
      rewrite !fmap_cons, !elem_of_cons, elem_of_app, !elem_of_cons in Hqa.
      rewrite !fmap_cons, !elem_of_cons, elem_of_app, !elem_of_cons. tauto.
    + intros Hqa. pose proof (fresh_node b s a Hb (is_list_nodes _ _ _ _ Hk Hak)) as Hna.
      apply (Hapart a Hak). unfold queue_nodes in *. rewrite !fmap_cons, !elem_of_cons, elem_of_app, !elem_of_cons in Hqa.
      rewrite !fmap_cons, !elem_of_cons, elem_of_app, !elem_of_cons.
      assert (a ≠ se_node c) by (intros ->; apply Hna; in_nodes).
      assert (a ≠ run_node c) by (intros ->; apply Hna; in_nodes). tauto.
Qed.

(** ** Fork *)
Definition forked (i par ctx stack pml4 : Z) (px : pcb) : pcb :=
  mk_pcb i (pid px) par i false 0 (mk_mm pml4 (brk (mm px)) (stack_start (mm px))) 1 ctx 0 (stack ⊞ KERNEL_STACK_SIZE) stack
    false 0 0 0 false 0 0 0.
(** Only answers of the heap are used up. *)
Record untouched s s' : Prop := {
  un_sched : sched s' = sched s; un_pcbs : pcbs s' = pcbs s; un_ctxs : ctxs s' = ctxs s; un_vmm : vmm s' = vmm s;
  un_heap : heap s' = heap s; un_joins : join_queues s' = join_queues s; un_stack : s_next_thread_stack s' = s_next_thread_stack s;
  un_pids : pids_ok (pid_map s'); un_bits j : 0 ≤ j → bit (pid_map s') j = bit (pid_map s) j }.

Lemma untouched_heap s k : pids_ok (pid_map s) → untouched s (with_heap (heap s) k s).
Proof. by split. Qed.
Lemma untouched_pids s m1 m2 i k : bit (pid_map s) i = false → pid_change i true (pid_map s) m1 → pid_change i false m1 m2 →
  untouched s (with_heap (heap s) k (with_pids m2 s)).
Proof.
  intros Hi [_ H1] [Hok H2]. split; try done. intros j Hj. cbn. rewrite H2, H1 by done. by destruct (Z.eqb_spec j i) as [->|].
Qed.

Lemma get_pcb_other b s p x : p ≠ b_addr b → pcbs s !! p = Some x → get_pcb p (plus b s) = Ret x.
Proof. intros Hne Hx. unfold get_pcb. cbn [pcbs plus]. by rewrite lookup_insert_ne, Hx. Qed.
(** The address space of the child; [b] has none yet. *)
Lemma copy_space b s par root px : pml4_phys (mm (b_pcb b)) = 0 → par ≠ b_addr b → pcbs s !! par = Some px →
  page_inv (pages (vmm s)) root → s_kernel_pml4 (vmm s) = root → s_initialized (vmm s) = true →
  (proc_copy_address_space par (b_addr b) (plus b s) = Ret (-1, plus (set_b_pcb (λ x, set_mm (mk_mm 0 (brk (mm x)) (stack_start (mm x))) x) b) s)) ∨
  ∃ pml4 v, proc_copy_address_space par (b_addr b) (plus b s) =
      Ret (0, plus (set_b_pcb (set_mm (mk_mm pml4 (brk (mm px)) (stack_start (mm px)))) b) (with_vmm v s)) ∧
    page_inv (pages v) root ∧ page_inv (pages v) pml4 ∧
    (∀ u, idx 3 u < 256 → mmu (pages v) pml4 u = None) ∧
    (∀ u, 256 ≤ idx 3 u → mmu (pages v) pml4 u = mmu (pages (vmm s)) root u) ∧
    (∀ u, mmu (pages v) root u = mmu (pages (vmm s)) root u).
Proof.
  intros H0 Hne Hpx Hinv Hk Hi. unfold proc_copy_address_space. rewrite get_pcb_plus, outcome_bind_ret, H0.
  change (vmm (plus b s)) with (vmm s).
  destruct (create_user_space_spec root 0 (vmm s) Hinv Hk Hi) as (r & pml4 & v & -> & Hr). rewrite outcome_bind_ret.
  change (with_vmm v (plus b s)) with (plus b (with_vmm v s)). rewrite upd_pcb_plus, outcome_bind_ret.
  destruct r; try done.
  - right. rewrite bool_decide_true by done. cbn [negb]. unfold get_pcb at 1. cbn [pcbs plus with_vmm set_b_pcb b_addr].
    rewrite lookup_insert_ne, Hpx by done. cbn [access]. rewrite outcome_bind_ret.
    change (b_addr b) with (b_addr (set_b_pcb (λ x, set_mm (mk_mm pml4 (brk (mm x)) (stack_start (mm x))) x) b)) at 1.
    rewrite upd_pcb_plus, outcome_bind_ret. exists pml4, v. destruct Hr as (? & ? & _ & ? & ? & ? & _). by split_and!.
  - left. destruct Hr as (-> & -> & _). cbn. by destruct s.
Qed.

(** What a successful fork adds: the child [c] with identifier [i]. *)
Record fork_adds s s' (par : Z) (ts kids : list Z) (root : Z) (px : pcb) (i c : Z) : Prop := {
  fa_pid : 0 < i < PID_MAX ∧ bit (pid_map s) i = false ∧ pid_change i true (pid_map s) (pid_map s');
  fa_run : rr_running (sched s') par (ts ++ [c]);
  fa_kids : is_list (nodes (sched s')) (children par) (siblings <$> kids ++ [c]);
  fa_pcb : ∃ ctx stack pml4,
    pcbs s !! c = None ∧ pcbs s' = <[c := forked i par ctx stack pml4 px]> (pcbs s) ∧
    ctxs s !! ctx = None ∧ ctxs s' = <[ctx := mk_ctx 0 0]> (ctxs s) ∧
    heap s' = {[ stack ]} ∪ ({[ ctx ]} ∪ ({[ c ]} ∪ heap s)) ∧ NoDup [0; c; ctx; stack] ∧ (∀ a, a ∈ [c; ctx; stack] → a ∉ heap s) ∧
    page_inv (pages (vmm s')) root ∧ page_inv (pages (vmm s')) pml4 ∧
    (∀ u, idx 3 u < 256 → mmu (pages (vmm s')) pml4 u = None) ∧
    (∀ u, 256 ≤ idx 3 u → mmu (pages (vmm s')) pml4 u = mmu (pages (vmm s)) root u) ∧
    (∀ u, mmu (pages (vmm s')) root u = mmu (pages (vmm s)) root u) }.

Lemma fresh_pcb_block b f s : fresh_block b s → fresh_block (set_b_pcb f b) s.
Proof. intros [? ? ? ?]. by split. Qed.
Lemma fresh_task_block b f s : fresh_block b s → fresh_block (set_b_task f b) s.
Proof. intros [? ? ? ?]. by split. Qed.
Hint Resolve fresh_pcb_block fresh_task_block : core.
Lemma fork_free b s pm : fresh_block b s → extends_nodes b s → b_pcb b = set_mm (mk_mm 0 0 0) (b_pcb b) →
  cpu_ctx (b_pcb b) = b_ctx b → kernel_stack_base (b_pcb b) = b_stack b → trap_frame (b_pcb b) = 0 → is_user_mode (b_pcb b) = false →
  join_waiters (b_pcb b) = 0 →
  proc_free_pcb (b_addr b) (plus b (with_pids pm s)) = Ret (with_heap (heap s) (b_answers b) (with_pids pm s)).
Proof. intros [? ? ? ?] He Hm H1 H2 H3 H4 H5. apply (free_plus b (with_pids pm s)); try done. by rewrite Hm. Qed.
Lemma fresh_nodup b s : fresh_block b s →
  NoDup [0; b_addr b; b_ctx b; b_stack b] ∧ ∀ a, a ∈ [b_addr b; b_ctx b; b_stack b] → a ∉ heap s.
Proof.
  intros [(? & ? & _) (? & ? & _ & ?) (? & ? & ? & ?) _]. split.
  - repeat (apply NoDup_cons; split; [rewrite ?not_elem_of_cons; split_and!; try apply not_elem_of_nil; congruence|]). apply NoDup_singleton.
  - intros a. rewrite !elem_of_cons. intros [->|[->|[->|[]%not_elem_of_nil]]]; done.
Qed.

Lemma fork_finish_spec b s v m par ts kids root px : fork_ready s par ts kids root px → fresh_block b s → extends_nodes b s →
  state (b_task b) = PROC_READY → let s1 := with_vmm v (with_pids m s) in
  ∃ nd sc, fork_finish par (b_addr b) (plus b s1) = Ret (pid (b_pcb b), with_sched sc (plus (set_b_nodes nd b) s1)) ∧
    rr_running sc par (ts ++ [b_addr b]) ∧ is_list (nodes sc) (children par) (siblings <$> kids ++ [b_addr b]).
Proof.
  intros Hs Hb He Ht s1. destruct (fork_link b s par ts kids root px Hs Hb He Ht) as (nd & sc & Hnd & Hsc & Hrun & Hkids & Htc).
  destruct (child_new b s par ts kids root px Hs Hb) as (_ & _ & _ & _ & _ & Hpc). exists nd, sc. split; [|done].
  unfold fork_finish. rewrite (on_list_plus b _ nd) by done. rewrite outcome_bind_ret.
  set (b5 := set_b_nodes nd b). change (b_addr b) with (b_addr b5). rewrite (fork_policy b5 s1) by apply Hs.
  rewrite outcome_bind_ret. cbn [fst snd].
  assert (on_sched (sched_enqueue_task (Some (b_addr b5)) false) (with_sched (sched (plus (set_b_task child_task b5) s1)) (plus b5 s1)) =
    Ret (with_sched sc (plus b5 s1))) as ->.
  { unfold on_sched. match goal with |- ?x ≫= _ = _ =>
      change x with (sched_enqueue_task (Some (b_addr b)) false (sched (plus (set_b_task child_task (set_b_nodes nd b)) s))) end.
    by rewrite Hsc. }
  rewrite outcome_bind_ret. cbn [with_sched sched].
  rewrite bool_decide_false by (destruct Hrun as (-> & _); intros [= He']; by apply Hpc).
  change (get_pcb (b_addr b5) (with_sched sc (plus b5 s1))) with (get_pcb (b_addr b5) (plus b5 s1)).
  by rewrite get_pcb_plus, outcome_bind_ret.
Qed.


(** ** Wait *)
(** A dead process as [proc_fork] made it: no user stack, its own address space. *)
Record dead s (z : Z) (x : pcb) : Prop := {
  dd_pcb : pcbs s !! z = Some x; dd_nz : z ≠ 0; dd_kernel : is_user_mode x = false; dd_ref : mm_refcount x = 1;
  dd_space : pml4_phys (mm x) ≠ 0; dd_inv : page_inv (pages (vmm s)) (pml4_phys (mm x));
  dd_1gb : no_user_1gb (pages (vmm s)) (pml4_phys (mm x)); dd_init : s_initialized (vmm s) = true }.
Definition blocks_of (z : Z) (x : pcb) : list Z := [z; cpu_ctx x; kernel_stack_base x; trap_frame x; join_waiters x].
(** Nothing is left of [z]: neither its record, nor its nodes, nor its heap blocks, nor
    the tables of its address space. *)
Record released s s' (z : Z) (x : pcb) : Prop := {
  rl_pcbs : pcbs s' = delete z (pcbs s);
  rl_tasks : tasks (sched s') = delete z (tasks (sched s));
  rl_nodes a : nodes (sched s') !! a = if decide (a ∈ pcb_nodes z) then None else nodes (sched s) !! a;
  rl_heap a : a ≠ 0 → a ∈ heap s' ↔ a ∈ heap s ∧ a ∉ blocks_of z x;
  rl_tables : phys_mem (pages (vmm s')) = phys_mem (pages (vmm s)) ∧ ∀ g, 0 ≤ g < total_frames (frames (pages (vmm s))) →
    allocated (frames (pages (vmm s'))) g = true ↔
    allocated (frames (pages (vmm s))) g = true ∧ ¬ user_table (pages (vmm s)) (pml4_phys (mm x)) g;
  rl_pids : pid_map s' = pid_map s }.

Lemma elem_kfree_opt a c s : a ≠ 0 → a ∈ heap (kfree_opt c s) ↔ a ∈ heap s ∧ a ≠ c.
Proof. intros Ha. unfold kfree_opt. destruct (Z.eqb_spec c 0) as [->|]; [naive_solver|]. cbn. set_solver. Qed.
Lemma kfree_opt_heap c s : kfree_opt c s = with_heap (heap (kfree_opt c s)) (kmallocs s) s.
Proof. unfold kfree_opt. destruct (c =? 0); by destruct s. Qed.

Lemma free_dead s z x : dead s z x → ∃ s', proc_free_pcb z s = Ret s' ∧ released s s' z x.
Proof.
  intros [Hx Hz Hu Hr Hsp Hinv H1 Hi]. unfold proc_free_pcb. destruct (Z.eqb_spec z 0); [done|].
  unfold get_pcb. rewrite Hx. cbn [access]. rewrite outcome_bind_ret, Hu. cbn [andb]. rewrite outcome_bind_ret.
  destruct (Z.eqb_spec (pml4_phys (mm x)) 0); [done|]. cbn [negb].
  set (s1 := if cpu_ctx x =? 0 then s else kfree_ctx (cpu_ctx x) s).
  rewrite (kfree_opt_heap (kernel_stack_base x)), (kfree_opt_heap (trap_frame x)).
  set (h1 := heap (kfree_opt (kernel_stack_base x) s1)).
  set (h2 := heap (kfree_opt (trap_frame x) _)).
  assert (sched s1 = sched s ∧ pcbs s1 = pcbs s ∧ vmm s1 = vmm s ∧ pid_map s1 = pid_map s) as (E1 & E2 & E3 & E4).
  { unfold s1. by destruct (cpu_ctx x =? 0). }
  assert (∀ a, a ≠ 0 → a ∈ h2 ↔ a ∈ heap s ∧ a ≠ cpu_ctx x ∧ a ≠ kernel_stack_base x ∧ a ≠ trap_frame x) as Hh.
  { intros a Ha. unfold h2. rewrite elem_kfree_opt by done. cbn [heap with_heap]. unfold h1. rewrite elem_kfree_opt by done.
    unfold s1. destruct (Z.eqb_spec (cpu_ctx x) 0) as [->|]; [naive_solver|]. cbn. set_solver. }
  clearbody h1 h2. unfold upd_pcb at 1, get_pcb at 1. cbn [with_heap pcbs]. rewrite E2, Hx. cbn [access]. rewrite !outcome_bind_ret, Hr.
  change (s32 (1 - 1) =? 0) with true. cbv iota. unfold on_vmm. cbn [with_heap with_pcbs vmm]. rewrite E3.
  destruct (destroy_user_space_spec (pml4_phys (mm x)) (vmm s) Hinv H1 Hi) as (v & -> & Hm & _ & _ & Ht). rewrite !outcome_bind_ret.
  rewrite kfree_opt_heap. eexists. split; [done|]. split.
  - cbn. apply delete_insert_eq.
  - cbn. by rewrite E1.
  - intros a. cbn [kfree_pcb kfree with_heap with_pcbs with_sched with_vmm sched nodes with_tasks with_nodes].
    rewrite lookup_foldl_delete. cbn. by rewrite E1.
  - intros a Ha. cbn [kfree_pcb kfree with_heap with_pcbs with_sched with_vmm heap].
    rewrite elem_of_difference, elem_kfree_opt by done. cbn [heap with_vmm with_pcbs with_heap snd]. rewrite Hh by done.
    unfold blocks_of. rewrite !not_elem_of_cons, not_elem_of_singleton. pose proof (not_elem_of_nil a). tauto.
  - done.
  - cbn. by rewrite E4.
Qed.

Lemma entries_of_ring s head off l : is_list (nodes (sched s)) head ((λ p, p + off) <$> l) → entries_of head off s = Ret l.
Proof.
  intros Hl. unfold entries_of. rewrite (list_for_each_spec _ _ _ Hl), outcome_bind_ret. cbn [access]. rewrite outcome_bind_ret. f_equal.
  rewrite <- list_fmap_compose. rewrite <- (list_fmap_id l) at 2. apply list_fmap_ext. intros _ p _. cbn. lia.
Qed.
Lemma find_pid_first s i l1 z l2 x : (∀ y, y ∈ l1 → ∃ px, pcbs s !! y = Some px ∧ pid px ≠ i) → pcbs s !! z = Some x → pid x = i →
  find_pid i (l1 ++ z :: l2) s = Ret z.
Proof.
  intros Hl Hz Hi. induction l1 as [|y l1 IH]; cbn [find_pid app]; unfold get_pcb at 1.
  - rewrite Hz. cbn [access]. rewrite outcome_bind_ret. by destruct (Z.eqb_spec (pid x) i).
  - destruct (Hl y) as (px & -> & Hne); [left|]. cbn [access]. rewrite outcome_bind_ret. destruct (Z.eqb_spec (pid px) i); [done|].
    apply IH. intros y' Hy'. apply Hl. by right.
Qed.

End fork_proofs.

(** ** Concrete states *)
Lemma rr_running_frame `{Layout} (s : scheduler) c ts m : (∀ a, a ∈ queue_nodes (c :: ts) → m !! a = nodes s !! a) →
  rr_running s c ts → rr_running (with_nodes m s) c ts.
Proof.
  intros Hf (? & ? & ? & ? & ? & ((r & (Hl & Hr & Hn) & Hc) & Hleg & Htot) & ? & ? & ? & ? & ?).
  assert (∀ a, a ∈ queue_nodes ts ∨ a = se_node c ∨ a = run_node c → m !! a = nodes s !! a) as Hf'.
  { intros a Ha. apply Hf. unfold queue_nodes in *. rewrite !elem_of_cons, !elem_of_app in Ha.
    rewrite !fmap_cons, !elem_of_cons, !elem_of_app, !elem_of_cons. tauto. }
  split_and!; try done; [|cbn; rewrite Hf'; [done|tauto]..].
  split; [|split]; [|eapply is_list_frame; [|exact Hleg]|done].
  - exists r. split; [|done]. split; [|done]. eapply is_list_frame; [|exact Hl]. intros a Ha. apply Hf'. left.
    unfold queue_nodes. rewrite !elem_of_cons, elem_of_app in *. tauto.
  - intros a Ha. apply Hf'. left. unfold queue_nodes. rewrite !elem_of_cons, elem_of_app in *. tauto.
Qed.

Lemma is_list_empty m h : is_list m h [] → m !! h = Some (mk_node h h).
Proof.
  intros [_ [Hn Hp]]. unfold nxt, prv in *. destruct (m !! h) as [[n q]|]; [|done]. cbn in Hn, Hp. by simplify_eq.
Qed.

Section demo.
#[local] Instance demo_pcb_layout : PcbLayout := {|
  pl_sched := demo_layout; siblings_off := 72; children_off := 104; zombie_off := 136; thread_list_off := 168;
  thread_group_off := 200; thread_entry_wrapper := 0xffff800000100000 |}.
Definition demo_pids : bitmap := mk_bitmap (1 :: replicate 4095 0) PID_MAX.
Definition demo_pcb (i : Z) : pcb := set_ref 1 (set_mm (mk_mm 4096 0 0) (set_ids i 0 0 i false zero_pcb)).
(** Two processes, the first of which runs; [ks] are the next answers of the heap. *)
Definition demo_proc (ks : list Z) : proc_state :=
  mk_proc (with_nodes (foldl (λ m a, <[a := mk_node a a]> m) (nodes demo_rr)
             ((λ off, 10000 + off) <$> [72; 104; 136; 168; 200; 1072; 1104; 1136; 1168; 1200])) demo_rr)
    (list_to_map [(10000, demo_pcb 3); (11000, demo_pcb 4)]) ∅ demo_pids demo_vmm ∅ ks ∅ THREAD_STACK_BASE.

Lemma demo_pids_ok : pids_ok demo_pids.
Proof.
  split; [split|done|done].
  - vm_compute. by split.
  - vm_compute. done.
  - apply Forall_cons. split; [vm_compute; done|]. apply Forall_replicate. vm_compute. done.
Qed.
Lemma demo_fork_ready : fork_ready (demo_proc [20000; 21000; 30000]) 10000 [11000] [] 4096 (demo_pcb 3).
Proof.
  assert (∀ a, a ∈ queue_nodes [10000; 11000] → a ∈ [1000; 1100; 10008; 11008; 10040; 11040]) as Hq by (intros a; exact id).
  split.
  - apply rr_running_frame; [|exact demo_rr_running]. intros a Ha%Hq.
    repeat (apply elem_of_cons in Ha as [->|Ha]; [vm_compute; reflexivity|]). by apply not_elem_of_nil in Ha.
  - done.
  - intros i Hi. exfalso. vm_compute in Hi. done.
  - vm_compute. done.
  - apply is_list_self. vm_compute. reflexivity.
  - intros a ->%list_elem_of_singleton Ha%Hq. revert Ha. change (children 10000) with 10104. set_solver by lia.
  - exact demo_pids_ok.
  - split; intros _; vm_compute; split_and!; try done; try set_solver.
  - intros p. unfold pcb_nodes, run_node, siblings, children, zombie_children, se_node, thread_list, thread_group.
    cbn. repeat (apply NoDup_cons; split; [rewrite ?not_elem_of_cons; split_and!; try apply not_elem_of_nil; lia|]). apply NoDup_singleton.
  - exact demo_page_inv.
  - done.
  - done.
  - vm_compute. done.
Qed.

(** The second process has died and the first one waits for it. *)
Definition demo_dead : proc_state :=
  let s := demo_proc [] in
  with_sched (with_nodes (<[10136 := mk_node 11136 11136]> (<[11136 := mk_node 10136 10136]> (nodes (sched s)))) (sched s)) s.
Lemma demo_dead_ok : dead demo_dead 11000 (demo_pcb 4).
Proof. split; [reflexivity|done|done|done|done|exact demo_page_inv|exact demo_no_1gb|reflexivity]. Qed.

(** ** Defects *)
Definition run_turns (n k : nat) (s : proc_state) : outcome proc_state := x ← turns n k (sched s); Ret (with_sched x s).
(** The child of a fork runs and exits, the parent waits for it. *)
Definition fork_exit_wait : outcome (wait_end * proc_state) :=
  r ← proc_fork (demo_proc [20000; 21000; 30000; 40000; 41000; 50000]);
  s ← run_turns 10 2 (snd (r : Z * proc_state));
  e ← proc_exit 7 s;
  proc_wait4 (-1) (snd (e : option (option Z) * proc_state)).
(** [proc_wait4] returns the child but keeps its identifier in use and leaves its
    node in the children of the parent, so that the next fork follows a link
    into freed memory. *)
Theorem fork_after_wait_faults :
  (w ← fork_exit_wait; b ← bitmap_test (pid_map (snd w)) 1; Ret (fst w, b)) = Ret (Reaped 1 7, true) ∧
  (w ← fork_exit_wait; proc_fork (snd w)) = Fail Fault.
Proof. vm_compute. by split. Qed.

Definition table_in_use (s : proc_state) : bool := allocated (frames (pages (vmm s))) 1.
(** When the wait queue of a new kernel thread cannot be allocated, the tables of the
    address space it shares with its creator are freed. *)
Theorem kernel_thread_failure_frees_callers_tables :
  table_in_use (demo_proc [20000; 21000; 30000; 0]) = true ∧
  (r ← proc_create_kernel_thread 0x100 0 (demo_proc [20000; 21000; 30000; 0]); Ret (fst r, table_in_use (snd r))) = Ret (0, false).
Proof. vm_compute. by split. Qed.

Definition demo_thread (ks : list Z) : outcome (Z * proc_state) := proc_create_user_thread 10000 0x400000 0 0x7000000 4096 (demo_proc ks).
(** A user thread that cannot be created still counts as a user of its parent's
    address space, which is then never freed. *)
Theorem user_thread_failure_leaks_reference :
  (r ← demo_thread [20000; 21000; 30000; 0]; Ret (fst r, mm_refcount <$> pcbs (snd r) !! 10000)) = Ret (-1, Some 2).
Proof. vm_compute. reflexivity. Qed.
(** A thread that has exited is on no list any more: it cannot be joined and its
    blocks are never freed. *)
Theorem exited_thread_cannot_be_joined :
  (r ← demo_thread [20000; 21000; 30000; 40000]; s ← run_turns 10 2 (snd r); e ← proc_thread_exit 9 s;
   j ← proc_thread_join 1 (snd e); Ret (fst r, current (sched s), fst e, fst j, bool_decide (20000 ∈ heap (snd j)))) =
  Ret (1, Some 20000, Some (Some 10000), JoinError, true).
Proof. vm_compute. reflexivity. Qed.
(** A detached thread frees its own control block and then calls the scheduler, which
    reads it. *)
Theorem detached_thread_exit_faults :
  (r ← demo_thread [20000; 21000; 30000; 40000]; d ← proc_thread_detach 1 (snd r); s ← run_turns 10 2 (snd d); Ret (fst d, current (sched s))) =
    Ret (0, Some 20000) ∧
  (r ← demo_thread [20000; 21000; 30000; 40000]; d ← proc_thread_detach 1 (snd r); s ← run_turns 10 2 (snd d);
   e ← proc_thread_exit 9 s; Ret (fst e)) = Fail Fault.
Proof. vm_compute. by split. Qed.
End demo.
