(* ===== verification/User.v ===== *)
(** * User memory: [kernel/user/user.c]

    The functions that map, unmap and grow the memory of a process, on the process
    state of [Process], and the copies between kernel buffers and user memory. A
    kernel access to a user address goes through the walk of the processor from the
    tables CR3 points to; the kernel runs without write protection, so that an
    address that translates can be written. An access that does not translate is a
    [Fault]. Kernel buffers are lists of bytes. *)
From S2P Require Import Prelude Bits Mem Bitmap E820 Pframe Page Vmm DList Sched Process Fork.
Import Bitmap Pframe Page Vmm DList Sched Process.

Module User.

Definition USER_STACK_SIZE := 1 * 1024 * 1024.
Definition PROT_WRITE := 0x02.
Definition PROT_EXEC := 0x04.

(** ** User pointers *)
Definition user_validate_pointer (ptr size : Z) (write : bool) : bool :=
  if negb (vmm_is_user_addr ptr) then false else
  if ptr ⊞ size <? ptr then false else
  if USER_END <? ptr ⊞ size then false else
  if ptr <? USER_BASE then false else true.

(** ** The flags of a copy that faults *)
Record copy_state := mk_copy { s_copy_in_progress : bool; s_copy_faulted : bool }.
Definition user_copy_faulted (c : copy_state) : bool := s_copy_faulted c.
Definition user_copy_begin (c : copy_state) : copy_state := mk_copy true false.
Definition user_copy_end (c : copy_state) : bool * copy_state := (s_copy_faulted c, mk_copy false false).

(** ** Bytes of an address space *)
Definition get_byte (w i : Z) : Z := Z.land (Z.shiftr w (8 * i)) 0xFF.
Definition set_byte (w i b : Z) : Z := Z.lor (Z.ldiff w (Z.shiftl 0xFF (8 * i))) (Z.shiftl b (8 * i)).
Definition byte_at (m : gmap Z Z) (pa : Z) : option Z := (λ w, get_byte w (pa mod 8)) <$> m !! (pa - pa mod 8).
Definition put_byte (pa b : Z) (m : gmap Z Z) : option (gmap Z Z) :=
  (λ w, <[pa - pa mod 8 := set_byte w (pa mod 8) b]> m) <$> m !! (pa - pa mod 8).
Section bytes.
Context (root : Z).
Implicit Types (p : page_state).
Definition vm_load (v : Z) p : outcome Z :=
  t ← access (mmu p root v); access (byte_at (phys_mem p) (fst t)).
Definition vm_store (v b : Z) p : outcome page_state :=
  t ← access (mmu p root v); m ← access (put_byte (fst t) b (phys_mem p)); Ret (with_mem m p).

(** [memcpy] between a kernel buffer and user memory *)
Definition user_copy_to_user (dst : Z) (src : list Z) (count : Z) p : outcome (Z * page_state) :=
  if count =? 0 then Ret (0, p) else
  if negb (user_validate_pointer dst count true) then Ret (-1, p) else
  p ← for_range 0 count (λ i p, b ← access (zlookup src i); vm_store (dst ⊞ i) b p) p;
  Ret (s64 count, p).
Definition user_copy_from_user (dst : list Z) (src count : Z) p : outcome (Z * list Z) :=
  if count =? 0 then Ret (0, dst) else
  if negb (user_validate_pointer src count false) then Ret (-1, dst) else
  dst ← for_range 0 count (λ i d, b ← vm_load (src ⊞ i) p; _ ← access (zlookup d i); Ret (zinsert d i b)) dst;
  Ret (s64 count, dst).

Fixpoint strncpy_loop (n : nat) (i src : Z) (dst : list Z) p : outcome (option Z * list Z) :=
  match n with
  | O => Ret (None, dst)
  | S n' =>
      b ← vm_load (src ⊞ i) p;
      _ ← access (zlookup dst i);
      let dst := zinsert dst i b in
      if b =? 0 then Ret (Some i, dst) else strncpy_loop n' (i + 1) src dst p
  end.
Definition user_strncpy_from_user (dst : list Z) (src max_len : Z) p : outcome (Z * list Z) :=
  if max_len =? 0 then Ret (0, dst) else
  if negb (user_validate_pointer src max_len false) then Ret (-1, dst) else
  r ← strncpy_loop (Z.to_nat max_len) 0 src dst p;
  match r : option Z * list Z with
  | (Some i, dst) => Ret (s64 i, dst)
  | (None, dst) => _ ← access (zlookup dst (max_len - 1)); Ret (s64 max_len, zinsert dst (max_len - 1) 0)
  end.
Fixpoint string_loop (n : nat) (i str : Z) p : outcome bool :=
  match n with
  | O => Ret false
  | S n' => b ← vm_load (str ⊞ i) p; if b =? 0 then Ret true else string_loop n' (i + 1) str p
  end.
Definition user_validate_string (str max_len : Z) p : outcome bool :=
  if negb (user_validate_pointer str max_len false) then Ret false else string_loop (Z.to_nat max_len) 0 str p.
End bytes.

(** ** Mapping pages

    The loop all functions below share: a frame is taken, mapped and cleared; a
    frame that cannot be mapped is given back. [i] is the page that failed. *)
Inductive map_end := MapDone | NoFrame (i : Z) | NotMapped (i : Z).
Fixpoint map_user_pages (n : nat) (i pml4 base flags : Z) (v : vmm_state) : outcome (map_end * vmm_state) :=
  match n with
  | O => Ret (MapDone, v)
  | S n' =>
      fr ← on_frames pframe_alloc v;
      match fr : pframe_result * option Z * vmm_state with
      | (PFRAME_OK, Some paddr, v) =>
          mr ← vmm_map_to_user pml4 (base ⊞ (i ⊠ PAGE_SIZE)) paddr 1 flags v;
          let '(result, v) := mr : vmm_result * vmm_state in
          if bool_decide (result = VMM_OK) then
            p ← clear_page (phys_to_virt_offset paddr) (pages v);
            map_user_pages n' (i + 1) pml4 base flags (with_pages p v)
          else
          rs ← on_frames (λ f, pframe_free f paddr) v;
          Ret (NotMapped i, snd (rs : pframe_result * vmm_state))
      | (_, _, v) => Ret (NoFrame i, v)
      end
  end.

Section user.
Context `{PcbLayout}.
Implicit Types (s : proc_state) (p : Z).

(** ** Processes *)
Definition user_create_process (entry p : Z) s : outcome (Z * proc_state) :=
  if p =? 0 then Ret (-1, s) else
  let stack_pages := USER_STACK_SIZE / PAGE_SIZE in
  let stack := Z.land (USER_END ⊟ USER_STACK_SIZE) (~64 (PAGE_SIZE - 1)) in
  s ← upd_pcb p (λ x, set_user (is_user_mode x) stack USER_STACK_SIZE x) s;
  x ← get_pcb p s;
  let pml4 := pml4_phys (mm x) in
  mr ← map_user_pages (Z.to_nat stack_pages) 0 pml4 (user_stack x) (Z.lor VMAP_FLAG_WRITE VMAP_FLAG_USER) (vmm s);
  let '(r, v) := mr : map_end * vmm_state in
  let s := with_vmm v s in
  match r with
  | MapDone => s ← upd_pcb p (λ x, set_user true (user_stack x) (user_stack_size x) x) s; Ret (0, s)
  | NoFrame i | NotMapped i =>
      s ← release_range pml4 (user_stack x) i s;
      s ← upd_pcb p (λ x, set_user (is_user_mode x) 0 0 x) s; Ret (-1, s)
  end.
Definition user_destroy_process p s : outcome proc_state :=
  if p =? 0 then Ret s else
  x ← get_pcb p s;
  if negb (is_user_mode x) then Ret s else
  s ← (if negb (user_stack x =? 0) && negb (user_stack_size x =? 0) then
         release_range (pml4_phys (mm x)) (user_stack x) (user_stack_size x / PAGE_SIZE) s
       else Ret s);
  if negb (pml4_phys (mm x) =? 0) then
    on_vmm (λ v, r ← vmm_destroy_user_space (pml4_phys (mm x)) v; Ret (snd (r : vmm_result * vmm_state))) s
  else Ret s.
Definition user_setup_user_stack p s : outcome Z :=
  if p =? 0 then Ret (-1) else x ← get_pcb p s; Ret (if is_user_mode x then 0 else -1).

(** ** Regions; the result of a mapping is its address, 0 on failure *)
Definition user_find_free_region (min_addr max_addr size : Z) : Z :=
  let size := page_round size in
  let addr := page_round min_addr in
  if addr ⊞ size <=? max_addr then addr else 0.
Definition user_unmap_region (p vaddr size : Z) s : outcome (Z * proc_state) :=
  if p =? 0 then Ret (-1, s) else
  let vaddr := Z.land vaddr (~64 (PAGE_SIZE - 1)) in
  let size := page_round size in
  x ← get_pcb p s;
  s ← release_range (pml4_phys (mm x)) vaddr (size / PAGE_SIZE) s;
  Ret (0, s).
Definition user_map_region (p vaddr size flags : Z) s : outcome (Z * proc_state) :=
  if p =? 0 then Ret (0, s) else
  let size := page_round size in
  if size =? 0 then Ret (0, s) else
  let chosen := if vaddr =? 0 then user_find_free_region USER_BASE USER_END size else Z.land vaddr (~64 (PAGE_SIZE - 1)) in
  if (vaddr =? 0) && (chosen =? 0) then Ret (0, s) else
  let vaddr := chosen in
  x ← get_pcb p s;
  mr ← map_user_pages (Z.to_nat (size / PAGE_SIZE)) 0 (pml4_phys (mm x)) vaddr (Z.lor flags VMAP_FLAG_USER) (vmm s);
  let '(r, v) := mr : map_end * vmm_state in
  let s := with_vmm v s in
  match r with
  | MapDone => Ret (vaddr, s)
  | NoFrame i | NotMapped i => rs ← user_unmap_region p vaddr (i ⊠ PAGE_SIZE) s; Ret (0, snd (rs : Z * proc_state))
  end.

(** ** The heap of a process *)
Definition set_brk (b : Z) (x : pcb) : pcb := set_mm (mk_mm (pml4_phys (mm x)) b (stack_start (mm x))) x.
Definition user_brk (p new_brk : Z) s : outcome (Z * proc_state) :=
  if p =? 0 then Ret (0, s) else
  x ← get_pcb p s;
  if new_brk =? 0 then Ret (brk (mm x), s) else
  let new_brk := page_round new_brk in
  if (new_brk <? USER_BASE) || (USER_END - USER_STACK_SIZE <=? new_brk) then Ret (brk (mm x), s) else
  if new_brk <=? brk (mm x) then s ← upd_pcb p (set_brk new_brk) s; Ret (new_brk, s) else
  let old_brk := if brk (mm x) =? 0 then USER_BASE + 16 * 1024 * 1024 else brk (mm x) in
  let additional_pages := (new_brk ⊟ old_brk) / PAGE_SIZE in
  let pml4 := pml4_phys (mm x) in
  mr ← map_user_pages (Z.to_nat additional_pages) 0 pml4 old_brk (Z.lor VMAP_FLAG_WRITE VMAP_FLAG_USER) (vmm s);
  let '(r, v) := mr : map_end * vmm_state in
  let s := with_vmm v s in
  match r with
  | MapDone => s ← upd_pcb p (set_brk new_brk) s; Ret (new_brk, s)
  | NoFrame _ => Ret (old_brk, s)
  | NotMapped i => s ← release_range pml4 old_brk i s; Ret (old_brk, s)
  end.

(** ** Anonymous mappings *)
Definition user_munmap (p addr length : Z) s : outcome (Z * proc_state) :=
  if p =? 0 then Ret (-1, s) else
  if negb (Z.land addr (PAGE_SIZE - 1) =? 0) then Ret (-1, s) else
  if negb (vmm_is_user_addr addr) then Ret (-1, s) else
  let length := page_round length in
  x ← get_pcb p s;
  s ← release_range (pml4_phys (mm x)) addr (length / PAGE_SIZE) s;
  Ret (0, s).
Definition prot_flags (prot : Z) : Z :=
  let f := VMAP_FLAG_USER in
  let f := if negb (Z.land prot PROT_WRITE =? 0) then Z.lor f VMAP_FLAG_WRITE else f in
  if Z.land prot PROT_EXEC =? 0 then Z.lor f VMAP_FLAG_NO_EXEC else f.
Definition mmap_addr (brk addr : Z) : Z :=
  if addr =? 0 then
    let addr := USER_BASE + 16 * 1024 * 1024 in
    page_round (if addr <? brk then brk else addr)
  else addr.
Definition user_mmap (p addr length prot : Z) s : outcome (Z * proc_state) :=
  if p =? 0 then Ret (0, s) else
  let length := page_round length in
  x ← get_pcb p s;
  let addr := mmap_addr (brk (mm x)) addr in
  mr ← map_user_pages (Z.to_nat (length / PAGE_SIZE)) 0 (pml4_phys (mm x)) addr (prot_flags prot) (vmm s);
  let '(r, v) := mr : map_end * vmm_state in
  let s := with_vmm v s in
  match r with
  | MapDone => Ret (addr, s)
  | NoFrame i | NotMapped i => rs ← user_munmap p addr (i ⊠ PAGE_SIZE) s; Ret (0, snd (rs : Z * proc_state))
  end.
End user.
End User.
Import User.

(** ** The pointer check *)

(** A range passes exactly when it lies in the user half, whatever the sum of address
    and size is in 64 bits. *)
Lemma user_validate_pointer_spec ptr size write : is_u64 ptr → is_u64 size →
  user_validate_pointer ptr size write = true ↔ USER_BASE ≤ ptr < USER_END ∧ ptr + size ≤ USER_END.
Proof.
  intros Hp Hs. unfold user_validate_pointer, vmm_is_user_addr, USER_BASE, USER_END, is_u64 in *.
  destruct (Z.leb_spec 0x400000 ptr), (Z.ltb_spec ptr 0x00007FFFFFFFFFFF); cbn [andb negb]; try (split; [done|lia]).
  destruct (decide (ptr + size < 2 ^ 64)).
  - rewrite u64_small by lia. destruct (Z.ltb_spec (ptr + size) ptr); [lia|]. destruct (Z.ltb_spec 0x00007FFFFFFFFFFF (ptr + size)); [split; [done|lia]|].
    destruct (Z.ltb_spec ptr 0x400000); [lia|]. split; [lia|done].
  - assert (ptr ⊞ size = ptr + size - 2 ^ 64) as ->.
    { unfold u64. rewrite <- (Z.mod_small (ptr + size - 2 ^ 64) (2 ^ 64)) by lia. rewrite Zminus_mod, Z_mod_same_full, Z.sub_0_r, Zmod_mod. done. }
    destruct (Z.ltb_spec (ptr + size - 2 ^ 64) ptr); [|lia]. split; [done|lia].
Qed.

(** ** Copies between kernel buffers and user memory *)
Lemma ff_bit k : 0 ≤ k → Z.testbit 0xFF k = (k <? 8).
Proof. intros Hk. change 0xFF with (Z.ones 8). by rewrite Z.testbit_ones_nonneg by lia. Qed.
Lemma byte_bit b k : 0 ≤ b < 256 → Z.testbit b k = (k <? 8) && Z.testbit b k.
Proof.
  intros Hb. destruct (Z.ltb_spec k 8); [done|]. by rewrite (testbit_above b 8) by (change (2 ^ 8) with 256; lia).
Qed.
Lemma get_set_byte w i j b : 0 ≤ i → 0 ≤ j → 0 ≤ b < 256 → get_byte (set_byte w i b) j = if decide (i = j) then b else get_byte w j.
Proof.
  intros Hi Hj Hb. apply Z.bits_inj'. intros k Hk. unfold get_byte, set_byte.
  rewrite Z.land_spec, Z.shiftr_spec, Z.lor_spec, Z.ldiff_spec, !Z.shiftl_spec, (ff_bit k) by lia.
  destruct (Z.ltb_spec k 8) as [Hk8|Hk8]; rewrite ?andb_true_r, ?andb_false_r.
  - destruct (decide (i = j)) as [->|Hne].
    + replace (k + 8 * j - 8 * j) with k by lia. rewrite ff_bit, (proj2 (Z.ltb_lt k 8)), andb_false_r by lia. done.
    + rewrite Z.land_spec, Z.shiftr_spec, (ff_bit k), (proj2 (Z.ltb_lt k 8)), andb_true_r by lia. destruct (Z.ltb_spec (k + 8 * j - 8 * i) 0).
      * rewrite (Z.testbit_neg_r 0xFF), (Z.testbit_neg_r b) by lia. by rewrite andb_true_r, orb_false_r.
      * rewrite (ff_bit (k + 8 * j - 8 * i)), (byte_bit b) by lia. destruct (Z.ltb_spec (k + 8 * j - 8 * i) 8); [lia|]. cbn. by rewrite andb_true_r, orb_false_r.
  - destruct (decide (i = j)); [rewrite byte_bit by done|rewrite Z.land_spec, ff_bit by lia]; destruct (Z.ltb_spec k 8); by (lia || rewrite ?andb_false_r).
Qed.
Lemma put_byte_spec m pa b : 0 ≤ b < 256 → is_Some (m !! (pa - pa mod 8)) →
  ∃ m', put_byte pa b m = Some m' ∧ dom m' = dom m ∧ (∀ w, w ≠ pa - pa mod 8 → m' !! w = m !! w) ∧
    ∀ q, byte_at m' q = if decide (q = pa) then Some b else byte_at m q.
Proof.
  intros Hb [w Hw]. unfold put_byte. rewrite Hw. cbn. eexists. split; [done|]. split; [|split].
  - rewrite dom_insert_L. apply elem_of_dom_2 in Hw. set_solver.
  - intros u Hu. by rewrite lookup_insert_ne.
  - intros q. unfold byte_at. destruct (decide (q - q mod 8 = pa - pa mod 8)) as [Heq|Hne].
    + rewrite Heq, lookup_insert_eq, Hw. cbn. rewrite get_set_byte by (try apply Z.mod_pos_bound; lia).
      destruct (decide (pa mod 8 = q mod 8)), (decide (q = pa)); congruence || lia.
    + rewrite lookup_insert_ne by done. by rewrite decide_False by congruence.
Qed.

Lemma s64_id k : 0 ≤ k < 2 ^ 63 → s64 k = k.
Proof. intros Hk. unfold s64, sext. rewrite Z.mod_small by lia. change (64 - 1) with 63. destruct (Z.ltb_spec k (2 ^ 63)); [done|lia]. Qed.
Lemma zlookup_eq {A} (l k : list A) : length l = length k → (∀ i, 0 ≤ i < Z.of_nat (length k) → zlookup l i = zlookup k i) → l = k.
Proof.
  intros Hlen Heq. apply list_eq. intros i. destruct (decide (i < length k)%nat).
  - specialize (Heq (Z.of_nat i) ltac:(lia)). rewrite !zlookup_nonneg, Nat2Z.id in Heq by lia. done.
  - by rewrite !lookup_ge_None_2 by lia.
Qed.

(** The [n] bytes from [dst] on are memory of the process: each of them translates to
    an address that holds no page table, and no two of them to the same one. *)
Record user_buffer (root dst n : Z) (p : page_state) : Prop := {
  ub_data i : 0 ≤ i < n → ∃ pa e, mmu p root (dst + i) = Some (pa, e) ∧ 0 ≤ pa < 4096 * total_frames (frames p) ∧ ¬ is_table root p (pa / 4096);
  ub_inj i j pa e e' : 0 ≤ i < n → 0 ≤ j < n → mmu p root (dst + i) = Some (pa, e) → mmu p root (dst + j) = Some (pa, e') → i = j }.

Section copy.
Context (root dst : Z) (src : list Z) (p : page_state).
#[local] Notation n := (Z.of_nat (length src)).
Context (Hs : page_inv p root) (Hbuf : user_buffer root dst n p) (Hsrc : Forall (λ b, 0 ≤ b < 256) src).
Context (Hrange : USER_BASE ≤ dst ∧ dst + n ≤ USER_END).
(** The state after [k] bytes. *)
Record copied (k : Z) (p' : page_state) : Prop := {
  cp_inv : page_inv p' root;
  cp_mem : ∃ m', p' = with_mem m' p;
  cp_mmu u : mmu p' root u = mmu p root u;
  cp_tab f : is_table root p' f ↔ is_table root p f;
  cp_byte i pa e : 0 ≤ i < k → mmu p root (dst + i) = Some (pa, e) → byte_at (phys_mem p') pa = zlookup src i;
  cp_rest q : (∀ i e, 0 ≤ i < k → mmu p root (dst + i) ≠ Some (q, e)) → byte_at (phys_mem p') q = byte_at (phys_mem p) q }.
Lemma dst_wrap i : 0 ≤ i < n → dst ⊞ i = dst + i.
Proof using Hrange. unfold USER_BASE, USER_END in *. intros. apply u64_small. lia. Qed.
Lemma copied_step k p' : 0 ≤ k < n → copied k p' →
  ∃ p'', (b ← access (zlookup src k); vm_store root (dst ⊞ k) b p') = Ret p'' ∧ copied (k + 1) p''.
Proof using Hs Hbuf Hsrc Hrange.
  intros Hk [Hi [m' ->] Hm Ht Hb Hrest]. destruct (zlookup_lt_is_Some src k) as [b Hsk]; [lia|]. rewrite Hsk. cbn [access]. rewrite outcome_bind_ret, dst_wrap by done.
  assert (0 ≤ b < 256) as Hb8. { rewrite Forall_forall in Hsrc. apply Hsrc. rewrite zlookup_nonneg in Hsk by lia. by eapply list_elem_of_lookup_2. }
  destruct (ub_data _ _ _ _ Hbuf k Hk) as (pa & e & Hpa & Hr & Hnt). unfold vm_store. rewrite Hm, Hpa. cbn [access fst]. rewrite outcome_bind_ret.
  pose proof (Z.mod_pos_bound pa 8 ltac:(lia)) as Hmod. pose proof (Z.div_mod pa 4096 ltac:(lia)) as Hd. pose proof (Z.mod_pos_bound pa 4096 ltac:(lia)).
  pose proof (Z.div_mod pa 8 ltac:(lia)) as Hd8.
  destruct (put_byte_spec m' pa b Hb8) as (m2 & Hput & Hdom & Ho & Hq).
  { apply (pi_mem _ _ Hi); cbn; [lia|]. replace (pa - pa mod 8) with (pa / 8 * 8) by lia. apply Z.mod_mul. lia. }
  cbn [phys_mem with_mem fst]. rewrite Hput. cbn [access]. rewrite outcome_bind_ret. eexists. split; [reflexivity|].
  destruct (data_write (with_mem m' p) root (pa / 4096) m2 Hi) as (Hi2 & Hm2 & Ht2 & _).
  { intros u j a Ha ->. apply Hnt, Ht. by exists u, j. }
  { intros w Hw. apply Ho. lia. }
  { done. }
  change (with_mem m2 (with_mem m' p)) with (with_mem m2 p) in *. split; [done|by exists m2| | | |].
  - intros u. by rewrite Hm2.
  - intros f. rewrite <- Ht. unfold is_table. cbn [phys_mem with_mem]. by setoid_rewrite Ht2.
  - intros i qa e' Hi' Hqa. cbn [phys_mem with_mem]. rewrite Hq. destruct (decide (qa = pa)) as [->|Hne].
    + by rewrite (ub_inj _ _ _ _ Hbuf i k pa e' e ltac:(lia) Hk Hqa Hpa), Hsk.
    + apply (Hb i qa e'); [|done]. assert (i ≠ k) by (intros ->; congruence). lia.
  - intros q Hq'. cbn [phys_mem with_mem]. rewrite Hq, decide_False. { apply Hrest. intros i e' Hi'. apply Hq'. lia. }
    intros ->. by apply (Hq' k e); [lia|].
Qed.
Lemma copied_start : copied 0 p.
Proof using Hs Hbuf. split; [done|by exists (phys_mem p); destruct p|done|done|lia|done]. Qed.
Lemma load_copied p' i : copied n p' → 0 ≤ i < n → (b ← vm_load root (dst ⊞ i) p'; Ret (Some b)) = Ret (zlookup src i).
Proof using Hbuf Hrange.
  intros Hc Hi. rewrite dst_wrap by done. destruct (ub_data _ _ _ _ Hbuf i Hi) as (pa & e & Hpa & _). unfold vm_load.
  rewrite (cp_mmu _ _ Hc), Hpa. cbn [access]. rewrite outcome_bind_ret. cbn [fst]. rewrite (cp_byte _ _ Hc i pa e) by done. by destruct (zlookup_lt_is_Some src i) as [b ->]; [lia|].
Qed.
Lemma user_pointer_ok write : 0 < n → user_validate_pointer dst n write = true.
Proof using Hrange. intros Hn. unfold USER_BASE, USER_END in *. apply user_validate_pointer_spec; unfold is_u64, USER_BASE, USER_END; lia. Qed.
Lemma copy_to_user_spec : ∃ p', user_copy_to_user root dst src n p = Ret (n, p') ∧ copied n p'.
Proof using Hs Hbuf Hsrc Hrange.
  unfold user_copy_to_user. destruct (Z.eqb_spec n 0) as [->|Hn]; [exists p; split; [done|exact copied_start]|]. rewrite user_pointer_ok by lia. cbn [negb].
  destruct (for_range_ind copied 0 n (λ i p, b ← access (zlookup src i); vm_store root (dst ⊞ i) b p) p copied_start) as (p' & -> & Hc).
  { intros k q Hk. by apply copied_step. }
  rewrite Z.max_r in Hc by lia. exists p'. rewrite outcome_bind_ret. split; [|done]. do 2 f_equal. unfold USER_BASE, USER_END in *. apply s64_id. lia.
Qed.
Lemma copy_from_user_spec p' buf : copied n p' → length buf = length src → user_copy_from_user root buf dst n p' = Ret (n, src).
Proof using Hbuf Hrange.
  intros Hc Hl. unfold user_copy_from_user. destruct (Z.eqb_spec n 0) as [Hn|Hn].
  { by rewrite (nil_length_inv src), (nil_length_inv buf) by lia. }
  rewrite user_pointer_ok by lia. cbn [negb].
  destruct (for_range_ind (λ k d, length d = length src ∧ ∀ i, 0 ≤ i < k → zlookup d i = zlookup src i) 0 n
    (λ i d, b ← vm_load root (dst ⊞ i) p'; _ ← access (zlookup d i); Ret (zinsert d i b)) buf) as (d & -> & Hld & Hd).
  - split; [done|lia].
  - intros k d Hk [Hld Hd]. pose proof (load_copied p' k Hc Hk) as (b & -> & Hb)%outcome_bind_inv. rewrite outcome_bind_ret.
    destruct (zlookup_lt_is_Some d k) as [b0 Hb0]; [lia|]. rewrite Hb0. cbn [access]. rewrite outcome_bind_ret. eexists. split; [reflexivity|].
    rewrite length_zinsert. split; [done|]. intros i Hi. destruct (decide (i = k)) as [->|Hne].
    + rewrite zlookup_zinsert_eq by lia. by injection Hb.
    + rewrite zlookup_zinsert_ne by done. apply Hd. lia.
  - rewrite Z.max_r in Hd by lia. rewrite outcome_bind_ret, (zlookup_eq d src Hld Hd), s64_id by (unfold USER_BASE, USER_END in *; lia). done.
Qed.
End copy.

(** C17: What the kernel copies to a buffer of a process it reads back, and the copy
    writes exactly the bytes of the buffer: no translation changes, and no byte of
    memory that the buffer does not translate to. *)
Theorem user_copy_roundtrip root dst src buf p : let n := Z.of_nat (length src) in
  page_inv p root → user_buffer root dst n p → Forall (λ b, 0 ≤ b < 256) src → USER_BASE ≤ dst → dst + n ≤ USER_END → length buf = length src →
  ∃ p', user_copy_to_user root dst src n p = Ret (n, p') ∧ user_copy_from_user root buf dst n p' = Ret (n, src) ∧
    (∀ u, mmu p' root u = mmu p root u) ∧
    ∀ q, (∀ i e, 0 ≤ i < n → mmu p root (dst + i) ≠ Some (q, e)) → byte_at (phys_mem p') q = byte_at (phys_mem p) q.
Proof.
  intros n Hs Hb Hf Hu He Hl. destruct (copy_to_user_spec root dst src p Hs Hb Hf (conj Hu He)) as (p' & E & Hc). exists p'.
  split; [exact E|]. split; [by apply (copy_from_user_spec root dst src p)|]. split; apply Hc.
Qed.

(** A copy to or from a range that does not lie in the user half is refused and
    changes nothing. *)
Theorem user_copy_refused root a count src buf p : is_u64 a → 0 < count < 2 ^ 64 → ¬ (USER_BASE ≤ a < USER_END ∧ a + count ≤ USER_END) →
  user_copy_to_user root a src count p = Ret (-1, p) ∧ user_copy_from_user root buf a count p = Ret (-1, buf) ∧
  user_strncpy_from_user root buf a count p = Ret (-1, buf) ∧ user_validate_string root a count p = Ret false.
Proof.
  intros Ha Hc Hno. assert (∀ w, user_validate_pointer a count w = false) as Hv.
  { intros w. apply not_true_is_false. intros Hv. apply Hno. apply (user_validate_pointer_spec a count w); [done|unfold is_u64; lia|done]. }
  unfold user_copy_to_user, user_copy_from_user, user_strncpy_from_user, user_validate_string. rewrite !Hv, (proj2 (Z.eqb_neq count 0)) by lia. done.
Qed.

(** ** Mapping *)
Lemma map_to_user_one root va pa flags v : s_initialized v = true → page_inv (pages v) root → vmm_is_user_addr va = true →
  0 ≤ va < 2 ^ 64 → 0 ≤ pa < 2 ^ 64 →
  vmm_map_to_user root va pa 1 flags v =
    (rs ← page_map_page root va pa (Z.lor flags VMAP_FLAG_USER) true (pages v);
     let '(r, p) := rs : Page.page_result * page_state in
     if bool_decide (r = PAGE_OK) then Ret (VMM_OK, count_user 1 (with_pages p v))
     else us ← page_unmap_range root va 0 p; Ret (VMM_ERR_OOM, with_pages (snd (us : Page.page_result * page_state)) v)).
Proof.
  intros Hi Hs Hu Hva Hpa. unfold vmm_map_to_user. rewrite Hi, Hu. cbn [ccos_assert negb]. rewrite outcome_bind_ret.
  change (Z.to_nat 1) with 1%nat. cbn [map_user_loop]. change (0 ⊠ PAGE_SIZE) with 0. rewrite !Z.add_0_r, !u64_small by lia.
  destruct (page_map_page root va pa (Z.lor flags VMAP_FLAG_USER) true (pages v)) as [[r p]|e]; [|done]. rewrite !outcome_bind_ret.
  destruct (bool_decide (r = PAGE_OK)); cbn [negb]; [done|]. destruct (page_unmap_range root va 0 p) as [[r' p']|e]; done.
Qed.
Lemma unmap_range_none root va p : Page.s_initialized p = true → page_unmap_range root va 0 p = Ret (PAGE_OK, p).
Proof. intros Hi. unfold page_unmap_range. by rewrite Hi. Qed.

(** The contents of the frames [fs] are zero. *)
Definition zero_frames (fs : list Z) (p : page_state) : Prop :=
  ∀ f i, f ∈ fs → 0 ≤ i < 512 → phys_mem p !! (4096 * f + 8 * i) = Some 0.
(** Writing a frame that is no table keeps what is mapped. *)
Lemma mapped_to_data root base fl count p0 fs p f m' : mapped_to root base fl count p0 fs 0 p → ¬ is_table root p f →
  (∀ w, w < 4096 * f ∨ 4096 * f + 4096 ≤ w → m' !! w = phys_mem p !! w) → dom m' = dom (phys_mem p) →
  mapped_to root base fl count p0 fs 0 (with_mem m' p).
Proof.
  intros Hm Hnt Ho Hd. destruct (data_write p root f m' (mt_inv _ _ _ _ _ _ _ _ Hm)) as (Hs & Hmmu & Htabs & Hpv & Hnh); [|done|done|].
  { intros u j a Ha ->. apply Hnt. by exists u, j. }
  assert (∀ g, is_table root (with_mem m' p) g ↔ is_table root p g) as Ht by (intros g; unfold is_table; cbn [phys_mem with_mem]; by setoid_rewrite Htabs).
  split; try apply Hm; try done.
  - intros j Hj. destruct (mt_ok _ _ _ _ _ _ _ _ Hm j Hj). split; [by apply Hpv|by apply Hnh].
  - intros j g u. rewrite Hmmu. apply Hm.
  - intros j u. rewrite Hmmu. apply Hm.
  - intros u. rewrite Hmmu. apply Hm.
  - intros j g. rewrite Ht. apply Hm.
  - intros g. rewrite Ht. apply Hm.
Qed.
Lemma frame_outside_tables root p f i : page_inv p root → ¬ is_table root p f → 0 ≤ i < 512 → outside_tables root (phys_mem p) (4096 * f + 8 * i).
Proof.
  intros Hs Hnt Hi u j a Ha. destruct (pi_tab _ _ Hs u j a Ha) as (g & -> & _). assert (g ≠ f) by (intros ->; apply Hnt; by exists u, j). lia.
Qed.
Lemma phys_to_virt_offset_direct pa : phys_to_virt_offset pa = phys_to_virt pa.
Proof. unfold phys_to_virt_offset, phys_to_virt. by rewrite Z.add_comm. Qed.

Section mapping.
Context (root base flags count : Z) (p0 : page_state).
#[local] Notation fl := (Z.lor flags VMAP_FLAG_USER).
Context (Hfl : small_pages flags) (Hb : base mod 4096 = 0) (Hu : USER_BASE ≤ base) (Hend : base + 4096 * count ≤ USER_END) (Hcount : 0 ≤ count).
#[local] Notation mapped := (mapped_to root base fl count p0).

Lemma base_range : 0 ≤ base ∧ base + 4096 * count ≤ 2 ^ 64 ∧ 0 ≤ count ≤ 2 ^ 36.
Proof using Hu Hend Hcount. unfold USER_BASE, USER_END in *. lia. Qed.
(** One page more. *)
Lemma map_user_page_spec fs v f x : mapped fs 0 (pages v) → zero_frames fs (pages v) → s_initialized v = true → Z.of_nat (length fs) < count →
  0 < f < total_frames (frames (pages v)) → allocated (frames (pages v)) f = false → changed (frames (pages v)) x f 1 true → Pframe.inv x →
  let v1 := with_pages (with_frames x (pages v)) v in
  ∃ r v2, vmm_map_to_user root (base ⊞ (Z.of_nat (length fs) ⊠ PAGE_SIZE)) (4096 * f) 1 flags v1 = Ret (r, v2) ∧ same_vmm v v2 ∧
    if bool_decide (r = VMM_OK) then ∃ p3, clear_page (phys_to_virt_offset (4096 * f)) (pages v2) = Ret p3 ∧
      mapped (fs ++ [f]) 0 p3 ∧ zero_frames (fs ++ [f]) p3
    else ∃ v3, (rs ← on_frames (λ y, pframe_free y (4096 * f)) v2; Ret (snd (rs : pframe_result * vmm_state))) = Ret v3 ∧
      same_vmm v v3 ∧ mapped fs 0 (pages v3).
Proof using Hfl Hb Hu Hend Hcount.
  intros Hm Hz Hi Hlen Hf Hfree Hch Hxi v1. destruct base_range as (Hb0 & Hb64 & Hc36). pose proof (mt_inv _ _ _ _ _ _ _ _ Hm) as Hs.
  pose proof (inv_small _ (pi_frames _ _ Hs)) as Hsm.
  rewrite (vp_wrap base count Hb0 Hb64 Hc36) by lia.
  assert (page_inv (pages v1) root) as Hs1.
  { apply page_inv_frames; [done..|by destruct Hch|by destruct Hch as (_ & ? & _)|]. intros g Hg. apply (changed_other _ _ f true); [done| |].
    - destruct Hg as [->|Hg]; [lia|]. apply (table_allocated _ _ _ Hs) in Hg. lia.
    - intros ->. destruct Hg as [->|Hg]; [lia|]. apply (table_allocated _ _ _ Hs) in Hg as [_ Hg]. congruence. }
  rewrite map_to_user_one; [|done|done|unfold vmm_is_user_addr, vpage, USER_BASE, USER_END in *; lia|unfold vpage, USER_BASE, USER_END in *; lia|lia].
  destruct (map_fresh_spec root base fl count p0 (small_pages_lor flags 1 Hfl ltac:(lia)) Hb Hb0 Hb64 Hc36 fs x f (pages v) Hm Hlen Hf Hfree Hch Hxi)
    as (r & p2 & E & Hmem & Hres). subst v1. cbn [pages with_pages] in *. rewrite E, outcome_bind_ret. destruct (bool_decide (r = PAGE_OK)).
  - eexists VMM_OK, _. split; [done|]. split; [done|]. rewrite bool_decide_true by done. cbn [pages count_user with_stats with_pages].
    pose proof (mt_inv _ _ _ _ _ _ _ _ Hres) as Hs2. assert (total_frames (frames p2) = total_frames (frames (pages v))) as Ht2.
    { by rewrite (mt_total _ _ _ _ _ _ _ _ Hres), (mt_total _ _ _ _ _ _ _ _ Hm). }
    assert (∀ g, g ∈ fs ++ [f] → 0 < g < total_frames (frames p2) ∧ ¬ is_table root p2 g) as Hg.
    { intros g Hg. apply list_elem_of_lookup_1 in Hg as [j Hj]. destruct (mt_frame _ _ _ _ _ _ _ _ Hres (Z.of_nat j) g) as (Hr & _ & Hl).
      { rewrite zlookup_nonneg by lia. by rewrite Nat2Z.id. } split; [done|]. apply Hl. lia. }
    rewrite phys_to_virt_offset_direct.
    destruct (clear_page_spec p2 (4096 * f)) as (m' & -> & Hz' & Ho & Hd); [lia|lia| |].
    { intros k Hk. apply (pi_mem _ _ Hs2); [lia|]. replace (4096 * f + 8 * k) with ((512 * f + k) * 8) by lia. apply Z.mod_mul. lia. }
    eexists. split; [done|]. split; [apply (mapped_to_data _ _ _ _ _ _ _ f); [done| |done|done]; apply Hg; set_solver|].
    intros g k Hgf Hk. cbn [phys_mem with_mem]. destruct (decide (g = f)) as [->|Hne]; [by apply Hz'|].
    rewrite Ho by lia. rewrite Hmem by (apply frame_outside_tables; [done|by apply Hg|done]). apply Hz; [set_solver|done].
  - destruct Hres as (y & Hy & Hm'). pose proof (mt_inv _ _ _ _ _ _ _ _ Hm') as Hs2. rewrite unmap_range_none by (by apply Hs2). rewrite outcome_bind_ret.
    eexists VMM_ERR_OOM, _. split; [done|]. split; [done|]. rewrite bool_decide_false by done.
    unfold on_frames. cbn [pages with_pages snd]. rewrite Hy, !outcome_bind_ret. eexists. split; [done|]. by split.
Qed.

Lemma map_user_pages_spec n fs v : Z.of_nat n = count - Z.of_nat (length fs) → mapped fs 0 (pages v) → zero_frames fs (pages v) →
  s_initialized v = true →
  ∃ e v' fs', map_user_pages n (Z.of_nat (length fs)) root base flags v = Ret (e, v') ∧ same_vmm v v' ∧ mapped fs' 0 (pages v') ∧
    match e with MapDone => Z.of_nat (length fs') = count ∧ zero_frames fs' (pages v')
      | NoFrame i => i = Z.of_nat (length fs') ∧ ∀ f, 0 ≤ f < total_frames (frames (pages v')) → allocated (frames (pages v')) f = true
      | NotMapped i => i = Z.of_nat (length fs') end.
Proof using Hfl Hb Hu Hend Hcount.
  revert fs v. induction n as [|n IH]; intros fs v Hn Hm Hz Hi; cbn [map_user_pages].
  { exists MapDone, v, fs. split; [done|]. split; [done|]. split; [done|]. split; [lia|done]. }
  pose proof (mt_inv _ _ _ _ _ _ _ _ Hm) as Hs. pose proof (inv_small _ (pi_frames _ _ Hs)) as Hsm. unfold on_frames.
  destruct (pframe_alloc_cases (frames (pages v)) (pi_frames _ _ Hs) (pi_init _ _ Hs))
    as [(f & x & -> & Hf & Hfree & Hch & Hxi)|[-> Hall]]; rewrite !outcome_bind_ret.
  2: { exists (NoFrame (Z.of_nat (length fs))), v, fs. split; [|by split_and!]. do 2 f_equal. rewrite with_frames_id. by destruct v. }
  assert (f ≠ 0) by (intros ->; by rewrite (pi_zero _ _ Hs) in Hfree). rewrite frame_to_addr_mul by lia.
  destruct (map_user_page_spec fs v f x Hm Hz Hi ltac:(lia) ltac:(lia) Hfree Hch Hxi) as (r & v2 & -> & Hsame & Hres). rewrite outcome_bind_ret.
  destruct (bool_decide (r = VMM_OK)).
  - destruct Hres as (p3 & -> & Hm3 & Hz3). rewrite outcome_bind_ret.
    destruct (IH (fs ++ [f]) (with_pages p3 v2)) as (e & v' & fs' & He & Hsame' & Hres); [rewrite length_app; cbn [length]; lia|done|done| |].
    { destruct Hsame as (_ & _ & _ & Hi2). cbn. congruence. }
    exists e, v', fs'. rewrite length_app in He. cbn [length] in He. replace (Z.of_nat (length fs) + 1) with (Z.of_nat (length fs + 1)) by lia.
    split; [done|]. split; [|done]. unfold same_vmm in *. destruct Hsame as (? & ? & ? & ?), Hsame' as (? & ? & ? & ?). cbn in *. split_and!; congruence.
  - destruct Hres as (v3 & E3 & Hsame3 & Hm3). exists (NotMapped (Z.of_nat (length fs))), v3, fs.
    split; [|by split]. apply outcome_bind_inv in E3 as (rs & E3 & [= <-]). unfold on_frames in E3. by rewrite E3.
Qed.
Lemma release_range_spec `{PcbLayout} fs s : mapped fs 0 (pages (vmm s)) →
  ∃ v', release_range root base (Z.of_nat (length fs)) s = Ret (with_vmm v' s) ∧ same_vmm (vmm s) v' ∧ mapped fs (Z.of_nat (length fs)) (pages v').
Proof using Hb Hu Hend Hcount.
  intros Hm. destruct base_range as (Hb0 & Hb64 & Hc36). unfold release_range, on_vmm.
  destruct (for_range_ind (λ k t, same_vmm (vmm s) t ∧ mapped fs k (pages t)) 0 (Z.of_nat (length fs))
    (λ i, release_page root (base ⊞ (i ⊠ PAGE_SIZE))) (vmm s)) as (t & -> & Hsame & Hm').
  - by split.
  - intros k t Hk [Hst Hmt]. destruct (release_page_spec root base fl count p0 Hb Hb0 Hb64 Hc36 fs k t Hmt) as (p' & -> & Hm'); [lia|].
    eexists. split; [done|]. by split.
  - rewrite Z.max_r in Hm' by lia. exists t. by split.
Qed.
End mapping.

Lemma prot_flags_small prot : small_pages (prot_flags prot).
Proof. unfold prot_flags. by destruct (negb _), (_ =? 0). Qed.
Lemma page_round_spec n : 0 ≤ n → n + 4096 < 2 ^ 64 → page_round n = 4096 * ((n + 4095) / 4096).
Proof.
  intros Hn Hlt. unfold page_round, PAGE_SIZE. rewrite (u64_small (n + 4096)) by lia. rewrite u64_small by lia.
  replace (n + 4096 - 1) with (n + 4095) by lia. change (4096 - 1) with (2 ^ 12 - 1). rewrite lnot_mask_land by (unfold is_u64; lia). done.
Qed.

(** What [user_mmap] may rely on: the address it chooses is page-aligned, the range
    lies in the user half and no huge page or shared table is in the way. *)
Record mmap_ready `{PcbLayout} (s : proc_state) (p : Z) (x : pcb) (a n : Z) : Prop := {
  mr_pcb : p ≠ 0 ∧ pcbs s !! p = Some x;
  mr_vmm : s_initialized (vmm s) = true;
  mr_align : a mod 4096 = 0;
  mr_range : USER_BASE ≤ a ∧ a + 4096 * n ≤ USER_END ∧ 0 ≤ n;
  mr_inv : page_inv (pages (vmm s)) (pml4_phys (mm x));
  mr_walk j : 0 ≤ j < n → private (phys_mem (pages (vmm s))) (pml4_phys (mm x)) (vpage a j) ∧ no_huge (pages (vmm s)) (pml4_phys (mm x)) (vpage a j) }.

Section mmap.
Context `{PcbLayout} (s : proc_state) (p : Z) (x : pcb) (addr length prot : Z).
#[local] Notation a := (mmap_addr (brk (mm x)) addr).
#[local] Notation n := ((length + 4095) / 4096).
#[local] Notation root := (pml4_phys (mm x)).
#[local] Notation fl := (Z.lor (prot_flags prot) VMAP_FLAG_USER).
Context (Hlen : 0 ≤ length ∧ length + 4096 < 2 ^ 64) (Hr : mmap_ready s p x a n).
#[local] Notation p0 := (pages (vmm s)).

Lemma munmap_spec k fs v : mapped_to root a fl n p0 fs 0 (pages v) → (k + 4095) / 4096 = Z.of_nat (List.length fs) → 0 ≤ k → k + 4096 < 2 ^ 64 →
  a < USER_END →
  ∃ v', user_munmap p a k (with_vmm v s) = Ret (0, with_vmm v' s) ∧ mapped_to root a fl n p0 fs (Z.of_nat (List.length fs)) (pages v') ∧ same_vmm v v'.
Proof using Hr.
  intros Hm Hk Hk0 Hk1 Hlt. destruct Hr as [[Hp Hx] Hi Ha (Hu & He & Hn) Hs Hw]. unfold user_munmap. rewrite (proj2 (Z.eqb_neq _ _) Hp).
  change (PAGE_SIZE - 1) with (2 ^ 12 - 1). rewrite mask_land by lia. change (2 ^ 12) with 4096. rewrite Ha. cbn [Z.eqb negb].
  assert (vmm_is_user_addr a = true) as -> by (unfold vmm_is_user_addr; lia). cbn [negb].
  unfold get_pcb. change (pcbs (with_vmm v s)) with (pcbs s). rewrite Hx. cbn [access]. rewrite outcome_bind_ret.
  rewrite page_round_spec by lia. unfold PAGE_SIZE. rewrite Z.mul_comm, Z.div_mul, Hk by lia.
  destruct (release_range_spec root a (prot_flags prot) n p0 Ha Hu He Hn fs (with_vmm v s) Hm) as (v' & -> & Hsame & Hm'). rewrite outcome_bind_ret.
  exists v'. by split.
Qed.
Lemma user_mmap_spec : a < USER_END →
  ∃ v' fs, s_initialized v' = true ∧
          ((user_mmap p addr length prot s = Ret (a, with_vmm v' s) ∧ Z.of_nat (List.length fs) = n ∧
              mapped_to root a fl n p0 fs 0 (pages v') ∧ zero_frames fs (pages v')) ∨
           (user_mmap p addr length prot s = Ret (0, with_vmm v' s) ∧ mapped_to root a fl n p0 fs (Z.of_nat (List.length fs)) (pages v'))).
Proof using Hlen Hr.
  intros Hlt. pose proof Hr as [[Hp Hx] Hi Ha (Hu & He & Hn) Hs Hw]. unfold user_mmap. rewrite (proj2 (Z.eqb_neq _ _) Hp).
  unfold get_pcb. rewrite Hx. cbn [access]. rewrite outcome_bind_ret, (page_round_spec length) by lia. change (4096 * n / PAGE_SIZE) with (4096 * n / 4096). rewrite (Z.mul_comm 4096 n), Z.div_mul by lia.
  destruct (base_range a n Hu He Hn) as (_ & _ & Hn36).
  destruct (map_user_pages_spec root a (prot_flags prot) n p0 (prot_flags_small prot) Ha Hu He Hn (Z.to_nat n) [] (vmm s))
    as (e & v1 & fs & E & Hsame & Hm & Hres); [cbn; lia|by apply mapped_to_nil|by intros f i Hf%not_elem_of_nil|done|].
  cbn [List.length] in E. change (Z.of_nat 0) with 0 in E. rewrite E, outcome_bind_ret.
  assert (∀ i, i = Z.of_nat (List.length fs) → ∃ v', (rs ← user_munmap p a (i ⊠ PAGE_SIZE) (with_vmm v1 s); Ret (0, snd (rs : Z * proc_state))) = Ret (0, with_vmm v' s) ∧
    mapped_to root a fl n p0 fs (Z.of_nat (List.length fs)) (pages v') ∧ s_initialized v' = true) as Hundo.
  { intros i ->. pose proof (mt_k _ _ _ _ _ _ _ _ Hm) as [_ Hk]. unfold PAGE_SIZE. unfold USER_BASE, USER_END in *. rewrite u64_small by lia.
    destruct (munmap_spec (Z.of_nat (List.length fs) * 4096) fs v1 Hm) as (v' & -> & Hm' & Hs'); [|lia|lia|done|].
    { rewrite Z.div_add_l by lia. change (4095 / 4096) with 0. lia. }
    exists v'. rewrite outcome_bind_ret. split; [done|]. split; [done|]. unfold same_vmm in *. destruct Hsame as (_ & _ & _ & ?), Hs' as (_ & _ & _ & ?). congruence. }
  destruct e as [|i|i].
  - exists v1, fs. split; [destruct Hsame as (_ & _ & _ & ?); congruence|]. left. by destruct Hres.
  - destruct (Hundo i (proj1 Hres)) as (v' & -> & Hm' & ?). exists v', fs. split; [done|]. by right.
  - destruct (Hundo i Hres) as (v' & -> & Hm' & ?). exists v', fs. split; [done|]. by right.
Qed.
End mmap.


(** [user_munmap] undoes [user_mmap]: after a mapping that succeeded, unmapping the
    same range succeeds, every address translates as it did before, and only page
    tables are left of the frames that were taken. *)
Theorem user_mmap_munmap_roundtrip `{PcbLayout} s p x addr length prot :
  let a := mmap_addr (brk (mm x)) addr in let n := (length + 4095) / 4096 in
  0 < length → length + 4096 < 2 ^ 64 → mmap_ready s p x a n →
  ∃ r s1, user_mmap p addr length prot s = Ret (r, s1) ∧
    (r ≠ 0 → ∃ v2, user_munmap p r length s1 = Ret (0, with_vmm v2 s) ∧ rolled_back (pml4_phys (mm x)) (pages (vmm s)) (pages v2)).
Proof.
  intros a n Hl0 Hl1 Hr. assert (0 < n) as Hn by (apply Z.div_str_pos; lia). pose proof (mr_range _ _ _ _ _ Hr) as Hrg. subst a n.
  destruct (user_mmap_spec s p x addr length prot ltac:(lia) Hr ltac:(lia)) as (v' & fs & _ & [(E & Hfl & Hm & Hz)|(E & Hm)]).
  - do 2 eexists. split; [exact E|]. intros _. destruct (munmap_spec s p x addr length prot Hr length fs v' Hm) as (v2 & -> & Hm2 & _); [done|lia|lia|lia|].
    exists v2. split; [done|]. by apply (mapped_to_rolled_back _ _ _ _ fs _ _ Hm2).
  - do 2 eexists. split; [exact E|]. done.
Qed.

(** The address a mapping gets when none is asked for does not depend on what is
    mapped: while the first such mapping exists, no other one succeeds. *)
Theorem user_mmap_twice_fails `{PcbLayout} s p x length prot length' prot' r s1 :
  let a := mmap_addr (brk (mm x)) 0 in
  0 < length' ≤ length → length + 4096 < 2 ^ 64 → mmap_ready s p x a ((length + 4095) / 4096) →
  user_mmap p 0 length prot s = Ret (r, s1) → r ≠ 0 → ∃ s2, user_mmap p 0 length' prot' s1 = Ret (0, s2).
Proof.
  intros a Hl Hl1 Hr E Hr0. subst a. assert (0 < (length' + 4095) / 4096 ≤ (length + 4095) / 4096) as Hn.
  { split; [apply Z.div_str_pos; lia|]. apply Z.div_le_mono; lia. }
  pose proof Hr as [Hp _ Ha (Hu & He & _) _ _].
  destruct (user_mmap_spec s p x 0 length prot ltac:(lia) Hr ltac:(lia)) as (v' & fs & Hi & [(E' & Hfl & Hm & _)|(E' & _)]); rewrite E' in E; [|by injection E as <- _].
  injection E as _ <-. assert (mmap_ready (with_vmm v' s) p x (mmap_addr (brk (mm x)) 0) ((length' + 4095) / 4096)) as Hr'.
  { split; [done|done|done|lia|apply Hm|]. intros j Hj. apply (mt_ok _ _ _ _ _ _ _ _ Hm). lia. }
  destruct (user_mmap_spec (with_vmm v' s) p x 0 length' prot' ltac:(lia) Hr' ltac:(lia)) as (v2 & fs2 & _ & [(_ & Hfl2 & Hm2 & _)|(E2 & _)]); [|by eexists].
  exfalso. pose proof (mt_before _ _ _ _ _ _ _ _ Hm2 0 ltac:(lia)) as Hnone. cbn [vmm with_vmm] in Hnone.
  destruct (zlookup_lt_is_Some fs 0) as [f Hf]; [lia|]. rewrite (mt_in _ _ _ _ _ _ _ _ Hm 0 f (vpage (mmap_addr (brk (mm x)) 0) 0) Hf) in Hnone by (lia || done). done.
Qed.

(** ** The break *)
Definition heap_end (x : pcb) : Z := if brk (mm x) =? 0 then USER_BASE + 16 * 1024 * 1024 else brk (mm x).
Definition heap_flags : Z := Z.lor VMAP_FLAG_WRITE VMAP_FLAG_USER.
Definition page_ceil (n : Z) : Z := 4096 * ((n + 4095) / 4096).

Section brk.
Context `{PcbLayout} (s : proc_state) (p : Z) (x : pcb) (new : Z).
#[local] Notation old := (heap_end x).
#[local] Notation nb := (page_ceil new).
#[local] Notation n := ((nb - old) / 4096).
#[local] Notation root := (pml4_phys (mm x)).
#[local] Notation mapped := (mapped_to root old (Z.lor heap_flags VMAP_FLAG_USER) n (pages (vmm s))).
Context (Hnew : 0 < new ∧ new + 4096 < 2 ^ 64) (Hup : 0 ≤ brk (mm x) ∧ old < nb < USER_END - USER_STACK_SIZE) (Hr : mmap_ready s p x old n).
Lemma grow_count : nb = old + 4096 * n ∧ 0 < n.
Proof using Hnew Hup Hr.
  pose proof (mr_align _ _ _ _ _ Hr) as Ha. unfold page_ceil in *. pose proof (Z.div_mod old 4096 ltac:(lia)) as Hd. rewrite Ha in Hd.
  replace (4096 * ((new + 4095) / 4096) - old) with (((new + 4095) / 4096 - old / 4096) * 4096) in * by lia. rewrite Z.div_mul by lia. lia.
Qed.
Lemma user_brk_spec : ∃ r s' fs, user_brk p new s = Ret (r, s') ∧
    ((r = nb ∧ Z.of_nat (length fs) = n ∧ mapped fs 0 (pages (vmm s')) ∧ zero_frames fs (pages (vmm s')) ∧ pcbs s' = <[p := set_brk nb x]> (pcbs s)) ∨
     (r = old ∧ pcbs s' = pcbs s ∧ mapped fs (Z.of_nat (length fs)) (pages (vmm s'))) ∨
     (r = old ∧ pcbs s' = pcbs s ∧ mapped fs 0 (pages (vmm s')) ∧
        ∀ f, 0 ≤ f < total_frames (frames (pages (vmm s'))) → allocated (frames (pages (vmm s'))) f = true)).
Proof using Hnew Hup Hr.
  destruct grow_count as [Hnb Hn]. pose proof Hr as [[Hp Hx] Hi Ha (Hu & He & Hn0) Hs Hw]. unfold user_brk. rewrite (proj2 (Z.eqb_neq _ _) Hp).
  unfold get_pcb. rewrite Hx. cbn [access]. rewrite outcome_bind_ret, (proj2 (Z.eqb_neq new 0)) by lia. rewrite page_round_spec by lia. fold nb.
  assert (brk (mm x) < nb) as Hb by (unfold heap_end in Hup; destruct (Z.eqb_spec (brk (mm x)) 0); unfold USER_BASE in *; lia).
  destruct (Z.ltb_spec nb USER_BASE); [lia|]. destruct (Z.leb_spec (USER_END - USER_STACK_SIZE) nb); [lia|]. cbn [orb].
  destruct (Z.leb_spec nb (brk (mm x))); [lia|]. fold old. rewrite (u64_small (nb - old)) by (unfold USER_BASE, USER_END in *; lia). change PAGE_SIZE with 4096.
  fold heap_flags. destruct (base_range old n Hu He Hn0) as (_ & _ & Hn36).
  destruct (map_user_pages_spec root old heap_flags n (pages (vmm s)) ltac:(by split) Ha Hu He Hn0 (Z.to_nat n) [] (vmm s))
    as (e & v1 & fs & E & Hsame & Hm & Hres); [cbn; lia|by apply mapped_to_nil|by intros f i Hf%not_elem_of_nil|done|].
  cbn [length] in E. change (Z.of_nat 0) with 0 in E. rewrite E, outcome_bind_ret. destruct e as [|i|i].
  - unfold upd_pcb, get_pcb. cbn [pcbs with_vmm]. rewrite Hx. cbn [access]. rewrite !outcome_bind_ret. destruct Hres.
    do 2 eexists. exists fs. split; [reflexivity|]. left. done.
  - destruct Hres as [-> Hall]. do 2 eexists. exists fs. split; [reflexivity|]. right. right. done.
  - subst i. destruct (release_range_spec root old heap_flags n (pages (vmm s)) Ha Hu He Hn0 fs (with_vmm v1 s) Hm) as (v' & -> & _ & Hm'). rewrite outcome_bind_ret.
    do 2 eexists. exists fs. split; [reflexivity|]. right. left. done.
Qed.
End brk.

(** Growing the heap: [user_brk] maps every page between the old and the new break to
    a fresh zeroed frame and moves the break; or the break stays and every
    translation is as before, unless no frame is left. *)
Theorem user_brk_grows `{PcbLayout} s p x new : let n := (page_ceil new - heap_end x) / 4096 in
  0 < new → new + 4096 < 2 ^ 64 → 0 ≤ brk (mm x) → heap_end x < page_ceil new < USER_END - USER_STACK_SIZE → mmap_ready s p x (heap_end x) n →
  ∃ r s', user_brk p new s = Ret (r, s') ∧ page_inv (pages (vmm s')) (pml4_phys (mm x)) ∧
    ((r = page_ceil new ∧ pcbs s' = <[p := set_brk r x]> (pcbs s) ∧
        mapped_fresh (pml4_phys (mm x)) (heap_end x) (Z.lor heap_flags VMAP_FLAG_USER) n (pages (vmm s)) (pages (vmm s'))) ∨
     (r = heap_end x ∧ pcbs s' = pcbs s ∧
        (rolled_back (pml4_phys (mm x)) (pages (vmm s)) (pages (vmm s')) ∨
         ∀ f, 0 ≤ f < total_frames (frames (pages (vmm s'))) → allocated (frames (pages (vmm s'))) f = true))).
Proof.
  intros n H0 H1' Hb Hup Hr. destruct (user_brk_spec s p x new ltac:(lia) ltac:(lia) Hr) as (r & s' & fs & E & [(-> & Hl & Hm & Hz & Hp)|[(-> & Hp & Hm)|(-> & Hp & Hm & Hall)]]);
    do 2 eexists; (split; [exact E|]); (split; [apply Hm|]).
  - left. split; [done|]. split; [done|]. by apply (mapped_to_fresh _ _ _ _ fs).
  - right. split; [done|]. split; [done|]. left. by apply (mapped_to_rolled_back _ _ _ _ fs _ _ Hm).
  - right. split; [done|]. split; [done|]. by right.
Qed.

(** Lowering the break unmaps nothing, and growing the heap refuses pages that are
    mapped: a process that gives heap memory back cannot get it again. *)
Theorem user_brk_cannot_regrow `{PcbLayout} s p x lower upper :
  let x' := set_brk lower x in
  pcbs s !! p = Some x → p ≠ 0 → lower mod 4096 = 0 → USER_BASE ≤ lower < brk (mm x) → lower < upper → upper mod 4096 = 0 →
  upper < USER_END - USER_STACK_SIZE → is_Some (mmu (pages (vmm s)) (pml4_phys (mm x)) lower) →
  mmap_ready (with_pcbs (<[p := x']> (pcbs s)) s) p x' lower ((upper - lower) / 4096) →
  ∃ s1, user_brk p lower s = Ret (lower, s1) ∧ vmm s1 = vmm s ∧ ∃ s2, user_brk p upper s1 = Ret (lower, s2).
Proof.
  intros x' Hx Hp Hlo Hr1 Hr2 Hup Hr3 [t Ht] Hr. assert (∀ y, y mod 4096 = 0 → page_ceil y = y) as Hceil.
  { intros y Hy. unfold page_ceil. pose proof (Z.div_mod y 4096 ltac:(lia)). replace (y + 4095) with (y / 4096 * 4096 + 4095) by lia.
    rewrite Z.div_add_l by lia. change (4095 / 4096) with 0. lia. }
  unfold USER_BASE, USER_END, USER_STACK_SIZE in *. exists (with_pcbs (<[p := x']> (pcbs s)) s). split; [|split; [done|]].
  - unfold user_brk. rewrite (proj2 (Z.eqb_neq _ _) Hp). unfold get_pcb. rewrite Hx. cbn [access]. rewrite outcome_bind_ret, (proj2 (Z.eqb_neq lower 0)) by lia.
    rewrite page_round_spec by lia. fold (page_ceil lower). rewrite Hceil by done. unfold USER_BASE, USER_END, USER_STACK_SIZE.
    destruct (Z.ltb_spec lower 0x400000); [lia|]. destruct (Z.leb_spec (0x00007FFFFFFFFFFF - 1 * 1024 * 1024) lower); [lia|]. cbn [orb].
    destruct (Z.leb_spec lower (brk (mm x))); [|lia]. unfold upd_pcb, get_pcb. by rewrite Hx.
  - assert (heap_end x' = lower) as Hend by (unfold heap_end; cbn; by rewrite (proj2 (Z.eqb_neq lower 0)) by lia).
    destruct (user_brk_spec (with_pcbs (<[p := x']> (pcbs s)) s) p x' upper) as (r & s' & fs & E & Hres);
      [lia| rewrite Hend, Hceil by done; cbn; unfold USER_END, USER_STACK_SIZE; lia | by rewrite Hend, Hceil |]. rewrite Hend in Hres.
    destruct Hres as [(_ & Hl & Hm & _)|[(-> & _)|(-> & _)]]; [|by eexists|by eexists].
    exfalso. rewrite Hceil in Hl, Hm by done. assert (0 < (upper - lower) / 4096).
    { apply Z.div_str_pos. pose proof (Z.div_mod upper 4096 ltac:(lia)). pose proof (Z.div_mod lower 4096 ltac:(lia)). lia. }
    pose proof (mt_before _ _ _ _ _ _ _ _ Hm 0 ltac:(lia)) as Hnone. unfold vpage in Hnone. rewrite Z.mul_0_r, Z.add_0_r in Hnone.
    change (mmu (pages (vmm s)) (pml4_phys (mm x)) lower = None) in Hnone. congruence.
Qed.

(** ** Examples *)
Section demo.
#[local] Existing Instance demo_pcb_layout.
(** An address space whose second gigabyte is a user page for the first gigabyte of
    physical memory. *)
Definition demo_huge_mem : gmap Z Z := <[4096 := 0x2007]> (<[8200 := 0x87]> (zero_mem 8192)).
Definition demo_huge : page_state := mk_page demo_huge_mem (mk_pframe (mk_bitmap [7; 0] 16) 16 0 65536 0 true) 4096 true true ∅.
#[local] Opaque zero_mem.
Lemma demo_huge_word i : 0 ≤ i < 8192 → demo_huge_mem !! (8 * i) = Some (if i =? 512 then 0x2007 else if i =? 1025 then 0x87 else 0).
Proof.
  intros Hi. unfold demo_huge_mem. destruct (Z.eqb_spec i 512) as [->|]; [by rewrite lookup_insert_eq|]. rewrite lookup_insert_ne by lia.
  destruct (Z.eqb_spec i 1025) as [->|]; [by rewrite lookup_insert_eq|]. rewrite lookup_insert_ne by lia. by apply zero_mem_lookup.
Qed.
#[local] Opaque demo_huge_mem.
Lemma demo_huge_walk v : (idx 3 v ≠ 0 ∧ mmu demo_huge 4096 v = None ∧ tabs 3 demo_huge_mem 4096 v = [4096]) ∨
  (idx 3 v = 0 ∧ mmu demo_huge 4096 v = (if idx 2 v =? 1 then Some (v mod 2 ^ 30, 0x87) else None) ∧ tabs 3 demo_huge_mem 4096 v = [4096; 8192]).
Proof.
  pose proof (idx_range 3 v). pose proof (idx_range 2 v). assert (demo_huge_mem !! (4096 + 8 * idx 3 v) = Some (if idx 3 v =? 0 then 0x2007 else 0)) as H3.
  { replace (4096 + 8 * idx 3 v) with (8 * (512 + idx 3 v)) by lia. rewrite demo_huge_word by lia.
    destruct (Z.eqb_spec (512 + idx 3 v) 512), (Z.eqb_spec (idx 3 v) 0), (Z.eqb_spec (512 + idx 3 v) 1025); done || lia. }
  unfold mmu. cbn [phys_mem demo_huge]. destruct (Z.eqb_spec (idx 3 v) 0) as [E|E].
  - right. split; [exact E|]. destruct (walk_table 2 _ 4096 v 0x2007 H3 eq_refl eq_refl) as [-> ->].
    assert (demo_huge_mem !! (frame_addr 0x2007 + 8 * idx 2 v) = Some (if idx 2 v =? 1 then 0x87 else 0)) as H2.
    { change (frame_addr 0x2007) with 8192. replace (8192 + 8 * idx 2 v) with (8 * (1024 + idx 2 v)) by lia. rewrite demo_huge_word by lia.
      destruct (Z.eqb_spec (1024 + idx 2 v) 512), (Z.eqb_spec (idx 2 v) 1), (Z.eqb_spec (1024 + idx 2 v) 1025); (reflexivity || (exfalso; lia)). }
    destruct (walk_end 2 _ _ v _ H2) as [-> ->]; [clear; by destruct (_ =? 1)|]. clear. by destruct (_ =? 1).
  - left. split; [exact E|]. destruct (walk_absent 3 _ 4096 v 0 H3 eq_refl) as [-> ->]. clear. by split.
Qed.
Lemma demo_huge_tab v k t : tabs 3 demo_huge_mem 4096 v !! k = Some t → (k = 0%nat ∧ t = 4096) ∨ (k = 1%nat ∧ t = 8192).
Proof. destruct (demo_huge_walk v) as [(_ & _ & ->)|(_ & _ & ->)]; destruct k as [|[|k]]; cbn; intros [= <-]; auto. Qed.
Lemma demo_huge_inv : page_inv demo_huge 4096.
Proof.
  split.
  - apply inv_b_sound. vm_compute. reflexivity.
  - reflexivity.
  - vm_compute. reflexivity.
  - intros w Hw Hw8. change (total_frames (frames demo_huge)) with 16 in Hw. cbn [phys_mem demo_huge]. pose proof (Z.div_mod w 8).
    replace w with (8 * (w / 8)) by lia. eexists. apply demo_huge_word. lia.
  - intros v k t [[_ ->]|[_ ->]]%demo_huge_tab; [exists 1|exists 2]; split_and!; vm_compute; done.
  - intros v k t e [Ht He] _ Hp. cbn [phys_mem demo_huge] in *. pose proof (idx_range (3 - k) v).
    assert (∃ i, 0 ≤ i < 8192 ∧ t + 8 * idx (3 - k) v = 8 * i) as (i & Hi & Hi8).
    { apply demo_huge_tab in Ht as [[_ ->]|[_ ->]]; [exists (512 + idx (3 - k) v)|exists (1024 + idx (3 - k) v)]; lia. }
    rewrite Hi8, demo_huge_word in He by done. by destruct (i =? 512), (i =? 1025); injection He as <-.
  - done.
Qed.
Lemma demo_huge_mmu i : 0 ≤ i < 4 → mmu demo_huge 4096 (0x40005000 + i) = Some (0x5000 + i, 0x87).
Proof.
  intros Hi. assert (i = 0 ∨ i = 1 ∨ i = 2 ∨ i = 3) as Hc by lia.
  destruct (demo_huge_walk (0x40005000 + i)) as [(Hn & _)|(_ & -> & _)]; [exfalso|]; destruct Hc as [->|[->|[->| ->]]]; done.
Qed.
Lemma user_copy_witness : ∃ p', user_copy_to_user 4096 0x40005000 [67; 67; 79; 83] 4 demo_huge = Ret (4, p') ∧
  user_copy_from_user 4096 [0; 0; 0; 0] 0x40005000 4 p' = Ret (4, [67; 67; 79; 83]).
Proof.
  destruct (user_copy_roundtrip 4096 0x40005000 [67; 67; 79; 83] [0; 0; 0; 0] demo_huge demo_huge_inv) as (p' & Ht & Hf & _).
  - split.
    + intros i Hi. change (Z.of_nat (length [67; 67; 79; 83])) with 4 in Hi. exists (0x5000 + i), 0x87. split; [exact (demo_huge_mmu i Hi)|].
      split; [change (total_frames (frames demo_huge)) with 16; lia|]. replace ((0x5000 + i) / 4096) with 5 by (apply (Z.div_unique_pos _ _ _ i); lia).
      intros (u & j & Hj). by apply demo_huge_tab in Hj as [[_ ?]|[_ ?]].
    + intros i j pa e e' Hi Hj. rewrite !demo_huge_mmu by done. intros [= <- <-] [= Heq _]. lia.
  - repeat constructor; lia.
  - vm_compute. done.
  - vm_compute. done.
  - done.
  - exists p'. split; [exact Ht|exact Hf].
Defined.
Lemma demo_mmap_ready : mmap_ready (demo_proc []) 10000 (demo_pcb 3) (mmap_addr (brk (mm (demo_pcb 3))) 0) ((8192 + 4095) / 4096).
Proof. split; [by split|done|done|vm_compute; done|exact demo_page_inv|]. intros j _. apply demo_walk. Qed.
Lemma user_mmap_munmap_witness : ∃ r s1, user_mmap 10000 0 8192 3 (demo_proc []) = Ret (r, s1) ∧
  (r ≠ 0 → ∃ v2, user_munmap 10000 r 8192 s1 = Ret (0, with_vmm v2 (demo_proc []))).
Proof.
  destruct (user_mmap_munmap_roundtrip (demo_proc []) 10000 (demo_pcb 3) 0 8192 3 ltac:(lia) ltac:(lia) demo_mmap_ready) as (r & s1 & E & Hr).
  exists r, s1. split; [exact E|]. intros Hne. destruct (Hr Hne) as (v2 & E2 & _). by exists v2.
Defined.
End demo.
