(* ===== verification/Block.v ===== *)
(** * Block devices: [kernel/fs/block/block.c]

    Device structures are named by their address; the registry holds at most four
    of them. The disk driver below is the interface [AtaDriver], whose state (the
    disks) is a parameter. The kernel heap is the set of blocks in use and the list
    of the next answers of [kmalloc]; freeing a structure removes its record, so
    that a later use of it faults. *)
From S2P Require Import Prelude Bits Mem E820.

Module Block.

(** ** The kernel heap as its clients see it *)
Record kheap := mk_kheap { live : gset Z; answers : list Z }.
(** The heap hands out no block that is in use: an answer that is counts as a refusal. *)
Definition kmalloc (h : kheap) : Z * kheap :=
  let a := default 0 (head (answers h)) in
  if (a =? 0) || bool_decide (a ∈ live h) then (0, mk_kheap (live h) (tail (answers h)))
  else (a, mk_kheap ({[ a ]} ∪ live h) (tail (answers h))).
Definition kfree (a : Z) (h : kheap) : kheap := mk_kheap (live h ∖ {[ a ]}) (answers h).
Lemma heap_answer_spec h : ∃ a k, kmalloc h = (a, mk_kheap (if a =? 0 then live h else {[ a ]} ∪ live h) k) ∧ (a ≠ 0 → a ∉ live h).
Proof.
  unfold kmalloc. set (a := default 0 (head (answers h))). destruct (Z.eqb_spec a 0) as [_|Ha]; cbn [orb]; [by exists 0, (tail (answers h))|].
  destruct (decide (a ∈ live h)) as [Hin|Hin]; [rewrite bool_decide_true by done; by exists 0, (tail (answers h))|].
  rewrite bool_decide_false by done. exists a, (tail (answers h)). destruct (Z.eqb_spec a 0); [done|]. done.
Qed.

(** ** Constants *)
Definition BLOCK_OK := 0.
Definition BLOCK_ERR_INVAL := -1.
Definition BLOCK_ERR_IO := -2.
Definition BLOCK_ERR_NODEV := -3.
Definition BLOCK_ERR_BUSY := -5.

(** ** The disk driver *)
Record ata_device_info := mk_info { lba_sectors : Z; heads : Z; cylinders : Z; sectors_per_track : Z }.
(** [None] is an error code of the driver. *)
Class AtaDriver (M : Type) := {
  ata_init : M → Z * M;
  ata_device_exists : Z → M → bool;
  ata_get_info : Z → M → option ata_device_info;
  ata_read : Z → Z → Z → M → option (list Z) * M;
  ata_write : Z → Z → list Z → Z → M → bool * M }.

(** ** Data *)
Record block_geometry := mk_geo {
  g_nsectors : Z; g_sector_size : Z; g_heads : Z; g_cylinders : Z; g_sectors_per_track : Z }.
Record ata_block_dev := mk_ata { ata_device : Z; ata_initialized : bool }.
(** [has_ops]: the operations are those of ATA devices or none. *)
Record block_device := mk_dev {
  dev_id : Z; dev_name : list Z; dev_size : Z; dev_block_size : Z; nblocks : Z;
  processing : bool; ref_count : Z; has_ops : bool; private_data : Z }.
Record block_state (M : Type) := mk_block {
  devs : gmap Z block_device; atas : gmap Z ata_block_dev; devices : list Z; count : Z; bheap : kheap; medium : M }.
Arguments mk_block {M}. Arguments devs {M}. Arguments atas {M}. Arguments devices {M}. Arguments count {M}.
Arguments bheap {M}. Arguments medium {M}.

Section block.
Context {M : Type} `{AtaDriver M}.
Implicit Types (b : block_state M) (d : Z).

Definition with_devs (x : gmap Z block_device) b : block_state M := mk_block x (atas b) (devices b) (count b) (bheap b) (medium b).
Definition with_atas (x : gmap Z ata_block_dev) b : block_state M := mk_block (devs b) x (devices b) (count b) (bheap b) (medium b).
Definition with_registry (x : list Z) (n : Z) b : block_state M := mk_block (devs b) (atas b) x n (bheap b) (medium b).
Definition with_bheap (x : kheap) b : block_state M := mk_block (devs b) (atas b) (devices b) (count b) x (medium b).
Definition with_medium (x : M) b : block_state M := mk_block (devs b) (atas b) (devices b) (count b) (bheap b) x.
Definition get_dev d b : outcome block_device := access (devs b !! d).
Definition upd_dev d (f : block_device → block_device) b : outcome (block_state M) :=
  x ← get_dev d b; Ret (with_devs (<[d := f x]> (devs b)) b).
Definition set_ref (r : Z) (x : block_device) : block_device :=
  mk_dev (dev_id x) (dev_name x) (dev_size x) (dev_block_size x) (nblocks x) (processing x) r (has_ops x) (private_data x).
Definition set_private (p : Z) (x : block_device) : block_device :=
  mk_dev (dev_id x) (dev_name x) (dev_size x) (dev_block_size x) (nblocks x) (processing x) (ref_count x) (has_ops x) p.
Definition set_idle (x : block_device) : block_device :=
  mk_dev (dev_id x) (dev_name x) (dev_size x) (dev_block_size x) (nblocks x) false (ref_count x) (has_ops x) (private_data x).

(** ** ATA operations

    A successful read gives the bytes that were put into the buffer. *)
Definition ata_block_read d (block n : Z) b : outcome (Z * list Z * block_state M) :=
  x ← get_dev d b;
  if private_data x =? 0 then Ret (BLOCK_ERR_INVAL, [], b) else
  a ← access (atas b !! private_data x);
  let '(r, m) := ata_read (ata_device a) block (u16 n) (medium b) in
  match r with
  | Some bytes => Ret (s32 n, bytes, with_medium m b)
  | None => Ret (BLOCK_ERR_IO, [], with_medium m b)
  end.
Definition ata_block_write d (block : Z) (buffer : list Z) (n : Z) b : outcome (Z * block_state M) :=
  x ← get_dev d b;
  if private_data x =? 0 then Ret (BLOCK_ERR_INVAL, b) else
  a ← access (atas b !! private_data x);
  let '(r, m) := ata_write (ata_device a) block buffer (u16 n) (medium b) in
  Ret (if r : bool then s32 n else BLOCK_ERR_IO, with_medium m b).
Definition ata_block_get_geometry d b : outcome (Z * option block_geometry) :=
  if d =? 0 then Ret (BLOCK_ERR_INVAL, None) else
  x ← get_dev d b;
  a ← access (atas b !! private_data x);
  Ret (match ata_get_info (ata_device a) (medium b) with
       | None => (BLOCK_ERR_IO, None)
       | Some i => (BLOCK_OK, Some (mk_geo (lba_sectors i) 512 (heads i) (cylinders i) (sectors_per_track i)))
       end).

(** ** Registry *)
Definition valid_id (i : Z) : bool := (0 <=? i) && (i <? 4).
Definition block_device_register d b : outcome (Z * block_state M) :=
  if d =? 0 then Ret (BLOCK_ERR_INVAL, b) else
  x ← get_dev d b;
  if negb (valid_id (dev_id x)) then Ret (BLOCK_ERR_INVAL, b) else
  old ← access (zlookup (devices b) (dev_id x));
  if negb (old =? 0) then Ret (BLOCK_ERR_BUSY, b) else
  b ← upd_dev d (λ x, set_ref 1 (set_idle x)) b;
  Ret (BLOCK_OK, with_registry (zinsert (devices b) (dev_id x) d) (u32 (count b + 1)) b).
Definition block_device_unregister d b : outcome (block_state M) :=
  if d =? 0 then Ret b else
  x ← get_dev d b;
  let b := if valid_id (dev_id x) then with_registry (zinsert (devices b) (dev_id x) 0) (u32 (count b - 1)) b else b in
  if private_data x =? 0 then Ret b else
  let b := with_bheap (kfree (private_data x) (bheap b)) (with_atas (delete (private_data x) (atas b)) b) in
  upd_dev d (set_private 0) b.
(** The address of the device, 0 for NULL. *)
Definition block_device_get (i : Z) b : outcome (Z * block_state M) :=
  if negb (valid_id i) then Ret (0, b) else
  d ← access (zlookup (devices b) i);
  if d =? 0 then Ret (0, b) else
  b ← upd_dev d (λ x, set_ref (u32 (ref_count x + 1)) x) b; Ret (d, b).
Definition block_device_put d b : outcome (block_state M) :=
  if d =? 0 then Ret b else
  x ← get_dev d b;
  if 0 <? ref_count x then upd_dev d (set_ref (ref_count x - 1)) b else Ret b.
Definition block_device_exists (i : Z) b : outcome bool :=
  if negb (valid_id i) then Ret false else
  d ← access (zlookup (devices b) i); Ret (negb (d =? 0)).

(** ** Input and output *)
Definition block_read_sync d (block n : Z) b : outcome (Z * list Z * block_state M) :=
  if d =? 0 then Ret (BLOCK_ERR_INVAL, [], b) else
  x ← get_dev d b;
  if negb (has_ops x) then Ret (BLOCK_ERR_NODEV, [], b) else ata_block_read d block n b.
Definition block_write_sync d (block : Z) (buffer : list Z) (n : Z) b : outcome (Z * block_state M) :=
  if d =? 0 then Ret (BLOCK_ERR_INVAL, b) else
  x ← get_dev d b;
  if negb (has_ops x) then Ret (BLOCK_ERR_NODEV, b) else ata_block_write d block buffer n b.

(** ** Creation *)
(** "hda" to "hdd" *)
Definition disk_name (i : Z) : list Z := [104; 100; 97 + i].
Definition ata_create_block_device (i : Z) b : outcome (Z * block_state M) :=
  if negb (valid_id i) then Ret (0, b) else
  if negb (ata_device_exists i (medium b)) then Ret (0, b) else
  let '(d, h) := kmalloc (bheap b) in
  let b := with_bheap h b in
  if d =? 0 then Ret (0, b) else
  let '(p, h) := kmalloc (bheap b) in
  let b := with_bheap h b in
  if p =? 0 then Ret (0, with_bheap (kfree d (bheap b)) b) else
  let b := with_atas (<[p := mk_ata i true]> (atas b)) b in
  match ata_get_info i (medium b) with
  | None =>
      Ret (0, with_bheap (kfree d (kfree p (bheap b))) (with_atas (delete p (atas b)) b))
  | Some info =>
      Ret (d, with_devs (<[d := mk_dev i (disk_name i) (lba_sectors info ⊠ 512) 512 (lba_sectors info) false 0 true p]> (devs b)) b)
  end.
Definition ata_probe (i : Z) (cb : Z * block_state M) : outcome (Z * block_state M) :=
  let '(n, b) := cb in
  if negb (ata_device_exists i (medium b)) then Ret (n, b) else
  r ← ata_create_block_device i b;
  let '(d, b) := r : Z * block_state M in
  if d =? 0 then Ret (n, b) else
  r ← block_device_register d b;
  let '(result, b) := r : Z * block_state M in
  if result =? BLOCK_OK then Ret (n + 1, b) else
  x ← get_dev d b;
  Ret (n, with_bheap (kfree d (kfree (private_data x) (bheap b)))
            (with_devs (delete d (devs b)) (with_atas (delete (private_data x) (atas b)) b))).
Definition ata_block_init b : outcome (Z * block_state M) :=
  let '(result, m) := ata_init (medium b) in
  let b := with_medium m b in
  if negb (result =? 0) then Ret (0, b) else for_range 0 4 ata_probe (0, b).
Definition block_init b : outcome (Z * block_state M) :=
  let b := with_registry [0; 0; 0; 0] 0 b in
  r ← ata_block_init b;
  Ret (if 0 <? fst (r : Z * block_state M) then BLOCK_OK else BLOCK_ERR_NODEV, snd r).
End block.
End Block.
