(* ===== verification/Vfs.v ===== *)
(** * Virtual file system: [kernel/fs/vfs]

    Inodes, files, superblocks and mounts are named by their address. The rings that
    link them are the sequences [DList] shows them to implement: a hash chain or a
    global list is the list of its elements, [list_add] puts one in front,
    [list_add_tail] at the end, [list_del] takes it out of the list it is on.
    Freeing a structure removes its record, so that a later use of it faults. What a
    file system provides - the tables of function pointers - are the classes
    [SuperOps], [InodeOps] and [FileOps]; [P] is its private state. Directory entries
    are not tracked by this code: every dentry pointer of a path walk is NULL. *)
From S2P Require Import Prelude Bits Mem E820 Block.
Import Block.

Module Vfs.

(** ** Constants *)
Definition V_S_IFMT := 0xF000.
Definition O_WRONLY := 1.
Definition O_RDWR := 2.
Definition O_CREAT := 0x40.
Definition O_EXCL := 0x80.
Definition O_TRUNC := 0x200.
Definition FMODE_READ := 1.
Definition FMODE_WRITE := 2.
Definition I_DIRTY := 1.
Definition I_FREEING := 2.
Definition INODE_HASH_SIZE := 256.
Definition SLASH := 47.

(** ** Data *)
Inductive vtype := V_UNKNOWN | V_FIFO | V_CHR | V_DIR | V_BLK | V_REG | V_LNK | V_SOCK.
(** The tables an inode can point to. *)
Inductive inode_operations := no_inode_ops | dir_inode_ops.
Inductive file_operations := no_file_ops | file_ops | dir_ops.
#[export] Instance vtype_eq_dec : EqDecision vtype.
Proof. solve_decision. Defined.
#[export] Instance inode_operations_eq_dec : EqDecision inode_operations.
Proof. solve_decision. Defined.
#[export] Instance file_operations_eq_dec : EqDecision file_operations.
Proof. solve_decision. Defined.

Record vfs_inode := mk_inode {
  i_sb : Z; i_ino : Z; i_nlink : Z; i_mode : Z; i_size : Z; i_blocks : Z; i_count : Z; i_state : Z;
  i_op : inode_operations; i_fop : file_operations; i_private : Z }.
Record vfs_file := mk_file { f_inode : Z; f_pos : Z; f_flags : Z; f_mode : Z; f_count : Z; f_op : file_operations }.
(** [s_op]: whether the table of operations is set. *)
Record vfs_superblock := mk_super {
  s_dev : Z; s_blocksize : Z; s_magic : Z; s_fsname : list Z; s_root : Z;
  s_blocks : Z; s_bfree : Z; s_files : Z; s_ffree : Z; s_fs_info : Z; s_op : bool; s_count : Z }.
Record vfs_mount_t := mk_mount { m_sb : Z; m_path : list Z }.
Record statfs := mk_statfs { f_type : Z; f_bsize : Z; f_blocks : Z; f_bfree : Z; f_files : Z; f_ffree : Z; f_namelen : Z }.
Record vfs_state (P : Type) := mk_vfs {
  inodes : gmap Z vfs_inode; hash_table : list (list Z); all_inodes : list Z; inode_count : Z;
  files : gmap Z vfs_file; all_files : list Z; file_count : Z;
  supers : gmap Z vfs_superblock; superblocks : list Z; root_sb : Z; sb_count : Z;
  mount_recs : gmap Z vfs_mount_t; mounts : list Z; mount_count : Z;
  vheap : kheap; priv : P }.
Arguments mk_vfs {P}. Arguments inodes {P}. Arguments hash_table {P}. Arguments all_inodes {P}. Arguments inode_count {P}.
Arguments files {P}. Arguments all_files {P}. Arguments file_count {P}. Arguments supers {P}. Arguments superblocks {P}.
Arguments root_sb {P}. Arguments sb_count {P}. Arguments mount_recs {P}. Arguments mounts {P}. Arguments mount_count {P}.
Arguments vheap {P}. Arguments priv {P}.

(** ** File types *)
Definition vfs_mode_to_type (mode : Z) : vtype :=
  let t := Z.land mode V_S_IFMT in
  if t =? 0x1000 then V_FIFO else if t =? 0x2000 then V_CHR else if t =? 0x4000 then V_DIR else
  if t =? 0x6000 then V_BLK else if t =? 0x8000 then V_REG else if t =? 0xA000 then V_LNK else
  if t =? 0xC000 then V_SOCK else V_UNKNOWN.
Definition vfs_is_dir (x : vfs_inode) : bool := bool_decide (vfs_mode_to_type (i_mode x) = V_DIR).
Definition vfs_is_reg (x : vfs_inode) : bool := bool_decide (vfs_mode_to_type (i_mode x) = V_REG).
Definition vfs_is_symlink (x : vfs_inode) : bool := bool_decide (vfs_mode_to_type (i_mode x) = V_LNK).

Section state.
Context {P : Type}.
Implicit Types (s : vfs_state P).

(** ** Field access *)
Definition with_inodes (x : gmap Z vfs_inode) s : vfs_state P :=
  mk_vfs x (hash_table s) (all_inodes s) (inode_count s) (files s) (all_files s) (file_count s) (supers s) (superblocks s)
    (root_sb s) (sb_count s) (mount_recs s) (mounts s) (mount_count s) (vheap s) (priv s).
Definition with_hash (x : list (list Z)) s : vfs_state P :=
  mk_vfs (inodes s) x (all_inodes s) (inode_count s) (files s) (all_files s) (file_count s) (supers s) (superblocks s)
    (root_sb s) (sb_count s) (mount_recs s) (mounts s) (mount_count s) (vheap s) (priv s).
Definition with_all_inodes (x : list Z) (n : Z) s : vfs_state P :=
  mk_vfs (inodes s) (hash_table s) x n (files s) (all_files s) (file_count s) (supers s) (superblocks s)
    (root_sb s) (sb_count s) (mount_recs s) (mounts s) (mount_count s) (vheap s) (priv s).
Definition with_files (x : gmap Z vfs_file) s : vfs_state P :=
  mk_vfs (inodes s) (hash_table s) (all_inodes s) (inode_count s) x (all_files s) (file_count s) (supers s) (superblocks s)
    (root_sb s) (sb_count s) (mount_recs s) (mounts s) (mount_count s) (vheap s) (priv s).
Definition with_all_files (x : list Z) (n : Z) s : vfs_state P :=
  mk_vfs (inodes s) (hash_table s) (all_inodes s) (inode_count s) (files s) x n (supers s) (superblocks s)
    (root_sb s) (sb_count s) (mount_recs s) (mounts s) (mount_count s) (vheap s) (priv s).
Definition with_supers (x : gmap Z vfs_superblock) s : vfs_state P :=
  mk_vfs (inodes s) (hash_table s) (all_inodes s) (inode_count s) (files s) (all_files s) (file_count s) x (superblocks s)
    (root_sb s) (sb_count s) (mount_recs s) (mounts s) (mount_count s) (vheap s) (priv s).
Definition with_superblocks (x : list Z) (r n : Z) s : vfs_state P :=
  mk_vfs (inodes s) (hash_table s) (all_inodes s) (inode_count s) (files s) (all_files s) (file_count s) (supers s) x
    r n (mount_recs s) (mounts s) (mount_count s) (vheap s) (priv s).
Definition with_mounts (x : gmap Z vfs_mount_t) (l : list Z) (n : Z) s : vfs_state P :=
  mk_vfs (inodes s) (hash_table s) (all_inodes s) (inode_count s) (files s) (all_files s) (file_count s) (supers s) (superblocks s)
    (root_sb s) (sb_count s) x l n (vheap s) (priv s).
Definition with_vheap (x : kheap) s : vfs_state P :=
  mk_vfs (inodes s) (hash_table s) (all_inodes s) (inode_count s) (files s) (all_files s) (file_count s) (supers s) (superblocks s)
    (root_sb s) (sb_count s) (mount_recs s) (mounts s) (mount_count s) x (priv s).
Definition with_priv (x : P) s : vfs_state P :=
  mk_vfs (inodes s) (hash_table s) (all_inodes s) (inode_count s) (files s) (all_files s) (file_count s) (supers s) (superblocks s)
    (root_sb s) (sb_count s) (mount_recs s) (mounts s) (mount_count s) (vheap s) x.

Definition get_inode (p : Z) s : outcome vfs_inode := access (inodes s !! p).
Definition upd_inode (p : Z) (f : vfs_inode → vfs_inode) s : outcome (vfs_state P) :=
  x ← get_inode p s; Ret (with_inodes (<[p := f x]> (inodes s)) s).
Definition get_file (p : Z) s : outcome vfs_file := access (files s !! p).
Definition upd_file (p : Z) (f : vfs_file → vfs_file) s : outcome (vfs_state P) :=
  x ← get_file p s; Ret (with_files (<[p := f x]> (files s)) s).
Definition get_super (p : Z) s : outcome vfs_superblock := access (supers s !! p).
Definition upd_super (p : Z) (f : vfs_superblock → vfs_superblock) s : outcome (vfs_state P) :=
  x ← get_super p s; Ret (with_supers (<[p := f x]> (supers s)) s).
Definition vmalloc s : Z * vfs_state P := let '(a, h) := kmalloc (vheap s) in (a, with_vheap h s).
Definition vfree (a : Z) s : vfs_state P := with_vheap (kfree a (vheap s)) s.

Definition set_icount (n : Z) (x : vfs_inode) : vfs_inode :=
  mk_inode (i_sb x) (i_ino x) (i_nlink x) (i_mode x) (i_size x) (i_blocks x) n (i_state x) (i_op x) (i_fop x) (i_private x).
Definition set_ino (n : Z) (x : vfs_inode) : vfs_inode :=
  mk_inode (i_sb x) n (i_nlink x) (i_mode x) (i_size x) (i_blocks x) (i_count x) (i_state x) (i_op x) (i_fop x) (i_private x).
Definition set_istate (n : Z) (x : vfs_inode) : vfs_inode :=
  mk_inode (i_sb x) (i_ino x) (i_nlink x) (i_mode x) (i_size x) (i_blocks x) (i_count x) n (i_op x) (i_fop x) (i_private x).
Definition set_iprivate (n : Z) (x : vfs_inode) : vfs_inode :=
  mk_inode (i_sb x) (i_ino x) (i_nlink x) (i_mode x) (i_size x) (i_blocks x) (i_count x) (i_state x) (i_op x) (i_fop x) n.
Definition incr_count (x : vfs_inode) : vfs_inode := set_icount (u32 (i_count x + 1)) x.
Definition set_fcount (n : Z) (x : vfs_file) : vfs_file := mk_file (f_inode x) (f_pos x) (f_flags x) (f_mode x) n (f_op x).
Definition set_fpos (n : Z) (x : vfs_file) : vfs_file := mk_file (f_inode x) n (f_flags x) (f_mode x) (f_count x) (f_op x).

(** ** The inode hash table *)
Definition inode_hash (ino sb : Z) : Z := Z.land (u32 (Z.lxor ino (Z.shiftr sb 3))) (INODE_HASH_SIZE - 1).
Definition inode_hash_insert (p : Z) s : outcome (vfs_state P) :=
  x ← get_inode p s;
  let h := inode_hash (i_ino x) (i_sb x) in
  l ← access (zlookup (hash_table s) h);
  Ret (with_hash (zinsert (hash_table s) h (p :: l)) s).
(** [list_del] of a node that is on one chain at most *)
Definition unlink (p : Z) (l : list Z) : list Z := filter (λ q, q ≠ p) l.
Definition inode_hash_remove (p : Z) s : vfs_state P := with_hash (unlink p <$> hash_table s) s.

Definition vfs_alloc_inode (sb : Z) s : Z * vfs_state P :=
  if sb =? 0 then (0, s) else
  let '(p, s) := vmalloc s in
  if p =? 0 then (0, s) else
  let s := with_inodes (<[p := mk_inode sb 0 1 0 0 0 1 0 no_inode_ops no_file_ops 0]> (inodes s)) s in
  (p, with_all_inodes (p :: all_inodes s) (u32 (inode_count s + 1)) s).
Definition vfs_clear_inode (p : Z) s : outcome (vfs_state P) :=
  if p =? 0 then Ret s else upd_inode p (λ x, set_istate (Z.lor (i_state x) I_FREEING) x) s.
Definition vfs_mark_inode_dirty (p : Z) s : outcome (vfs_state P) :=
  if p =? 0 then Ret s else upd_inode p (λ x, set_istate (Z.lor (i_state x) I_DIRTY) x) s.
Definition vfs_inode_cache_init s : vfs_state P :=
  with_all_inodes [] 0 (with_hash (replicate (Z.to_nat INODE_HASH_SIZE) []) s).
End state.

(** ** The operations of a file system

    A result other than 0 is an error. [fs_lookup] gives the result and the inode,
    [fs_read] the result, the bytes for the buffer and the new position. *)
Class SuperOps (P : Type) := {
  fs_read_inode : Z → Z → vfs_state P → outcome (Z * vfs_state P);
  fs_write_inode : Z → Z → vfs_state P → outcome (Z * vfs_state P);
  fs_destroy_inode : Z → vfs_state P → outcome (vfs_state P);
  fs_put_super : Z → vfs_state P → outcome (vfs_state P);
  fs_statfs : Z → vfs_state P → outcome (Z * option statfs) }.
Class InodeOps (P : Type) := { fs_lookup : Z → list Z → vfs_state P → outcome (Z * Z * vfs_state P) }.
Class FileOps (P : Type) := {
  fs_read : Z → Z → Z → vfs_state P → outcome (Z * list Z * Z * vfs_state P);
  fs_write : Z → list Z → Z → vfs_state P → outcome (Z * Z * vfs_state P) }.
Class MountOp (P : Type) := { fs_mount : Z → vfs_state P → outcome (Z * vfs_state P) }.

Section inode_ops.
Context {P : Type} `{SuperOps P}.
Implicit Types (s : vfs_state P).

Definition vfs_free_inode (p : Z) s : outcome (vfs_state P) :=
  if p =? 0 then Ret s else
  x ← get_inode p s;
  let s := inode_hash_remove p s in
  let s := with_all_inodes (unlink p (all_inodes s)) (u32 (inode_count s - 1)) s in
  s ← (if i_sb x =? 0 then Ret s else
       sb ← get_super (i_sb x) s;
       if s_op sb then fs_destroy_inode p s else Ret s);
  x ← get_inode p s;
  let s := if i_private x =? 0 then s else vfree (i_private x) s in
  Ret (vfree p (with_inodes (delete p (inodes s)) s)).

(** The first inode of the chain with that number and superblock *)
Fixpoint find_inode (ino sb : Z) (l : list Z) s : outcome Z :=
  match l with
  | [] => Ret 0
  | p :: rest =>
      x ← get_inode p s;
      if (i_sb x =? sb) && (i_ino x =? ino) then Ret p else find_inode ino sb rest s
  end.
Definition vfs_iget (sb ino : Z) s : outcome (Z * vfs_state P) :=
  if sb =? 0 then Ret (0, s) else
  chain ← access (zlookup (hash_table s) (inode_hash ino sb));
  q ← find_inode ino sb chain s;
  if negb (q =? 0) then s ← upd_inode q incr_count s; Ret (q, s) else
  let '(p, s) := vfs_alloc_inode sb s in
  if p =? 0 then Ret (0, s) else
  s ← upd_inode p (set_ino ino) s;
  x ← get_super sb s;
  rs ← (if s_op x then fs_read_inode sb p s else Ret (0, s));
  let '(result, s) := rs : Z * vfs_state P in
  if negb (result =? 0) then s ← vfs_free_inode p s; Ret (0, s) else
  s ← inode_hash_insert p s; Ret (p, s).
Definition vfs_iput (p : Z) s : outcome (vfs_state P) :=
  if p =? 0 then Ret s else
  s ← upd_inode p (λ x, if 0 <? i_count x then set_icount (i_count x - 1) x else x) s;
  x ← get_inode p s;
  s ← (if (i_count x =? 0) && negb (Z.land (i_state x) I_DIRTY =? 0) then
         if i_sb x =? 0 then Ret s else
         sb ← get_super (i_sb x) s;
         if s_op sb then rs ← fs_write_inode (i_sb x) p s; Ret (snd (rs : Z * vfs_state P)) else Ret s
       else Ret s);
  x ← get_inode p s;
  if i_count x =? 0 then vfs_free_inode p s else Ret s.

(** ** Paths

    A path is the list of its characters. *)
Fixpoint skip_slash (path : list Z) : list Z :=
  match path with
  | c :: rest => if c =? SLASH then skip_slash rest else path
  | [] => []
  end.
(** At most 255 characters up to the next slash *)
Fixpoint next_component (room : nat) (path : list Z) : list Z :=
  match room, path with
  | S room', c :: rest => if c =? SLASH then [] else c :: next_component room' rest
  | _, _ => []
  end.
Definition DOT : list Z := [46].
Definition DOTDOT : list Z := [46; 46].

Context `{InodeOps P}.
(** The loop of [vfs_path_lookup]; [None] is a walk that does not end. *)
Fixpoint path_walk (fuel : nat) (path : list Z) (current : Z) s : outcome (option (option Z * vfs_state P)) :=
  match fuel with
  | O => Ret None
  | S fuel' =>
      match path with
      | [] => Ret (Some (Some current, s))
      | _ =>
          let component := next_component 255 path in
          if bool_decide (component = []) then path_walk fuel' (skip_slash path) current s else
          let rest := skip_slash (drop (length component) path) in
          if bool_decide (component = DOT) || bool_decide (component = DOTDOT) then path_walk fuel' rest current s else
          x ← get_inode current s;
          if negb (vfs_is_dir x) then s ← vfs_iput current s; Ret (Some (None, s)) else
          if bool_decide (i_op x = no_inode_ops) then s ← vfs_iput current s; Ret (Some (None, s)) else
          rn ← fs_lookup current component s;
          let '(result, next, s) := rn : Z * Z * vfs_state P in
          s ← vfs_iput current s;
          if negb (result =? 0) || (next =? 0) then Ret (Some (None, s)) else path_walk fuel' rest next s
      end
  end.
(** The inode, [None] for an error. *)
Definition vfs_path_lookup (path : list Z) s : outcome (option (option Z * vfs_state P)) :=
  if root_sb s =? 0 then Ret (Some (None, s)) else
  sb ← get_super (root_sb s) s;
  if s_root sb =? 0 then Ret (Some (None, s)) else
  s ← upd_inode (s_root sb) incr_count s;
  path_walk (S (length path)) (skip_slash path) (s_root sb) s.
End inode_ops.

(** ** Files *)
Section file_ops.
Context {P : Type} `{SuperOps P, InodeOps P, FileOps P}.
Implicit Types (s : vfs_state P).

Definition vfs_alloc_file s : Z * vfs_state P :=
  let '(p, s) := vmalloc s in
  if p =? 0 then (0, s) else
  let s := with_files (<[p := mk_file 0 0 0 0 1 no_file_ops]> (files s)) s in
  (p, with_all_files (p :: all_files s) (u32 (file_count s + 1)) s).
Definition vfs_free_file (p : Z) s : outcome (vfs_state P) :=
  if p =? 0 then Ret s else
  x ← get_file p s;
  let s := with_all_files (unlink p (all_files s)) (u32 (file_count s - 1)) s in
  s ← (if f_inode x =? 0 then Ret s else vfs_iput (f_inode x) s);
  Ret (vfree p (with_files (delete p (files s)) s)).
Definition vfs_file_get (p : Z) s : outcome (vfs_state P) :=
  if p =? 0 then Ret s else upd_file p (λ x, set_fcount (u32 (f_count x + 1)) x) s.
Definition vfs_file_put (p : Z) s : outcome (vfs_state P) :=
  if p =? 0 then Ret s else
  s ← upd_file p (λ x, if 0 <? f_count x then set_fcount (f_count x - 1) x else x) s;
  x ← get_file p s;
  if f_count x =? 0 then vfs_free_file p s else Ret s.

(** The bytes are those put into the buffer. *)
Definition vfs_read (p count : Z) s : outcome (Z * list Z * vfs_state P) :=
  if p =? 0 then Ret (-1, [], s) else
  x ← get_file p s;
  if f_inode x =? 0 then Ret (-1, [], s) else
  if Z.land (f_mode x) FMODE_READ =? 0 then Ret (-1, [], s) else
  if bool_decide (f_op x = file_ops) then
    r ← fs_read (f_inode x) count (f_pos x) s;
    let '(result, bytes, pos, s) := r : Z * list Z * Z * vfs_state P in
    s ← upd_file p (set_fpos pos) s;
    Ret (result, bytes, s)
  else Ret (-1, [], s).
Definition vfs_write (p : Z) (buffer : list Z) s : outcome (Z * vfs_state P) :=
  if p =? 0 then Ret (-1, s) else
  x ← get_file p s;
  if f_inode x =? 0 then Ret (-1, s) else
  if Z.land (f_mode x) FMODE_WRITE =? 0 then Ret (-1, s) else
  if bool_decide (f_op x = file_ops) then
    r ← fs_write (f_inode x) buffer (f_pos x) s;
    let '(result, pos, s) := r : Z * Z * vfs_state P in
    s ← upd_file p (set_fpos pos) s;
    s ← (if 0 <? result then vfs_mark_inode_dirty (f_inode x) s else Ret s);
    Ret (result, s)
  else Ret (-1, s).

Definition SEEK_SET := 0.
Definition SEEK_CUR := 1.
Definition SEEK_END := 2.
Definition vfs_lseek (p offset whence : Z) s : outcome (Z * vfs_state P) :=
  if p =? 0 then Ret (-1, s) else
  x ← get_file p s;
  if f_inode x =? 0 then Ret (-1, s) else
  i ← get_inode (f_inode x) s;
  if negb ((whence =? SEEK_SET) || (whence =? SEEK_CUR) || (whence =? SEEK_END)) then Ret (-1, s) else
  let new_pos := if whence =? SEEK_SET then u64 offset else
                 if whence =? SEEK_CUR then f_pos x ⊞ offset else i_size i ⊞ offset in
  if (offset <? 0) && (f_pos x <? new_pos) then Ret (-1, s) else
  s ← upd_file p (set_fpos new_pos) s;
  Ret (s64 new_pos, s).
(** No file system here has a release operation. *)
Definition vfs_close (p : Z) s : outcome (Z * vfs_state P) :=
  if p =? 0 then Ret (-1, s) else s ← vfs_file_put p s; Ret (0, s).

(** The result and the file; no file system here has an open operation. *)
Definition vfs_open_inode (inode flags : Z) s : outcome (Z * Z * vfs_state P) :=
  if inode =? 0 then Ret (-1, 0, s) else
  let '(p, s) := vfs_alloc_file s in
  if p =? 0 then Ret (-1, 0, s) else
  i ← get_inode inode s;
  let acc := Z.land flags O_RDWR in
  let mode := if acc =? 0 then FMODE_READ else if acc =? O_WRONLY then FMODE_WRITE else
              if acc =? O_RDWR then Z.lor FMODE_READ FMODE_WRITE else 0 in
  s ← upd_file p (λ x, mk_file inode 0 (u32 flags) mode (f_count x) (i_fop i)) s;
  s ← upd_inode inode incr_count s;
  Ret (0, p, s).
Definition vfs_open (path : list Z) (flags : Z) s : outcome (option (Z * Z * vfs_state P)) :=
  r ← vfs_path_lookup path s;
  match r : option (option Z * vfs_state P) with
  | None => Ret None
  | Some (None, s) => Ret (Some (-1, 0, s))
  | Some (Some inode, s) =>
      if inode =? 0 then Ret (Some (-1, 0, s)) else
      if negb (Z.land flags O_EXCL =? 0) && negb (Z.land flags O_CREAT =? 0) then
        s ← vfs_iput inode s; Ret (Some (-1, 0, s))
      else
        r ← vfs_open_inode inode flags s;
        let '(result, p, s) := r : Z * Z * vfs_state P in
        if negb (result =? 0) then s ← vfs_iput inode s; Ret (Some (result, 0, s)) else Ret (Some (0, p, s))
  end.
Definition vfs_create (path : list Z) s : outcome (option (Z * Z * vfs_state P)) :=
  vfs_open path (Z.lor (Z.lor O_CREAT O_WRONLY) O_TRUNC) s.
End file_ops.

(** ** Superblocks and mounts *)
Section mount_ops.
Context {P : Type} `{SuperOps P, MountOp P}.
Implicit Types (s : vfs_state P).

Definition vfs_alloc_super s : Z * vfs_state P :=
  let '(p, s) := vmalloc s in
  if p =? 0 then (0, s) else
  (p, with_supers (<[p := mk_super 0 0 0 [] 0 0 0 0 0 0 false 1]> (supers s)) s).
Definition vfs_free_super (p : Z) s : outcome (vfs_state P) :=
  if p =? 0 then Ret s else
  x ← get_super p s;
  s ← (if s_op x then fs_put_super p s else Ret s);
  x ← get_super p s;
  let s := if s_fs_info x =? 0 then s else vfree (s_fs_info x) s in
  Ret (vfree p (with_supers (delete p (supers s)) s)).
Definition vfs_add_super (p : Z) s : vfs_state P :=
  if p =? 0 then s else with_superblocks (superblocks s ++ [p]) (root_sb s) (u32 (sb_count s + 1)) s.
Definition vfs_remove_super (p : Z) s : vfs_state P :=
  if p =? 0 then s else
  with_superblocks (unlink p (superblocks s)) (if root_sb s =? p then 0 else root_sb s) (u32 (sb_count s - 1)) s.
Definition vfs_set_root_sb (p : Z) s : vfs_state P := with_superblocks (superblocks s) p (sb_count s) s.
Fixpoint find_super (dev : Z) (l : list Z) s : outcome Z :=
  match l with
  | [] => Ret 0
  | p :: rest => x ← get_super p s; if s_dev x =? dev then Ret p else find_super dev rest s
  end.
Definition vfs_find_super (dev : Z) s : outcome Z := find_super dev (superblocks s) s.
Definition vfs_statfs s : outcome (Z * option statfs) :=
  if root_sb s =? 0 then Ret (-1, None) else
  x ← get_super (root_sb s) s;
  if s_op x then fs_statfs (root_sb s) s else
  Ret (0, Some (mk_statfs (s_magic x) (s_blocksize x) (s_blocks x) (s_bfree x) (s_files x) (s_ffree x) 0)).

(** ["hda"] to ["hdd"]; any other name stands for the first device. [None]: no name. *)
Definition parse_device (device : option (list Z)) : Z :=
  match device with
  | None => -1
  | Some n => if bool_decide (n = disk_name 1) then 1 else if bool_decide (n = disk_name 2) then 2 else
              if bool_decide (n = disk_name 3) then 3 else 0
  end.
(** [registered]: whether a file system type of that name was registered. *)
Definition vfs_mount (registered : bool) (device : option (list Z)) (path : list Z) s : outcome (Z * vfs_state P) :=
  if negb registered then Ret (-1, s) else
  let '(sb, s) := vfs_alloc_super s in
  if sb =? 0 then Ret (-1, s) else
  s ← upd_super sb (λ x, mk_super (u32 (parse_device device)) (s_blocksize x) (s_magic x) (s_fsname x) (s_root x)
                       (s_blocks x) (s_bfree x) (s_files x) (s_ffree x) (s_fs_info x) (s_op x) (s_count x)) s;
  rs ← fs_mount sb s;
  let '(result, s) := rs : Z * vfs_state P in
  if negb (result =? 0) then s ← vfs_free_super sb s; Ret (-1, s) else
  let '(m, s) := vmalloc s in
  if m =? 0 then s ← vfs_free_super sb s; Ret (-1, s) else
  let s := with_mounts (<[m := mk_mount sb (take 256 path)]> (mount_recs s)) (mounts s ++ [m]) (u32 (mount_count s + 1)) s in
  let s := vfs_add_super sb s in
  Ret (0, if bool_decide (path = [SLASH]) then vfs_set_root_sb sb s else s).
Fixpoint umount_loop (path : list Z) (l : list Z) s : outcome (Z * vfs_state P) :=
  match l with
  | [] => Ret (-1, s)
  | m :: rest =>
      x ← access (mount_recs s !! m);
      if bool_decide (m_path x = path) then
        if m_sb x =? root_sb s then Ret (-1, s) else
        let s := with_mounts (mount_recs s) (unlink m (mounts s)) (u32 (mount_count s - 1)) s in
        let s := vfs_remove_super (m_sb x) s in
        s ← vfs_free_super (m_sb x) s;
        Ret (0, vfree m (with_mounts (delete m (mount_recs s)) (mounts s) (mount_count s) s))
      else umount_loop path rest s
  end.
Definition vfs_umount (path : list Z) s : outcome (Z * vfs_state P) := umount_loop path (mounts s) s.
(** The mount with the longest path that begins [path] *)
Fixpoint best_mount (path : list Z) (l : list Z) (best best_len : Z) s : outcome Z :=
  match l with
  | [] => Ret best
  | m :: rest =>
      x ← access (mount_recs s !! m);
      let len := Z.of_nat (length (m_path x)) in
      if (best_len <? len) && bool_decide (take (length (m_path x)) path = m_path x)
      then best_mount path rest m len s else best_mount path rest best best_len s
  end.
Definition vfs_get_mount (path : list Z) s : outcome Z := best_mount path (mounts s) 0 0 s.
Definition vfs_init s : vfs_state P :=
  let s := with_superblocks [] 0 0 s in
  let s := vfs_inode_cache_init s in
  let s := with_all_files [] 0 s in
  with_mounts (mount_recs s) [] 0 s.
End mount_ops.
End Vfs.
