(* ===== verification/Path.v ===== *)
(** * Theorems on path resolution and the inode cache ([kernel/fs/vfs]) *)
From S2P Require Import Prelude Bits Mem E820 Block Vfs.
Import Block Vfs.

(** ** The names of a path

    The path cut at its slashes, and every name longer than 255 characters cut into
    pieces of 255; [room] is what is left in the current piece. *)
Definition cons_hd (c : Z) (l : list (list Z)) : list (list Z) :=
  match l with f :: fs => (c :: f) :: fs | [] => [[c]] end.
Fixpoint pieces (room : nat) (path : list Z) : list (list Z) :=
  match path with
  | [] => [[]]
  | c :: rest =>
      if c =? SLASH then [] :: pieces 255 rest else
      match room with
      | S room' => cons_hd c (pieces room' rest)
      | O => [] :: cons_hd c (pieces 254 rest)
      end
  end.
Definition names (path : list Z) : list (list Z) := filter (λ f, f ≠ []) (pieces 255 path).

Lemma pieces_cons r path : ∃ f fs, pieces r path = f :: fs.
Proof.
  destruct path as [|c rest]; [by do 2 eexists|]. cbn [pieces]. destruct (c =? SLASH); [by do 2 eexists|].
  destruct r as [|r]; [by do 2 eexists|]. destruct (pieces r rest); by do 2 eexists.
Qed.
Lemma pieces_255 c rest : c ≠ SLASH → pieces 255 (c :: rest) = cons_hd c (pieces 254 rest).
Proof. intros Hc. cbn [pieces]. by destruct (Z.eqb_spec c SLASH). Qed.
Lemma names_slash path : names (SLASH :: path) = names path.
Proof. unfold names. cbn [pieces]. rewrite Z.eqb_refl. by rewrite filter_cons_False by (intros Hn; by apply Hn). Qed.
Lemma names_skip_slash path : names (skip_slash path) = names path.
Proof.
  induction path as [|c rest IH]; [done|]. cbn [skip_slash]. destruct (Z.eqb_spec c SLASH) as [->|]; [|done].
  by rewrite names_slash.
Qed.
Lemma next_component_pieces r path : ∃ tl, pieces r path = next_component r path :: tl ∧
  filter (λ f, f ≠ []) tl = names (drop (length (next_component r path)) path).
Proof.
  revert r. induction path as [|c rest IH]; intros r.
  - exists []. split; [by destruct r|]. by destruct r.
  - cbn [pieces]. destruct (Z.eqb_spec c SLASH) as [->|Hc].
    + exists (pieces 255 rest). destruct r; cbn [next_component]; rewrite ?Z.eqb_refl; (split; [done|]); cbn [length drop];
        by rewrite names_slash.
    + destruct r as [|r].
      * exists (cons_hd c (pieces 254 rest)). split; [done|]. cbn [next_component length drop]. unfold names. by rewrite pieces_255.
      * cbn [next_component]. destruct (Z.eqb_spec c SLASH); [done|]. destruct (IH r) as (tl & -> & Hf). exists tl. by split.
Qed.
Lemma names_nil : names [] = [].
Proof. reflexivity. Qed.
Lemma names_step path : next_component 255 path ≠ [] →
  names path = next_component 255 path :: names (skip_slash (drop (length (next_component 255 path)) path)).
Proof.
  intros Hn. destruct (next_component_pieces 255 path) as (tl & He & Hf). unfold names at 1.
  rewrite He, filter_cons_True, Hf, names_skip_slash by done. done.
Qed.

(** A name of a path with short names is a maximal slash-free part of it. *)
Lemma skip_slash_length path : (length (skip_slash path) ≤ length path)%nat.
Proof. induction path as [|c rest IH]; cbn [skip_slash length]; [done|]. destruct (c =? SLASH); cbn [length]; lia. Qed.
Lemma next_component_empty c rest : next_component 255 (c :: rest) = [] → c = SLASH.
Proof. cbn [next_component]. by destruct (Z.eqb_spec c SLASH). Qed.

Section walk.
Context {P : Type} `{SuperOps P, InodeOps P}.
Implicit Types (s : vfs_state P).

(** ** The reference: one lookup per name *)
Definition skipped (name : list Z) : bool := bool_decide (name = DOT) || bool_decide (name = DOTDOT).
Fixpoint follow (l : list (list Z)) (current : Z) s : outcome (option Z * vfs_state P) :=
  match l with
  | [] => Ret (Some current, s)
  | name :: rest =>
      if skipped name then follow rest current s else
      x ← get_inode current s;
      if negb (vfs_is_dir x) || bool_decide (i_op x = no_inode_ops) then s ← vfs_iput current s; Ret (None, s) else
      rn ← fs_lookup current name s;
      let '(result, next, s) := rn : Z * Z * vfs_state P in
      s ← vfs_iput current s;
      if negb (result =? 0) || (next =? 0) then Ret (None, s) else follow rest next s
  end.

Lemma path_walk_follow fuel path current s : (length path < fuel)%nat →
  path_walk fuel path current s = (r ← follow (names path) current s; Ret (Some r)).
Proof.
  revert path current s. induction fuel as [|fuel IH]; intros path current s Hf; [lia|]. cbn [path_walk].
  destruct path as [|c rest]; [done|]. set (path := c :: rest) in *. set (name := next_component 255 path).
  destruct (decide (name = [])) as [He|Hne].
  - rewrite bool_decide_true by done. rewrite IH; [by rewrite names_skip_slash|].
    assert (c = SLASH) as -> by (by apply (next_component_empty c rest)). cbn [path skip_slash length] in *. rewrite Z.eqb_refl.
    pose proof (skip_slash_length rest). lia.
  - rewrite bool_decide_false by done. rewrite (names_step path) by done. fold name. cbn [follow].
    assert (length (skip_slash (drop (length name) path)) < fuel)%nat as Hlt.
    { pose proof (skip_slash_length (drop (length name) path)) as Hl. rewrite length_drop in Hl.
      assert (length name ≠ 0%nat) by (by intros ?%nil_length_inv). assert (length path = S (length rest)) by done. lia. }
    unfold skipped. destruct (bool_decide (name = DOT) || bool_decide (name = DOTDOT)); [by apply IH|].
    destruct (get_inode current s) as [x|]; [|done]. cbn [mbind outcome_bind].
    destruct (negb (vfs_is_dir x)); cbn [orb].
    { by destruct (vfs_iput current s). }
    destruct (bool_decide (i_op x = no_inode_ops)).
    { by destruct (vfs_iput current s). }
    destruct (fs_lookup current name s) as [[[result next] s1]|]; [|done].
    cbn [mbind outcome_bind]. destruct (vfs_iput current s1) as [s2|]; [|done]. cbn [mbind outcome_bind].
    destruct (negb (result =? 0) || (next =? 0)); [done|]. by apply IH.
Qed.

(** For every file system, resolving a path is one lookup per name, from the root inode on:
    [vfs_path_lookup] terminates on every path and equals [follow] over [names path], the
    parts of the path between its slashes without the empty ones, where a part of more than
    255 characters counts as several. [follow] skips "." and "..", demands a directory with
    operations, puts the inode it leaves, and stops at the first failure. *)
Theorem vfs_path_lookup_follows_names path s :
  vfs_path_lookup path s =
  (if root_sb s =? 0 then Ret (Some (None, s)) else
   sb ← get_super (root_sb s) s;
   if s_root sb =? 0 then Ret (Some (None, s)) else
   s ← upd_inode (s_root sb) incr_count s;
   r ← follow (names path) (s_root sb) s; Ret (Some r)).
Proof.
  unfold vfs_path_lookup. destruct (root_sb s =? 0); [done|]. destruct (get_super (root_sb s) s) as [sb|]; [|done].
  cbn [mbind outcome_bind]. destruct (s_root sb =? 0); [done|]. destruct (upd_inode (s_root sb) incr_count s) as [s1|]; [|done].
  cbn [mbind outcome_bind]. rewrite path_walk_follow, names_skip_slash; [done|]. pose proof (skip_slash_length path). lia.
Qed.
End walk.

(** ** What a file system promises *)
Section laws.
Context {P : Type}.
Implicit Types (s : vfs_state P).
Definition same_key (x y : vfs_inode) : Prop := i_sb y = i_sb x ∧ i_ino y = i_ino x ∧ i_count y = i_count x.
(** Only the record of inode [p], the heap and the private state differ; no block that
    was in use is freed and the private data of the inode is a new block. *)
Record fills (p : Z) s s' : Prop := {
  fl_rest : s' = with_priv (priv s') (with_vheap (vheap s') (with_inodes (inodes s') s));
  fl_other q : q ≠ p → inodes s' !! q = inodes s !! q;
  fl_key x : inodes s !! p = Some x → ∃ y, inodes s' !! p = Some y ∧ same_key x y ∧
    (i_private y = i_private x ∨ i_private y = 0 ∨ i_private y ∉ live (vheap s) ∧ i_private y ∈ live (vheap s'));
  fl_live : live (vheap s) ⊆ live (vheap s') }.
End laws.

(** [usable sb s]: the operations may be called for superblock [sb]. [data_ok x s]: the
    private data of an inode is what the file system expects. *)
Class SuperLaws (P : Type) `{SuperOps P} := {
  usable : Z → vfs_state P → Prop;
  data_ok : vfs_inode → vfs_state P → Prop;
  usable_super sb s : usable sb s → is_Some (supers s !! sb);
  usable_frame sb s s' : supers s' = supers s → priv s' = priv s → usable sb s → usable sb s';
  data_none x s : i_private x = 0 → data_ok x s;
  data_frame x y s s' : supers s' = supers s → priv s' = priv s → i_sb y = i_sb x → i_mode y = i_mode x → i_size y = i_size x →
    i_private y = i_private x → data_ok x s → data_ok y s';
  read_inode_law sb p s x : usable sb s → inodes s !! p = Some x → i_sb x = sb → 0 ≤ i_ino x → i_private x = 0 →
    ∃ r s', fs_read_inode sb p s = Ret (r, s') ∧ fills p s s' ∧ (∀ sb', usable sb' s → usable sb' s') ∧
      (∀ y, inodes s' !! p = Some y → data_ok y s') ∧ (∀ z, i_private z ∈ live (vheap s) → data_ok z s → data_ok z s');
  write_inode_law sb p s x : usable sb s → inodes s !! p = Some x → i_sb x = sb → data_ok x s →
    ∃ r s', fs_write_inode sb p s = Ret (r, s') ∧ fills p s s' ∧ (∀ sb', usable sb' s → usable sb' s') ∧
      (∀ y, inodes s' !! p = Some y → data_ok y s') ∧ (∀ z, i_private z ∈ live (vheap s) → data_ok z s → data_ok z s');
  destroy_inode_law p s x : p ≠ 0 → inodes s !! p = Some x → usable (i_sb x) s →
    ∃ pr, fs_destroy_inode p s = Ret (with_priv pr
      (if i_private x =? 0 then s else vfree (i_private x) (with_inodes (<[p := set_iprivate 0 x]> (inodes s)) s))) ∧
      (∀ sb', usable sb' s → usable sb' (with_priv pr s)) ∧
      ∀ z, i_private z ≠ i_private x → data_ok z s → data_ok z (with_priv pr s) }.

(** ** The inode cache *)
Section cache.
Context {P : Type} `{SuperLaws P}.
Implicit Types (s : vfs_state P).

Definition in_cache s (p : Z) : Prop := ∃ h l, zlookup (hash_table s) h = Some l ∧ p ∈ l.
(** The references to the inode at [p]; none when there is no such inode. *)
Definition refs s (p : Z) : Z := default 0 (i_count <$> inodes s !! p).
Record inode_ok s (p : Z) (x : vfs_inode) : Prop := {
  io_nz : p ≠ 0; io_live : p ∈ live (vheap s); io_sb : i_sb x ≠ 0; io_usable : usable (i_sb x) s;
  io_count : 0 ≤ i_count x < 2 ^ 32;
  io_private : i_private x ≠ 0 → i_private x ∈ live (vheap s) ∧ inodes s !! i_private x = None;
  io_data : data_ok x s }.
Record cache_ok s : Prop := {
  co_len : Z.of_nat (length (hash_table s)) = INODE_HASH_SIZE;
  co_inode p x : inodes s !! p = Some x → inode_ok s p x;
  co_private p q x y : inodes s !! p = Some x → inodes s !! q = Some y → i_private x = i_private y → i_private x ≠ 0 → p = q;
  co_chain h l p : zlookup (hash_table s) h = Some l → p ∈ l → ∃ x, inodes s !! p = Some x ∧ inode_hash (i_ino x) (i_sb x) = h;
  co_nodup h l : zlookup (hash_table s) h = Some l → NoDup l;
  co_unique p q x y : in_cache s p → in_cache s q → inodes s !! p = Some x → inodes s !! q = Some y →
    i_sb x = i_sb y → i_ino x = i_ino y → p = q }.

Lemma get_inode_ok p s x : inodes s !! p = Some x → get_inode p s = Ret x.
Proof. unfold get_inode. by intros ->. Qed.
Lemma inode_hash_range ino sb : 0 ≤ inode_hash ino sb < INODE_HASH_SIZE.
Proof.
  unfold inode_hash. change (INODE_HASH_SIZE - 1) with (2 ^ 8 - 1). rewrite mask_land by lia. unfold INODE_HASH_SIZE.
  change 256 with (2 ^ 8). apply Z.mod_pos_bound. lia.
Qed.
Lemma chain_of s ino sb : cache_ok s → ∃ l, zlookup (hash_table s) (inode_hash ino sb) = Some l.
Proof. intros Hs. apply zlookup_lt_is_Some. rewrite (co_len _ Hs). apply inode_hash_range. Qed.

(** The search through a chain *)
Lemma find_inode_spec s ino sb l : (∀ p, p ∈ l → p ≠ 0 ∧ is_Some (inodes s !! p)) →
  (∃ p x, find_inode ino sb l s = Ret p ∧ p ∈ l ∧ inodes s !! p = Some x ∧ i_sb x = sb ∧ i_ino x = ino) ∨
  (find_inode ino sb l s = Ret 0 ∧ ∀ p x, p ∈ l → inodes s !! p = Some x → ¬ (i_sb x = sb ∧ i_ino x = ino)).
Proof.
  induction l as [|p l IH]; intros Hl; cbn [find_inode].
  - right. split; [done|]. intros p x []%not_elem_of_nil.
  - destruct (Hl p) as [_ [x Hx]]; [left|]. unfold get_inode. rewrite Hx. cbn [access]. rewrite outcome_bind_ret.
    destruct (Z.eqb_spec (i_sb x) sb), (Z.eqb_spec (i_ino x) ino); cbn [andb].
    { left. exists p, x. split_and!; try done. left. }
    all: destruct IH as [(q & y & Hf & Hq & Hy & Hk1 & Hk2)|[Hf Hn]]; [by intros q Hq; apply Hl; right| |];
      [left; exists q, y; split_and!; try done; by right|right; split; [done|]].
    all: intros q y [->|Hq]%elem_of_cons Hy; [naive_solver congruence|exact (Hn q y Hq Hy)].
Qed.
Lemma find_cached s ino sb l : cache_ok s → zlookup (hash_table s) (inode_hash ino sb) = Some l →
  (∃ p x, find_inode ino sb l s = Ret p ∧ in_cache s p ∧ inodes s !! p = Some x ∧ i_sb x = sb ∧ i_ino x = ino) ∨
  (find_inode ino sb l s = Ret 0 ∧ ∀ p x, in_cache s p → inodes s !! p = Some x → ¬ (i_sb x = sb ∧ i_ino x = ino)).
Proof.
  intros Hs Hl. destruct (find_inode_spec s ino sb l) as [(p & x & Hf & Hp & Hx & H1 & H2)|[Hf Hn]].
  - intros p Hp. destruct (co_chain _ Hs _ _ _ Hl Hp) as (x & Hx & _). split; [by eapply io_nz, co_inode|by eexists].
  - left. exists p, x. split_and!; try done. by exists (inode_hash ino sb), l.
  - right. split; [done|]. intros p x (h & l' & Hl' & Hp) Hx [He1 He2].
    destruct (co_chain _ Hs _ _ _ Hl' Hp) as (y & Hy & Hh). rewrite Hx in Hy. injection Hy as <-.
    rewrite <- Hh, He1, He2, Hl in Hl'. injection Hl' as <-. by apply (Hn p x Hp Hx).
Qed.

(** ** What stays as it is *)
Record steady s s' : Prop := {
  st_supers : supers s' = supers s; st_root : root_sb s' = root_sb s; st_files : files s' = files s;
  st_all_files : all_files s' = all_files s; st_usable sb : usable sb s → usable sb s' }.
#[export] Instance steady_refl : Reflexive steady.
Proof. by split. Qed.
#[export] Instance steady_trans : Transitive steady.
Proof. intros s1 s2 s3 [? ? ? ? ?] [? ? ? ? ?]. split; [congruence..|eauto]. Qed.
Lemma steady_fills p s s' : fills p s s' → (∀ sb, usable sb s → usable sb s') → steady s s'.
Proof. intros [He _ _ _] Hu. split; [..|done]; rewrite He; done. Qed.
Lemma steady_same s s' : supers s' = supers s → priv s' = priv s → root_sb s' = root_sb s → files s' = files s →
  all_files s' = all_files s → steady s s'.
Proof. intros. split; try done. intros sb. by apply usable_frame. Qed.

(** The records may change apart from the key and the private data. *)
Definition like (x y : vfs_inode) : Prop :=
  i_sb y = i_sb x ∧ i_ino y = i_ino x ∧ i_private y = i_private x ∧ i_mode y = i_mode x ∧ i_size y = i_size x ∧ 0 ≤ i_count y < 2 ^ 32.
Lemma cache_like s s' : cache_ok s → steady s s' → priv s' = priv s → hash_table s' = hash_table s → live (vheap s) ⊆ live (vheap s') →
  (∀ p, option_Forall2 like (inodes s !! p) (inodes s' !! p)) → cache_ok s'.
Proof.
  intros Hs Hst Hpv Hh Hl Hr.
  assert (∀ p y, inodes s' !! p = Some y → ∃ x, inodes s !! p = Some x ∧ like x y) as Hb.
  { intros p y Hy. specialize (Hr p). rewrite Hy in Hr. destruct (inodes s !! p) as [x|]; inversion Hr; subst. by exists x. }
  assert (∀ p x, inodes s !! p = Some x → ∃ y, inodes s' !! p = Some y ∧ like x y) as Hf.
  { intros p x Hx. specialize (Hr p). rewrite Hx in Hr. destruct (inodes s' !! p) as [y|]; inversion Hr; subst. by exists y. }
  split.
  - rewrite Hh. apply Hs.
  - intros p y Hy. destruct (Hb p y Hy) as (x & Hx & E1 & E2 & E3 & E4 & E5 & E6). destruct (co_inode _ Hs p x Hx) as [? ? ? ? ? Hp Hd].
    split; rewrite ?E1; try done; [by apply Hl|by apply Hst| |by apply (data_frame x y s s'); try done; apply Hst]. rewrite E3. intros Hn. destruct (Hp Hn) as [Hpl Hpn].
    split; [by apply Hl|]. specialize (Hr (i_private x)). rewrite Hpn in Hr. by inversion Hr.
  - intros p q y y' Hy Hy'. destruct (Hb p y Hy) as (x & Hx & _ & _ & E & _), (Hb q y' Hy') as (x' & Hx' & _ & _ & E' & _).
    rewrite E, E'. by apply (co_private _ Hs p q x x').
  - intros h l p. rewrite Hh. intros Hc Hp. destruct (co_chain _ Hs h l p Hc Hp) as (x & Hx & Hk).
    destruct (Hf p x Hx) as (y & Hy & E1 & E2 & _). exists y. by rewrite E1, E2.
  - rewrite Hh. apply Hs.
  - intros p q y y' (h & l & Hc) (h' & l' & Hc') Hy Hy'. rewrite Hh in *.
    destruct (Hb p y Hy) as (x & Hx & E1 & E2 & _), (Hb q y' Hy') as (x' & Hx' & E1' & E2' & _).
    rewrite E1, E2, E1', E2'. apply (co_unique _ Hs p q x x'); try done; [by exists h, l|by exists h', l'].
Qed.

Lemma fills_back p s s' : fills p s s' → is_Some (inodes s !! p) → ∀ q y, inodes s' !! q = Some y → ∃ x, inodes s !! q = Some x ∧ same_key x y ∧
  (q ≠ p ∧ x = y ∨ q = p ∧ (i_private y = i_private x ∨ i_private y = 0 ∨ i_private y ∉ live (vheap s) ∧ i_private y ∈ live (vheap s'))).
Proof.
  intros [_ Ho Hk _] [x0 Hx0] q y Hy. destruct (decide (q = p)) as [->|Hne].
  - destruct (Hk x0 Hx0) as (y' & Hy' & Hs & Hp). rewrite Hy in Hy'. injection Hy' as <-. exists x0. split_and!; try done. by right.
  - rewrite Ho in Hy by done. exists y. split_and!; try done. by left.
Qed.
Lemma cache_fills p s s' : cache_ok s → fills p s s' → is_Some (inodes s !! p) → steady s s' →
  (∀ y, inodes s' !! p = Some y → data_ok y s') → (∀ z, i_private z ∈ live (vheap s) → data_ok z s → data_ok z s') →
  cache_ok s' ∧ hash_table s' = hash_table s.
Proof.
  intros Hs Hfl Hp Hst Hd1 Hd2. pose proof (fills_back p s s' Hfl Hp) as Hb. pose proof Hfl as [He Ho Hk Hl].
  assert (hash_table s' = hash_table s) as Hh by (rewrite He; done). split; [|done].
  assert (∀ q, inodes s !! q = None → inodes s' !! q = None) as Hnone.
  { intros q Hq. destruct (decide (q = p)) as [->|Hne]; [destruct Hp; congruence|by rewrite Ho]. }
  split.
  - rewrite Hh. apply Hs.
  - intros q y Hy. destruct (Hb q y Hy) as (x & Hx & (E1 & E2 & E3) & Hc). destruct (co_inode _ Hs q x Hx) as [? ? ? ? ? Hpr Hd].
    split; rewrite ?E1, ?E3; try done; [by apply Hl|by apply Hst| |].
    2: { destruct Hc as [[_ <-]|[-> _]]; [|by apply Hd1]. destruct (decide (i_private x = 0)); [by apply data_none|].
      apply Hd2; [|done]. by apply Hpr. }
    intros Hn.
    destruct Hc as [[_ ->]|[-> [E|[E|[Hf Hf']]]]]; [destruct (Hpr Hn); auto|rewrite E in *; destruct (Hpr Hn); auto|done|].
    split; [done|]. apply Hnone. destruct (inodes s !! i_private y) as [z|] eqn:Hz; [|done].
    by destruct Hf; apply (io_live _ _ _ (co_inode _ Hs _ _ Hz)).
  - intros q q' y y' Hy Hy' Heq Hn. destruct (Hb q y Hy) as (x & Hx & _ & Hc), (Hb q' y' Hy') as (x' & Hx' & _ & Hc').
    assert (∀ r z, inodes s !! r = Some z → i_private z ≠ 0 → i_private z ∈ live (vheap s)) as Hlive.
    { intros r z Hz Hz0. by apply (io_private _ _ _ (co_inode _ Hs r z Hz)). }
    destruct (decide (q = q')) as [|Hqq]; [done|]. exfalso.
    destruct Hc as [[_ ->]|[-> Hc]], Hc' as [[? ->]|[-> Hc']]; [by apply Hqq, (co_private _ Hs q q' y y')|..|done].
    + destruct Hc' as [E|[E|[Hf _]]]; [|congruence|].
      * apply Hqq. apply (co_private _ Hs q p y x'); congruence.
      * apply Hf. rewrite <- Heq. eauto.
    + destruct Hc as [E|[E|[Hf _]]]; [|congruence|].
      * apply Hqq. apply (co_private _ Hs p q' x y'); congruence.
      * apply Hf. rewrite Heq. apply (Hlive q' y'); congruence.
  - intros h l q. rewrite Hh. intros Hc Hq. destruct (co_chain _ Hs h l q Hc Hq) as (x & Hx & Hkey).
    destruct (decide (q = p)) as [->|Hne]; [|exists x; by rewrite Ho].
    destruct (Hk x Hx) as (y & Hy & (E1 & E2 & _) & _). exists y. by rewrite E1, E2.
  - rewrite Hh. apply Hs.
  - intros q q' y y' (h & l & Hc) (h' & l' & Hc') Hy Hy'. rewrite Hh in *.
    destruct (Hb q y Hy) as (x & Hx & (E1 & E2 & _) & _), (Hb q' y' Hy') as (x' & Hx' & (E1' & E2' & _) & _).
    rewrite E1, E2, E1', E2'. apply (co_unique _ Hs q q' x x'); try done; [by exists h, l|by exists h', l'].
Qed.

(** A block that no inode is or has as its private data *)
Definition spare s (a : Z) : Prop :=
  a ≠ 0 ∧ a ∈ live (vheap s) ∧ inodes s !! a = None ∧ ∀ p x, inodes s !! p = Some x → i_private x ≠ a.
Lemma spare_fills p s s' a : fills p s s' → is_Some (inodes s !! p) → spare s a → spare s' a.
Proof.
  intros Hfl Hp (Ha0 & Hal & Hai & Hap). pose proof (fills_back p s s' Hfl Hp) as Hb. split_and!; [done|by apply (fl_live _ _ _ Hfl)| |].
  - rewrite (fl_other _ _ _ Hfl); [done|]. intros ->. destruct Hp. congruence.
  - intros q y Hy. destruct (Hb q y Hy) as (x & Hx & _ & [[_ <-]|[-> [E|[E|[E _]]]]]); [by apply (Hap q)|rewrite E; by apply (Hap p)|congruence|].
    intros F. apply E. by rewrite F.
Qed.

(** ** Freeing an inode *)
Lemma free_inode_run p s x : cache_ok s → inodes s !! p = Some x →
  ∃ s', vfs_free_inode p s = Ret s' ∧ inodes s' = delete p (inodes s) ∧ hash_table s' = unlink p <$> hash_table s ∧ steady s s' ∧
    (∀ a, a ∈ live (vheap s') ↔ a ∈ live (vheap s) ∧ a ≠ p ∧ (i_private x ≠ 0 → a ≠ i_private x)) ∧
    ∀ z, i_private z ≠ i_private x → data_ok z s → data_ok z s'.
Proof.
  intros Hs Hx. pose proof (co_inode _ Hs p x Hx) as Hok. destruct Hok as [Hnz Hlv Hsb Hu _ _ _].
  unfold vfs_free_inode. destruct (Z.eqb_spec p 0); [done|]. rewrite (get_inode_ok p s x Hx), outcome_bind_ret.
  destruct (Z.eqb_spec (i_sb x) 0); [done|]. set (s1 := with_all_inodes _ _ _).
  assert (steady s s1) as Hst1 by (by apply steady_same). assert (inodes s1 !! p = Some x) as Hx1 by done.
  destruct (usable_super (i_sb x) s1) as [y Hy]; [by apply Hst1|]. unfold get_super. rewrite Hy. cbn [access]. rewrite outcome_bind_ret.
  destruct (s_op y).
  - destruct (destroy_inode_law p s1 x Hnz Hx1) as (pr & -> & Hpr & Hdr); [by apply Hst1|]. rewrite outcome_bind_ret.
    assert (∀ z, i_private z ≠ i_private x → data_ok z s → data_ok z (with_priv pr s1)) as Hdr'.
    { intros z Hz Hd. apply Hdr; [done|]. by apply (data_frame z z s). }
    destruct (Z.eqb_spec (i_private x) 0) as [E|E].
    + rewrite (get_inode_ok _ _ x), outcome_bind_ret by done.
      destruct (Z.eqb_spec (i_private x) 0); [|done]. eexists. split; [done|]. split_and!; try done.
      * split; try done. intros sb Hsb'. eapply (usable_frame sb (with_priv pr s1)); [done|done|]. by apply Hpr, Hst1.
      * intros a. cbn. set_solver.
      * intros z Hz Hd. by apply (data_frame z z (with_priv pr s1)), Hdr'.
    + rewrite (get_inode_ok _ _ (set_iprivate 0 x)), outcome_bind_ret by (cbn; apply lookup_insert_eq).
      cbn [i_private set_iprivate Z.eqb]. eexists. split; [done|]. split_and!; try done.
      * cbn. apply delete_insert_eq.
      * split; try done. intros sb Hsb'. eapply (usable_frame sb (with_priv pr s1)); [done|done|]. by apply Hpr, Hst1.
      * intros a. cbn. set_solver.
      * intros z Hz Hd. by apply (data_frame z z (with_priv pr s1)), Hdr'.
  - rewrite outcome_bind_ret, (get_inode_ok _ _ x), outcome_bind_ret by done. eexists. split; [done|].
    destruct (Z.eqb_spec (i_private x) 0); (split_and!; [done|done|by apply steady_same|intros a; cbn; set_solver|]).
    all: intros z _; by apply data_frame.
Qed.

Lemma zlookup_fmap {A B} (f : A → B) l i : zlookup (f <$> l) i = f <$> zlookup l i.
Proof. unfold zlookup. destruct (i <? 0); [done|]. apply list_lookup_fmap. Qed.
Lemma elem_of_unlink p q l : q ∈ unlink p l ↔ q ∈ l ∧ q ≠ p.
Proof. unfold unlink. rewrite list_elem_of_filter. tauto. Qed.
Lemma in_cache_unlink p s s' : hash_table s' = unlink p <$> hash_table s → ∀ q, in_cache s' q ↔ in_cache s q ∧ q ≠ p.
Proof.
  intros Hh q. unfold in_cache. rewrite Hh. split.
  - intros (h & l & Hl & Hq). rewrite zlookup_fmap in Hl. apply fmap_Some in Hl as (l0 & Hl & ->). apply elem_of_unlink in Hq as [Hq Hne].
    split; [by exists h, l0|done].
  - intros [(h & l & Hl & Hq) Hne]. exists h, (unlink p l). rewrite zlookup_fmap, Hl. split; [done|]. by apply elem_of_unlink.
Qed.
Lemma cache_free p s x : cache_ok s → inodes s !! p = Some x →
  ∃ s', vfs_free_inode p s = Ret s' ∧ cache_ok s' ∧ inodes s' = delete p (inodes s) ∧ steady s s' ∧ (∀ q, in_cache s' q ↔ in_cache s q ∧ q ≠ p) ∧
    ∀ a, spare s a → spare s' a.
Proof.
  intros Hs Hx. destruct (free_inode_run p s x Hs Hx) as (s' & Hr & Hi & Hh & Hst & Hlv & Hdt).
  pose proof (in_cache_unlink p s s' Hh) as Hin. exists s'.
  assert (∀ q y, inodes s' !! q = Some y → inodes s !! q = Some y ∧ q ≠ p) as Hb.
  { intros q y. rewrite Hi, lookup_delete_Some. naive_solver. }
  split_and!; try done.
  2: { intros a (Ha0 & Hal & Hai & Hap). split_and!; [done|apply Hlv; split_and!; [done|congruence|naive_solver]|by rewrite Hi, lookup_delete_None; right|].
    intros q y [Hy _]%Hb. by apply (Hap q). }
  split.
  - rewrite Hh, length_fmap. apply Hs.
  - intros q y Hy. destruct (Hb q y Hy) as [Hy0 Hne]. destruct (co_inode _ Hs q y Hy0) as [? Hql ? ? ? Hpr Hd].
    split; try done; [|by apply Hst| |].
    3: { destruct (decide (i_private y = 0)); [by apply data_none|]. apply Hdt; [|done]. intros E. by apply Hne, (co_private _ Hs q p y x). }
    + apply Hlv. split_and!; try done. intros Hn ->. destruct (io_private _ _ _ (co_inode _ Hs p x Hx) Hn). congruence.
    + intros Hn. destruct (Hpr Hn) as [Hpl Hpn]. split.
      * apply Hlv. split_and!; try done; [intros E; rewrite E in Hpn; congruence|]. intros Hn' E. by apply Hne, (co_private _ Hs q p y x).
      * rewrite Hi, lookup_delete_None. by right.
  - intros q q' y y' Hy Hy'. apply Hb in Hy as [Hy _], Hy' as [Hy' _]. by apply (co_private _ Hs q q' y y').
  - intros h l q Hl Hq. rewrite Hh, zlookup_fmap in Hl. apply fmap_Some in Hl as (l0 & Hl & ->). apply elem_of_unlink in Hq as [Hq Hne].
    destruct (co_chain _ Hs h l0 q Hl Hq) as (y & Hy & Hk). exists y. by rewrite Hi, lookup_delete_ne.
  - intros h l Hl. rewrite Hh, zlookup_fmap in Hl. apply fmap_Some in Hl as (l0 & Hl & ->). by apply NoDup_filter, (co_nodup _ Hs h).
  - intros q q' y y' [Hq _]%Hin [Hq' _]%Hin Hy Hy'. apply Hb in Hy as [Hy _], Hy' as [Hy' _]. by apply (co_unique _ Hs q q' y y').
Qed.

(** ** Getting an inode *)
Definition new_inode (sb ino : Z) : vfs_inode := mk_inode sb ino 1 0 0 0 1 0 no_inode_ops no_file_ops 0.
Lemma not_in_cache s p : cache_ok s → inodes s !! p = None → ¬ in_cache s p.
Proof. intros Hs Hp (h & l & Hl & Hin). destruct (co_chain _ Hs h l p Hl Hin) as (x & Hx & _). congruence. Qed.
Lemma cache_alloc s sb ino : cache_ok s → sb ≠ 0 → usable sb s →
  (∃ k, vfs_alloc_inode sb s = (0, with_vheap (mk_kheap (live (vheap s)) k) s)) ∨
  (∃ p s', vfs_alloc_inode sb s = (p, s') ∧ p ≠ 0 ∧ inodes s !! p = None ∧
     upd_inode p (set_ino ino) s' = Ret (with_inodes (<[p := new_inode sb ino]> (inodes s)) s') ∧
     let s1 := with_inodes (<[p := new_inode sb ino]> (inodes s)) s' in
     cache_ok s1 ∧ steady s s1 ∧ hash_table s1 = hash_table s ∧ ∀ a, spare s a → spare s1 a).
Proof.
  intros Hs Hsb Hu. unfold vfs_alloc_inode, vmalloc. destruct (Z.eqb_spec sb 0); [done|].
  destruct (heap_answer_spec (vheap s)) as (p & k & -> & Hfr). destruct (Z.eqb_spec p 0) as [->|Hp]; [left; by exists k|].
  right. specialize (Hfr Hp). assert (inodes s !! p = None) as Hnone.
  { destruct (inodes s !! p) as [x|] eqn:Hx; [|done]. by destruct Hfr; apply (io_live _ _ _ (co_inode _ Hs p x Hx)). }
  eexists p, _. split; [done|]. split_and!; [done|done| | |by apply steady_same|done|].
  3: { intros a (Ha0 & Hal & Hai & Hap). split_and!; [done|cbn; set_solver|cbn; rewrite lookup_insert_ne by congruence; done|].
    intros q y. cbn. destruct (decide (q = p)) as [->|Hne]; [rewrite lookup_insert_eq; intros [= <-]; done|].
    rewrite lookup_insert_ne by done. apply Hap. }
  { unfold upd_inode. rewrite (get_inode_ok _ _ (new_inode sb 0)) by (cbn; apply lookup_insert_eq). rewrite outcome_bind_ret.
    cbn. by rewrite insert_insert_eq. }
  set (s1 := with_inodes _ _). assert (steady s s1) as Hst by (by apply steady_same).
  assert (∀ q y, inodes s1 !! q = Some y → q = p ∧ y = new_inode sb ino ∨ q ≠ p ∧ inodes s !! q = Some y) as Hb.
  { intros q y. cbn. destruct (decide (q = p)) as [->|Hne]; [rewrite lookup_insert_eq; naive_solver|rewrite lookup_insert_ne by done; naive_solver]. }
  split.
  - apply Hs.
  - intros q y [[-> ->]|[Hne Hy]]%Hb.
    + split; cbn; try done; [set_solver|by apply Hst|by apply data_none].
    + destruct (co_inode _ Hs q y Hy) as [? ? ? ? ? Hpr Hd]. split; try done; [cbn; set_solver|by apply Hst| |by apply (data_frame y y s)].
      intros Hn. destruct (Hpr Hn). split; [cbn; set_solver|]. cbn. rewrite lookup_insert_ne; [done|]. intros ->. done.
  - intros q q' y y' [[-> ->]|[Hne Hy]]%Hb [[-> ->]|[Hne' Hy']]%Hb Heq Hn; try done; try (cbn in *; congruence).
    by apply (co_private _ Hs q q' y y').
  - intros h l q Hl Hq. destruct (co_chain _ Hs h l q Hl Hq) as (x & Hx & Hk). exists x. split; [|done]. cbn.
    rewrite lookup_insert_ne; [done|]. intros ->. congruence.
  - apply Hs.
  - intros q q' y y' Hq Hq' [[-> ->]|[Hne Hy]]%Hb [[-> ->]|[Hne' Hy']]%Hb; [done|..|by apply (co_unique _ Hs q q' y y')].
    all: by destruct (not_in_cache s p Hs Hnone).
Qed.

Lemma cache_insert s p x : cache_ok s → inodes s !! p = Some x → ¬ in_cache s p →
  (∀ q y, in_cache s q → inodes s !! q = Some y → ¬ (i_sb y = i_sb x ∧ i_ino y = i_ino x)) →
  ∃ s', inode_hash_insert p s = Ret s' ∧ cache_ok s' ∧ inodes s' = inodes s ∧ steady s s' ∧ (∀ q, in_cache s' q ↔ in_cache s q ∨ q = p) ∧
    vheap s' = vheap s.
Proof.
  intros Hs Hx Hni Huq. unfold inode_hash_insert. rewrite (get_inode_ok p s x Hx), outcome_bind_ret.
  destruct (chain_of s (i_ino x) (i_sb x) Hs) as (l & Hl). rewrite Hl. cbn [access]. rewrite outcome_bind_ret.
  set (h := inode_hash (i_ino x) (i_sb x)) in *. set (s' := with_hash _ s).
  assert (∀ h' l', zlookup (hash_table s') h' = Some l' → h' = h ∧ l' = p :: l ∨ h' ≠ h ∧ zlookup (hash_table s) h' = Some l') as Hb.
  { intros h' l'. cbn. destruct (decide (h' = h)) as [->|Hne].
    - rewrite zlookup_zinsert_eq by (by eapply zlookup_Some_lt). naive_solver.
    - rewrite zlookup_zinsert_ne by done. naive_solver. }
  assert (∀ q, in_cache s' q ↔ in_cache s q ∨ q = p) as Hin.
  { intros q. split.
    - intros (h' & l' & [[-> ->]|[Hne Hl']]%Hb & Hq); [|by left; exists h', l'].
      apply elem_of_cons in Hq as [->|Hq]; [by right|by left; exists h, l].
    - intros [(h' & l' & Hl' & Hq)| ->].
      + destruct (decide (h' = h)) as [->|Hne].
        * exists h, (p :: l). cbn. rewrite zlookup_zinsert_eq by (by eapply zlookup_Some_lt). split; [done|]. right. congruence.
        * exists h', l'. cbn. by rewrite zlookup_zinsert_ne by done.
      + exists h, (p :: l). cbn. rewrite zlookup_zinsert_eq by (by eapply zlookup_Some_lt). split; [done|]. left. }
  exists s'. split_and!; try done; [|by apply steady_same]. split.
  - cbn. rewrite length_zinsert. apply Hs.
  - intros q y Hy. destruct (co_inode _ Hs q y Hy) as [? ? ? ? ? ? ?]. split; try done; [by eapply usable_frame; [..|done]|].
    by apply (data_frame y y s).
  - apply Hs.
  - intros h' l' q [[-> ->]|[Hne Hl']]%Hb; [|by apply (co_chain _ Hs)].
    intros [->|Hq]%elem_of_cons; [by exists x|by apply (co_chain _ Hs h l)].
  - intros h' l' [[-> ->]|[Hne Hl']]%Hb; [|by apply (co_nodup _ Hs h')].
    apply NoDup_cons. split; [|by apply (co_nodup _ Hs h)]. intros Hq. apply Hni. by exists h, l.
  - intros q q' y y' [Hq| ->]%Hin [Hq'| ->]%Hin Hy Hy' E1 E2; [by apply (co_unique _ Hs q q' y y')|..|done].
    + replace y' with x in * by (cbn in Hy'; congruence). by destruct (Huq q y Hq Hy).
    + replace y with x in * by (cbn in Hy; congruence). by destruct (Huq q' y' Hq' Hy').
Qed.

Definition one (p q : Z) : Z := if p =? 0 then 0 else if q =? p then 1 else 0.
Record got s s' (p sb ino : Z) : Prop := {
  gt_ok : cache_ok s'; gt_steady : steady s s';
  gt_refs q : refs s' q = refs s q + one p q;
  gt_found : p ≠ 0 → in_cache s' p ∧ ∃ x, inodes s' !! p = Some x ∧ i_sb x = sb ∧ i_ino x = ino;
  gt_other q : q ≠ p → inodes s' !! q = inodes s !! q ∧ (in_cache s' q ↔ in_cache s q);
  gt_hit q x : in_cache s q → inodes s !! q = Some x → i_sb x = sb → i_ino x = ino → p = q;
  gt_spare a : spare s a → spare s' a }.

Lemma refs_set p x s m : inodes s !! p = Some x → ∀ q, refs (with_inodes (<[p := m]> (inodes s)) s) q =
  if q =? p then i_count m else refs s q.
Proof.
  intros Hx q. unfold refs. cbn. destruct (Z.eqb_spec q p) as [->|Hne]; [by rewrite lookup_insert_eq|by rewrite lookup_insert_ne].
Qed.
Lemma refs_at p x s : inodes s !! p = Some x → refs s p = i_count x.
Proof. unfold refs. by intros ->. Qed.
Lemma set_count_ok s p x n : cache_ok s → inodes s !! p = Some x → 0 ≤ n < 2 ^ 32 →
  let s' := with_inodes (<[p := set_icount n x]> (inodes s)) s in
  cache_ok s' ∧ steady s s' ∧ (∀ q, in_cache s' q ↔ in_cache s q) ∧ (∀ q, refs s' q = if q =? p then n else refs s q).
Proof.
  intros Hs Hx Hn s'. assert (steady s s') as Hst by (by apply steady_same). split_and!; [|done|done|by apply (refs_set p x)].
  apply (cache_like s s'); try done. intros q. cbn. destruct (decide (q = p)) as [->|Hne].
  - rewrite lookup_insert_eq, Hx. by constructor.
  - rewrite lookup_insert_ne by done. destruct (inodes s !! q) as [y|] eqn:Hy; constructor. split_and!; try done; apply (io_count _ _ _ (co_inode _ Hs q y Hy)).
Qed.
Lemma spare_set_count s p x n a : inodes s !! p = Some x → spare s a → spare (with_inodes (<[p := set_icount n x]> (inodes s)) s) a.
Proof.
  intros Hx (Ha0 & Hal & Hai & Hap). split_and!; [done|done|cbn; rewrite lookup_insert_ne by congruence; done|].
  intros q y. cbn. destruct (decide (q = p)) as [->|Hne]; [rewrite lookup_insert_eq; intros [= <-]; exact (Hap p x Hx)|].
  rewrite lookup_insert_ne by done. apply Hap.
Qed.
Lemma upd_inode_ok p f s x : inodes s !! p = Some x → upd_inode p f s = Ret (with_inodes (<[p := f x]> (inodes s)) s).
Proof. intros Hx. unfold upd_inode. by rewrite (get_inode_ok p s x), outcome_bind_ret. Qed.

Lemma iget_hit s p x sb ino : cache_ok s → in_cache s p → inodes s !! p = Some x → i_sb x = sb → i_ino x = ino → i_count x + 1 < 2 ^ 32 →
  upd_inode p incr_count s = Ret (with_inodes (<[p := incr_count x]> (inodes s)) s) ∧
  got s (with_inodes (<[p := incr_count x]> (inodes s)) s) p sb ino.
Proof.
  intros Hs Hin Hx E1 E2 Hc. pose proof (co_inode _ Hs p x Hx) as [Hnz _ _ _ Hcnt _ _]. split; [by apply upd_inode_ok|].
  unfold incr_count. rewrite u32_small by lia.
  destruct (set_count_ok s p x (i_count x + 1) Hs Hx ltac:(lia)) as (H1 & H2 & H3 & H4). split; try done.
  - intros q. rewrite H4. unfold one. destruct (Z.eqb_spec p 0); [done|]. destruct (Z.eqb_spec q p) as [->|]; [|lia]. by rewrite (refs_at p x).
  - intros _. split; [by apply H3|]. exists (set_icount (i_count x + 1) x). split_and!; [cbn; apply lookup_insert_eq|done..].
  - intros q Hq. split; [cbn; by rewrite lookup_insert_ne|apply H3].
  - intros q y Hq Hy F1 F2. apply (co_unique _ Hs p q x y); congruence.
  - intros a. by apply spare_set_count.
Qed.

(** [vfs_iget] on a number that is not cached *)
Lemma iget_miss s sb ino : cache_ok s → sb ≠ 0 → usable sb s → 0 ≤ ino →
  (∀ p x, in_cache s p → inodes s !! p = Some x → ¬ (i_sb x = sb ∧ i_ino x = ino)) →
  ∃ p s', (let '(p, s) := vfs_alloc_inode sb s in
    if p =? 0 then Ret (0, s) else
    s ← upd_inode p (set_ino ino) s;
    x ← get_super sb s;
    rs ← (if s_op x then fs_read_inode sb p s else Ret (0, s));
    let '(result, s) := rs : Z * vfs_state P in
    if negb (result =? 0) then s ← vfs_free_inode p s; Ret (0, s) else
    s ← inode_hash_insert p s; Ret (p, s)) = Ret (p, s') ∧ got s s' p sb ino.
Proof.
  intros Hs Hsb Hu Hino Hno. destruct (cache_alloc s sb ino Hs Hsb Hu) as [(k & ->)|(p & s' & -> & Hp & Hnone & -> & Hs1 & Hst1 & Hh1 & Hsp1)].
  { eexists 0, _. split; [done|]. split; try done; [|by apply steady_same|intros q; unfold one; rewrite Z.eqb_refl; unfold refs; cbn; lia|naive_solver].
    apply (cache_like s); try done; [by apply steady_same|]. intros q. cbn. destruct (inodes s !! q) as [y|] eqn:Hy; constructor.
    split_and!; try done; apply (io_count _ _ _ (co_inode _ Hs q y Hy)). }
  destruct (Z.eqb_spec p 0); [done|]. rewrite outcome_bind_ret. set (s1 := with_inodes _ s') in *.
  assert (inodes s1 !! p = Some (new_inode sb ino)) as Hx1 by (cbn; apply lookup_insert_eq).
  destruct (usable_super sb s1) as [y Hy]; [by apply Hst1|]. unfold get_super. rewrite Hy. cbn [access]. rewrite outcome_bind_ret.
  assert (∃ r s2, (if s_op y then fs_read_inode sb p s1 else Ret (0, s1)) = Ret (r, s2) ∧ fills p s1 s2 ∧ (∀ sb', usable sb' s1 → usable sb' s2) ∧
    (∀ y, inodes s2 !! p = Some y → data_ok y s2) ∧ (∀ z, i_private z ∈ live (vheap s1) → data_ok z s1 → data_ok z s2))
    as (r & s2 & -> & Hfl & Hus & Hd1 & Hd2).
  { destruct (s_op y); [apply (read_inode_law sb p s1 (new_inode sb ino)); [by apply Hst1|done..]|].
    exists 0, s1. split_and!; try done; [|intros z Hz; by apply (io_data _ _ _ (co_inode _ Hs1 p z Hz))].
    split; try done. intros x Hx. exists x. split_and!; try done. by left. }
  rewrite outcome_bind_ret. pose proof (steady_fills p s1 s2 Hfl Hus) as Hst2. assert (is_Some (inodes s1 !! p)) as Hsp by (by eexists).
  destruct (cache_fills p s1 s2 Hs1 Hfl Hsp Hst2 Hd1 Hd2) as [Hs2 Hh2]. destruct (fl_key _ _ _ Hfl _ Hx1) as (x2 & Hx2 & (E1 & E2 & E3) & _).
  assert (∀ q, q ≠ p → inodes s2 !! q = inodes s !! q) as Ho.
  { intros q Hq. rewrite (fl_other _ _ _ Hfl) by done. cbn. by rewrite lookup_insert_ne. }
  assert (∀ q, in_cache s2 q ↔ in_cache s q) as Hin by (intros q; unfold in_cache; by rewrite Hh2, Hh1).
  assert (¬ in_cache s p) as Hnp by (by apply not_in_cache).
  destruct (negb (r =? 0)).
  - destruct (cache_free p s2 x2 Hs2 Hx2) as (s3 & -> & Hs3 & Hi3 & Hst3 & Hin3 & Hsp3). rewrite outcome_bind_ret.
    assert (∀ q, inodes s3 !! q = inodes s !! q) as Hsame.
    { intros q. rewrite Hi3. destruct (decide (q = p)) as [->|Hne]; [by rewrite lookup_delete_eq|by rewrite lookup_delete_ne, Ho]. }
    eexists 0, _. split; [done|]. split; try done.
    + transitivity s1; [done|]. by transitivity s2.
    + intros q. unfold refs, one. rewrite Hsame. cbn. lia.
    + intros q _. split; [done|]. rewrite Hin3, Hin. naive_solver.
    + naive_solver.
    + intros a Ha. by apply Hsp3, (spare_fills p s1 s2 a Hfl Hsp), Hsp1.
  - destruct (cache_insert s2 p x2 Hs2 Hx2) as (s3 & -> & Hs3 & Hi3 & Hst3 & Hin3 & Hv3).
    { by rewrite Hin. }
    { intros q z Hq Hz. rewrite E1, E2. cbn. apply (Hno q z); [by apply Hin|]. rewrite <- Ho; [done|]. intros ->. by apply Hnp, Hin. }
    rewrite outcome_bind_ret. eexists p, _. split; [done|]. split; try done.
    + transitivity s1; [done|]. by transitivity s2.
    + intros q. unfold refs, one. rewrite Hi3. destruct (Z.eqb_spec p 0); [done|]. destruct (Z.eqb_spec q p) as [->|Hne].
      * rewrite Hx2, Hnone. cbn. rewrite E3. done.
      * rewrite Ho by done. lia.
    + intros _. split; [apply Hin3; by right|]. exists x2. rewrite Hi3, E1, E2. done.
    + intros q Hq. rewrite Hi3, Ho, Hin3, Hin by done. split; [done|]. naive_solver.
    + naive_solver.
    + intros a Ha. unfold spare. rewrite Hi3, Hv3. by apply (spare_fills p s1 s2 a Hfl Hsp), Hsp1.
Qed.

Definition counts_below (n : Z) s : Prop := ∀ p, refs s p + n < 2 ^ 32.
Lemma iget_spec s sb ino : cache_ok s → counts_below 1 s → sb ≠ 0 → usable sb s → 0 ≤ ino →
  ∃ p s', vfs_iget sb ino s = Ret (p, s') ∧ got s s' p sb ino.
Proof.
  intros Hs Hc Hsb Hu Hino. unfold vfs_iget. destruct (Z.eqb_spec sb 0); [done|]. destruct (chain_of s ino sb Hs) as (l & Hl).
  rewrite Hl. cbn [access]. rewrite outcome_bind_ret.
  destruct (find_cached s ino sb l Hs Hl) as [(p & x & -> & Hin & Hx & E1 & E2)|[-> Hno]]; rewrite outcome_bind_ret.
  - destruct (Z.eqb_spec p 0) as [E|]; [by destruct (io_nz _ _ _ (co_inode _ Hs p x Hx))|]. cbn [negb].
    destruct (iget_hit s p x sb ino Hs Hin Hx E1 E2) as [-> Hg]; [specialize (Hc p); by rewrite (refs_at p x) in Hc|].
    rewrite outcome_bind_ret. by eexists _, _.
  - rewrite Z.eqb_refl. cbn [negb]. by apply iget_miss.
Qed.

(** ** Putting an inode *)
Record put s s' (p : Z) : Prop := {
  pt_ok : cache_ok s'; pt_steady : steady s s'; pt_refs q : refs s' q = refs s q - one p q;
  pt_other q x : q ≠ p → inodes s !! q = Some x → inodes s' !! q = Some x ∧ (in_cache s' q ↔ in_cache s q);
  pt_kept x : inodes s !! p = Some x → 1 < i_count x → inodes s' !! p = Some (set_icount (i_count x - 1) x) ∧ (in_cache s' p ↔ in_cache s p);
  pt_gone : refs s p = 1 → inodes s' !! p = None }.
Lemma iput_spec s p x : cache_ok s → inodes s !! p = Some x → 0 < i_count x → ∃ s', vfs_iput p s = Ret s' ∧ put s s' p.
Proof.
  intros Hs Hx Hc. pose proof (co_inode _ Hs p x Hx) as [Hnz _ Hsb Hu Hcnt _ Hdx]. unfold vfs_iput.
  destruct (Z.eqb_spec p 0); [done|]. rewrite (upd_inode_ok p _ s x Hx), outcome_bind_ret.
  destruct (Z.ltb_spec 0 (i_count x)); [|lia].
  destruct (set_count_ok s p x (i_count x - 1) Hs Hx ltac:(lia)) as (Hs1 & Hst1 & Hin1 & Hrf1). set (s1 := with_inodes _ s) in *.
  set (x1 := set_icount (i_count x - 1) x) in *. assert (inodes s1 !! p = Some x1) as Hx1 by (cbn; apply lookup_insert_eq).
  rewrite (get_inode_ok p s1 x1 Hx1), outcome_bind_ret. change (i_count x1) with (i_count x - 1). change (i_sb x1) with (i_sb x).
  destruct (Z.eqb_spec (i_count x - 1) 0) as [Hz|Hz]; cbn [andb].
  2: { rewrite outcome_bind_ret, (get_inode_ok p s1 x1 Hx1), outcome_bind_ret. change (i_count x1) with (i_count x - 1).
    destruct (Z.eqb_spec (i_count x - 1) 0); [done|]. exists s1. split; [done|]. split; try done.
    - intros q. rewrite Hrf1. unfold one. destruct (Z.eqb_spec p 0); [done|]. destruct (Z.eqb_spec q p) as [->|]; [by rewrite (refs_at p x)|lia].
    - intros q y Hq Hy. split; [cbn; by rewrite lookup_insert_ne|apply Hin1].
    - intros y Hy _. replace y with x by congruence. by split; [|apply Hin1].
    - rewrite (refs_at p x) by done. lia. }
  assert (∃ s2, (if negb (Z.land (i_state x1) I_DIRTY =? 0) then if i_sb x =? 0 then Ret s1 else
      sb ← get_super (i_sb x) s1; if s_op sb then rs ← fs_write_inode (i_sb x) p s1; Ret (snd (rs : Z * vfs_state P)) else Ret s1
      else Ret s1) = Ret s2 ∧ cache_ok s2 ∧ steady s1 s2 ∧ hash_table s2 = hash_table s1 ∧ (∀ q, q ≠ p → inodes s2 !! q = inodes s1 !! q) ∧
      ∃ x2, inodes s2 !! p = Some x2 ∧ i_count x2 = 0) as (s2 & -> & Hs2 & Hst2 & Hh2 & Ho2 & x2 & Hx2 & Hc2).
  { destruct (negb (Z.land (i_state x1) I_DIRTY =? 0)); [|exists s1; split_and!; try done; exists x1; split; done].
    destruct (Z.eqb_spec (i_sb x) 0); [done|]. destruct (usable_super (i_sb x) s1) as [y Hy]; [by apply Hst1|].
    unfold get_super. rewrite Hy. cbn [access]. rewrite outcome_bind_ret. destruct (s_op y); [|exists s1; split_and!; try done; exists x1; split; done].
    destruct (write_inode_law (i_sb x) p s1 x1) as (r & s2 & -> & Hfl & Hus & Hd1 & Hd2);
      [by apply Hst1|done|done|by apply (io_data _ _ _ (co_inode _ Hs1 p x1 Hx1))|]. rewrite outcome_bind_ret.
    pose proof (steady_fills p s1 s2 Hfl Hus) as Hst2. destruct (cache_fills p s1 s2 Hs1 Hfl) as [Hs2 Hh2]; [by eexists|done|done|done|].
    destruct (fl_key _ _ _ Hfl x1 Hx1) as (x2 & Hx2 & (_ & _ & E) & _). exists s2. split_and!; try done; [apply Hfl|]. exists x2.
    split; [done|]. rewrite E. done. }
  rewrite outcome_bind_ret, (get_inode_ok p s2 x2 Hx2), outcome_bind_ret. destruct (Z.eqb_spec (i_count x2) 0); [|done].
  destruct (cache_free p s2 x2 Hs2 Hx2) as (s3 & -> & Hs3 & Hi3 & Hst3 & Hin3 & _). exists s3. split; [done|].
  assert (∀ q, q ≠ p → inodes s3 !! q = inodes s !! q) as Ho3.
  { intros q Hq. rewrite Hi3, lookup_delete_ne, Ho2 by done. cbn. by rewrite lookup_insert_ne. }
  split; try done.
  - transitivity s1; [done|]. by transitivity s2.
  - intros q. unfold one. destruct (Z.eqb_spec p 0); [done|]. destruct (Z.eqb_spec q p) as [->|Hne].
    + rewrite (refs_at p x s Hx). unfold refs. rewrite Hi3, lookup_delete_eq. cbn. lia.
    + unfold refs. rewrite Ho3 by done. lia.
  - intros q y Hq Hy. rewrite Ho3 by done. split; [done|]. rewrite Hin3. unfold in_cache. rewrite Hh2. fold (in_cache s1 q).
    rewrite Hin1. split; [by intros [? _]|done].
  - intros y Hy. replace y with x by congruence. lia.
  - intros _. rewrite Hi3. apply lookup_delete_eq.
Qed.

(** ** Blocks that are no inodes *)
Lemma cache_same s s' : cache_ok s → inodes s' = inodes s → hash_table s' = hash_table s → live (vheap s) ⊆ live (vheap s') →
  (∀ sb, usable sb s → usable sb s') → (∀ x, data_ok x s → data_ok x s') → cache_ok s'.
Proof.
  intros Hs Hi Hh Hv Hu Hd. split; unfold in_cache; rewrite ?Hi, ?Hh; try apply Hs.
  intros p x Hx. destruct (co_inode _ Hs p x Hx) as [? ? ? ? ? Hpr ?].
  split; rewrite ?Hi; try done; [by apply Hv|by apply Hu| |by apply Hd].
  intros Hn. destruct (Hpr Hn). auto.
Qed.
Lemma cache_frame s s' : cache_ok s → inodes s' = inodes s → hash_table s' = hash_table s → live (vheap s) ⊆ live (vheap s') →
  supers s' = supers s → priv s' = priv s → cache_ok s'.
Proof.
  intros Hs Hi Hh Hv Hsu Hp. apply (cache_same s); try done; [intros sb; by apply usable_frame|intros x; by apply data_frame].
Qed.
Lemma cache_vmalloc s : cache_ok s →
  ∃ a h, vmalloc s = (a, with_vheap h s) ∧ cache_ok (with_vheap h s) ∧ (a ≠ 0 → spare (with_vheap h s) a) ∧ (∀ b, spare s b → spare (with_vheap h s) b).
Proof.
  intros Hs. unfold vmalloc. destruct (heap_answer_spec (vheap s)) as (a & k & -> & Hf). set (h := mk_kheap _ k).
  assert (live (vheap s) ⊆ live h) as Hl by (cbn; destruct (a =? 0); set_solver). exists a, h. split; [done|]. split_and!.
  - by apply (cache_frame s).
  - intros Ha. specialize (Hf Ha). assert (∀ b, b ∈ live (vheap s) → b ≠ a) as Hne by (intros b Hb ->; done). split_and!; [done| | |].
    + cbn. destruct (Z.eqb_spec a 0); set_solver.
    + cbn. destruct (inodes s !! a) as [x|] eqn:Hx; [|done]. by destruct Hf; apply (io_live _ _ _ (co_inode _ Hs a x Hx)).
    + intros p x Hx. destruct (decide (i_private x = 0)); [congruence|]. by apply Hne, (io_private _ _ _ (co_inode _ Hs p x Hx)).
  - intros b (? & ? & ? & ?). split_and!; try done. by apply Hl.
Qed.
Lemma cache_vfree s a : cache_ok s → spare s a → cache_ok (vfree a s).
Proof.
  intros Hs (_ & _ & Hai & Hap). destruct Hs as [? Hin ? ? ? ?]. split; try done. intros p x Hx. destruct (Hin p x Hx) as [? ? ? ? ? Hpr ?].
  split; try done; [cbn; set_solver|by apply (usable_frame _ s)| |by apply (data_frame x x s)].
  intros Hn. destruct (Hpr Hn). split; [|done]. cbn. specialize (Hap p x Hx). set_solver.
Qed.
Lemma steady_vheap h s : steady s (with_vheap h s).
Proof. by apply steady_same. Qed.
End cache.

Class InodeLaws (P : Type) `{SuperLaws P, InodeOps P} := {
  lookup_law dir name s x : cache_ok s → counts_below 1 s → inodes s !! dir = Some x → vfs_is_dir x = true → i_op x = dir_inode_ops →
    ∃ r n s', fs_lookup dir name s = Ret (r, n, s') ∧ cache_ok s' ∧ steady s s' ∧
      ∀ q, refs s' q = refs s q + if r =? 0 then one n q else 0 }.

Section paths.
Context {P : Type} `{InodeLaws P}.
Implicit Types (s : vfs_state P).

Lemma refs_some s p : cache_ok s → 0 < refs s p → ∃ x, inodes s !! p = Some x ∧ p ≠ 0 ∧ i_count x = refs s p.
Proof.
  intros Hs. unfold refs. destruct (inodes s !! p) as [x|] eqn:Hx; cbn; [|lia]. intros _. exists x.
  split_and!; [done|by eapply io_nz, co_inode|done].
Qed.
Lemma refs_nonneg s p : cache_ok s → 0 ≤ refs s p.
Proof.
  intros Hs. unfold refs. destruct (inodes s !! p) as [x|] eqn:Hx; cbn; [|lia]. apply (io_count _ _ _ (co_inode _ Hs p x Hx)).
Qed.
Lemma one_self p : p ≠ 0 → one p p = 1.
Proof. intros Hp. unfold one. destruct (Z.eqb_spec p 0); [done|]. by rewrite Z.eqb_refl. Qed.
Lemma one_range p q : 0 ≤ one p q ≤ 1.
Proof. unfold one. destruct (p =? 0), (q =? p); lia. Qed.

(** [gained r q]: the reference a walk that ends with [r] adds to [q] *)
Definition gained (r : option Z) (q : Z) : Z := match r with Some p => one p q | None => 0 end.
Lemma iput_refs s p : cache_ok s → 0 < refs s p → ∃ s', vfs_iput p s = Ret s' ∧ cache_ok s' ∧ steady s s' ∧ ∀ q, refs s' q = refs s q - one p q.
Proof.
  intros Hs Hp. destruct (refs_some s p Hs Hp) as (x & Hx & _ & Hc). destruct (iput_spec s p x Hs Hx ltac:(lia)) as (s' & Hr & [? ? ? _ _ _]).
  by exists s'.
Qed.
Lemma follow_balanced l s cur : cache_ok s → counts_below (Z.of_nat (length l) + 1) s → 0 < refs s cur →
  ∃ r s', follow l cur s = Ret (r, s') ∧ cache_ok s' ∧ steady s s' ∧ (∀ q, refs s' q = refs s q - one cur q + gained r q) ∧
    (∀ p, r = Some p → 0 < refs s' p).
Proof.
  revert s cur. induction l as [|name l IH]; intros s cur Hs Hb Hc; cbn [follow].
  - exists (Some cur), s. split_and!; try done; [intros q; cbn; lia|naive_solver].
  - assert (counts_below (Z.of_nat (length l) + 2) s) as Hb2 by (intros p; specialize (Hb p); cbn [length] in Hb; lia).
    destruct (skipped name). { apply IH; try done. intros p. specialize (Hb2 p). lia. }
    destruct (refs_some s cur Hs Hc) as (x & Hx & Hnz & _). rewrite (get_inode_ok cur s x Hx), outcome_bind_ret.
    assert (∀ s1, cache_ok s1 → steady s s1 → (∀ q, refs s1 q = refs s q) → ∃ r s', (s2 ← vfs_iput cur s1; Ret (None, s2)) = Ret (r, s') ∧
      cache_ok s' ∧ steady s s' ∧ (∀ q, refs s' q = refs s q - one cur q + gained r q) ∧ (∀ p, r = Some p → 0 < refs s' p)) as Hfail.
    { intros s1 Hs1 Hst1 Hr1. destruct (iput_refs s1 cur Hs1) as (s2 & -> & Hs2 & Hst2 & Hr2); [by rewrite Hr1|].
      exists None, s2. split_and!; try done; [by transitivity s1|]. intros q. rewrite Hr2, Hr1. cbn. lia. }
    destruct (vfs_is_dir x) eqn:Hd; cbn [negb orb]; [|by apply (Hfail s)].
    destruct (bool_decide (i_op x = no_inode_ops)) eqn:Hop; [by apply (Hfail s)|]. apply bool_decide_eq_false in Hop.
    assert (i_op x = dir_inode_ops) as Hop' by (by destruct (i_op x)).
    destruct (lookup_law cur name s x Hs) as (r & n & s1 & -> & Hs1 & Hst1 & Hr1); [intros p; specialize (Hb2 p); lia|done..|].
    rewrite outcome_bind_ret. pose proof (refs_nonneg s cur Hs).
    destruct (negb (r =? 0) || (n =? 0)) eqn:Hbad.
    { apply Hfail; try done. intros q. rewrite Hr1. destruct (Z.eqb_spec r 0); [|lia]. cbn [negb orb] in Hbad.
      unfold one. rewrite Hbad. lia. }
    apply orb_false_iff in Hbad as [Hr0%negb_false_iff Hn0%Z.eqb_neq]. rewrite Hr0 in Hr1.
    pose proof (one_range n cur). destruct (iput_refs s1 cur Hs1) as (s2 & -> & Hs2 & Hst2 & Hr2); [rewrite Hr1; lia|]. rewrite outcome_bind_ret.
    destruct (IH s2 n Hs2) as (r' & s3 & -> & Hs3 & Hst3 & Hr3 & Hp3).
    + intros p. rewrite Hr2, Hr1. specialize (Hb2 p). pose proof (one_range n p). pose proof (one_range cur p). lia.
    + rewrite Hr2, Hr1, one_self by done. destruct (decide (n = cur)) as [->|Hne]; [rewrite one_self by done; lia|].
      pose proof (refs_nonneg s n Hs). unfold one. destruct (Z.eqb_spec cur 0), (Z.eqb_spec n cur); lia.
    + exists r', s3. split_and!; try done; [transitivity s1; [done|]; by transitivity s2|]. intros q. rewrite Hr3, Hr2, Hr1. lia.
Qed.

Lemma pieces_length r path : (length (pieces r path) ≤ S (length path))%nat.
Proof.
  revert r. induction path as [|c rest IH]; intros r; [done|]. cbn [pieces]. destruct (c =? SLASH).
  - cbn [length]. specialize (IH 255%nat). lia.
  - assert (∀ l, length (cons_hd c l) ≤ S (Nat.pred (length l)))%nat as Hl by (intros []; cbn; lia). destruct r as [|r].
    + cbn [length]. specialize (Hl (pieces 254 rest)). specialize (IH 254%nat). lia.
    + specialize (Hl (pieces r rest)). specialize (IH r). cbn [length]. lia.
Qed.
Lemma names_length path : (length (names path) ≤ S (length path))%nat.
Proof. unfold names. etransitivity; [apply length_filter|apply pieces_length]. Qed.

(** A file system is mounted at the root. *)
Record rooted s : Prop := {
  rt_sb : root_sb s ≠ 0; rt_root : ∃ sb x, supers s !! root_sb s = Some sb ∧ s_root sb ≠ 0 ∧ inodes s !! s_root sb = Some x }.
Lemma path_lookup_balanced path s : cache_ok s → rooted s → counts_below (Z.of_nat (length path) + 3) s →
  ∃ r s', vfs_path_lookup path s = Ret (Some (r, s')) ∧ cache_ok s' ∧ steady s s' ∧ (∀ q, refs s' q = refs s q + gained r q) ∧
    (∀ p, r = Some p → 0 < refs s' p).
Proof.
  intros Hs [Hr0 (sb & x & Hsb & Hrt & Hx)] Hb. unfold vfs_path_lookup. destruct (Z.eqb_spec (root_sb s) 0); [done|].
  unfold get_super. rewrite Hsb. cbn [access]. rewrite outcome_bind_ret. destruct (Z.eqb_spec (s_root sb) 0); [done|].
  rewrite (upd_inode_ok _ _ s x Hx), outcome_bind_ret. pose proof (io_count _ _ _ (co_inode _ Hs _ _ Hx)) as Hcx.
  pose proof (Hb (s_root sb)) as Hbx. rewrite (refs_at _ x s Hx) in Hbx.
  unfold incr_count. rewrite u32_small by lia. set (p0 := s_root sb) in *.
  destruct (set_count_ok s p0 x (i_count x + 1) Hs Hx ltac:(lia)) as (Hs1 & Hst1 & _ & Hr1). set (s1 := with_inodes _ s) in *.
  assert (∀ q, refs s1 q = refs s q + one p0 q) as Hr1'.
  { intros q. rewrite Hr1. unfold one. destruct (Z.eqb_spec p0 0); [done|]. destruct (Z.eqb_spec q p0) as [->|]; [by rewrite (refs_at _ x s Hx)|lia]. }
  rewrite path_walk_follow, names_skip_slash by (pose proof (skip_slash_length path); lia).
  destruct (follow_balanced (names path) s1 p0 Hs1) as (r & s' & -> & Hs' & Hst' & Hr' & Hp').
  - intros p. rewrite Hr1'. specialize (Hb p). pose proof (one_range p0 p). pose proof (names_length path). lia.
  - rewrite Hr1', one_self by done. pose proof (refs_nonneg s p0 Hs). lia.
  - rewrite outcome_bind_ret. exists r, s'. split_and!; try done; [by transitivity s1|]. intros q. rewrite Hr', Hr1'. lia.
Qed.

(** ** Opening and closing *)
Lemma open_inode_run p flags s : cache_ok s → 0 < refs s p → counts_below 1 s →
  ∀ f s1, vfs_open_inode p flags s = Ret (0, f, s1) → ∃ s2, vfs_close f s1 = Ret (0, s2) ∧ ∀ q, refs s2 q = refs s q.
Proof.
  intros Hs Hp Hb f s1. destruct (refs_some s p Hs Hp) as (x & Hx & Hnz & Hxc). unfold vfs_open_inode, vfs_alloc_file.
  destruct (Z.eqb_spec p 0); [done|]. destruct (cache_vmalloc s Hs) as (a & h & -> & Hs1 & Hsp & _).
  destruct (Z.eqb_spec a 0) as [E|E]; [done|]. cbn [fst snd]. rewrite (proj2 (Z.eqb_neq a 0) E). set (s2 := with_all_files _ _ _).
  assert (cache_ok s2) as Hs2 by (by apply (cache_frame (with_vheap h s))).
  assert (inodes s2 !! p = Some x) as Hx2 by done. rewrite (get_inode_ok p s2 x Hx2), outcome_bind_ret.
  unfold upd_file, get_file. cbn [s2 files with_all_files with_files]. rewrite lookup_insert_eq. cbn [access]. rewrite !outcome_bind_ret.
  set (fl := mk_file p _ _ _ _ _). set (s3 := with_files _ s2). rewrite (upd_inode_ok p _ s3 x Hx2), outcome_bind_ret.
  assert (cache_ok s3) as Hs3 by (by apply (cache_frame s2)). unfold incr_count.
  specialize (Hb p). rewrite (refs_at p x s Hx) in Hb. pose proof (io_count _ _ _ (co_inode _ Hs p x Hx)). rewrite u32_small by lia.
  destruct (set_count_ok s3 p x (i_count x + 1) Hs3 Hx2 ltac:(lia)) as (Hs4 & _ & _ & Hr4). set (s4 := with_inodes _ s3) in *.
  intros [= <- <-]. unfold vfs_close, vfs_file_put. rewrite (proj2 (Z.eqb_neq a 0) E). unfold upd_file, get_file.
  assert (files s4 !! a = Some fl) as -> by (cbn; apply lookup_insert_eq). cbn [access]. rewrite !outcome_bind_ret.
  cbn [f_count fl Z.ltb Z.compare set_fcount]. set (s5 := with_files _ s4).
  assert (files s5 !! a = Some (set_fcount 0 fl)) as Hf5 by (cbn; apply lookup_insert_eq). rewrite Hf5. cbn [access]. rewrite outcome_bind_ret.
  cbn [f_count set_fcount Z.eqb]. unfold vfs_free_file, get_file. rewrite (proj2 (Z.eqb_neq a 0) E), Hf5. cbn [access]. rewrite outcome_bind_ret.
  cbn [f_inode set_fcount fl]. destruct (Z.eqb_spec p 0); [done|]. set (s6 := with_all_files _ _ s5).
  assert (cache_ok s6) as Hs6 by (by apply (cache_frame s4)). assert (∀ q, refs s6 q = refs s4 q) as Hr6 by done.
  destruct (iput_refs s6 p Hs6) as (s7 & -> & _ & _ & Hr7); [rewrite Hr6, Hr4, Z.eqb_refl; lia|]. rewrite !outcome_bind_ret.
  eexists. split; [done|]. intros q. transitivity (refs s7 q); [done|]. rewrite Hr7, Hr6, Hr4. unfold one.
  destruct (Z.eqb_spec p 0); [done|]. destruct (Z.eqb_spec q p) as [->|]; [rewrite (refs_at p x s Hx); lia|].
  change (refs s3 q) with (refs s q). lia.
Qed.

(** Opening a file takes one reference by the path and one by the file, and closing it puts
    only the latter: every open that succeeds leaves the inode with a reference too many. *)
Theorem open_close_leaks_reference path flags s f s1 : cache_ok s → rooted s → counts_below (Z.of_nat (length path) + 3) s →
  vfs_open path flags s = Ret (Some (0, f, s1)) →
  ∃ p s2, vfs_close f s1 = Ret (0, s2) ∧ p ≠ 0 ∧ ∀ q, refs s2 q = refs s q + one p q.
Proof.
  intros Hs Hrt Hb. unfold vfs_open. destruct (path_lookup_balanced path s Hs Hrt Hb) as (r & s0 & -> & Hs0 & _ & Hr0 & Hp0).
  rewrite outcome_bind_ret. destruct r as [p|]; [|done]. specialize (Hp0 p eq_refl). destruct (refs_some s0 p Hs0 Hp0) as (x & _ & Hnz & _).
  destruct (Z.eqb_spec p 0); [done|]. destruct (_ && _); [by destruct (vfs_iput p s0)|].
  destruct (vfs_open_inode p flags s0) as [[[r f'] s0']|] eqn:Ho; [|done]. rewrite outcome_bind_ret. destruct (Z.eqb_spec r 0) as [->|]; cbn [negb].
  2: { destruct (vfs_iput p s0'); [|done]. rewrite outcome_bind_ret. naive_solver. }
  intros [= <- <-]. destruct (open_inode_run p flags s0 Hs0 Hp0) with (f := f') (s1 := s0') as (s2 & Hc & Hr2); [|done|].
  - intros q. rewrite Hr0. specialize (Hb q). cbn. pose proof (one_range p q). lia.
  - exists p, s2. split_and!; try done. intros q. rewrite Hr2, Hr0. done.
Qed.
End paths.

Section path_claims.
Context {P : Type} `{InodeLaws P}.
Implicit Types (s : vfs_state P).

(** C30: over every file system that keeps [SuperLaws], the inode cache implements a map from
    superblock and inode number to one shared inode with a count of its references.
    [vfs_iget] never faults and keeps the invariant; it gives the cached inode when there is
    one, otherwise a new one that is cached under its number, or 0, adds one reference to it
    and leaves all other inodes alone. Putting it takes that reference back and frees the inode
    with its private data exactly when the last one goes. *)
Theorem vfs_iget_iput_refine_cache s sb ino : cache_ok s → counts_below 1 s → sb ≠ 0 → usable sb s → 0 ≤ ino →
  ∃ p s', vfs_iget sb ino s = Ret (p, s') ∧ got s s' p sb ino ∧
    (p ≠ 0 → ∃ s'', vfs_iput p s' = Ret s'' ∧ put s' s'' p ∧ ∀ q, refs s'' q = refs s q).
Proof.
  intros Hs Hc Hsb Hu Hino. destruct (iget_spec s sb ino Hs Hc Hsb Hu Hino) as (p & s' & Hr & Hg). exists p, s'. split_and!; [done..|].
  intros Hp. destruct (gt_found _ _ _ _ _ Hg Hp) as (_ & x & Hx & _).
  pose proof (gt_refs _ _ _ _ _ Hg p) as Hrp. rewrite (refs_at p x s' Hx), one_self in Hrp by done. pose proof (refs_nonneg s p Hs).
  destruct (iput_spec s' p x (gt_ok _ _ _ _ _ Hg) Hx) as (s'' & Hr' & Hp'); [lia|]. exists s''. split_and!; [done..|].
  intros q. rewrite (pt_refs _ _ _ Hp'), (gt_refs _ _ _ _ _ Hg). lia.
Qed.
End path_claims.

(** ** What files and mounts get wrong *)
Section deviations.
Context {P : Type}.
Implicit Types (s : vfs_state P).

(** Seeking backwards from the end of a file fails whenever the result lies behind the current
    position, as it does in a file that was just opened. *)
Theorem lseek_from_end_rejected p x i offset s : p ≠ 0 → files s !! p = Some x → f_inode x ≠ 0 → inodes s !! f_inode x = Some i →
  0 ≤ f_pos x < i_size i + offset → offset < 0 → i_size i < 2 ^ 64 → vfs_lseek p offset SEEK_END s = Ret (-1, s).
Proof.
  intros Hp Hx Hi0 Hi Hpos Ho Hsz. unfold vfs_lseek, get_file. destruct (Z.eqb_spec p 0); [done|]. rewrite Hx. cbn [access]. rewrite outcome_bind_ret.
  destruct (Z.eqb_spec (f_inode x) 0); [done|]. rewrite (get_inode_ok _ s i Hi), outcome_bind_ret. change (SEEK_END =? SEEK_SET) with false.
  change (SEEK_END =? SEEK_CUR) with false. change (SEEK_END =? SEEK_END) with true. cbn [orb negb]. rewrite (u64_small (i_size i + offset)) by lia. destruct (Z.ltb_spec offset 0), (Z.ltb_spec (f_pos x) (i_size i + offset)); try lia. done.
Qed.

(** A file opened with [O_WRONLY] can be read and not written: the access mode is masked with
    [O_RDWR], which does not contain that bit. *)
Theorem write_only_file_is_read_only p flags s f s' x : Z.land flags O_RDWR = 0 → vfs_open_inode p flags s = Ret (0, f, s') → files s' !! f = Some x →
  Z.land (f_mode x) FMODE_WRITE = 0 ∧ Z.land (f_mode x) FMODE_READ ≠ 0.
Proof.
  intros Hf. unfold vfs_open_inode. destruct (p =? 0); [done|]. unfold vfs_alloc_file. destruct (vmalloc s) as [q s1]. destruct (q =? 0) eqn:Hq.
  { done. } rewrite Hq. set (s2 := with_all_files _ _ _). destruct (get_inode p s2) as [i|] eqn:Hi; [|done]. rewrite outcome_bind_ret.
  unfold upd_file, get_file. cbn [s2 files with_all_files with_files]. rewrite lookup_insert_eq. cbn [access]. rewrite !outcome_bind_ret, Hf. cbn [Z.eqb].
  destruct (upd_inode p _ _) as [s3|] eqn:Hu; [|done]. rewrite outcome_bind_ret. intros [= <- <-]. unfold upd_inode in Hu.
  destruct (get_inode p _) as [j|]; [|done]. rewrite outcome_bind_ret in Hu. injection Hu as <-. cbn. rewrite lookup_insert_eq. intros [= <-]. done.
Qed.
Lemma o_wronly_has_no_rdwr : Z.land O_WRONLY O_RDWR = 0.
Proof. reflexivity. Qed.

(** A mount answers for every path that begins with its text, also in the middle of a name. *)
Theorem mount_matches_inside_name m path s : 0 < Z.of_nat (length path) → mounts s = [m] → ∀ sb rest, mount_recs s !! m = Some (mk_mount sb path) →
  vfs_get_mount (path ++ rest) s = Ret m.
Proof.
  intros Hl Hm sb rest Hr. unfold vfs_get_mount. rewrite Hm. cbn [best_mount]. rewrite Hr. cbn [access]. rewrite outcome_bind_ret. cbn [m_path].
  rewrite take_app_length, bool_decide_true by done. destruct (Z.ltb_spec 0 (Z.of_nat (length path))); [done|lia].
Qed.
End deviations.
