(* ===== verification/Ext2.v ===== *)
(** * The ext2 file system: [kernel/fs/ext2]

    Structures on disk are decoded from the bytes a read puts into its buffer, at the
    offsets of the packed structures of [ext2_internal.h]; reading outside a buffer
    faults, and so does a division by zero. The superblock copy, the group
    descriptors and the private data of inodes are heap blocks of their own. *)
From S2P Require Import Prelude Bits Mem E820 Block Vfs.
Import E820 Block Vfs.

Module Ext2.

Definition EXT2_SUPERBLOCK_OFFSET := 1024.
Definition EXT2_SUPERBLOCK_MAGIC := 0xEF53.
Definition EXT2_GOOD_OLD_INODE_SIZE := 128.
Definition EXT2_ROOT_INO := 2.
Definition EXT2_NDIR_BLOCKS := 12.
Definition EXT2_IND_BLOCK := 12.

(** ** Structures on disk *)
Record ext2_superblock := mk_sb {
  s_inodes_count : Z; s_blocks_count : Z; s_free_blocks_count : Z; s_free_inodes_count : Z; s_first_data_block : Z;
  s_log_block_size : Z; s_blocks_per_group : Z; s_inodes_per_group : Z; sb_magic : Z; s_inode_size : Z }.
Record ext2_inode := mk_dinode {
  d_mode : Z; d_size : Z; d_dtime : Z; d_links_count : Z; d_blocks : Z; d_flags : Z; d_block : list Z; d_file_acl : Z; d_dir_acl : Z }.
Record ext2_dir_entry := mk_dirent { de_inode : Z; de_rec_len : Z; de_name_len : Z; de_file_type : Z }.

Definition decode_superblock (m : list Z) : outcome ext2_superblock :=
  inodes ← read_le 4 0 m; blocks ← read_le 4 4 m; free_blocks ← read_le 4 12 m; free_inodes ← read_le 4 16 m;
  first ← read_le 4 20 m; log ← read_le 4 24 m; bpg ← read_le 4 32 m; ipg ← read_le 4 40 m;
  magic ← read_le 2 56 m; isize ← read_le 2 88 m;
  Ret (mk_sb inodes blocks free_blocks free_inodes first log bpg ipg magic isize).
Fixpoint read_words (n : nat) (off : Z) (m : list Z) : outcome (list Z) :=
  match n with
  | O => Ret []
  | S n' => w ← read_le 4 off m; ws ← read_words n' (off + 4) m; Ret (w :: ws)
  end.
Definition decode_inode (off : Z) (m : list Z) : outcome ext2_inode :=
  mode ← read_le 2 off m; size ← read_le 4 (off + 4) m; dtime ← read_le 4 (off + 20) m; links ← read_le 2 (off + 26) m;
  blocks ← read_le 4 (off + 28) m; flags ← read_le 4 (off + 32) m; ptrs ← read_words 15 (off + 40) m;
  facl ← read_le 4 (off + 104) m; dacl ← read_le 4 (off + 108) m;
  Ret (mk_dinode mode size dtime links blocks flags ptrs facl dacl).
Definition decode_dirent (off : Z) (m : list Z) : outcome ext2_dir_entry :=
  i ← read_le 4 off m; rec ← read_le 2 (off + 4) m; nl ← read_le 2 (off + 6) m; ft ← read_le 1 (off + 8) m;
  Ret (mk_dirent i rec nl ft).
(** The offset of [name] in a directory entry *)
Definition NAME_OFF := 9.

(** ** Structures in memory *)
Record ext2_fs_info := mk_fs {
  fs_sb : Z; fs_bg_desc : Z; ngroups : Z; block_size : Z; inode_size : Z; inodes_per_group : Z; blocks_per_group : Z;
  device : Z; first_data_block : Z }.
Record ext2_inode_info := mk_ei { i_data : list Z; i_flags : Z; i_file_acl : Z; i_dir_acl : Z; i_dtime : Z }.
Record ext2_state (M : Type) := mk_ext2 {
  blk : block_state M; fs_infos : gmap Z ext2_fs_info; sbs : gmap Z ext2_superblock; bg_descs : gmap Z (list Z);
  infos : gmap Z ext2_inode_info }.
Arguments mk_ext2 {M}. Arguments blk {M}. Arguments fs_infos {M}. Arguments sbs {M}. Arguments bg_descs {M}. Arguments infos {M}.

Section ext2.
Context {M : Type} `{AtaDriver M}.
Notation st := (vfs_state (ext2_state M)).
Implicit Types (s : st) (e : ext2_state M).

Definition on_priv (f : ext2_state M → ext2_state M) s : st := with_priv (f (priv s)) s.
Definition set_blk (x : block_state M) e : ext2_state M := mk_ext2 x (fs_infos e) (sbs e) (bg_descs e) (infos e).
Definition set_fs_infos (x : gmap Z ext2_fs_info) e : ext2_state M := mk_ext2 (blk e) x (sbs e) (bg_descs e) (infos e).
Definition set_sbs (x : gmap Z ext2_superblock) e : ext2_state M := mk_ext2 (blk e) (fs_infos e) x (bg_descs e) (infos e).
Definition set_bg_descs (x : gmap Z (list Z)) e : ext2_state M := mk_ext2 (blk e) (fs_infos e) (sbs e) x (infos e).
Definition set_infos (x : gmap Z ext2_inode_info) e : ext2_state M := mk_ext2 (blk e) (fs_infos e) (sbs e) (bg_descs e) x.

Definition divu (a b : Z) : outcome Z := if b =? 0 then Fail Fault else Ret (a / b).
Definition modu (a b : Z) : outcome Z := if b =? 0 then Fail Fault else Ret (a mod b).
Definition dev_read (d sector n : Z) s : outcome (Z * list Z * st) :=
  r ← block_read_sync d sector n (blk (priv s));
  let '(result, bytes, b) := r : Z * list Z * block_state M in
  Ret (result, bytes, on_priv (set_blk b) s).
Definition get_fs_info (sb : Z) s : outcome (option ext2_fs_info) :=
  x ← get_super sb s;
  if s_fs_info x =? 0 then Ret None else i ← access (fs_infos (priv s) !! s_fs_info x); Ret (Some i).

(** ** Block addressing *)
(** The result and the block number *)
Definition ext2_get_block (p offset : Z) s : outcome (Z * Z * st) :=
  x ← get_inode p s;
  if i_private x =? 0 then Ret (-1, 0, s) else
  ei ← access (infos (priv s) !! i_private x);
  fi ← get_fs_info (i_sb x) s;
  match fi with
  | None => Ret (-1, 0, s)
  | Some fs =>
      n ← divu offset (block_size fs);
      let block_in_file := u32 n in
      if i_size x <=? offset then Ret (-1, 0, s) else
      if block_in_file <? EXT2_NDIR_BLOCKS then b ← access (zlookup (i_data ei) block_in_file); Ret (0, b, s) else
      let block_in_file := block_in_file - EXT2_NDIR_BLOCKS in
      if block_in_file <? block_size fs / 4 then
        let '(buf, s) := vmalloc s in
        if buf =? 0 then Ret (-1, 0, s) else
        ind_block ← access (zlookup (i_data ei) EXT2_IND_BLOCK);
        let sectors_per_block := block_size fs / 512 in
        if ind_block =? 0 then Ret (-1, 0, vfree buf s) else
        r ← dev_read (device fs) (ind_block ⊠ sectors_per_block) sectors_per_block s;
        let '(result, indirect, s) := r : Z * list Z * st in
        if negb (result =? s32 sectors_per_block) then Ret (-1, 0, vfree buf s) else
        b ← read_le 4 (4 * block_in_file) indirect;
        Ret (0, b, vfree buf s)
      else Ret (-1, 0, s)
  end.

(** ** Inodes *)
Definition set_attrs (d : ext2_inode) (x : vfs_inode) : vfs_inode :=
  mk_inode (i_sb x) (i_ino x) (d_links_count d) (d_mode d) (d_size d) (d_blocks d) (i_count x) (i_state x) (i_op x) (i_fop x) (i_private x).
Definition set_ops (x : vfs_inode) : vfs_inode :=
  let '(op, fop) := match vfs_mode_to_type (i_mode x) with
                    | V_DIR => (dir_inode_ops, dir_ops) | V_REG => (no_inode_ops, file_ops) | _ => (no_inode_ops, no_file_ops) end in
  mk_inode (i_sb x) (i_ino x) (i_nlink x) (i_mode x) (i_size x) (i_blocks x) (i_count x) (i_state x) op fop (i_private x).
Definition inode_info (d : ext2_inode) : ext2_inode_info := mk_ei (d_block d) (d_flags d) (d_file_acl d) (d_dir_acl d) (d_dtime d).
Definition ext2_read_inode (sb p : Z) s : outcome (Z * st) :=
  fi ← get_fs_info sb s;
  match fi with
  | None => Ret (-1, s)
  | Some fs =>
      esb ← access (sbs (priv s) !! fs_sb fs);
      x ← get_inode p s;
      let ino := i_ino x in
      if (ino =? 0) || (s_inodes_count esb <? ino) then Ret (-1, s) else
      g ← divu (ino - 1) (s_inodes_per_group esb);
      let group := u32 g in
      if ngroups fs <=? group then Ret (-1, s) else
      bgd ← access (bg_descs (priv s) !! fs_bg_desc fs);
      inode_table_block ← read_le 4 (32 * group + 8) bgd;
      i ← modu (ino - 1) (s_inodes_per_group esb);
      let inode_offset := u32 (u32 i * inode_size fs) in
      let '(buf, s) := vmalloc s in
      if buf =? 0 then Ret (-1, s) else
      table_block_offset ← divu inode_offset (block_size fs);
      let inode_block := u32 (inode_table_block + table_block_offset) in
      offset_in_block ← modu inode_offset (block_size fs);
      let sectors_per_block := block_size fs / 512 in
      r ← dev_read (device fs) (inode_block ⊠ sectors_per_block) sectors_per_block s;
      let '(result, block_buffer, s) := r : Z * list Z * st in
      if negb (result =? s32 sectors_per_block) then Ret (-1, vfree buf s) else
      d ← decode_inode offset_in_block block_buffer;
      s ← upd_inode p (set_attrs d) s;
      let '(ei, s) := vmalloc s in
      if ei =? 0 then Ret (-1, vfree buf s) else
      let s := on_priv (λ e, set_infos (<[ei := inode_info d]> (infos e)) e) s in
      s ← upd_inode p (set_iprivate ei) s;
      let s := vfree buf s in
      s ← upd_inode p set_ops s;
      Ret (0, s)
  end.
(** Not implemented in the source: they report and do nothing. *)
Definition ext2_write_inode (sb p : Z) s : outcome (Z * st) := Ret (0, s).
Definition ext2_alloc_inode (sb p : Z) s : outcome (Z * st) := Ret (-1, s).
Definition ext2_destroy_inode (p : Z) s : outcome st :=
  if p =? 0 then Ret s else
  x ← get_inode p s;
  if i_private x =? 0 then Ret s else
  let s := on_priv (λ e, set_infos (delete (i_private x) (infos e)) e) s in
  upd_inode p (set_iprivate 0) (vfree (i_private x) s).

(** ** Reading a file

    [acc] are the bytes read so far; every round reads at least one more. *)
Fixpoint read_loop (fs : ext2_fs_info) (fuel : nat) (p count pos : Z) (acc : list Z) s : outcome (option (list Z * st)) :=
  match fuel with
  | O => Ret None
  | S fuel' =>
      let total := Z.of_nat (length acc) in
      if count <=? total then Ret (Some (acc, s)) else
      r ← ext2_get_block p (pos ⊞ total) s;
      let '(result, block_num, s) := r : Z * Z * st in
      if result <? 0 then Ret (Some (acc, s)) else
      if block_num =? 0 then Ret (Some (acc, s)) else
      block_offset ← modu (pos ⊞ total) (block_size fs);
      let bytes_in_block := u32 (block_size fs - block_offset) in
      let bytes_to_read := u32 (count - total) in
      let bytes_to_read := if bytes_in_block <? bytes_to_read then bytes_in_block else bytes_to_read in
      let '(buf, s) := vmalloc s in
      if buf =? 0 then Ret (Some (acc, s)) else
      let sectors_per_block := block_size fs / 512 in
      r ← dev_read (device fs) (block_num ⊠ sectors_per_block) sectors_per_block s;
      let '(result, block_data, s) := r : Z * list Z * st in
      if negb (result =? s32 sectors_per_block) then Ret (Some (acc, vfree buf s)) else
      chunk ← (if block_offset + bytes_to_read <=? Z.of_nat (length block_data)
               then Ret (take (Z.to_nat bytes_to_read) (drop (Z.to_nat block_offset) block_data)) else Fail Fault);
      read_loop fs fuel' p count pos (acc ++ chunk) (vfree buf s)
  end.
(** The result, the bytes, and the new position *)
Definition ext2_file_read (p count pos : Z) s : outcome (option (Z * list Z * Z * st)) :=
  x ← get_inode p s;
  if negb (vfs_is_reg x) then Ret (Some (-1, [], pos, s)) else
  fi ← get_fs_info (i_sb x) s;
  match fi with
  | None => Ret (Some (-1, [], pos, s))
  | Some fs =>
      if i_size x <=? pos then Ret (Some (0, [], pos, s)) else
      let remaining := i_size x - pos in
      let count := if remaining <? count then remaining else count in
      r ← read_loop fs (S (Z.to_nat count)) p count pos [] s;
      match r : option (list Z * st) with
      | None => Ret None
      | Some (bytes, s) => Ret (Some (Z.of_nat (length bytes), bytes, pos ⊞ Z.of_nat (length bytes), s))
      end
  end.
Definition ext2_file_write (p : Z) (buffer : list Z) (pos : Z) s : outcome (Z * Z * st) := Ret (-1, pos, s).

(** ** Directories *)
(** [strncmp(bytes, name, n) == 0]: the bytes lie in the buffer from [off] on. *)
Fixpoint name_matches (n : nat) (off : Z) (m name : list Z) : outcome bool :=
  match n with
  | O => Ret true
  | S n' =>
      c ← access (zlookup m off);
      match name with
      | [] => Ret (c =? 0)
      | d :: rest => if negb (c =? d) then Ret false else if c =? 0 then Ret true else name_matches n' (off + 1) m rest
      end
  end.
(** The first data block of a directory and its buffer; [None] for an error, [Some None] if it
    has none. *)
Definition dir_block (p : Z) (fs : ext2_fs_info) s : outcome (option (option (list Z * Z)) * st) :=
  r ← ext2_get_block p 0 s;
  let '(result, block, s) := r : Z * Z * st in
  if negb (result =? 0) then Ret (None, s) else
  if block =? 0 then Ret (Some None, s) else
  let '(buf, s) := vmalloc s in
  if buf =? 0 then Ret (None, s) else
  let sectors_per_block := block_size fs / 512 in
  r ← dev_read (device fs) (block ⊠ sectors_per_block) sectors_per_block s;
  let '(result, bytes, s) := r : Z * list Z * st in
  if negb (result =? s32 sectors_per_block) then Ret (None, vfree buf s) else Ret (Some (Some (bytes, buf)), s).
(** The inode number of the entry with that name; 0 when there is none. *)
Fixpoint dir_search (fuel : nat) (offset bsize : Z) (m name : list Z) : outcome (option Z) :=
  match fuel with
  | O => Ret None
  | S fuel' =>
      if negb (offset <? u32 (bsize - 12)) then Ret (Some 0) else
      d ← decode_dirent offset m;
      if de_inode d =? 0 then Ret (Some 0) else
      if de_rec_len d =? 0 then Ret (Some 0) else
      let next := u32 (offset + de_rec_len d) in
      if (de_name_len d =? 0) || (255 <? de_name_len d) then dir_search fuel' next bsize m name else
      eq ← name_matches (Z.to_nat (de_name_len d)) (offset + NAME_OFF) m name;
      if eq && (Z.of_nat (length name) =? de_name_len d) then Ret (Some (de_inode d)) else dir_search fuel' next bsize m name
  end.

(** ** Superblocks *)
Definition ext2_put_super (sb : Z) s : outcome st :=
  x ← get_super sb s;
  if s_fs_info x =? 0 then Ret s else
  fs ← access (fs_infos (priv s) !! s_fs_info x);
  let s := if fs_bg_desc fs =? 0 then s else
    vfree (fs_bg_desc fs) (on_priv (λ e, set_bg_descs (delete (fs_bg_desc fs) (bg_descs e)) e) s) in
  let s := if fs_sb fs =? 0 then s else vfree (fs_sb fs) (on_priv (λ e, set_sbs (delete (fs_sb fs) (sbs e)) e) s) in
  b ← (if device fs =? 0 then Ret (blk (priv s)) else block_device_put (device fs) (blk (priv s)));
  let s := on_priv (set_blk b) s in
  let s := vfree (s_fs_info x) (on_priv (λ e, set_fs_infos (delete (s_fs_info x) (fs_infos e)) e) s) in
  upd_super sb (λ x, mk_super (s_dev x) (s_blocksize x) (s_magic x) (s_fsname x) (s_root x) (s_blocks x) (s_bfree x) (s_files x)
                       (s_ffree x) 0 (s_op x) (s_count x)) s.
Definition ext2_statfs (sb : Z) s : outcome (Z * option statfs) :=
  fi ← get_fs_info sb s;
  match fi with
  | None => Ret (-1, None)
  | Some fs =>
      esb ← access (sbs (priv s) !! fs_sb fs);
      Ret (0, Some (mk_statfs EXT2_SUPERBLOCK_MAGIC (block_size fs) (s_blocks_count esb) (s_free_blocks_count esb)
                      (s_inodes_count esb) (s_free_inodes_count esb) 255))
  end.
#[export] Instance ext2_super_ops : SuperOps (ext2_state M) := {|
  fs_read_inode := ext2_read_inode; fs_write_inode := ext2_write_inode; fs_destroy_inode := ext2_destroy_inode;
  fs_put_super := ext2_put_super; fs_statfs := ext2_statfs |}.

(** The result and the inode; [None] of the search is a walk that does not end. *)
Definition ext2_lookup (dir : Z) (name : list Z) s : outcome (Z * Z * st) :=
  x ← get_inode dir s;
  if negb (vfs_is_dir x) then Ret (-1, 0, s) else
  fi ← get_fs_info (i_sb x) s;
  match fi with
  | None => Ret (-1, 0, s)
  | Some fs =>
      if i_private x =? 0 then Ret (-1, 0, s) else
      r ← dir_block dir fs s;
      match r : option (option (list Z * Z)) * st with
      | (Some (Some (bytes, buf)), s) =>
          ino ← dir_search (S (Z.to_nat (block_size fs))) 0 (block_size fs) bytes name;
          ino ← access (ino : option Z);
          if ino =? 0 then Ret (-1, 0, vfree buf s) else
          r ← vfs_iget (i_sb x) ino s;
          let '(p, s) := r : Z * st in
          Ret (if p =? 0 then -1 else 0, p, vfree buf s)
      | (_, s) => Ret (-1, 0, s)
      end
  end.

(** ** Listing a directory

    [filldir] is given a name, its length, the position, the inode number and the type; it
    returns the new contents of the caller's buffer, or [None] to stop. *)
Fixpoint readdir_loop {A} (filldir : A → list Z → Z → Z → Z → Z → option A) (fuel : nat) (offset bsize : Z) (m : list Z)
    (a : A) (pos : Z) : outcome (option (A * Z)) :=
  match fuel with
  | O => Ret None
  | S fuel' =>
      if negb (offset <? u32 (bsize - 12)) then Ret (Some (a, pos)) else
      d ← decode_dirent offset m;
      if (de_inode d =? 0) || (de_rec_len d =? 0) then Ret (Some (a, pos)) else
      let name_len := if 255 <? de_name_len d then 255 else de_name_len d in
      name ← (if offset + NAME_OFF + name_len <=? Z.of_nat (length m)
              then Ret (take (Z.to_nat name_len) (drop (Z.to_nat (offset + NAME_OFF)) m)) else Fail Fault);
      match filldir a name name_len pos (de_inode d) (de_file_type d) with
      | None => Ret (Some (a, pos))
      | Some a => readdir_loop filldir fuel' (u32 (offset + de_rec_len d)) bsize m a (pos ⊞ de_rec_len d)
      end
  end.
Definition ext2_readdir {A} (filldir : A → list Z → Z → Z → Z → Z → option A) (file : Z) (a : A) s : outcome (Z * A * st) :=
  f ← get_file file s;
  if f_inode f =? 0 then Ret (-1, a, s) else
  x ← get_inode (f_inode f) s;
  if negb (vfs_is_dir x) then Ret (-1, a, s) else
  fi ← get_fs_info (i_sb x) s;
  match fi with
  | None => Ret (-1, a, s)
  | Some fs =>
      if i_private x =? 0 then Ret (-1, a, s) else
      r ← dir_block (f_inode f) fs s;
      match r : option (option (list Z * Z)) * st with
      | (None, s) => Ret (-1, a, s)
      | (Some None, s) => Ret (0, a, s)
      | (Some (Some (bytes, buf)), s) =>
          ap ← readdir_loop filldir (S (Z.to_nat (block_size fs))) 0 (block_size fs) bytes a (f_pos f);
          ap ← access (ap : option (A * Z));
          s ← upd_file file (set_fpos (snd (ap : A * Z))) s;
          Ret (0, fst ap, vfree buf s)
      end
  end.

(** ** Mounting *)
(** The result and, on success, the superblock *)
Definition ext2_read_sb_raw (dev : Z) s : outcome (option ext2_superblock * st) :=
  r ← dev_read dev (EXT2_SUPERBLOCK_OFFSET / 512) 2 s;
  let '(result, bytes, s) := r : Z * list Z * st in
  if negb (result =? 2) then Ret (None, s) else
  esb ← decode_superblock bytes;
  Ret (if sb_magic esb =? EXT2_SUPERBLOCK_MAGIC then Some esb else None, s).
Definition EXT2_BLOCK_SIZE (esb : ext2_superblock) : Z := u32 (Z.shiftl 1024 (s_log_block_size esb)).
(** The address of the descriptors, 0 for an error *)
Definition ext2_read_bg_desc (fs : ext2_fs_info) s : outcome (Z * st) :=
  bg_desc_blocks ← divu (ngroups fs ⊠ 32 ⊞ block_size fs ⊟ 1) (block_size fs);
  let bg_desc_blocks := u32 bg_desc_blocks in
  let '(p, s) := vmalloc s in
  if p =? 0 then Ret (0, s) else
  let start_block := if block_size fs =? 1024 then 2 else 1 in
  let sectors_per_block := block_size fs / 512 in
  let num_sectors := u32 (bg_desc_blocks * sectors_per_block) in
  r ← dev_read (device fs) (start_block ⊠ sectors_per_block) num_sectors s;
  let '(result, bytes, s) := r : Z * list Z * st in
  if negb (result =? s32 num_sectors) then Ret (0, vfree p s) else
  Ret (p, on_priv (λ e, set_bg_descs (<[p := bytes]> (bg_descs e)) e) s).
Definition NAME_EXT2 : list Z := [101; 120; 116; 50].
(** Freeing what [ext2_mount] has allocated before it fails *)
Definition mount_undo (info esb dev : Z) s : outcome st :=
  let s := if esb =? 0 then s else vfree esb (on_priv (λ e, set_sbs (delete esb (sbs e)) e) s) in
  let s := vfree info (on_priv (λ e, set_fs_infos (delete info (fs_infos e)) e) s) in
  b ← block_device_put dev (blk (priv s)); Ret (on_priv (set_blk b) s).
Definition ext2_mount (sb : Z) s : outcome (Z * st) :=
  if sb =? 0 then Ret (-1, s) else
  x ← get_super sb s;
  r ← block_device_get (s32 (s_dev x)) (blk (priv s));
  let '(dev, b) := r : Z * block_state M in
  let s := on_priv (set_blk b) s in
  if dev =? 0 then Ret (-1, s) else
  let '(info, s) := vmalloc s in
  if info =? 0 then b ← block_device_put dev (blk (priv s)); Ret (-1, on_priv (set_blk b) s) else
  let set_fs f s := on_priv (λ e, set_fs_infos (<[info := f]> (fs_infos e)) e) s in
  let s := set_fs (mk_fs 0 0 0 0 0 0 0 dev 0) s in
  let '(p, s) := vmalloc s in
  if p =? 0 then s ← mount_undo info 0 dev s; Ret (-1, s) else
  r ← ext2_read_sb_raw dev s;
  let '(esb, s) := r : option ext2_superblock * st in
  match esb with
  | None => s ← mount_undo info 0 dev (vfree p s); Ret (-1, s)
  | Some esb =>
      let s := on_priv (λ e, set_sbs (<[p := esb]> (sbs e)) e) s in
      let bsize := EXT2_BLOCK_SIZE esb in
      let isize := if s_inode_size esb =? 0 then EXT2_GOOD_OLD_INODE_SIZE else s_inode_size esb in
      ng ← divu (u32 (s_blocks_count esb + s_blocks_per_group esb - 1)) (s_blocks_per_group esb);
      let fs := mk_fs p 0 ng bsize isize (s_inodes_per_group esb) (s_blocks_per_group esb) dev 0 in
      let s := set_fs fs s in
      r ← ext2_read_bg_desc fs s;
      let '(bg, s) := r : Z * st in
      if bg =? 0 then s ← mount_undo info p dev s; Ret (-1, s) else
      let first := if negb (s_first_data_block esb =? 0) then s_first_data_block esb else if 0 <? s_log_block_size esb then 0 else 1 in
      let s := set_fs (mk_fs p bg ng bsize isize (s_inodes_per_group esb) (s_blocks_per_group esb) dev first) s in
      s ← upd_super sb (λ x, mk_super (s_dev x) bsize EXT2_SUPERBLOCK_MAGIC NAME_EXT2 (s_root x) (s_blocks_count esb)
            (s_free_blocks_count esb) (s_inodes_count esb) (s_free_inodes_count esb) info true (s_count x)) s;
      r ← vfs_iget sb EXT2_ROOT_INO s;
      let '(root, s) := r : Z * st in
      if root =? 0 then s ← mount_undo info p dev s; Ret (-1, s) else
      rx ← get_inode root s;
      if negb (vfs_is_dir rx) then s ← vfs_iput root s; s ← mount_undo info p dev s; Ret (-1, s) else
      s ← upd_super sb (λ x, mk_super (s_dev x) (s_blocksize x) (s_magic x) (s_fsname x) root (s_blocks x) (s_bfree x) (s_files x)
            (s_ffree x) (s_fs_info x) (s_op x) (s_count x)) s;
      Ret (0, s)
  end.

#[export] Instance ext2_inode_ops : InodeOps (ext2_state M) := {| fs_lookup := ext2_lookup |}.
#[export] Instance ext2_file_ops : FileOps (ext2_state M) := {|
  fs_read := λ p count pos s, r ← ext2_file_read p count pos s; access (r : option (Z * list Z * Z * st));
  fs_write := ext2_file_write |}.
#[export] Instance ext2_mount_op : MountOp (ext2_state M) := {| fs_mount := ext2_mount |}.
End ext2.
End Ext2.
