(* ===== verification/Volume.v ===== *)
(** * Theorems on the ext2 file system ([kernel/fs/ext2])

    Over every disk driver that returns what is on the disk, whatever the heap and the
    disk refuse. *)
From S2P Require Import Prelude Bits Mem E820 Block Vfs Path Ext2.
Import E820 Block Vfs Ext2.

(** ** What the disk driver promises *)
Fixpoint sectors (f : Z → list Z) (lba : Z) (n : nat) : list Z :=
  match n with O => [] | S n' => f lba ++ sectors f (lba + 1) n' end.
(** A read that succeeds puts the sectors into the buffer, and no read changes the disk. A
    [healthy] driver refuses no read. *)
Class DiskLaws (M : Type) `{AtaDriver M} := {
  sector : Z → Z → M → list Z;
  healthy : M → Prop;
  sector_length dev lba m : length (sector dev lba m) = 512%nat;
  sector_byte dev lba m : Forall is_u8 (sector dev lba m);
  read_keeps dev lba n m dev' lba' : sector dev' lba' (snd (ata_read dev lba n m)) = sector dev' lba' m;
  read_data dev lba n m bytes : 0 < n < 2 ^ 16 → fst (ata_read dev lba n m) = Some bytes →
    bytes = sectors (λ i, sector dev i m) lba (Z.to_nat n);
  read_healthy dev lba n m : healthy m → 0 < n < 2 ^ 16 → is_Some (fst (ata_read dev lba n m)) ∧ healthy (snd (ata_read dev lba n m)) }.

Section volume.
Context {M : Type} `{DiskLaws M}.
Notation st := (vfs_state (ext2_state M)).
Implicit Types (s : st) (fs : ext2_fs_info).

Lemma length_sectors (f : Z → list Z) lba n : (∀ i, length (f i) = 512%nat) → length (sectors f lba n) = (n * 512)%nat.
Proof. intros Hf. revert lba. induction n as [|n IH]; intros lba; cbn [sectors]; [done|]. rewrite length_app, Hf, IH. lia. Qed.
Lemma sectors_ext f g lba n : (∀ i, f i = g i) → sectors f lba n = sectors g lba n.
Proof. intros He. revert lba. induction n as [|n IH]; intros lba; cbn [sectors]; [done|]. by rewrite He, IH. Qed.
Lemma Forall_sectors (Q : Z → Prop) f lba n : (∀ i, Forall Q (f i)) → Forall Q (sectors f lba n).
Proof. intros Hf. revert lba. induction n as [|n IH]; intros lba; cbn [sectors]; [done|]. by apply Forall_app. Qed.

(** ** Volumes *)
Record geometry fs : Prop := {
  ge_sectors : (512 | block_size fs); ge_size : 1024 ≤ block_size fs < 2 ^ 25;
  ge_inode : (inode_size fs | block_size fs); ge_inode_size : 128 ≤ inode_size fs }.
Record attached (e : ext2_state M) fs (a : ata_block_dev) : Prop := {
  at_nz : device fs ≠ 0;
  at_dev : ∃ d, devs (blk e) !! device fs = Some d ∧ has_ops d = true ∧ private_data d ≠ 0 ∧ atas (blk e) !! private_data d = Some a }.
Definition disk s : M := medium (blk (priv s)).
(** The bytes of block [b] *)
Definition block_bytes fs (a : ata_block_dev) (m : M) (b : Z) : list Z :=
  sectors (λ i, sector (ata_device a) i m) (b * (block_size fs / 512)) (Z.to_nat (block_size fs / 512)).

Lemma spb_range fs : geometry fs → 2 ≤ block_size fs / 512 < 2 ^ 16 ∧ block_size fs = 512 * (block_size fs / 512).
Proof. intros [[k Hk] Hr _ _]. rewrite Hk, Z.div_mul in * by lia. lia. Qed.
Lemma length_block fs a m b : geometry fs → Z.of_nat (length (block_bytes fs a m b)) = block_size fs.
Proof.
  intros Hg. destruct (spb_range fs Hg) as [Hr He]. unfold block_bytes. rewrite length_sectors by (intros; apply sector_length). lia.
Qed.
Lemma block_u8 fs a m b : Forall is_u8 (block_bytes fs a m b).
Proof. apply Forall_sectors. intros i. apply sector_byte. Qed.

(** ** What reading leaves as it is

    The disk keeps its contents, the heap its blocks. *)
Definition same_disk (m m' : M) : Prop := (∀ dev lba, sector dev lba m' = sector dev lba m) ∧ (healthy m → healthy m').
Definition tick (k : list Z) (m : M) s : st :=
  with_vheap (mk_kheap (live (vheap s)) k) (on_priv (set_blk (with_medium m (blk (priv s)))) s).
(** The heap grants the next [n] requests. *)
Definition plenty (n : nat) s : Prop :=
  (n ≤ length (answers (vheap s)))%nat ∧ Forall (λ a, a ≠ 0 ∧ a ∉ live (vheap s)) (take n (answers (vheap s))).
(** [n]: how many answers of the heap were used *)
Definition quiet (n : nat) s s' : Prop := ∃ m, s' = tick (drop n (answers (vheap s))) m s ∧ same_disk (disk s) m.

#[export] Instance same_disk_refl : Reflexive same_disk.
Proof. by split. Qed.
#[export] Instance same_disk_trans : Transitive same_disk.
Proof. intros m1 m2 m3 [Ha Ha'] [Hb Hb']. split; [intros d l; by rewrite Hb|auto]. Qed.
Lemma block_same fs a m m' b : same_disk m m' → block_bytes fs a m' b = block_bytes fs a m b.
Proof. intros [Hs _]. apply sectors_ext. intros i. apply Hs. Qed.
Lemma quiet_refl s : quiet 0 s s.
Proof.
  exists (disk s). split; [|done]. destruct s as [? ? ? ? ? ? ? ? ? ? ? ? ? ? [l k] [[? ? ? ? ? ?] ? ? ? ?]]. by cbv [tick on_priv with_priv with_vheap set_blk with_medium].
Qed.
Lemma quiet_trans i j s1 s2 s3 : quiet i s1 s2 → quiet j s2 s3 → quiet (i + j) s1 s3.
Proof.
  intros (m & -> & Hm) (m' & -> & Hm'). exists m'. split; [|by transitivity m]. unfold tick. cbn. by rewrite drop_drop.
Qed.
Lemma quiet_plenty i n s s' : quiet i s s' → plenty (i + n) s → plenty n s'.
Proof.
  intros (m & -> & _) [Hl Hf]. split; cbn; [rewrite length_drop; lia|]. rewrite take_drop_commute. by apply Forall_drop.
Qed.
Lemma quiet_healthy i s s' : quiet i s s' → healthy (disk s) → healthy (disk s').
Proof. intros (m & -> & _ & Hh). done. Qed.
Lemma quiet_block i s s' fs a b : quiet i s s' → block_bytes fs a (disk s') b = block_bytes fs a (disk s) b.
Proof. intros (m & -> & Hm). by apply block_same. Qed.

(** ** Reading a block *)
Lemma dev_read_block s fs a b : attached (priv s) fs a → geometry fs → 0 ≤ b < 2 ^ 32 →
  let spb := block_size fs / 512 in
  ∃ r bytes m, dev_read (device fs) (b ⊠ spb) spb s = Ret (r, bytes, on_priv (set_blk (with_medium m (blk (priv s)))) s) ∧ same_disk (disk s) m ∧
    ((r =? s32 spb) = true ∧ bytes = block_bytes fs a (disk s) b ∨ (r =? s32 spb) = false ∧ ¬ healthy (disk s)).
Proof.
  intros [Hnz (d & Hd & Hops & Hpd & Ha)] Hg Hb spb. destruct (spb_range fs Hg) as [Hr He]. fold spb in Hr, He.
  unfold dev_read, block_read_sync. destruct (Z.eqb_spec (device fs) 0); [done|]. unfold get_dev. rewrite Hd. cbn [access]. rewrite outcome_bind_ret, Hops.
  cbn [negb]. unfold ata_block_read, get_dev. rewrite Hd. cbn [access]. rewrite outcome_bind_ret. destruct (Z.eqb_spec (private_data d) 0); [done|].
  rewrite Ha. cbn [access]. rewrite outcome_bind_ret. unfold u16. rewrite (Z.mod_small spb) by lia. rewrite u64_small by nia. rewrite s32_small by lia.
  destruct (ata_read (ata_device a) (b * spb) spb (medium (blk (priv s)))) as [o m] eqn:Hrd.
  pose proof (read_data (ata_device a) (b * spb) spb (disk s)) as Hdat. pose proof (read_healthy (ata_device a) (b * spb) spb (disk s)) as Hhl.
  pose proof (λ d' l', read_keeps (ata_device a) (b * spb) spb (disk s) d' l') as Hk. unfold disk in *. rewrite Hrd in *. cbn [fst snd] in *.
  assert (same_disk (medium (blk (priv s))) m) as Hsd by (split; [done|intros Hh; apply Hhl; [done|lia]]).
  destruct o as [bytes|]; rewrite outcome_bind_ret.
  - exists spb, bytes, m. split; [done|]. split; [done|]. left. split; [apply Z.eqb_refl|]. rewrite (Hdat bytes) by (done || lia). done.
  - exists BLOCK_ERR_IO, [], m. split; [done|]. split; [done|]. right. split; [apply Z.eqb_neq; unfold BLOCK_ERR_IO; lia|].
    intros Hh. destruct (Hhl Hh) as [[? ?] _]; [lia|done].
Qed.
(** ** Buffers *)
Lemma vmalloc_cases s : ∃ a h, vmalloc s = (a, with_vheap h s) ∧
  (a = 0 ∧ quiet 1 s (with_vheap h s) ∧ ¬ plenty 1 s ∨
   a ≠ 0 ∧ head (answers (vheap s)) = Some a ∧ a ∉ live (vheap s) ∧ h = mk_kheap ({[ a ]} ∪ live (vheap s)) (drop 1 (answers (vheap s)))).
Proof.
  unfold vmalloc, kmalloc. set (a := default 0 (head (answers (vheap s)))).
  assert (∀ l : list Z, tail l = drop 1 l) as Ht by (by intros []). rewrite Ht.
  assert (quiet 1 s (with_vheap (mk_kheap (live (vheap s)) (drop 1 (answers (vheap s)))) s)) as Hq.
  { exists (disk s). split; [|done]. destruct s as [? ? ? ? ? ? ? ? ? ? ? ? ? ? ? [[? ? ? ? ? ?] ? ? ? ?]]. done. }
  assert ((a =? 0) || bool_decide (a ∈ live (vheap s)) = true → ¬ plenty 1 s) as Hno.
  { intros [E%Z.eqb_eq|E%bool_decide_eq_true]%orb_true_iff [Hl Hf]; destruct (answers (vheap s)) as [|x k]; cbn in Hl; [lia| |lia|];
      apply Forall_cons in Hf as [[? ?] _]; done. }
  destruct ((a =? 0) || bool_decide (a ∈ live (vheap s))) eqn:Hc.
  - eexists 0, _. split; [done|]. left. auto.
  - apply orb_false_iff in Hc as [?%Z.eqb_neq ?%bool_decide_eq_false]. eexists a, _. split; [done|]. right. split_and!; try done.
    unfold a in *. by destruct (answers (vheap s)).
Qed.
Lemma quiet_borrow s a h m : a ∉ live (vheap s) → h = mk_kheap ({[ a ]} ∪ live (vheap s)) (drop 1 (answers (vheap s))) → same_disk (disk s) m →
  quiet 1 s (vfree a (on_priv (set_blk (with_medium m (blk (priv s)))) (with_vheap h s))).
Proof.
  intros Ha -> Hm. exists m. split; [|done]. unfold vfree, tick, kfree. cbn.
  replace (({[a]} ∪ live (vheap s)) ∖ {[a]}) with (live (vheap s)) by set_solver. done.
Qed.
Lemma quiet_release s a h : a ∉ live (vheap s) → h = mk_kheap ({[ a ]} ∪ live (vheap s)) (drop 1 (answers (vheap s))) →
  quiet 1 s (vfree a (with_vheap h s)).
Proof.
  intros Ha Hh. pose proof (quiet_borrow s a h (disk s) Ha Hh ltac:(done)) as Hq. unfold disk in Hq.
  destruct s as [? ? ? ? ? ? ? ? ? ? ? ? ? ? ? [[? ? ? ? ? ?] ? ? ? ?]]. done.
Qed.

(** ** The blocks of a file *)
Definition le_value (l : list Z) : Z := foldr (λ b r, b + 256 * r) 0 l.
Definition word_at (l : list Z) (off : Z) : Z := le_value (take 4 (drop (Z.to_nat off) l)).
(** The reference: the number of the [n]-th block, [None] when nothing maps it *)
Definition file_block fs (a : ata_block_dev) (ei : ext2_inode_info) (m : M) (n : Z) : option Z :=
  if n <? 12 then zlookup (i_data ei) n else
  if n - 12 <? block_size fs / 4 then
    ind ← zlookup (i_data ei) 12; if ind =? 0 then None else Some (word_at (block_bytes fs a m ind) (4 * (n - 12)))
  else None.

Record mapped s (p : Z) (x : vfs_inode) fs (a : ata_block_dev) (ei : ext2_inode_info) : Prop := {
  mp_inode : inodes s !! p = Some x; mp_size : 0 ≤ i_size x < 2 ^ 32;
  mp_private : i_private x ≠ 0; mp_info : infos (priv s) !! i_private x = Some ei;
  mp_super : ∃ sb, supers s !! i_sb x = Some sb ∧ s_fs_info sb ≠ 0 ∧ fs_infos (priv s) !! s_fs_info sb = Some fs;
  mp_geometry : geometry fs; mp_attached : attached (priv s) fs a;
  mp_length : length (i_data ei) = 15%nat; mp_words : Forall is_u32 (i_data ei) }.
Lemma mapped_quiet i s s' p x fs a ei : quiet i s s' → mapped s p x fs a ei → mapped s' p x fs a ei.
Proof. intros (m & -> & _) [? ? ? ? ? ? [? ?] ? ?]. by split. Qed.
Lemma file_block_quiet i s s' fs a ei n : quiet i s s' → file_block fs a ei (disk s') n = file_block fs a ei (disk s) n.
Proof.
  intros Hq. unfold file_block. destruct (n <? 12); [done|]. destruct (_ <? _); [|done]. destruct (zlookup (i_data ei) 12) as [ind|]; [|done].
  cbn. by rewrite (quiet_block i s s' fs a ind Hq).
Qed.
Lemma get_fs_info_ok s sb x fs : supers s !! sb = Some x → s_fs_info x ≠ 0 → fs_infos (priv s) !! s_fs_info x = Some fs →
  get_fs_info sb s = Ret (Some fs).
Proof.
  intros Hx Hnz Hf. unfold get_fs_info, get_super. rewrite Hx. cbn [access]. rewrite outcome_bind_ret. destruct (Z.eqb_spec (s_fs_info x) 0); [done|].
  rewrite Hf. done.
Qed.
Lemma read_le_value n off l : 0 ≤ off → off + Z.of_nat n ≤ Z.of_nat (length l) →
  read_le n off l = Ret (le_value (take n (drop (Z.to_nat off) l))).
Proof.
  revert off. induction n as [|n IH]; intros off Ho Hl; cbn [read_le]; [by rewrite take_0|].
  destruct (zlookup_lt_is_Some l off) as [b Hb]; [lia|]. rewrite Hb. cbn [access]. rewrite outcome_bind_ret, IH by lia. rewrite outcome_bind_ret.
  rewrite zlookup_nonneg in Hb by lia. rewrite (drop_S l b (Z.to_nat off) Hb). cbn [take le_value foldr]. replace (S (Z.to_nat off)) with (Z.to_nat (off + 1)) by lia. done.
Qed.
Lemma le_value_range l n : Forall is_u8 l → (length l ≤ n)%nat → 0 ≤ le_value l < 256 ^ Z.of_nat n.
Proof.
  revert n. induction l as [|b l IH]; intros n Hf Hl; cbn [le_value foldr]; [split; [done|]; apply Z.pow_pos_nonneg; lia|].
  destruct n as [|n]; [cbn in Hl; lia|]. apply Forall_cons in Hf as [Hb Hf]. unfold is_u8 in Hb. specialize (IH n Hf ltac:(cbn in Hl; lia)).
  unfold le_value in IH. rewrite Nat2Z.inj_succ, Z.pow_succ_r by lia. lia.
Qed.
Lemma word_at_range l off : Forall is_u8 l → is_u32 (word_at l off).
Proof.
  intros Hf. pose proof (le_value_range (take 4 (drop (Z.to_nat off) l)) 4) as Hr. unfold is_u32, word_at.
  change (2 ^ 32) with (256 ^ Z.of_nat 4). apply Hr; [by apply Forall_take, Forall_drop|]. rewrite length_take. lia.
Qed.
Lemma file_block_u32 fs a ei m n b : Forall is_u32 (i_data ei) → file_block fs a ei m n = Some b → is_u32 b.
Proof.
  intros Hf. unfold file_block. destruct (n <? 12); [by apply Forall_zlookup|]. destruct (_ <? _); [|done]. destruct (zlookup _ 12) as [ind|]; [|done].
  cbn. destruct (ind =? 0); [done|]. intros [= <-]. apply word_at_range, block_u8.
Qed.

(** How [ext2_get_block] ends *)
Record block_found s s' x fs a ei (offset r b : Z) : Prop := {
  bf_quiet : ∃ i, (i ≤ 1)%nat ∧ quiet i s s';
  bf_result : r = 0 ∧ offset < i_size x ∧ file_block fs a ei (disk s) (offset / block_size fs) = Some b ∨ r = -1 ∧ b = 0;
  bf_refused : r = -1 → i_size x ≤ offset ∨ file_block fs a ei (disk s) (offset / block_size fs) = None ∨ ¬ (plenty 1 s ∧ healthy (disk s)) }.
Lemma get_block_spec s p x fs a ei offset : mapped s p x fs a ei → 0 ≤ offset →
  ∃ r b s', ext2_get_block p offset s = Ret (r, b, s') ∧ block_found s s' x fs a ei offset r b.
Proof.
  intros [Hx Hsz Hpr Hei (sb & Hsb & Hfn & Hfs) Hg Hat Hlen Hw] Hoff. pose proof (ge_size _ Hg) as Hbs. unfold ext2_get_block.
  rewrite (get_inode_ok p s x Hx), outcome_bind_ret. destruct (Z.eqb_spec (i_private x) 0) as [|_]; [done|]. rewrite Hei. cbn [access].
  rewrite outcome_bind_ret, (get_fs_info_ok s _ sb fs Hsb Hfn Hfs), outcome_bind_ret. unfold divu. destruct (Z.eqb_spec (block_size fs) 0) as [|_]; [lia|].
  rewrite outcome_bind_ret. destruct (Z.leb_spec (i_size x) offset) as [Hle|Hlt].
  { eexists _, _, _. split; [done|]. split; [exists 0%nat; split; [lia|apply quiet_refl]|by right|by left]. }
  set (n := offset / block_size fs). assert (0 ≤ n < 2 ^ 32) as Hn.
  { split; [apply Z.div_pos; lia|]. apply Z.div_lt_upper_bound; nia. }
  rewrite u32_small by done. unfold EXT2_NDIR_BLOCKS, EXT2_IND_BLOCK.
  assert (file_block fs a ei (disk s) n = if n <? 12 then zlookup (i_data ei) n else if n - 12 <? block_size fs / 4 then
    ind ← zlookup (i_data ei) 12; if ind =? 0 then None else Some (word_at (block_bytes fs a (disk s) ind) (4 * (n - 12))) else None) as Hfb by done.
  fold n. destruct (Z.ltb_spec n 12) as [H12|H12].
  { destruct (zlookup_lt_is_Some (i_data ei) n) as [b Hb]; [lia|]. rewrite Hb in Hfb |- *. cbn [access]. rewrite outcome_bind_ret.
    eexists 0, b, s. split; [done|]. split; [exists 0%nat; split; [lia|apply quiet_refl]|by left|done]. }
  destruct (Z.ltb_spec (n - 12) (block_size fs / 4)) as [Hin|Hin].
  2: { eexists _, _, _. split; [done|]. split; [exists 0%nat; split; [lia|apply quiet_refl]|by right|right; by left]. }
  destruct (vmalloc_cases s) as (buf & h & -> & [(-> & Hq & Hnp)|(Hb0 & _ & Hbl & Hh)]).
  { eexists _, _, _. split; [done|]. split; [by exists 1%nat|by right|intros _; right; right; by intros [? _]]. }
  destruct (Z.eqb_spec buf 0); [done|]. destruct (zlookup_lt_is_Some (i_data ei) 12) as [ind Hind]; [lia|]. rewrite Hind in Hfb |- *. cbn [access].
  cbn [mbind option_bind] in Hfb. rewrite outcome_bind_ret. destruct (Z.eqb_spec ind 0) as [Ei|Hi0].
  { eexists _, _, _. split; [done|]. split; [exists 1%nat; split; [lia|by apply quiet_release]|by right|right; by left]. }
  pose proof (Forall_zlookup _ _ _ _ Hw Hind) as Hiu. unfold is_u32 in Hiu.
  destruct (dev_read_block (with_vheap h s) fs a ind Hat Hg Hiu) as (r & bytes & m & -> & Hm & Hres). rewrite outcome_bind_ret.
  assert (quiet 1 s (vfree buf (on_priv (set_blk (with_medium m (blk (priv s)))) (with_vheap h s)))) as Hq by (by apply quiet_borrow).
  destruct Hres as [[-> ->]|[-> Hnh]]; cbn [negb].
  - rewrite read_le_value; [|lia|].
    + rewrite outcome_bind_ret. eexists 0, _, _. split; [done|]. split; [by exists 1%nat|by left|done].
    + rewrite length_block by done. pose proof (Z.div_mod (block_size fs) 4 ltac:(lia)). pose proof (Z.mod_pos_bound (block_size fs) 4). lia.
  - eexists _, _, _. split; [done|]. split; [by exists 1%nat|by right|intros _; right; right; by intros [_ ?]].
Qed.
(** ** The bytes of a file *)
(** The reference: the byte at [pos], [None] in a hole and where nothing is mapped *)
Definition file_byte fs (a : ata_block_dev) (ei : ext2_inode_info) (m : M) (pos : Z) : option Z :=
  b ← file_block fs a ei m (pos / block_size fs);
  if b =? 0 then None else zlookup (block_bytes fs a m b) (pos mod block_size fs).
Lemma file_byte_quiet i s s' fs a ei pos : quiet i s s' → file_byte fs a ei (disk s') pos = file_byte fs a ei (disk s) pos.
Proof.
  intros Hq. unfold file_byte. rewrite (file_block_quiet i s s' fs a ei _ Hq). destruct (file_block _ _ _ _ _) as [b|]; [|done].
  cbn. by rewrite (quiet_block i s s' fs a b Hq).
Qed.
Lemma plenty_le i j s : (i ≤ j)%nat → plenty j s → plenty i s.
Proof. intros Hij [Hl Hf]. split; [lia|]. replace i with (i `min` j)%nat by lia. rewrite <- take_take. by apply Forall_take. Qed.

Lemma chunk_bytes fs a ei m q n b acc pos : geometry fs → file_block fs a ei m (q / block_size fs) = Some b → b ≠ 0 → q = pos + Z.of_nat (length acc) →
  0 ≤ q → 0 ≤ n → q mod block_size fs + n ≤ block_size fs →
  (∀ i, 0 ≤ i < Z.of_nat (length acc) → zlookup acc i = file_byte fs a ei m (pos + i)) →
  let acc' := acc ++ take (Z.to_nat n) (drop (Z.to_nat (q mod block_size fs)) (block_bytes fs a m b)) in
  Z.of_nat (length acc') = Z.of_nat (length acc) + n ∧
  ∀ i, 0 ≤ i < Z.of_nat (length acc') → zlookup acc' i = file_byte fs a ei m (pos + i).
Proof.
  intros Hg Hb Hb0 Hq Hq0 Hn Hfit Hacc acc'. pose proof (length_block fs a m b Hg) as Hlen. pose proof (ge_size _ Hg) as Hbs.
  pose proof (Z.mod_pos_bound q (block_size fs) ltac:(lia)) as Hmod.
  assert (Z.of_nat (length acc') = Z.of_nat (length acc) + n) as Hl'.
  { unfold acc'. rewrite length_app, length_take, length_drop. lia. }
  split; [done|]. intros i Hi. destruct (Z.lt_ge_cases i (Z.of_nat (length acc))) as [Hlt|Hge].
  - unfold acc'. rewrite zlookup_app_l by done. apply Hacc. lia.
  - unfold acc'. rewrite zlookup_nonneg by lia. rewrite lookup_app_r by lia. rewrite lookup_take_lt by lia. rewrite lookup_drop.
    assert (∃ d, i = Z.of_nat (length acc) + d ∧ 0 ≤ d < n) as (d & -> & Hd) by (exists (i - Z.of_nat (length acc)); lia).
    assert (pos + (Z.of_nat (length acc) + d) = q + d) as -> by lia. unfold file_byte.
    pose proof (Z.div_mod q (block_size fs) ltac:(lia)) as Hdm.
    assert ((q + d) / block_size fs = q / block_size fs) as -> by (symmetry; apply Z.div_unique with (q mod block_size fs + d); lia).
    assert ((q + d) mod block_size fs = q mod block_size fs + d) as -> by (symmetry; apply Z.mod_unique with (q / block_size fs); lia).
    rewrite Hb. cbn. destruct (Z.eqb_spec b 0); [done|]. rewrite zlookup_nonneg by lia. f_equal. lia.
Qed.

Lemma read_loop_spec fuel s p x fs a ei count pos acc : mapped s p x fs a ei → 0 ≤ pos → pos + count ≤ i_size x →
  Z.of_nat (length acc) ≤ count → (Z.to_nat (count - Z.of_nat (length acc)) < fuel)%nat →
  (∀ i, 0 ≤ i < Z.of_nat (length acc) → zlookup acc i = file_byte fs a ei (disk s) (pos + i)) →
  ∃ bytes s' k, read_loop fs fuel p count pos acc s = Ret (Some (bytes, s')) ∧ quiet k s s' ∧ Z.of_nat (length bytes) ≤ count ∧
    (∀ i, 0 ≤ i < Z.of_nat (length bytes) → zlookup bytes i = file_byte fs a ei (disk s) (pos + i)) ∧
    (Z.of_nat (length bytes) = count ∨ file_byte fs a ei (disk s) (pos + Z.of_nat (length bytes)) = None ∨
     ¬ (plenty (2 * Z.to_nat (count - Z.of_nat (length acc))) s ∧ healthy (disk s))).
Proof.
  revert s acc. induction fuel as [|fuel IH]; intros s acc Hmp Hpos Hend Hle Hfuel Hacc; [lia|]. cbn [read_loop].
  pose proof Hmp as [_ Hsz _ _ _ Hg _ _ Hw]. pose proof (ge_size _ Hg) as Hbs. set (total := Z.of_nat (length acc)) in *.
  destruct (Z.leb_spec count total) as [Hdone|Hmore].
  { exists acc, s, 0%nat. split; [done|]. split_and!; [apply quiet_refl|done|done|left; lia]. }
  rewrite u64_small by lia. set (q := pos + total). destruct (get_block_spec s p x fs a ei q Hmp) as (r & b & s1 & -> & [(i & Hi & Hq1) Hres Hrf]); [lia|].
  rewrite outcome_bind_ret. assert (∀ s' k, quiet k s s' → (file_byte fs a ei (disk s) q = None ∨
    ¬ (plenty (2 * Z.to_nat (count - total)) s ∧ healthy (disk s))) → ∃ bytes s'' k, Ret (Some (acc, s')) = Ret (Some (bytes, s'')) ∧ quiet k s s'' ∧ Z.of_nat (length bytes) ≤ count ∧
    (∀ i, 0 ≤ i < Z.of_nat (length bytes) → zlookup bytes i = file_byte fs a ei (disk s) (pos + i)) ∧
    (Z.of_nat (length bytes) = count ∨ file_byte fs a ei (disk s) (pos + Z.of_nat (length bytes)) = None ∨
     ¬ (plenty (2 * Z.to_nat (count - total)) s ∧ healthy (disk s)))) as Hstop.
  { intros s' k Hq Hwhy. exists acc, s', k. split_and!; try done. by right. }
  destruct Hres as [(-> & Hlt & Hb)|[-> ->]].
  2: { cbn [Z.ltb Z.compare]. apply (Hstop s1 i Hq1). destruct Hrf as [?|[Hn|Hl]]; [done|lia|left; unfold file_byte; by rewrite Hn|].
    right. intros [Hp Hh]. apply Hl. split; [|done]. apply (plenty_le 1 _ s) in Hp; [done|lia]. }
  cbn [Z.ltb Z.compare]. destruct (Z.eqb_spec b 0) as [->|Hb0].
  { apply (Hstop s1 i Hq1). left. unfold file_byte. by rewrite Hb. }
  unfold modu. destruct (Z.eqb_spec (block_size fs) 0) as [|_]; [lia|]. rewrite outcome_bind_ret.
  pose proof (Z.mod_pos_bound q (block_size fs) ltac:(lia)) as Hmod. rewrite (u32_small (block_size fs - _)) by lia. rewrite (u32_small (count - total)) by lia.
  set (n := if _ <? _ then _ else _). assert (0 < n ≤ count - total ∧ q mod block_size fs + n ≤ block_size fs) as [Hn Hfit].
  { unfold n. destruct (Z.ltb_spec (block_size fs - q mod block_size fs) (count - total)); lia. }
  destruct (vmalloc_cases s1) as (buf & h & -> & [(-> & Hqb & Hnp)|(Hbuf & _ & Hbl & Hh)]).
  { cbn [Z.eqb]. apply (Hstop _ (i + 1)%nat); [by apply (quiet_trans i 1 s s1)|]. right. intros [Hp _]. apply Hnp.
    apply (quiet_plenty i 1 s s1 Hq1). apply (plenty_le _ _ s) with (2 := Hp). lia. }
  destruct (Z.eqb_spec buf 0); [done|]. pose proof (mapped_quiet i s s1 p x fs a ei Hq1 Hmp) as Hmp1.
  pose proof (file_block_u32 _ _ _ _ _ _ Hw Hb) as Hbu. unfold is_u32 in Hbu.
  destruct (dev_read_block (with_vheap h s1) fs a b (mp_attached _ _ _ _ _ _ Hmp1) Hg Hbu) as (r & bytes & m & -> & Hm & Hres). rewrite outcome_bind_ret.
  assert (quiet (i + 1) s (vfree buf (on_priv (set_blk (with_medium m (blk (priv s1)))) (with_vheap h s1)))) as Hq2.
  { apply (quiet_trans i 1 s s1); [done|]. by apply quiet_borrow. }
  destruct Hres as [[-> ->]|[-> Hnh]]; cbn [negb].
  2: { apply (Hstop _ _ Hq2). right. intros [_ Hhl]. apply Hnh. by apply (quiet_healthy i s s1). }
  change (disk (with_vheap h s1)) with (disk s1). rewrite (quiet_block i s s1 fs a b Hq1), (length_block fs a _ b Hg).
  destruct (Z.leb_spec (q mod block_size fs + n) (block_size fs)); [|lia]. rewrite outcome_bind_ret. set (s2 := vfree buf _) in *.
  destruct (chunk_bytes fs a ei (disk s) q n b acc pos Hg Hb Hb0) as [Hl' Hacc']; [done|lia|lia|done|done|].
  set (acc' := acc ++ _) in *. fold total in Hl'.
  destruct (IH s2 acc') as (bytes & s3 & k & -> & Hq3 & Hbl3 & Hby3 & Hwhy); [by apply (mapped_quiet (i + 1) s)|lia|lia|lia|lia|..].
  { intros j Hj. rewrite (file_byte_quiet (i + 1) s s2) by done. by apply Hacc'. }
  exists bytes, s3, (i + 1 + k)%nat. split; [done|]. split_and!; [by apply (quiet_trans (i + 1) k s s2)|done|..].
  - intros j Hj. rewrite Hby3 by done. by apply (file_byte_quiet (i + 1)).
  - destruct Hwhy as [?|[Hno|Hno]]; [by left|right; left; by rewrite <- (file_byte_quiet (i + 1) s s2) by done|right; right].
    intros [Hp Hhl]. apply Hno. split; [|by apply (quiet_healthy (i + 1) s)]. apply (quiet_plenty (i + 1) _ s s2 Hq2).
    apply (plenty_le _ _ s) with (2 := Hp). lia.
Qed.
End volume.

(** ** Directory blocks *)
(** Two bytes at [off] *)
Definition half_at (l : list Z) (off : Z) : Z := le_value (take 2 (drop (Z.to_nat off) l)).
(** Every name the scan of a block looks at lies in the block. *)
Fixpoint dir_fits (fuel : nat) (off : Z) (m : list Z) : bool :=
  match fuel with
  | O => true
  | S fuel' =>
      let bsize := Z.of_nat (length m) in
      if negb (off <? bsize - 12) then true else
      if (word_at m off =? 0) || (half_at m (off + 4) =? 0) then true else
      let n := half_at m (off + 6) in
      ((n =? 0) || (255 <? n) || (off + 9 + n <=? bsize)) && dir_fits fuel' (off + half_at m (off + 4)) m
  end.
Lemma half_at_range l off : Forall is_u8 l → 0 ≤ half_at l off < 2 ^ 16.
Proof.
  intros Hf. pose proof (le_value_range (take 2 (drop (Z.to_nat off) l)) 2) as Hr. unfold half_at.
  change (2 ^ 16) with (256 ^ Z.of_nat 2). apply Hr; [by apply Forall_take, Forall_drop|]. rewrite length_take. lia.
Qed.
Lemma decode_dirent_ok off m : 0 ≤ off → off + 12 ≤ Z.of_nat (length m) →
  ∃ t, decode_dirent off m = Ret (mk_dirent (word_at m off) (half_at m (off + 4)) (half_at m (off + 6)) t).
Proof.
  intros Ho Hl. unfold decode_dirent. rewrite !read_le_value by lia. rewrite !outcome_bind_ret. eexists. done.
Qed.
Lemma name_matches_total n off m name : 0 ≤ off → off + Z.of_nat n ≤ Z.of_nat (length m) → ∃ b, name_matches n off m name = Ret b.
Proof.
  revert off name. induction n as [|n IH]; intros off name Ho Hl; cbn [name_matches]; [by eexists|].
  destruct (zlookup_lt_is_Some m off) as [c ->]; [lia|]. cbn [access]. rewrite outcome_bind_ret. destruct name as [|d rest]; [by eexists|].
  destruct (negb (c =? d)); [by eexists|]. destruct (c =? 0); [by eexists|]. apply IH; lia.
Qed.
Lemma dir_search_total fuel off m name : Forall is_u8 m → 12 ≤ Z.of_nat (length m) < 2 ^ 25 → 0 ≤ off →
  Z.max 0 (Z.of_nat (length m) - off) < Z.of_nat fuel → dir_fits fuel off m = true →
  ∃ ino, dir_search fuel off (Z.of_nat (length m)) m name = Ret (Some ino) ∧ is_u32 ino.
Proof.
  intros Hu Hl. revert off. induction fuel as [|fuel IH]; intros off Ho Hf; cbn [dir_fits dir_search].
  { lia. }
  rewrite (u32_small (Z.of_nat (length m) - 12)) by lia. destruct (Z.ltb_spec off (Z.of_nat (length m) - 12)) as [Hin|]; cbn [negb]; [|by exists 0].
  destruct (decode_dirent_ok off m Ho) as [t ->]; [lia|]. rewrite outcome_bind_ret. cbn [de_inode de_rec_len de_name_len].
  pose proof (word_at_range m off Hu) as Hw. pose proof (half_at_range m (off + 4) Hu) as Hr. pose proof (half_at_range m (off + 6) Hu) as Hn.
  destruct (Z.eqb_spec (word_at m off) 0); [by exists 0|]. destruct (Z.eqb_spec (half_at m (off + 4)) 0); [by exists 0|]. cbn [orb].
  intros [Hfit Hrest]%andb_true_iff. rewrite (u32_small (off + _)) by lia.
  assert (∃ ino, dir_search fuel (off + half_at m (off + 4)) (Z.of_nat (length m)) m name = Ret (Some ino) ∧ is_u32 ino) as Hnext by (apply IH; lia || done).
  destruct ((half_at m (off + 6) =? 0) || (255 <? half_at m (off + 6))); [done|]. cbn [orb] in Hfit. apply Z.leb_le in Hfit.
  destruct (name_matches_total (Z.to_nat (half_at m (off + 6))) (off + NAME_OFF) m name) as [b ->]; [unfold NAME_OFF; lia..|].
  rewrite outcome_bind_ret. destruct (b && _); [|done]. by eexists.
Qed.

(** ** The layout the scan reads

    The entries of a block as [ext2_dir_entry_t] lays them out. *)
Record dentry := mk_dentry { dn_ino : Z; dn_type : Z; dn_name : list Z; dn_pad : list Z }.
Definition rec_len (e : dentry) : Z := 9 + Z.of_nat (length (dn_name e)) + Z.of_nat (length (dn_pad e)).
Definition encode_dentry (e : dentry) : list Z :=
  write_le 4 (dn_ino e) ++ write_le 2 (rec_len e) ++ write_le 2 (Z.of_nat (length (dn_name e))) ++ [dn_type e] ++ dn_name e ++ dn_pad e.
Definition wf_dentry (e : dentry) : Prop :=
  0 < dn_ino e < 2 ^ 32 ∧ 12 ≤ rec_len e < 2 ^ 16 ∧ (0 < length (dn_name e) ≤ 255)%nat ∧ 0 ∉ dn_name e.
Definition dir_find (name : list Z) (es : list dentry) : Z :=
  default 0 (dn_ino <$> head (filter (λ e, dn_name e = name) es)).
Definition dir_bytes (es : list dentry) : list Z := concat (encode_dentry <$> es).

Lemma length_encode_dentry e : Z.of_nat (length (encode_dentry e)) = rec_len e.
Proof. unfold encode_dentry, rec_len. rewrite !length_app, !length_write_le. cbn [length]. lia. Qed.
Lemma decode_encode_dentry e p q : wf_dentry e →
  decode_dirent (Z.of_nat (length p)) (p ++ encode_dentry e ++ q) = Ret (mk_dirent (dn_ino e) (rec_len e) (Z.of_nat (length (dn_name e))) (dn_type e)).
Proof.
  intros (Hi & Hr & Hn & _). unfold decode_dirent.
  set (w1 := write_le 4 (dn_ino e)). set (w2 := write_le 2 (rec_len e)). set (w3 := write_le 2 (Z.of_nat (length (dn_name e)))).
  assert (length w1 = 4%nat ∧ length w2 = 2%nat ∧ length w3 = 2%nat) as (L1 & L2 & L3) by (split_and!; apply length_write_le).
  set (r := [dn_type e] ++ dn_name e ++ dn_pad e ++ q).
  assert (p ++ encode_dentry e ++ q = p ++ w1 ++ w2 ++ w3 ++ r) as -> by (unfold encode_dentry; by rewrite <- !(assoc_L (++))).
  assert (read_le 4 (Z.of_nat (length p)) (p ++ w1 ++ w2 ++ w3 ++ r) = Ret (dn_ino e)) as -> by (apply read_le_write; cbn; lia).
  assert (read_le 2 (Z.of_nat (length p) + 4) (p ++ w1 ++ w2 ++ w3 ++ r) = Ret (rec_len e)) as ->.
  { replace (p ++ w1 ++ w2 ++ w3 ++ r) with ((p ++ w1) ++ w2 ++ w3 ++ r) by (by rewrite !(assoc_L (++))).
    replace (Z.of_nat (length p) + 4) with (Z.of_nat (length (p ++ w1))) by (rewrite length_app; lia). apply read_le_write. cbn; lia. }
  assert (read_le 2 (Z.of_nat (length p) + 6) (p ++ w1 ++ w2 ++ w3 ++ r) = Ret (Z.of_nat (length (dn_name e)))) as ->.
  { replace (p ++ w1 ++ w2 ++ w3 ++ r) with ((p ++ w1 ++ w2) ++ w3 ++ r) by (by rewrite !(assoc_L (++))).
    replace (Z.of_nat (length p) + 6) with (Z.of_nat (length (p ++ w1 ++ w2))) by (rewrite !length_app; lia). apply read_le_write. cbn; lia. }
  assert (read_le 1 (Z.of_nat (length p) + 8) (p ++ w1 ++ w2 ++ w3 ++ r) = Ret (dn_type e)) as ->; [|done].
  replace (p ++ w1 ++ w2 ++ w3 ++ r) with ((p ++ w1 ++ w2 ++ w3) ++ r) by (by rewrite !(assoc_L (++))).
  replace (Z.of_nat (length p) + 8) with (Z.of_nat (length (p ++ w1 ++ w2 ++ w3))) by (rewrite !length_app; lia).
  cbn [read_le r app]. rewrite zlookup_middle. cbn [access]. rewrite !outcome_bind_ret. f_equal. lia.
Qed.
Lemma name_matches_ok n p q name : 0 ∉ n → ∃ b, name_matches (length n) (Z.of_nat (length p)) (p ++ n ++ q) name = Ret b ∧
  (length name = length n → b = bool_decide (n = name)).
Proof.
  revert p name. induction n as [|c n IH]; intros p name Hz; cbn [name_matches length].
  { exists true. split; [done|]. intros ->%nil_length_inv. done. }
  cbn [app]. rewrite zlookup_middle. cbn [access]. rewrite outcome_bind_ret. destruct name as [|d rest]; [by exists (c =? 0)|].
  destruct (Z.eqb_spec c d) as [<-|Hne]; cbn [negb].
  2: { exists false. split; [done|]. intros _. symmetry. apply bool_decide_eq_false. congruence. }
  destruct (Z.eqb_spec c 0) as [->|]; [by destruct Hz; left|].
  destruct (IH (p ++ [c]) rest) as (b & Hb & Hs); [by intros ?; apply Hz; right|]. exists b. split.
  - rewrite <- Hb, length_app. cbn [length]. rewrite <- (assoc_L (++)). cbn [app]. f_equal. lia.
  - intros [= He]. rewrite Hs by done. apply bool_decide_ext. split; [by intros ->|by intros [= ->]].
Qed.

(** Entries that follow [off] bytes, so that each begins before the end of the scan *)
Lemma dir_search_entries fuel es p name : Forall wf_dentry es → (∀ e, last es = Some e → 12 < rec_len e) →
  let m := p ++ dir_bytes es in
  12 ≤ Z.of_nat (length m) < 2 ^ 25 → (length (dir_bytes es) < fuel)%nat →
  dir_search fuel (Z.of_nat (length p)) (Z.of_nat (length m)) m name = Ret (Some (dir_find name es)).
Proof.
  revert p es. induction fuel as [|fuel IH]; intros p es Hwf Hlast m Hl Hf; [lia|]. cbn [dir_search].
  rewrite (u32_small (Z.of_nat (length m) - 12)) by lia. destruct es as [|e es].
  { assert (length m = length p) as -> by (unfold m; rewrite length_app; cbn; lia). destruct (Z.ltb_spec (Z.of_nat (length p)) (Z.of_nat (length p) - 12)); [lia|]. done. }
  apply Forall_cons in Hwf as [He Hes]. pose proof He as (Hi & Hr & Hn & Hz).
  assert (dir_bytes (e :: es) = encode_dentry e ++ dir_bytes es) as Hd by done.
  assert (Z.of_nat (length m) = Z.of_nat (length p) + rec_len e + Z.of_nat (length (dir_bytes es))) as Hlm.
  { unfold m. rewrite Hd, !length_app, <- length_encode_dentry. lia. }
  assert (12 < rec_len e + Z.of_nat (length (dir_bytes es))) as Hroom.
  { destruct es as [|e' es']; [specialize (Hlast e eq_refl); cbn; lia|]. apply Forall_cons in Hes as [(_ & Hr' & _) _].
    change (dir_bytes (e' :: es')) with (encode_dentry e' ++ dir_bytes es'). rewrite length_app. pose proof (length_encode_dentry e'). lia. }
  destruct (Z.ltb_spec (Z.of_nat (length p)) (Z.of_nat (length m) - 12)); [|lia]. cbn [negb].
  assert (m = p ++ encode_dentry e ++ dir_bytes es) as Hm by done. rewrite Hm at 1. rewrite decode_encode_dentry, outcome_bind_ret by done.
  cbn [de_inode de_rec_len de_name_len]. destruct (Z.eqb_spec (dn_ino e) 0); [lia|]. destruct (Z.eqb_spec (rec_len e) 0); [lia|].
  rewrite (u32_small (_ + rec_len e)) by lia. destruct (Z.eqb_spec (Z.of_nat (length (dn_name e))) 0); [lia|].
  destruct (Z.ltb_spec 255 (Z.of_nat (length (dn_name e)))); [lia|]. cbn [orb].
  set (h := write_le 4 (dn_ino e) ++ write_le 2 (rec_len e) ++ write_le 2 (Z.of_nat (length (dn_name e))) ++ [dn_type e]).
  assert (m = (p ++ h) ++ dn_name e ++ dn_pad e ++ dir_bytes es) as Hm2.
  { rewrite Hm. unfold h, encode_dentry. by rewrite <- !(assoc_L (++)). }
  assert (Z.of_nat (length p) + NAME_OFF = Z.of_nat (length (p ++ h))) as ->.
  { unfold h, NAME_OFF. rewrite !length_app, !length_write_le. cbn [length]. lia. }
  destruct (name_matches_ok (dn_name e) (p ++ h) (dn_pad e ++ dir_bytes es) name Hz) as (b & Hb & Heq).
  rewrite <- Hm2 in Hb. rewrite Nat2Z.id, Hb, outcome_bind_ret. unfold dir_find.
  assert (b && (Z.of_nat (length name) =? Z.of_nat (length (dn_name e))) = bool_decide (dn_name e = name)) as ->.
  { destruct (Z.eqb_spec (Z.of_nat (length name)) (Z.of_nat (length (dn_name e)))) as [E|E]; [rewrite andb_true_r; apply Heq; lia|].
    rewrite andb_false_r. symmetry. apply bool_decide_eq_false. intros E'. rewrite E' in E. done. }
  destruct (decide (dn_name e = name)) as [E|E].
  - rewrite bool_decide_true, filter_cons_True by done. done.
  - rewrite bool_decide_false, filter_cons_False by done. specialize (IH (p ++ encode_dentry e) es Hes).
    cbn zeta in IH. rewrite <- (assoc_L (++)), <- Hm in IH. rewrite length_app, Nat2Z.inj_add, length_encode_dentry in IH. apply IH; [|lia|].
    + intros e' He'. apply Hlast. rewrite last_cons. by rewrite He'.
    + rewrite Hd, length_app in Hf. pose proof (length_encode_dentry e). lia.
Qed.

(** ** Claims *)
Section volume_claims.
Context {M : Type} `{DiskLaws M}.
Implicit Types (s : vfs_state (ext2_state M)).

(** C32: for an inode of a volume with sane geometry, [ext2_get_block] never faults, whatever the
    heap and the disk do, and changes no record, no block of the heap and nothing on the disk.
    It succeeds exactly with the block number the reference map gives - one of the twelve
    direct pointers or an entry of the indirect block - and fails only beyond the end of the
    file, where the map has no block (double and triple indirection included), or for want
    of memory or of the disk. *)
Theorem ext2_get_block_is_block_map s p x fs a ei offset : mapped s p x fs a ei → 0 ≤ offset →
  ∃ r b s', ext2_get_block p offset s = Ret (r, b, s') ∧ (∃ i, quiet i s s') ∧
    (r = 0 ∧ offset < i_size x ∧ file_block fs a ei (disk s) (offset / block_size fs) = Some b ∨ r = -1 ∧ b = 0) ∧
    (plenty 1 s → healthy (disk s) → offset < i_size x → is_Some (file_block fs a ei (disk s) (offset / block_size fs)) → r = 0).
Proof.
  intros Hmp Ho. destruct (get_block_spec s p x fs a ei offset Hmp Ho) as (r & b & s' & Hr & [(i & _ & Hq) Hres Hrf]).
  exists r, b, s'. split_and!; [done|by exists i|done|]. intros Hp Hh Hlt [b' Hb']. destruct Hres as [[-> _]|[-> _]]; [done|].
  destruct Hrf as [?|[Hn|Hn]]; [done|lia|congruence|by destruct Hn].
Qed.

(** C31: reading a regular file terminates without a fault, leaves the disk, the records and the
    heap's blocks alone, and returns a run of the file's bytes from the position on, which
    it advances by as many. The run is never longer than asked for or than the file, and it
    is shorter only before a hole, which the code does not fill with zeros, an unmapped
    block, or when memory or the disk refuse. *)
Theorem ext2_file_read_returns_file_bytes s p x fs a ei count pos : mapped s p x fs a ei → vfs_is_reg x = true → 0 ≤ pos < 2 ^ 64 → 0 ≤ count →
  let n := Z.min count (Z.max 0 (i_size x - pos)) in
  ∃ bytes s', let len := Z.of_nat (length bytes) in
    ext2_file_read p count pos s = Ret (Some (len, bytes, pos + len, s')) ∧ (∃ i, quiet i s s') ∧ len ≤ n ∧
    (∀ i, 0 ≤ i < len → zlookup bytes i = file_byte fs a ei (disk s) (pos + i)) ∧
    (plenty (2 * Z.to_nat n) s → healthy (disk s) → len = n ∨ file_byte fs a ei (disk s) (pos + len) = None).
Proof.
  intros Hmp Hreg Hpos Hcount n. pose proof Hmp as [Hx Hsz _ _ (sb & Hsb & Hfn & Hfs) _ _ _ _]. unfold ext2_file_read.
  rewrite (get_inode_ok p s x Hx), outcome_bind_ret, Hreg. cbn [negb]. rewrite (get_fs_info_ok s _ sb fs Hsb Hfn Hfs), outcome_bind_ret.
  destruct (Z.leb_spec (i_size x) pos) as [Hle|Hlt].
  { exists [], s. rewrite Z.add_0_r. split; [done|]. split_and!; [exists 0%nat; apply quiet_refl|cbn; lia|cbn; lia|]. intros _ _. left. cbn. lia. }
  assert ((if i_size x - pos <? count then i_size x - pos else count) = n) as -> by (destruct (Z.ltb_spec (i_size x - pos) count); lia).
  destruct (read_loop_spec (S (Z.to_nat n)) s p x fs a ei n pos []) as (bytes & s' & k & -> & Hq & Hl & Hby & Hwhy); cbn [length]; try (done || lia).
  rewrite outcome_bind_ret, u64_small by lia. exists bytes, s'. split; [done|]. split_and!; [by exists k|done|done|].
  intros Hp Hh. destruct Hwhy as [?|[?|Hno]]; [by left|by right|]. destruct Hno. by rewrite Z.sub_0_r.
Qed.
End volume_claims.

(** A block of directory entries written in the layout of [ext2_dir_entry_t] is searched
    completely: [dir_search] terminates and yields the inode number of the first entry with
    exactly that name, and 0 when there is none. The last entry must be longer than the
    minimal twelve bytes. *)
Theorem dir_search_finds_first_entry es name : Forall wf_dentry es → (∀ e, last es = Some e → 12 < rec_len e) →
  let bsize := Z.of_nat (length (dir_bytes es)) in
  12 ≤ bsize < 2 ^ 25 → dir_search (S (Z.to_nat bsize)) 0 bsize (dir_bytes es) name = Ret (Some (dir_find name es)).
Proof.
  intros Hwf Hlast bsize Hb. apply (dir_search_entries (S (Z.to_nat bsize)) es [] name); [done|done|cbn; lia|lia].
Qed.
Lemma dir_search_witness :
  let es := [mk_dentry 2 2 [46] [0; 0]; mk_dentry 11 1 [97; 98] (replicate 30 0)] in
  dir_search 54 0 53 (dir_bytes es) [97; 98] = Ret (Some 11).
Proof.
  apply (dir_search_finds_first_entry [mk_dentry 2 2 [46] [0; 0]; mk_dentry 11 1 [97; 98] (replicate 30 0)] [97; 98]).
  - apply Forall_cons; split; [|apply Forall_singleton]; unfold wf_dentry, rec_len; cbn; split_and!; try lia; set_solver.
  - intros e [= <-]. done.
  - done.
Defined.

(** An entry of twelve bytes at the end of a block is never looked at: the scan stops at
    [block_size - 12] instead of behind it. *)
Theorem last_minimal_entry_not_found :
  let es := [mk_dentry 2 2 [46] (replicate 1002 0); mk_dentry 11 1 [97] [0; 0]] in
  length (dir_bytes es) = 1024%nat ∧ dir_find [97] es = 11 ∧ dir_search 1025 0 1024 (dir_bytes es) [97] = Ret (Some 0).
Proof. split_and!; vm_compute; reflexivity. Qed.

(** The layout of an ext2 volume: the length of the name takes one byte, the type the next, and
    the name begins after eight bytes. *)
Definition encode_ext2 (ino type : Z) (name pad : list Z) : list Z :=
  write_le 4 ino ++ write_le 2 (8 + Z.of_nat (length name) + Z.of_nat (length pad)) ++ [Z.of_nat (length name); type] ++ name ++ pad.
(** A directory with such an entry is searched for it in vain: the bytes of length and type are
    read as one length above 255, and the entry is skipped. *)
Theorem ext2_layout_not_found ino type name pad : 0 < ino < 2 ^ 32 → 0 < type < 256 → (length name ≤ 255)%nat →
  let m := encode_ext2 ino type name pad in
  let bsize := Z.of_nat (length m) in
  24 ≤ bsize < 2 ^ 16 → dir_search (S (Z.to_nat bsize)) 0 bsize m name = Ret (Some 0).
Proof.
  intros Hi Ht Hn m bsize Hb. set (fuel := Z.to_nat bsize). assert (0 < fuel)%nat as Hf by lia.
  set (w1 := write_le 4 ino). set (w2 := write_le 2 bsize). set (r := name ++ pad).
  assert (length w1 = 4%nat ∧ length w2 = 2%nat) as [L1 L2] by (split; apply length_write_le).
  assert (bsize = 8 + Z.of_nat (length name) + Z.of_nat (length pad)) as Hbs.
  { unfold bsize, m, encode_ext2. rewrite !length_app, !length_write_le. cbn [length]. lia. }
  assert (m = w1 ++ w2 ++ Z.of_nat (length name) :: type :: r) as Hm by (unfold m, encode_ext2; by rewrite <- Hbs).
  assert (∃ t, decode_dirent 0 m = Ret (mk_dirent ino bsize (Z.of_nat (length name) + 256 * type) t)) as [t Hd].
  { unfold decode_dirent. assert (read_le 4 0 m = Ret ino) as ->.
    { rewrite Hm. apply (read_le_write 4 ino []). cbn. lia. }
    assert (read_le 2 (0 + 4) m = Ret bsize) as ->.
    { replace (0 + 4) with (Z.of_nat (length w1)) by lia. rewrite Hm. apply read_le_write. cbn. lia. }
    assert (read_le 2 (0 + 6) m = Ret (Z.of_nat (length name) + 256 * type)) as ->.
    { replace m with ((w1 ++ w2) ++ write_le 2 (Z.of_nat (length name) + 256 * type) ++ r).
      - replace (0 + 6) with (Z.of_nat (length (w1 ++ w2))) by (rewrite length_app; lia). apply read_le_write. cbn. lia.
      - rewrite Hm, <- (assoc_L (++)). cbn [write_le app]. do 4 f_equal; [|f_equal]; Z.div_mod_to_equations; lia. }
    rewrite !outcome_bind_ret. destruct (zlookup_lt_is_Some m (0 + 8)) as [c Hc]; [lia|]. cbn [read_le]. rewrite Hc. cbn. by eexists. }
  cbn [dir_search]. rewrite (u32_small (bsize - 12)) by lia. destruct (Z.ltb_spec 0 (bsize - 12)); [|lia]. cbn [negb].
  rewrite Hd, outcome_bind_ret. cbn [de_inode de_rec_len de_name_len]. destruct (Z.eqb_spec ino 0); [lia|]. destruct (Z.eqb_spec bsize 0); [lia|].
  destruct (Z.ltb_spec 255 (Z.of_nat (length name) + 256 * type)); [|lia]. rewrite orb_true_r, (u32_small (0 + bsize)) by lia.
  destruct fuel as [|fuel']; [lia|]. cbn [dir_search]. rewrite (u32_small (bsize - 12)) by lia. destruct (Z.ltb_spec (0 + bsize) (bsize - 12)); [lia|]. done.
Qed.
