(* ===== verification/Mounted.v ===== *)
(** * A mounted ext2 volume implements the interface of the VFS

    [SuperLaws] and [InodeLaws] for [kernel/fs/ext2], so that the theorems of [Path] hold for
    it, and the round trip of its inodes. *)
From S2P Require Import Prelude Bits Mem E820 Block Vfs Path Ext2 Volume.
Import E820 Block Vfs Ext2.

(** ** Inodes on disk *)
Fixpoint words_at (n : nat) (off : Z) (m : list Z) : list Z :=
  match n with O => [] | S n' => word_at m off :: words_at n' (off + 4) m end.
Definition inode_at (off : Z) (m : list Z) : ext2_inode :=
  mk_dinode (half_at m off) (word_at m (off + 4)) (word_at m (off + 20)) (half_at m (off + 26)) (word_at m (off + 28))
    (word_at m (off + 32)) (words_at 15 (off + 40) m) (word_at m (off + 104)) (word_at m (off + 108)).
Lemma read_words_ok n off m : 0 ≤ off → off + 4 * Z.of_nat n ≤ Z.of_nat (length m) → read_words n off m = Ret (words_at n off m).
Proof.
  revert off. induction n as [|n IH]; intros off Ho Hl; cbn [read_words words_at]; [done|].
  rewrite read_le_value by lia. rewrite outcome_bind_ret, IH by lia. done.
Qed.
Lemma decode_inode_ok off m : 0 ≤ off → off + 128 ≤ Z.of_nat (length m) → decode_inode off m = Ret (inode_at off m).
Proof.
  intros Ho Hl. unfold decode_inode. rewrite !read_le_value by lia. rewrite !outcome_bind_ret. rewrite read_words_ok by lia. done.
Qed.
Lemma length_words_at n off m : length (words_at n off m) = n.
Proof. revert off. induction n as [|n IH]; intros off; cbn [words_at length]; [done|]. by rewrite IH. Qed.
Lemma words_at_u32 n off m : Forall is_u8 m → Forall is_u32 (words_at n off m).
Proof. intros Hu. revert off. induction n as [|n IH]; intros off; cbn [words_at]; constructor; [by apply word_at_range|done]. Qed.

Section mounted.
Context {M : Type} `{DiskLaws M}.
Notation st := (vfs_state (ext2_state M)).
Implicit Types (s : st) (fs : ext2_fs_info) (esb : ext2_superblock).

(** ** Volumes *)
Record volume s (sb : Z) fs esb (bgd : list Z) (a : ata_block_dev) : Prop := {
  vo_super : ∃ x, supers s !! sb = Some x ∧ s_fs_info x ≠ 0 ∧ fs_infos (priv s) !! s_fs_info x = Some fs;
  vo_sb : sbs (priv s) !! fs_sb fs = Some esb; vo_bg : bg_descs (priv s) !! fs_bg_desc fs = Some bgd;
  vo_geometry : geometry fs; vo_attached : attached (priv s) fs a;
  vo_ipg : 0 < s_inodes_per_group esb; vo_table : s_inodes_per_group esb * inode_size fs < 2 ^ 32;
  vo_groups : 0 ≤ 32 * ngroups fs ≤ Z.of_nat (length bgd); vo_bytes : Forall is_u8 bgd; vo_count : s_inodes_count esb < 2 ^ 32 }.
(** The inode with number [ino]: block and offset follow from the group descriptor *)
Definition inode_group esb (ino : Z) : Z := (ino - 1) / s_inodes_per_group esb.
Definition inode_byte fs esb (ino : Z) : Z := (ino - 1) mod s_inodes_per_group esb * inode_size fs.
Definition inode_block fs esb (bgd : list Z) (ino : Z) : Z :=
  u32 (word_at bgd (32 * inode_group esb ino + 8) + inode_byte fs esb ino / block_size fs).
Definition disk_inode fs esb bgd a (m : M) (ino : Z) : ext2_inode :=
  inode_at (inode_byte fs esb ino mod block_size fs) (block_bytes fs a m (inode_block fs esb bgd ino)).
Definition valid_ino fs esb (ino : Z) : Prop := 1 ≤ ino ≤ s_inodes_count esb ∧ inode_group esb ino < ngroups fs.

Lemma inode_fits fs esb ino : geometry fs → 0 < s_inodes_per_group esb → inode_byte fs esb ino mod block_size fs + 128 ≤ block_size fs.
Proof.
  intros [_ Hr [k Hk] Hi] Hp. unfold inode_byte. set (i := (ino - 1) mod s_inodes_per_group esb). rewrite Hk at 1.
  rewrite (Z.mul_comm k), (Z.mul_comm i), Z.mul_mod_distr_l by nia. pose proof (Z.mod_pos_bound i k ltac:(nia)). nia.
Qed.

(** How [ext2_read_inode] ends *)
Definition two_blocks s : Prop := ∃ b1 b2 k, answers (vheap s) = b1 :: b2 :: k ∧ b1 ≠ b2 ∧ b1 ≠ 0 ∧ b2 ≠ 0 ∧ b1 ∉ live (vheap s) ∧ b2 ∉ live (vheap s).
Record inode_read s s' (p : Z) (x : vfs_inode) (d : ext2_inode) (r : Z) : Prop := {
  ir_rest : s' = with_priv (priv s') (with_vheap (vheap s') (with_inodes (inodes s') s));
  ir_live : live (vheap s) ⊆ live (vheap s');
  ir_priv : ∃ m i, priv s' = set_infos i (set_blk (with_medium m (blk (priv s))) (priv s)) ∧ same_disk (disk s) m;
  ir_case : r ≠ 0 ∧ infos (priv s') = infos (priv s) ∧ (inodes s' = inodes s ∨ inodes s' = <[p := set_attrs d x]> (inodes s)) ∨
    r = 0 ∧ ∃ ei, ei ≠ 0 ∧ ei ∉ live (vheap s) ∧ ei ∈ live (vheap s') ∧ infos (priv s') = <[ei := inode_info d]> (infos (priv s)) ∧
      inodes s' = <[p := set_ops (set_iprivate ei (set_attrs d x))]> (inodes s) }.

Lemma read_inode_quiet i s s' p x d r : quiet i s s' → r ≠ 0 → inode_read s s' p x d r.
Proof.
  intros (m & -> & Hm) Hr. split; [done|done| |left; split_and!; try done; by left]. exists m, (infos (priv s)). split; [|done]. cbn. done.
Qed.
Lemma read_inode_spec s sb p x fs esb bgd a : volume s sb fs esb bgd a → inodes s !! p = Some x → 0 ≤ i_ino x →
  ∃ r s', ext2_read_inode sb p s = Ret (r, s') ∧ inode_read s s' p x (disk_inode fs esb bgd a (disk s) (i_ino x)) r ∧
    (r = 0 → valid_ino fs esb (i_ino x)) ∧ (valid_ino fs esb (i_ino x) → two_blocks s → healthy (disk s) → r = 0).
Proof.
  intros [(y & Hy & Hfn & Hfs) Hsb Hbg Hg Hat Hipg Htab Hgr Hby Hcnt] Hx Hino. pose proof (ge_size _ Hg) as Hbs.
  assert (∀ s' r i, quiet i s s' → r ≠ 0 → ¬ (valid_ino fs esb (i_ino x) ∧ two_blocks s ∧ healthy (disk s)) →
    ∃ r' s'', Ret (r, s') = Ret (r', s'') ∧ inode_read s s'' p x (disk_inode fs esb bgd a (disk s) (i_ino x)) r' ∧
      (r' = 0 → valid_ino fs esb (i_ino x)) ∧ (valid_ino fs esb (i_ino x) → two_blocks s → healthy (disk s) → r' = 0)) as Hfail.
  { intros s' r i Hq Hr Hno. exists r, s'. split_and!; [done|by apply (read_inode_quiet i)|done|]. intros. by destruct Hno. }
  unfold ext2_read_inode. rewrite (get_fs_info_ok s sb y fs Hy Hfn Hfs), outcome_bind_ret, Hsb. cbn [access]. rewrite outcome_bind_ret.
  rewrite (get_inode_ok p s x Hx), outcome_bind_ret. set (ino := i_ino x) in *.
  destruct (Z.eqb_spec ino 0); [apply (Hfail s (-1) 0%nat (quiet_refl s)); [done|]; unfold valid_ino; lia|]. cbn [orb].
  destruct (Z.ltb_spec (s_inodes_count esb) ino); [apply (Hfail s (-1) 0%nat (quiet_refl s)); [done|]; unfold valid_ino; lia|].
  unfold divu, modu. destruct (Z.eqb_spec (s_inodes_per_group esb) 0); [lia|]. rewrite outcome_bind_ret. fold (inode_group esb ino).
  assert (0 ≤ inode_group esb ino < 2 ^ 32) as Hgu.
  { unfold inode_group. split; [apply Z.div_pos; lia|]. apply Z.div_lt_upper_bound; nia. }
  rewrite (u32_small (inode_group esb ino)) by done. destruct (Z.leb_spec (ngroups fs) (inode_group esb ino)).
  { apply (Hfail s (-1) 0%nat (quiet_refl s)); [done|]; unfold valid_ino; lia. }
  assert (valid_ino fs esb ino) as Hv by (unfold valid_ino; lia). rewrite Hbg. cbn [access]. rewrite outcome_bind_ret, read_le_value by lia.
  rewrite outcome_bind_ret. fold (word_at bgd (32 * inode_group esb ino + 8)). rewrite outcome_bind_ret.
  pose proof (Z.mod_pos_bound (ino - 1) (s_inodes_per_group esb) Hipg) as Him. pose proof (ge_inode_size _ Hg) as His.
  rewrite (u32_small ((ino - 1) mod _)) by nia. fold (inode_byte fs esb ino). assert (0 ≤ inode_byte fs esb ino < 2 ^ 32) as Hib by (unfold inode_byte; nia).
  rewrite (u32_small (inode_byte fs esb ino)) by done.
  destruct (vmalloc_cases s) as (buf & h & -> & [(-> & Hqb & Hnp)|(Hb0 & Hbh & Hbl & Hh)]).
  { apply (Hfail _ (-1) 1%nat Hqb); [done|]. intros (_ & (b1 & b2 & k & E & _ & ? & ? & ? & ?) & _). apply Hnp. unfold plenty. rewrite E.
    split; [cbn; lia|]. by constructor. }
  destruct (Z.eqb_spec buf 0); [done|]. destruct (Z.eqb_spec (block_size fs) 0); [lia|]. rewrite !outcome_bind_ret.
  fold (inode_block fs esb bgd ino). assert (0 ≤ inode_block fs esb bgd ino < 2 ^ 32) as Hbu by apply u32_range.
  destruct (dev_read_block (with_vheap h s) fs a (inode_block fs esb bgd ino) Hat Hg Hbu) as (r & bytes & m & -> & Hm & Hres). rewrite outcome_bind_ret.
  destruct Hres as [[-> ->]|[-> Hnh]]; cbn [negb].
  2: { apply (Hfail _ (-1) 1%nat); [by apply (quiet_borrow s buf h m)|done|]. by intros (_ & _ & ?). }
  change (disk (with_vheap h s)) with (disk s). pose proof (Z.mod_pos_bound (inode_byte fs esb ino) (block_size fs) ltac:(lia)).
  rewrite decode_inode_ok; [|lia|rewrite length_block by done; by apply inode_fits]. rewrite outcome_bind_ret.
  fold (disk_inode fs esb bgd a (disk s) ino). set (d := disk_inode fs esb bgd a (disk s) ino). set (s1 := on_priv _ _).
  rewrite (upd_inode_ok p _ s1 x) by done. rewrite outcome_bind_ret. set (s2 := with_inodes _ s1).
  destruct (vmalloc_cases s2) as (ei & h2 & -> & [(-> & (m' & Hq & Hm') & Hnp)|(He0 & _ & Hel & Hh2)]).
  { cbn [Z.eqb]. rewrite Hq. eexists (-1), _. split; [done|]. split_and!; [|done|].
    - split.
      + done.
      + unfold s2, s1. rewrite Hh. cbn. set_solver.
      + exists m', (infos (priv s)). split; [done|]. by transitivity m.
      + left. split_and!; try done. by right.
    - intros _ (b1 & b2 & k & E & Hne & ? & ? & ? & ?) _. exfalso. apply Hnp. unfold plenty, s2, s1. rewrite Hh. cbn. rewrite E. cbn.
      split; [lia|]. constructor; [|done]. split; [done|]. rewrite E in Hbh. injection Hbh as ->. set_solver. }
  destruct (Z.eqb_spec ei 0); [done|]. set (s3 := on_priv _ _). rewrite (upd_inode_ok p _ s3 (set_attrs d x)) by (cbn; apply lookup_insert_eq).
  rewrite outcome_bind_ret. set (s4 := with_inodes _ s3). rewrite (upd_inode_ok p _ (vfree buf s4) (set_iprivate ei (set_attrs d x))) by (cbn; apply lookup_insert_eq).
  rewrite outcome_bind_ret. eexists 0, _. split; [done|]. split_and!; [|done|done].
  assert (ei ∉ live (vheap s) ∧ ei ≠ buf) as [Hes Heb].
  { unfold s2, s1 in Hel. rewrite Hh in Hel. cbn in Hel. set_solver. }
  split.
  - done.
  - cbn. rewrite Hh2. unfold s2, s1. rewrite Hh. cbn. set_solver.
  - exists m, (<[ei := inode_info d]> (infos (priv s))). done.
  - right. split; [done|]. exists ei. split_and!; try done.
    + cbn. rewrite Hh2. cbn. set_solver.
    + cbn. by rewrite !insert_insert_eq.
Qed.
(** ** The interface *)
(** Every directory of the volume has a readable first block. *)
Definition dir_sound fs a (m : M) (b : Z) : Prop := b ≠ 0 → dir_fits (S (Z.to_nat (block_size fs))) 0 (block_bytes fs a m b) = true.
Definition sound s fs esb bgd a : Prop := ∀ ino b, valid_ino fs esb ino →
  vfs_mode_to_type (d_mode (disk_inode fs esb bgd a (disk s) ino)) = V_DIR →
  zlookup (d_block (disk_inode fs esb bgd a (disk s) ino)) 0 = Some b → dir_sound fs a (disk s) b.
Definition ext2_usable (sb : Z) s : Prop := ∃ fs esb bgd a, volume s sb fs esb bgd a ∧ sound s fs esb bgd a.
Definition ext2_data_ok (x : vfs_inode) s : Prop := i_private x = 0 ∨
  0 ≤ i_size x < 2 ^ 32 ∧ ∃ ei, infos (priv s) !! i_private x = Some ei ∧ length (i_data ei) = 15%nat ∧ Forall is_u32 (i_data ei) ∧
    (vfs_is_dir x = true → ∀ fs esb bgd a b, volume s (i_sb x) fs esb bgd a → zlookup (i_data ei) 0 = Some b → dir_sound fs a (disk s) b).

(** The file system's own records stay, the disk keeps its contents. *)
Definition shifts s s' : Prop := supers s' = supers s ∧
  ∃ m i, priv s' = set_infos i (set_blk (with_medium m (blk (priv s))) (priv s)) ∧ same_disk (disk s) m.
Lemma shifts_quiet i s s' : quiet i s s' → shifts s s'.
Proof. intros (m & -> & Hm). split; [done|]. by exists m, (infos (priv s)). Qed.
Lemma shifts_frame s s' : supers s' = supers s → priv s' = priv s → shifts s s'.
Proof.
  intros Hs Hp. split; [done|]. exists (disk s), (infos (priv s)). split; [|done]. rewrite Hp. unfold disk.
  destruct (priv s) as [[? ? ? ? ? ?] ? ? ? ?]. done.
Qed.
Lemma shifts_disk s s' : shifts s s' → same_disk (disk s) (disk s').
Proof. intros (_ & m & i & E & Hm). unfold disk. rewrite E. done. Qed.
Lemma volume_same s s' sb fs esb bgd a : supers s' = supers s → fs_infos (priv s') = fs_infos (priv s) → sbs (priv s') = sbs (priv s) →
  bg_descs (priv s') = bg_descs (priv s) → devs (blk (priv s')) = devs (blk (priv s)) → atas (blk (priv s')) = atas (blk (priv s)) →
  volume s sb fs esb bgd a → volume s' sb fs esb bgd a.
Proof. intros E1 E2 E3 E4 E5 E6 [? ? ? ? [? ?] ? ? ? ? ?]. split; rewrite ?E1, ?E2, ?E3, ?E4; try done. split; rewrite ?E5, ?E6; done. Qed.
Lemma volume_shift s s' sb fs esb bgd a : shifts s s' → volume s' sb fs esb bgd a ↔ volume s sb fs esb bgd a.
Proof. intros (Hs & m & i & E & _). split; apply volume_same; rewrite ?E; done. Qed.
Lemma disk_inode_shift s s' fs esb bgd a ino : shifts s s' → disk_inode fs esb bgd a (disk s') ino = disk_inode fs esb bgd a (disk s) ino.
Proof. intros Hs%shifts_disk. unfold disk_inode. by rewrite (block_same _ _ _ _ _ Hs). Qed.
Lemma dir_sound_shift s s' fs a b : shifts s s' → dir_sound fs a (disk s) b → dir_sound fs a (disk s') b.
Proof. intros Hs%shifts_disk Hd Hb. rewrite (block_same _ _ _ _ _ Hs). by apply Hd. Qed.
Lemma usable_shift s s' sb : shifts s s' → ext2_usable sb s → ext2_usable sb s'.
Proof.
  intros Hs (fs & esb & bgd & a & Hv & Hso). exists fs, esb, bgd, a. split; [by apply (volume_shift s)|]. intros ino b. rewrite !(disk_inode_shift s s' _ _ _ _ _ Hs).
  intros. eapply dir_sound_shift; [done|]. by eapply Hso.
Qed.
Lemma data_shift s s' x y : shifts s s' → infos (priv s') !! i_private x = infos (priv s) !! i_private x →
  i_sb y = i_sb x → i_mode y = i_mode x → i_size y = i_size x → i_private y = i_private x → ext2_data_ok x s → ext2_data_ok y s'.
Proof.
  intros Hs Hi E1 E2 E3 E4 [?|(Hz & ei & He & Hl & Hw & Hd)]; [left; congruence|right]. rewrite E3, E4, Hi. split; [done|]. exists ei. split_and!; try done.
  unfold vfs_is_dir. rewrite E1, E2. intros Hdir fs esb bgd a b Hv Hb. apply (dir_sound_shift s); [done|]. apply (Hd Hdir fs esb bgd); [|done].
  by apply (volume_shift s s').
Qed.
Lemma inode_read_shifts s s' p x d r : inode_read s s' p x d r → shifts s s'.
Proof. intros [E _ Hp _]. split; [by rewrite E|done]. Qed.
Lemma volume_unique s sb fs esb bgd a fs' esb' bgd' a' : volume s sb fs esb bgd a → volume s sb fs' esb' bgd' a' → fs' = fs ∧ a' = a.
Proof.
  intros [(x & Hx & _ & Hf) _ _ _ [_ (d & Hd & _ & _ & Ha)] _ _ _ _ _] [(x' & Hx' & _ & Hf') _ _ _ [_ (d' & Hd' & _ & _ & Ha')] _ _ _ _ _].
  assert (fs' = fs) as -> by congruence. split; [done|]. congruence.
Qed.

Lemma ext2_read_inode_law sb p s x : ext2_usable sb s → inodes s !! p = Some x → i_sb x = sb → 0 ≤ i_ino x → i_private x = 0 →
  ∃ r s', ext2_read_inode sb p s = Ret (r, s') ∧ fills p s s' ∧ (∀ sb', ext2_usable sb' s → ext2_usable sb' s') ∧
    (∀ y, inodes s' !! p = Some y → ext2_data_ok y s') ∧ (∀ z, i_private z ∈ live (vheap s) → ext2_data_ok z s → ext2_data_ok z s').
Proof.
  intros (fs & esb & bgd & a & Hv & Hso) Hx Hsb Hino Hp0. destruct (read_inode_spec s sb p x fs esb bgd a Hv Hx Hino) as (r & s' & Hr & Hir & Hval & _).
  set (d := disk_inode _ _ _ _ _ _) in *. pose proof (inode_read_shifts _ _ _ _ _ _ Hir) as Hsh. pose proof Hir as [Hrest Hlive _ Hcase].
  exists r, s'. split; [done|]. split; [|split; [intros sb'; by apply usable_shift|split]].
  - split; [done| | |done].
    + intros q Hq. destruct Hcase as [(_ & _ & [-> | ->])|(_ & ei & _ & _ & _ & _ & ->)]; [done|by rewrite lookup_insert_ne..].
    + intros x' Hx'. replace x' with x by congruence. destruct Hcase as [(_ & _ & [-> | ->])|(_ & ei & ? & ? & ? & _ & ->)].
      * exists x. split_and!; try done. by left.
      * exists (set_attrs d x). split_and!; [apply lookup_insert_eq|done|by left].
      * exists (set_ops (set_iprivate ei (set_attrs d x))). split; [apply lookup_insert_eq|]. unfold set_ops, same_key. change (i_mode (set_iprivate _ _)) with (d_mode d).
        destruct (vfs_mode_to_type (d_mode d)); cbn; split_and!; try done; right; right; done.
  - intros y Hy. destruct Hcase as [(_ & _ & [E|E])|(-> & ei & ? & ? & ? & Hin & E)]; rewrite E in Hy.
    + left. congruence.
    + rewrite lookup_insert_eq in Hy. injection Hy as <-. by left.
    + rewrite lookup_insert_eq in Hy. injection Hy as <-. right.
      assert (Forall is_u8 (block_bytes fs a (disk s) (inode_block fs esb bgd (i_ino x)))) as Hu by apply block_u8.
      assert (i_private (set_ops (set_iprivate ei (set_attrs d x))) = ei ∧ i_size (set_ops (set_iprivate ei (set_attrs d x))) = d_size d ∧
        i_mode (set_ops (set_iprivate ei (set_attrs d x))) = d_mode d ∧ i_sb (set_ops (set_iprivate ei (set_attrs d x))) = sb) as (-> & -> & Hmode & ->).
      { unfold set_ops. change (i_mode (set_iprivate ei (set_attrs d x))) with (d_mode d). by destruct (vfs_mode_to_type (d_mode d)). }
      split; [by apply word_at_range|]. exists (inode_info d). split_and!.
      * rewrite Hin. apply lookup_insert_eq.
      * apply length_words_at.
      * by apply words_at_u32.
      * unfold vfs_is_dir. rewrite Hmode. intros Hdir%bool_decide_eq_true fs' esb' bgd' a' b Hv' Hb. rewrite (volume_shift s s') in Hv' by done.
        destruct (volume_unique _ _ _ _ _ _ _ _ _ _ Hv Hv') as [-> ->]. eapply dir_sound_shift; [done|]. by apply (Hso (i_ino x)); [apply Hval|..].
  - intros z Hz. apply (data_shift s s' z z); try done.
    destruct Hcase as [(_ & -> & _)|(_ & ei & ? & ? & ? & -> & _)]; [done|]. rewrite lookup_insert_ne; [done|]. intros ->. done.
Qed.

#[export] Program Instance ext2_super_laws : SuperLaws (ext2_state M) := {| usable := ext2_usable; data_ok := ext2_data_ok |}.
Next Obligation. intros sb s (fs & esb & bgd & a & [(x & Hx & _) _ _ _ _ _ _ _ _ _] & _). by exists x. Qed.
Next Obligation. intros sb s s' Hs Hp. by apply usable_shift, shifts_frame. Qed.
Next Obligation. intros x s Hx. by left. Qed.
Next Obligation. intros x y s s' Hs Hp E1 E2 E3 E4. apply data_shift; try done; [by apply shifts_frame|by rewrite Hp]. Qed.
Next Obligation. exact ext2_read_inode_law. Qed.
Next Obligation.
  intros sb p s x Hu Hx _ Hd. exists 0, s. split; [done|]. split_and!; try done.
  - split; try done; [by destruct s|]. intros y Hy. exists y. split_and!; try done. by left.
  - intros y Hy. by replace y with x by congruence.
Qed.
Next Obligation.
  intros p s x Hp Hx Hu. unfold fs_destroy_inode, ext2_super_ops, ext2_destroy_inode. destruct (Z.eqb_spec p 0); [done|].
  rewrite (get_inode_ok p s x Hx), outcome_bind_ret. destruct (Z.eqb_spec (i_private x) 0) as [E|E].
  - exists (priv s). split; [by destruct s|]. split; [by destruct s|]. by destruct s.
  - rewrite (upd_inode_ok p _ _ x) by done. set (pr := set_infos (delete (i_private x) (infos (priv s))) (priv s)). exists pr.
    assert (shifts s (with_priv pr s)) as Hsh.
    { split; [done|]. exists (disk s), (delete (i_private x) (infos (priv s))). split; [|done]. unfold pr, disk. cbn.
      destruct (priv s) as [[? ? ? ? ? ?] ? ? ? ?]. done. }
    split_and!; [done|intros sb; by apply usable_shift|]. intros z Hz. apply data_shift; try done. cbn. by rewrite lookup_delete_ne.
Qed.
(** ** Looking up a name *)
Lemma cache_shift s s' : shifts s s' → infos (priv s') = infos (priv s) → inodes s' = inodes s → hash_table s' = hash_table s → vheap s' = vheap s →
  cache_ok s → cache_ok s'.
Proof.
  intros Hsh Hi E1 E2 E3 Hs. apply (cache_same s); try done; [by rewrite E3|intros sb; by apply usable_shift|].
  intros x. apply data_shift; try done. by rewrite Hi.
Qed.
(** What a lookup leaves unchanged before it takes a reference *)
Record undisturbed s s' : Prop := { un_ok : cache_ok s'; un_steady : steady s s'; un_inodes : inodes s' = inodes s; un_shifts : shifts s s' }.
Lemma quiet_undisturbed i s s' : quiet i s s' → cache_ok s → undisturbed s s'.
Proof.
  intros Hq Hs. pose proof (shifts_quiet i s s' Hq) as Hsh. destruct Hq as (m & -> & Hm). split; try done.
  - apply (cache_same s); try done; [intros sb; by apply usable_shift|intros x; by apply data_shift].
  - split; try done. intros sb. by apply usable_shift.
Qed.
Lemma dir_block_spec s p x fs a ei : mapped s p x fs a ei → cache_ok s →
  ∃ o s', dir_block p fs s = Ret (o, s') ∧ undisturbed s s' ∧
    ∀ bytes buf, o = Some (Some (bytes, buf)) → spare s' buf ∧ ∃ b, zlookup (i_data ei) 0 = Some b ∧ b ≠ 0 ∧ bytes = block_bytes fs a (disk s) b.
Proof.
  intros Hmp Hs. unfold dir_block. destruct (get_block_spec s p x fs a ei 0 Hmp ltac:(done)) as (r & b & s1 & -> & [(i & _ & Hq) Hres _]).
  rewrite outcome_bind_ret. pose proof (quiet_undisturbed i s s1 Hq Hs) as [Hs1 Hst1 Hi1 Hsh1].
  destruct Hres as [(-> & _ & Hb)|[-> ->]]; cbn [Z.eqb negb]; [|eexists _, _; by split_and!]. cbn [file_block Z.div Z.div_eucl fst Z.ltb Z.compare] in Hb.
  destruct (Z.eqb_spec b 0) as [|Hb0]; [eexists _, _; by split_and!|].
  pose proof Hmp as [_ _ _ _ _ Hg Hat _ Hw]. pose proof (ge_size _ Hg) as Hbs. rewrite Z.div_0_l in Hb by lia. unfold file_block in Hb. cbn [Z.ltb Z.compare] in Hb.
  pose proof (Forall_zlookup _ _ _ _ Hw Hb) as Hbu. unfold is_u32 in Hbu.
  destruct (cache_vmalloc s1 Hs1) as (buf & h & Hvm & Hs2 & Hsp & _). destruct (vmalloc_cases s1) as (buf' & h' & Hvm' & Hcase).
  rewrite Hvm in Hvm'. injection Hvm' as <- Hh'. rewrite Hvm. destruct (Z.eqb_spec buf 0) as [->|Hbuf].
  { eexists _, _. split_and!; [done| |done]. split; [done| |done|by destruct Hsh1]. transitivity s1; [done|apply steady_vheap]. }
  pose proof (mapped_quiet i s s1 p x fs a ei Hq Hmp) as Hmp1.
  destruct (dev_read_block (with_vheap h s1) fs a b (mp_attached _ _ _ _ _ _ Hmp1) Hg Hbu) as (r & bytes & m & -> & Hm & Hres). rewrite outcome_bind_ret.
  set (s2 := on_priv _ _). assert (shifts (with_vheap h s1) s2) as Hsh2 by (split; [done|]; by exists m, (infos (priv s1))).
  assert (cache_ok s2) as Hs2' by (by apply (cache_shift (with_vheap h s1))).
  assert (steady s s2) as Hst2.
  { transitivity (with_vheap h s1); [transitivity s1; [done|apply steady_vheap]|]. split; try done. intros sb. by apply usable_shift. }
  assert (shifts s s2) as Hsh.
  { destruct Hsh1 as (E & m1 & i1 & E1 & Hm1). split; [done|]. exists m, i1. split; [|transitivity m1; [done|]; unfold disk in Hm; cbn in Hm; by rewrite E1 in Hm].
    cbn. by rewrite E1. }
  assert (spare s2 buf) as Hsp2 by (by apply Hsp).
  destruct Hres as [[-> ->]|[-> _]]; cbn [negb]; eexists _, _; (split; [done|]).
  - split; [done|]. intros bytes buf' [= <- <-]. split; [done|]. exists b. split_and!; try done.
    change (disk (with_vheap h s1)) with (disk s1). by apply (quiet_block i).
  - split; [|done]. split; [by apply cache_vfree|transitivity s2; [done|by apply steady_same]|done|done].
Qed.
Lemma ext2_lookup_law dir name s x : cache_ok s → counts_below 1 s → inodes s !! dir = Some x → vfs_is_dir x = true → i_op x = dir_inode_ops →
  ∃ r n s', ext2_lookup dir name s = Ret (r, n, s') ∧ cache_ok s' ∧ steady s s' ∧ ∀ q, refs s' q = refs s q + if r =? 0 then one n q else 0.
Proof.
  intros Hs Hc Hx Hdir _. destruct (co_inode _ Hs dir x Hx) as [_ _ Hsb (fs & esb & bgd & a & Hv & Hso) _ _ Hd].
  assert (∀ s', undisturbed s s' → ∃ r n s'', Ret (-1, 0, s') = Ret (r, n, s'') ∧ cache_ok s'' ∧ steady s s'' ∧
    ∀ q, refs s'' q = refs s q + if r =? 0 then one n q else 0) as Hfail.
  { intros s' [? ? E _]. eexists (-1), 0, s'. split_and!; try done. intros q. unfold refs. rewrite E. cbn. lia. }
  assert (undisturbed s s) as Hss by (split; try done; by apply shifts_frame).
  unfold ext2_lookup. rewrite (get_inode_ok dir s x Hx), outcome_bind_ret, Hdir. cbn [negb].
  pose proof (vo_super _ _ _ _ _ _ Hv) as (y & Hy & Hfn & Hfs). rewrite (get_fs_info_ok s _ y fs Hy Hfn Hfs), outcome_bind_ret.
  destruct (Z.eqb_spec (i_private x) 0); [by apply Hfail|]. destruct Hd as [|(Hsz & ei & Hei & Hlen & Hw & Hds)]; [done|].
  assert (mapped s dir x fs a ei) as Hmp.
  { destruct Hv. split; done. }
  destruct (dir_block_spec s dir x fs a ei Hmp Hs) as (o & s1 & -> & Hun & Ho). rewrite outcome_bind_ret.
  destruct o as [[[bytes buf]|]|]; [|by apply Hfail..]. destruct (Ho bytes buf eq_refl) as (Hsp & b & Hb & Hb0 & ->). clear Ho.
  pose proof (vo_geometry _ _ _ _ _ _ Hv) as Hg. pose proof (ge_size _ Hg) as Hbs. pose proof (length_block fs a (disk s) b Hg) as Hlb.
  destruct (dir_search_total (S (Z.to_nat (block_size fs))) 0 (block_bytes fs a (disk s) b) name) as (ino & Hino & Hiu);
    [apply block_u8|lia|done|lia|by apply (Hds Hdir fs esb bgd a b Hv Hb)|].
  rewrite Hlb in Hino. rewrite Hino, outcome_bind_ret. cbn [access]. rewrite outcome_bind_ret. destruct Hun as [Hs1 Hst1 Hi1 Hsh1].
  assert (∀ q, refs s1 q = refs s q) as Hr1 by (intros q; unfold refs; by rewrite Hi1).
  destruct (Z.eqb_spec ino 0).
  { apply Hfail. split; [by apply cache_vfree|transitivity s1; [done|by apply steady_same]|done|]. by destruct Hsh1. }
  destruct (iget_spec s1 (i_sb x) ino Hs1) as (p & s2 & -> & [Hs2 Hst2 Hr2 _ _ _ Hsp2]); [intros q; rewrite Hr1; apply Hc|done| |unfold is_u32 in Hiu; lia|].
  { apply (st_usable _ _ Hst1). by exists fs, esb, bgd, a. }
  rewrite outcome_bind_ret. eexists _, p, _. split; [done|]. split_and!; [by apply cache_vfree, Hsp2|transitivity s1; [done|]; transitivity s2; [done|by apply steady_same]|].
  intros q. change (refs (vfree buf s2) q) with (refs s2 q). rewrite Hr2, Hr1. destruct (Z.eqb_spec p 0) as [->|]; cbn [Z.eqb]; unfold one; rewrite ?Z.eqb_refl; done.
Qed.
#[export] Instance ext2_inode_laws : InodeLaws (ext2_state M) := {| lookup_law := ext2_lookup_law |}.
End mounted.

(** ** Claims *)
(** An inode as [ext2_inode_t] lays it out; the fields the code does not read are zero. *)
Definition encode_inode (d : ext2_inode) : list Z :=
  write_le 2 (d_mode d) ++ write_le 2 0 ++ write_le 4 (d_size d) ++ write_le 4 0 ++ write_le 4 0 ++ write_le 4 0 ++ write_le 4 (d_dtime d) ++
  write_le 2 0 ++ write_le 2 (d_links_count d) ++ write_le 4 (d_blocks d) ++ write_le 4 (d_flags d) ++ write_le 4 0 ++
  concat (write_le 4 <$> d_block d) ++ write_le 4 0 ++ write_le 4 (d_file_acl d) ++ write_le 4 (d_dir_acl d) ++ write_le 4 0 ++ write_le 12 0.
Definition wf_dinode (d : ext2_inode) : Prop :=
  0 ≤ d_mode d < 2 ^ 16 ∧ is_u32 (d_size d) ∧ is_u32 (d_dtime d) ∧ 0 ≤ d_links_count d < 2 ^ 16 ∧ is_u32 (d_blocks d) ∧ is_u32 (d_flags d) ∧
  length (d_block d) = 15%nat ∧ Forall is_u32 (d_block d) ∧ is_u32 (d_file_acl d) ∧ is_u32 (d_dir_acl d).
Lemma le_value_write n v : 0 ≤ v < 256 ^ Z.of_nat n → le_value (write_le n v) = v.
Proof.
  intros Hv. pose proof (read_le_write n v [] [] Hv) as Hr. cbn [length app] in Hr. rewrite app_nil_r in Hr.
  rewrite read_le_value in Hr by (rewrite ?length_write_le; lia). cbn [Z.to_nat drop] in Hr. rewrite take_ge in Hr by (rewrite ?length_write_le, ?drop_0, ?length_write_le; done).
  rewrite ?drop_0 in Hr. congruence.
Qed.
Lemma word_at_drop m off k : 0 ≤ off → 0 ≤ k → word_at m (off + k) = word_at (drop (Z.to_nat off) m) k.
Proof. intros. unfold word_at. rewrite drop_drop. by rewrite Z2Nat.inj_add. Qed.
Lemma half_at_drop m off k : 0 ≤ off → 0 ≤ k → half_at m (off + k) = half_at (drop (Z.to_nat off) m) k.
Proof. intros. unfold half_at. rewrite drop_drop. by rewrite Z2Nat.inj_add. Qed.
Lemma words_at_drop n m off k : 0 ≤ off → 0 ≤ k → words_at n (off + k) m = words_at n k (drop (Z.to_nat off) m).
Proof.
  intros Ho. revert k. induction n as [|n IH]; intros k Hk; cbn [words_at]; [done|].
  rewrite word_at_drop by done. replace (off + k + 4) with (off + (k + 4)) by lia. by rewrite IH by lia.
Qed.
Lemma inode_at_encode d off m rest : wf_dinode d → 0 ≤ off → drop (Z.to_nat off) m = encode_inode d ++ rest → inode_at off m = d.
Proof.
  intros (H1 & H2 & H3 & H4 & H5 & H6 & Hl & Hw & H7 & H8) Ho E. unfold inode_at. rewrite <- (Z.add_0_r off) at 1.
  rewrite !word_at_drop, !half_at_drop, words_at_drop by lia. rewrite E. destruct d as [mode size dtime links blocks flags ptrs facl dacl]. cbn in *.
  do 16 (destruct ptrs as [|? ptrs]; [try done|try done]). unfold is_u32 in *. repeat (apply Forall_cons in Hw as [? Hw]). unfold is_u32 in *.
  f_equal; [apply (le_value_write 2)|apply (le_value_write 4)|apply (le_value_write 4)|apply (le_value_write 2)|apply (le_value_write 4)|apply (le_value_write 4)|
    |apply (le_value_write 4)|apply (le_value_write 4)]; try (cbn; lia).
  cbn [words_at]. repeat (f_equal; [apply (le_value_write 4); cbn; lia|]). f_equal. apply (le_value_write 4); cbn; lia.
Qed.

Section mounted_claims.
Context {M : Type} `{DiskLaws M}.
Implicit Types (s : vfs_state (ext2_state M)).

(** C29: resolving any path on mounted ext2 volumes is safe: whatever the disk and the heap
    refuse, [vfs_path_lookup] terminates without a fault, keeps the invariant of the inode
    cache - one inode per number, counts in range, private data owned by one inode and
    present - the superblocks and the open files, and changes the references of no inode but
    the one it returns, which has one more. The volumes must have sane geometry and directories whose
    entries lie in their block ([cache_ok]; [name_beyond_block_faults] in [Demo] shows a
    fault without it), and the counts room for the references the walk takes. *)
Theorem ext2_path_lookup_safe path s : cache_ok s → rooted s → counts_below (Z.of_nat (length path) + 3) s →
  ∃ r s', vfs_path_lookup path s = Ret (Some (r, s')) ∧ cache_ok s' ∧ steady s s' ∧ (∀ q, refs s' q = refs s q + gained r q).
Proof.
  intros Hs Hr Hb. destruct (path_lookup_balanced path s Hs Hr Hb) as (r & s' & ? & ? & ? & ? & _). by exists r, s'.
Qed.

(** C33: an inode written to its place in the inode table - block and offset follow from its number,
    the group descriptor and the inode size - is read back: [ext2_read_inode] never faults, with
    memory and disk at hand it succeeds, and then the inode has the mode, size, blocks and links that
    were written, its private data the block pointers, flags and lists, and its operations those of its type. *)
Theorem ext2_read_inode_roundtrip s sb p x fs esb bgd a d rest : volume s sb fs esb bgd a → inodes s !! p = Some x → 0 ≤ i_ino x →
  valid_ino fs esb (i_ino x) → wf_dinode d →
  drop (Z.to_nat (inode_byte fs esb (i_ino x) mod block_size fs)) (block_bytes fs a (disk s) (inode_block fs esb bgd (i_ino x))) = encode_inode d ++ rest →
  ∃ r s', ext2_read_inode sb p s = Ret (r, s') ∧ (two_blocks s → healthy (disk s) → r = 0) ∧
    (r = 0 → ∃ y ei, inodes s' = <[p := y]> (inodes s) ∧ i_mode y = d_mode d ∧ i_size y = d_size d ∧ i_blocks y = d_blocks d ∧
       i_nlink y = d_links_count d ∧ i_private y = ei ∧ i_ino y = i_ino x ∧ i_count y = i_count x ∧
       (i_op y = dir_inode_ops ↔ vfs_mode_to_type (d_mode d) = V_DIR) ∧ (i_fop y = file_ops ↔ vfs_mode_to_type (d_mode d) = V_REG) ∧
       infos (priv s') = <[ei := mk_ei (d_block d) (d_flags d) (d_file_acl d) (d_dir_acl d) (d_dtime d)]> (infos (priv s)) ∧ ei ∉ live (vheap s)).
Proof.
  intros Hv Hx Hino Hval Hwf Hd. destruct (read_inode_spec s sb p x fs esb bgd a Hv Hx Hino) as (r & s' & Hr & [_ _ _ Hcase] & _ & Hok).
  pose proof (ge_size _ (vo_geometry _ _ _ _ _ _ Hv)) as Hbs.
  assert (disk_inode fs esb bgd a (disk s) (i_ino x) = d) as Hdi.
  { eapply inode_at_encode; [done| |done]. apply Z.mod_pos_bound. lia. }
  rewrite Hdi in Hcase. exists r, s'. split_and!; [done|by apply Hok|]. intros ->. destruct Hcase as [[? _]|(_ & ei & _ & Hnl & _ & Hi & Hin)]; [done|].
  exists (set_ops (set_iprivate ei (set_attrs d x))), ei. split; [done|]. unfold set_ops.
  change (i_mode (set_iprivate ei (set_attrs d x))) with (d_mode d) in *. destruct (vfs_mode_to_type (d_mode d)); split_and!; done.
Qed.
End mounted_claims.
