(* ===== verification/Demo.v ===== *)
(** * A small ext2 volume

    A disk with one volume of four inodes - the root directory with the file "a" - that
    satisfies the hypotheses of the theorems on [kernel/fs]: their witnesses, and runs of the
    whole stack from the probe of the disk to the bytes of the file. *)
From S2P Require Import Prelude Bits Mem E820 Block Vfs Path Ext2 Volume Mounted.
Import E820 Block Vfs Ext2.

Definition pad (l : list Z) : list Z := take 512 (l ++ replicate 512 0).
Definition zero_inode : ext2_inode := mk_dinode 0 0 0 0 0 0 (replicate 15 0) 0 0.
Definition root_inode : ext2_inode := mk_dinode 0x41ED 1024 0 2 2 0 (4 :: replicate 14 0) 0 0.
Definition file_inode : ext2_inode := mk_dinode 0x81A4 5 0 1 2 0 (5 :: replicate 14 0) 0 0.
Definition demo_image (lba : Z) : list Z :=
  if lba =? 2 then
    write_le 4 4 ++ write_le 4 64 ++ write_le 4 0 ++ write_le 4 10 ++ write_le 4 1 ++ write_le 4 1 ++ write_le 4 0 ++ write_le 4 0 ++
    write_le 4 64 ++ write_le 4 0 ++ write_le 4 4 ++ replicate 12 0 ++ write_le 2 0xEF53 ++ replicate 30 0 ++ write_le 2 128
  else if lba =? 4 then replicate 8 0 ++ write_le 4 3
  else if lba =? 6 then encode_inode zero_inode ++ encode_inode root_inode ++ encode_inode file_inode
  else if lba =? 8 then encode_dentry (mk_dentry 2 2 [46] [0; 0]) ++ write_le 4 3 ++ write_le 2 1012 ++ write_le 2 1 ++ [1; 97]
  else if lba =? 10 then [104; 101; 108; 108; 111] else [].
Definition demo_sector (lba : Z) : list Z := pad (demo_image lba).

Lemma length_pad l : length (pad l) = 512%nat.
Proof. unfold pad. rewrite length_take, length_app, length_replicate. lia. Qed.
Lemma pad_u8 l : Forall is_u8 l → Forall is_u8 (pad l).
Proof. intros Hl. apply Forall_take, Forall_app. split; [done|]. by apply Forall_replicate. Qed.
Lemma demo_image_u8 lba : Forall is_u8 (demo_image lba).
Proof.
  unfold demo_image. repeat (destruct (lba =? _); [apply (bool_decide_unpack _); vm_compute; exact I|]). done.
Qed.

Inductive demo_disk := the_disk.
#[export] Instance demo_driver : AtaDriver demo_disk := {|
  ata_init m := (0, m); ata_device_exists i _ := i =? 0; ata_get_info _ _ := Some (mk_info 128 1 1 128);
  ata_read _ lba n m := (Some (sectors demo_sector lba (Z.to_nat n)), m); ata_write _ _ _ _ m := (false, m) |}.
#[export] Program Instance demo_laws : DiskLaws demo_disk := {| sector _ lba _ := demo_sector lba; healthy _ := True |}.
Next Obligation. intros. apply length_pad. Qed.
Next Obligation. intros. apply pad_u8, demo_image_u8. Qed.
Next Obligation. done. Qed.
Next Obligation. intros dev lba n m bytes _ [= <-]. done. Qed.
Next Obligation. done. Qed.

(** From the probe of the disk to the mounted volume *)
Definition demo_boot : outcome (Z * vfs_state (ext2_state demo_disk)) :=
  r ← block_init (mk_block ∅ ∅ [] 0 (mk_kheap ∅ [500; 501]) the_disk);
  vfs_mount true (Some (disk_name 0)) [SLASH]
    (vfs_init (mk_vfs ∅ [] [] 0 ∅ [] 0 ∅ [] 0 0 ∅ [] 0 (mk_kheap ∅ [100; 101; 102; 103; 104; 105; 106; 107; 108; 109; 110; 111; 112; 113; 114])
       (mk_ext2 (snd (r : Z * block_state demo_disk)) ∅ ∅ ∅ ∅))).
Definition demo_super : ext2_superblock := mk_sb 4 64 10 1 1 0 64 4 0xEF53 128.
Definition demo_fs : ext2_fs_info := mk_fs 102 103 1 1024 128 4 64 500 1.
Definition demo_ata : ata_block_dev := mk_ata 0 true.
Definition demo_bgd : list Z := sectors demo_sector 4 2.
Definition demo_root : vfs_inode := mk_inode 100 2 2 0x41ED 1024 2 1 0 dir_inode_ops dir_ops 106.
Definition demo_ei : ext2_inode_info := mk_ei (4 :: replicate 14 0) 0 0 0 0.
Definition demo_dev : block_device := mk_dev 0 (disk_name 0) 65536 512 128 false 2 true 501.
Definition demo : vfs_state (ext2_state demo_disk) :=
  mk_vfs {[104 := demo_root]} (zinsert (replicate 256 []) 14 [104]) [104] 1 ∅ [] 0
    {[100 := mk_super 0 1024 0xEF53 NAME_EXT2 104 64 10 4 1 101 true 1]} [100] 100 1 {[107 := mk_mount 100 [SLASH]]} [107] 1
    (mk_kheap (list_to_set [100; 101; 102; 103; 104; 106; 107]) [108; 109; 110; 111; 112; 113; 114])
    (mk_ext2 (mk_block {[500 := demo_dev]} {[501 := demo_ata]} [500; 0; 0; 0] 1 (mk_kheap (list_to_set [500; 501]) []) the_disk)
       {[101 := demo_fs]} {[102 := demo_super]} {[103 := demo_bgd]} {[106 := demo_ei]}).

(** Probing the disk and mounting it at "/" gives this state. *)
Theorem demo_mounts : demo_boot = Ret (0, demo).
Proof. vm_compute. reflexivity. Qed.

Lemma demo_geometry : geometry demo_fs.
Proof. split; cbn; [by exists 2|lia|by exists 8|lia]. Qed.
Lemma demo_attached : attached (priv demo) demo_fs demo_ata.
Proof. split; [done|]. exists demo_dev. split_and!; done. Qed.
Lemma demo_volume : volume demo 100 demo_fs demo_super demo_bgd demo_ata.
Proof.
  split; [by eexists|done|done|apply demo_geometry|apply demo_attached|done|done| | |done].
  - unfold demo_bgd. rewrite length_sectors by (intros; apply length_pad). cbn. lia.
  - apply Forall_sectors. intros i. apply pad_u8, demo_image_u8.
Qed.
Lemma demo_modes ino : 1 ≤ ino ≤ 4 → vfs_mode_to_type (d_mode (disk_inode demo_fs demo_super demo_bgd demo_ata the_disk ino)) = V_DIR → ino = 2.
Proof. intros Hi. assert (ino = 1 ∨ ino = 2 ∨ ino = 3 ∨ ino = 4) as [->|[->|[->| ->]]] by lia; vm_compute; done. Qed.
Lemma demo_dir : dir_sound demo_fs demo_ata the_disk 4.
Proof. intros _. vm_compute. reflexivity. Qed.
Lemma demo_sound : sound demo demo_fs demo_super demo_bgd demo_ata.
Proof.
  intros ino b [Hi _] Hm Hb. pose proof (demo_modes ino Hi Hm) as ->.
  assert (zlookup (d_block (disk_inode demo_fs demo_super demo_bgd demo_ata (disk demo) 2)) 0 = Some 4) as E by (vm_compute; reflexivity).
  rewrite E in Hb. injection Hb as <-. apply demo_dir.
Qed.
Lemma demo_usable : usable 100 demo.
Proof. exists demo_fs, demo_super, demo_bgd, demo_ata. split; [apply demo_volume|apply demo_sound]. Qed.
Lemma demo_data : data_ok demo_root demo.
Proof.
  right. split; [done|]. exists demo_ei. split_and!; [done|done|by repeat constructor|].
  intros _ fs esb bgd a b Hv Hb. destruct (volume_unique _ _ _ _ _ _ _ _ _ _ demo_volume Hv) as [-> ->]. injection Hb as <-. apply demo_dir.
Qed.
Lemma demo_chain h l : zlookup (hash_table demo) h = Some l → l = [] ∨ h = 14 ∧ l = [104].
Proof.
  cbn [demo hash_table]. destruct (decide (h = 14)) as [->|Hh].
  - rewrite zlookup_zinsert_eq by (rewrite length_replicate; lia). intros [= <-]. by right.
  - rewrite zlookup_zinsert_ne by done. unfold zlookup. destruct (h <? 0); [done|]. intros [-> _]%lookup_replicate. by left.
Qed.
Lemma demo_inode p x : inodes demo !! p = Some x → p = 104 ∧ x = demo_root.
Proof. cbn [demo inodes]. rewrite lookup_singleton_Some. naive_solver. Qed.
Lemma demo_cache_ok : cache_ok demo.
Proof.
  split.
  - cbn [demo hash_table]. rewrite length_zinsert, length_replicate. done.
  - intros p x [-> ->]%demo_inode. split; [done|cbn [vheap demo live]; set_solver|done|apply demo_usable|done| |apply demo_data].
    intros _. split; [cbn [vheap demo live i_private demo_root]; set_solver|]. by apply lookup_singleton_ne.
  - intros p q x y [-> _]%demo_inode [-> _]%demo_inode. done.
  - intros h l p [->|[-> ->]]%demo_chain Hp; [by apply elem_of_nil in Hp|]. apply list_elem_of_singleton in Hp as ->. by exists demo_root.
  - intros h l [->|[-> ->]]%demo_chain; [apply NoDup_nil_2|apply NoDup_singleton].
  - intros p q x y _ _ [-> _]%demo_inode [-> _]%demo_inode. done.
Qed.
Lemma demo_rooted : rooted demo.
Proof. split; [done|]. by eexists _, _. Qed.
Lemma demo_counts n : n < 2 ^ 32 - 1 → counts_below n demo.
Proof.
  intros Hn p. unfold refs. cbn [demo inodes]. destruct (decide (p = 104)) as [->|Hp].
  - rewrite lookup_singleton_eq. cbn. lia.
  - rewrite lookup_singleton_ne by done. cbn. lia.
Qed.

(** "/a" is the file with inode number 3, and reading it gives its bytes. *)
Definition PATH_A : list Z := [47; 97].
Theorem demo_reads_file :
  (r ← vfs_open PATH_A 0 demo;
   match r : option (Z * Z * vfs_state (ext2_state demo_disk)) with
   | Some (result, f, s) => b ← vfs_read f 100 s; Ret (Some (result, fst (b : Z * list Z * vfs_state (ext2_state demo_disk))))
   | None => Ret None
   end) = Ret (Some (0, (5, [104; 101; 108; 108; 111]))).
Proof. vm_compute. reflexivity. Qed.

(** ** Witnesses *)
Lemma ext2_path_lookup_witness : ∃ r s', vfs_path_lookup PATH_A demo = Ret (Some (r, s')) ∧ cache_ok s' ∧ steady demo s' ∧
  (∀ q, refs s' q = refs demo q + gained r q).
Proof. apply (ext2_path_lookup_safe PATH_A demo demo_cache_ok demo_rooted). apply demo_counts. cbn. lia. Defined.
Lemma vfs_iget_iput_witness : ∃ p s', vfs_iget 100 3 demo = Ret (p, s') ∧ got demo s' p 100 3 ∧
  (p ≠ 0 → ∃ s'', vfs_iput p s' = Ret s'' ∧ put s' s'' p ∧ ∀ q, refs s'' q = refs demo q).
Proof. apply (vfs_iget_iput_refine_cache demo 100 3 demo_cache_ok); [apply demo_counts; lia|lia|apply demo_usable|lia]. Defined.

(** The state with the file's inode in place of the root's *)
Definition demo_file : vfs_inode := mk_inode 100 3 1 0x81A4 5 2 1 0 no_inode_ops file_ops 106.
Definition demo_opened : vfs_state (ext2_state demo_disk) :=
  with_inodes {[104 := demo_file]} (on_priv (set_infos {[106 := mk_ei (5 :: replicate 14 0) 0 0 0 0]}) demo).
Lemma demo_mapped : mapped demo_opened 104 demo_file demo_fs demo_ata (mk_ei (5 :: replicate 14 0) 0 0 0 0).
Proof.
  split; [done|done|done|done|by eexists|apply demo_geometry| |done|by repeat constructor].
  split; [done|]. exists demo_dev. by split_and!.
Qed.
Lemma ext2_get_block_witness : ∃ r b s', ext2_get_block 104 3 demo_opened = Ret (r, b, s') ∧
  (r = 0 ∧ 3 < 5 ∧ file_block demo_fs demo_ata (mk_ei (5 :: replicate 14 0) 0 0 0 0) the_disk (3 / 1024) = Some b ∨ r = -1 ∧ b = 0).
Proof.
  destruct (ext2_get_block_is_block_map demo_opened 104 demo_file demo_fs demo_ata _ 3 demo_mapped ltac:(lia)) as (r & b & s' & ? & _ & ? & _).
  by exists r, b, s'.
Defined.
Lemma ext2_file_read_witness : ∃ bytes s', let len := Z.of_nat (length bytes) in
  ext2_file_read 104 100 1 demo_opened = Ret (Some (len, bytes, 1 + len, s')) ∧ len ≤ 4.
Proof.
  destruct (ext2_file_read_returns_file_bytes demo_opened 104 demo_file demo_fs demo_ata _ 100 1 demo_mapped eq_refl ltac:(lia) ltac:(lia))
    as (bytes & s' & ? & _ & ? & _).
  by exists bytes, s'.
Defined.
Definition demo_fresh : vfs_state (ext2_state demo_disk) := with_inodes {[104 := new_inode 100 3]} demo.
Lemma ext2_read_inode_witness : ∃ r s', ext2_read_inode 100 104 demo_fresh = Ret (r, s') ∧ (two_blocks demo_fresh → True → r = 0).
Proof.
  destruct (ext2_read_inode_roundtrip demo_fresh 100 104 (new_inode 100 3) demo_fs demo_super demo_bgd demo_ata file_inode (replicate 640 0))
    as (r & s' & Hr & Hok & _).
  - apply (volume_same demo); try done. apply demo_volume.
  - done.
  - cbn. lia.
  - split; [split|]; done.
  - unfold wf_dinode, is_u32. cbn. split_and!; try lia. by repeat constructor.
  - vm_compute. reflexivity.
  - by exists r, s'.
Defined.

(** ** Failures *)
(** When the heap has no room for the root inode, mounting frees the private data of the
    superblock twice: [ext2_mount] has already stored the pointer, and [vfs_mount] hands the
    superblock to [vfs_free_super], which uses it again. *)
Theorem mount_without_memory_faults :
  (r ← block_init (mk_block ∅ ∅ [] 0 (mk_kheap ∅ [500; 501]) the_disk);
   vfs_mount true (Some (disk_name 0)) [SLASH]
     (vfs_init (mk_vfs ∅ [] [] 0 ∅ [] 0 ∅ [] 0 0 ∅ [] 0 (mk_kheap ∅ [100; 101; 102; 103])
        (mk_ext2 (snd (r : Z * block_state demo_disk)) ∅ ∅ ∅ ∅)))) = Fail Fault.
Proof. vm_compute. reflexivity. Qed.

(** A directory whose last entry claims a longer name than its block holds is read beyond the
    end of the buffer. *)
Theorem name_beyond_block_faults :
  dir_search 33 0 32 (write_le 4 2 ++ write_le 2 14 ++ write_le 2 1 ++ [2; 46; 0; 0; 0; 0] ++ write_le 4 3 ++ write_le 2 18 ++ write_le 2 40 ++ replicate 10 97)
    (replicate 40 97) = Fail Fault.
Proof. vm_compute. reflexivity. Qed.
