(* ===== verification/Conc.v ===== *)
(** * Threads: atomic actions, interleavings and invariants

    The setting of the [kernel/sync] model. Code that shares memory is a [prog]:
    a tree of atomic actions on a shared state with loops and panics, so
    that the loops of the source need no bound. A [machine] is a processor, a
    world of shared data and threads that run the operations of a client in any
    order the protocol allows; its steps are labelled and executable, and
    [reach] closes them. The three policies are the kernel's own scheduling
    (threads leave the processor only in [schedule]), preemption whenever
    interrupts are enabled, and several processors.

    [wp] is a small invariant logic: a thread carries a ghost status, the
    invariant relates the shared state to the statuses of all threads, and a
    proof about one thread's code gives [mstep_ok] for every interleaving. The
    second layer ([linv]) derives once that the sections between
    [spin_lock_irqsave] and [spin_unlock_irqrestore] are atomic and never
    panic on one processor, so that a component reasons about them as one step. *)
From S2P Require Import Prelude.

Module Conc.

(** ** Code *)
Inductive prog (S R : Type) : Type :=
  | PRet (r : R)
  | PAct {B : Type} (f : S → S * B) (k : B → prog S R)
  | PLoop {B : Type} (body : prog S (option B)) (k : B → prog S R)
  | PPanic.
Arguments PRet {S R} r.
Arguments PAct {S R B} f k.
Arguments PLoop {S R B} body k.
Arguments PPanic {S R}.

Fixpoint prog_bind {S A R : Type} (k : A → prog S R) (p : prog S A) : prog S R :=
  match p with
  | PRet a => k a
  | PAct f q => PAct f (λ b, prog_bind k (q b))
  | PLoop body q => PLoop body (λ b, prog_bind k (q b))
  | PPanic => PPanic
  end.
#[export] Instance prog_mbind S : MBind (prog S) := λ A R k p, prog_bind k p.
#[export] Instance prog_mret S : MRet (prog S) := λ A a, PRet a.

Definition act {S B} (f : S → S * B) : prog S B := PAct f PRet.
(** [PLoop] repeats its body until that gives a value. *)
Definition while {S} (body : prog S bool) : prog S () :=
  PLoop (b ← body; PRet (if b : bool then None else Some tt)) PRet.
Definition panic_if {S} (b : bool) : prog S () := if b then PPanic else PRet tt.

(** One atomic action, or the unfolding of a loop. *)
Definition pstep {S R} (p : prog S R) (s : S) : option (prog S R * S) :=
  match p with
  | PAct f k => let '(s', b) := f s in Some (k b, s')
  | PLoop body k => Some (body ≫= λ o, match o with None => PLoop body k | Some b => k b end, s)
  | PRet _ | PPanic => None
  end.

(** Loop-free code run without interruption. *)
Fixpoint exec {S R : Type} (p : prog S R) (s : S) : option (R * S) :=
  match p with
  | PRet r => Some (r, s)
  | PAct f k => let '(s', b) := f s in exec (k b) s'
  | PLoop _ _ | PPanic => None
  end.

Lemma exec_bind {S A R} (p : prog S A) (k : A → prog S R) s :
  exec (p ≫= k) s = ('(a, s') ← exec p s; exec (k a) s').
Proof.
  revert s. induction p as [A r|A B f q IH|A B body _ q _|A]; intros s; [done| |done|done].
  cbn. destruct (f s) as [s' b]. apply IH.
Qed.

(** ** The processor and its threads

    [W] is the shared data together with the states of the threads; the words
    of the spinlocks are a store of their own. *)
Record state (W : Type) := mk_state {
  cur : option nat;        (* the running thread; none inside [schedule] *)
  intf : bool;             (* the interrupt flag *)
  spins : nat → Z;         (* the [locked] word of each spinlock *)
  world : W }.
Arguments mk_state {W}.
Arguments cur {W}.
Arguments intf {W}.
Arguments spins {W}.
Arguments world {W}.

Inductive policy := Cooperative | Preemptive | Multiprocessor.
#[export] Instance policy_eq_dec : EqDecision policy.
Proof. solve_decision. Defined.

Lemma preemptive_one : Preemptive ≠ Multiprocessor.
Proof. done. Qed.
Lemma cooperative_one : Cooperative ≠ Multiprocessor.
Proof. done. Qed.

Definition set_cur {W} (c : option nat) (s : state W) : state W := mk_state c (intf s) (spins s) (world s).
Definition set_intf {W} (b : bool) (s : state W) : state W := mk_state (cur s) b (spins s) (world s).
Definition set_spin {W} (l : nat) (v : Z) (s : state W) : state W :=
  mk_state (cur s) (intf s) (λ k, if decide (k = l) then v else spins s k) (world s).
Definition set_world {W} (w : W) (s : state W) : state W := mk_state (cur s) (intf s) (spins s) w.

(** Code that touches only the world. *)
Fixpoint lift {W R : Type} (p : prog W R) : prog (state W) R :=
  match p with
  | PRet r => PRet r
  | PAct f k => PAct (λ s, let '(w, b) := f (world s) in (set_world w s, b)) (λ b, lift (k b))
  | PLoop body k => PLoop (lift body) (λ b, lift (k b))
  | PPanic => PPanic
  end.

(** Code on a part of the state. *)
Fixpoint zoom {S T R : Type} (get : T → S) (put : S → T → T) (p : prog S R) : prog T R :=
  match p with
  | PRet r => PRet r
  | PAct f k => PAct (λ t, let '(s, b) := f (get t) in (put s t, b)) (λ b, zoom get put (k b))
  | PLoop body k => PLoop (zoom get put body) (λ b, zoom get put (k b))
  | PPanic => PPanic
  end.

(** ** Clients and machines

    A thread at rest is in a mode of the protocol ("idle", "reader", ...). It
    may start any operation allowed there; the result of the operation gives
    its next mode. *)
Record client (W M O : Type) := mk_client {
  allowed : O → M → bool;
  code : nat → O → prog (state W) bool;
  result : O → M → bool → M;
  runnable : nat → W → bool }.
Arguments mk_client {W M O}.
Arguments allowed {W M O}.
Arguments code {W M O}.
Arguments result {W M O}.
Arguments runnable {W M O}.

Inductive thread (W M O : Type) := Rest (m : M) | Run (o : O) (m : M) (p : prog (state W) bool).
Arguments Rest {W M O}.
Arguments Run {W M O}.
Record machine (W M O : Type) := mk_machine { shared : state W; threads : list (thread W M O) }.
Arguments mk_machine {W M O}.
Arguments shared {W M O}.
Arguments threads {W M O}.
Inductive label (O : Type) := Start (i : nat) (o : O) | Go (i : nat) | Dispatch (j : nat).
Arguments Start {O}.
Arguments Go {O}.
Arguments Dispatch {O}.

Section machine.
Context {W M O : Type} (pol : policy) (cl : client W M O).
Implicit Types (s : state W) (x y : machine W M O).

(** May thread [i] take the next step? *)
Definition can_run (i : nat) s : bool :=
  match pol with
  | Multiprocessor => runnable cl i (world s)
  | _ => bool_decide (cur s = Some i)
  end.
(** The processor goes to thread [j]: after [schedule], or on an interrupt. *)
Definition dispatch (j : nat) s : option (state W) :=
  if runnable cl j (world s) && (bool_decide (cur s = None) || (bool_decide (pol = Preemptive) && intf s))
  then Some (set_cur (Some j) s) else None.

Definition mstep (l : label O) x : option (machine W M O) :=
  let set i t s := mk_machine s (<[i := t]> (threads x)) in
  match l with
  | Start i o =>
      match threads x !! i with
      | Some (Rest m) => if can_run i (shared x) && allowed cl o m
                         then Some (set i (Run o m (code cl i o)) (shared x)) else None
      | _ => None
      end
  | Go i =>
      if can_run i (shared x) then
        match threads x !! i with
        | Some (Run o m (PRet r)) => Some (set i (Rest (result cl o m r)) (shared x))
        | Some (Run o m p) => '(p', s') ← pstep p (shared x); Some (set i (Run o m p') s')
        | _ => None
        end
      else None
  | Dispatch j =>
      if bool_decide (j < length (threads x))%nat
      then s ← dispatch j (shared x); Some (mk_machine s (threads x)) else None
  end.

Inductive reach x : machine W M O → Prop :=
  | reach_refl : reach x x
  | reach_step y z l : reach x y → mstep l y = Some z → reach x z.

(** A schedule, given as the labels of its steps. *)
Fixpoint run_labels (ls : list (label O)) x : option (machine W M O) :=
  match ls with
  | [] => Some x
  | l :: ls => y ← mstep l x; run_labels ls y
  end.

Lemma run_labels_reach ls x y : run_labels ls x = Some y → reach x y.
Proof.
  assert (∀ z, reach x z → run_labels ls z = Some y → reach x y) as H; [|apply H; constructor].
  induction ls as [|l ls IH]; intros z Hz; cbn.
  - by intros [= <-].
  - destruct (mstep l z) as [z'|] eqn:Hl; [|done]. cbn. apply IH. by eapply reach_step.
Qed.

(** The end of a schedule, the start if a step of it is impossible. *)
Definition run_final (ls : list (label O)) x : machine W M O := default x (run_labels ls x).
Lemma run_final_reach ls x : reach x (run_final ls x).
Proof.
  unfold run_final. destruct (run_labels ls x) as [y|] eqn:Hy; [by eapply run_labels_reach|constructor].
Qed.

(** All threads at rest, nobody on the processor. *)
Definition start (w : W) (ms : list M) : machine W M O :=
  mk_machine (mk_state None true (λ _, 0) w) (Rest <$> ms).

(** ** The logic *)
Section logic.
Context {G : Type} (Inv : state W → list G → Prop).

Fixpoint wp (self : nat) {R : Type} (p : prog (state W) R) (Q : R → G → Prop) (g : G) {struct p} : Prop :=
  match p with
  | PRet r => Q r g
  | PAct f k => ∀ s gs, Inv s gs → gs !! self = Some g → can_run self s = true →
      ∃ g', Inv (fst (f s)) (<[self := g']> gs) ∧ wp self (k (snd (f s))) Q g'
  | PLoop body k => wp self body (λ o g', match o with None => g' = g | Some b => wp self (k b) Q g' end) g
  | PPanic => False
  end.

Lemma wp_mono self {R : Type} (p : prog (state W) R) (Q Q' : R → G → Prop) g :
  (∀ r g, Q r g → Q' r g) → wp self p Q g → wp self p Q' g.
Proof.
  revert Q Q' g. induction p as [R r|R B f k IH|R B body IHb k IHk|R]; intros Q Q' g HQ; cbn [wp].
  - apply HQ.
  - intros H s gs Hi Hg Hr. destruct (H s gs Hi Hg Hr) as (g' & Hi' & Hk). eauto.
  - apply IHb. intros [b|] g'; [|done]. by apply IHk.
  - done.
Qed.

Lemma wp_bind self {A R : Type} (p : prog (state W) A) (k : A → prog (state W) R) Q g :
  wp self p (λ a g', wp self (k a) Q g') g → wp self (p ≫= k) Q g.
Proof.
  revert g. induction p as [A a|A B f q IH|A B body _ q IHq|A]; intros g; cbn [wp mbind prog_mbind prog_bind].
  - done.
  - intros H s gs Hi Hg Hr. destruct (H s gs Hi Hg Hr) as (g' & Hi' & Hk). exists g'. split; [done|]. by apply IH.
  - apply wp_mono. intros [b|] g'; [|done]. apply IHq.
  - done.
Qed.

Lemma wp_while self body (Q : () → G → Prop) g :
  wp self body (λ b g', if b : bool then g' = g else Q tt g') g → wp self (while body) Q g.
Proof. intros Hb. cbn [wp while]. apply wp_bind. eapply wp_mono; [|exact Hb]. by intros []. Qed.

(** Code that starts with an action is correct where its thread never runs. *)
Definition first_act {R} (p : prog (state W) R) : bool :=
  match p with PAct _ _ | PLoop (PAct _ _) _ => true | _ => false end.
Lemma wp_never self {R : Type} (p : prog (state W) R) (Q : R → G → Prop) g : first_act p = true →
  (∀ s gs, Inv s gs → gs !! self = Some g → can_run self s = true → False) → wp self p Q g.
Proof.
  intros Hp Hn. destruct p as [|B f k|B [|B' f k'| |] k|]; try done; cbn [wp]; intros s gs Hi Hg Hr; by destruct (Hn s gs).
Qed.

(** What is known of a thread with a ghost status. *)
Definition thread_ok (inj : M → G) (i : nat) (t : thread W M O) (g : G) : Prop :=
  match t with
  | Rest m => g = inj m
  | Run o m p => wp i p (λ r g', g' = inj (result cl o m r)) g
  end.
Definition machine_ok inj x : Prop := ∃ gs, Inv (shared x) gs ∧ length gs = length (threads x) ∧
  ∀ i t g, threads x !! i = Some t → gs !! i = Some g → thread_ok inj i t g.

Lemma machine_ok_update inj x gs i t g s' : length gs = length (threads x) →
  (∀ i t g, threads x !! i = Some t → gs !! i = Some g → thread_ok inj i t g) →
  (i < length gs)%nat → Inv s' (<[i := g]> gs) → thread_ok inj i t g →
  machine_ok inj (mk_machine s' (<[i := t]> (threads x))).
Proof.
  intros Hlen Hok Hlt Hi Ht. exists (<[i := g]> gs). cbn [shared threads]. rewrite !length_insert.
  split_and!; [done|done|]. intros j t' g'. destruct (decide (i = j)) as [<-|Hne].
  - rewrite !list_lookup_insert_eq by lia. by intros [= <-] [= <-].
  - rewrite !list_lookup_insert_ne by done. apply Hok.
Qed.

Context (inj : M → G).
Lemma start_ok w ms : Inv (mk_state None true (λ _, 0) w) (inj <$> ms) → machine_ok inj (start w ms).
Proof.
  intros Hi. exists (inj <$> ms). cbn [shared threads start]. rewrite !length_fmap. split_and!; [done|done|].
  intros i t g. rewrite !list_lookup_fmap. destruct (ms !! i); [|done]. by intros [= <-] [= <-].
Qed.

Hypothesis dispatch_inv : ∀ s gs j s', Inv s gs → dispatch j s = Some s' → (j < length gs)%nat → Inv s' gs.
Hypothesis code_ok : ∀ i o m, allowed cl o m = true →
  wp i (code cl i o) (λ r g', g' = inj (result cl o m r)) (inj m).

Lemma mstep_ok l x y : machine_ok inj x → mstep l x = Some y → machine_ok inj y.
Proof.
  intros (gs & Hi & Hlen & Hok) Hs. destruct l as [i o|i|j]; cbn [mstep] in Hs.
  - destruct (threads x !! i) as [[m|]|] eqn:Ht; try done.
    destruct (can_run i (shared x)) eqn:Hr; [|done]. destruct (allowed cl o m) eqn:Ha; [|done].
    injection Hs as <-. pose proof (lookup_lt_Some _ _ _ Ht) as Hlt. rewrite <- Hlen in Hlt.
    destruct (lookup_lt_is_Some_2 gs i Hlt) as [g Hg].
    apply machine_ok_update with gs g; [done|done|done|by rewrite list_insert_id|].
    cbn [thread_ok]. rewrite (Hok _ _ _ Ht Hg). by apply code_ok.
  - destruct (can_run i (shared x)) eqn:Hr; [|done]. destruct (threads x !! i) as [[|o m p]|] eqn:Ht; try done.
    pose proof (lookup_lt_Some _ _ _ Ht) as Hlt. rewrite <- Hlen in Hlt.
    destruct (lookup_lt_is_Some_2 gs i Hlt) as [g Hg]. pose proof (Hok _ _ _ Ht Hg) as Hp. cbn [thread_ok] in Hp.
    destruct p as [r|B f k|B body k|]; cbn [pstep] in Hs.
    + injection Hs as <-. apply machine_ok_update with gs g; [done|done|done|by rewrite list_insert_id|done].
    + destruct (Hp _ _ Hi Hg Hr) as (g' & Hi' & Hk). destruct (f (shared x)) as [s' b].
      injection Hs as <-. by apply machine_ok_update with gs g'.
    + injection Hs as <-. apply machine_ok_update with gs g; [done|done|done|by rewrite list_insert_id|].
      cbn [thread_ok]. apply wp_bind. eapply wp_mono; [|exact Hp]. intros [b|] g'; [done|]. by intros ->.
    + done.
  - destruct (bool_decide_reflect (j < length (threads x))%nat); [|done].
    destruct (dispatch j (shared x)) as [s'|] eqn:Hd; [|done]. injection Hs as <-.
    exists gs. split_and!; [|done|done]. eapply dispatch_inv; [done|done|lia].
Qed.

Lemma reach_ok x y : machine_ok inj x → reach x y → machine_ok inj y.
Proof. intros Hx. induction 1; [done|]. by eapply mstep_ok. Qed.
End logic.
End machine.
End Conc.
