(* ===== verification/Spinlock.v ===== *)
(** * Atomic operations and spinlocks: [kernel/sync/atomic.c], [spinlock.c], [spinlock.h]

    An operation of [atomic.c] on an [int] is a function from the counter to the
    new counter and the result; [Sync] applies it to a field of its data as one
    action. The operations of [spinlock.c] are [prog]s over the lock words of
    [Conc.state]. The RFLAGS register is modelled by its interrupt bit, the only
    one the code looks at. *)
From S2P Require Import Prelude Conc.
Import Conc.

Module Atomic.

Definition atomic_read (a : Z) : Z * Z := (a, a).
Definition atomic_write (i a : Z) : Z * () := (i, tt).
Definition atomic_inc (a : Z) : Z * () := (s32 (a + 1), tt).
Definition atomic_dec (a : Z) : Z * () := (s32 (a - 1), tt).
Definition atomic_add (i a : Z) : Z * () := (s32 (a + i), tt).
Definition atomic_sub (i a : Z) : Z * () := (s32 (a - i), tt).
Definition atomic_inc_return (a : Z) : Z * Z := (s32 (a + 1), s32 (a + 1)).
Definition atomic_dec_return (a : Z) : Z * Z := (s32 (a - 1), s32 (a - 1)).
Definition atomic_add_return (i a : Z) : Z * Z := (s32 (a + i), s32 (a + i)).
Definition atomic_sub_return (i a : Z) : Z * Z := (s32 (a - i), s32 (a - i)).
Definition atomic_dec_and_test (a : Z) : Z * bool := (s32 (a - 1), s32 (a - 1) =? 0).
Definition atomic_inc_and_test (a : Z) : Z * bool := (s32 (a + 1), s32 (a + 1) =? 0).
Definition atomic_sub_and_test (i a : Z) : Z * bool := (s32 (a - i), s32 (a - i) =? 0).
Definition atomic_compare_and_swap (old_val new_val a : Z) : Z * bool :=
  if a =? old_val then (new_val, true) else (a, false).
(** The result also holds the new value of [*old_val]. *)
Definition atomic_compare_exchange (old_val new_val a : Z) : Z * (bool * Z) :=
  if a =? old_val then (new_val, (true, old_val)) else (a, (false, a)).
Definition atomic_xchg (new_val a : Z) : Z * Z := (new_val, a).
Definition atomic_fetch_inc (a : Z) : Z * Z := (s32 (a + 1), a).
Definition atomic_fetch_dec (a : Z) : Z * Z := (s32 (a - 1), a).
Definition atomic_fetch_add (i a : Z) : Z * Z := (s32 (a + i), a).
Definition atomic_fetch_sub (i a : Z) : Z * Z := (s32 (a - i), a).
Definition atomic_or (mask a : Z) : Z * () := (Z.lor a mask, tt).
Definition atomic_and (mask a : Z) : Z * () := (Z.land a mask, tt).
Definition atomic_xor (mask a : Z) : Z * () := (Z.lxor a mask, tt).
Definition atomic_set_bit (nr a : Z) : Z * () := atomic_or (s32 (Z.shiftl 1 nr)) a.
Definition atomic_clear_bit (nr a : Z) : Z * () := atomic_and (Z.lnot (s32 (Z.shiftl 1 nr))) a.

(** Two actions on the counter, so other threads may come between them. *)
Definition atomic_test_and_set_bit (nr : Z) : prog Z bool :=
  old_val ← act atomic_read;
  ok ← act (atomic_compare_and_swap old_val (Z.lor old_val (s32 (Z.shiftl 1 nr))));
  PRet (negb ok).
Definition atomic_test_and_clear_bit (nr : Z) : prog Z bool :=
  old_val ← act atomic_read;
  ok ← act (atomic_compare_and_swap old_val (Z.land old_val (Z.lnot (s32 (Z.shiftl 1 nr)))));
  PRet (negb ok).

(** Run alone, [atomic_test_and_set_bit] sets the bit and reports 0 whatever
    the bit was. *)
Lemma atomic_test_and_set_bit_alone nr a :
  exec (atomic_test_and_set_bit nr) a = Some (false, Z.lor a (s32 (Z.shiftl 1 nr))).
Proof. cbn. unfold atomic_compare_and_swap. by rewrite Z.eqb_refl. Qed.

End Atomic.
Import Atomic.

Module Spinlock.
Section code.
Context {W : Type}.
#[local] Notation code := (prog (state W)).

(** The builtins clear and set the first byte of the word. *)
Definition test_and_set (v : Z) : Z * bool := (Z.lor (Z.land v (-256)) 1, negb (v mod 256 =? 0)).
Definition clear (v : Z) : Z * () := (Z.land v (-256), tt).
Definition on_spin {B} (l : nat) (f : Z → Z * B) : code B :=
  act (λ s, let '(v, b) := f (spins s l) in (set_spin l v s, b)).

Definition interrupt_disable : code () := act (λ s, (set_intf false s, tt)).
Definition interrupt_enable : code () := act (λ s, (set_intf true s, tt)).
Definition read_rflags : code Z := act (λ s, (s, if intf s then 0x200 else 0)).

Definition spin_lock_init (l : nat) : code () := act (λ s, (set_spin l 0 s, tt)).
Definition spin_is_locked (l : nat) : code bool := act (λ s, (s, negb (spins s l =? 0))).
Definition spin_lock (l : nat) : code () :=
  b ← spin_is_locked l;
  _ ← panic_if b;
  while (on_spin l test_and_set).
Definition spin_trylock (l : nat) : code bool := b ← on_spin l test_and_set; PRet (negb b).
Definition spin_unlock (l : nat) : code () := on_spin l clear.
Definition spin_lock_irq (l : nat) : code () := _ ← interrupt_disable; spin_lock l.
Definition spin_unlock_irq (l : nat) : code () := _ ← spin_unlock l; interrupt_enable.
Definition spin_lock_irqsave (l : nat) : code Z :=
  rflags ← read_rflags;
  _ ← interrupt_disable;
  _ ← spin_lock l;
  PRet rflags.
Definition spin_unlock_irqrestore (l : nat) (flags : Z) : code () :=
  _ ← spin_unlock l;
  if negb (Z.land flags 0x200 =? 0) then interrupt_enable else PRet tt.

Definition spin_lock_raw (l : nat) : code () := while (on_spin l test_and_set).
Definition spin_unlock_raw (l : nat) : code () := on_spin l clear.
Definition spin_lock_irqsave_raw (l : nat) : code Z :=
  flags ← read_rflags;
  _ ← interrupt_disable;
  _ ← spin_lock_raw l;
  PRet flags.
Definition spin_unlock_irqrestore_raw (l : nat) (flags : Z) : code () :=
  _ ← spin_unlock_raw l;
  if negb (Z.land flags 0x200 =? 0) then interrupt_enable else PRet tt.
End code.

(** ** Critical sections on one processor

    [CInv] is the invariant of a component, over the running thread, the world
    and a status per thread. Outside critical sections it holds of the current
    world; inside one, the ghost state of the thread says what the world is and
    what it will be at the end, where [CInv] holds again. *)
Section sections.
Context {W M O H : Type} (pol : policy) (cl : client W M O) (CInv : option nat → W → list H → Prop).
Hypothesis one_cpu : pol ≠ Multiprocessor.
Implicit Types (s : state W).

Inductive phase := Out | Off | In (l : nat) (now fin : W) (h : H).

Inductive linv s (gs : list (H * phase)) : Prop :=
  | linv_out : (∀ i g, gs !! i = Some g → g.2 = Out) → intf s = true → (∀ l, spins s l = 0) →
      CInv (cur s) (world s) (fst <$> gs) → linv s gs
  | linv_off i h : gs !! i = Some (h, Off) → (∀ j g, gs !! j = Some g → j ≠ i → g.2 = Out) →
      cur s = Some i → intf s = false → (∀ l, spins s l = 0) →
      CInv (Some i) (world s) (fst <$> gs) → linv s gs
  | linv_in i h l w' h' : gs !! i = Some (h, In l (world s) w' h') → (∀ j g, gs !! j = Some g → j ≠ i → g.2 = Out) →
      cur s = Some i → intf s = false → (∀ k, spins s k = if decide (k = l) then 1 else 0) →
      CInv (Some i) w' (<[i := h']> (fst <$> gs)) → linv s gs.

Lemma can_run_cur i s : can_run pol cl i s = true → cur s = Some i.
Proof using one_cpu. unfold can_run. destruct pol; [intros Hb|intros Hb|done]; by apply bool_decide_eq_true in Hb. Qed.

(** The case of the invariant that fits the phase of the running thread. *)
Lemma linv_self_out s gs i h : linv s gs → gs !! i = Some (h, Out) → can_run pol cl i s = true →
  (∀ i g, gs !! i = Some g → g.2 = Out) ∧ intf s = true ∧ (∀ l, spins s l = 0) ∧ cur s = Some i ∧
  CInv (Some i) (world s) (fst <$> gs).
Proof using one_cpu.
  intros Hl Hi Hr%can_run_cur. destruct Hl as [? ? ? HC|j ? Hj ? Hc ? ? HC|j ? ? ? ? Hj ? Hc ? ? HC].
  - rewrite Hr in HC. done.
  - rewrite Hr in Hc. injection Hc as ->. by rewrite Hi in Hj.
  - rewrite Hr in Hc. injection Hc as ->. by rewrite Hi in Hj.
Qed.
Lemma linv_self_off s gs i h : linv s gs → gs !! i = Some (h, Off) →
  (∀ j g, gs !! j = Some g → j ≠ i → g.2 = Out) ∧ cur s = Some i ∧ intf s = false ∧ (∀ l, spins s l = 0) ∧
  CInv (Some i) (world s) (fst <$> gs).
Proof.
  intros Hl Hi. destruct Hl as [Ho|j h' Hj Ho ? ? ? ?|j h' ? ? ? Hj Ho ? ? ? ?].
  - by apply Ho in Hi.
  - destruct (decide (i = j)) as [->|Hne]; [done|]. by apply (Ho _ _ Hi) in Hne.
  - destruct (decide (i = j)) as [->|Hne]; [by rewrite Hi in Hj|]. by apply (Ho _ _ Hi) in Hne.
Qed.
Lemma linv_self_in s gs i h l w w' h' : linv s gs → gs !! i = Some (h, In l w w' h') →
  world s = w ∧ (∀ j g, gs !! j = Some g → j ≠ i → g.2 = Out) ∧ cur s = Some i ∧ intf s = false ∧
  (∀ k, spins s k = if decide (k = l) then 1 else 0) ∧ CInv (Some i) w' (<[i := h']> (fst <$> gs)).
Proof.
  intros Hl Hi. destruct Hl as [Ho|j ? Hj Ho ? ? ? ?|j ? ? ? ? Hj Ho ? ? ? ?].
  - by apply Ho in Hi.
  - destruct (decide (i = j)) as [->|Hne]; [by rewrite Hi in Hj|]. by apply (Ho _ _ Hi) in Hne.
  - destruct (decide (i = j)) as [->|Hne]; [|by apply (Ho _ _ Hi) in Hne].
    rewrite Hi in Hj. by injection Hj as -> -> -> -> ->.
Qed.

(** Statuses after a step of thread [i]. *)
Lemma fst_insert (gs : list (H * phase)) i h p : fst <$> <[i := (h, p)]> gs = <[i := h]> (fst <$> gs).
Proof. apply list_fmap_insert. Qed.
Lemma fst_insert_same (gs : list (H * phase)) i h p q : gs !! i = Some (h, q) → fst <$> <[i := (h, p)]> gs = fst <$> gs.
Proof. intros Hi. rewrite fst_insert. apply list_insert_id. by rewrite list_lookup_fmap, Hi. Qed.
Lemma others_out (gs : list (H * phase)) i g : (∀ j g, gs !! j = Some g → j ≠ i → g.2 = Out) →
  ∀ j g', <[i := g]> gs !! j = Some g' → j ≠ i → g'.2 = Out.
Proof. intros Ho j g' Hj Hne. rewrite list_lookup_insert_ne in Hj by done. by eapply Ho. Qed.
Lemma all_out (gs : list (H * phase)) i h : (∀ j g, gs !! j = Some g → j ≠ i → g.2 = Out) →
  ∀ j g', <[i := (h, Out)]> gs !! j = Some g' → g'.2 = Out.
Proof.
  intros Ho j g' Hj. destruct (decide (j = i)) as [->|Hne]; [|by eapply others_out].
  apply list_lookup_insert_Some in Hj as [(_ & <- & _)|[? _]]; done.
Qed.
Lemma schedule_inv s gs j s' :
  (∀ c w hs j, CInv c w hs → runnable cl j w = true → c = None ∨ pol = Preemptive → (j < length hs)%nat →
     CInv (Some j) w hs) →
  linv s gs → dispatch pol cl j s = Some s' → (j < length gs)%nat → linv s' gs.
Proof.
  intros HC Hl. unfold dispatch. destruct (runnable cl j (world s)) eqn:Hj; [|done]. cbn [andb].
  intros Hd Hlt. destruct (bool_decide_reflect (cur s = None)) as [Hc|Hc]; cbn [orb] in Hd.
  - destruct Hl as [? ? ? HI| |]; [|congruence|congruence]. injection Hd as <-.
    apply linv_out; [done..|]. cbn. apply (HC (cur s)); [done|done|by left|by rewrite length_fmap].
  - destruct (bool_decide_reflect (pol = Preemptive)) as [Hp|]; [|done]. destruct (intf s) eqn:Hi; [|done].
    destruct Hl as [? ? ? HI| |]; [|congruence|congruence]. injection Hd as <-.
    apply linv_out; [done..|]. cbn. apply (HC (cur s)); [done|done|by right|by rewrite length_fmap].
Qed.

#[local] Notation wpl := (wp pol cl linv).

(** An action on the world outside critical sections. *)
Lemma wp_world {B R} self (f : W → W * B) (k : B → prog (state W) R) Q h :
  (∀ w hs, CInv (Some self) w hs → hs !! self = Some h →
     ∃ h', CInv (Some self) (fst (f w)) (<[self := h']> hs) ∧ wpl self (k (snd (f w))) Q (h', Out)) →
  wpl self (lift (act f) ≫= k) Q (h, Out).
Proof using one_cpu.
  intros Hf s gs Hl Hg Hr. destruct (linv_self_out _ _ _ _ Hl Hg Hr) as (Ho & Hi & Hs & Hc & HC).
  destruct (Hf (world s) (fst <$> gs) HC) as (h' & HC' & Hk); [by rewrite list_lookup_fmap, Hg|].
  exists (h', Out). cbn. destruct (f (world s)) as [w b]. cbn in *. split; [|done].
  apply linv_out; cbn; [|done|done|].
  - apply all_out. intros j g Hj _. by eapply Ho.
  - by rewrite fst_insert, Hc.
Qed.

(** [schedule] gives the processor away. *)
Definition leave_cpu : prog (state W) () := act (λ s, (set_cur None s, tt)).
Lemma wp_schedule {R} self (k : () → prog (state W) R) Q h :
  (∀ w hs, CInv (Some self) w hs → hs !! self = Some h →
     ∃ h', CInv None w (<[self := h']> hs) ∧ wpl self (k tt) Q (h', Out)) →
  wpl self (leave_cpu ≫= k) Q (h, Out).
Proof using one_cpu.
  intros Hf s gs Hl Hg Hr. destruct (linv_self_out _ _ _ _ Hl Hg Hr) as (Ho & Hi & Hs & Hc & HC).
  destruct (Hf (world s) (fst <$> gs) HC) as (h' & HC' & Hk); [by rewrite list_lookup_fmap, Hg|].
  exists (h', Out). split; [|done]. apply linv_out; cbn; [|done|done|by rewrite fst_insert].
  apply all_out. intros j g Hj _. by eapply Ho.
Qed.

(** Taking the lock: interrupts are off, the word is clear, one attempt succeeds. *)
Lemma wp_irqsave {R} self l (k : Z → prog (state W) R) Q h :
  (∀ flags, negb (Z.land flags 0x200 =? 0) = true → ∀ w hs, CInv (Some self) w hs → hs !! self = Some h →
     ∃ w' h', CInv (Some self) w' (<[self := h']> hs) ∧ wpl self (k flags) Q (h, In l w w' h')) →
  wpl self (spin_lock_irqsave l ≫= k) Q (h, Out).
Proof using one_cpu.
  intros Hk s gs Hl Hg Hr. destruct (linv_self_out _ _ _ _ Hl Hg Hr) as (Ho & Hi & Hs & Hc & HC).
  exists (h, Out). cbn. rewrite list_insert_id by done. split; [done|]. rewrite Hi.
  clear s gs Hl Hg Hr Ho Hi Hs Hc HC. intros s gs Hl Hg Hr.
  destruct (linv_self_out _ _ _ _ Hl Hg Hr) as (Ho & Hi & Hs & Hc & HC).
  exists (h, Off). split.
  { eapply (linv_off _ _ self h); cbn; [apply list_lookup_insert_eq; by eapply lookup_lt_Some| |done..|].
    - apply others_out. intros j g Hj _. by eapply Ho.
    - by erewrite fst_insert_same. }
  cbn. clear s gs Hl Hg Hr Ho Hi Hs Hc HC. intros s gs Hl Hg Hr.
  destruct (linv_self_off _ _ _ _ Hl Hg) as (Ho & Hi & Hs & Hz & HC).
  exists (h, Off). rewrite list_insert_id by done. split; [done|]. rewrite Hz. cbn.
  clear s gs Hl Hg Hr Ho Hi Hs Hz HC. intros s gs Hl Hg Hr.
  destruct (linv_self_off _ _ _ _ Hl Hg) as (Ho & Hi & Hs & Hz & HC). rewrite Hz.
  destruct (Hk 0x200 eq_refl (world s) (fst <$> gs) HC) as (w' & h' & HC' & Hw);
    [by rewrite list_lookup_fmap, Hg|].
  exists (h, In l (world s) w' h'). cbn. split; [|done].
  eapply (linv_in _ _ self h l w' h'); cbn; [apply list_lookup_insert_eq; by eapply lookup_lt_Some| |done|done| |].
  - by apply others_out.
  - intros j. by rewrite Hz.
  - by rewrite (fst_insert_same _ _ _ _ _ Hg).
Qed.
(** Inside, the code runs undisturbed. *)
Lemma wp_inside {A R} self l (c : prog W A) (k : A → prog (state W) R) Q h w wa w' h' a :
  exec c w = Some (a, wa) → wpl self (k a) Q (h, In l wa w' h') →
  wpl self (lift c ≫= k) Q (h, In l w w' h').
Proof.
  intros Hc Hk. revert w Hc. induction c as [A r|A B f q IH|A B b _ q _|A]; intros w Hc; [|  |done|done].
  - by injection Hc as -> ->.
  - cbn. intros s gs Hl Hg Hr. destruct (linv_self_in _ _ _ _ _ _ _ _ Hl Hg) as (<- & Ho & Hcu & Hi & Hs & HC).
    cbn in Hc. destruct (f (world s)) as [w1 b]. exists (h, In l w1 w' h'). split; [|by eapply IH].
    eapply (linv_in _ _ self h l w' h'); cbn; [apply list_lookup_insert_eq; by eapply lookup_lt_Some| |done..|].
    + by apply others_out.
    + by rewrite (fst_insert_same _ _ _ _ _ Hg).
Qed.
(** Releasing the lock at the end the ghost state foresaw. *)
Lemma wp_irqrestore {R} self l flags (k : () → prog (state W) R) Q h w h' :
  negb (Z.land flags 0x200 =? 0) = true → wpl self (k tt) Q (h', Out) →
  wpl self (spin_unlock_irqrestore l flags ≫= k) Q (h, In l w w h').
Proof.
  intros Hf Hk s gs Hl Hg Hr. destruct (linv_self_in _ _ _ _ _ _ _ _ Hl Hg) as (Hw & Ho & Hc & Hi & Hs & HC).
  exists (h', Off). split.
  { eapply (linv_off _ _ self h'); cbn; [apply list_lookup_insert_eq; by eapply lookup_lt_Some| |done..| |].
    - by apply others_out.
    - intros j. rewrite !Hs. destruct (decide (j = l)); [by rewrite decide_True|done].
    - by rewrite fst_insert, Hw. }
  cbn. rewrite Hf. clear s gs Hl Hg Hr Hw Ho Hc Hi Hs HC. intros s gs Hl Hg Hr.
  destruct (linv_self_off _ _ _ _ Hl Hg) as (Ho & Hc & Hi & Hz & HC).
  exists (h', Out). split; [|done]. apply linv_out; cbn; [|done|done|].
  - by apply all_out.
  - by rewrite (fst_insert_same _ _ _ _ _ Hg), Hc.
Qed.

(** A critical section is one step on the world. *)
Lemma wp_section {A R} self l (c : prog W A) (k : A → prog (state W) R) Q h :
  (∀ w hs, CInv (Some self) w hs → hs !! self = Some h →
     ∃ a w' h', exec c w = Some (a, w') ∧ CInv (Some self) w' (<[self := h']> hs) ∧ wpl self (k a) Q (h', Out)) →
  wpl self (flags ← spin_lock_irqsave l; a ← lift c; _ ← spin_unlock_irqrestore l flags; k a) Q (h, Out).
Proof using one_cpu.
  intros Hc. apply wp_irqsave. intros flags Hf w hs HC Hh.
  destruct (Hc w hs HC Hh) as (a & w' & h' & He & HC' & Hk). exists w', h'. split; [done|].
  eapply wp_inside; [done|]. by apply wp_irqrestore.
Qed.

(** Machines of such a component. *)
Context (injH : M → H).
#[local] Notation inj := (λ m, (injH m, Out)).
Lemma section_start w ms : CInv None w (injH <$> ms) → machine_ok pol cl linv inj (start w ms).
Proof.
  intros HC. apply start_ok. apply linv_out; cbn; [|done|done|].
  - intros i g. rewrite list_lookup_fmap. destruct (ms !! i); [|done]. by intros [= <-].
  - by rewrite <- list_fmap_compose.
Qed.
Lemma section_reach x y :
  (∀ c w hs j, CInv c w hs → runnable cl j w = true → c = None ∨ pol = Preemptive → (j < length hs)%nat →
     CInv (Some j) w hs) →
  (∀ i o m, allowed cl o m = true →
     wpl i (code cl i o) (λ r g', g' = inj (result cl o m r)) (inj m)) →
  machine_ok pol cl linv inj x → reach pol cl x y → machine_ok pol cl linv inj y.
Proof. intros Hd Hc. apply reach_ok; [|done]. intros s gs j s' Hl. by apply schedule_inv. Qed.
(** The statuses of threads at rest fit the invariant, also while another
    thread is inside a section. *)
Lemma rest_status x : machine_ok pol cl linv inj x → ∃ c w hs, CInv c w hs ∧ length hs = length (threads x) ∧
  ∀ j m, threads x !! j = Some (Rest m) → hs !! j = Some (injH m).
Proof.
  intros (gs & Hl & Hlen & Hok).
  assert (∀ j m, threads x !! j = Some (Rest m) → gs !! j = Some (injH m, Out)) as Hr.
  { intros j m Hj. destruct (lookup_lt_is_Some_2 gs j) as [g Hg]; [rewrite Hlen; by eapply lookup_lt_Some|].
    rewrite Hg. by rewrite (Hok _ _ _ Hj Hg). }
  destruct Hl as [? ? ? HC|i h Hi ? ? ? ? HC|i h l w' h' Hi ? ? ? ? HC]; eexists _, _, _.
  - split; [exact HC|]. rewrite length_fmap. split; [done|]. intros j m Hj. by rewrite list_lookup_fmap, (Hr _ _ Hj).
  - split; [exact HC|]. rewrite length_fmap. split; [done|]. intros j m Hj. by rewrite list_lookup_fmap, (Hr _ _ Hj).
  - split; [exact HC|]. rewrite length_insert, length_fmap. split; [done|]. intros j m Hj.
    destruct (decide (i = j)) as [<-|Hne]; [by rewrite (Hr _ _ Hj) in Hi|].
    rewrite list_lookup_insert_ne by done. by rewrite list_lookup_fmap, (Hr _ _ Hj).
Qed.
End sections.
End Spinlock.
