(* ===== verification/Sync.v ===== *)
(** * Locks for threads: [kernel/sync] over [Conc] and [Spinlock]

    Claims about spinlocks on several processors and about critical sections on
    one; the reader-writer lock, the semaphore, the mutex and the condition
    variable as programs of atomic actions, with the invariants that hold under
    every interleaving and the schedules that break the others. The data of a
    component holds its C fields (lists of waiters as the sequences of threads
    they represent, by [DList]) and the set of threads that sleep. *)
From S2P Require Import Prelude Conc Spinlock.
Import Conc Atomic Spinlock.

Module Sync.

(** ** Counting statuses *)
Definition cnt {A} (P : A → bool) (l : list A) : Z := Z.of_nat (length (filter (λ a, P a = true) l)).
Arguments cnt : simpl never.
Lemma cnt_cons {A} (P : A → bool) a l : cnt P (a :: l) = Z.b2z (P a) + cnt P l.
Proof.
  unfold cnt. rewrite filter_cons. destruct (decide (P a = true)) as [->|Hn]; cbn [length Z.b2z]; [lia|].
  apply not_true_is_false in Hn as ->. cbn [Z.b2z]. lia.
Qed.
Lemma cnt_nonneg {A} (P : A → bool) l : 0 ≤ cnt P l.
Proof. unfold cnt. lia. Qed.
Lemma cnt_le_length {A} (P : A → bool) l : cnt P l ≤ Z.of_nat (length l).
Proof. unfold cnt. pose proof (length_filter (λ a, P a = true) l). lia. Qed.
Lemma cnt_insert {A} (P : A → bool) l i a b : l !! i = Some a →
  cnt P (<[i := b]> l) = cnt P l - Z.b2z (P a) + Z.b2z (P b).
Proof.
  revert i. induction l as [|c l IH]; intros [|i]; [done..| |].
  - intros [= ->]. cbn [insert list_insert]. rewrite !cnt_cons. lia.
  - intros Hl. change (<[S i := b]> (c :: l)) with (c :: <[i := b]> l). rewrite !cnt_cons, (IH i Hl). lia.
Qed.
Lemma cnt_ge_1 {A} (P : A → bool) l i a : l !! i = Some a → P a = true → 1 ≤ cnt P l.
Proof.
  revert i. induction l as [|c l IH]; intros [|i]; [done..| |]; rewrite cnt_cons.
  - intros [= ->] ->. pose proof (cnt_nonneg P l). cbn. lia.
  - intros Hl Hp. specialize (IH i Hl Hp). destruct (P c); cbn; lia.
Qed.
Lemma cnt_unique {A} (P : A → bool) l i j a b : l !! i = Some a → l !! j = Some b →
  P a = true → P b = true → cnt P l ≤ 1 → i = j.
Proof.
  revert i j. induction l as [|c l IH]; intros [|i] [|j]; try done; rewrite cnt_cons; cbn; intros Hi Hj Ha Hb Hc.
  - injection Hi as ->. pose proof (cnt_ge_1 P l j b Hj Hb). rewrite Ha in Hc. cbn in Hc. lia.
  - injection Hj as ->. pose proof (cnt_ge_1 P l i a Hi Ha). rewrite Hb in Hc. cbn in Hc. lia.
  - f_equal. eapply IH; eauto. destruct (P c); cbn in Hc; lia.
Qed.
Lemma cnt_mono {A} (P Q : A → bool) l : (∀ a, P a = true → Q a = true) → cnt P l ≤ cnt Q l.
Proof.
  intros HPQ. induction l as [|a l IH]; [done|]. rewrite !cnt_cons. specialize (HPQ a).
  destruct (P a), (Q a); cbn; lia.
Qed.
Lemma cnt_replicate {A} (P : A → bool) n a : P a = false → cnt P (replicate n a) = 0.
Proof. intros Ha. induction n as [|n IH]; [done|]. cbn [replicate]. rewrite cnt_cons, Ha, IH. done. Qed.

(** ** Spinlocks on several processors *)
Module Spin.
Inductive op := Lock | TryLock | Unlock.
(** The mode is whether the thread holds the lock. *)
Definition spin_client : client () bool op := mk_client
  (λ o m, match o with Unlock => m | _ => negb m end)
  (λ _ o, match o with
          | Lock => _ ← spin_lock_raw 0; PRet true
          | TryLock => spin_trylock 0
          | Unlock => _ ← spin_unlock 0; PRet false
          end)
  (λ _ _ r, r) (λ _ _, true).

Definition spin_inv (s : state ()) (gs : list bool) : Prop :=
  spins s 0 = cnt id gs ∧ cnt id gs ≤ 1.

Lemma spin_tas {R} i (k : bool → prog (state ()) R) Q :
  wp Multiprocessor spin_client spin_inv i (k false) Q true →
  wp Multiprocessor spin_client spin_inv i (k true) Q false →
  wp Multiprocessor spin_client spin_inv i (on_spin 0 test_and_set ≫= k) Q false.
Proof.
  intros Hf Ht s gs [Hs Hc] Hg _. pose proof (cnt_nonneg id gs). cbn. rewrite Hs.
  assert (cnt id gs = 0 ∨ cnt id gs = 1) as [He|He] by lia; rewrite He; cbn.
  - exists true. split; [|done]. unfold spin_inv. cbn. rewrite (cnt_insert _ _ _ _ _ Hg), He. done.
  - exists false. split; [|done]. unfold spin_inv. cbn. rewrite list_insert_id by done. by rewrite He.
Qed.
Lemma spin_code_ok i o m : allowed spin_client o m = true →
  wp Multiprocessor spin_client spin_inv i (code spin_client i o)
    (λ r g, g = result spin_client o m r) m.
Proof.
  destruct o, m; try done; intros _.
  - apply wp_bind, wp_while. by apply (spin_tas i PRet).
  - by apply spin_tas.
  - intros s gs [Hs Hc] Hg _. pose proof (cnt_ge_1 id _ _ _ Hg eq_refl). exists false. split; [|done].
    unfold spin_inv. cbn. rewrite Hs, (cnt_insert _ _ _ _ _ Hg). replace (cnt id gs) with 1 by lia. done.
Qed.
End Spin.

(** ** Reader-writer lock *)
Module Rwlock.
Record rwlock := mk_rwlock { readers : Z; writers : Z }.
Definition on_readers {B} (f : Z → Z * B) : prog rwlock B :=
  act (λ rw, let '(v, b) := f (readers rw) in (mk_rwlock v (writers rw), b)).
Definition on_writers {B} (f : Z → Z * B) : prog rwlock B :=
  act (λ rw, let '(v, b) := f (writers rw) in (mk_rwlock (readers rw) v, b)).
#[local] Notation code := (prog (state rwlock)).
Definition rw_lock : nat := 0.    (* the field [lock] *)

Definition rwlock_init : code () :=
  _ ← lift (on_readers (atomic_write 0));
  _ ← lift (on_writers (atomic_write 0));
  spin_lock_init rw_lock.
Definition rwlock_read_lock : code () :=
  _ ← while (v ← lift (on_writers atomic_read); PRet (0 <? v));
  flags ← spin_lock_irqsave rw_lock;
  _ ← lift (on_readers atomic_inc);
  _ ← spin_unlock_irqrestore rw_lock flags;
  PRet tt.
(** The section of [rwlock_read_trylock]; the lock is released on both paths. *)
Definition read_trylock_section : prog rwlock bool :=
  v ← on_writers atomic_read;
  if 0 <? v then PRet false else
  _ ← on_readers atomic_inc;
  PRet true.
Definition rwlock_read_trylock : code bool :=
  v ← lift (on_writers atomic_read);
  if 0 <? v then PRet false else
  flags ← spin_lock_irqsave rw_lock;
  r ← lift read_trylock_section;
  _ ← spin_unlock_irqrestore rw_lock flags;
  PRet r.
Definition rwlock_read_unlock : code () := lift (on_readers atomic_dec).
(** One round of the claim: take the lock, look, and either claim or release and
    go round again ([true]). *)
Definition claim_section : prog rwlock bool :=
  v ← on_writers atomic_read;
  if 0 <? v then PRet true else
  _ ← on_writers atomic_inc;
  PRet false.
Definition rwlock_write_lock : code () :=
  _ ← while (flags ← spin_lock_irqsave rw_lock;
             again ← lift claim_section;
             _ ← spin_unlock_irqrestore rw_lock flags;
             PRet again);
  while (v ← lift (on_readers atomic_read); PRet (0 <? v)).
Definition write_trylock_section : prog rwlock bool :=
  w ← on_writers atomic_read;
  if 0 <? w then PRet false else
  r ← on_readers atomic_read;
  if 0 <? r then PRet false else
  _ ← on_writers atomic_inc;
  PRet true.
Definition rwlock_write_trylock : code bool :=
  flags ← spin_lock_irqsave rw_lock;
  r ← lift write_trylock_section;
  _ ← spin_unlock_irqrestore rw_lock flags;
  PRet r.
Definition rwlock_write_unlock : code () := lift (on_writers atomic_dec).
Definition rwlock_write_downgrade : code () :=
  _ ← lift (on_readers atomic_inc);
  lift (on_writers atomic_dec).
Definition rwlock_is_read_locked : code bool := v ← lift (on_readers atomic_read); PRet (0 <? v).
Definition rwlock_is_write_locked : code bool := v ← lift (on_writers atomic_read); PRet (0 <? v).
Definition rwlock_is_locked : code bool :=
  r ← rwlock_is_read_locked;
  if r : bool then PRet true else rwlock_is_write_locked.

Inductive mode := Idle | Reading | Writing.
Inductive op := ReadLock | ReadTryLock | ReadUnlock | WriteLock | WriteTryLock | WriteUnlock | Downgrade.
(** [spinning]: may readers use [rwlock_read_lock]? *)
Definition rw_client (spinning : bool) : client rwlock mode op := mk_client
  (λ o m, match o, m with
          | ReadLock, Idle => spinning
          | (ReadTryLock | WriteLock | WriteTryLock), Idle | ReadUnlock, Reading | (WriteUnlock | Downgrade), Writing => true
          | _, _ => false
          end)
  (λ _ o, match o with
          | ReadLock => _ ← rwlock_read_lock; PRet true
          | ReadTryLock => rwlock_read_trylock
          | ReadUnlock => _ ← rwlock_read_unlock; PRet true
          | WriteLock => _ ← rwlock_write_lock; PRet true
          | WriteTryLock => rwlock_write_trylock
          | WriteUnlock => _ ← rwlock_write_unlock; PRet true
          | Downgrade => _ ← rwlock_write_downgrade; PRet true
          end)
  (λ o _ r, if r then match o with
                      | ReadLock | ReadTryLock | Downgrade => Reading
                      | WriteLock | WriteTryLock => Writing
                      | ReadUnlock | WriteUnlock => Idle
                      end else Idle)
  (λ _ _, true).

(** A thread is idle, reads, has claimed the lock for writing and waits for
    readers, writes, or is half-way through a downgrade. *)
Inductive status := HIdle | HRead | HClaim | HWrite | HDown.
Definition is_writer (h : status) : bool := match h with HClaim | HWrite | HDown => true | _ => false end.
Definition is_reader (h : status) : bool := match h with HRead | HDown => true | _ => false end.
Definition is_alone (h : status) : bool := match h with HWrite => true | _ => false end.
Record rw_inv (c : option nat) (rw : rwlock) (hs : list status) : Prop := {
  ri_writers : writers rw = cnt is_writer hs;
  ri_readers : readers rw = cnt is_reader hs;
  ri_one : cnt is_writer hs ≤ 1;
  ri_alone : cnt is_alone hs = 0 ∨ cnt is_reader hs = 0;
  ri_few : Z.of_nat (length hs) < 2 ^ 31 - 1 }.
Definition injH (m : mode) : status := match m with Idle => HIdle | Reading => HRead | Writing => HWrite end.

Section proofs.
#[local] Notation cl := (rw_client false).
#[local] Notation wpr := (wp Preemptive cl (linv rw_inv)).

(** The counters never leave the range of an [int]. *)
Lemma rw_range c rw hs : rw_inv c rw hs → 0 ≤ readers rw < 2 ^ 31 - 1 ∧ 0 ≤ writers rw ≤ 1.
Proof.
  intros [Hw Hr H1 _ Hf]. pose proof (cnt_nonneg is_writer hs). pose proof (cnt_nonneg is_reader hs).
  pose proof (cnt_le_length is_reader hs). lia.
Qed.
(** A thread changes its status and the counters with it. *)
Lemma rw_update c c' rw hs i h h' r' w' : rw_inv c rw hs → hs !! i = Some h →
  r' = readers rw - Z.b2z (is_reader h) + Z.b2z (is_reader h') →
  w' = writers rw - Z.b2z (is_writer h) + Z.b2z (is_writer h') → w' ≤ 1 →
  (is_alone h' = true → is_alone h = true ∨ readers rw = 0) →
  (is_reader h' = true → is_reader h = true ∨ is_alone h = true ∨ writers rw = 0) →
  rw_inv c' (mk_rwlock r' w') (<[i := h']> hs).
Proof.
  intros [Hw Hr H1 Ha Hf] Hi -> -> Hle H2 H3.
  assert (cnt is_alone hs ≤ cnt is_writer hs) by (apply cnt_mono; by intros []).
  pose proof (cnt_nonneg is_reader (<[i := h']> hs)) as Hn1. pose proof (cnt_nonneg is_alone (<[i := h']> hs)) as Hn2.
  pose proof (cnt_nonneg is_alone hs). pose proof (cnt_ge_1 is_alone hs i h Hi). pose proof (cnt_ge_1 is_reader hs i h Hi).
  rewrite (cnt_insert _ _ _ _ _ Hi) in Hn1. rewrite (cnt_insert _ _ _ _ _ Hi) in Hn2.
  split; cbn [readers writers]; rewrite ?length_insert, ?(cnt_insert _ _ _ _ _ Hi); try lia.
  destruct h, h'; cbn in *; intuition lia.
Qed.

(** Leaving everything as it is. *)
Lemma rw_keep c c' rw hs : rw_inv c rw hs → rw_inv c' rw hs.
Proof. by intros [? ? ? ? ?]. Qed.
Lemma rw_same c rw hs i h : rw_inv c rw hs → hs !! i = Some h →
  rw_inv c (mk_rwlock (readers rw) (writers rw)) (<[i := h]> hs).
Proof. intros HC Hh. rewrite list_insert_id by done. by destruct rw. Qed.
Ltac rw_step HC Hh := eapply (rw_update _ _ _ _ _ _ _ _ _ HC Hh); rewrite ?s32_small by lia;
  cbn [is_reader is_writer is_alone Z.b2z]; (done || lia).

Lemma read_trylock_ok i :
  wpr i rwlock_read_trylock (λ r g, g = (if r : bool then HRead else HIdle, Out)) (HIdle, Out).
Proof.
  apply wp_world; [done|]. intros rw hs HC Hh. exists HIdle. split; [by apply rw_same|]. cbn [atomic_read fst snd].
  destruct (0 <? writers rw); [done|]. apply wp_section; [done|]. clear rw hs HC Hh. intros rw hs HC Hh.
  pose proof (rw_range _ _ _ HC) as [Hr Hw]. cbn. destruct (Z.ltb_spec 0 (writers rw)); cbn.
  - eexists false, _, HIdle. split_and!; [done|by apply rw_same|done].
  - eexists true, _, HRead. split_and!; [done| |done].
    rw_step HC Hh.
Qed.
Lemma read_unlock_ok i : wpr i rwlock_read_unlock (λ _ g, g = (HIdle, Out)) (HRead, Out).
Proof.
  apply (wp_world _ _ _ preemptive_one i _ PRet). intros rw hs HC Hh. exists HIdle. split; [|done].
  pose proof (rw_range _ _ _ HC). cbn. rw_step HC Hh.
Qed.
Lemma write_unlock_ok i : wpr i rwlock_write_unlock (λ _ g, g = (HIdle, Out)) (HWrite, Out).
Proof.
  apply (wp_world _ _ _ preemptive_one i _ PRet). intros rw hs HC Hh. exists HIdle. split; [|done].
  pose proof (rw_range _ _ _ HC). cbn. rw_step HC Hh.
Qed.
Lemma write_downgrade_ok i : wpr i rwlock_write_downgrade (λ _ g, g = (HRead, Out)) (HWrite, Out).
Proof.
  apply wp_world; [done|]. intros rw hs HC Hh. exists HDown. pose proof (rw_range _ _ _ HC).
  split; [cbn; rw_step HC Hh|]. apply (wp_world _ _ _ preemptive_one i _ PRet). clear rw hs HC Hh H.
  intros rw hs HC Hh. exists HRead. split; [|done]. pose proof (rw_range _ _ _ HC). cbn. rw_step HC Hh.
Qed.
Lemma write_trylock_ok i :
  wpr i rwlock_write_trylock (λ r g, g = (if r : bool then HWrite else HIdle, Out)) (HIdle, Out).
Proof.
  apply wp_section; [done|]. intros rw hs HC Hh. pose proof (rw_range _ _ _ HC) as [Hr Hw]. cbn.
  destruct (Z.ltb_spec 0 (writers rw)); cbn; [|destruct (Z.ltb_spec 0 (readers rw)); cbn].
  - eexists false, _, HIdle. split_and!; [done|by apply rw_same|done].
  - eexists false, _, HIdle. split_and!; [done|by apply rw_same|done].
  - eexists true, _, HWrite. split_and!; [done| |done]. rw_step HC Hh.
Qed.
Lemma claim_exec rw : exec claim_section rw =
  Some (if 0 <? writers rw then (true, rw) else (false, mk_rwlock (readers rw) (s32 (writers rw + 1)))).
Proof. destruct rw as [r w]. cbn. by destruct (0 <? w). Qed.
Lemma write_lock_ok i : wpr i rwlock_write_lock (λ _ g, g = (HWrite, Out)) (HIdle, Out).
Proof.
  apply wp_bind, wp_while, wp_section; [done|]. intros rw hs HC Hh. pose proof (rw_range _ _ _ HC) as [Hr Hw].
  rewrite claim_exec. destruct (Z.ltb_spec 0 (writers rw)).
  - exists true, rw, HIdle. split_and!; [done| |done]. by rewrite list_insert_id.
  - eexists false, _, HClaim. split_and!; [done|rw_step HC Hh|].
    apply wp_while, wp_world; [done|]. clear rw hs HC Hh Hr Hw H. intros rw hs HC Hh.
    pose proof (rw_range _ _ _ HC) as [Hr Hw]. cbn. destruct (Z.ltb_spec 0 (readers rw)).
    + exists HClaim. split; [by apply rw_same|done].
    + exists HWrite. split; [|done]. rw_step HC Hh.
Qed.

Lemma rw_code_ok i o m : allowed cl o m = true →
  wpr i (Conc.code cl i o) (λ r g', g' = (injH (result cl o m r), Out)) (injH m, Out).
Proof.
  destruct o, m; try done; intros _; cbn [Conc.code rw_client injH result].
  - eapply wp_mono; [|apply read_trylock_ok]. by intros [] g ->.
  - eapply wp_bind, wp_mono; [|apply read_unlock_ok]. by intros ? g ->.
  - eapply wp_bind, wp_mono; [|apply write_lock_ok]. by intros ? g ->.
  - eapply wp_mono; [|apply write_trylock_ok]. by intros [] g ->.
  - eapply wp_bind, wp_mono; [|apply write_unlock_ok]. by intros ? g ->.
  - eapply wp_bind, wp_mono; [|apply write_downgrade_ok]. by intros ? g ->.
Qed.
End proofs.
End Rwlock.

(** ** Sleeping threads: [waitqueue.c], [waitqueue.h]

    The world of a component that puts threads to sleep: the threads whose state
    is [PROC_BLOCKED], the wait queues, and the data. A wait queue is named by a
    number; its lock is spinlock [2 + q], whose word is 0 at rest, so that
    [init_waitqueue_head] only empties the list. Waking a thread makes it
    runnable; the run queue itself is [Sched]'s. *)
Module Wait.
Record wait_queue_entry := mk_entry { task : nat; exclusive : bool }.
Record proc (D : Type) := mk_proc { asleep : gset nat; queues : nat → list wait_queue_entry; dat : D }.
Arguments mk_proc {D}.
Arguments asleep {D}.
Arguments queues {D}.
Arguments dat {D}.

Section code.
Context {D : Type}.
#[local] Notation code := (prog (state (proc D))).
Implicit Type w : proc D.

Definition set_queue (q : nat) (l : list wait_queue_entry) w : proc D :=
  mk_proc (asleep w) (λ k, if decide (k = q) then l else queues w k) (dat w).
Definition block (i : nat) w : proc D := mk_proc ({[ i ]} ∪ asleep w) (queues w) (dat w).
Definition wake (ts : list nat) w : proc D := mk_proc (asleep w ∖ list_to_set ts) (queues w) (dat w).
Definition set_dat (d : D) w : proc D := mk_proc (asleep w) (queues w) d.
Definition on_dat {B} (f : D → D * B) : prog (proc D) B := act (λ w, let '(d, b) := f (dat w) in (set_dat d w, b)).

Definition wq_lock (q : nat) : nat := (2 + q)%nat.
Definition init_waitqueue_head (q : nat) : prog (proc D) () := act (λ w, (set_queue q [] w, tt)).
Definition init_waitqueue_entry (current : nat) (excl : bool) : wait_queue_entry := mk_entry current excl.
Definition add_wait_queue (q : nat) (e : wait_queue_entry) : code () :=
  flags ← spin_lock_irqsave (wq_lock q);
  _ ← lift (act (λ w, (set_queue q (queues w q ++ [e]) w, tt)));
  _ ← spin_unlock_irqrestore (wq_lock q) flags;
  PRet tt.
(** The entry of thread [i]. *)
Definition remove_wait_queue (q i : nat) : code () :=
  flags ← spin_lock_irqsave (wq_lock q);
  _ ← lift (act (λ w, (set_queue q (filter (λ e, task e ≠ i) (queues w q)) w, tt)));
  _ ← spin_unlock_irqrestore (wq_lock q) flags;
  PRet tt.
Definition waitqueue_active (q : nat) : prog (proc D) bool :=
  act (λ w, (w, match queues w q with [] => false | _ => true end)).

Definition add_to_waitqueue_and_block (current q : nat) (excl : bool) : code () :=
  _ ← add_wait_queue q (init_waitqueue_entry current excl);
  _ ← lift (act (λ w, (block current w, tt)));
  leave_cpu.
Definition sleep_on (current q : nat) : code () := add_to_waitqueue_and_block current q false.
Definition interruptible_sleep_on (current q : nat) : code Z :=
  _ ← add_to_waitqueue_and_block current q false;
  PRet 0.

(** The two loops of [__wake_up_common]: the entries left and the threads woken,
    [woken] of them before. *)
Fixpoint wake_exclusive (exclusive_only : bool) (nr_to_wake woken : Z) (l : list wait_queue_entry)
    : list wait_queue_entry * list nat :=
  match l with
  | [] => ([], [])
  | e :: r =>
      if (0 <? nr_to_wake) && (nr_to_wake <=? woken) then (l, []) else
      let keep := let '(r', ts) := wake_exclusive exclusive_only nr_to_wake woken r in (e :: r', ts) in
      if exclusive_only && negb (exclusive e) then keep else
      if exclusive e then
        if negb exclusive_only then (r, [task e]) else
        let '(r', ts) := wake_exclusive exclusive_only nr_to_wake (woken + 1) r in (r', task e :: ts)
      else keep
  end.
Fixpoint wake_normal (nr_to_wake woken : Z) (l : list wait_queue_entry) : list wait_queue_entry * list nat :=
  match l with
  | [] => ([], [])
  | e :: r =>
      if (0 <? nr_to_wake) && (nr_to_wake <=? woken) then (l, []) else
      if exclusive e then let '(r', ts) := wake_normal nr_to_wake woken r in (e :: r', ts) else
      let '(r', ts) := wake_normal nr_to_wake (woken + 1) r in (r', task e :: ts)
  end.
(** What happens under the lock of the queue. *)
Definition wake_entries (exclusive_only : bool) (nr_to_wake : Z) (l : list wait_queue_entry)
    : list wait_queue_entry * list nat :=
  let '(l, ts) := wake_exclusive exclusive_only nr_to_wake 0 l in
  let woken := Z.of_nat (length ts) in
  if (woken <? nr_to_wake) || (nr_to_wake =? 0) then
    let '(l, ts') := wake_normal nr_to_wake woken l in (l, ts ++ ts')
  else (l, ts).
Definition __wake_up_common (q : nat) (exclusive_only : bool) (nr_to_wake : Z) : code Z :=
  a ← lift (waitqueue_active q);
  if negb a then PRet 0 else
  flags ← spin_lock_irqsave (wq_lock q);
  woken ← lift (act (λ w, let '(l, ts) := wake_entries exclusive_only nr_to_wake (queues w q) in
                          (wake ts (set_queue q l w), Z.of_nat (length ts))));
  _ ← spin_unlock_irqrestore (wq_lock q) flags;
  PRet woken.
Definition wake_up (q : nat) : code () := _ ← __wake_up_common q false 1; PRet tt.
Definition wake_up_all (q : nat) : code () := _ ← __wake_up_common q false 0; PRet tt.
Definition wake_up_exclusive (q : nat) : code () := _ ← __wake_up_common q true 1; PRet tt.
End code.

(** *** Which threads are woken *)
Definition tasks (l : list wait_queue_entry) : list nat := task <$> l.
Definition excl (l : list wait_queue_entry) : list wait_queue_entry := filter (λ e, exclusive e = true) l.
Definition norm (l : list wait_queue_entry) : list wait_queue_entry := filter (λ e, exclusive e = false) l.
(** [l] without its first entry that satisfies [p]. *)
Fixpoint drop_first (p : wait_queue_entry → bool) (l : list wait_queue_entry) : list wait_queue_entry :=
  match l with [] => [] | e :: r => if p e then r else e :: drop_first p r end.

Lemma wake_exclusive_first l : wake_exclusive false 1 0 l = (drop_first exclusive l, take 1 (tasks (excl l))) ∧
  wake_exclusive false 0 0 l = (drop_first exclusive l, take 1 (tasks (excl l))).
Proof.
  induction l as [|[t []] l [IH1 IH2]]; [done|done|]. cbn. rewrite IH1, IH2. split; reflexivity.
Qed.
Lemma wake_exclusive_done woken l : 1 ≤ woken → wake_exclusive true 1 woken l = (l, []).
Proof. intros Hw. destruct l; [done|]. cbn [wake_exclusive]. by rewrite (proj2 (Z.leb_le 1 woken)) by lia. Qed.
Lemma wake_exclusive_only l : wake_exclusive true 1 0 l = (drop_first exclusive l, take 1 (tasks (excl l))).
Proof.
  induction l as [|[t []] l IH]; [done| |].
  - cbn [wake_exclusive exclusive andb negb drop_first Z.add]. by rewrite wake_exclusive_done by lia.
  - cbn. by rewrite IH.
Qed.
Lemma wake_normal_all woken l : wake_normal 0 woken l = (excl l, tasks (norm l)).
Proof.
  revert woken. induction l as [|[t []] l IH]; intros woken; [done| |]; cbn [wake_normal exclusive Z.ltb Z.compare andb];
    by rewrite IH.
Qed.
Lemma wake_normal_done woken l : 1 ≤ woken → wake_normal 1 woken l = (l, []).
Proof. intros Hw. destruct l; [done|]. cbn [wake_normal]. by rewrite (proj2 (Z.leb_le 1 woken)) by lia. Qed.
Lemma wake_normal_first l : wake_normal 1 0 l = (drop_first (λ e, negb (exclusive e)) l, take 1 (tasks (norm l))).
Proof.
  induction l as [|[t []] l IH]; [done| |].
  - cbn. by rewrite IH.
  - cbn [wake_normal exclusive negb drop_first Z.add]. by rewrite wake_normal_done by lia.
Qed.

(** [wake_up] wakes the first exclusive waiter, else the first one. *)
Lemma drop_first_excl l : excl l = [] → drop_first exclusive l = l.
Proof. induction l as [|[t []] l IH]; [done|done|]. cbn. intros Hl. by rewrite IH. Qed.
Lemma norm_drop l : norm (drop_first exclusive l) = norm l.
Proof.
  unfold norm. induction l as [|[t []] l IH]; [done|by rewrite filter_cons_False|].
  cbn [drop_first exclusive]. by rewrite !filter_cons_True, IH by done.
Qed.
Lemma excl_drop l : excl (drop_first exclusive l) = tail (excl l).
Proof.
  unfold excl. induction l as [|[t []] l IH]; [done|by rewrite filter_cons_True|].
  cbn [drop_first exclusive]. by rewrite !filter_cons_False, IH by done.
Qed.
Definition next_waiter (l : list wait_queue_entry) : list nat := take 1 (tasks (excl l) ++ tasks (norm l)).
Definition without_next (l : list wait_queue_entry) : list wait_queue_entry :=
  if excl l is [] then drop_first (λ e, negb (exclusive e)) l else drop_first exclusive l.
Lemma wake_one b l : wake_entries b 1 l = (without_next l, next_waiter l).
Proof.
  unfold wake_entries, without_next, next_waiter.
  assert (wake_exclusive b 1 0 l = (drop_first exclusive l, take 1 (tasks (excl l)))) as ->.
  { destruct b; [apply wake_exclusive_only|apply wake_exclusive_first]. }
  destruct (excl l) as [|e r] eqn:He; [|done]. cbn [tasks fmap list_fmap take length app].
  rewrite drop_first_excl by done. cbn [Z.of_nat Z.ltb Z.compare Z.eqb orb]. by rewrite wake_normal_first.
Qed.
Lemma wake_all l : wake_entries false 0 l = (tail (excl l), take 1 (tasks (excl l)) ++ tasks (norm l)).
Proof.
  unfold wake_entries. rewrite (proj2 (wake_exclusive_first l)), orb_true_r, wake_normal_all.
  by rewrite norm_drop, excl_drop.
Qed.

(** *** Components whose invariant is about their data only *)
Section blocking.
Context {D M O H : Type} (pol : policy) (cl : client (proc D) M O) (DInv : option nat → D → list H → Prop).
Hypothesis one_cpu : pol ≠ Multiprocessor.
Definition pinv (c : option nat) (w : proc D) (hs : list H) : Prop := DInv c (dat w) hs.
#[local] Notation wpp := (wp pol cl (linv pinv)).

Lemma wp_dat {B R} self (f : D → D * B) (k : B → prog (state (proc D)) R) Q h :
  (∀ d hs, DInv (Some self) d hs → hs !! self = Some h →
     ∃ h', DInv (Some self) (fst (f d)) (<[self := h']> hs) ∧ wpp self (k (snd (f d))) Q (h', Out)) →
  wpp self (lift (on_dat f) ≫= k) Q (h, Out).
Proof using one_cpu.
  intros Hf. apply wp_world; [done|]. intros w hs HC Hh. destruct (Hf _ _ HC Hh) as (h' & HC' & Hk).
  exists h'. unfold pinv. destruct (f (dat w)) as [d b]. done.
Qed.
Lemma lift_dat_bind {B R} (f : D → D * B) (k : B → prog (proc D) R) :
  lift (on_dat f ≫= k) = (lift (on_dat f) ≫= λ b, lift (k b)).
Proof. done. Qed.
(** An action that leaves the data alone. *)
Lemma wp_quiet {B R} self (f : proc D → proc D * B) (k : B → prog (state (proc D)) R) Q h :
  (∀ w, dat (fst (f w)) = dat w) → (∀ b, wpp self (k b) Q (h, Out)) →
  wpp self (lift (act f) ≫= k) Q (h, Out).
Proof using one_cpu.
  intros Hf Hk. apply wp_world; [done|]. intros w hs HC Hh. exists h. rewrite list_insert_id by done.
  unfold pinv. by rewrite Hf.
Qed.
(** Falling asleep, from a status in which the processor may be given away. *)
Lemma wp_sleep_on self q Q h :
  (∀ d hs, DInv (Some self) d hs → hs !! self = Some h → DInv None d hs) → Q tt (h, Out) →
  wpp self (sleep_on self q) Q (h, Out).
Proof using one_cpu.
  intros Hs Hk. unfold sleep_on, add_to_waitqueue_and_block. apply wp_bind.
  apply wp_section; [done|]. intros w hs HC Hh. eexists tt, _, h. split; [done|]. rewrite list_insert_id by done.
  split; [done|]. cbn [wp]. apply wp_quiet; [done|]. intros []. apply (wp_schedule _ _ _ one_cpu self PRet).
  clear w hs HC Hh. intros w hs HC Hh. exists h. rewrite list_insert_id by done. split; [by apply (Hs (dat w))|done].
Qed.
End blocking.
End Wait.
Import Wait.

(** ** Semaphore *)
Module Sem.
Record semaphore := mk_sem { count : Z; wait_list : list nat }.
#[local] Notation code := (prog (state (proc semaphore))).
Definition sem_lock : nat := 0.   (* the field [lock] *)
Definition on_count {B} (f : Z → Z * B) (s : semaphore) : semaphore * B :=
  let '(v, b) := f (count s) in (mk_sem v (wait_list s), b).
(** [list_del_init] of a waiter's node: nothing happens to a node already removed. *)
Definition remove_waiter (i : nat) (s : semaphore) : semaphore * () :=
  (mk_sem (count s) (filter (λ j, j ≠ i) (wait_list s)), tt).

Definition sem_init (value : Z) : code () :=
  _ ← lift (on_dat (on_count (atomic_write value)));
  _ ← spin_lock_init sem_lock;
  lift (on_dat (λ s, (mk_sem (count s) [], tt))).

(** One round of the retry loop: [Some true] when a unit was taken, [Some false]
    when the counter is 0. *)
Definition take_round : prog (proc semaphore) (option bool) :=
  old_val ← on_dat (on_count atomic_read);
  if 0 <? old_val then
    ok ← on_dat (on_count (atomic_compare_and_swap old_val (old_val - 1)));
    PRet (if ok : bool then Some true else None)
  else PRet (Some false).
(** The section of the slow path: a second look, else the thread joins the
    waiters. The lock is released on both paths. *)
Definition sem_slow (current : nat) : prog (proc semaphore) bool :=
  old_val ← on_dat (on_count atomic_read);
  ok ← (if 0 <? old_val then on_dat (on_count (atomic_compare_and_swap old_val (old_val - 1))) else PRet false);
  if ok : bool then PRet true else
  _ ← init_waitqueue_head current;
  _ ← on_dat (λ s, (mk_sem (count s) (wait_list s ++ [current]), tt));
  PRet false.
Definition sem_wait (current : nat) : code () :=
  PLoop (lift take_round) (λ taken,
  if taken : bool then PRet tt else
  flags ← spin_lock_irqsave sem_lock;
  got ← lift (sem_slow current);
  _ ← spin_unlock_irqrestore sem_lock flags;
  if got : bool then PRet tt else
  _ ← while (v ← lift (on_dat (on_count atomic_read));
             if v =? 0 then _ ← sleep_on current current; PRet true else PRet false);
  _ ← while (ok ← lift (on_dat (on_count (atomic_compare_and_swap 1 0))); PRet (negb ok));
  flags ← spin_lock_irqsave sem_lock;
  _ ← lift (on_dat (remove_waiter current));
  _ ← spin_unlock_irqrestore sem_lock flags;
  PRet tt).
Definition sem_trywait : code bool :=
  old_val ← lift (on_dat (on_count atomic_read));
  if 0 <? old_val then lift (on_dat (on_count (atomic_compare_and_swap old_val (old_val - 1)))) else PRet false.
(** The first waiter leaves the list and is made ready. *)
Definition sem_wake_first : prog (proc semaphore) () :=
  act (λ w, match wait_list (dat w) with
            | [] => (w, tt)
            | t :: r => (wake [t] (set_dat (mk_sem (count (dat w)) r) w), tt)
            end).
Definition sem_post : code () :=
  _ ← lift (on_dat (on_count atomic_inc));
  flags ← spin_lock_irqsave sem_lock;
  _ ← lift sem_wake_first;
  _ ← spin_unlock_irqrestore sem_lock flags;
  PRet tt.
Definition sem_getvalue : code Z := lift (on_dat (on_count atomic_read)).

(** A thread holds some units; it gives back only what it holds. *)
Inductive op := Wait | TryWait | Post | Yield.
Definition sem_client : client (proc semaphore) Z op := mk_client
  (λ o m, match o with Post => 0 <? m | _ => true end)
  (λ i o, match o with
          | Wait => _ ← sem_wait i; PRet true
          | TryWait => sem_trywait
          | Post => _ ← sem_post; PRet true
          | Yield => _ ← leave_cpu; PRet false
          end)
  (λ o m r, match o with Wait | TryWait => if r then m + 1 else m | Post => m - 1 | Yield => m end)
  (λ i w, bool_decide (i ∉ asleep w)).

Definition total (hs : list Z) : Z := foldr Z.add 0 hs.
Lemma total_insert hs i a b : hs !! i = Some a → total (<[i := b]> hs) = total hs - a + b.
Proof.
  revert i. induction hs as [|c hs IH]; intros [|i]; [done..| |].
  - intros [= ->]. cbn. lia.
  - intros Hl. change (<[S i := b]> (c :: hs)) with (c :: <[i := b]> hs).
    change (c + total (<[i := b]> hs) = c + total hs - a + b). rewrite (IH i Hl). lia.
Qed.

Section proofs.
Context (N : Z).
Record sem_inv (c : option nat) (s : semaphore) (hs : list Z) : Prop := {
  si_total : count s + total hs = N;
  si_count : 0 ≤ count s;
  si_held : Forall (λ h, 0 ≤ h) hs;
  si_range : N < 2 ^ 31 }.
#[local] Notation wps := (wp Preemptive sem_client (linv (pinv sem_inv))).

Lemma total_nonneg hs : Forall (λ h, 0 ≤ h) hs → 0 ≤ total hs.
Proof. induction 1; cbn; [done|]. fold (total l). lia. Qed.
Lemma sem_update c c' s hs i h h' v l : sem_inv c s hs → hs !! i = Some h → v = count s + h - h' → 0 ≤ v → 0 ≤ h' →
  sem_inv c' (mk_sem v l) (<[i := h']> hs).
Proof.
  intros [Ht Hc Hf Hr] Hi -> Hv Hh. split; cbn [count]; [|done| |done].
  - rewrite (total_insert _ _ _ _ Hi). lia.
  - by apply Forall_insert.
Qed.
Lemma sem_keep c s hs i h l : sem_inv c s hs → hs !! i = Some h → sem_inv c (mk_sem (count s) l) (<[i := h]> hs).
Proof.
  intros HC Hh. eapply sem_update; [done|done|lia|apply HC|]. by apply (Forall_lookup_1 _ _ _ _ (si_held _ _ _ HC) Hh).
Qed.
Lemma sem_held c s hs i h : sem_inv c s hs → hs !! i = Some h → 0 ≤ h.
Proof. intros HC. apply (Forall_lookup_1 _ _ _ _ (si_held _ _ _ HC)). Qed.
Lemma sem_below c s hs : sem_inv c s hs → count s ≤ N.
Proof. intros [Ht _ Hf _]. apply total_nonneg in Hf. lia. Qed.

(** Reading the counter. *)
Lemma wp_read {R} i (k : Z → prog (state (proc semaphore)) R) Q h :
  (∀ v, 0 ≤ v → wps i (k v) Q (h, Out)) → wps i (lift (on_dat (on_count atomic_read)) ≫= k) Q (h, Out).
Proof.
  intros Hk. apply wp_dat; [done|]. intros s hs HC Hh. exists h. split; [by apply sem_keep|]. apply Hk, HC.
Qed.
(** Taking a unit from a positive value. *)
Lemma wp_take {R} i v (k : bool → prog (state (proc semaphore)) R) Q h : 0 < v →
  wps i (k true) Q (h + 1, Out) → wps i (k false) Q (h, Out) →
  wps i (lift (on_dat (on_count (atomic_compare_and_swap v (v - 1)))) ≫= k) Q (h, Out).
Proof.
  intros Hv Ht Hf. apply wp_dat; [done|]. intros s hs HC Hh. unfold on_count, atomic_compare_and_swap.
  pose proof (sem_held _ _ _ _ _ HC Hh). destruct (Z.eqb_spec (count s) v) as [He|]; cbn [fst snd].
  - exists (h + 1). split; [|done]. eapply sem_update; [done|done|lia|lia|lia].
  - exists h. split; [by apply sem_keep|done].
Qed.
Lemma sem_slow_exec i w : exec (sem_slow i) w = Some (if 0 <? count (dat w)
  then (true, set_dat (mk_sem (count (dat w) - 1) (wait_list (dat w))) (set_dat (mk_sem (count (dat w)) (wait_list (dat w))) w))
  else (false, set_dat (mk_sem (count (dat w)) (wait_list (dat w) ++ [i]))
         (set_queue i [] (set_dat (mk_sem (count (dat w)) (wait_list (dat w))) w)))).
Proof.
  cbn. destruct (0 <? count (dat w)); cbn; [|done].
  unfold on_count, atomic_compare_and_swap. cbn. by rewrite Z.eqb_refl.
Qed.
Lemma sem_wait_ok i h : wps i (sem_wait i) (λ _ g, g = (h + 1, Out)) (h, Out).
Proof.
  unfold sem_wait. cbn [wp]. unfold take_round. rewrite lift_dat_bind. apply wp_read. intros v Hv.
  destruct (Z.ltb_spec 0 v); cbn [lift wp].
  { rewrite lift_dat_bind. by apply wp_take. }
  apply wp_section; [done|]. intros w hs HC Hh. rewrite sem_slow_exec. pose proof (sem_held _ _ _ _ _ HC Hh).
  destruct (Z.ltb_spec 0 (count (dat w))).
  { eexists true, _, (h + 1). split; [done|]. split; [|done]. eapply sem_update; [done|done|lia|lia|lia]. }
  eexists false, _, h. split; [done|]. split; [by apply sem_keep|]. clear. apply wp_bind, wp_while, wp_read.
  intros v Hv. destruct (Z.eqb_spec v 0).
  { apply wp_bind, wp_sleep_on; [done| |done]. by intros s hs [? ? ? ?] _. }
  cbn [wp]. apply wp_bind, wp_while, (wp_take i 1); [lia| |done]. cbn [negb wp].
  apply wp_section; [done|]. intros w hs HC Hh. eexists tt, _, (h + 1). split; [done|]. split; [by apply sem_keep|done].
Qed.
Lemma sem_trywait_ok i h : wps i sem_trywait (λ r g, g = (if r : bool then h + 1 else h, Out)) (h, Out).
Proof.
  apply wp_read. intros v Hv. destruct (Z.ltb_spec 0 v); [|done].
  by apply (wp_take i v PRet).
Qed.
Lemma sem_post_ok i h : 0 < h → wps i sem_post (λ _ g, g = (h - 1, Out)) (h, Out).
Proof.
  intros Hp. apply wp_dat; [done|]. intros s hs HC Hh. exists (h - 1). cbn [on_count atomic_inc fst snd].
  pose proof (sem_below _ _ _ HC). pose proof (si_count _ _ _ HC). pose proof (si_range _ _ _ HC).
  assert (count s < N) as Hlt.
  { pose proof (si_total _ _ _ HC). assert (0 ≤ total (<[i := 0]> hs)) as Hn.
    { apply total_nonneg, Forall_insert; [apply HC|done]. } rewrite (total_insert _ _ _ _ Hh) in Hn. lia. }
  split.
  { unfold on_count, atomic_inc. rewrite s32_small by lia. eapply sem_update; [done|done|lia|lia|lia]. }
  apply wp_section; [done|]. clear s hs HC Hh H H0 H1 Hlt. intros w hs HC Hh. cbn [exec sem_wake_first act].
  destruct (wait_list (dat w)) as [|t r]; eexists tt, _, (h - 1); (split; [done|split; [|done]]).
  - by rewrite list_insert_id.
  - by apply sem_keep.
Qed.
Lemma sem_code_ok i o m : allowed sem_client o m = true →
  wps i (Conc.code sem_client i o) (λ r g', g' = (result sem_client o m r, Out)) (m, Out).
Proof.
  destruct o; cbn [allowed sem_client Conc.code result]; intros Ha.
  - eapply wp_bind, wp_mono; [|apply sem_wait_ok]. by intros ? g ->.
  - eapply wp_mono; [|apply sem_trywait_ok]. by intros [] g ->.
  - apply Z.ltb_lt in Ha. eapply wp_bind, wp_mono; [|by apply sem_post_ok]. by intros ? g ->.
  - apply wp_schedule; [done|]. intros w hs HC Hh. exists m. rewrite list_insert_id by done.
    split; [by destruct HC|done].
Qed.
Lemma sem_dispatch c w hs (j : nat) : pinv sem_inv c w hs → pinv sem_inv (Some j) w hs.
Proof. by intros [? ? ? ?]. Qed.
End proofs.
End Sem.

(** ** Mutex *)
Module Mutex.
Record mutex := mk_mutex { locked : Z; owner : option nat; count : Z; wait_list : list nat }.
#[local] Notation code := (prog (state (proc mutex))).
Definition wait_lock : nat := 0.
(** The queue on the stack of [mutex_lock]. *)
Definition own_wq (i : nat) : nat := (2 * i)%nat.
Definition on_locked {B} (f : Z → Z * B) (m : mutex) : mutex * B :=
  let '(v, b) := f (locked m) in (mk_mutex v (owner m) (count m) (wait_list m), b).
Definition set_owner (o : option nat) (m : mutex) : mutex * () := (mk_mutex (locked m) o (count m) (wait_list m), tt).
Definition set_count (v : Z) (m : mutex) : mutex * () := (mk_mutex (locked m) (owner m) v (wait_list m), tt).
Definition get_owner (m : mutex) : mutex * option nat := (m, owner m).
Definition set_waiters (l : list nat) (m : mutex) : mutex := mk_mutex (locked m) (owner m) (count m) l.

Definition mutex_init : code () :=
  _ ← lift (on_dat (on_locked (atomic_write 0)));
  _ ← lift (on_dat (set_owner None));
  _ ← lift (on_dat (set_count 0));
  _ ← spin_lock_init wait_lock;
  lift (on_dat (λ m, (set_waiters [] m, tt))).

(** The section of the slow path: a second attempt, else the thread joins the
    waiters. The lock is released on both paths. *)
Definition mutex_slow (current : nat) : prog (proc mutex) bool :=
  ok ← on_dat (on_locked (atomic_compare_and_swap 0 1));
  if ok : bool then
    _ ← on_dat (set_owner (Some current));
    _ ← on_dat (set_count 1);
    PRet true
  else
    _ ← init_waitqueue_head (own_wq current);
    _ ← on_dat (λ m, (set_waiters (wait_list m ++ [current]) m, tt));
    PRet false.
Definition mutex_lock (current : nat) : code () :=
  ok ← lift (on_dat (on_locked (atomic_compare_and_swap 0 1)));
  if ok : bool then
    _ ← lift (on_dat (set_owner (Some current)));
    _ ← lift (on_dat (set_count 1));
    PRet tt
  else
  flags ← spin_lock_irqsave wait_lock;
  got ← lift (mutex_slow current);
  _ ← spin_unlock_irqrestore wait_lock flags;
  if got : bool then PRet tt else
  _ ← while (v ← lift (on_dat (on_locked atomic_read));
             if negb (v =? 0) then _ ← sleep_on current (own_wq current); PRet true else
             o ← lift (on_dat get_owner);
             if bool_decide (o ≠ None) then _ ← sleep_on current (own_wq current); PRet true else PRet false);
  _ ← lift (on_dat (on_locked (atomic_write 1)));
  _ ← lift (on_dat (set_owner (Some current)));
  _ ← lift (on_dat (set_count 1));
  flags ← spin_lock_irqsave wait_lock;
  _ ← lift (on_dat (λ m, (set_waiters (filter (λ j, j ≠ current) (wait_list m)) m, tt)));
  _ ← spin_unlock_irqrestore wait_lock flags;
  PRet tt.
Definition mutex_trylock (current : nat) : code bool :=
  ok ← lift (on_dat (on_locked (atomic_compare_and_swap 0 1)));
  if negb ok then PRet false else
  _ ← lift (on_dat (set_owner (Some current)));
  _ ← lift (on_dat (set_count 1));
  PRet true.
Definition mutex_wake_first : prog (proc mutex) () :=
  act (λ w, match wait_list (dat w) with
            | [] => (w, tt)
            | t :: r => (wake [t] (set_dat (set_waiters r (dat w)) w), tt)
            end).
Definition mutex_unlock (current : nat) : code () :=
  o ← lift (on_dat get_owner);
  if bool_decide (o ≠ Some current) then PRet tt else
  _ ← lift (on_dat (set_owner None));
  _ ← lift (on_dat (set_count 0));
  _ ← lift (on_dat (on_locked (atomic_write 0)));
  flags ← spin_lock_irqsave wait_lock;
  _ ← lift mutex_wake_first;
  _ ← spin_unlock_irqrestore wait_lock flags;
  PRet tt.
Definition mutex_is_locked : code bool := v ← lift (on_dat (on_locked atomic_read)); PRet (negb (v =? 0)).
Definition mutex_owner : code (option nat) := lift (on_dat get_owner).

(** The mode is whether the thread has locked the mutex. Unlocking is allowed
    to every thread. *)
Inductive op := Lock | TryLock | Unlock | Yield.
Definition mutex_client : client (proc mutex) bool op := mk_client
  (λ o m, match o with Lock | TryLock => negb m | _ => true end)
  (λ i o, match o with
          | Lock => _ ← mutex_lock i; PRet true
          | TryLock => mutex_trylock i
          | Unlock => _ ← mutex_unlock i; PRet false
          | Yield => _ ← leave_cpu; PRet false
          end)
  (λ o m r, match o with Yield => m | _ => r end)
  (λ i w, bool_decide (i ∉ asleep w)).
Definition free_mutex : proc mutex := mk_proc ∅ (λ _, []) (mk_mutex 0 None 0 []).

(** The steps of a thread: free, about to take a mutex it saw free, locked but
    not yet recorded as owner, owner, no longer recorded but still locked. *)
Inductive status := HFree | HSaw | HGot | HHeld | HRel.
Definition holder (h : status) : bool := match h with HGot | HHeld | HRel => true | _ => false end.
Definition passing (h : status) : bool := match h with HSaw | HGot | HRel => true | _ => false end.
Record mutex_inv (c : option nat) (m : mutex) (hs : list status) : Prop := {
  mi_locked : locked m = cnt holder hs;
  mi_one : cnt holder hs ≤ 1;
  mi_owner j : owner m = Some j → hs !! j = Some HHeld;
  mi_held j : hs !! j = Some HHeld → owner m = Some j;
  mi_passing j h : hs !! j = Some h → passing h = true → c = Some j;
  mi_saw j : hs !! j = Some HSaw → locked m = 0 }.
Definition injH (m : bool) : status := if m then HHeld else HFree.

Section proofs.
#[local] Notation wpm := (wp Cooperative mutex_client (linv (pinv mutex_inv))).

(** Thread [i] moves from [h] to [h'] and the fields follow. *)
Lemma mutex_update m m' hs i h h' : mutex_inv (Some i) m hs → hs !! i = Some h →
  locked m' = locked m - Z.b2z (holder h) + Z.b2z (holder h') → locked m' ≤ 1 →
  owner m' = match h', h with HHeld, _ => Some i | _, HHeld => None | _, _ => owner m end →
  (h' = HSaw → locked m' = 0) → mutex_inv (Some i) m' (<[i := h']> hs).
Proof.
  intros [Hl H1 Ho Hh Hp Hs] Hi Hl' Hle Ho' Hs'. pose proof (lookup_lt_Some _ _ _ Hi) as Hlt.
  assert (cnt holder (<[i := h']> hs) = locked m') as Hc by (rewrite (cnt_insert _ _ _ _ _ Hi); lia).
  assert (∀ j h2, <[i := h']> hs !! j = Some h2 → j = i ∧ h2 = h' ∨ j ≠ i ∧ hs !! j = Some h2) as Hcase.
  { intros j h2 [(-> & -> & _)|[? ?]]%list_lookup_insert_Some; [by left|right; by split]. }
  assert (∀ j, <[i := h']> hs !! j = Some HHeld → owner m' = Some j) as Hheld.
  { intros j Hj. destruct (Hcase _ _ Hj) as [[-> <-]|[Hne Hj']]; [done|].
    assert (holder h' = false) as Hn.
    { destruct (holder h') eqn:Hn; [|done]. destruct Hne. eapply (cnt_unique holder (<[i := h']> hs) j i HHeld h');
        [done|by apply list_lookup_insert_eq|done|done|lia]. }
    assert (h ≠ HHeld) by (intros ->; apply Hh in Hi, Hj'; congruence). rewrite Ho'.
    destruct h', h; try done; by apply Hh. }
  split; [lia|lia| |done| |].
  - intros j Hj. rewrite Ho' in Hj. destruct (decide (j = i)) as [->|Hne].
    + destruct h'; [..|by apply list_lookup_insert_eq|]; destruct h; try done; apply Ho in Hj; congruence.
    + rewrite list_lookup_insert_ne by done. apply Ho. destruct h', h; congruence.
  - intros j h2 Hj H2. destruct (Hcase _ _ Hj) as [[-> _]|[_ Hj']]; [done|by eapply Hp].
  - intros j Hj. destruct (Hcase _ _ Hj) as [[-> <-]|[Hne Hj']]; [by apply Hs'|].
    pose proof (Hp _ _ Hj' eq_refl). congruence.
Qed.
(** Nothing but the list of waiters or the recursion count changes. *)
Lemma mutex_same c m m' hs i h : mutex_inv c m hs → hs !! i = Some h → locked m' = locked m → owner m' = owner m →
  mutex_inv c m' (<[i := h]> hs).
Proof. intros [? ? ? ? ? ?] Hi Hl Ho. rewrite list_insert_id by done. split; rewrite ?Hl, ?Ho; done. Qed.
(** A thread that is not passing may leave the processor. *)
Lemma mutex_leave i m hs h : mutex_inv (Some i) m hs → hs !! i = Some h → passing h = false → mutex_inv None m hs.
Proof.
  intros [? ? ? ? Hp ?] Hi Hh. split; try done. intros j h2 Hj H2. pose proof (Hp _ _ Hj H2) as [= ->]. congruence.
Qed.
Lemma mutex_dispatch c w hs (j : nat) : pinv mutex_inv c w hs → c = None → pinv mutex_inv (Some j) w hs.
Proof.
  intros [? ? ? ? Hp ?] ->. split; try done. intros k h Hk Hh. by pose proof (Hp _ _ Hk Hh).
Qed.

(** Storing the owner and the count. *)
Lemma wp_own {R} i (k : () → prog (state (proc mutex)) R) Q : wpm i (k tt) Q (HHeld, Out) →
  wpm i (_ ← lift (on_dat (set_owner (Some i))); u ← lift (on_dat (set_count 1)); k u) Q (HGot, Out).
Proof.
  intros Hk. apply wp_dat; [done|]. intros m hs HC Hh. exists HHeld. split.
  { apply (mutex_update m _ _ _ HGot); [done|done|cbn; lia| |done|done]. cbn. pose proof (mi_one _ _ _ HC).
    pose proof (mi_locked _ _ _ HC). lia. }
  apply wp_dat; [done|]. clear m hs HC Hh. intros m hs HC Hh. exists HHeld. split; [by eapply mutex_same|]. done.
Qed.
Lemma mutex_range c m hs : mutex_inv c m hs → locked m = 0 ∨ locked m = 1.
Proof. intros [Hl H1 _ _ _ _]. pose proof (cnt_nonneg holder hs). lia. Qed.
Lemma mutex_unowned c m hs : mutex_inv c m hs → locked m = 0 → owner m = None.
Proof.
  intros [Hl H1 Ho _ _ _] H0. destruct (owner m) as [j|]; [|done].
  pose proof (cnt_ge_1 holder _ _ _ (Ho j eq_refl) eq_refl). lia.
Qed.
Lemma wp_cas {R} i (k : bool → prog (state (proc mutex)) R) Q :
  wpm i (k true) Q (HGot, Out) → wpm i (k false) Q (HFree, Out) →
  wpm i (lift (on_dat (on_locked (atomic_compare_and_swap 0 1))) ≫= k) Q (HFree, Out).
Proof.
  intros Ht Hf. apply wp_dat; [done|]. intros m hs HC Hh. unfold on_locked, atomic_compare_and_swap.
  destruct (Z.eqb_spec (locked m) 0) as [He|]; cbn [fst snd].
  - exists HGot. split; [|done]. apply (mutex_update m _ _ _ HFree); [done|done|cbn; lia|cbn; lia|done|done].
  - exists HFree. split; [by eapply mutex_same|done].
Qed.
Lemma mutex_slow_exec i w : exec (mutex_slow i) w = Some (if locked (dat w) =? 0
  then (true, set_dat (mk_mutex 1 (Some i) 1 (wait_list (dat w))) w)
  else (false, set_queue (own_wq i) [] (set_dat (set_waiters (wait_list (dat w) ++ [i]) (dat w)) w))).
Proof.
  cbn. unfold on_locked, atomic_compare_and_swap. by destruct (locked (dat w) =? 0).
Qed.
(** Waiting until the mutex was seen free. *)
Lemma wp_wait_free i : wpm i
  (while (v ← lift (on_dat (on_locked atomic_read));
          if negb (v =? 0) then _ ← sleep_on i (own_wq i); PRet true else
          o ← lift (on_dat get_owner);
          if bool_decide (o ≠ None) then _ ← sleep_on i (own_wq i); PRet true else PRet false))
  (λ _ g, g = (HSaw, Out)) (HFree, Out).
Proof.
  apply wp_while, wp_dat; [done|]. intros m hs HC Hh. destruct (Z.eqb_spec (locked m) 0) as [H0|H0].
  - exists HSaw. cbn [on_locked atomic_read fst snd]. split.
    { apply (mutex_update m _ _ _ HFree); [done|done|cbn; lia|cbn; lia|done|done]. }
    rewrite H0. apply wp_dat; [done|]. clear m hs HC Hh H0. intros m hs HC Hh. exists HSaw.
    split; [by eapply mutex_same|]. cbn [get_owner snd].
    rewrite (mutex_unowned _ _ _ HC (mi_saw _ _ _ HC _ Hh)). done.
  - exists HFree. cbn [on_locked atomic_read fst snd]. split; [by eapply mutex_same|].
    apply Z.eqb_neq in H0 as ->. cbn [negb]. apply wp_bind, wp_sleep_on; [done| |done].
    clear m hs HC Hh. intros m hs HC Hh. by eapply mutex_leave.
Qed.
Lemma mutex_lock_ok i : wpm i (mutex_lock i) (λ _ g, g = (HHeld, Out)) (HFree, Out).
Proof.
  apply wp_cas; [by apply wp_own|]. apply wp_section; [done|]. intros w hs HC Hh. rewrite mutex_slow_exec.
  destruct (Z.eqb_spec (locked (dat w)) 0) as [H0|H0].
  { eexists true, _, HHeld. split; [done|]. split; [|done].
    apply (mutex_update (dat w) _ _ _ HFree); [done|done|cbn; lia|cbn; lia|done|done]. }
  eexists false, _, HFree. split; [done|]. split; [by eapply mutex_same|]. clear.
  eapply wp_bind, wp_mono; [|apply wp_wait_free]. intros [] g ->.
  apply wp_dat; [done|]. intros m hs HC Hh. exists HGot. split.
  { pose proof (mi_saw _ _ _ HC _ Hh). apply (mutex_update m _ _ _ HSaw); [done|done|cbn; lia|cbn; lia|done|done]. }
  apply wp_own, wp_section; [done|]. clear m hs HC Hh. intros w hs HC Hh. eexists tt, _, HHeld.
  split; [done|]. split; [by eapply mutex_same|done].
Qed.
Lemma mutex_trylock_ok i :
  wpm i (mutex_trylock i) (λ r g, g = (if r : bool then HHeld else HFree, Out)) (HFree, Out).
Proof. apply wp_cas; [by apply wp_own|done]. Qed.
Lemma mutex_unlock_ok i h : h = HFree ∨ h = HHeld →
  wpm i (mutex_unlock i) (λ _ g, g = (HFree, Out)) (h, Out).
Proof.
  intros Hor. apply wp_dat; [done|]. intros m hs HC Hh. exists h. split; [by eapply mutex_same|].
  cbn [get_owner snd]. destruct Hor as [-> | ->].
  { rewrite bool_decide_true; [done|]. intros Ho%(mi_owner _ _ _ HC). congruence. }
  rewrite (mi_held _ _ _ HC _ Hh), bool_decide_false by naive_solver. clear m hs HC Hh.
  apply wp_dat; [done|]. intros m hs HC Hh. exists HRel. split.
  { destruct (mutex_range _ _ _ HC); apply (mutex_update m _ _ _ HHeld); (done || cbn; lia). }
  apply wp_dat; [done|]. clear m hs HC Hh. intros m hs HC Hh. exists HRel. split; [by eapply mutex_same|].
  apply wp_dat; [done|]. clear m hs HC Hh. intros m hs HC Hh. exists HFree. split.
  { pose proof (cnt_ge_1 holder _ _ _ Hh eq_refl). pose proof (mi_locked _ _ _ HC). pose proof (mi_one _ _ _ HC).
    apply (mutex_update m _ _ _ HRel); (done || cbn; lia). }
  apply wp_section; [done|]. clear m hs HC Hh. intros w hs HC Hh. cbn [exec mutex_wake_first act].
  destruct (wait_list (dat w)); eexists tt, _, HFree; (split; [done|split; [|done]]); by eapply mutex_same.
Qed.
Lemma mutex_code_ok i o m : allowed mutex_client o m = true →
  wpm i (Conc.code mutex_client i o) (λ r g', g' = (injH (result mutex_client o m r), Out)) (injH m, Out).
Proof.
  destruct o; cbn [allowed mutex_client Conc.code result]; intros Ha.
  - destruct m; [done|]. eapply wp_bind, wp_mono; [|apply mutex_lock_ok]. by intros ? g ->.
  - destruct m; [done|]. eapply wp_mono; [|apply mutex_trylock_ok]. by intros [] g ->.
  - eapply wp_bind, wp_mono; [|apply mutex_unlock_ok; destruct m; auto]. by intros ? g ->.
  - apply wp_schedule; [done|]. intros w hs HC Hh. exists (injH m). rewrite list_insert_id by done.
    split; [|done]. eapply mutex_leave; [done|done|by destruct m].
Qed.
End proofs.
End Mutex.

(** ** Condition variable *)
Module Condvar.
Import Mutex.
(** The condition variable and the mutex that goes with it. *)
Record condvar := mk_condvar { waiters : list nat; cv_mutex : mutex }.
#[local] Notation code := (prog (state (proc condvar))).
Definition cv_lock : nat := 1.
Definition cv_wq (i : nat) : nat := (2 * i + 1)%nat.
Definition mutex_part (s : state (proc condvar)) : state (proc mutex) :=
  mk_state (cur s) (intf s) (spins s) (mk_proc (asleep (world s)) (queues (world s)) (cv_mutex (dat (world s)))).
Definition put_mutex (s' : state (proc mutex)) (s : state (proc condvar)) : state (proc condvar) :=
  mk_state (cur s') (intf s') (spins s')
    (mk_proc (asleep (world s')) (queues (world s')) (mk_condvar (waiters (dat (world s))) (dat (world s')))).
Definition with_mutex {R} (p : prog (state (proc mutex)) R) : code R := zoom mutex_part put_mutex p.
Definition set_waiters (l : list nat) (cv : condvar) : condvar := mk_condvar l (cv_mutex cv).

Definition condvar_init : code () :=
  _ ← spin_lock_init cv_lock;
  lift (on_dat (λ cv, (set_waiters [] cv, tt))).
Definition condvar_wait (current : nat) : code () :=
  _ ← lift (init_waitqueue_head (cv_wq current));
  flags ← spin_lock_irqsave cv_lock;
  _ ← lift (on_dat (λ cv, (set_waiters (waiters cv ++ [current]) cv, tt)));
  _ ← spin_unlock_irqrestore cv_lock flags;
  _ ← with_mutex (mutex_unlock current);
  _ ← sleep_on current (cv_wq current);
  _ ← with_mutex (mutex_lock current);
  flags ← spin_lock_irqsave cv_lock;
  _ ← lift (on_dat (λ cv, (set_waiters (filter (λ j, j ≠ current) (waiters cv)) cv, tt)));
  _ ← spin_unlock_irqrestore cv_lock flags;
  PRet tt.
Definition condvar_signal : code () :=
  flags ← spin_lock_irqsave cv_lock;
  first ← lift (on_dat (λ cv, match waiters cv with
                              | [] => (cv, None)
                              | t :: r => (set_waiters r cv, Some t)
                              end));
  _ ← spin_unlock_irqrestore cv_lock flags;
  match first with Some t => wake_up (cv_wq t) | None => PRet tt end.
(** The loop over the waiters: all leave the list, at most 32 queues are kept. *)
Fixpoint collect (l : list nat) (count : Z) : list nat :=
  match l with
  | [] => []
  | t :: r => if count <? 32 then cv_wq t :: collect r (count + 1) else collect r count
  end.
Fixpoint wake_each (qs : list nat) : code () :=
  match qs with
  | [] => PRet tt
  | q :: qs => _ ← wake_up q; wake_each qs
  end.
Definition condvar_broadcast : code () :=
  flags ← spin_lock_irqsave cv_lock;
  wq_list ← lift (on_dat (λ cv, (set_waiters [] cv, collect (waiters cv) 0)));
  _ ← spin_unlock_irqrestore cv_lock flags;
  wake_each wq_list.

(** The queues of the first 32 waiters are kept. *)
Lemma collect_spec l count : 0 ≤ count ≤ 32 → collect l count = take (Z.to_nat (32 - count)) (cv_wq <$> l).
Proof.
  revert count. induction l as [|t l IH]; intros count Hc; cbn [collect fmap list_fmap]; [by rewrite take_nil|].
  destruct (Z.ltb_spec count 32).
  - rewrite IH by lia. replace (Z.to_nat (32 - count)) with (S (Z.to_nat (32 - (count + 1)))) by lia. done.
  - rewrite IH by lia. by replace (Z.to_nat (32 - count)) with 0%nat by lia.
Qed.

(** The mode is whether the thread has locked the mutex. *)
Inductive op := Lock | Unlock | Wait | Signal | Broadcast.
Definition condvar_client : client (proc condvar) bool op := mk_client
  (λ o m, match o with Lock => negb m | Unlock | Wait => m | _ => true end)
  (λ i o, match o with
          | Lock => _ ← with_mutex (mutex_lock i); PRet true
          | Unlock => _ ← with_mutex (mutex_unlock i); PRet false
          | Wait => _ ← condvar_wait i; PRet true
          | Signal => _ ← condvar_signal; PRet true
          | Broadcast => _ ← condvar_broadcast; PRet true
          end)
  (λ o m r, match o with Lock | Unlock | Wait => r | _ => m end)
  (λ i w, bool_decide (i ∉ asleep w)).
Definition free_condvar : proc condvar := mk_proc ∅ (λ _, []) (mk_condvar [] (mk_mutex 0 None 0 [])).
End Condvar.
End Sync.
Import Sync Wait.

(** ** Theorems on spinlocks *)

(** C25: On any number of processors and under every interleaving of
    [spin_lock_raw], [spin_trylock] and [spin_unlock], at most one thread holds
    the lock. *)
Theorem spinlock_mutual_exclusion n y i j :
  reach Multiprocessor Spin.spin_client (start tt (replicate n false)) y →
  threads y !! i = Some (Rest true) → threads y !! j = Some (Rest true) → i = j.
Proof.
  intros Hr Hi Hj.
  assert (machine_ok Multiprocessor Spin.spin_client Spin.spin_inv id y) as (gs & [_ H1] & Hlen & Hok).
  { eapply reach_ok; [| |apply start_ok|exact Hr].
    - intros s gs k s' [Hs Hc]. unfold dispatch. destruct (_ && _); [|done]. intros [= <-] _. done.
    - intros k o m. apply Spin.spin_code_ok.
    - unfold Spin.spin_inv. cbn. rewrite fmap_replicate, cnt_replicate; done. }
  assert (∀ k, threads y !! k = Some (Rest true) → gs !! k = Some true) as Hk.
  { intros k Ht. destruct (lookup_lt_is_Some_2 gs k) as [g Hg]; [rewrite Hlen; by eapply lookup_lt_Some|].
    rewrite Hg. f_equal. exact (Hok _ _ _ Ht Hg). }
  eapply (cnt_unique id gs i j); eauto.
Qed.
Lemma spinlock_mutual_exclusion_witness :
  let y := run_final Multiprocessor Spin.spin_client [Start 0 Spin.TryLock; Go 0; Go 0] (start tt [false; false]) in
  threads y !! 0%nat = Some (Rest true) ∧ threads y !! 1%nat ≠ Some (Rest true).
Proof.
  intros y. split; [reflexivity|]. intros H1.
  discriminate (spinlock_mutual_exclusion 2 y 0 1 (run_final_reach _ _ _ _) eq_refl H1).
Defined.

(** [spin_lock] on several processors: contention alone triggers the check
    against recursive locking. *)
Definition checked_client : client () bool Spin.op := mk_client
  (allowed Spin.spin_client)
  (λ i o, match o with Spin.Lock => _ ← spin_lock 0; PRet true | _ => code Spin.spin_client i o end)
  (result Spin.spin_client) (runnable Spin.spin_client).
Theorem spin_lock_panics_on_contention : ∃ y,
  reach Multiprocessor checked_client (start tt [false; false]) y ∧
  threads y !! 0%nat = Some (Rest true) ∧ threads y !! 1%nat = Some (Run Spin.Lock false PPanic).
Proof.
  exists (run_final Multiprocessor checked_client
    ([Start 0%nat Spin.Lock] ++ replicate 4 (Go 0%nat) ++ [Start 1%nat Spin.Lock; Go 1%nat]) (start tt [false; false])).
  split; [apply run_final_reach|]. split; reflexivity.
Qed.

(** Threads that run one section under [spin_lock_irqsave]. *)
Definition section_client {W} (c : prog W bool) : client W () () := mk_client
  (λ _ _, true)
  (λ _ _, flags ← spin_lock_irqsave 0; r ← lift c; _ ← spin_unlock_irqrestore 0 flags; PRet r)
  (λ _ _ _, tt) (λ _ _, true).

(** C26: On one processor, with preemption at any point where interrupts are
    enabled, code between [spin_lock_irqsave] and [spin_unlock_irqrestore] is
    atomic: whatever the number of threads, a property [J] of the data that the
    section preserves when it runs alone holds whenever no thread is inside, and
    no thread ever panics in [spin_lock]. *)
Theorem irqsave_sections_atomic {W} (c : prog W bool) (J : W → Prop) n w y :
  (∀ w, J w → ∃ a w', exec c w = Some (a, w') ∧ J w') → J w →
  reach Preemptive (section_client c) (start w (replicate n tt)) y →
  (intf (shared y) = true → J (world (shared y))) ∧
  ∀ i o m, threads y !! i ≠ Some (Run o m PPanic).
Proof.
  intros Hc Hw Hr.
  assert (machine_ok Preemptive (section_client c) (linv (λ _ w (_ : list ()), J w)) (λ _, (tt, Out)) y)
    as (gs & Hl & Hlen & Hok).
  { eapply (section_reach _ _ _ (λ _, tt)); [done| |apply section_start|exact Hr]; [|done].
    intros i [] [] _. apply wp_section; [done|]. intros w1 hs HJ Hh. destruct (Hc _ HJ) as (a & w' & He & HJ').
    exists a, w', tt. split_and!; done. }
  split.
  - intros Hi. destruct Hl as [? ? ? HJ| |]; [done|congruence|congruence].
  - intros i o m Hi. destruct (lookup_lt_is_Some_2 gs i) as [g Hg]; [rewrite Hlen; by eapply lookup_lt_Some|].
    exact (Hok _ _ _ Hi Hg).
Qed.
(** A counter incremented by a separate read and write. *)
Definition bump : prog Z bool := v ← act (λ z, (z, z)); _ ← act (λ z, (v + 1, tt)); PRet true.
Lemma irqsave_sections_atomic_witness :
  let y := run_final Preemptive (section_client bump) ([Dispatch 0%nat; Start 0%nat ()] ++ replicate 9 (Go 0%nat))
             (start 0 [tt; tt]) in
  intf (shared y) = true ∧ 0 ≤ world (shared y).
Proof.
  intros y. split; [reflexivity|].
  refine (proj1 (irqsave_sections_atomic bump (λ z, 0 ≤ z) 2 0 y _ _ (run_final_reach _ _ _ _)) _); [|lia|reflexivity].
  intros z Hz. exists true, (z + 1). split; [reflexivity|lia].
Defined.

(** ** Theorems on the reader-writer lock *)

(** C28: With preemption at any point, and readers that enter through
    [rwlock_read_trylock], a thread that holds the lock for writing excludes all
    others: next to it no thread reads or writes. Downgrades are included. *)
Theorem rwlock_exclusion n y i j m : Z.of_nat n < 2 ^ 31 - 1 →
  reach Preemptive (Rwlock.rw_client false) (start (Rwlock.mk_rwlock 0 0) (replicate n Rwlock.Idle)) y →
  threads y !! i = Some (Rest Rwlock.Writing) → threads y !! j = Some (Rest m) → m ≠ Rwlock.Idle → i = j.
Proof.
  intros Hn Hr Hi Hj Hm.
  assert (machine_ok Preemptive (Rwlock.rw_client false) (linv Rwlock.rw_inv) (λ m, (Rwlock.injH m, Out)) y) as Hok.
  { eapply section_reach; [| |apply section_start|exact Hr].
    - intros c w hs k HC _ _ _. by eapply Rwlock.rw_keep.
    - apply Rwlock.rw_code_ok.
    - rewrite fmap_replicate. split; cbn; rewrite ?cnt_replicate, ?length_replicate by done; auto; lia. }
  destruct (rest_status _ _ _ _ _ Hok) as (c & w & hs & HC & _ & Hs).
  apply Hs in Hi, Hj. destruct m; [done| |].
  - pose proof (cnt_ge_1 Rwlock.is_alone _ _ _ Hi eq_refl). pose proof (cnt_ge_1 Rwlock.is_reader _ _ _ Hj eq_refl).
    destruct (Rwlock.ri_alone _ _ _ HC); lia.
  - eapply (cnt_unique Rwlock.is_writer hs i j); [done|done|done|done|apply HC].
Qed.
Lemma rwlock_exclusion_witness :
  let y := run_final Preemptive (Rwlock.rw_client false) ([Dispatch 0%nat; Start 0%nat Rwlock.WriteLock] ++ replicate 13 (Go 0%nat))
             (start (Rwlock.mk_rwlock 0 0) [Rwlock.Idle; Rwlock.Idle]) in
  threads y !! 0%nat = Some (Rest Rwlock.Writing) ∧ threads y !! 1%nat ≠ Some (Rest Rwlock.Reading).
Proof.
  intros y. split; [vm_compute; reflexivity|]. intros H1.
  discriminate (rwlock_exclusion 2 y 0 1 Rwlock.Reading ltac:(lia) (run_final_reach _ _ _ _)
    ltac:(vm_compute; reflexivity) H1 ltac:(done)).
Defined.

(** [rwlock_read_lock] looks at the writers before it takes the internal lock
    and not again: a writer that comes between shares the lock with the reader. *)
Theorem rwlock_read_lock_races : ∃ y,
  reach Preemptive (Rwlock.rw_client true) (start (Rwlock.mk_rwlock 0 0) [Rwlock.Idle; Rwlock.Idle]) y ∧
  threads y = [Rest Rwlock.Reading; Rest Rwlock.Writing].
Proof.
  exists (run_final Preemptive (Rwlock.rw_client true) ([Dispatch 0%nat; Start 0%nat Rwlock.ReadLock; Go 0%nat; Go 0%nat;
    Dispatch 1%nat; Start 1%nat Rwlock.WriteLock] ++ replicate 13 (Go 1%nat) ++ [Dispatch 0%nat] ++ replicate 9 (Go 0%nat))
    (start (Rwlock.mk_rwlock 0 0) [Rwlock.Idle; Rwlock.Idle])).
  split; [apply run_final_reach|]. vm_compute. reflexivity.
Qed.

(** ** Theorems on the semaphore *)

(** With preemption at any point, a semaphore of value [v] never has more
    than [v] units out: the units the resting threads hold add up to at most
    [v], and the units of each thread are not negative. *)
Theorem semaphore_bounds_units n v y : 0 ≤ v < 2 ^ 31 →
  reach Preemptive Sem.sem_client (start (mk_proc ∅ (λ _, []) (Sem.mk_sem v [])) (replicate n 0)) y →
  Sem.total ((λ t, match t with Rest m => m | Run _ _ _ => 0 end) <$> threads y) ≤ v ∧
  ∀ i m, threads y !! i = Some (Rest m) → 0 ≤ m.
Proof.
  intros Hv Hr.
  assert (machine_ok Preemptive Sem.sem_client (linv (pinv (Sem.sem_inv v))) (λ m, (m, Out)) y) as Hok.
  { eapply (section_reach _ _ _ id); [| |apply section_start|exact Hr].
    - intros c w hs k HC _ _ _. by eapply Sem.sem_dispatch.
    - apply Sem.sem_code_ok.
    - rewrite fmap_replicate. split; cbn; [|lia|by apply Forall_replicate|lia].
      assert (Sem.total (replicate n 0) = 0) as H0 by (clear; induction n; cbn in *; done).
      change (id 0) with 0. lia. }
  destruct (rest_status _ _ _ id _ Hok) as (c & w & hs & HC & Hlen & Hs).
  split; [|intros i m Hi; apply Hs in Hi; exact (Sem.sem_held _ _ _ _ _ _ HC Hi)].
  assert (Sem.total ((λ t, match t with Rest m => m | Run _ _ _ => 0 end) <$> threads y) ≤ Sem.total hs) as Hle.
  { pose proof (Sem.si_held _ _ _ _ HC) as Hf. clear -Hlen Hs Hf. revert hs Hlen Hs Hf.
    induction (threads y) as [|t ts IH]; intros [|h hs] Hlen Hs Hf; try done.
    apply Forall_cons in Hf as [Hh Hf]. cbn. fold (Sem.total hs).
    assert (match t with Rest m => m | Run _ _ _ => 0 end ≤ h).
    { destruct t as [m|]; [|done]. specialize (Hs 0%nat m eq_refl). injection Hs as ->. done. }
    specialize (IH hs ltac:(cbn in Hlen; lia) (λ j m, Hs (S j) m) Hf). unfold Sem.total in *. lia. }
  pose proof (Sem.si_total _ _ _ _ HC). pose proof (Sem.si_count _ _ _ _ HC). lia.
Qed.
Lemma semaphore_bounds_units_witness :
  let y := run_final Preemptive Sem.sem_client ([Dispatch 0%nat; Start 0%nat Sem.TryWait] ++ replicate 3 (Go 0%nat))
             (start (mk_proc ∅ (λ _, []) (Sem.mk_sem 1 [])) [0; 0]) in
  Sem.total ((λ t, match t with Rest m => m | Run _ _ _ => 0 end) <$> threads y) ≤ 1.
Proof. intros y. exact (proj1 (semaphore_bounds_units 2 1 y ltac:(lia) (run_final_reach _ _ _ _))). Defined.

(** [sem_wait] takes only the last unit after a sleep: when two units were
    posted before the woken thread runs, it spins for ever and, as the kernel
    switches threads only in [schedule], takes the processor with it. *)
Definition sem_start : machine (proc Sem.semaphore) Z Sem.op :=
  start (mk_proc ∅ (λ _, []) (Sem.mk_sem 2 [])) [0; 0].
Definition sem_schedule : list (label Sem.op) :=
  let run i k := replicate k (Go i) in
  [Dispatch 1%nat; Start 1%nat Sem.TryWait] ++ run 1%nat 3%nat ++ [Start 1%nat Sem.TryWait] ++ run 1%nat 3%nat ++
  [Start 1%nat Sem.Yield] ++ run 1%nat 1%nat ++ [Dispatch 0%nat; Start 0%nat Sem.Wait] ++ run 0%nat 24%nat ++
  [Dispatch 1%nat] ++ run 1%nat 1%nat ++ [Start 1%nat Sem.Post] ++ run 1%nat 10%nat ++
  [Start 1%nat Sem.Post] ++ run 1%nat 10%nat ++ [Start 1%nat Sem.Yield] ++ run 1%nat 1%nat ++ [Dispatch 0%nat] ++ run 0%nat 2%nat.
Definition stuck_inv (s : state (proc Sem.semaphore)) (gs : list bool) : Prop :=
  cur s = Some 0%nat ∧ Sem.count (dat (world s)) = 2 ∧ gs !! 0%nat = Some true.
Lemma stuck_never i o (m : Z) (Q : bool → bool → Prop) : wp Cooperative Sem.sem_client stuck_inv i (code Sem.sem_client i o) Q false.
Proof.
  apply wp_never; [by destruct o|]. intros s gs (Hc & _ & Hg) Hi Hr. apply can_run_cur in Hr; [|done].
  rewrite Hc in Hr. injection Hr as <-. congruence.
Qed.
Theorem sem_wait_hangs : ∃ y, reach Cooperative Sem.sem_client sem_start y ∧ Sem.count (dat (world (shared y))) = 2 ∧
  ∀ z, reach Cooperative Sem.sem_client y z → cur (shared z) = Some 0%nat ∧ Sem.count (dat (world (shared z))) = 2 ∧
    ∀ m, threads z !! 0%nat ≠ Some (Rest m).
Proof.
  exists (run_final Cooperative Sem.sem_client sem_schedule sem_start).
  split; [apply run_final_reach|]. split; [vm_compute; reflexivity|]. intros z Hz.
  assert (machine_ok Cooperative Sem.sem_client stuck_inv (λ _, false) z) as (gs & (Hc & H2 & Hg) & Hlen & Hok).
  { eapply reach_ok; [| | |exact Hz].
    - intros s gs j s' (Hc & H2 & Hg). unfold dispatch. rewrite Hc. by rewrite andb_false_r.
    - intros i o m _. by apply stuck_never.
    - exists [true; false]. split; [by vm_compute|]. split; [by vm_compute|].
      intros [|[|i]] t g Ht Hg; [| |done]; vm_compute in Ht; injection Ht as <-; injection Hg as <-; [|done].
      cbn [thread_ok wp]. intros [c f sp [a q [v l]]] gs (Hc & H2 & Hg) _ _. cbn in Hc, H2. subst v.
      exists true. cbn. rewrite list_insert_id by done. split; [|done]. split_and!; done. }
  split_and!; [done|done|]. intros m Hm. discriminate (Hok _ _ _ Hm Hg).
Qed.

(** ** Theorems on the mutex *)

Lemma mutex_reach_ok n y : reach Cooperative Mutex.mutex_client (start Mutex.free_mutex (replicate n false)) y →
  machine_ok Cooperative Mutex.mutex_client (linv (pinv Mutex.mutex_inv)) (λ m, (Mutex.injH m, Out)) y.
Proof.
  intros Hr. eapply section_reach; [| |apply section_start|exact Hr].
- intros c w hs k HC _ [Hn|Hp] _; [by eapply Mutex.mutex_dispatch|done].
- apply Mutex.mutex_code_ok.
- assert (∀ k h, Mutex.injH <$> replicate n false !! k = Some h → h = Mutex.HFree) as Hf.
  { intros k h Hk. destruct (replicate n false !! k) as [b|] eqn:Hb; [|done].
    apply lookup_replicate in Hb as [-> _]. by injection Hk as <-. }
  split; cbn; rewrite ?fmap_replicate, ?cnt_replicate by done; try done.
  + intros k. rewrite <- fmap_replicate, list_lookup_fmap. by intros Hk%Hf.
  + intros k h. rewrite <- fmap_replicate, list_lookup_fmap. by intros ->%Hf.
Qed.

(** C27: Under the kernel's scheduling, where a thread keeps the processor until
    it calls [schedule], a mutex is held by at most one thread, for any number
    of threads that lock, try, unlock (also a mutex they do not own) and yield
    in any order. *)
Theorem mutex_mutual_exclusion n y i j :
  reach Cooperative Mutex.mutex_client (start Mutex.free_mutex (replicate n false)) y →
  threads y !! i = Some (Rest true) → threads y !! j = Some (Rest true) → i = j.
Proof.
  intros Hr Hi Hj.
  apply mutex_reach_ok in Hr.
  destruct (rest_status _ _ _ _ _ Hr) as (c & w & hs & HC & _ & Hs). apply Hs in Hi, Hj.
  eapply (cnt_unique Mutex.holder hs i j); [done|done|done|done|apply HC].
Qed.
Lemma mutex_mutual_exclusion_witness :
  let y := run_final Cooperative Mutex.mutex_client ([Dispatch 0%nat; Start 0%nat Mutex.Lock] ++ replicate 4 (Go 0%nat))
             (start Mutex.free_mutex [false; false]) in
  threads y !! 0%nat = Some (Rest true) ∧ threads y !! 1%nat ≠ Some (Rest true).
Proof.
  intros y. split; [vm_compute; reflexivity|]. intros H1.
  discriminate (mutex_mutual_exclusion 2 y 0 1 (run_final_reach _ _ _ _) ltac:(vm_compute; reflexivity) H1).
Defined.

(** With preemption a woken waiter of [mutex_lock] takes the mutex by a plain
    store: a thread that comes between its look and the store also gets it. *)
Theorem mutex_lock_races_when_preempted : ∃ y,
  reach Preemptive Mutex.mutex_client (start Mutex.free_mutex [false; false]) y ∧ threads y = [Rest true; Rest true].
Proof.
  exists (run_final Preemptive Mutex.mutex_client (let run i k := replicate k (Go i) in
    [Dispatch 0%nat; Start 0%nat Mutex.Lock] ++ run 0%nat 4%nat ++ [Dispatch 1%nat; Start 1%nat Mutex.Lock] ++ run 1%nat 23%nat ++
    [Dispatch 0%nat; Start 0%nat Mutex.Unlock] ++ run 0%nat 13%nat ++ [Dispatch 1%nat] ++ run 1%nat 3%nat ++
    [Dispatch 0%nat; Start 0%nat Mutex.Lock] ++ run 0%nat 4%nat ++ [Dispatch 1%nat] ++ run 1%nat 12%nat)
    (start Mutex.free_mutex [false; false])).
  split; [apply run_final_reach|]. vm_compute. reflexivity.
Qed.

(** *** A waiter that loses its place

    [mutex_unlock] takes the first waiter off the list; when another thread has
    locked the mutex again before the waiter runs, the waiter goes back to sleep
    without returning to the list, and no later [mutex_unlock] wakes it. *)
Module Lost.
Import Mutex.
Definition lost (w : proc mutex) : Prop := (1%nat ∈ asleep w) ∧ (1%nat ∉ wait_list (dat w)).
Definition lost_inv (c : option nat) (w : proc mutex) (hs : list bool) : Prop :=
  c ≠ Some 1%nat ∧ lost w ∧ hs !! 1%nat = Some true.
#[local] Notation wpz := (wp Cooperative mutex_client (linv lost_inv)).
#[local] Notation post := (λ _ g, g = (false, Out)).

Lemma wp_lost {B R} i (f : proc mutex → proc mutex * B) (k : B → prog (state (proc mutex)) R) Q :
  (∀ w, i ≠ 1%nat → lost w → lost (fst (f w))) → (∀ b, wpz i (k b) Q (false, Out)) →
  wpz i (lift (act f) ≫= k) Q (false, Out).
Proof.
  intros Hf Hk. apply wp_world; [done|]. intros w hs (Hc & Hl & Hh) Hi. exists false. rewrite list_insert_id by done.
  assert (i ≠ 1%nat) as Hne by congruence. split; [|done]. split_and!; auto.
Qed.
Lemma wp_lost_section {A R} i (c : prog (proc mutex) A) (k : A → prog (state (proc mutex)) R) Q :
  (∀ w, i ≠ 1%nat → lost w → ∃ a w', exec c w = Some (a, w') ∧ lost w') → (∀ a, wpz i (k a) Q (false, Out)) →
  wpz i (flags ← spin_lock_irqsave wait_lock; a ← lift c; _ ← spin_unlock_irqrestore wait_lock flags; k a) Q (false, Out).
Proof.
  intros Hf Hk. apply wp_section; [done|]. intros w hs (Hc & Hl & Hh) Hi.
  assert (i ≠ 1%nat) as Hne by congruence. destruct (Hf w Hne Hl) as (a & w' & He & Hl').
  exists a, w', false. rewrite list_insert_id by done. split_and!; [done|done|apply Hk].
Qed.
Lemma wp_lost_sleep i q Q : Q tt (false, Out) → wpz i (sleep_on i q) Q (false, Out).
Proof.
  intros HQ. unfold sleep_on, add_to_waitqueue_and_block. apply wp_bind, wp_section; [done|].
  intros w hs (Hc & Hl & Hh) Hi. eexists tt, _, false. rewrite list_insert_id by done.
  split; [done|]. split; [by split; [|split; [apply Hl|]]|]. cbn [wp]. apply wp_lost.
  - intros w' Hne [Ha Hw]. split; [|done]. cbn. set_solver.
  - intros []. apply (wp_schedule _ _ _ cooperative_one i PRet). clear -HQ. intros w hs (Hc & Hl & Hh) Hi. exists false.
    rewrite list_insert_id by done. split; [by split_and!|exact HQ].
Qed.
(** Actions that touch neither the waiters nor the sleepers. *)
Lemma wp_lost_dat {B R} i (f : mutex → mutex * B) (k : B → prog (state (proc mutex)) R) Q :
  (∀ m, wait_list (fst (f m)) = wait_list m) → (∀ b, wpz i (k b) Q (false, Out)) →
  wpz i (lift (on_dat f) ≫= k) Q (false, Out).
Proof.
  intros Hf Hk. apply wp_lost; [|done]. intros w _ [Ha Hw]. specialize (Hf (dat w)).
  destruct (f (dat w)) as [m b]. split; [done|]. cbn in *. by rewrite Hf.
Qed.
Lemma cas_waiters a b m : wait_list (fst (on_locked (atomic_compare_and_swap a b) m)) = wait_list m.
Proof. unfold on_locked, atomic_compare_and_swap. by destruct (locked m =? a). Qed.
#[local] Hint Resolve cas_waiters : core.
Lemma lost_lock i : wpz i (mutex_lock i) post (false, Out).
Proof.
  apply wp_lost_dat; [done|]. intros [].
  { apply wp_lost_dat; [done|]. intros []. apply wp_lost_dat; [done|]. by intros []. }
  apply wp_lost_section.
  { intros w Hne [Ha Hw]. rewrite mutex_slow_exec. destruct (locked (dat w) =? 0); eexists _, _; (split; [done|]); split;
      [done|done|done|]. cbn. set_solver. }
  intros []; [done|]. apply wp_bind, wp_while, wp_lost_dat; [done|]. intros v. destruct (negb (v =? 0)).
  { by apply wp_bind, wp_lost_sleep. }
  apply wp_lost_dat; [done|]. intros o. destruct (bool_decide (o ≠ None)); [by apply wp_bind, wp_lost_sleep|]. cbn [wp].
  apply wp_lost_dat; [done|]. intros []. apply wp_lost_dat; [done|]. intros []. apply wp_lost_dat; [done|]. intros [].
  apply wp_lost_section; [|done]. intros w Hne [Ha Hw]. eexists _, _. split; [done|]. split; [done|]. cbn.
  intros Hin%list_elem_of_filter. tauto.
Qed.
Lemma lost_trylock i : wpz i (mutex_trylock i) post (false, Out).
Proof.
  apply wp_lost_dat; [done|]. intros []; [|done]. apply wp_lost_dat; [done|]. intros [].
  apply wp_lost_dat; [done|]. by intros [].
Qed.
Lemma lost_unlock i : wpz i (mutex_unlock i) post (false, Out).
Proof.
  apply wp_lost_dat; [done|]. intros o. destruct (bool_decide (o ≠ Some i)); [done|].
  apply wp_lost_dat; [done|]. intros []. apply wp_lost_dat; [done|]. intros []. apply wp_lost_dat; [done|]. intros [].
  apply wp_lost_section; [|done]. intros w Hne [Ha Hw]. cbn [exec mutex_wake_first act].
  destruct (wait_list (dat w)) as [|t r] eqn:Hl; eexists _, _; (split; [done|]); split; cbn; try set_solver.
  by rewrite Hl.
Qed.
Lemma lost_code_ok i o : wpz i (Conc.code mutex_client i o) post (false, Out).
Proof.
  destruct o; cbn [Conc.code mutex_client].
  - eapply wp_bind, wp_mono; [|apply lost_lock]. by intros ? g ->.
  - eapply wp_mono; [|apply lost_trylock]. by intros ? g ->.
  - eapply wp_bind, wp_mono; [|apply lost_unlock]. by intros ? g ->.
  - apply wp_schedule; [done|]. intros w hs (Hc & Hl & Hh) Hi. exists false. rewrite list_insert_id by done.
    by split_and!.
Qed.
End Lost.

Definition lost_schedule : list (label Mutex.op) :=
  let run i k := replicate k (Go i) in
  [Dispatch 0%nat; Start 0%nat Mutex.Lock] ++ run 0%nat 4%nat ++ [Start 0%nat Mutex.Yield] ++ run 0%nat 1%nat ++
  [Dispatch 1%nat; Start 1%nat Mutex.Lock] ++ run 1%nat 23%nat ++ [Dispatch 0%nat] ++ run 0%nat 1%nat ++
  [Start 0%nat Mutex.Unlock] ++ run 0%nat 13%nat ++ [Start 0%nat Mutex.Lock] ++ run 0%nat 4%nat ++
  [Start 0%nat Mutex.Yield] ++ run 0%nat 1%nat ++ [Dispatch 1%nat] ++ run 1%nat 12%nat ++ [Dispatch 0%nat] ++ run 0%nat 1%nat ++
  [Start 0%nat Mutex.Unlock] ++ run 0%nat 13%nat.
Theorem mutex_waiter_sleeps_forever : ∃ y,
  reach Cooperative Mutex.mutex_client (start Mutex.free_mutex [false; false]) y ∧
  dat (world (shared y)) = Mutex.mk_mutex 0 None 0 [] ∧
  ∀ z, reach Cooperative Mutex.mutex_client y z → ∀ m, threads z !! 1%nat ≠ Some (Rest m).
Proof.
  set (y := run_final Cooperative Mutex.mutex_client lost_schedule (start Mutex.free_mutex [false; false])).
  exists y. split; [apply run_final_reach|]. split; [vm_compute; reflexivity|]. intros z Hz.
  assert (machine_ok Cooperative Mutex.mutex_client (linv Lost.lost_inv) (λ _, (false, Out)) z) as Hok.
  { eapply (section_reach _ _ _ (λ _, false)); [| | |exact Hz].
    - intros c w hs j (Hc & [Ha Hw] & Hh) Hj _ _. split; [|by split; [split|]]. intros [= ->].
      apply bool_decide_eq_true in Hj. done.
    - intros i o m _. by apply Lost.lost_code_ok.
    - exists [(false, Out); (true, Out)]. split; [|split; [by vm_compute|]].
      + pose proof (mutex_reach_ok 2 _ (run_final_reach _ _ lost_schedule _)) as (gs' & Hl & _).
        apply linv_out; [|by vm_compute| |].
        { intros [|[|i]] g Hg; [by injection Hg as <-|by injection Hg as <-|done]. }
        { destruct Hl as [? ? Hz'| |]; [exact Hz'|..];
            match goal with Hf : intf _ = false |- _ => vm_compute in Hf; discriminate Hf end. }
        split; [by vm_compute|]. split; [|done]. split; [|by vm_compute; apply not_elem_of_nil].
        apply (bool_decide_eq_true_1 _). vm_compute. reflexivity.
      + intros [|[|i]] t g Ht Hg; [| |done]; injection Hg as <-.
        { destruct t as [m|]; [done|]. clear -Ht. exfalso.
          assert (match threads y !! 0%nat with Some (Run _ _ _) => true | _ => false end = false) as Hy by (by vm_compute).
          by rewrite Ht in Hy. }
        assert (match threads y !! 1%nat with Some (Run _ _ p) => first_act p | _ => false end = true) as Hy
          by (by vm_compute).
        rewrite Ht in Hy. destruct t as [|o m p]; [done|]. cbn [thread_ok]. apply wp_never; [done|]. intros s gs Hl Hi Hr.
        destruct (linv_self_out _ _ _ cooperative_one _ _ _ _ Hl Hi Hr) as (_ & _ & _ & _ & Hc & _). exact (Hc eq_refl). }
  intros m Hm. destruct Hok as (gs & Hl & Hlen & Hok).
  destruct (lookup_lt_is_Some_2 gs 1) as [g Hg]; [rewrite Hlen; by eapply lookup_lt_Some|].
  rewrite (Hok _ _ _ Hm Hg) in Hg. destruct Hl as [? ? ? HC|i h Hi ? ? ? ? HC|i h l w' h' Hi ? ? ? ? HC].
  - destruct HC as (_ & _ & Hh). rewrite list_lookup_fmap, Hg in Hh. done.
  - destruct HC as (_ & _ & Hh). rewrite list_lookup_fmap, Hg in Hh. done.
  - destruct HC as (Hc & _ & Hh). rewrite list_lookup_insert_ne in Hh by congruence.
    rewrite list_lookup_fmap, Hg in Hh. done.
Qed.

(** ** Theorems on wait queues and the condition variable *)

(** What the wake-up functions do to a queue: [wake_up] takes the first
    exclusive waiter, or the first waiter if none is exclusive, and so does
    [wake_up_exclusive]; [wake_up_all] takes every non-exclusive waiter but only
    the first exclusive one. Each leaves the others in their order. *)
Theorem wake_up_takes_next l :
  wake_entries false 1 l = (without_next l, next_waiter l) ∧
  wake_entries true 1 l = (without_next l, next_waiter l) ∧
  wake_entries false 0 l = (tail (excl l), take 1 (tasks (excl l)) ++ tasks (norm l)).
Proof. split; [apply wake_one|]. split; [apply wake_one|apply wake_all]. Qed.

(** [condvar_broadcast] keeps room for 32 queues: of 33 waiters all leave the
    list and the last one sleeps on. *)
Definition broadcast_schedule : list (label Condvar.op) :=
  (seq 0 33 ≫= λ i, [Dispatch i; Start i Condvar.Lock] ++ replicate 4 (Go i) ++ [Start i Condvar.Wait] ++ replicate 31 (Go i)) ++ [Dispatch 33%nat; Start 33%nat Condvar.Broadcast] ++ replicate 297 (Go 33%nat).
Theorem condvar_broadcast_loses_waiter : ∃ y,
  reach Cooperative Condvar.condvar_client (start Condvar.free_condvar (replicate 34 false)) y ∧
  threads y !! 33%nat = Some (Rest false) ∧
  Condvar.waiters (dat (world (shared y))) = [] ∧ asleep (world (shared y)) = {[ 32%nat ]}.
Proof.
  exists (run_final Cooperative Condvar.condvar_client broadcast_schedule (start Condvar.free_condvar (replicate 34 false))).
  split; [apply run_final_reach|]. split_and!; vm_compute; reflexivity.
Qed.
