(* ===== verification/Ports.v ===== *)
(** * Port input and output, and the 8259 interrupt controllers:
    [kernel/driver/io/io.h], [kernel/driver/pic/pic.c]

    The devices behind the ports are not part of the sources. They are the class
    [PortIO]: a state and what reading or writing a port does to it. Drivers run in
    the monad [io] over any state that has ports, so the same code runs on the
    devices alone and on a machine that contains them. What the manual of the 8259
    says about its registers is the class [PicLaws]. *)
From S2P Require Import Prelude.

Create HintDb drv.

(** ** Code with state *)
Definition io (St A : Type) : Type := St → outcome (A * St).
#[export] Instance io_ret St : MRet (io St) := λ A a s, Ret (a, s).
#[export] Instance io_bind St : MBind (io St) := λ A B f m s,
  match m s with Ret (a, s') => f a s' | Fail e => Fail e end.
Definition io_fail {St A} (e : failure) : io St A := λ _, Fail e.
Definition gets {St A} (f : St → A) : io St A := λ s, Ret (f s, s).
Definition modify {St} (f : St → St) : io St unit := λ s, Ret (tt, f s).
Definition lift {St A} (o : outcome A) : io St A := λ s,
  match o with Ret a => Ret (a, s) | Fail e => Fail e end.
(** [if (b) m] *)
Definition when {St} (b : bool) (m : io St unit) : io St unit := if b then m else mret tt.
(** [for (i = start; i < stop; i++) body(i)] *)
Fixpoint io_loop {St} (n : nat) (i : Z) (body : Z → io St unit) : io St unit :=
  match n with O => mret tt | S n' => body i ;; io_loop n' (i + 1) body end.
Definition io_for {St} (start stop : Z) (body : Z → io St unit) : io St unit :=
  io_loop (Z.to_nat (stop - start)) start body.

Section monad.
Context {St : Type}.
Implicit Types (s : St).

Lemma io_bind_assoc {A B C} (m : io St A) (f : A → io St B) (g : B → io St C) s :
  ((m ≫= f) ≫= g) s = (m ≫= λ a, f a ≫= g) s.
Proof. unfold mbind, io_bind. destruct (m s) as [[a s']|e]; reflexivity. Qed.
Lemma io_bind_ret_inv {A B} (m : io St A) (f : A → io St B) s r :
  (m ≫= f) s = Ret r → ∃ a s', m s = Ret (a, s') ∧ f a s' = Ret r.
Proof. unfold mbind, io_bind. destruct (m s) as [[a s']|e]; [eauto | done]. Qed.
Lemma io_bind_step {A B} (m : io St A) (f : A → io St B) s a s' :
  m s = Ret (a, s') → (m ≫= f) s = f a s'.
Proof. unfold mbind, io_bind. by intros ->. Qed.

(** A counting loop establishes what its body carries from one index to the next. *)
Lemma io_for_ind (Inv : Z → St → Prop) start stop body s :
  start ≤ stop → Inv start s →
  (∀ i t, start ≤ i < stop → Inv i t → ∃ t', body i t = Ret (tt, t') ∧ Inv (i + 1) t') →
  ∃ t, io_for start stop body s = Ret (tt, t) ∧ Inv stop t.
Proof.
  intros Hle H0 Hstep. unfold io_for. remember (Z.to_nat (stop - start)) as n eqn:Hn.
  assert (stop = start + Z.of_nat n) as -> by lia. clear Hn. revert start s Hle H0 Hstep.
  induction n as [|n IH]; intros start s Hle H0 Hstep; cbn [io_loop].
  - exists s. by replace (start + Z.of_nat 0) with start by lia.
  - destruct (Hstep start s) as (t & Ht & H1); [lia|done|]. rewrite (io_bind_step _ _ _ _ _ Ht).
    destruct (IH (start + 1) t) as (t' & Ht' & H2); [lia|done| |].
    { intros i u Hi. apply Hstep. lia. }
    exists t'. split; [done|]. by replace (start + Z.of_nat (S n)) with (start + 1 + Z.of_nat n) by lia.
Qed.

(** [safe P m Q]: from a state in [P], [m] ends in [P] with a result in [Q], or
    keeps waiting for a device; it never faults and never stops the machine. *)
Definition safe {A} (P : St → Prop) (m : io St A) (Q : A → Prop) : Prop :=
  ∀ s, P s → match m s with Ret (a, s') => P s' ∧ Q a | Fail e => e = Hang end.
Context (P : St → Prop).
Lemma safe_ret {A} (a : A) (Q : A → Prop) : Q a → safe P (mret a) Q.
Proof. intros Ha s Hs. done. Qed.
Lemma safe_bind {A B} (m : io St A) (f : A → io St B) Q R :
  safe P m Q → (∀ a, Q a → safe P (f a) R) → safe P (m ≫= f) R.
Proof.
  intros Hm Hf s Hs. specialize (Hm s Hs). unfold mbind, io_bind. destruct (m s) as [[a s']|e]; [|done]. destruct Hm as [Hs' Ha]. by apply Hf.
Qed.
Lemma safe_weaken {A} (m : io St A) Q (R : A → Prop) : (∀ a, Q a → R a) → safe P m Q → safe P m R.
Proof. intros HQ Hm s Hs. specialize (Hm s Hs). destruct (m s) as [[a s']|e]; [|done]. destruct Hm. auto. Qed.
Lemma safe_when (b : bool) (m : io St unit) : (b = true → safe P m (λ _, True)) → safe P (when b m) (λ _, True).
Proof. intros Hm. destruct b; [by apply Hm | by apply safe_ret]. Qed.
Lemma safe_hang {A} (Q : A → Prop) : safe P (io_fail Hang) Q.
Proof. done. Qed.
Lemma safe_lift {A} (o : outcome A) (Q : A → Prop) : (∃ a, o = Ret a ∧ Q a) → safe P (lift o) Q.
Proof. intros (a & -> & Ha) s Hs. done. Qed.
Lemma safe_gets {A} (f : St → A) (Q : A → Prop) : (∀ s, P s → Q (f s)) → safe P (gets f) Q.
Proof. intros HQ s Hs. split; [done|]. by apply HQ. Qed.
Lemma safe_modify (f : St → St) : (∀ s, P s → P (f s)) → safe P (modify f) (λ _, True).
Proof. intros HP s Hs. split; [|done]. by apply HP. Qed.
End monad.
#[export] Hint Resolve safe_ret safe_hang : drv.

(** ** Ports *)
Class PortIO (St : Type) := {
  port_inb : Z → St → Z * St;
  port_outb : Z → Z → St → St;
  port_inw : Z → St → Z * St;
  port_outw : Z → Z → St → St }.

Section ports.
Context {St : Type} `{PortIO St}.
Definition inb (port : Z) : io St Z := λ s, let '(v, s') := port_inb port s in Ret (u8 v, s').
Definition outb (port data : Z) : io St unit := λ s, Ret (tt, port_outb port (u8 data) s).
Definition inw (port : Z) : io St Z := λ s, let '(v, s') := port_inw port s in Ret (u16 v, s').
Definition outw (port data : Z) : io St unit := λ s, Ret (tt, port_outw port (u16 data) s).

(** [1UL << n], defined for shifts below the width. *)
Definition BIT (n : Z) : io St Z := if n <? 64 then mret (u64 (Z.shiftl 1 n)) else io_fail Fault.

Lemma BIT_spec n (s : St) : 0 ≤ n < 64 → BIT n s = Ret (2 ^ n, s).
Proof.
  intros Hn. unfold BIT. destruct (Z.ltb_spec n 64) as [_|]; [|lia]. rewrite Z.shiftl_mul_pow2, Z.mul_1_l by lia.
  rewrite u64_small; [done|]. split; [lia|]. apply Z.pow_lt_mono_r; lia.
Qed.
End ports.

(** ** The interrupt controllers *)
Module Pic.

Definition PIC1_CMD := 0x20.
Definition PIC1_DATA := 0x21.
Definition PIC2_CMD := 0xA0.
Definition PIC2_DATA := 0xA1.
Definition PIC_EOI := 0x20.
Definition PIC_INIT := 0x11.
Definition PIC_ICW4_8086 := 0x01.

Section pic.
Context {St : Type} `{PortIO St}.

Definition pic_send_command (cmd port : Z) : io St unit := outb port cmd.
Definition pic_send_data (data port : Z) : io St unit := outb port data.
Definition pic_read_data (port : Z) : io St Z := inb port.

Definition pic_init (offset1 offset2 : Z) : io St unit :=
  a1 ← pic_read_data PIC1_DATA;
  a2 ← pic_read_data PIC2_DATA;
  pic_send_command PIC_INIT PIC1_CMD;;
  pic_send_command PIC_INIT PIC2_CMD;;
  pic_send_data offset1 PIC1_DATA;;
  pic_send_data offset2 PIC2_DATA;;
  pic_send_data 0x04 PIC1_DATA;;
  pic_send_data 0x02 PIC2_DATA;;
  pic_send_data PIC_ICW4_8086 PIC1_DATA;;
  pic_send_data PIC_ICW4_8086 PIC2_DATA;;
  pic_send_data a1 PIC1_DATA;;
  pic_send_data a2 PIC2_DATA.

Definition pic_send_eoi (irq : Z) : io St unit :=
  when (8 <=? irq) (pic_send_command PIC_EOI PIC2_CMD);;
  pic_send_command PIC_EOI PIC1_CMD.

(** [if (irq < 8) port = PIC1_DATA; else { port = PIC2_DATA; irq -= 8; }] *)
Definition pic_line (irq : Z) : Z * Z :=
  if irq <? 8 then (PIC1_DATA, irq) else (PIC2_DATA, irq - 8).

Definition pic_disable_irq (irq : Z) : io St unit :=
  let '(port, irq) := pic_line irq in
  v ← pic_read_data port;
  b ← BIT irq;
  pic_send_data (Z.lor v b) port.
Definition pic_enable_irq (irq : Z) : io St unit :=
  let '(port, irq) := pic_line irq in
  v ← pic_read_data port;
  b ← BIT irq;
  pic_send_data (Z.land v (~64 b)) port.
Definition pic_is_irq_masked (irq : Z) : io St bool :=
  let '(port, irq) := pic_line irq in
  v ← pic_read_data port;
  b ← BIT irq;
  mret (negb (Z.land v b =? 0)).

Definition pic_disable_all : io St unit :=
  pic_send_data 0xFF PIC1_DATA;; pic_send_data 0xFF PIC2_DATA.
Definition pic_enable_all : io St unit :=
  pic_send_data 0x00 PIC1_DATA;; pic_send_data 0x00 PIC2_DATA.
End pic.

(** ** What the data sheet of the 8259 promises

    [icw] is 0 when the chip is operational, and otherwise the number of the
    initialisation word it expects next on its data port. *)
Record pic8259 := mk_pic { imr : Z; isr : Z; vector_base : Z; wiring : Z; pic_mode : Z; icw : Z }.
Definition cmd_port (slave : bool) : Z := if slave then PIC2_CMD else PIC1_CMD.
Definition data_port (slave : bool) : Z := if slave then PIC2_DATA else PIC1_DATA.

(** A start command with initialisation words 3 and 4 to follow clears the masks. *)
Definition chip_start (x : pic8259) : pic8259 := mk_pic 0 0 (vector_base x) (wiring x) (pic_mode x) 2.
(** End of interrupt: the interrupt in service of the highest priority, the lowest
    bit, is over. *)
Definition chip_eoi (x : pic8259) : pic8259 :=
  mk_pic (imr x) (Z.land (isr x) (isr x - 1)) (vector_base x) (wiring x) (pic_mode x) (icw x).
Definition chip_data (v : Z) (x : pic8259) : pic8259 :=
  if icw x =? 2 then mk_pic (imr x) (isr x) (Z.land v 0xF8) (wiring x) (pic_mode x) 3 else
  if icw x =? 3 then mk_pic (imr x) (isr x) (vector_base x) v (pic_mode x) 4 else
  if icw x =? 4 then mk_pic (imr x) (isr x) (vector_base x) (wiring x) v 0 else
  mk_pic v (isr x) (vector_base x) (wiring x) (pic_mode x) 0.

Class PicLaws (St : Type) `{PortIO St} := {
  pic : bool → St → pic8259;
  pic_read_mask : ∀ c s, icw (pic c s) = 0 → fst (port_inb (data_port c) s) = imr (pic c s);
  pic_read_keeps : ∀ p c s, p ≠ PIC1_CMD → p ≠ PIC2_CMD → pic c (snd (port_inb p s)) = pic c s;
  pic_write_start : ∀ c s, pic c (port_outb (cmd_port c) PIC_INIT s) = chip_start (pic c s);
  pic_write_eoi : ∀ c s, pic c (port_outb (cmd_port c) PIC_EOI s) = chip_eoi (pic c s);
  pic_write_data : ∀ c v s, pic c (port_outb (data_port c) v s) = chip_data v (pic c s);
  pic_write_other : ∀ p v c s, p ≠ cmd_port c → p ≠ data_port c → pic c (port_outb p v s) = pic c s;
  pic_words : ∀ p v c s, pic c (snd (port_inw p s)) = pic c s ∧ pic c (port_outw p v s) = pic c s }.

Definition operational {St} `{PicLaws St} (s : St) : Prop := ∀ c, icw (pic c s) = 0.
(** Line [irq] of the sixteen is masked, is in service. *)
Definition chip_of (irq : Z) : bool := 8 <=? irq.
Definition line_masked {St} `{PicLaws St} (irq : Z) (s : St) : bool :=
  Z.testbit (imr (pic (chip_of irq) s)) (irq mod 8).
Definition in_service {St} `{PicLaws St} (irq : Z) (s : St) : bool :=
  Z.testbit (isr (pic (chip_of irq) s)) (irq mod 8).

Section laws.
Context {St : Type} `{PicLaws St}.
Implicit Types (s : St).

Lemma pic_outb c d p v s : p = cmd_port d ∨ p = data_port d → c ≠ d → pic c (port_outb p v s) = pic c s.
Proof. intros Hp Hc. apply pic_write_other; destruct c, d, Hp; subst; done. Qed.

(** Both chips after [pic_init]: each operational again, its vectors moved to the
    offset it was given, the cascade wired, the masks as they were. *)
Lemma pic_init_spec o1 o2 s : operational s →
  ∃ s', pic_init o1 o2 s = Ret (tt, s') ∧
    pic false s' = mk_pic (u8 (imr (pic false s))) 0 (Z.land (u8 o1) 0xF8) 4 1 0 ∧
    pic true s' = mk_pic (u8 (imr (pic true s))) 0 (Z.land (u8 o2) 0xF8) 2 1 0.
Proof.
  intros Hop. unfold pic_init, pic_read_data, pic_send_command, pic_send_data, inb, outb, mbind, io_bind.
  destruct (port_inb PIC1_DATA s) as [v1 s1] eqn:E1. destruct (port_inb PIC2_DATA s1) as [v2 s2] eqn:E2.
  assert (∀ c, pic c s1 = pic c s) as H1 by (intros c; pose proof (pic_read_keeps PIC1_DATA c s) as K; rewrite E1 in K; by apply K).
  assert (∀ c, pic c s2 = pic c s) as H2 by (intros c; pose proof (pic_read_keeps PIC2_DATA c s1) as K; rewrite E2 in K; rewrite <- H1; by apply K).
  assert (v1 = imr (pic false s)) as -> by (pose proof (pic_read_mask false s (Hop false)) as K; cbn in K; by rewrite E1 in K).
  assert (v2 = imr (pic true s)) as ->.
  { pose proof (pic_read_mask true s1) as K. cbn in K. rewrite E2, H1 in K. apply K, Hop. }
  eexists. split; [reflexivity|].
  change PIC1_DATA with (data_port false). change PIC2_DATA with (data_port true).
  change PIC1_CMD with (cmd_port false). change PIC2_CMD with (cmd_port true). change (u8 PIC_INIT) with PIC_INIT.
  split; repeat (rewrite pic_write_data || rewrite pic_write_start ||
                 (rewrite (pic_outb _ _ (data_port _)) by eauto) || (rewrite (pic_outb _ _ (cmd_port _)) by eauto));
    rewrite H2; unfold u8; cbn; by rewrite ?Zmod_mod.
Qed.

Definition with_imr (v : Z) (x : pic8259) : pic8259 := mk_pic v (isr x) (vector_base x) (wiring x) (pic_mode x) 0.
(** Writing the data port of an operational chip replaces its mask and nothing else. *)
Lemma send_data_spec d v s : operational s →
  ∃ s', pic_send_data v (data_port d) s = Ret (tt, s') ∧ operational s' ∧
    pic d s' = with_imr (u8 v) (pic d s) ∧ ∀ c, c ≠ d → pic c s' = pic c s.
Proof.
  intros Hop. unfold pic_send_data, outb. eexists. split; [reflexivity|].
  assert (pic d (port_outb (data_port d) (u8 v) s) = with_imr (u8 v) (pic d s)) as Hd.
  { rewrite pic_write_data. unfold chip_data. by rewrite (Hop d). }
  assert (∀ c, c ≠ d → pic c (port_outb (data_port d) (u8 v) s) = pic c s) as Hc by (intros c Hc; apply (pic_outb c d); auto).
  split; [|by split]. intros c. destruct (decide (c = d)) as [->|Hcd]; [by rewrite Hd | by rewrite Hc].
Qed.

(** Reading the mask changes no chip. *)
Lemma read_data_spec d s : operational s →
  ∃ s', pic_read_data (data_port d) s = Ret (u8 (imr (pic d s)), s') ∧ ∀ c, pic c s' = pic c s.
Proof.
  intros Hop. unfold pic_read_data, inb. pose proof (pic_read_mask d s (Hop d)) as Hv.
  pose proof (λ c, pic_read_keeps (data_port d) c s) as Hk.
  destruct (port_inb (data_port d) s) as [v s']. cbn in *. subst v. exists s'. split; [done|].
  intros c. apply Hk; by destruct d.
Qed.

Lemma pic_line_spec irq : 0 ≤ irq < 16 → pic_line irq = (data_port (chip_of irq), irq mod 8).
Proof.
  intros Hi. unfold pic_line, chip_of, data_port. destruct (Z.ltb_spec irq 8), (Z.leb_spec 8 irq); try lia.
  - by rewrite Z.mod_small by lia.
  - f_equal. apply (Z.mod_unique irq 8 1); lia.
Qed.

(** Reading a mask, changing it with the bit of a line and writing it back: the
    other lines of both chips keep their mask when the operation [f] only touches
    that bit. *)
Lemma mask_update_spec (f : Z → Z → Z) (b : bool) irq s :
  operational s → 0 ≤ irq < 16 →
  (∀ v n i, 0 ≤ n < 8 → 0 ≤ i < 8 → Z.testbit (f v (2 ^ n)) i = if i =? n then b else Z.testbit v i) →
  ∃ s', (let '(port, line) := pic_line irq in
         v ← pic_read_data port; n ← BIT line; pic_send_data (f v n) port) s = Ret (tt, s') ∧
    operational s' ∧ (∀ i, 0 ≤ i < 16 → line_masked i s' = if i =? irq then b else line_masked i s) ∧
    ∀ i, in_service i s' = in_service i s.
Proof.
  intros Hop Hi Hf. rewrite pic_line_spec by done. set (d := chip_of irq). pose proof (Z.mod_pos_bound irq 8) as Hm.
  destruct (read_data_spec d s Hop) as (s1 & E1 & H1). rewrite (io_bind_step _ _ _ _ _ E1).
  rewrite (io_bind_step _ _ _ _ _ (BIT_spec (irq mod 8) s1 ltac:(lia))).
  assert (operational s1) as Hop1 by (intros c; by rewrite H1).
  destruct (send_data_spec d (f (u8 (imr (pic d s))) (2 ^ (irq mod 8))) s1 Hop1) as (s2 & E2 & Hop2 & Hd & Hc).
  exists s2. split; [exact E2|]. split; [done|]. split.
  - intros i Hi16. unfold line_masked. pose proof (Z.mod_pos_bound i 8). destruct (decide (chip_of i = d)) as [Hci|Hne].
    + rewrite Hci, Hd, H1. cbn. rewrite u8_testbit, (proj2 (Z.ltb_lt _ _)) by lia. cbn. rewrite Hf by lia.
      destruct (Z.eqb_spec i irq) as [->|Hin]; [by rewrite Z.eqb_refl|].
      destruct (Z.eqb_spec (i mod 8) (irq mod 8)) as [Heq|_].
      * exfalso. subst d. revert Hci Heq Hin. unfold chip_of. clear - Hi Hi16. destruct (Z.leb_spec 8 i), (Z.leb_spec 8 irq); try done;
          Z.to_euclidean_division_equations; intros; lia.
      * by rewrite u8_testbit, (proj2 (Z.ltb_lt _ _)) by lia.
    + rewrite Hc, H1 by done. destruct (Z.eqb_spec i irq) as [->|]; [by subst d | done].
  - intros i. unfold in_service. destruct (decide (chip_of i = d)) as [->|Hne]; [by rewrite Hd, H1 | by rewrite Hc, H1].
Qed.

Lemma pic_disable_irq_spec irq s : operational s → 0 ≤ irq < 16 →
  ∃ s', pic_disable_irq irq s = Ret (tt, s') ∧ operational s' ∧
    (∀ i, 0 ≤ i < 16 → line_masked i s' = if i =? irq then true else line_masked i s) ∧ ∀ i, in_service i s' = in_service i s.
Proof.
  intros Hop Hi. apply (mask_update_spec (λ v n, Z.lor v n)); [done..|]. intros v n i Hn Hi8.
  rewrite Z.lor_spec, Z.pow2_bits_eqb, (Z.eqb_sym n) by lia. by destruct (i =? n), (Z.testbit v i).
Qed.
Lemma pic_enable_irq_spec irq s : operational s → 0 ≤ irq < 16 →
  ∃ s', pic_enable_irq irq s = Ret (tt, s') ∧ operational s' ∧
    (∀ i, 0 ≤ i < 16 → line_masked i s' = if i =? irq then false else line_masked i s) ∧ ∀ i, in_service i s' = in_service i s.
Proof.
  intros Hop Hi. apply (mask_update_spec (λ v n, Z.land v (~64 n))); [done..|]. intros v n i Hn Hi8.
  rewrite Z.land_spec, u64_testbit, Z.lnot_spec, Z.pow2_bits_eqb, (Z.eqb_sym n), (proj2 (Z.ltb_lt i 64)) by lia.
  by destruct (i =? n), (Z.testbit v i).
Qed.
Lemma pic_is_irq_masked_spec irq s : operational s → 0 ≤ irq < 16 →
  ∃ s', pic_is_irq_masked irq s = Ret (line_masked irq s, s') ∧ ∀ c, pic c s' = pic c s.
Proof.
  intros Hop Hi. unfold pic_is_irq_masked. rewrite pic_line_spec by done. pose proof (Z.mod_pos_bound irq 8) as Hm.
  destruct (read_data_spec (chip_of irq) s Hop) as (s1 & E1 & H1). rewrite (io_bind_step _ _ _ _ _ E1).
  rewrite (io_bind_step _ _ _ _ _ (BIT_spec (irq mod 8) s1 ltac:(lia))).
  exists s1. split; [|done]. unfold mret, io_ret. do 2 f_equal. unfold line_masked.
  destruct (Z.eqb_spec (Z.land (u8 (imr (pic (chip_of irq) s))) (2 ^ (irq mod 8))) 0) as [E|E].
  - pose proof (f_equal (λ x, Z.testbit x (irq mod 8)) E) as K. cbn in K. rewrite Z.land_spec, u8_testbit, Z.pow2_bits_true, Z.bits_0 in K by lia.
    rewrite (proj2 (Z.ltb_lt _ _)) in K by lia. rewrite andb_true_r in K. by cbn in K; rewrite K.
  - destruct (Z.testbit (imr (pic (chip_of irq) s)) (irq mod 8)) eqn:T; [done|]. destruct E. apply Z.bits_inj'. intros i Hi0.
    rewrite Z.land_spec, Z.pow2_bits_eqb, Z.bits_0 by lia. destruct (Z.eqb_spec (irq mod 8) i) as [<-|]; [|apply andb_false_r].
    by rewrite u8_testbit, T, andb_false_r by lia.
Qed.
(** [pic_send_eoi] ends the interrupt in service of the highest priority: on both
    chips for a line of the second one. *)
Lemma pic_send_eoi_spec irq s :
  ∃ s', pic_send_eoi irq s = Ret (tt, s') ∧ pic false s' = chip_eoi (pic false s) ∧
    pic true s' = if 8 <=? irq then chip_eoi (pic true s) else pic true s.
Proof.
  unfold pic_send_eoi, when, pic_send_command, outb, mbind, io_bind, mret, io_ret. change (u8 PIC_EOI) with PIC_EOI.
  change PIC1_CMD with (cmd_port false). change PIC2_CMD with (cmd_port true).
  destruct (8 <=? irq); (eexists; split; [reflexivity|]); rewrite !pic_write_eoi, ?(pic_outb _ _ (cmd_port _)), ?pic_write_eoi by eauto; done.
Qed.
End laws.
End Pic.
