(* ===== verification/Desc.v ===== *)
(** * Descriptor tables: [kernel/interrupt/idt.c], [gdt.c], [tss.c]

    The tables the processor reads: interrupt gates, segment descriptors and the
    task state segment, with the registers the load instructions set. How the
    processor reads a gate or a descriptor (the manual's field layout) is written
    as decoding functions; the theorems are about what the processor sees. *)
From S2P Require Import Prelude.

Module Desc.

(** ** Constants *)
Definition IDT_ENTRIES := 256.
Definition IDT_IRQ_BASE := 32.
Definition IDT_NMI := 2.
Definition IDT_BP := 3.
Definition IDT_OF := 4.
Definition IDT_DF := 8.
Definition IDT_SS := 12.
Definition IDT_GP := 13.
Definition IDT_PRESENT := 0x80.
Definition IDT_DPL_KERNEL := 0x0.
Definition IDT_DPL_USER := 0x3.
Definition IDT_STORAGE_SEGMENT := 0x0.
Definition IDT_TYPE_INTERRUPT_GATE := 0xE.
Definition IDT_TYPE_TRAP_GATE := 0xF.
Definition gate_attr (dpl type : Z) : Z := Z.lor (Z.lor (Z.lor IDT_PRESENT dpl) IDT_STORAGE_SEGMENT) type.
Definition IDT_KERNEL_INTERRUPT_GATE := gate_attr IDT_DPL_KERNEL IDT_TYPE_INTERRUPT_GATE.
Definition IDT_USER_INTERRUPT_GATE := gate_attr IDT_DPL_USER IDT_TYPE_INTERRUPT_GATE.
Definition IDT_KERNEL_TRAP_GATE := gate_attr IDT_DPL_KERNEL IDT_TYPE_TRAP_GATE.
Definition IDT_USER_TRAP_GATE := gate_attr IDT_DPL_USER IDT_TYPE_TRAP_GATE.
Definition IST_DF := 1.
Definition IST_NMI := 2.
Definition IST_SS := 4.
Definition IST_STACK_SIZE := 16 * 1024.
Definition GDT_KERNEL_CODE := 0x08.
Definition GDT_TSS := 0x28.
Definition GDT_ACCESS_PRESENT := Z.shiftl 1 7.
Definition GDT_ACCESS_DPL0 := Z.shiftl 0 5.
Definition GDT_ACCESS_DPL3 := Z.shiftl 3 5.
Definition GDT_ACCESS_SYSTEM := Z.shiftl 1 4.
Definition GDT_ACCESS_TYPE_CODE := 0xA.
Definition GDT_ACCESS_TYPE_DATA := 0x2.
Definition GDT_GRANULARITY_4K := Z.shiftl 1 7.
Definition GDT_GRANULARITY_32BIT := Z.shiftl 1 6.
Definition GDT_GRANULARITY_64BIT := Z.shiftl 1 5.

(** ** Data *)
Record idt_entry_t := mk_gate {
  offset_low : Z; segment_selector : Z; ist : Z; type_attr : Z; offset_middle : Z; offset_high : Z; gate_reserved : Z }.
Record gdt_entry_t := mk_seg {
  limit_low : Z; base_low : Z; base_middle : Z; access_byte : Z; granularity : Z; base_high : Z }.
Record gdt_tss_entry_t := mk_tss_entry { tss_low : gdt_entry_t; base_upper : Z; tss_reserved : Z }.
(** The reserved fields of the segment are cleared and never used; they are left out. *)
Record tss_t := mk_tss {
  rsp0 : Z; rsp1 : Z; rsp2 : Z;
  ist1 : Z; ist2 : Z; ist3 : Z; ist4 : Z; ist5 : Z; ist6 : Z; ist7 : Z; iomap_base : Z }.
Definition sizeof_tss := 112.
Definition zero_gate := mk_gate 0 0 0 0 0 0 0.
Definition zero_seg := mk_seg 0 0 0 0 0 0.
Definition zero_tss := mk_tss 0 0 0 0 0 0 0 0 0 0 0.

(** ** The interrupt descriptor table *)
Definition make_gate (handler attr sel ist : Z) : idt_entry_t :=
  mk_gate (u16 (Z.land handler 0xFFFF)) sel ist attr (u16 (Z.land (Z.shiftr handler 16) 0xFFFF))
    (u32 (Z.land (Z.shiftr handler 32) 0xFFFFFFFF)) 0.
(** [idt[vector] = ...], the vector being a byte. *)
Definition put_gate (vector : Z) (g : idt_entry_t) (t : list idt_entry_t) : outcome (list idt_entry_t) :=
  _ ← access (zlookup t vector); Ret (zinsert t vector g).
Definition idt_set_entry_internal (vector handler attr sel ist : Z) := put_gate (u8 vector) (make_gate handler (u8 attr) (u16 sel) (u8 ist)).
Definition idt_set_entry (vector handler attr sel : Z) := idt_set_entry_internal vector handler attr sel 0.
Definition idt_set_gate (vector handler attr sel : Z) := put_gate (u8 vector) (make_gate handler (u8 attr) (u16 sel) 0).
Definition idt_set_gate_ist (vector handler attr sel ist : Z) := put_gate (u8 vector) (make_gate handler (u8 attr) (u16 sel) (u8 ist)).

(** The gate type and the stack of exception [i]. *)
Definition exception_type (i : Z) : Z :=
  if (i =? IDT_BP) || (i =? IDT_OF) then IDT_KERNEL_TRAP_GATE else IDT_KERNEL_INTERRUPT_GATE.
Definition exception_ist (i : Z) : Z :=
  let ist := 0 in
  let ist := if i =? IDT_DF then IST_DF else ist in
  let ist := if i =? IDT_NMI then IST_NMI else ist in
  if i =? IDT_SS then IST_SS else ist.

(** The entry points are in the assembly file: [isr] and [irq]. The result is the
    table and the limit and base loaded with it. *)
Definition idt_init (idt_addr : Z) (isr irq : list Z) : outcome (list idt_entry_t * (Z * Z)) :=
  let t := replicate (Z.to_nat IDT_ENTRIES) zero_gate in
  let limit := u16 (16 * IDT_ENTRIES - 1) in
  t ← for_range 0 32 (λ i t,
        h ← access (zlookup isr i);
        idt_set_entry_internal i h (exception_type i) GDT_KERNEL_CODE (exception_ist i) t) t;
  t ← for_range 0 16 (λ i t,
        h ← access (zlookup irq i);
        idt_set_entry (IDT_IRQ_BASE + i) h IDT_KERNEL_INTERRUPT_GATE GDT_KERNEL_CODE t) t;
  Ret (t, (limit, idt_addr)).

(** ** The global descriptor table *)
Record gdt_state := mk_gdt {
  entries : list gdt_entry_t; tss_entry : gdt_tss_entry_t; gdt_ptr : Z * Z;
  gdtr : option (Z * Z); task_register : option Z; gdt_initialized : bool }.

(** A bad index is logged and nothing is done. *)
Definition gdt_set_entry (index base limit acc gran : Z) (t : list gdt_entry_t) : list gdt_entry_t :=
  if (index <? 0) || (5 <=? index) then t else
  zinsert t index (mk_seg (Z.land limit 0xFFFF) (Z.land base 0xFFFF) (Z.land (Z.shiftr base 16) 0xFF) (u8 acc)
    (Z.lor (Z.land (Z.shiftr limit 16) 0x0F) (Z.land gran 0xF0)) (Z.land (Z.shiftr base 24) 0xFF)).
Definition gdt_set_tss (tss : Z) : gdt_tss_entry_t :=
  let base := tss in
  let limit := sizeof_tss - 1 in
  mk_tss_entry
    (mk_seg (Z.land limit 0xFFFF) (Z.land base 0xFFFF) (Z.land (Z.shiftr base 16) 0xFF) 0x89
       (Z.lor (Z.land (Z.shiftr limit 16) 0x0F) 0x80) (Z.land (Z.shiftr base 24) 0xFF))
    (Z.land (Z.shiftr base 32) 0xFFFFFFFF) 0.

Definition gdt_access (dpl type : Z) : Z := Z.lor (Z.lor (Z.lor GDT_ACCESS_PRESENT dpl) GDT_ACCESS_SYSTEM) type.
(** [tss] is the answer of [tss_get], [gdt_addr] the address of the table. *)
Definition gdt_init (gdt_addr tss : Z) (g : gdt_state) : gdt_state :=
  if gdt_initialized g then g else
  let t := replicate 5 zero_seg in
  let ptr := (u16 (8 * 5 + 16 - 1), gdt_addr) in
  let t := gdt_set_entry 1 0 0xFFFFFFFF (gdt_access GDT_ACCESS_DPL0 GDT_ACCESS_TYPE_CODE) (Z.lor GDT_GRANULARITY_4K GDT_GRANULARITY_64BIT) t in
  let t := gdt_set_entry 2 0 0xFFFFFFFF (gdt_access GDT_ACCESS_DPL0 GDT_ACCESS_TYPE_DATA) (Z.lor GDT_GRANULARITY_4K GDT_GRANULARITY_32BIT) t in
  let t := gdt_set_entry 3 0 0xFFFFFFFF (gdt_access GDT_ACCESS_DPL3 GDT_ACCESS_TYPE_CODE) (Z.lor GDT_GRANULARITY_4K GDT_GRANULARITY_64BIT) t in
  let t := gdt_set_entry 4 0 0xFFFFFFFF (gdt_access GDT_ACCESS_DPL3 GDT_ACCESS_TYPE_DATA) (Z.lor GDT_GRANULARITY_4K GDT_GRANULARITY_32BIT) t in
  if tss =? 0 then mk_gdt t (tss_entry g) ptr (gdtr g) (task_register g) (gdt_initialized g) else
  mk_gdt t (gdt_set_tss tss) ptr (Some ptr) (Some GDT_TSS) true.

(** ** The task state segment *)
Record tss_state := mk_tss_state { s_tss : tss_t; tss_initialized : bool }.
Definition tss_init (df nmi debug ss : Z) (x : tss_state) : tss_state :=
  if tss_initialized x then x else
  let i1 := df ⊞ IST_STACK_SIZE in
  mk_tss_state (mk_tss i1 0 0 i1 (nmi ⊞ IST_STACK_SIZE) (debug ⊞ IST_STACK_SIZE) (ss ⊞ IST_STACK_SIZE) 0 0 0 0xFFFF) true.
Definition with_rsp0 (v : Z) (t : tss_t) : tss_t :=
  mk_tss v (rsp1 t) (rsp2 t) (ist1 t) (ist2 t) (ist3 t) (ist4 t) (ist5 t) (ist6 t) (ist7 t) (iomap_base t).
(** [tss_get] never answers NULL. *)
Definition tss_set_kernel_stack (top : Z) (x : tss_state) : tss_state := mk_tss_state (with_rsp0 top (s_tss x)) (tss_initialized x).
Definition tss_get_kernel_stack (x : tss_state) : Z := rsp0 (s_tss x).
Definition tss_set_kernel_stack_ctx (top : Z) (x : tss_state) : tss_state :=
  if tss_initialized x then mk_tss_state (with_rsp0 top (s_tss x)) true else x.
Definition set_ist (i v : Z) (t : tss_t) : tss_t :=
  let pick n old := if i =? n then v else old in
  mk_tss (rsp0 t) (rsp1 t) (rsp2 t) (pick 1 (ist1 t)) (pick 2 (ist2 t)) (pick 3 (ist3 t)) (pick 4 (ist4 t))
    (pick 5 (ist5 t)) (pick 6 (ist6 t)) (pick 7 (ist7 t)) (iomap_base t).
Definition tss_set_ist_stack (i top : Z) (x : tss_state) : tss_state :=
  if negb (tss_initialized x) then x else
  if (i <? 1) || (7 <? i) then x else mk_tss_state (set_ist i top (s_tss x)) true.
Definition get_ist (i : Z) (t : tss_t) : Z :=
  if i =? 1 then ist1 t else if i =? 2 then ist2 t else if i =? 3 then ist3 t else if i =? 4 then ist4 t else
  if i =? 5 then ist5 t else if i =? 6 then ist6 t else if i =? 7 then ist7 t else 0.
Definition tss_get_ist_stack (i : Z) (x : tss_state) : Z :=
  if negb (tss_initialized x) then 0 else if (i <? 1) || (7 <? i) then 0 else get_ist i (s_tss x).

(** ** What the processor reads *)
Record gate_view := mk_gate_view { g_target : Z; g_selector : Z; g_ist : Z; g_type : Z; g_dpl : Z; g_present : bool }.
Definition decode_gate (g : idt_entry_t) : gate_view :=
  mk_gate_view (offset_low g + 2 ^ 16 * offset_middle g + 2 ^ 32 * offset_high g) (segment_selector g)
    (Z.land (ist g) 7) (Z.land (type_attr g) 0xF) (Z.land (Z.shiftr (type_attr g) 5) 3) (Z.testbit (type_attr g) 7).
(** [v_limit] is the last byte of the segment: the granularity bit scales the
    20 bits of the descriptor by a page. [v_long] and [v_32] are the L and D/B bits. *)
Record seg_view := mk_seg_view {
  v_base : Z; v_limit : Z; v_type : Z; v_code_or_data : bool; v_dpl : Z; v_present : bool; v_long : bool; v_32 : bool }.
Definition decode_seg (e : gdt_entry_t) : seg_view :=
  let raw := limit_low e + 2 ^ 16 * Z.land (granularity e) 0xF in
  mk_seg_view (base_low e + 2 ^ 16 * base_middle e + 2 ^ 24 * base_high e)
    (if Z.testbit (granularity e) 7 then 4096 * raw + 4095 else raw)
    (Z.land (access_byte e) 0xF) (Z.testbit (access_byte e) 4) (Z.land (Z.shiftr (access_byte e) 5) 3)
    (Z.testbit (access_byte e) 7) (Z.testbit (granularity e) 5) (Z.testbit (granularity e) 6).
Definition tss_base (e : gdt_tss_entry_t) : Z := v_base (decode_seg (tss_low e)) + 2 ^ 32 * base_upper e.

Lemma mask_field x k n : 0 ≤ k → 0 ≤ n → Z.land (Z.shiftr x k) (2 ^ n - 1) = x / 2 ^ k mod 2 ^ n.
Proof. intros. by rewrite mask_land, Z.shiftr_div_pow2 by lia. Qed.

(** Splitting an address over the fields of a gate loses nothing. *)
Lemma make_gate_target h attr sel i : is_u64 h → g_target (decode_gate (make_gate h attr sel i)) = h.
Proof.
  intros Hh. unfold decode_gate, make_gate, is_u64 in *. cbn [g_target offset_low offset_middle offset_high].
  change 0xFFFF with (2 ^ 16 - 1). change 0xFFFFFFFF with (2 ^ 32 - 1). rewrite !mask_field, mask_land by lia.
  unfold u16, u32. rewrite !Zmod_mod. change (2 ^ 32) with (2 ^ 16 * 2 ^ 16) at 2. rewrite <- Z.div_div by lia.
  clear -Hh. Z.to_euclidean_division_equations. lia.
Qed.
Lemma gdt_set_tss_base tss : is_u64 tss → tss_base (gdt_set_tss tss) = tss.
Proof.
  intros Hh. unfold tss_base, decode_seg, gdt_set_tss, is_u64 in *. cbn [v_base tss_low base_low base_middle base_high base_upper].
  change 0xFFFF with (2 ^ 16 - 1). change 0xFFFFFFFF with (2 ^ 32 - 1). change 0xFF with (2 ^ 8 - 1). rewrite !mask_field, mask_land by lia.
  change (2 ^ 32) with (2 ^ 24 * 2 ^ 8) at 2. rewrite <- (Z.div_div tss (2 ^ 24)) by lia.
  change (2 ^ 24) with (2 ^ 16 * 2 ^ 8) at 2 3. rewrite <- (Z.div_div tss (2 ^ 16)) by lia.
  clear -Hh. Z.to_euclidean_division_equations. lia.
Qed.

(** The gate the processor should find at each vector. *)
Definition kernel_gate (target type ist : Z) : gate_view := mk_gate_view target GDT_KERNEL_CODE ist type 0 true.
Definition intended_gate (isr irq : list Z) (v : Z) : option gate_view :=
  if v <? 32 then (λ h, kernel_gate h (if (v =? 3) || (v =? 4) then IDT_TYPE_TRAP_GATE else IDT_TYPE_INTERRUPT_GATE)
                         (if v =? 8 then 1 else if v =? 2 then 2 else if v =? 12 then 4 else 0)) <$> zlookup isr v else
  if v <? 48 then (λ h, kernel_gate h IDT_TYPE_INTERRUPT_GATE 0) <$> zlookup irq (v - 32) else
  Some (mk_gate_view 0 0 0 0 0 false).

Section init.
Context (isr irq : list Z) (Hisr : length isr = 32%nat) (Hirq : length irq = 16%nat)
  (Risr : Forall is_u64 isr) (Rirq : Forall is_u64 irq).

(** The gates below [n] are in place, the others are empty. *)
Definition filled (n : Z) (t : list idt_entry_t) : Prop :=
  length t = 256%nat ∧ ∀ v, 0 ≤ v < 256 →
    decode_gate <$> zlookup t v = if v <? n then intended_gate isr irq v else Some (decode_gate zero_gate).

Lemma put_gate_filled i g t : 0 ≤ i < 256 → filled i t → intended_gate isr irq i = Some (decode_gate g) →
  ∃ t', put_gate (u8 i) g t = Ret t' ∧ filled (i + 1) t'.
Proof.
  intros Hi [Hl Ht] Hg. unfold put_gate. rewrite u8_small by lia.
  destruct (zlookup_lt_is_Some t i) as [x Hx]; [lia|]. rewrite Hx. exists (zinsert t i g). split; [done|].
  split; [by rewrite length_zinsert|]. intros v Hv. destruct (decide (v = i)) as [->|Hne].
  - rewrite zlookup_zinsert_eq by lia. rewrite (proj2 (Z.ltb_lt _ _)) by lia. by rewrite Hg.
  - rewrite zlookup_zinsert_ne by done. rewrite Ht by done. destruct (Z.ltb_spec v i), (Z.ltb_spec v (i + 1)); try lia; done.
Qed.

Lemma exception_gate i h : 0 ≤ i < 32 → zlookup isr i = Some h →
  intended_gate isr irq i = Some (decode_gate (make_gate h (u8 (exception_type i)) (u16 GDT_KERNEL_CODE) (u8 (exception_ist i)))).
Proof.
  intros Hi Hh. unfold intended_gate. rewrite (proj2 (Z.ltb_lt _ _)), Hh by lia. cbn [fmap option_fmap option_map]. f_equal.
  pose proof (Forall_zlookup _ _ _ _ Risr Hh) as Hu. pose proof (make_gate_target h (u8 (exception_type i)) (u16 GDT_KERNEL_CODE) (u8 (exception_ist i)) Hu) as Ht.
  unfold decode_gate in *. cbn [g_target] in Ht. rewrite Ht. cbn [make_gate segment_selector Desc.ist type_attr]. unfold kernel_gate, exception_type, exception_ist.
  change IDT_BP with 3. change IDT_OF with 4. change IDT_DF with 8. change IDT_NMI with 2. change IDT_SS with 12.
  destruct (Z.eqb_spec i 3) as [->|_]; [reflexivity|]. destruct (Z.eqb_spec i 4) as [->|_]; [reflexivity|].
  destruct (Z.eqb_spec i 8) as [->|_]; [reflexivity|]. destruct (Z.eqb_spec i 2) as [->|_]; [reflexivity|].
  destruct (i =? 12); reflexivity.
Qed.
Lemma irq_gate i h : 0 ≤ i < 16 → zlookup irq i = Some h →
  intended_gate isr irq (32 + i) = Some (decode_gate (make_gate h (u8 IDT_KERNEL_INTERRUPT_GATE) (u16 GDT_KERNEL_CODE) (u8 0))).
Proof.
  intros Hi Hh. unfold intended_gate. destruct (Z.ltb_spec (32 + i) 32), (Z.ltb_spec (32 + i) 48); try lia.
  replace (32 + i - 32) with i by lia. rewrite Hh. cbn [fmap option_fmap option_map]. f_equal.
  pose proof (Forall_zlookup _ _ _ _ Rirq Hh) as Hu. pose proof (make_gate_target h (u8 IDT_KERNEL_INTERRUPT_GATE) (u16 GDT_KERNEL_CODE) (u8 0) Hu) as Ht.
  unfold decode_gate in *. cbn [g_target] in Ht. by rewrite Ht.
Qed.

Lemma idt_init_spec addr : ∃ t, idt_init addr isr irq = Ret (t, (4095, addr)) ∧ length t = 256%nat ∧
  ∀ v, 0 ≤ v < 256 → decode_gate <$> zlookup t v = intended_gate isr irq v.
Proof.
  unfold idt_init. assert (filled 0 (replicate (Z.to_nat IDT_ENTRIES) zero_gate)) as H0.
  { split; [done|]. intros v Hv. rewrite (proj2 (Z.ltb_ge _ _)), zlookup_nonneg by lia. rewrite lookup_replicate_2; [done|]. change (Z.to_nat IDT_ENTRIES) with 256%nat. lia. }
  lazymatch goal with |- context [for_range 0 32 ?f ?t] =>
    destruct (for_range_ind (λ i, filled i) 0 32 f t) as (t1 & E1 & H1); [exact H0| |] end.
  { intros i t Hi Ht. destruct (zlookup_lt_is_Some isr i) as [h Hh]; [lia|]. rewrite Hh. apply put_gate_filled; [lia|done|]. by apply exception_gate. }
  rewrite E1. cbn [mbind outcome_bind].
  lazymatch goal with |- context [for_range 0 16 ?f ?t] =>
    destruct (for_range_ind (λ i, filled (32 + i)) 0 16 f t) as (t2 & E2 & H2); [exact H1| |] end.
  { intros i t Hi Ht. destruct (zlookup_lt_is_Some irq i) as [h Hh]; [lia|]. rewrite Hh. rewrite Z.add_assoc.
    apply put_gate_filled; [lia|done|]. by apply irq_gate. }
  rewrite E2. cbn [mbind outcome_bind]. exists t2. destruct H2 as [Hl Ht]. split; [reflexivity|]. split; [done|].
  intros v Hv. rewrite Ht by done. destruct (Z.ltb_spec v (32 + Z.max 0 16)) as [|Hge]; [done|].
  unfold intended_gate. destruct (Z.ltb_spec v 32), (Z.ltb_spec v 48); try lia. done.
Qed.
End init.

(** After [idt_init] the processor finds, at each of the 256 vectors, the gate
    the kernel intends: the entry point of the exception or of the interrupt line,
    in the kernel's code segment, present and reserved to the kernel, a trap gate
    for breakpoint and overflow only, on the stacks 1, 2 and 4 for double fault,
    NMI and stack fault; all vectors from 48 on are not present. The register
    holds the size of the whole table. *)
Theorem idt_init_gates addr isr irq :
  length isr = 32%nat → length irq = 16%nat → Forall is_u64 isr → Forall is_u64 irq →
  ∃ t, idt_init addr isr irq = Ret (t, (16 * 256 - 1, addr)) ∧ length t = 256%nat ∧
    ∀ v, 0 ≤ v < 256 → decode_gate <$> zlookup t v = intended_gate isr irq v.
Proof. intros. by apply idt_init_spec. Qed.
Lemma idt_init_gates_witness :
  ∃ t, idt_init 0x9000 (seqZ 0x100000 32) (seqZ 0x200000 16) = Ret (t, (4095, 0x9000)) ∧
    decode_gate <$> zlookup t 8 = Some (kernel_gate 0x100008 0xE 1).
Proof.
  destruct (idt_init_gates 0x9000 (seqZ 0x100000 32) (seqZ 0x200000 16)) as (t & E & _ & H);
    [reflexivity | reflexivity | apply (bool_decide_unpack _); vm_compute; exact I | apply (bool_decide_unpack _); vm_compute; exact I |].
  exists t. split; [exact E|]. rewrite H by lia. reflexivity.
Defined.

(** The table [gdt_init] builds, as the processor reads it: flat kernel and user
    segments of 4 GB with their privilege levels, 64-bit code, and the task state
    segment at its address for any address. *)
Theorem gdt_init_segments gdt_addr tss g : gdt_initialized g = false → is_u64 tss → tss ≠ 0 →
  ∃ g', gdt_init gdt_addr tss g = g' ∧
    decode_seg <$> entries g' =
      [decode_seg zero_seg;
       mk_seg_view 0 (2 ^ 32 - 1) 0xA true 0 true true false; mk_seg_view 0 (2 ^ 32 - 1) 0x2 true 0 true false true;
       mk_seg_view 0 (2 ^ 32 - 1) 0xA true 3 true true false; mk_seg_view 0 (2 ^ 32 - 1) 0x2 true 3 true false true] ∧
    tss_base (tss_entry g') = tss ∧ v_type (decode_seg (tss_low (tss_entry g'))) = 9 ∧ v_present (decode_seg (tss_low (tss_entry g'))) = true ∧
    gdtr g' = Some (5 * 8 + 16 - 1, gdt_addr) ∧ task_register g' = Some (5 * 8).
Proof.
  intros Hi Ht Hn. eexists. split; [reflexivity|]. unfold gdt_init. rewrite Hi. destruct (Z.eqb_spec tss 0) as [|_]; [done|].
  cbn [entries tss_entry gdtr task_register]. split; [reflexivity|]. split; [by apply gdt_set_tss_base|]. done.
Qed.

(** The task state segment's descriptor counts its limit of 111 in pages: the
    segment is 448 kB long instead of 112 bytes, and the offset [0xFFFF] that
    [tss_init] stores to say there is no I/O bitmap lies inside it. *)
Theorem io_bitmap_inside_tss tss df nmi debug ss : 
  v_limit (decode_seg (tss_low (gdt_set_tss tss))) = 0x6FFFF ∧
  iomap_base (s_tss (tss_init df nmi debug ss (mk_tss_state zero_tss false))) < v_limit (decode_seg (tss_low (gdt_set_tss tss))).
Proof. split; [reflexivity|]. vm_compute. reflexivity. Qed.

(** The gate types for user code do not carry privilege level 3: the level is not
    shifted to its field, where it would also have to be. The trap gate is the
    kernel's, and the interrupt gate is a trap gate. *)
Theorem user_gates_are_kernel_gates handler sel :
  IDT_USER_TRAP_GATE = IDT_KERNEL_TRAP_GATE ∧
  g_dpl (decode_gate (make_gate handler IDT_USER_INTERRUPT_GATE sel 0)) = 0 ∧
  g_type (decode_gate (make_gate handler IDT_USER_INTERRUPT_GATE sel 0)) = IDT_TYPE_TRAP_GATE.
Proof. repeat split. Qed.

(** [tss_set_ist_stack] sets the entry [tss_get_ist_stack] returns, and no other. *)
Theorem tss_ist_roundtrip i j top x : tss_initialized x = true → 1 ≤ i ≤ 7 →
  tss_get_ist_stack j (tss_set_ist_stack i top x) = (if j =? i then top else tss_get_ist_stack j x) ∧
  tss_get_kernel_stack (tss_set_ist_stack i top x) = tss_get_kernel_stack x.
Proof.
  intros Hx Hi. unfold tss_get_ist_stack, tss_set_ist_stack, tss_get_kernel_stack. rewrite Hx. cbn [negb].
  destruct (Z.ltb_spec i 1), (Z.ltb_spec 7 i); try lia. cbn [orb tss_initialized s_tss negb]. split; [|done].
  destruct (Z.eqb_spec j i) as [->|Hne].
  - assert (i = 1 ∨ i = 2 ∨ i = 3 ∨ i = 4 ∨ i = 5 ∨ i = 6 ∨ i = 7) as Hc by lia. by destruct_or! Hc; subst i.
  - destruct ((j <? 1) || (7 <? j)) eqn:Hj; [done|]. unfold get_ist, set_ist; cbn.
    assert (j = 1 ∨ j = 2 ∨ j = 3 ∨ j = 4 ∨ j = 5 ∨ j = 6 ∨ j = 7) as Hc by lia.
    by destruct_or! Hc; subst j; cbn; rewrite (proj2 (Z.eqb_neq i _)) by done.
Qed.
End Desc.
