(* ===== verification/Irq.v ===== *)
(** * Interrupts: [kernel/interrupt/idt.c], [interrupt.c], [exception.c]

    The machine as the interrupt code sees it: the devices behind the ports, the
    interrupt flag, the tables of handlers, and the state of the drivers as a
    parameter. Handlers are function pointers; what a pointer runs is a parameter
    of the dispatcher, instantiated by the drivers. Descriptors are named by their
    address; their names, which are only logged, are left out. *)
From S2P Require Import Prelude Ports Desc.
Import Pic Desc.

Module Irq.

Definition IRQ_FLAG_NONE := 0.
Definition IRQ_FLAG_AUTOEOI := Z.shiftl 1 0.

(** ** Data *)
Record irq_descriptor_t := mk_desc { handler : Z; context : Z; flags : Z; invocation_count : Z }.
Record irq_vector_entry_t := mk_entry { descriptor : Z; in_use : bool }.
Record machine (H D : Type) := mk_machine {
  hw : H; if_flag : bool;
  idt : list idt_entry_t; idtr : option (Z * Z);
  custom_handlers : list Z; irq_table : list irq_vector_entry_t; descs : gmap Z irq_descriptor_t;
  drv : D }.
Arguments mk_machine {H D}. Arguments hw {H D}. Arguments if_flag {H D}. Arguments idt {H D}. Arguments idtr {H D}.
Arguments custom_handlers {H D}. Arguments irq_table {H D}. Arguments descs {H D}. Arguments drv {H D}.

Section access.
Context {H D : Type}.
Implicit Types (m : machine H D).
Definition with_hw (h : H) m : machine H D := mk_machine h (if_flag m) (idt m) (idtr m) (custom_handlers m) (irq_table m) (descs m) (drv m).
Definition with_if (b : bool) m : machine H D := mk_machine (hw m) b (idt m) (idtr m) (custom_handlers m) (irq_table m) (descs m) (drv m).
Definition with_idt (t : list idt_entry_t) (r : option (Z * Z)) m : machine H D :=
  mk_machine (hw m) (if_flag m) t r (custom_handlers m) (irq_table m) (descs m) (drv m).
Definition with_custom (t : list Z) m : machine H D := mk_machine (hw m) (if_flag m) (idt m) (idtr m) t (irq_table m) (descs m) (drv m).
Definition with_table (t : list irq_vector_entry_t) m : machine H D :=
  mk_machine (hw m) (if_flag m) (idt m) (idtr m) (custom_handlers m) t (descs m) (drv m).
Definition with_descs (t : gmap Z irq_descriptor_t) m : machine H D :=
  mk_machine (hw m) (if_flag m) (idt m) (idtr m) (custom_handlers m) (irq_table m) t (drv m).
Definition with_drv (d : D) m : machine H D := mk_machine (hw m) (if_flag m) (idt m) (idtr m) (custom_handlers m) (irq_table m) (descs m) d.
End access.

(** The ports of a machine are those of its devices. *)
#[export] Instance machine_ports {H D} `{PortIO H} : PortIO (machine H D) := {
  port_inb p m := let '(v, h) := port_inb p (hw m) in (v, with_hw h m);
  port_outb p v m := with_hw (port_outb p v (hw m)) m;
  port_inw p m := let '(v, h) := port_inw p (hw m) in (v, with_hw h m);
  port_outw p v m := with_hw (port_outw p v (hw m)) m }.
#[export] Instance machine_pic {H D} `{PicLaws H} : PicLaws (machine H D).
Proof.
  refine {| pic c (m : machine H D) := pic c (hw m) |}.
  - intros c s Hs. cbn. rewrite <- (pic_read_mask c (hw s) Hs). by destruct (port_inb (data_port c) (hw s)).
  - intros p c s Hp1 Hp2. cbn. rewrite <- (pic_read_keeps p c (hw s) Hp1 Hp2). by destruct (port_inb p (hw s)).
  - intros c s. apply pic_write_start.
  - intros c s. apply pic_write_eoi.
  - intros c v s. apply pic_write_data.
  - intros p v c s. apply pic_write_other.
  - intros p v c s. cbn. destruct (pic_words p v c (hw s)) as [Hr Hw]. split; [|exact Hw]. rewrite <- Hr. by destruct (port_inw p (hw s)).
Defined.

Section irq.
Context {H D : Type} `{PortIO H}.
Notation M := (machine H D).
Implicit Types (m : M).

(** ** The interrupt flag *)
Definition interrupt_enable : io M unit := modify (with_if true).
Definition interrupt_disable : io M unit := modify (with_if false).
Definition is_intr_enabled : io M bool := gets if_flag.

(** ** Registration *)
Definition get_entry (irq : Z) : io M irq_vector_entry_t := t ← gets irq_table; lift (access (zlookup t irq)).
Definition set_entry (irq : Z) (e : irq_vector_entry_t) : io M unit := modify (λ m, with_table (zinsert (irq_table m) irq e) m).
Definition get_desc (d : Z) : io M irq_descriptor_t := t ← gets descs; lift (access (t !! d)).
Definition set_desc (d : Z) (x : irq_descriptor_t) : io M unit := modify (λ m, with_descs (<[d := x]> (descs m)) m).

Definition idt_register_handler (vector fn : Z) : io M unit :=
  t ← gets custom_handlers;
  _ ← lift (access (zlookup t vector));
  modify (with_custom (zinsert t vector fn)).

Definition irq_register_handler (irq d : Z) : io M Z :=
  if 16 <=? irq then mret (-1) else
  if d =? 0 then mret (-2) else
  x ← get_desc d;
  if handler x =? 0 then mret (-3) else
  e ← get_entry irq;
  if in_use e && negb (descriptor e =? 0) then mret (-4) else
  set_entry irq (mk_entry d true);;
  mret 0.

Definition irq_unregister_handler (irq d : Z) : io M Z :=
  if 16 <=? irq then mret (-1) else
  e ← get_entry irq;
  if negb (descriptor e =? d) then mret (-2) else
  set_entry irq (mk_entry 0 false);;
  _ ← get_desc d; (* the log message reads [descriptor->name] *)
  mret 0.

(** [desc->invocation_count++] *)
Definition count_invocation (d : Z) : io M unit :=
  x ← get_desc d;
  set_desc d (mk_desc (handler x) (context x) (flags x) (invocation_count x ⊞ 1)).

(** ** Start-up *)
Definition interrupt_enable_all_irqs : io M unit := io_for 0 16 pic_enable_irq.
Definition interrupt_init (idt_addr : Z) (isr irq : list Z) : io M unit :=
  pic_init 0x20 0x28;;
  pic_disable_all;;
  r ← lift (idt_init idt_addr isr irq);
  let '(t, reg) := r in modify (with_idt t (Some reg)).
Definition interrupt_finalize : io M unit :=
  interrupt_enable_all_irqs;;
  interrupt_enable.

(** ** Dispatch *)
Section dispatch.
(** What the function pointers run: new-style handlers take their context, old-style
    ones the error code. *)
Context (run_irq : Z → Z → io M unit) (run_vector : Z → Z → io M unit).

(** [default_exception_handler] logs and halts with interrupts disabled. *)
Definition default_exception_handler : io M unit := interrupt_disable;; io_fail AssertFail.

Definition interrupt_handler (vector error_code : Z) : io M unit :=
  if vector <? 32 then
    t ← gets custom_handlers;
    fn ← lift (access (zlookup t vector));
    if negb (fn =? 0) then run_vector fn error_code else default_exception_handler
  else if vector <? 48 then
    let irq := vector - 32 in
    e ← get_entry irq;
    if in_use e && negb (descriptor e =? 0) then
      let d := descriptor e in
      count_invocation d;;
      x ← get_desc d;
      run_irq (handler x) (context x);;
      x ← get_desc d;
      when (Z.land (flags x) IRQ_FLAG_AUTOEOI =? 0) (pic_send_eoi irq)
    else
      t ← gets custom_handlers;
      fn ← lift (access (zlookup t vector));
      if negb (fn =? 0) then run_vector fn error_code;; pic_send_eoi irq else pic_send_eoi irq
  else pic_send_eoi 7.
End dispatch.
End irq.

(** ** Exceptions *)
Record exception_stats_t := mk_stats { df_count : Z; ss_count : Z; gp_count : Z; gp_user_count : Z; gp_kernel_count : Z }.
Record gpf_error_info_t := mk_gpf { external : bool; idt_descriptor : bool; gdt_table : bool; ti : bool; selector_index : Z }.
(** How a handler ends: the machine halts, or [proc_exit(SIGSEGV)] ends the process. *)
Inductive exc_end := Halt | Terminate.
Definition bit_set (v mask : Z) : bool := negb (Z.land v mask =? 0).
Definition gp_parse_error_code (error_code : Z) : gpf_error_info_t :=
  mk_gpf (bit_set error_code 0x01) (bit_set error_code 0x02) (bit_set error_code 0x04) (bit_set error_code 0x08)
    (u16 (Z.land (Z.shiftr error_code 3) 0x1FFF)).
(** [current]: the current process, if any, and whether it runs in user mode. *)
Definition end_of (user_mode : bool) (current : option bool) : exc_end :=
  if user_mode then (if default false current then Terminate else Halt) else Halt.
Definition double_fault_handler (s : exception_stats_t) : exception_stats_t * exc_end :=
  (mk_stats (df_count s ⊞ 1) (ss_count s) (gp_count s) (gp_user_count s) (gp_kernel_count s), Halt).
Definition stack_fault_handler (cs : Z) (current : option bool) (s : exception_stats_t) : exception_stats_t * exc_end :=
  let user_mode := Z.land cs 0x03 =? 3 in
  (mk_stats (df_count s) (ss_count s ⊞ 1) (gp_count s) (gp_user_count s) (gp_kernel_count s), end_of user_mode current).
Definition gp_fault_handler (cs : Z) (current : option bool) (s : exception_stats_t) : exception_stats_t * exc_end :=
  let user_mode := Z.land cs 0x03 =? 3 in
  (if user_mode then mk_stats (df_count s) (ss_count s) (gp_count s ⊞ 1) (gp_user_count s ⊞ 1) (gp_kernel_count s)
   else mk_stats (df_count s) (ss_count s) (gp_count s ⊞ 1) (gp_user_count s) (gp_kernel_count s ⊞ 1),
   end_of user_mode current).
Definition exception_init {H D} (df ss gp : Z) : io (machine H D) unit :=
  idt_register_handler IDT_DF df;;
  idt_register_handler IDT_SS ss;;
  idt_register_handler IDT_GP gp.

(** ** Routing: controllers, table and lines together *)
Section routing.
Context {H D : Type} `{PicLaws H}.
Implicit Types (m : machine H D).

Lemma disable_all_spec m : operational m →
  ∃ m', pic_disable_all m = Ret (tt, m') ∧ operational m' ∧ (∀ c, pic c m' = with_imr 0xFF (pic c m)).
Proof.
  intros Hop. unfold pic_disable_all.
  destruct (send_data_spec false 0xFF m Hop) as (m1 & E1 & Hop1 & Hf1 & Ho1). change (data_port false) with PIC1_DATA in E1.
  rewrite (io_bind_step _ _ _ _ _ E1).
  destruct (send_data_spec true 0xFF m1 Hop1) as (m2 & E2 & Hop2 & Hf2 & Ho2). exists m2. split; [exact E2|]. split; [done|].
  intros [|]; [rewrite Hf2, Ho1 by done | rewrite Ho2, Hf1 by done]; done.
Qed.

(** [interrupt_init] on controllers in any operational state masks all sixteen
    lines and routes each of them: the vector the controllers raise for line [i] is
    the one at which the processor finds the gate of the kernel's entry point for
    that line. *)
Theorem interrupt_init_routes addr isr irq m :
  operational m → length isr = 32%nat → length irq = 16%nat → Forall is_u64 isr → Forall is_u64 irq →
  ∃ m', interrupt_init addr isr irq m = Ret (tt, m') ∧ operational m' ∧ idtr m' = Some (4095, addr) ∧
    ∀ i, 0 ≤ i < 16 → line_masked i m' = true ∧
      decode_gate <$> zlookup (idt m') (vector_base (pic (chip_of i) m') + i mod 8) =
        (λ h, kernel_gate h IDT_TYPE_INTERRUPT_GATE 0) <$> zlookup irq i.
Proof.
  intros Hop Hl1 Hl2 Hr1 Hr2. unfold interrupt_init.
  destruct (pic_init_spec 0x20 0x28 m Hop) as (m1 & E1 & Hf & Ht). rewrite (io_bind_step _ _ _ _ _ E1).
  assert (operational m1) as Hop1 by (intros [|]; by rewrite ?Hf, ?Ht).
  destruct (disable_all_spec m1 Hop1) as (m2 & E2 & Hop2 & Hp2). rewrite (io_bind_step _ _ _ _ _ E2).
  destruct (idt_init_spec isr irq Hl1 Hl2 Hr1 Hr2 addr) as (t & E3 & _ & Hg). unfold lift. rewrite E3.
  eexists. split; [reflexivity|]. split; [exact Hop2|]. split; [reflexivity|]. intros i Hi.
  assert (∀ c, pic c (with_idt t (Some (4095, addr)) m2) = with_imr 0xFF (pic c m1)) as Hp by exact Hp2.
  unfold line_masked. rewrite Hp. cbn [idt with_idt]. pose proof (Z.mod_pos_bound i 8 eq_refl) as Hm.
  assert (vector_base (pic (chip_of i) m1) + i mod 8 = 32 + i) as Hv.
  { unfold chip_of. destruct (Z.leb_spec 8 i); rewrite ?Hf, ?Ht; cbn [vector_base];
      change (Z.land (u8 0x20) 0xF8) with 32; change (Z.land (u8 0x28) 0xF8) with 40; Z.to_euclidean_division_equations; lia. }
  cbn [imr with_imr vector_base]. split.
  - change 255 with (Z.ones 8). rewrite Z.testbit_ones_nonneg by lia. lia.
  - rewrite Hv, Hg by lia. unfold intended_gate. destruct (Z.ltb_spec (32 + i) 32), (Z.ltb_spec (32 + i) 48); try lia.
    by replace (32 + i - 32) with i by lia.
Qed.

(** [interrupt_finalize] opens every line and then the processor. *)
Theorem interrupt_finalize_opens m : operational m →
  ∃ m', interrupt_finalize m = Ret (tt, m') ∧ if_flag m' = true ∧ ∀ i, 0 ≤ i < 16 → line_masked i m' = false.
Proof.
  intros Hop. unfold interrupt_finalize, interrupt_enable_all_irqs.
  destruct (io_for_ind (λ k t, operational t ∧ ∀ i, 0 ≤ i < k → line_masked i t = false) 0 16 pic_enable_irq m) as (m1 & E1 & _ & Hall);
    [lia | split; [done|lia] | |].
  { intros k t Hk [Ht Hlow]. destruct (pic_enable_irq_spec k t Ht) as (t' & E & Hop' & Hm & _); [lia|]. exists t'. split; [done|].
    split; [done|]. intros i Hi. rewrite Hm by lia. destruct (Z.eqb_spec i k); [done|]. apply Hlow. lia. }
  rewrite (io_bind_step _ _ _ _ _ E1). eexists. split; [reflexivity|]. split; [done|]. exact Hall.
Qed.
End routing.

(** ** The handler tables *)
Section tables.
Context {H D : Type} `{PicLaws H}.
Notation M := (machine H D).
Implicit Types (m : M).

(** The descriptor a line is registered to, if any. *)
Definition registered (irq : Z) m : option Z :=
  match zlookup (irq_table m) irq with
  | Some e => if in_use e && negb (descriptor e =? 0) then Some (descriptor e) else None
  | None => None
  end.
Definition irq_wf m : Prop :=
  length (irq_table m) = 16%nat ∧ length (custom_handlers m) = 256%nat ∧
  ∀ i d, registered i m = Some d → ∃ x, descs m !! d = Some x ∧ handler x ≠ 0.

Lemma registered_set irq e m i : 0 ≤ irq < 16 → length (irq_table m) = 16%nat →
  registered i (with_table (zinsert (irq_table m) irq e) m) =
    if i =? irq then (if in_use e && negb (descriptor e =? 0) then Some (descriptor e) else None) else registered i m.
Proof.
  intros Hi Hl. unfold registered. cbn [irq_table with_table]. destruct (Z.eqb_spec i irq) as [->|Hne].
  - by rewrite zlookup_zinsert_eq by lia.
  - by rewrite zlookup_zinsert_ne by done.
Qed.

(** The result code of a registration, in the order of the checks. *)
Definition register_code (irq d : Z) m : Z :=
  if 16 <=? irq then -1 else if d =? 0 then -2 else
  if default 0 (handler <$> descs m !! d) =? 0 then -3 else
  if decide (is_Some (registered irq m)) then -4 else 0.

Lemma irq_register_spec irq d m : irq_wf m → 0 ≤ irq → (d ≠ 0 → is_Some (descs m !! d)) →
  ∃ m', irq_register_handler irq d m = Ret (register_code irq d m, m') ∧ irq_wf m' ∧
    (∀ i, registered i m' = if (register_code irq d m =? 0) && (i =? irq) then Some d else registered i m) ∧
    m' = with_table (irq_table m') m.
Proof.
  intros (Hl & Hc & Hr) Hi Hd. unfold irq_register_handler, register_code.
  assert (m = with_table (irq_table m) m) as Hm by (by destruct m).
  destruct (Z.leb_spec 16 irq); [by exists m|]. destruct (Z.eqb_spec d 0) as [|Hd0]; [by exists m|].
  destruct (Hd Hd0) as [x Hx]. unfold get_desc, get_entry, gets, lift, mbind, io_bind, mret, io_ret. rewrite Hx. cbn [fmap option_fmap option_map from_option id access].
  destruct (Z.eqb_spec (handler x) 0) as [Hh|Hh]; [by exists m|].
  destruct (zlookup_lt_is_Some (irq_table m) irq) as [e He]; [lia|]. rewrite He. cbn [access].
  assert (registered irq m = if in_use e && negb (descriptor e =? 0) then Some (descriptor e) else None) as Hre by (unfold registered; by rewrite He).
  destruct (in_use e && negb (descriptor e =? 0)).
  - exists m. rewrite decide_True by (rewrite Hre; eauto). done.
  - exists (with_table (zinsert (irq_table m) irq (mk_entry d true)) m).
    rewrite decide_False by (rewrite Hre; by intros [? ?]).
    assert (∀ i, registered i (with_table (zinsert (irq_table m) irq (mk_entry d true)) m) = if i =? irq then Some d else registered i m) as Hreg.
    { intros i. rewrite registered_set by (done || lia). cbn. by rewrite (proj2 (Z.eqb_neq d 0)). }
    split; [done|]. split; [|done]. split; [cbn; by rewrite length_zinsert|]. split; [done|]. intros i d'. rewrite Hreg.
    destruct (i =? irq); [|apply Hr]. intros [= <-]. by exists x.
Qed.

(** Unregistering NULL from a line without a handler passes the comparison of the
    descriptors and reads the name through NULL. *)
Theorem irq_unregister_null_faults irq m e : 0 ≤ irq < 16 → zlookup (irq_table m) irq = Some e →
  descriptor e = 0 → descs m !! 0 = None → irq_unregister_handler irq 0 m = Fail Fault.
Proof.
  intros Hi He Hd Hn. unfold irq_unregister_handler. destruct (Z.leb_spec 16 irq); [lia|].
  unfold get_entry, get_desc, set_entry, gets, modify, lift, mbind, io_bind. rewrite He. cbn [access]. rewrite Hd.
  cbn [Z.eqb negb descs with_table]. by rewrite Hn.
Qed.

(** One interrupt on a line that has a descriptor. *)
Definition counted (d : Z) (x : irq_descriptor_t) m : M :=
  with_descs (<[d := mk_desc (handler x) (context x) (flags x) (invocation_count x ⊞ 1)]> (descs m)) m.
Lemma dispatch_spec (run_irq run_vector : Z → Z → io M unit) irq err m d x : 0 ≤ irq < 16 →
  registered irq m = Some d → descs m !! d = Some x →
  interrupt_handler run_irq run_vector (32 + irq) err m =
    (run_irq (handler x) (context x);; y ← get_desc d; when (Z.land (flags y) IRQ_FLAG_AUTOEOI =? 0) (pic_send_eoi irq)) (counted d x m).
Proof.
  intros Hi Hr Hx. unfold interrupt_handler. destruct (Z.ltb_spec (32 + irq) 32), (Z.ltb_spec (32 + irq) 48); try lia.
  replace (32 + irq - 32) with irq by lia. unfold registered in Hr. unfold get_entry at 1, gets, lift, mbind at 1, io_bind at 1.
  destruct (zlookup (irq_table m) irq) as [e|] eqn:He; [|done]. unfold mbind at 1, io_bind at 1. rewrite He. cbn [access].
  destruct (in_use e && negb (descriptor e =? 0)); [|done]. injection Hr as <-.
  assert (count_invocation (descriptor e) m = Ret (tt, counted (descriptor e) x m)) as E1.
  { unfold count_invocation, get_desc, set_desc, gets, modify, lift, mbind, io_bind. by rewrite Hx. }
  rewrite (io_bind_step _ _ _ _ _ E1).
  assert (get_desc (descriptor e) (counted (descriptor e) x m) = Ret (mk_desc (handler x) (context x) (flags x) (invocation_count x ⊞ 1), counted (descriptor e) x m)) as E2.
  { unfold get_desc, gets, lift, mbind, io_bind, counted. cbn [descs with_descs]. by rewrite lookup_insert_eq. }
  by rewrite (io_bind_step _ _ _ _ _ E2).
Qed.

(** C40: a descriptor that [irq_register_handler] accepts for a line is what the next
    interrupt on that line runs: [interrupt_handler] counts it, calls its handler
    with its context, and, unless the descriptor says the handler does it, ends the
    interrupt once on the controllers, on both for a line of the second. The other
    lines keep their handlers, and registering the line again is refused. *)
Theorem irq_register_dispatch (run_irq run_vector : Z → Z → io M unit) irq err d x m m1 m2 y :
  irq_wf m → 0 ≤ irq < 16 → irq_register_handler irq d m = Ret (0, m1) → descs m !! d = Some x →
  run_irq (handler x) (context x) (counted d x m1) = Ret (tt, m2) → descs m2 !! d = Some y →
  (∀ d' m', d' ≠ 0 → irq_register_handler irq d' m1 = Ret (0, m') → False) ∧
  (∀ i, i ≠ irq → registered i m1 = registered i m) ∧
  ∃ m3, interrupt_handler run_irq run_vector (32 + irq) err m1 = Ret (tt, m3) ∧ drv m3 = drv m2 ∧ irq_table m3 = irq_table m2 ∧
    ∀ c, pic c m3 = if (Z.land (flags y) IRQ_FLAG_AUTOEOI =? 0) && (negb c || (8 <=? irq)) then chip_eoi (pic c m2) else pic c m2.
Proof.
  intros Hwf Hi Hreg Hx Hrun Hy.
  destruct (irq_register_spec irq d m) as (m1' & E & Hwf1 & Hr1 & Hm1); [done | lia | by rewrite Hx |].
  rewrite E in Hreg. injection Hreg as Hc ->. rewrite Hc in Hr1. cbn in Hr1.
  assert (registered irq m1 = Some d) as Hd by (by rewrite Hr1, Z.eqb_refl). split; [|split].
  - intros d' m' Hd' Hq. unfold irq_register_handler, mbind, io_bind in Hq. destruct (Z.leb_spec 16 irq); [lia|]. rewrite (proj2 (Z.eqb_neq d' 0) Hd') in Hq.
    unfold get_desc, get_entry, gets, lift, mbind, io_bind, mret, io_ret in Hq. destruct (descs m1 !! d') as [x'|]; [|done]. cbn [access] in Hq.
    destruct (handler x' =? 0); [done|]. unfold registered in Hd. destruct (zlookup (irq_table m1) irq) as [e|]; [|done]. cbn [access] in Hq.
    by destruct (in_use e && negb (descriptor e =? 0)).
  - intros i Hne. by rewrite Hr1, (proj2 (Z.eqb_neq i irq)).
  - rewrite (dispatch_spec run_irq run_vector irq err m1 d x); [|done|done|by rewrite Hm1].
    rewrite (io_bind_step _ _ _ _ _ Hrun).
    assert (get_desc d m2 = Ret (y, m2)) as Eg by (unfold get_desc, gets, lift, mbind, io_bind; by rewrite Hy).
    rewrite (io_bind_step _ _ _ _ _ Eg). unfold when. destruct (Z.land (flags y) IRQ_FLAG_AUTOEOI =? 0); cbn [andb]; [|by exists m2].
    destruct (pic_send_eoi_spec irq m2) as (m3 & E3 & Hp1 & Hp2). exists m3. split; [done|]. split; [|split].
    1,2: revert E3; unfold pic_send_eoi, when, pic_send_command, outb, mbind, io_bind, mret, io_ret; destruct (8 <=? irq); by intros [= <-].
    intros [|]; cbn [negb orb]; done.
Qed.
End tables.
End Irq.
