(* ===== verification/Ring.v ===== *)
(** * The ring buffers of the drivers: [kernel/driver/keyboard/keyboard.c],
    [kernel/driver/serial/serial_intr.c]

    The keyboard, the transmitter and the receiver each have a ring of 256
    characters with a head and a tail index; the three copies of the code differ in
    the size constant only. A ring of size [N] holds at most [N - 1] characters;
    [is_ring] says which queue it holds. *)
From S2P Require Import Prelude.

Module Ring.

Record ring := mk_ring { buffer : list Z; head : Z; tail : Z }.

Section ops.
Context (N : Z).
Definition ring_is_empty (rb : ring) : bool := head rb =? tail rb.
Definition ring_is_full (rb : ring) : bool := u32 (head rb + 1) mod N =? tail rb.
Definition ring_write (c : Z) (rb : ring) : outcome ring :=
  _ ← access (zlookup (buffer rb) (head rb));
  Ret (mk_ring (zinsert (buffer rb) (head rb) c) (u32 (head rb + 1) mod N) (tail rb)).
Definition ring_read (rb : ring) : outcome (Z * ring) :=
  c ← access (zlookup (buffer rb) (tail rb));
  Ret (c, mk_ring (buffer rb) (head rb) (u32 (tail rb + 1) mod N)).
End ops.
Definition ring_init (N : Z) : ring := mk_ring (replicate (Z.to_nat N) 0) 0 0.

(** The shape of a ring: its buffer has its size and both indices are inside. *)
Definition ring_ok (N : Z) (rb : ring) : Prop :=
  Z.of_nat (length (buffer rb)) = N ∧ 0 ≤ head rb < N ∧ 0 ≤ tail rb < N.
(** The queue a ring holds, oldest character first. *)
Definition is_ring (N : Z) (rb : ring) (q : list Z) : Prop :=
  ring_ok N rb ∧ Z.of_nat (length q) = (head rb - tail rb) mod N ∧
  ∀ k x, q !! k = Some x → zlookup (buffer rb) ((tail rb + Z.of_nat k) mod N) = Some x.

Section laws.
Context (N : Z) (HN : 1 < N < 2 ^ 32).
Implicit Types (rb : ring) (q : list Z).

Lemma ring_init_ok : ring_ok N (ring_init N).
Proof. unfold ring_ok, ring_init; cbn. rewrite length_replicate. lia. Qed.
Lemma ring_init_spec : is_ring N (ring_init N) [].
Proof. split; [apply ring_init_ok|]. cbn. rewrite Z.mod_0_l by lia. done. Qed.

Lemma ring_write_ok c rb : ring_ok N rb → ∃ rb', ring_write N c rb = Ret rb' ∧ ring_ok N rb'.
Proof.
  intros (Hl & Hh & Ht). unfold ring_write. destruct (zlookup_lt_is_Some (buffer rb) (head rb)) as [x ->]; [lia|].
  eexists. split; [reflexivity|]. unfold ring_ok. cbn [buffer head tail]. rewrite length_zinsert.
  split; [done|]. split; [apply Z.mod_pos_bound; lia | done].
Qed.
Lemma ring_read_ok rb : ring_ok N rb → ∃ c rb', ring_read N rb = Ret (c, rb') ∧ ring_ok N rb'.
Proof.
  intros (Hl & Hh & Ht). unfold ring_read. destruct (zlookup_lt_is_Some (buffer rb) (tail rb)) as [x ->]; [lia|].
  eexists _, _. split; [reflexivity|]. unfold ring_ok. cbn [buffer head tail].
  split; [done|]. split; [done | apply Z.mod_pos_bound; lia].
Qed.

Lemma ring_is_empty_spec rb q : is_ring N rb q → ring_is_empty rb = bool_decide (q = []).
Proof.
  intros ((Hl & Hh & Ht) & Hq & _). unfold ring_is_empty. apply eq_bool_prop_intro. rewrite bool_decide_spec, Is_true_true, Z.eqb_eq.
  rewrite <- length_zero_iff_nil. rewrite <- Nat2Z.inj_iff, Hq. split; [intros ->; by rewrite Z.sub_diag, Z.mod_0_l by lia|].
  intros Hm. apply Z.mod_divide in Hm; [|lia]. destruct Hm as [z Hz].
  destruct (decide (z = 0)) as [->|]; [lia|]. destruct (decide (0 < z)); nia.
Qed.
Lemma step_index i : 0 ≤ i < N → u32 (i + 1) mod N = (i + 1) mod N.
Proof. intros. by rewrite u32_small by lia. Qed.
Lemma ring_is_full_spec rb q : is_ring N rb q → ring_is_full N rb = (Z.of_nat (length q) =? N - 1).
Proof.
  intros ((Hl & Hh & Ht) & Hq & _). unfold ring_is_full. rewrite step_index, Hq by done. apply eq_bool_prop_intro.
  rewrite !Is_true_true, !Z.eqb_eq.
  assert ((head rb - tail rb) mod N = if head rb <? tail rb then head rb - tail rb + N else head rb - tail rb) as ->.
  { destruct (Z.ltb_spec (head rb) (tail rb)); [symmetry; apply (Z.mod_unique _ _ (-1)); lia | apply Z.mod_small; lia]. }
  assert ((head rb + 1) mod N = if head rb =? N - 1 then 0 else head rb + 1) as ->.
  { destruct (Z.eqb_spec (head rb) (N - 1)) as [->|]; [replace (N - 1 + 1) with N by lia; apply Z.mod_same; lia | apply Z.mod_small; lia]. }
  destruct (Z.eqb_spec (head rb) (N - 1)), (Z.ltb_spec (head rb) (tail rb)); lia.
Qed.

Lemma mod_shift a b : 0 ≤ a < N → (a - b) mod N ≠ N - 1 → ((a + 1) mod N - b) mod N = (a - b) mod N + 1.
Proof.
  intros Ha Hne. rewrite Zminus_mod_idemp_l. replace (a + 1 - b) with (a - b + 1) by lia.
  rewrite <- Zplus_mod_idemp_l. apply Z.mod_small. pose proof (Z.mod_pos_bound (a - b) N). lia.
Qed.
(** A slot is the head's only when the queue before it is complete. *)
Lemma slot_head h t k : 0 ≤ h < N → 0 ≤ t < N → 0 ≤ k < N → (t + k) mod N = h ↔ k = (h - t) mod N.
Proof.
  intros Hh Ht Hk. split.
  - intros <-. rewrite Zminus_mod_idemp_l. replace (t + k - t) with k by lia. by rewrite Z.mod_small.
  - intros ->. rewrite Zplus_mod_idemp_r. replace (t + (h - t)) with h by lia. by rewrite Z.mod_small.
Qed.

(** Writing to a ring that is not full appends to its queue. *)
Lemma ring_write_spec c rb q : is_ring N rb q → Z.of_nat (length q) ≠ N - 1 →
  ∃ rb', ring_write N c rb = Ret rb' ∧ is_ring N rb' (q ++ [c]).
Proof.
  intros (Hok & Hq & Hx) Hne. destruct (ring_write_ok c rb Hok) as (rb' & E & Hok'). exists rb'. split; [done|].
  destruct Hok as (Hl & Hh & Ht). unfold ring_write in E. destruct (zlookup_lt_is_Some (buffer rb) (head rb)) as [x0 Hx0]; [lia|].
  rewrite Hx0 in E. injection E as <-. split; [done|]. cbn [head tail buffer]. rewrite step_index, length_app, Nat2Z.inj_add by done. split.
  - rewrite mod_shift, Hq by lia. done.
  - intros k x Hk. pose proof (lookup_lt_Some _ _ _ Hk) as Hlt. rewrite length_app in Hlt. cbn in Hlt. pose proof (Z.mod_pos_bound (head rb - tail rb) N).
    destruct (decide (Z.of_nat k = (head rb - tail rb) mod N)) as [Hkh|Hkh].
    + rewrite (proj2 (slot_head (head rb) (tail rb) (Z.of_nat k) ltac:(lia) ltac:(lia) ltac:(lia)) Hkh).
      rewrite zlookup_zinsert_eq by lia. rewrite lookup_app_r in Hk by lia. replace (k - length q)%nat with 0%nat in Hk by lia. done.
    + rewrite zlookup_zinsert_ne; [|intros He; symmetry in He; apply slot_head in He; lia].
      rewrite lookup_app_l in Hk by lia. by apply Hx.
Qed.
(** Reading a ring that is not empty takes the oldest character. *)
Lemma ring_read_spec rb c q : is_ring N rb (c :: q) → ∃ rb', ring_read N rb = Ret (c, rb') ∧ is_ring N rb' q.
Proof.
  intros (Hok & Hq & Hx). destruct (ring_read_ok rb Hok) as (c' & rb' & E & Hok'). destruct Hok as (Hl & Hh & Ht).
  assert (zlookup (buffer rb) (tail rb) = Some c) as Hc by (rewrite <- (Hx 0%nat c eq_refl); by rewrite Z.add_0_r, Z.mod_small).
  exists rb'. unfold ring_read in *. rewrite Hc in *. injection E as <- <-. split; [done|]. split; [done|]. cbn [head tail buffer] in *.
  rewrite step_index by done. rewrite Zminus_mod_idemp_r. split.
  - replace (head rb - (tail rb + 1)) with (head rb - tail rb - 1) by lia. rewrite <- Zminus_mod_idemp_l, <- Hq.
    pose proof (Z.mod_pos_bound (head rb - tail rb) N). cbn [length]. cbn [length] in Hq. rewrite Z.mod_small; lia.
  - intros k x Hk. rewrite Zplus_mod_idemp_l. replace (tail rb + 1 + Z.of_nat k) with (tail rb + Z.of_nat (S k)) by lia. by apply Hx.
Qed.

(** A character written to a full ring wipes it out: the ring then reads as empty. *)
Lemma ring_write_full c rb q : is_ring N rb q → Z.of_nat (length q) = N - 1 →
  ∃ rb', ring_write N c rb = Ret rb' ∧ is_ring N rb' [].
Proof.
  intros (Hok & Hq & Hx) Hf. destruct (ring_write_ok c rb Hok) as (rb' & E & Hok'). exists rb'. split; [done|].
  destruct Hok as (Hl & Hh & Ht). unfold ring_write in E. destruct (zlookup_lt_is_Some (buffer rb) (head rb)) as [x0 Hx0]; [lia|].
  rewrite Hx0 in E. injection E as <-. split; [done|]. cbn [head tail]. split; [|done]. rewrite step_index by done. cbn [length].
  rewrite Zminus_mod_idemp_l. replace (head rb + 1 - tail rb) with (head rb - tail rb + 1) by lia.
  rewrite <- Zplus_mod_idemp_l, <- Hq, Hf. replace (N - 1 + 1) with N by lia. by rewrite Z.mod_same by lia.
Qed.
(** A read of an empty ring makes it a full one, of stale characters. *)
Lemma ring_read_empty rb : is_ring N rb [] →
  ∃ c rb' q, ring_read N rb = Ret (c, rb') ∧ is_ring N rb' q ∧ Z.of_nat (length q) = N - 1.
Proof.
  intros (Hok & Hq & Hx). destruct (ring_read_ok rb Hok) as (c & rb' & E & Hok'). destruct Hok as (Hl & Hh & Ht).
  unfold ring_read in E. destruct (zlookup_lt_is_Some (buffer rb) (tail rb)) as [x0 Hx0]; [lia|].
  rewrite Hx0 in E. injection E as <- <-. cbn [length] in Hq.
  set (t' := u32 (tail rb + 1) mod N) in *. unfold ring_read. rewrite Hx0. fold t'.
  set (at' := λ k : nat, default 0 (zlookup (buffer rb) ((t' + Z.of_nat k) mod N))).
  exists x0, (mk_ring (buffer rb) (head rb) t'), (at' <$> seq 0 (Z.to_nat (N - 1))).
  rewrite length_fmap, length_seq, Z2Nat.id by lia. split; [done|]. split; [|done]. split; [done|]. cbn [head tail buffer]. split.
  - rewrite length_fmap, length_seq, Z2Nat.id by lia. subst t'. rewrite step_index, Zminus_mod_idemp_r by done.
    replace (head rb - (tail rb + 1)) with (head rb - tail rb - 1) by lia. rewrite <- Zminus_mod_idemp_l, <- Hq.
    apply (Z.mod_unique _ _ (-1)); lia.
  - intros k x Hk. rewrite list_lookup_fmap in Hk. destruct (seq 0 (Z.to_nat (N - 1)) !! k) as [j|] eqn:Hj; [|done]. apply lookup_seq in Hj as [-> _].
    cbn in Hk. injection Hk as <-. unfold at'. destruct (zlookup_lt_is_Some (buffer rb) ((t' + Z.of_nat k) mod N)) as [y Hy].
    { rewrite Hl. apply Z.mod_pos_bound. lia. }
    by rewrite Hy.
Qed.
End laws.
End Ring.
