(* ===== verification/Drivers.v ===== *)
(** * Device drivers: [kernel/driver/keyboard], [serial], [timer], [rtc]

    The drivers run on the machine of [Irq] with their own state as its [drv]
    field. A loop that waits takes the number of polls it may make ([Hang] when
    they run out); a loop that waits for an interrupt runs [pause] once a turn,
    which stands for the interrupts that arrive meanwhile. Characters are bytes.
    The addresses of the static descriptors and of the handlers are arbitrary
    distinct numbers. *)
From S2P Require Import Prelude Ports Desc Irq Ring.
Import Pic Irq Ring.

Module Drivers.

(** ** Constants *)
Definition KEYBOARD_DATA_PORT := 0x60.
Definition KEYBOARD_STATUS_PORT := 0x64.
Definition KBD_STATUS_OUTPUT_FULL := 0x01.
Definition KBD_CMD_ENABLE := 0xF4.
Definition SCANCODE_BREAK_MASK := 0x80.
Definition SCANCODE_LSHIFT := 0x2A.
Definition SCANCODE_RSHIFT := 0x36.
Definition SCANCODE_CAPSLOCK := 0x3A.
Definition KEYBOARD_BUFFER_SIZE := 256.
Definition KEYBOARD_IRQ := 1.
Definition SERIAL_COM1_BASE := 0x3F8.
Definition SERIAL_DATA_REG (base : Z) := base + 0.
Definition SERIAL_INT_ENABLE_REG (base : Z) := base + 1.
Definition SERIAL_FIFO_CTRL_REG (base : Z) := base + 2.
Definition SERIAL_INT_ID_REG (base : Z) := base + 2.
Definition SERIAL_LINE_CTRL_REG (base : Z) := base + 3.
Definition SERIAL_MODEM_CTRL_REG (base : Z) := base + 4.
Definition SERIAL_LINE_STATUS_REG (base : Z) := base + 5.
Definition SERIAL_LSR_READY_TO_SEND := 0x20.
Definition SERIAL_LSR_DATA_READY := 0x01.
Definition SERIAL_LSR_THRE := 0x20.
Definition SERIAL_IIR_PENDING := 0x01.
Definition SERIAL_IIR_SOURCE_MASK := 0x0E.
Definition SERIAL_IIR_RX_READY := 0x04.
Definition SERIAL_IIR_TX_EMPTY := 0x02.
Definition SERIAL_IIR_RX_STATUS := 0x06.
Definition SERIAL_IER_RX_READY := 0x01.
Definition SERIAL_IER_TX_EMPTY := 0x02.
Definition SERIAL_IER_RX_STATUS := 0x04.
Definition UART_RX_BUFFER_SIZE := 256.
Definition UART_TX_BUFFER_SIZE := 256.
Definition UART_COM1_IRQ := 4.
Definition PIT_CMD_PORT := 0x43.
Definition PIT_CHANNEL_0_DATA := 0x40.
Definition PIT_CHANNEL_0 := 0x00.
Definition PIT_MODE_3 := 0x06.
Definition PIT_ACCESS_WORD := 0x30.
Definition PIT_BASE_FREQUENCY := 1193180.
Definition TIMER_DEFAULT_FREQUENCY := 1000.
(** Static objects and functions, by address. *)
Definition keyboard_irq_desc := 0x1000.
Definition uart_irq_desc := 0x1028.
Definition timer_irq_desc := 0x1050.
Definition rtc_irq_desc := 0x1078.
Definition KEYBOARD_HANDLER := 0x2000.
Definition UART_HANDLER := 0x2100.
Definition TIMER_HANDLER := 0x2200.
Definition RTC_HANDLER := 0x2300.

(** ** State *)
Record kb_state := mk_kb { kb_buffer : ring; kb_shift_pressed : bool; kb_caps_lock : bool; kb_initialized : bool }.
Record uart_state := mk_uart { tx_buffer : ring; rx_buffer : ring; uart_echo_enabled : bool; uart_intr_mode_initialized : bool }.
Record timer_state := mk_timer { timer_ticks : Z; timer_frequency : Z; timer_callback : Z }.
Record rtc_state := mk_rtc {
  rtc_interrupt_count : Z; rtc_periodic_callback : Z; rtc_periodic_context : Z;
  rtc_alarm_callback : Z; rtc_alarm_context : Z; rtc_binary_mode : bool }.
Record drivers := mk_drivers { kb : kb_state; uart : uart_state; timer : timer_state; rtc : rtc_state }.
Definition drivers_boot : drivers :=
  mk_drivers (mk_kb (ring_init 256) false false false) (mk_uart (ring_init 256) (ring_init 256) true false)
    (mk_timer 0 0 0) (mk_rtc 0 0 0 0 0 false).

(** ** Keyboard: characters *)
Definition codes (s : string) : list Z := (λ a, Z.of_N (Ascii.N_of_ascii a)) <$> String.list_ascii_of_string s.
Definition scancode_to_ascii_table : list Z :=
  [0; 0] ++ codes "1234567890-=" ++ [8; 9] ++ codes "qwertyuiop[]" ++ [10; 0] ++ codes "asdfghjkl;'`" ++ [0; 92] ++
  codes "zxcvbnm,./" ++ [0; 42; 0; 32; 0; 0; 0; 0] ++ replicate 48 0 ++ [0; 0; 0; 45; 0; 0; 0; 43] ++ replicate 8 0 ++ [0; 0].
Definition scancode_to_ascii_shifted : list Z :=
  [0; 0] ++ codes "!@#$%^&*()_+" ++ [8; 9] ++ codes "QWERTYUIOP{}" ++ [10; 0] ++ codes "ASDFGHJKL:" ++ [34; 126] ++ [0; 124] ++
  codes "ZXCVBNM<>?" ++ [0; 42; 0; 32; 0; 0; 0; 0] ++ replicate 48 0 ++ [0; 0; 0; 45; 0; 0; 0; 43] ++ replicate 8 0 ++ [0; 0].
Definition is_letter_scancode (scancode : Z) : bool :=
  ((0x10 <=? scancode) && (scancode <=? 0x1C)) || ((0x1E <=? scancode) && (scancode <=? 0x26)).
Definition scancode_to_ascii (k : kb_state) (scancode : Z) : outcome Z :=
  if negb (Z.land scancode SCANCODE_BREAK_MASK =? 0) then Ret 0 else
  if 128 <=? scancode then Ret 0 else
  let use_shift := kb_shift_pressed k in
  let use_shift := if kb_caps_lock k && is_letter_scancode scancode then negb use_shift else use_shift in
  access (zlookup (if use_shift then scancode_to_ascii_shifted else scancode_to_ascii_table) scancode).

Section drivers.
Context {H : Type} `{PortIO H}.
Notation M := (machine H drivers).

Definition set_kb (k : kb_state) : io M unit := modify (λ m, with_drv (mk_drivers k (uart (drv m)) (timer (drv m)) (rtc (drv m))) m).
Definition set_uart (u : uart_state) : io M unit := modify (λ m, with_drv (mk_drivers (kb (drv m)) u (timer (drv m)) (rtc (drv m))) m).
Definition set_timer (t : timer_state) : io M unit := modify (λ m, with_drv (mk_drivers (kb (drv m)) (uart (drv m)) t (rtc (drv m))) m).
Definition set_rtc (r : rtc_state) : io M unit := modify (λ m, with_drv (mk_drivers (kb (drv m)) (uart (drv m)) (timer (drv m)) r) m).
Definition get_kb : io M kb_state := gets (kb ∘ drv).
Definition get_uart : io M uart_state := gets (uart ∘ drv).
Definition get_timer : io M timer_state := gets (timer ∘ drv).
Definition get_rtc : io M rtc_state := gets (rtc ∘ drv).

(** A section with interrupts off that restores the flag it found. *)
Definition saved_cli {A} (body : io M A) : io M A :=
  rflags ← is_intr_enabled;
  interrupt_disable;;
  r ← body;
  when rflags interrupt_enable;;
  mret r.

(** ** Keyboard *)
Definition put_kb (r : ring) (k : kb_state) : kb_state := mk_kb r (kb_shift_pressed k) (kb_caps_lock k) (kb_initialized k).
Definition keyboard_key (scancode : Z) : io M unit :=
  k ← get_kb;
  let code := Z.land scancode 0x7F in
  let is_break := negb (Z.land scancode SCANCODE_BREAK_MASK =? 0) in
  if (code =? SCANCODE_LSHIFT) || (code =? SCANCODE_RSHIFT) then
    set_kb (mk_kb (kb_buffer k) (negb is_break) (kb_caps_lock k) (kb_initialized k))
  else if code =? SCANCODE_CAPSLOCK then
    when (negb is_break) (set_kb (mk_kb (kb_buffer k) (kb_shift_pressed k) (negb (kb_caps_lock k)) (kb_initialized k)))
  else when (negb is_break) (
    c ← lift (scancode_to_ascii k scancode);
    when (negb (c =? 0) && negb (ring_is_full KEYBOARD_BUFFER_SIZE (kb_buffer k))) (
      r ← lift (ring_write KEYBOARD_BUFFER_SIZE c (kb_buffer k));
      set_kb (put_kb r k))).
Definition keyboard_irq_handler : io M unit :=
  status ← inb KEYBOARD_STATUS_PORT;
  if Z.land status KBD_STATUS_OUTPUT_FULL =? 0 then pic_send_eoi KEYBOARD_IRQ else
  scancode ← inb KEYBOARD_DATA_PORT;
  keyboard_key scancode;;
  count_invocation keyboard_irq_desc;;
  pic_send_eoi KEYBOARD_IRQ.

(** [while (inb(STATUS) & OUTPUT_FULL) inb(DATA);] *)
Fixpoint keyboard_flush (polls : nat) : io M unit :=
  match polls with
  | O => io_fail Hang
  | S n => status ← inb KEYBOARD_STATUS_PORT;
           if Z.land status KBD_STATUS_OUTPUT_FULL =? 0 then mret tt else
           inb KEYBOARD_DATA_PORT;; keyboard_flush n
  end.
Definition set_handler (d fn : Z) : io M unit :=
  x ← get_desc d; set_desc d (mk_desc fn (context x) (flags x) (invocation_count x)).
Definition keyboard_init (polls : nat) : io M Z :=
  k ← get_kb;
  if kb_initialized k then mret 0 else
  set_handler keyboard_irq_desc KEYBOARD_HANDLER;;
  keyboard_flush polls;;
  result ← irq_register_handler KEYBOARD_IRQ keyboard_irq_desc;
  if negb (result =? 0) then mret result else
  outb KEYBOARD_DATA_PORT KBD_CMD_ENABLE;;
  pic_enable_irq KEYBOARD_IRQ;;
  k ← get_kb;
  set_kb (mk_kb (kb_buffer k) (kb_shift_pressed k) (kb_caps_lock k) true);;
  mret 0.
Definition keyboard_haschar : io M bool := k ← get_kb; mret (negb (ring_is_empty (kb_buffer k))).
Definition keyboard_take : io M Z := saved_cli (
  k ← get_kb;
  r ← lift (ring_read KEYBOARD_BUFFER_SIZE (kb_buffer k));
  let '(c, rb) := r in set_kb (put_kb rb k);; mret c).
(** The pointer to the result is not NULL. *)
Definition keyboard_try_getchar : io M (option Z) :=
  k ← get_kb;
  if ring_is_empty (kb_buffer k) then mret None else c ← keyboard_take; mret (Some c).
Fixpoint keyboard_getchar (pause : io M unit) (polls : nat) : io M Z :=
  match polls with
  | O => io_fail Hang
  | S n => k ← get_kb;
           if ring_is_empty (kb_buffer k) then pause;; keyboard_getchar pause n else keyboard_take
  end.
Definition keyboard_get_interrupt_count : io M Z := x ← get_desc keyboard_irq_desc; mret (invocation_count x).

(** ** Serial port *)
Definition base := SERIAL_COM1_BASE.
(** [while ((inb(LSR) & mask) == 0);] *)
Fixpoint wait_line (mask : Z) (polls : nat) : io M unit :=
  match polls with
  | O => io_fail Hang
  | S n => v ← inb (SERIAL_LINE_STATUS_REG base); if Z.land v mask =? 0 then wait_line mask n else mret tt
  end.
Definition sync_serial_putc (polls : nat) (c : Z) : io M unit :=
  wait_line SERIAL_LSR_READY_TO_SEND polls;;
  outb (SERIAL_DATA_REG base) c.
Fixpoint sync_serial_puts (polls : nat) (str : list Z) : io M unit :=
  match str with [] => mret tt | c :: r => sync_serial_putc polls c;; sync_serial_puts polls r end.
Definition serial_init : io M bool :=
  outb (SERIAL_INT_ENABLE_REG base) 0x00;;
  outb (SERIAL_LINE_CTRL_REG base) 0x80;;
  outb (SERIAL_DATA_REG base) 1;;
  outb (SERIAL_INT_ENABLE_REG base) 0;;
  outb (SERIAL_LINE_CTRL_REG base) 0x03;;
  outb (SERIAL_FIFO_CTRL_REG base) 0xC7;;
  outb (SERIAL_MODEM_CTRL_REG base) 0x0B;;
  mret true.

Definition put_tx (r : ring) (u : uart_state) : uart_state := mk_uart r (rx_buffer u) (uart_echo_enabled u) (uart_intr_mode_initialized u).
Definition put_rx (r : ring) (u : uart_state) : uart_state := mk_uart (tx_buffer u) r (uart_echo_enabled u) (uart_intr_mode_initialized u).
(** Reads all available characters; those that find no room are dropped. *)
Fixpoint uart_drain (polls : nat) : io M unit :=
  match polls with
  | O => io_fail Hang
  | S n =>
      v ← inb (SERIAL_LINE_STATUS_REG base);
      if Z.land v SERIAL_LSR_DATA_READY =? 0 then mret tt else
      c ← inb (SERIAL_DATA_REG base);
      u ← get_uart;
      when (negb (ring_is_full UART_RX_BUFFER_SIZE (rx_buffer u))) (
        r ← lift (ring_write UART_RX_BUFFER_SIZE c (rx_buffer u)); set_uart (put_rx r u));;
      uart_drain n
  end.
Definition uart_tx_read : io M Z :=
  u ← get_uart;
  r ← lift (ring_read UART_TX_BUFFER_SIZE (tx_buffer u));
  let '(c, rb) := r in set_uart (put_tx rb u);; mret c.
Definition uart_transmit : io M unit :=
  u ← get_uart;
  if negb (ring_is_empty (tx_buffer u)) then
    c ← uart_tx_read; outb (SERIAL_DATA_REG base) c
  else
    ier ← inb (SERIAL_INT_ENABLE_REG base);
    outb (SERIAL_INT_ENABLE_REG base) (Z.land ier (~64 SERIAL_IER_TX_EMPTY)).
Definition uart_irq_handler (polls : nat) : io M unit :=
  iir ← inb (SERIAL_INT_ID_REG base);
  if negb (Z.land iir SERIAL_IIR_PENDING =? 0) then pic_send_eoi UART_COM1_IRQ else
  let int_source := Z.land iir SERIAL_IIR_SOURCE_MASK in
  count_invocation uart_irq_desc;;
  (if int_source =? SERIAL_IIR_RX_READY then uart_drain polls else
   if int_source =? SERIAL_IIR_TX_EMPTY then uart_transmit else
   if int_source =? SERIAL_IIR_RX_STATUS then inb (SERIAL_LINE_STATUS_REG base);; mret tt else
   if int_source =? 0x0C then uart_drain polls else mret tt);;
  pic_send_eoi UART_COM1_IRQ.

Definition uart_init_intr_mode : io M Z :=
  u ← get_uart;
  if uart_intr_mode_initialized u then mret 0 else
  inb (SERIAL_INT_ID_REG base);;
  inb (SERIAL_LINE_STATUS_REG base);;
  inb (SERIAL_DATA_REG base);;
  outb (SERIAL_FIFO_CTRL_REG base) 0xC7;;
  result ← irq_register_handler UART_COM1_IRQ uart_irq_desc;
  if negb (result =? 0) then mret result else
  outb (SERIAL_INT_ENABLE_REG base) (Z.lor SERIAL_IER_RX_READY SERIAL_IER_RX_STATUS);;
  pic_enable_irq UART_COM1_IRQ;;
  u ← get_uart;
  set_uart (mk_uart (tx_buffer u) (rx_buffer u) (uart_echo_enabled u) true);;
  mret 0.

(** Waits for room in the transmit ring, kicking the transmitter if it is stalled. *)
Fixpoint wait_tx_space (pause : io M unit) (polls : nat) : io M unit :=
  match polls with
  | O => io_fail Hang
  | S n =>
      u ← get_uart;
      if negb (ring_is_full UART_TX_BUFFER_SIZE (tx_buffer u)) then mret tt else
      pause;;
      ier ← inb (SERIAL_INT_ENABLE_REG base);
      u ← get_uart;
      when ((Z.land ier SERIAL_IER_TX_EMPTY =? 0) && negb (ring_is_empty (tx_buffer u)))
        (outb (SERIAL_INT_ENABLE_REG base) (Z.lor ier SERIAL_IER_TX_EMPTY));;
      wait_tx_space pause n
  end.
Definition enable_tx_interrupt : io M unit :=
  ier ← inb (SERIAL_INT_ENABLE_REG base);
  outb (SERIAL_INT_ENABLE_REG base) (Z.lor ier SERIAL_IER_TX_EMPTY).
(** The part of [async_serial_putc] with interrupts off: [was_empty] is its result. *)
Definition async_put (c : Z) : io M bool := saved_cli (
  u ← get_uart;
  let was_empty := ring_is_empty (tx_buffer u) in
  r ← lift (ring_write UART_TX_BUFFER_SIZE c (tx_buffer u));
  set_uart (put_tx r u);;
  mret was_empty).
(** The part after interrupts are on again. *)
Definition async_kick : io M unit :=
  v ← inb (SERIAL_LINE_STATUS_REG base);
  if negb (Z.land v SERIAL_LSR_THRE =? 0) then
    c ← uart_tx_read;
    outb (SERIAL_DATA_REG base) c;;
    u ← get_uart;
    when (negb (ring_is_empty (tx_buffer u))) enable_tx_interrupt
  else enable_tx_interrupt.
(** [pause] also stands for the interrupts that arrive between the two parts. *)
Definition async_serial_putc (pause : io M unit) (polls : nat) (c : Z) : io M unit :=
  u ← get_uart;
  if negb (uart_intr_mode_initialized u) then
    wait_line SERIAL_LSR_THRE polls;; outb (SERIAL_DATA_REG base) c
  else
    wait_tx_space pause polls;;
    was_empty ← async_put c;
    pause;;
    when was_empty async_kick.
Fixpoint async_serial_puts (pause : io M unit) (polls : nat) (str : list Z) : io M unit :=
  match str with [] => mret tt | c :: r => async_serial_putc pause polls c;; async_serial_puts pause polls r end.
Definition uart_haschar : io M bool := u ← get_uart; mret (negb (ring_is_empty (rx_buffer u))).
Definition uart_take : io M Z := saved_cli (
  u ← get_uart;
  r ← lift (ring_read UART_RX_BUFFER_SIZE (rx_buffer u));
  let '(c, rb) := r in set_uart (put_rx rb u);; mret c).
Definition uart_try_getchar : io M (option Z) :=
  u ← get_uart;
  if ring_is_empty (rx_buffer u) then mret None else c ← uart_take; mret (Some c).
Fixpoint uart_getchar (pause : io M unit) (polls : nat) : io M Z :=
  match polls with
  | O => io_fail Hang
  | S n => u ← get_uart; if ring_is_empty (rx_buffer u) then pause;; uart_getchar pause n else uart_take
  end.
Definition uart_set_echo (enable : bool) : io M unit :=
  u ← get_uart; set_uart (mk_uart (tx_buffer u) (rx_buffer u) enable (uart_intr_mode_initialized u)).
Definition uart_get_echo : io M bool := gets (uart_echo_enabled ∘ uart ∘ drv).

(** ** Timer *)
Definition pit_set_frequency (frequency : Z) : io M unit :=
  if frequency =? 0 then io_fail Fault else
  let divisor := PIT_BASE_FREQUENCY / frequency in
  outb PIT_CMD_PORT (Z.lor (Z.lor PIT_CHANNEL_0 PIT_MODE_3) PIT_ACCESS_WORD);;
  outb PIT_CHANNEL_0_DATA (Z.land divisor 0xFF);;
  outb PIT_CHANNEL_0_DATA (Z.land (Z.shiftr divisor 8) 0xFF).
Definition timer_irq_handler (run_callback : Z → Z → io M unit) : io M unit :=
  t ← get_timer;
  let ticks := timer_ticks t ⊞ 1 in
  set_timer (mk_timer ticks (timer_frequency t) (timer_callback t));;
  when (negb (timer_callback t =? 0)) (run_callback (timer_callback t) ticks).
Definition timer_init (frequency : Z) : io M Z :=
  let frequency := if frequency =? 0 then TIMER_DEFAULT_FREQUENCY else frequency in
  set_desc timer_irq_desc (mk_desc TIMER_HANDLER 0 IRQ_FLAG_NONE 0);;
  t ← get_timer;
  set_timer (mk_timer (timer_ticks t) frequency (timer_callback t));;
  pit_set_frequency frequency;;
  irq_register_handler 0 timer_irq_desc.
Definition timer_get_ticks : io M Z := gets (timer_ticks ∘ timer ∘ drv).
Definition timer_target (start milliseconds frequency : Z) : Z := start ⊞ (u32 (milliseconds * frequency) / 1000).
Fixpoint timer_wait (pause : io M unit) (target : Z) (polls : nat) : io M unit :=
  match polls with
  | O => io_fail Hang
  | S n => t ← timer_get_ticks; if t <? target then pause;; timer_wait pause target n else mret tt
  end.
Definition timer_mdelay (pause : io M unit) (polls : nat) (milliseconds : Z) : io M unit :=
  t ← get_timer;
  timer_wait pause (timer_target (timer_ticks t) milliseconds (timer_frequency t)) polls.
Definition timer_set_callback (callback : Z) : io M unit :=
  t ← get_timer; set_timer (mk_timer (timer_ticks t) (timer_frequency t) callback).
Definition timer_set_frequency (frequency : Z) : io M Z :=
  if (frequency <? 18) || (PIT_BASE_FREQUENCY <? frequency) then mret (-1) else
  t ← get_timer;
  set_timer (mk_timer (timer_ticks t) frequency (timer_callback t));;
  pit_set_frequency frequency;;
  mret 0.
End drivers.

(** ** Types: what every driver operation preserves *)
Section types.
Context {H : Type} `{PortIO H}.
Notation M := (machine H drivers).

(** The three rings have their shape, the table has its sixteen lines and the
    drivers' descriptors exist. The devices are arbitrary. *)
Definition uart_ok (u : uart_state) : Prop := ring_ok 256 (tx_buffer u) ∧ ring_ok 256 (rx_buffer u).
Definition drv_ok (d : drivers) : Prop := ring_ok 256 (kb_buffer (kb d)) ∧ uart_ok (uart d).
Definition descs_ok (t : gmap Z irq_descriptor_t) : Prop :=
  Forall (λ d, is_Some (t !! d)) [keyboard_irq_desc; uart_irq_desc; timer_irq_desc; rtc_irq_desc].
Definition machine_ok (m : M) : Prop := length (irq_table m) = 16%nat ∧ descs_ok (descs m) ∧ drv_ok (drv m).

Definition typed {A} (m : io M A) : Prop := safe machine_ok m (λ _, True).
Lemma typed_bind {A B} (m : io M A) (f : A → io M B) : typed m → (∀ a, typed (f a)) → typed (m ≫= f).
Proof. intros Hm Hf. eapply safe_bind; [exact Hm|]. intros a _. apply Hf. Qed.
Lemma typed_ret {A} (a : A) : typed (mret a).
Proof. by apply safe_ret. Qed.
Lemma typed_if {A} (b : bool) (m n : io M A) : typed m → typed n → typed (if b then m else n).
Proof. by destruct b. Qed.
Lemma typed_when b (m : io M unit) : typed m → typed (when b m).
Proof. intros Hm. by apply safe_when. Qed.
Lemma typed_inb p : typed (inb p).
Proof. intros m Hm. unfold inb. cbn. by destruct (port_inb p (hw m)). Qed.
Lemma typed_outb p v : typed (outb p v).
Proof. intros m Hm. done. Qed.
Lemma typed_bit n : n < 64 → typed (BIT n).
Proof. intros Hn. unfold BIT. destruct (Z.ltb_spec n 64); [apply typed_ret | lia]. Qed.
Lemma typed_eoi irq : typed (pic_send_eoi irq).
Proof. unfold pic_send_eoi, pic_send_command. apply typed_bind; [apply typed_when, typed_outb | intros _; apply typed_outb]. Qed.
Lemma typed_enable_irq irq : irq < 16 → typed (pic_enable_irq irq).
Proof.
  intros Hi. unfold pic_enable_irq, pic_line, pic_read_data, pic_send_data. destruct (Z.ltb_spec irq 8); (apply typed_bind; [apply typed_inb|]; intros v;
    apply typed_bind; [apply typed_bit; lia | intros b; apply typed_outb]).
Qed.
Lemma typed_disable_irq irq : irq < 16 → typed (pic_disable_irq irq).
Proof.
  intros Hi. unfold pic_disable_irq, pic_line, pic_read_data, pic_send_data. destruct (Z.ltb_spec irq 8); (apply typed_bind; [apply typed_inb|]; intros v;
    apply typed_bind; [apply typed_bit; lia | intros b; apply typed_outb]).
Qed.
Lemma typed_get_desc d : d ∈ [keyboard_irq_desc; uart_irq_desc; timer_irq_desc; rtc_irq_desc] → typed (get_desc d).
Proof.
  intros Hd m (Hl & Hds & Hdr). unfold get_desc, gets, lift, mbind, io_bind. pose proof Hds as Hds'. unfold descs_ok in Hds'.
  rewrite Forall_forall in Hds'. destruct (Hds' d Hd) as [x ->]. exact (conj (conj Hl (conj Hds Hdr)) I).
Qed.
Lemma typed_set_desc d x : typed (set_desc d x).
Proof.
  intros m (Hl & Hds & Hdr). cbn. split; [|done]. split; [done|]. split; [|done]. unfold descs_ok in *. eapply Forall_impl; [exact Hds|].
  intros d' Hd'. cbn in *. destruct (decide (d = d')) as [->|Hne]; [rewrite lookup_insert_eq; eauto | by rewrite lookup_insert_ne].
Qed.
Lemma typed_count d : d ∈ [keyboard_irq_desc; uart_irq_desc; timer_irq_desc; rtc_irq_desc] → typed (count_invocation d).
Proof. intros Hd. apply typed_bind; [by apply typed_get_desc | intros x; apply typed_set_desc]. Qed.
Lemma typed_register irq d : 0 ≤ irq < 16 → d ∈ [keyboard_irq_desc; uart_irq_desc; timer_irq_desc; rtc_irq_desc] → typed (irq_register_handler irq d).
Proof.
  intros Hi Hd. unfold irq_register_handler. apply typed_if; [apply typed_ret|]. apply typed_if; [apply typed_ret|].
  apply typed_bind; [by apply typed_get_desc|]. intros x. apply typed_if; [apply typed_ret|]. apply typed_bind.
  - intros m Hm. pose proof Hm as (Hl & _). unfold get_entry, gets, lift, mbind, io_bind. destruct (zlookup_lt_is_Some (irq_table m) irq) as [e ->]; [lia|]. done.
  - intros e. apply typed_if; [apply typed_ret|]. apply typed_bind; [|intros _; apply typed_ret].
    intros m (Hl & Hr). cbn. split; [|done]. split; [by cbn; rewrite length_zinsert | done].
Qed.

(** Reads that carry what the invariant says about the value read. *)
Lemma typed_inb_bind {A} p (f : Z → io M A) : (∀ v, is_u8 v → typed (f v)) → typed (inb p ≫= f).
Proof.
  intros Hf. apply (safe_bind _ _ _ is_u8); [|exact Hf]. intros m Hm. unfold inb. cbn. destruct (port_inb p (hw m)) as [v h]. split; [done|]. apply u8_range.
Qed.
Lemma typed_get_kb {A} (f : kb_state → io M A) : (∀ k, ring_ok 256 (kb_buffer k) → typed (f k)) → typed (get_kb ≫= f).
Proof. intros Hf. apply (safe_bind _ _ _ (λ k, ring_ok 256 (kb_buffer k))); [|exact Hf]. by intros m (Hl & Hd & Hk & Hu). Qed.
Lemma typed_get_uart {A} (f : uart_state → io M A) : (∀ u, uart_ok u → typed (f u)) → typed (get_uart ≫= f).
Proof. intros Hf. apply (safe_bind _ _ _ uart_ok); [|exact Hf]. by intros m (Hl & Hd & Hk & Hu). Qed.
Lemma typed_set_kb k : ring_ok 256 (kb_buffer k) → typed (set_kb k).
Proof. by intros Hr m (Hl & Hd & Hk & Hu). Qed.
Lemma typed_set_uart u : uart_ok u → typed (set_uart u).
Proof. by intros Hr m (Hl & Hd & Hk & Hu). Qed.
Lemma typed_set_timer t : typed (set_timer t).
Proof. by intros m (Hl & Hd & Hk & Hu). Qed.
Lemma typed_gets {A} (g : M → A) : typed (gets g).
Proof. by intros m Hm. Qed.
Lemma typed_write {A} c r (f : ring → io M A) : ring_ok 256 r → (∀ r', ring_ok 256 r' → typed (f r')) → typed (lift (ring_write 256 c r) ≫= f).
Proof. intros Hr Hf. apply (safe_bind _ _ _ (ring_ok 256)); [|exact Hf]. apply safe_lift. by apply (ring_write_ok 256). Qed.
Lemma typed_read {A} r (f : Z * ring → io M A) : ring_ok 256 r → (∀ c r', ring_ok 256 r' → typed (f (c, r'))) → typed (lift (ring_read 256 r) ≫= f).
Proof.
  intros Hr Hf. apply (safe_bind _ _ _ (λ x, ring_ok 256 x.2)); [|intros [c r']; apply Hf]. apply safe_lift.
  destruct (ring_read_ok 256 ltac:(lia) r Hr) as (c & r' & E & Hr'). by exists (c, r').
Qed.
Lemma typed_cli {A} (body : io M A) : typed body → typed (saved_cli body).
Proof.
  intros Hb. unfold saved_cli. apply typed_bind; [apply typed_gets|]. intros b. apply typed_bind; [by intros m Hm|]. intros _.
  apply typed_bind; [done|]. intros r. apply typed_bind; [|intros _; apply typed_ret]. apply typed_when. by intros m Hm.
Qed.
Lemma typed_hang {A} : typed (io_fail Hang : io M A).
Proof. done. Qed.
End types.

(** Follows the code of an operation, with the invariant at each read of the state. *)
Ltac const_bound := first [lia | vm_compute; intuition congruence].
Ltac typed_step := lazymatch goal with
  | |- typed (pic_send_eoi _) => apply typed_eoi
  | |- typed (pic_enable_irq _) => apply typed_enable_irq; const_bound
  | |- typed (pic_disable_irq _) => apply typed_disable_irq; const_bound
  | |- typed (count_invocation _) => apply typed_count; set_solver
  | |- typed (get_desc _) => apply typed_get_desc; set_solver
  | |- typed (irq_register_handler _ _) => apply typed_register; [const_bound|set_solver]
  | |- typed (inb _ ≫= _) => apply typed_inb_bind; intros ? ?
  | |- typed (get_kb ≫= _) => apply typed_get_kb; intros ? ?
  | |- typed (get_uart ≫= _) => apply typed_get_uart; intros ? [? ?]
  | |- typed (lift (ring_write _ _ _) ≫= _) => apply typed_write; [done|intros ? ?]
  | |- typed (lift (ring_read _ _) ≫= _) => apply typed_read; [done|intros ? ? ?]
  | |- typed (set_kb _) => apply typed_set_kb; done
  | |- typed (set_uart _) => apply typed_set_uart; split; done
  | |- typed (set_timer _) => apply typed_set_timer
  | |- typed (set_desc _ _) => apply typed_set_desc
  | |- typed (saved_cli _) => apply typed_cli
  | |- typed (when _ _) => apply typed_when
  | |- typed (inb _) => apply typed_inb
  | |- typed (outb _ _) => apply typed_outb
  | |- typed (gets _) => apply typed_gets
  | |- typed (io_fail Hang) => apply typed_hang
  | |- typed (mret _) => apply typed_ret
  | |- typed (if _ then _ else _) => apply typed_if
  | |- typed (_ ≫= _) => apply typed_bind; [|intros ?]
  | |- typed (get_timer) => apply typed_gets
  | |- typed (get_rtc) => apply typed_gets
  | |- typed (timer_get_ticks) => apply typed_gets
  end.
Ltac typed := repeat typed_step.

Section typing.
Context {H : Type} `{PortIO H}.
Notation M := (machine H drivers).

Lemma scancode_to_ascii_ok k sc : 0 ≤ sc → ∃ c, scancode_to_ascii k sc = Ret c ∧ 0 ≤ c < 128.
Proof.
  intros Hs. unfold scancode_to_ascii. destruct (negb _); [by exists 0|]. destruct (Z.leb_spec 128 sc); [by exists 0|].
  match goal with |- context [zlookup ?x sc] => set (t := x) end.
  assert (length t = 128%nat ∧ Forall (λ c, 0 ≤ c < 128) t) as [Hl Hf].
  { subst t. match goal with |- context [if ?b then scancode_to_ascii_shifted else _] => destruct b end;
      (split; [reflexivity|]); apply (bool_decide_unpack _); vm_compute; exact I. }
  destruct (zlookup_lt_is_Some t sc) as [c Hc]; [lia|]. rewrite Hc. exists c. split; [done|]. by eapply Forall_zlookup in Hf.
Qed.
Lemma keyboard_key_typed sc : 0 ≤ sc → typed (H := H) (keyboard_key sc).
Proof.
  intros Hs. unfold keyboard_key. apply typed_get_kb; intros k Hk. apply typed_if; [by apply typed_set_kb|]. apply typed_if; [by apply typed_when, typed_set_kb|].
  apply typed_when. apply (safe_bind _ _ _ (λ _, True)).
  - apply safe_lift. destruct (scancode_to_ascii_ok k sc Hs) as (c & E & _). eauto.
  - intros c _. apply typed_when. apply typed_write; [done|]. intros r Hr. by apply typed_set_kb.
Qed.
Lemma keyboard_irq_typed : typed (H := H) keyboard_irq_handler.
Proof.
  unfold keyboard_irq_handler. typed_step. apply typed_if; [apply typed_eoi|]. apply typed_inb_bind. intros sc Hsc.
  apply typed_bind; [apply keyboard_key_typed; apply Hsc|]. intros _. typed.
Qed.
Lemma keyboard_flush_typed n : typed (H := H) (keyboard_flush n).
Proof. induction n as [|n IH]; cbn [keyboard_flush]; typed; exact IH. Qed.
Lemma keyboard_init_typed n : typed (H := H) (keyboard_init n).
Proof. unfold keyboard_init, set_handler. typed; apply keyboard_flush_typed. Qed.
Lemma keyboard_take_typed : typed (H := H) keyboard_take.
Proof. unfold keyboard_take. typed. Qed.
Lemma keyboard_try_getchar_typed : typed (H := H) keyboard_try_getchar.
Proof. unfold keyboard_try_getchar. typed; apply keyboard_take_typed. Qed.
Lemma keyboard_getchar_typed pause n : typed (H := H) pause → typed (keyboard_getchar pause n).
Proof. intros Hp. induction n as [|n IH]; cbn [keyboard_getchar]; typed; first [exact Hp | exact IH | apply keyboard_take_typed]. Qed.
Lemma wait_line_typed mask n : typed (H := H) (wait_line mask n).
Proof. induction n as [|n IH]; cbn [wait_line]; typed; exact IH. Qed.
Lemma sync_serial_puts_typed n str : typed (H := H) (sync_serial_puts n str).
Proof. induction str as [|c str IH]; cbn [sync_serial_puts]; [apply typed_ret|]. unfold sync_serial_putc. typed; first [apply wait_line_typed | exact IH]. Qed.
Lemma serial_init_typed : typed (H := H) serial_init.
Proof. unfold serial_init. typed. Qed.
Lemma uart_drain_typed n : typed (H := H) (uart_drain n).
Proof. induction n as [|n IH]; cbn [uart_drain]; typed; exact IH. Qed.
Lemma uart_tx_read_typed : typed (H := H) uart_tx_read.
Proof. unfold uart_tx_read. typed. Qed.
Lemma uart_transmit_typed : typed (H := H) uart_transmit.
Proof. unfold uart_transmit. typed; apply uart_tx_read_typed. Qed.
Lemma uart_irq_typed n : typed (H := H) (uart_irq_handler n).
Proof. unfold uart_irq_handler. typed; first [apply uart_drain_typed | apply uart_transmit_typed]. Qed.
Lemma uart_init_typed : typed (H := H) uart_init_intr_mode.
Proof. unfold uart_init_intr_mode. typed. Qed.
Lemma wait_tx_space_typed pause n : typed (H := H) pause → typed (wait_tx_space pause n).
Proof. intros Hp. induction n as [|n IH]; cbn [wait_tx_space]; typed; first [exact Hp | exact IH]. Qed.
Lemma async_kick_typed : typed (H := H) async_kick.
Proof. unfold async_kick, enable_tx_interrupt. typed; apply uart_tx_read_typed. Qed.
Lemma async_serial_puts_typed pause n str : typed (H := H) pause → typed (async_serial_puts pause n str).
Proof.
  intros Hp. induction str as [|c str IH]; cbn [async_serial_puts]; [apply typed_ret|]. unfold async_serial_putc, async_put.
  typed; first [apply wait_line_typed | by apply wait_tx_space_typed | exact Hp | apply async_kick_typed | exact IH].
Qed.
Lemma uart_take_typed : typed (H := H) uart_take.
Proof. unfold uart_take. typed. Qed.
Lemma uart_try_getchar_typed : typed (H := H) uart_try_getchar.
Proof. unfold uart_try_getchar. typed; apply uart_take_typed. Qed.
Lemma uart_getchar_typed pause n : typed (H := H) pause → typed (uart_getchar pause n).
Proof. intros Hp. induction n as [|n IH]; cbn [uart_getchar]; typed; first [exact Hp | exact IH | apply uart_take_typed]. Qed.
End typing.
End Drivers.
