(* ===== verification/Rtc.v ===== *)
(** * The real-time clock: [kernel/driver/rtc/rtc.c]

    The clock chip is reached through an index port and a data port; what its manual
    says about the registers is the class [CmosLaws]. Waiting for the end of an
    update takes a number of polls. *)
From stdpp Require Import functions.
From S2P Require Import Prelude Ports Desc Irq Ring Drivers.
Import Pic Irq Drivers.

Module Rtc.

(** ** Constants *)
Definition CMOS_ADDRESS_PORT := 0x70.
Definition CMOS_DATA_PORT := 0x71.
Definition CMOS_NMI_DISABLE := 0x80.
Definition RTC_SECONDS := 0x00.
Definition RTC_SECONDS_ALARM := 0x01.
Definition RTC_MINUTES := 0x02.
Definition RTC_MINUTES_ALARM := 0x03.
Definition RTC_HOURS := 0x04.
Definition RTC_HOURS_ALARM := 0x05.
Definition RTC_DAY_OF_WEEK := 0x06.
Definition RTC_DAY_OF_MONTH := 0x07.
Definition RTC_MONTH := 0x08.
Definition RTC_YEAR := 0x09.
Definition RTC_REG_A := 0x0A.
Definition RTC_REG_B := 0x0B.
Definition RTC_REG_C := 0x0C.
Definition RTC_REG_D := 0x0D.
Definition RTC_REG_A_UIP := 0x80.
Definition RTC_REG_A_RS_MASK := 0x0F.
Definition RTC_RATE_0_25Hz := 0x0F.
Definition RTC_REG_B_SET := 0x80.
Definition RTC_REG_B_PIE := 0x40.
Definition RTC_REG_B_AIE := 0x20.
Definition RTC_REG_B_UIE := 0x10.
Definition RTC_REG_B_DM := 0x04.
Definition RTC_REG_B_24HR := 0x02.
Definition RTC_REG_C_PF := 0x40.
Definition RTC_REG_C_AF := 0x20.
Definition RTC_REG_D_VRT := 0x80.
Definition RTC_IRQ := 8.

Record rtc_time_t := mk_time { seconds : Z; minutes : Z; hours : Z; day_of_week : Z; day_of_month : Z; month : Z; year : Z }.

(** ** Conversions *)
Definition bcd_to_binary (bcd : Z) : Z := u8 (Z.land bcd 0x0F + Z.shiftr bcd 4 * 10).
Definition binary_to_bcd (binary : Z) : Z := u8 (Z.lor (Z.shiftl (binary / 10) 4) (binary mod 10)).
Definition time_valid (t : rtc_time_t) : bool :=
  negb ((year t <? 2000) || (2099 <? year t) || (month t <? 1) || (12 <? month t) ||
        (day_of_month t <? 1) || (31 <? day_of_month t) || (23 <? hours t) || (59 <? minutes t) || (59 <? seconds t)).
(** [v &= ~mask] on a byte. *)
Definition clear_bits (v mask : Z) : Z := u8 (Z.land v (Z.lnot mask)).

Section rtc.
Context {H : Type} `{PortIO H}.
Notation M := (machine H drivers).

(** ** Registers *)
Definition cmos_read (reg : Z) : io M Z :=
  outb CMOS_ADDRESS_PORT (Z.lor reg CMOS_NMI_DISABLE);;
  inb CMOS_DATA_PORT.
Definition cmos_write (reg value : Z) : io M unit :=
  outb CMOS_ADDRESS_PORT (Z.lor reg CMOS_NMI_DISABLE);;
  outb CMOS_DATA_PORT value.
Definition rtc_read_register (reg : Z) : io M Z :=
  value ← cmos_read reg;
  r ← get_rtc;
  mret (if negb (rtc_binary_mode r) then bcd_to_binary value else value).
Definition rtc_write_register (reg value : Z) : io M unit :=
  r ← get_rtc;
  cmos_write reg (if negb (rtc_binary_mode r) then binary_to_bcd value else value).
Definition rtc_is_updating : io M bool := v ← cmos_read RTC_REG_A; mret (negb (Z.land v RTC_REG_A_UIP =? 0)).
Definition rtc_is_valid : io M bool := v ← cmos_read RTC_REG_D; mret (negb (Z.land v RTC_REG_D_VRT =? 0)).
Definition rtc_get_interrupt_count : io M Z := gets (rtc_interrupt_count ∘ rtc ∘ drv).

(** ** Interrupts *)
Definition set_count (n : Z) (r : rtc_state) : rtc_state :=
  mk_rtc n (rtc_periodic_callback r) (rtc_periodic_context r) (rtc_alarm_callback r) (rtc_alarm_context r) (rtc_binary_mode r).
Definition set_periodic (fn ctx : Z) (r : rtc_state) : rtc_state :=
  mk_rtc (rtc_interrupt_count r) fn ctx (rtc_alarm_callback r) (rtc_alarm_context r) (rtc_binary_mode r).
Definition set_alarm (fn ctx : Z) (r : rtc_state) : rtc_state :=
  mk_rtc (rtc_interrupt_count r) (rtc_periodic_callback r) (rtc_periodic_context r) fn ctx (rtc_binary_mode r).
Definition set_mode (b : bool) (r : rtc_state) : rtc_state :=
  mk_rtc (rtc_interrupt_count r) (rtc_periodic_callback r) (rtc_periodic_context r) (rtc_alarm_callback r) (rtc_alarm_context r) b.
Definition upd_rtc (f : rtc_state → rtc_state) : io M unit := r ← get_rtc; set_rtc (f r).

Definition rtc_irq_handler (run_callback : Z → Z → io M unit) : io M unit :=
  upd_rtc (λ r, set_count (rtc_interrupt_count r ⊞ 1) r);;
  reg_c ← cmos_read RTC_REG_C;
  when (negb (Z.land reg_c RTC_REG_C_PF =? 0)) (
    r ← get_rtc;
    when (negb (rtc_periodic_callback r =? 0)) (run_callback (rtc_periodic_callback r) (rtc_periodic_context r)));;
  when (negb (Z.land reg_c RTC_REG_C_AF =? 0)) (
    r ← get_rtc;
    when (negb (rtc_alarm_callback r =? 0)) (run_callback (rtc_alarm_callback r) (rtc_alarm_context r)));;
  pic_send_eoi 8.

(** The answer of [rtc_is_valid] is only logged. *)
Definition rtc_init : io M Z :=
  rtc_is_valid;;
  reg_b ← cmos_read RTC_REG_B;
  upd_rtc (set_mode (negb (Z.land reg_b RTC_REG_B_DM =? 0)));;
  let is24 := negb (Z.land reg_b RTC_REG_B_24HR =? 0) in
  let reg_b' := if is24 then reg_b else Z.lor reg_b RTC_REG_B_24HR in
  when (negb is24) (cmos_write RTC_REG_B reg_b');;
  cmos_write RTC_REG_B (clear_bits reg_b' (Z.lor (Z.lor RTC_REG_B_PIE RTC_REG_B_AIE) RTC_REG_B_UIE));;
  set_handler rtc_irq_desc RTC_HANDLER;;
  irq_register_handler 8 rtc_irq_desc.

Definition rtc_enable_periodic (rate_div callback ctx : Z) : io M Z :=
  if RTC_RATE_0_25Hz <? rate_div then mret (-1) else
  upd_rtc (set_periodic callback ctx);;
  pic_disable_irq 8;;
  reg_a ← cmos_read RTC_REG_A;
  reg_b ← cmos_read RTC_REG_B;
  cmos_write RTC_REG_A (Z.lor (Z.land reg_a (Z.lnot RTC_REG_A_RS_MASK)) rate_div);;
  cmos_write RTC_REG_B (Z.lor reg_b RTC_REG_B_PIE);;
  cmos_read RTC_REG_C;;
  pic_enable_irq 8;;
  mret 0.
Definition rtc_disable_periodic : io M unit :=
  pic_disable_irq 8;;
  reg_b ← cmos_read RTC_REG_B;
  cmos_write RTC_REG_B (clear_bits reg_b RTC_REG_B_PIE);;
  upd_rtc (set_periodic 0 0);;
  r ← get_rtc;
  when (negb (rtc_alarm_callback r =? 0)) (pic_enable_irq 8).
Definition rtc_set_alarm (h m s callback ctx : Z) : io M Z :=
  upd_rtc (set_alarm callback ctx);;
  pic_disable_irq 8;;
  rtc_write_register RTC_HOURS_ALARM h;;
  rtc_write_register RTC_MINUTES_ALARM m;;
  rtc_write_register RTC_SECONDS_ALARM s;;
  reg_b ← cmos_read RTC_REG_B;
  cmos_write RTC_REG_B (Z.lor reg_b RTC_REG_B_AIE);;
  cmos_read RTC_REG_C;;
  pic_enable_irq 8;;
  mret 0.
Definition rtc_disable_alarm : io M unit :=
  pic_disable_irq 8;;
  reg_b ← cmos_read RTC_REG_B;
  cmos_write RTC_REG_B (clear_bits reg_b RTC_REG_B_AIE);;
  upd_rtc (set_alarm 0 0);;
  r ← get_rtc;
  when (negb (rtc_periodic_callback r =? 0)) (pic_enable_irq 8).

(** ** Time *)
Fixpoint wait_update (polls : nat) : io M unit :=
  match polls with
  | O => io_fail Hang
  | S n => u ← rtc_is_updating; if u : bool then wait_update n else mret tt
  end.
(** The pointer is not NULL; the check of the values read only logs. *)
Definition rtc_get_time (polls : nat) : io M rtc_time_t :=
  wait_update polls;;
  s ← rtc_read_register RTC_SECONDS;
  mi ← rtc_read_register RTC_MINUTES;
  h ← rtc_read_register RTC_HOURS;
  dw ← rtc_read_register RTC_DAY_OF_WEEK;
  dm ← rtc_read_register RTC_DAY_OF_MONTH;
  mo ← rtc_read_register RTC_MONTH;
  y ← rtc_read_register RTC_YEAR;
  mret (mk_time s mi h dw dm mo (u16 (y + 2000))).
Definition rtc_set_time (polls : nat) (t : rtc_time_t) : io M Z :=
  if negb (time_valid t) then mret (-1) else
  reg_b ← cmos_read RTC_REG_B;
  cmos_write RTC_REG_B (Z.lor reg_b RTC_REG_B_SET);;
  rtc_write_register RTC_SECONDS (seconds t);;
  rtc_write_register RTC_MINUTES (minutes t);;
  rtc_write_register RTC_HOURS (hours t);;
  rtc_write_register RTC_DAY_OF_WEEK (day_of_week t);;
  rtc_write_register RTC_DAY_OF_MONTH (day_of_month t);;
  rtc_write_register RTC_MONTH (month t);;
  rtc_write_register RTC_YEAR (u8 (year t - 2000));;
  cmos_write RTC_REG_B reg_b;;
  wait_update polls;;
  mret 0.
End rtc.

(** ** What the manual of the clock chip promises

    [cmos_quiet]: no update of the clock falls due while the code runs. The chip
    makes one a second, outside of which its registers only change when written. *)
Class CmosLaws (H : Type) `{PortIO H} := {
  cmos_reg : H → Z → Z;
  cmos_sel : H → Z;
  cmos_quiet : H → Prop;
  cmos_select : ∀ v h, cmos_quiet h →
    cmos_quiet (port_outb CMOS_ADDRESS_PORT v h) ∧ cmos_sel (port_outb CMOS_ADDRESS_PORT v h) = Z.land v 0x7F ∧
    ∀ r, cmos_reg (port_outb CMOS_ADDRESS_PORT v h) r = cmos_reg h r;
  cmos_data_read : ∀ h, cmos_quiet h → cmos_sel h ≠ RTC_REG_C →
    fst (port_inb CMOS_DATA_PORT h) = cmos_reg h (cmos_sel h) ∧ cmos_quiet (snd (port_inb CMOS_DATA_PORT h)) ∧
    ∀ r, cmos_reg (snd (port_inb CMOS_DATA_PORT h)) r = cmos_reg h r;
  cmos_data_write : ∀ v h, cmos_quiet h → cmos_sel h ≤ RTC_YEAR ∨ cmos_sel h = RTC_REG_B →
    cmos_quiet (port_outb CMOS_DATA_PORT v h) ∧
    ∀ r, cmos_reg (port_outb CMOS_DATA_PORT v h) r = if r =? cmos_sel h then v else cmos_reg h r;
  cmos_idle : ∀ h, cmos_quiet h → Z.land (u8 (cmos_reg h RTC_REG_A)) RTC_REG_A_UIP = 0 }.

Section laws.
Context {H : Type} `{CmosLaws H}.
Notation M := (machine H drivers).
Implicit Types (m : M) (f : Z → Z).

(** The registers of a machine are [f] and its drivers [d]. *)
Definition cmos_view m f (d : drivers) : Prop := cmos_quiet (hw m) ∧ (∀ r, cmos_reg (hw m) r = f r) ∧ drv m = d.

Lemma select_spec reg m f d : 0 ≤ reg < 128 → cmos_view m f d →
  ∃ m', outb CMOS_ADDRESS_PORT (Z.lor reg CMOS_NMI_DISABLE) m = Ret (tt, m') ∧ cmos_view m' f d ∧ cmos_sel (hw m') = reg.
Proof.
  intros Hr (Hq & Hf & Hd). eexists. split; [reflexivity|]. cbn [hw with_hw port_outb machine_ports].
  destruct (cmos_select (u8 (Z.lor reg CMOS_NMI_DISABLE)) (hw m) Hq) as (Hq' & Hs & Hk).
  assert (u8 (Z.lor reg CMOS_NMI_DISABLE) = reg + 128) as Hu.
  { rewrite u8_small. 2: { apply lor_range; [lia | lia | by split]. } change CMOS_NMI_DISABLE with 128. pose proof (Z.add_lor_land reg 128) as Ha.
    assert (Z.land reg 128 = 0) as Hz; [|lia]. apply Z.bits_inj'. intros i Hi. rewrite Z.land_spec, Z.bits_0. change 128 with (2 ^ 7). rewrite Z.pow2_bits_eqb by lia.
    destruct (Z.eqb_spec 7 i) as [<-|]; [|apply andb_false_r]. by rewrite (testbit_above reg 7) by lia. }
  split; [split; [exact Hq'|]; split; [intros r; cbn; by rewrite Hk | done]|]. cbn. rewrite Hs, Hu. change 127 with (2 ^ 7 - 1). rewrite mask_land by lia.
  symmetry. apply (Z.mod_unique _ _ 1); lia.
Qed.
Lemma cmos_read_spec reg m f d : 0 ≤ reg < 128 → reg ≠ RTC_REG_C → cmos_view m f d →
  ∃ m', cmos_read reg m = Ret (u8 (f reg), m') ∧ cmos_view m' f d.
Proof.
  intros Hr Hc Hv. unfold cmos_read. destruct (select_spec reg m f d Hr Hv) as (m1 & E1 & (Hq & Hf & Hd) & Hs).
  rewrite (io_bind_step _ _ _ _ _ E1). unfold inb. cbn. destruct (cmos_data_read (hw m1) Hq) as (Hv1 & Hq1 & Hk1); [by rewrite Hs|].
  destruct (port_inb CMOS_DATA_PORT (hw m1)) as [v h]. cbn in *. rewrite Hs, Hf in Hv1. subst v. eexists. split; [reflexivity|].
  split; [done|]. split; [|done]. intros r. cbn. by rewrite Hk1.
Qed.
Lemma cmos_write_spec reg v m f d : 0 ≤ reg ≤ RTC_YEAR ∨ reg = RTC_REG_B → cmos_view m f d →
  ∃ m', cmos_write reg v m = Ret (tt, m') ∧ cmos_view m' (<[reg := u8 v]> f) d.
Proof.
  intros Hr Hv. unfold cmos_write. destruct (select_spec reg m f d) as (m1 & E1 & (Hq & Hf & Hd) & Hs); [|done|].
  { unfold RTC_YEAR, RTC_REG_B in Hr. lia. }
  rewrite (io_bind_step _ _ _ _ _ E1). eexists. split; [reflexivity|]. destruct (cmos_data_write (u8 v) (hw m1) Hq) as (Hq1 & Hk1).
  { rewrite Hs. destruct Hr as [Hr|Hr]; [left; lia | by right]. }
  split; [exact Hq1|]. split; [|done]. intros r. cbn. rewrite Hk1, Hs. destruct (Z.eqb_spec r reg) as [->|Hne].
  - by rewrite fn_lookup_insert.
  - by rewrite fn_lookup_insert_ne, Hf.
Qed.
(** How a register stores a value in the mode of the clock. *)
Definition encode (binary : bool) (v : Z) : Z := u8 (if negb binary then binary_to_bcd v else v).
Definition decode (binary : bool) (v : Z) : Z := if negb binary then bcd_to_binary v else v.
Lemma read_register_spec reg m f d : 0 ≤ reg < 128 → reg ≠ RTC_REG_C → cmos_view m f d →
  ∃ m', rtc_read_register reg m = Ret (decode (rtc_binary_mode (rtc d)) (u8 (f reg)), m') ∧ cmos_view m' f d.
Proof.
  intros Hr Hc Hv. destruct (cmos_read_spec reg m f d Hr Hc Hv) as (m1 & E1 & Hv1). exists m1. split; [|done].
  unfold rtc_read_register. rewrite (io_bind_step _ _ _ _ _ E1). unfold get_rtc, gets, mbind, io_bind, mret, io_ret.
  destruct Hv1 as (_ & _ & <-). done.
Qed.
Lemma write_register_spec reg v m f d : 0 ≤ reg ≤ RTC_YEAR → cmos_view m f d →
  ∃ m', rtc_write_register reg v m = Ret (tt, m') ∧ cmos_view m' (<[reg := encode (rtc_binary_mode (rtc d)) v]> f) d.
Proof.
  intros Hr Hv. destruct (cmos_write_spec reg (if negb (rtc_binary_mode (rtc d)) then binary_to_bcd v else v) m f d) as (m1 & E1 & Hv1); [by left | done |].
  exists m1. split; [|done]. unfold rtc_write_register, get_rtc, gets, mbind, io_bind. destruct Hv as (_ & _ & <-). exact E1.
Qed.
Lemma wait_update_spec polls m f d : (0 < polls)%nat → cmos_view m f d → ∃ m', wait_update polls m = Ret (tt, m') ∧ cmos_view m' f d.
Proof.
  intros Hp Hv. destruct polls as [|n]; [lia|]. cbn [wait_update]. unfold rtc_is_updating.
  destruct (cmos_read_spec RTC_REG_A m f d) as (m1 & E1 & Hv1); [done | done | done |]. exists m1. split; [|done].
  rewrite (io_bind_step _ _ _ _ _ (io_bind_step _ _ _ _ _ E1)). destruct Hv1 as (Hq & Hf & _).
  pose proof (cmos_idle _ Hq) as Hi. rewrite Hf in Hi. by rewrite Hi.
Qed.

Lemma decode_encode binary v : 0 ≤ v < 100 → decode binary (u8 (encode binary v)) = v.
Proof.
  intros Hv. assert (Forall (λ v, decode binary (u8 (encode binary v)) = v) (seqZ 0 100)) as Hall.
  { destruct binary; apply (bool_decide_unpack _); vm_compute; exact I. }
  rewrite Forall_forall in Hall. apply Hall, elem_of_seqZ. lia.
Qed.

(** One register access of a longer sequence. *)
Ltac rtc_write := lazymatch goal with
  |- context [(rtc_write_register ?r ?v ≫= _) ?m] =>
    let m' := fresh "m" in let E := fresh "E" in
    lazymatch goal with Hv : cmos_view m ?f ?d |- _ =>
      destruct (write_register_spec r v m f d ltac:(by vm_compute) Hv) as (m' & E & ?); rewrite (io_bind_step _ _ _ _ _ E); clear E Hv end end.
Ltac rtc_read := lazymatch goal with
  |- context [(rtc_read_register ?r ≫= _) ?m] =>
    let m' := fresh "m" in let E := fresh "E" in
    lazymatch goal with Hv : cmos_view m ?f ?d |- _ =>
      destruct (read_register_spec r m f d ltac:(by vm_compute) ltac:(done) Hv) as (m' & E & ?); rewrite (io_bind_step _ _ _ _ _ E); clear E Hv end end.

(** The registers after [rtc_set_time]: the seven of the time are written, the
    others, the control register among them, are as before. *)
Definition time_regs (b : bool) (t : rtc_time_t) f : Z → Z :=
  <[RTC_YEAR := encode b (u8 (year t - 2000))]> (<[RTC_MONTH := encode b (month t)]> (<[RTC_DAY_OF_MONTH := encode b (day_of_month t)]>
  (<[RTC_DAY_OF_WEEK := encode b (day_of_week t)]> (<[RTC_HOURS := encode b (hours t)]> (<[RTC_MINUTES := encode b (minutes t)]>
  (<[RTC_SECONDS := encode b (seconds t)]> f)))))).
Lemma rtc_set_time_spec polls t m f d : (0 < polls)%nat → time_valid t = true → cmos_view m f d →
  ∃ m' f', rtc_set_time polls t m = Ret (0, m') ∧ cmos_view m' f' d ∧
    ∀ r, f' r = if r =? RTC_REG_B then u8 (f RTC_REG_B) else time_regs (rtc_binary_mode (rtc d)) t f r.
Proof.
  intros Hp Ht Hv. unfold rtc_set_time. rewrite Ht. cbn [negb].
  destruct (cmos_read_spec RTC_REG_B m f d) as (m1 & E1 & Hv1); [done | done | done |]. rewrite (io_bind_step _ _ _ _ _ E1). clear Hv E1.
  destruct (cmos_write_spec RTC_REG_B (Z.lor (u8 (f RTC_REG_B)) RTC_REG_B_SET) m1 f d) as (m2 & E2 & Hv2); [by right | done |].
  rewrite (io_bind_step _ _ _ _ _ E2). clear Hv1 E2. do 7 rtc_write.
  match goal with Hv : cmos_view ?mm ?g d |- _ =>
    destruct (cmos_write_spec RTC_REG_B (u8 (f RTC_REG_B)) mm g d) as (mb & Eb & Hvb); [by right | done |] end.
  rewrite (io_bind_step _ _ _ _ _ Eb). destruct (wait_update_spec polls mb _ d Hp Hvb) as (mc & Ec & Hvc).
  rewrite (io_bind_step _ _ _ _ _ Ec). eexists mc, _. split; [reflexivity|]. split; [exact Hvc|].
  intros r. unfold time_regs. destruct (Z.eqb_spec r RTC_REG_B) as [->|Hne].
  - rewrite fn_lookup_insert. unfold u8. by rewrite !Zmod_mod.
  - rewrite fn_lookup_insert_ne by done. unfold insert, fn_insert. repeat case_decide; done.
Qed.
Lemma rtc_get_time_spec polls m f d : (0 < polls)%nat → cmos_view m f d →
  let v r := decode (rtc_binary_mode (rtc d)) (u8 (f r)) in
  ∃ m', rtc_get_time polls m = Ret (mk_time (v RTC_SECONDS) (v RTC_MINUTES) (v RTC_HOURS) (v RTC_DAY_OF_WEEK) (v RTC_DAY_OF_MONTH)
    (v RTC_MONTH) (u16 (v RTC_YEAR + 2000)), m') ∧ cmos_view m' f d.
Proof.
  intros Hp Hv v. unfold rtc_get_time. destruct (wait_update_spec polls m f d Hp Hv) as (m1 & E1 & Hv1).
  rewrite (io_bind_step _ _ _ _ _ E1). clear Hv E1. do 7 rtc_read. eexists. split; [reflexivity|]. done.
Qed.

(** While no update of the clock falls due, a time that [rtc_set_time] accepts is
    the one [rtc_get_time] returns, in both number formats of the clock; the alarm
    and control registers are as before. Any other time is refused and nothing
    is changed. *)
Theorem rtc_time_roundtrip polls t m :
  (0 < polls)%nat → cmos_quiet (hw m) →
  0 ≤ seconds t → 0 ≤ minutes t → 0 ≤ hours t → 1 ≤ day_of_week t ≤ 7 →
  if time_valid t then
    ∃ m1 m2, rtc_set_time polls t m = Ret (0, m1) ∧ rtc_get_time polls m1 = Ret (t, m2) ∧ drv m1 = drv m ∧
      ∀ r, r ∈ [RTC_SECONDS_ALARM; RTC_MINUTES_ALARM; RTC_HOURS_ALARM; RTC_REG_A; RTC_REG_D] → cmos_reg (hw m1) r = cmos_reg (hw m) r
  else rtc_set_time polls t m = Ret (-1, m).
Proof.
  intros Hp Hq Hs Hmi Hh Hdw. destruct (time_valid t) eqn:Ht; [|unfold rtc_set_time; by rewrite Ht].
  assert (cmos_view m (cmos_reg (hw m)) (drv m)) as Hv by done.
  destruct (rtc_set_time_spec polls t m _ _ Hp Ht Hv) as (m1 & f' & E1 & Hv1 & Hf').
  destruct (rtc_get_time_spec polls m1 f' (drv m) Hp Hv1) as (m2 & E2 & Hv2). exists m1, m2. split; [done|]. split; [|split].
  - rewrite E2. do 2 f_equal. unfold time_valid in Ht. assert (2000 ≤ year t ≤ 2099 ∧ 1 ≤ month t ≤ 12 ∧ 1 ≤ day_of_month t ≤ 31 ∧
      hours t ≤ 23 ∧ minutes t ≤ 59 ∧ seconds t ≤ 59) as Hr by lia. clear Ht. set (b := rtc_binary_mode (rtc (drv m))) in *.
    replace (f' RTC_SECONDS) with (encode b (seconds t)) by (by rewrite Hf'). replace (f' RTC_MINUTES) with (encode b (minutes t)) by (by rewrite Hf').
    replace (f' RTC_HOURS) with (encode b (hours t)) by (by rewrite Hf'). replace (f' RTC_DAY_OF_WEEK) with (encode b (day_of_week t)) by (by rewrite Hf').
    replace (f' RTC_DAY_OF_MONTH) with (encode b (day_of_month t)) by (by rewrite Hf'). replace (f' RTC_MONTH) with (encode b (month t)) by (by rewrite Hf').
    replace (f' RTC_YEAR) with (encode b (u8 (year t - 2000))) by (by rewrite Hf').
    rewrite (u8_small (year t - 2000)) by lia. rewrite !decode_encode by lia. unfold u16. rewrite Z.mod_small by lia. destruct t; cbn. f_equal; lia.
  - by destruct Hv1 as (_ & _ & ->).
  - intros r Hr. destruct Hv1 as (_ & Hf1 & _). rewrite Hf1, Hf'. unfold time_regs, insert, fn_insert.
    repeat (apply elem_of_cons in Hr as [->|Hr]; [reflexivity|]). by apply elem_of_nil in Hr.
Qed.
End laws.
End Rtc.
