(* ===== verification/Devices.v ===== *)
(** * The drivers together: handlers, types, the keyboard's queue

    The handlers the drivers register ([run_irq] is the meaning of the function
    pointers), the invariant that every driver operation preserves whatever the
    devices answer, the queue the keyboard implements, and a board of devices that
    satisfies the laws of [PicLaws] and [CmosLaws]. *)
From stdpp Require Import functions.
From S2P Require Import Prelude Ports Desc Irq Ring Drivers Rtc.
Import Pic Irq Ring Drivers Rtc.

Module Devices.

(** ** A board

    Two interrupt controllers, the registers of a clock that is between updates,
    a keyboard with the scancodes still to be read, a serial port that records
    what it sends, is always ready and says why it interrupts. *)
Record board := mk_board {
  b_pic : bool → pic8259; b_cmos : Z → Z; b_sel : Z; b_keys : list Z; b_iir : Z; b_ier : Z; b_sent : list Z }.
Definition with_pic (c : bool) (x : pic8259) (b : board) : board :=
  mk_board (<[c := x]> (b_pic b)) (b_cmos b) (b_sel b) (b_keys b) (b_iir b) (b_ier b) (b_sent b).
Definition board_in (p : Z) (b : board) : Z * board :=
  if p =? PIC1_DATA then (imr (b_pic b false), b) else
  if p =? PIC2_DATA then (imr (b_pic b true), b) else
  if p =? CMOS_DATA_PORT then (b_cmos b (b_sel b), b) else
  if p =? KEYBOARD_STATUS_PORT then (match b_keys b with [] => 0 | _ => 1 end, b) else
  if p =? KEYBOARD_DATA_PORT then
    (default 0 (list.head (b_keys b)), mk_board (b_pic b) (b_cmos b) (b_sel b) (list.tail (b_keys b)) (b_iir b) (b_ier b) (b_sent b)) else
  if p =? SERIAL_INT_ID_REG base then (b_iir b, b) else
  if p =? SERIAL_INT_ENABLE_REG base then (b_ier b, b) else
  if p =? SERIAL_LINE_STATUS_REG base then (SERIAL_LSR_THRE, b) else (0, b).
Definition board_cmd (c : bool) (v : Z) (b : board) : board :=
  if v =? PIC_INIT then with_pic c (chip_start (b_pic b c)) b else
  if v =? PIC_EOI then with_pic c (chip_eoi (b_pic b c)) b else b.
Definition board_out (p v : Z) (b : board) : board :=
  if p =? PIC1_CMD then board_cmd false v b else
  if p =? PIC2_CMD then board_cmd true v b else
  if p =? PIC1_DATA then with_pic false (chip_data v (b_pic b false)) b else
  if p =? PIC2_DATA then with_pic true (chip_data v (b_pic b true)) b else
  if p =? CMOS_ADDRESS_PORT then mk_board (b_pic b) (b_cmos b) (Z.land v 0x7F) (b_keys b) (b_iir b) (b_ier b) (b_sent b) else
  if p =? CMOS_DATA_PORT then mk_board (b_pic b) (<[b_sel b := v]> (b_cmos b)) (b_sel b) (b_keys b) (b_iir b) (b_ier b) (b_sent b) else
  if p =? SERIAL_DATA_REG base then mk_board (b_pic b) (b_cmos b) (b_sel b) (b_keys b) (b_iir b) (b_ier b) (b_sent b ++ [v]) else
  if p =? SERIAL_INT_ENABLE_REG base then mk_board (b_pic b) (b_cmos b) (b_sel b) (b_keys b) (b_iir b) v (b_sent b) else b.
#[export] Instance board_ports : PortIO board := {
  port_inb := board_in; port_outb := board_out; port_inw _ b := (0, b); port_outw _ _ b := b }.

Ltac board_cases := repeat match goal with
  |- context [if ?a =? ?b then _ else _] => destruct (Z.eqb_spec a b) as [?E|?E]; try (exfalso; subst; done) end.
#[export] Instance board_pic_laws : PicLaws board.
Proof.
  refine {| pic c (b : board) := b_pic b c |}.
  - intros [|] b _; reflexivity.
  - intros p c b _ _. cbn. unfold board_in. by board_cases.
  - intros [|] b; cbn; unfold with_pic; cbn; by rewrite fn_lookup_insert.
  - intros [|] b; cbn; unfold with_pic; cbn; by rewrite fn_lookup_insert.
  - intros [|] v b; cbn; by rewrite fn_lookup_insert.
  - intros p v c b Hc Hd. cbn. unfold board_out, board_cmd, with_pic. destruct c; board_cases; cbn; try done; by rewrite fn_lookup_insert_ne.
  - done.
Defined.
#[export] Instance board_cmos_laws : CmosLaws board.
Proof.
  refine {| cmos_reg := b_cmos; cmos_sel := b_sel; cmos_quiet b := Z.land (u8 (b_cmos b RTC_REG_A)) RTC_REG_A_UIP = 0 |}.
  - intros v b Hq. done.
  - intros b Hq _. done.
  - intros v b Hq Hs. cbn. split.
    + rewrite fn_lookup_insert_ne; [done|]. unfold RTC_YEAR, RTC_REG_A, RTC_REG_B in *. lia.
    + intros r. destruct (Z.eqb_spec r (b_sel b)) as [->|Hne]; [by rewrite fn_lookup_insert | by rewrite fn_lookup_insert_ne].
  - done.
Defined.

Definition boot_pic : pic8259 := mk_pic 0 0 8 0 0 0.
Definition demo_board (keys : list Z) (iir : Z) : board := mk_board (λ _, boot_pic) (λ r, if r =? RTC_REG_B then 2 else 0) 0 keys iir 0 [].
Definition boot_descs : gmap Z irq_descriptor_t :=
  list_to_map [(keyboard_irq_desc, mk_desc 0 0 IRQ_FLAG_NONE 0); (uart_irq_desc, mk_desc UART_HANDLER 0 IRQ_FLAG_NONE 0);
               (timer_irq_desc, mk_desc 0 0 0 0); (rtc_irq_desc, mk_desc 0 0 IRQ_FLAG_NONE 0)].
Definition boot_machine {H} (h : H) : machine H drivers :=
  mk_machine h false [] None (replicate 256 0) (replicate 16 (mk_entry 0 false)) boot_descs drivers_boot.

Lemma rtc_time_roundtrip_witness :
  let t := mk_time 59 30 23 7 31 12 2099 in let m := boot_machine (demo_board [] 1) in
  ∃ m1 m2, rtc_set_time 1 t m = Ret (0, m1) ∧ rtc_get_time 1 m1 = Ret (t, m2).
Proof.
  intros t m. pose proof (rtc_time_roundtrip 1 t m ltac:(lia) ltac:(reflexivity) ltac:(cbn; lia) ltac:(cbn; lia) ltac:(cbn; lia) ltac:(cbn; lia)) as Hr.
  change (time_valid t) with true in Hr. cbn iota in Hr. destruct Hr as (m1 & m2 & E1 & E2 & _). exists m1, m2. by split.
Defined.
Lemma interrupt_init_routes_witness :
  ∃ m', interrupt_init 0x9000 (seqZ 0x100000 32) (seqZ 0x200000 16) (boot_machine (demo_board [] 1)) = Ret (tt, m') ∧
    line_masked 14 m' = true ∧ Desc.decode_gate <$> zlookup (idt m') (vector_base (pic true m') + 6) = Some (Desc.kernel_gate 0x20000E 0xE 0).
Proof.
  destruct (interrupt_init_routes 0x9000 (seqZ 0x100000 32) (seqZ 0x200000 16) (boot_machine (demo_board [] 1))) as (m' & E & _ & _ & Hr);
    [by intros [|] | reflexivity | reflexivity | apply (bool_decide_unpack _); vm_compute; exact I | apply (bool_decide_unpack _); vm_compute; exact I |].
  exists m'. split; [exact E|]. destruct (Hr 14) as [Hm Hg]; [lia|]. split; [exact Hm|exact Hg].
Defined.

Lemma boot_irq_wf {H} (h : H) : irq_wf (boot_machine h).
Proof.
  split; [done|]. split; [done|]. intros i d Hr. exfalso. revert Hr. unfold registered, boot_machine. cbn [irq_table].
  destruct (zlookup (replicate 16 (mk_entry 0 false)) i) as [e|] eqn:He; [|done]. unfold zlookup in He. destruct (i <? 0); [done|].
  by apply lookup_replicate in He as [-> _].
Qed.
(** The serial port's descriptor on line 4, with a handler that does nothing. *)
Lemma irq_register_dispatch_witness :
  ∃ m1 m3, irq_register_handler 4 uart_irq_desc (boot_machine (demo_board [] 1)) = Ret (0, m1) ∧
    interrupt_handler (λ _ _, mret tt) (λ _ _, mret tt) 36 0 m1 = Ret (tt, m3) ∧ pic false m3 = chip_eoi (pic false m1).
Proof.
  set (m := boot_machine (demo_board [] 1)). set (x := mk_desc UART_HANDLER 0 IRQ_FLAG_NONE 0).
  set (m1 := with_table (zinsert (irq_table m) 4 (mk_entry uart_irq_desc true)) m).
  destruct (irq_register_dispatch (λ _ _, mret tt) (λ _ _, mret tt) 4 0 uart_irq_desc x m m1 (counted uart_irq_desc x m1) (mk_desc UART_HANDLER 0 IRQ_FLAG_NONE 1))
    as (_ & _ & m3 & E & _ & _ & Hp); [apply boot_irq_wf | lia | reflexivity | reflexivity | reflexivity | reflexivity |].
  exists m1, m3. split; [reflexivity|]. split; [exact E|]. exact (Hp false).
Defined.

(** ** The keyboard as a bounded queue *)
Record kbd := mk_kbd { queue : list Z; shift : bool; caps : bool }.
Definition char_of (a : kbd) (sc : Z) : Z :=
  match scancode_to_ascii (mk_kb (ring_init 256) (shift a) (caps a) true) sc with Ret c => c | Fail _ => 0 end.
(** A key event: a modifier changes the mode, a key that stands for a character puts
    it at the end of the queue if there is room for it. *)
Definition key_event (sc : Z) (a : kbd) : kbd :=
  let make := Z.land sc 0x80 =? 0 in
  let code := Z.land sc 0x7F in
  if (code =? SCANCODE_LSHIFT) || (code =? SCANCODE_RSHIFT) then mk_kbd (queue a) make (caps a) else
  if code =? SCANCODE_CAPSLOCK then mk_kbd (queue a) (shift a) (if make then negb (caps a) else caps a) else
  if make && negb (char_of a sc =? 0) && (Z.of_nat (length (queue a)) <? 255) then mk_kbd (queue a ++ [char_of a sc]) (shift a) (caps a) else a.
Definition kb_rep (k : kb_state) (a : kbd) : Prop :=
  is_ring 256 (kb_buffer k) (queue a) ∧ kb_shift_pressed k = shift a ∧ kb_caps_lock k = caps a.

Section keyboard.
Context {H : Type} `{PortIO H}.
Notation M := (machine H drivers).
Implicit Types (m : M) (a : kbd).
Definition keyboard_rep m a : Prop := kb_rep (kb (drv m)) a.

Lemma keyboard_key_spec sc m a : 0 ≤ sc → keyboard_rep m a →
  ∃ m', keyboard_key sc m = Ret (tt, m') ∧ keyboard_rep m' (key_event sc a) ∧ descs m' = descs m.
Proof.
  intros Hsc (Hr & Hs & Hc). unfold keyboard_key, key_event, get_kb, gets, mbind at 1, io_bind at 1. cbn [compose]. change SCANCODE_BREAK_MASK with 0x80.
  set (k := kb (drv m)) in *. destruct ((Z.land sc 0x7F =? SCANCODE_LSHIFT) || (Z.land sc 0x7F =? SCANCODE_RSHIFT)).
  { eexists. split; [reflexivity|]. split; [|done]. split; [done|]. split; [apply negb_involutive | done]. }
  destruct (Z.land sc 0x7F =? SCANCODE_CAPSLOCK).
  { unfold when. rewrite negb_involutive. destruct (Z.land sc 128 =? 0); (eexists; split; [reflexivity|]; split; [|done]); split; try done. split; [done|]. cbn. by rewrite Hc. }
  unfold when at 1. rewrite negb_involutive. destruct (Z.land sc 128 =? 0) eqn:Hmk; cbn [andb]; [|by exists m].
  destruct (scancode_to_ascii_ok k sc Hsc) as (c & Ec & _).
  assert (char_of a sc = c) as Hch.
  { unfold char_of. unfold scancode_to_ascii in *. cbn [kb_shift_pressed kb_caps_lock]. rewrite Hs, Hc in Ec. by rewrite Ec. }
  rewrite Ec, Hch. unfold lift, mbind at 1, io_bind at 1. change KEYBOARD_BUFFER_SIZE with 256. rewrite (ring_is_full_spec 256 ltac:(lia) (kb_buffer k) (queue a)) by done.
  pose proof Hr as (_ & Hq & _). pose proof (Z.mod_pos_bound (Ring.head (kb_buffer k) - Ring.tail (kb_buffer k)) 256 ltac:(lia)) as Hb. rewrite <- Hq in Hb.
  replace (negb (Z.of_nat (length (queue a)) =? 256 - 1)) with (Z.of_nat (length (queue a)) <? 255) by lia.
  unfold when. destruct (c =? 0); cbn [negb andb]; [by exists m|]. destruct (Z.ltb_spec (Z.of_nat (length (queue a))) 255); [|by exists m].
  destruct (ring_write_spec 256 ltac:(lia) c (kb_buffer k) (queue a) Hr ltac:(lia)) as (r & Er & Hr').
  change KEYBOARD_BUFFER_SIZE with 256. unfold mbind, io_bind. rewrite Er. eexists. split; [reflexivity|]. by split.
Qed.

(** C39: the keyboard driver is a queue of at most 255 characters. Whatever the
    controller answers, the interrupt handler turns the scancode it reads into one
    key event, or does nothing when there is none; [keyboard_try_getchar] takes the
    oldest character and restores the interrupt flag it found. *)
Theorem keyboard_refines_queue m a status sc h1 h2 : keyboard_rep m a → is_Some (descs m !! keyboard_irq_desc) →
  port_inb KEYBOARD_STATUS_PORT (hw m) = (status, h1) → port_inb KEYBOARD_DATA_PORT h1 = (sc, h2) →
  (∃ m', keyboard_irq_handler m = Ret (tt, m') ∧
    keyboard_rep m' (if Z.land (u8 status) KBD_STATUS_OUTPUT_FULL =? 0 then a else key_event (u8 sc) a)) ∧
  (∃ m', keyboard_try_getchar m = Ret (list.head (queue a), m') ∧ keyboard_rep m' (mk_kbd (list.tail (queue a)) (shift a) (caps a)) ∧
    if_flag m' = if_flag m) ∧
  keyboard_haschar m = Ret (bool_decide (queue a ≠ []), m) ∧ Z.of_nat (length (queue a)) ≤ 255.
Proof.
  intros Hr [x Hx] E1 E2. split; [|split; [|split]].
  - unfold keyboard_irq_handler, inb, mbind, io_bind. cbn [port_inb machine_ports]. rewrite E1.
    destruct (Z.land (u8 status) KBD_STATUS_OUTPUT_FULL =? 0); [eexists; split; [reflexivity|]; done|]. cbn [hw with_hw]. rewrite E2.
    destruct (keyboard_key_spec (u8 sc) (with_hw h2 (with_hw h1 m)) a) as (m1 & E3 & Hr1 & Hd1); [apply u8_range | done |]. rewrite E3.
    unfold count_invocation, get_desc, gets, lift, mbind, io_bind. rewrite Hd1. cbn [descs with_hw]. rewrite Hx. cbn [access].
    eexists. split; [reflexivity|]. done.
  - pose proof Hr as (Hring & Hsh & Hca). unfold keyboard_try_getchar, get_kb, gets, mbind, io_bind. cbn [compose].
    rewrite (ring_is_empty_spec 256 ltac:(lia) _ _ Hring). destruct (queue a) as [|c q] eqn:Eq.
    + rewrite bool_decide_true by done. exists m. split; [done|]. split; [|done]. split; [by cbn|]. done.
    + rewrite bool_decide_false by done. destruct (ring_read_spec 256 ltac:(lia) _ _ _ Hring) as (r & Er & Hr').
      unfold keyboard_take, saved_cli, is_intr_enabled, interrupt_disable, get_kb, gets, modify, lift, mbind, io_bind. cbn [compose].
      cbn [drv with_if]. change KEYBOARD_BUFFER_SIZE with 256. rewrite Er. unfold set_kb, modify, when, interrupt_enable, mret, io_ret.
      destruct (if_flag m) eqn:Hif; (eexists; split; [reflexivity|]; split; [|done]); by split.
  - destruct Hr as (Hring & _). unfold keyboard_haschar, get_kb, gets, mbind, io_bind, mret, io_ret. cbn [compose].
    rewrite (ring_is_empty_spec 256 ltac:(lia) _ _ Hring). by rewrite bool_decide_not.
  - destruct Hr as ((_ & Hq & _) & _). rewrite Hq. pose proof (Z.mod_pos_bound (Ring.head (kb_buffer (kb (drv m))) - Ring.tail (kb_buffer (kb (drv m)))) 256 ltac:(lia)). lia.
Qed.
End keyboard.
Lemma keyboard_refines_queue_witness :
  let m := boot_machine (demo_board [0x2A; 0x1E] 1) in
  ∃ m', keyboard_irq_handler m = Ret (tt, m') ∧ keyboard_rep m' (mk_kbd [] true false).
Proof.
  intros m. destruct (keyboard_refines_queue m (mk_kbd [] false false) 1 0x2A (hw m) (mk_board (b_pic (hw m)) (b_cmos (hw m)) (b_sel (hw m)) [0x1E] 1 0 []))
    as (Hh & _).
  - split; [apply (ring_init_spec 256); lia|]. done.
  - by exists (mk_desc 0 0 IRQ_FLAG_NONE 0).
  - reflexivity.
  - reflexivity.
  - exact Hh.
Defined.

(** Caps Lock leaves the letters of the lowest row alone and shifts the brackets. *)
Theorem caps_lock_wrong_keys :
  char_of (mk_kbd [] false true) 0x10 = 81 (* Q *) ∧ char_of (mk_kbd [] false true) 0x2C = 122 (* z *) ∧
  char_of (mk_kbd [] false true) 0x1A = 123 (* { *).
Proof. repeat split. Qed.

(** ** Every operation, in any order *)
Section calls.
Context {H : Type} `{PortIO H}.
Notation M := (machine H drivers).
(** What the drivers call back: the timer's callback with the tick count, the clock's
    with their context. *)
Context (run_callback : Z → Z → io M unit).

(** The handlers behind the function pointers of the descriptors. *)
Definition run_irq (polls : nat) (fn ctx : Z) : io M unit :=
  if fn =? KEYBOARD_HANDLER then keyboard_irq_handler else
  if fn =? UART_HANDLER then uart_irq_handler polls else
  if fn =? TIMER_HANDLER then timer_irq_handler run_callback else
  if fn =? RTC_HANDLER then rtc_irq_handler run_callback else io_fail Fault.

Inductive event := EKeyboard | ESerial (polls : nat) | ETimer | EClock.
Definition run_event (e : event) : io M unit :=
  match e with
  | EKeyboard => keyboard_irq_handler
  | ESerial n => uart_irq_handler n
  | ETimer => timer_irq_handler run_callback
  | EClock => rtc_irq_handler run_callback
  end.
Fixpoint run_events (es : list event) : io M unit :=
  match es with [] => mret tt | e :: r => run_event e;; run_events r end.

(** The operations the drivers offer; those that wait name the interrupts that
    arrive while they do. *)
Inductive call :=
  | CInterrupt (e : event)
  | CKeyboardInit (n : nat) | CKeyboardHas | CKeyboardTry | CKeyboardGet (es : list event) (n : nat) | CKeyboardCount
  | CSerialInit | CSyncPuts (n : nat) (str : list Z)
  | CUartInit | CAsyncPuts (es : list event) (n : nat) (str : list Z) | CUartHas | CUartTry | CUartGet (es : list event) (n : nat) | CEcho (b : bool)
  | CTimerInit (f : Z) | CTimerFrequency (f : Z) | CTimerCallback (fn : Z) | CTimerDelay (es : list event) (n : nat) (ms : Z)
  | CClockInit | CPeriodic (rate fn ctx : Z) | CPeriodicOff | CAlarm (h mi s fn ctx : Z) | CAlarmOff
  | CGetTime (n : nat) | CSetTime (n : nat) (t : rtc_time_t).
Definition run_call (c : call) : io M unit :=
  match c with
  | CInterrupt e => run_event e
  | CKeyboardInit n => keyboard_init n;; mret tt
  | CKeyboardHas => keyboard_haschar;; mret tt
  | CKeyboardTry => keyboard_try_getchar;; mret tt
  | CKeyboardGet es n => keyboard_getchar (run_events es) n;; mret tt
  | CKeyboardCount => keyboard_get_interrupt_count;; mret tt
  | CSerialInit => serial_init;; mret tt
  | CSyncPuts n str => sync_serial_puts n str
  | CUartInit => uart_init_intr_mode;; mret tt
  | CAsyncPuts es n str => async_serial_puts (run_events es) n str
  | CUartHas => uart_haschar;; mret tt
  | CUartTry => uart_try_getchar;; mret tt
  | CUartGet es n => uart_getchar (run_events es) n;; mret tt
  | CEcho b => uart_set_echo b
  | CTimerInit f => timer_init f;; mret tt
  | CTimerFrequency f => timer_set_frequency f;; mret tt
  | CTimerCallback fn => timer_set_callback fn
  | CTimerDelay es n ms => timer_mdelay (run_events es) n ms
  | CClockInit => rtc_init;; mret tt
  | CPeriodic r fn ctx => rtc_enable_periodic r fn ctx;; mret tt
  | CPeriodicOff => rtc_disable_periodic
  | CAlarm h mi s fn ctx => rtc_set_alarm h mi s fn ctx;; mret tt
  | CAlarmOff => rtc_disable_alarm
  | CGetTime n => rtc_get_time n;; mret tt
  | CSetTime n t => rtc_set_time n t;; mret tt
  end.
Fixpoint run_calls (cs : list call) : io M unit :=
  match cs with [] => mret tt | c :: r => run_call c;; run_calls r end.

Context (Hcb : ∀ fn x, typed (run_callback fn x)).
Lemma typed_set_rtc r : typed (H := H) (set_rtc r).
Proof. by intros m (Hl & Hd & Hk & Hu). Qed.
Lemma typed_cmos_read r : typed (H := H) (cmos_read r).
Proof. unfold cmos_read. typed. Qed.
Lemma typed_cmos_write r v : typed (H := H) (cmos_write r v).
Proof. unfold cmos_write. typed. Qed.
Lemma typed_upd_rtc f : typed (H := H) (upd_rtc f).
Proof. unfold upd_rtc. apply typed_bind; [apply typed_gets|]. intros r. apply typed_set_rtc. Qed.
Lemma typed_set_handler d fn : d ∈ [keyboard_irq_desc; uart_irq_desc; timer_irq_desc; rtc_irq_desc] → typed (H := H) (set_handler d fn).
Proof. intros Hd. unfold set_handler. apply typed_bind; [by apply typed_get_desc|]. intros x. apply typed_set_desc. Qed.
Ltac typed_rtc := repeat first
  [ apply typed_cmos_read | apply typed_cmos_write | apply typed_upd_rtc | apply typed_set_rtc | apply typed_set_handler; set_solver | apply Hcb | typed_step ].
Lemma typed_read_register r : typed (H := H) (rtc_read_register r).
Proof. unfold rtc_read_register. typed_rtc. Qed.
Lemma typed_write_register r v : typed (H := H) (rtc_write_register r v).
Proof. unfold rtc_write_register. typed_rtc. Qed.
Lemma wait_update_typed n : typed (H := H) (wait_update n).
Proof. induction n as [|n IH]; cbn [wait_update]; [apply typed_hang|]. unfold rtc_is_updating. typed_rtc. exact IH. Qed.
Lemma run_event_typed e : typed (run_event e).
Proof.
  destruct e; cbn [run_event]; [apply keyboard_irq_typed | apply uart_irq_typed | unfold timer_irq_handler | unfold rtc_irq_handler]; typed_rtc.
Qed.
Lemma run_events_typed es : typed (run_events es).
Proof. induction es as [|e es IH]; cbn [run_events]; [apply typed_ret|]. apply typed_bind; [apply run_event_typed | by intros _]. Qed.
Lemma pit_typed f : f ≠ 0 → typed (H := H) (pit_set_frequency f).
Proof. intros Hf. unfold pit_set_frequency. rewrite (proj2 (Z.eqb_neq f 0) Hf). typed. Qed.
Lemma timer_wait_typed es target n : typed (timer_wait (run_events es) target n).
Proof. induction n as [|n IH]; cbn [timer_wait]; typed; first [apply run_events_typed | exact IH]. Qed.
Lemma run_call_typed c : typed (run_call c).
Proof.
  destruct c; cbn [run_call]; try (apply typed_bind; [|intros _; apply typed_ret]).
  - apply run_event_typed.
  - apply keyboard_init_typed.
  - unfold keyboard_haschar. typed.
  - apply keyboard_try_getchar_typed.
  - apply keyboard_getchar_typed, run_events_typed.
  - unfold keyboard_get_interrupt_count. typed.
  - apply serial_init_typed.
  - apply sync_serial_puts_typed.
  - apply uart_init_typed.
  - apply async_serial_puts_typed, run_events_typed.
  - unfold uart_haschar. typed.
  - apply uart_try_getchar_typed.
  - apply uart_getchar_typed, run_events_typed.
  - unfold uart_set_echo. typed.
  - unfold timer_init. repeat first [apply pit_typed | typed_step]. unfold TIMER_DEFAULT_FREQUENCY. destruct (Z.eqb_spec f 0); lia.
  - unfold timer_set_frequency. destruct (Z.ltb_spec f 18), (Z.ltb_spec PIT_BASE_FREQUENCY f); cbn [orb];
      repeat first [apply pit_typed | typed_step]; lia.
  - unfold timer_set_callback. typed.
  - unfold timer_mdelay. apply typed_bind; [apply typed_gets|]. intros t. apply timer_wait_typed.
  - unfold rtc_init, rtc_is_valid. typed_rtc.
  - unfold rtc_enable_periodic. typed_rtc.
  - unfold rtc_disable_periodic. typed_rtc.
  - unfold rtc_set_alarm. repeat first [apply typed_write_register | typed_rtc].
  - unfold rtc_disable_alarm. typed_rtc.
  - unfold rtc_get_time. apply typed_bind; [apply wait_update_typed|]. intros _.
    do 7 (apply typed_bind; [apply typed_read_register|]; intros ?). apply typed_ret.
  - unfold rtc_set_time. destruct (negb (time_valid t)); [apply typed_ret|]. apply typed_bind; [apply typed_cmos_read|]. intros b.
    apply typed_bind; [apply typed_cmos_write|]. intros _. do 7 (apply typed_bind; [apply typed_write_register|]; intros _).
    apply typed_bind; [apply typed_cmos_write|]. intros _. apply typed_bind; [apply wait_update_typed|]. intros _. apply typed_ret.
Qed.

(** C37: the types of the driver state. Whatever the devices answer on their ports, and
    in whatever order the operations of the keyboard, serial, timer and clock drivers
    are called and interrupts arrive, in the middle of the calls that wait as well:
    the three rings keep their 256 characters and have both indices inside, every
    descriptor stays in place, no access leaves its object and no assertion fails;
    the only way not to return is to wait for a device for ever. *)
Theorem driver_state_typed cs m : machine_ok m →
  match run_calls cs m with Ret (_, m') => machine_ok m' | Fail e => e = Hang end.
Proof.
  intros Hm. assert (typed (run_calls cs)) as Ht.
  { induction cs as [|c cs IH]; cbn [run_calls]; [apply typed_ret|]. apply typed_bind; [apply run_call_typed | by intros _]. }
  specialize (Ht m Hm). by destruct (run_calls cs m) as [[? ?]|?]; [destruct Ht|].
Qed.
End calls.
Lemma boot_machine_ok {H} (h : H) : machine_ok (boot_machine h).
Proof.
  split; [done|]. split; [apply (bool_decide_unpack _); vm_compute; exact I|]. split; [by apply (ring_init_ok 256)|].
  split; by apply (ring_init_ok 256).
Qed.
Lemma driver_state_typed_witness :
  let cs := [CKeyboardInit 3; CUartInit; CClockInit; CInterrupt EKeyboard; CKeyboardTry; CAsyncPuts [ESerial 1] 1 [72; 105]] in
  match run_calls (λ _ _, mret tt) cs (boot_machine (demo_board [0x1E] 2)) with Ret (_, m') => machine_ok m' | Fail e => e = Hang end.
Proof.
  intros cs. apply (driver_state_typed (λ _ _, mret tt)); [intros; apply typed_ret | apply boot_machine_ok].
Defined.

(** ** The timer *)
Section timer.
Context {H : Type} `{PortIO H}.
Notation M := (machine H drivers).
Implicit Types (m : M).

(** The three bytes the timer chip is sent, and the count they load: the divisor
    without its bits from 16 on. *)
Theorem pit_set_frequency_reload f m : 0 < f →
  ∃ lo hi, pit_set_frequency f m =
      Ret (tt, with_hw (port_outb PIT_CHANNEL_0_DATA hi (port_outb PIT_CHANNEL_0_DATA lo (port_outb PIT_CMD_PORT 0x36 (hw m)))) m) ∧
    is_u8 lo ∧ is_u8 hi ∧ lo + 256 * hi = (PIT_BASE_FREQUENCY / f) mod 65536.
Proof.
  intros Hf. unfold pit_set_frequency. rewrite (proj2 (Z.eqb_neq f 0)) by lia. set (d := PIT_BASE_FREQUENCY / f).
  exists (u8 (Z.land d 0xFF)), (u8 (Z.land (Z.shiftr d 8) 0xFF)). split; [reflexivity|]. split; [apply u8_range|]. split; [apply u8_range|].
  change 0xFF with (2 ^ 8 - 1). rewrite !mask_land, Z.shiftr_div_pow2 by lia. unfold u8. rewrite !Zmod_mod. clearbody d.
  Z.to_euclidean_division_equations. lia.
Qed.
(** 18 Hz is accepted and loads the count for 1588 Hz. *)
Theorem timer_18hz_truncated m : ∃ m', timer_set_frequency 18 m = Ret (0, m') ∧
  PIT_BASE_FREQUENCY / 18 = 66287 ∧ (PIT_BASE_FREQUENCY / 18) mod 65536 = 751 ∧ PIT_BASE_FREQUENCY / 751 = 1588.
Proof. eexists. split; [reflexivity|]. done. Qed.

(** [timer_mdelay] with a timer that ticks: it returns after exactly the ticks of the
    delay, when the product of milliseconds and frequency fits 32 bits. *)
Lemma timer_wait_spec run_callback target n m : 0 ≤ timer_ticks (timer (drv m)) ≤ target → target < 2 ^ 64 →
  timer_callback (timer (drv m)) = 0 → target - timer_ticks (timer (drv m)) < Z.of_nat n →
  ∃ m', timer_wait (timer_irq_handler run_callback) target n m = Ret (tt, m') ∧ timer_ticks (timer (drv m')) = target.
Proof.
  revert m. induction n as [|n IH]; intros m Ht Hlt Hc Hn; [lia|]. cbn [timer_wait]. unfold timer_get_ticks, gets, mbind at 1, io_bind at 1. cbn [compose].
  destruct (Z.ltb_spec (timer_ticks (timer (drv m))) target).
  - set (m1 := with_drv (mk_drivers (kb (drv m)) (uart (drv m)) (mk_timer (timer_ticks (timer (drv m)) ⊞ 1) (timer_frequency (timer (drv m))) 0) (rtc (drv m))) m).
    assert (timer_irq_handler run_callback m = Ret (tt, m1)) as E1.
    { unfold timer_irq_handler, get_timer, gets, set_timer, modify, mbind, io_bind, compose, when. rewrite Hc. reflexivity. }
    rewrite (io_bind_step _ _ _ _ _ E1). apply IH; unfold m1; cbn [timer drv with_drv timer_ticks timer_callback]; try rewrite u64_small by lia; lia.
  - exists m. split; [done|]. lia.
Qed.
Theorem timer_mdelay_waits run_callback n ms m : let t := timer (drv m) in
  0 ≤ timer_ticks t → timer_callback t = 0 → 0 ≤ ms * timer_frequency t < 2 ^ 32 →
  timer_ticks t + ms * timer_frequency t / 1000 < 2 ^ 64 → ms * timer_frequency t / 1000 < Z.of_nat n →
  ∃ m', timer_mdelay (timer_irq_handler run_callback) n ms m = Ret (tt, m') ∧
    timer_ticks (timer (drv m')) = timer_ticks t + ms * timer_frequency t / 1000.
Proof.
  intros t Ht0 Hc Hp Hs Hn. unfold timer_mdelay, get_timer, gets, mbind, io_bind. cbn [compose]. unfold timer_target. fold t.
  assert (0 ≤ ms * timer_frequency t / 1000) by (apply Z.div_pos; lia). rewrite u32_small by lia. rewrite u64_small by lia.
  apply timer_wait_spec; fold t; lia.
Qed.
(** A delay of 72 minutes at the default frequency ends at once: the product wraps. *)
Theorem timer_mdelay_wraps start : 0 ≤ start < 2 ^ 64 → timer_target start 4294968 TIMER_DEFAULT_FREQUENCY = start.
Proof. intros Hs. unfold timer_target. change (u32 (4294968 * TIMER_DEFAULT_FREQUENCY) / 1000) with 0. rewrite Z.add_0_r. by apply u64_small. Qed.
End timer.

(** ** Where the drivers go wrong *)
Definition idle_callback {H} : Z → Z → io (machine H drivers) unit := λ _ _, mret tt.
Definition busy_pic : pic8259 := mk_pic 0 18 32 4 1 0. (* lines 1 and 4 in service *)
(** The keyboard's handler ends its interrupt itself although its descriptor does not
    say so: the dispatcher ends another one, and a lower line whose handler was
    interrupted is taken for finished. The interrupt is also counted twice. *)
Theorem keyboard_interrupt_ends_two :
  let m := boot_machine (mk_board (λ _, busy_pic) (λ _, 0) 0 [] 1 0 []) in
  ∃ m1 m2, (keyboard_init 1;; mret tt) m = Ret (tt, m1) ∧
    let m1 := with_hw (mk_board (b_pic (hw m1)) (λ _, 0) 0 [0x1E] 1 0 []) m1 in
    interrupt_handler (run_irq idle_callback 1) idle_callback 33 0 m1 = Ret (tt, m2) ∧
    in_service 4 m1 = true ∧ in_service 4 m2 = false ∧ in_service 1 m2 = false ∧
    invocation_count <$> descs m2 !! keyboard_irq_desc = Some 2.
Proof. cbv zeta. eexists _, _. split; [vm_compute; reflexivity|]. split; [vm_compute; reflexivity|]. vm_compute. repeat split. Qed.

(** [async_serial_putc] looks at the ring with interrupts off, but takes the
    character out after they are on again. If the transmitter's interrupt comes in
    between it has already sent it: a character that was never written is sent as
    well, and the ring counts 255 more. *)
Theorem async_putc_race :
  let m := boot_machine (demo_board [] 2) in
  ∃ m1 m2, (uart_init_intr_mode;; mret tt) m = Ret (tt, m1) ∧
    async_serial_putc (run_events idle_callback [ESerial 1]) 1 65 m1 = Ret (tt, m2) ∧
    b_sent (hw m2) = [65; 0] ∧ ring_is_full 256 (tx_buffer (uart (drv m2))) = true.
Proof. cbv zeta. eexists _, _. split; [vm_compute; reflexivity|]. split; [vm_compute; reflexivity|]. vm_compute. repeat split. Qed.

(** The alarm's don't-care value is converted to BCD: the register gets [0x32]. *)
Theorem alarm_dont_care_lost : binary_to_bcd 0xC0 = 0x32.
Proof. reflexivity. Qed.
End Devices.
