(* ===== verification/Ata.v ===== *)
(** * The disk driver: [kernel/driver/ata/ata.c]

    Two channels with two drives each, programmed through ports; sectors are lists
    of 256 16-bit words. A controller is named by its index (the pointers to the two
    static controllers are never NULL). The buffer of a synchronous transfer is a
    list of words passed and returned, and an access outside it faults; buffers,
    queues and operations of the asynchronous interface are named by address. The
    waiting loops have the driver's own time-outs, so every operation returns. *)
From S2P Require Import Prelude Ports Desc Irq Block.
Import Pic Irq.

Module Ata.

(** ** Constants *)
Definition ATA_OK := 0.
Definition ATA_ERR_NOT_INIT := -1.
Definition ATA_ERR_TIMEOUT := -2.
Definition ATA_ERR_NO_DEVICE := -3.
Definition ATA_ERR_IO_ERROR := -4.
Definition ATA_ERR_INVALID_PARAM := -5.
Definition ATA_ERR_UNSUPPORTED := -6.
Definition ATA_PRIMARY_IO := 0x1F0.
Definition ATA_PRIMARY_CTRL := 0x3F6.
Definition ATA_SECONDARY_IO := 0x170.
Definition ATA_SECONDARY_CTRL := 0x376.
Definition ATA_REG_DATA := 0.
Definition ATA_REG_ERROR := 1.
Definition ATA_REG_SECCOUNT := 2.
Definition ATA_REG_LBA_LO := 3.
Definition ATA_REG_LBA_MID := 4.
Definition ATA_REG_LBA_HI := 5.
Definition ATA_REG_DEVICE := 6.
Definition ATA_REG_STATUS := 7.
Definition ATA_REG_COMMAND := 7.
Definition ATA_DEV_MASTER := 0x00.
Definition ATA_DEV_SLAVE := 0x10.
Definition ATA_DEV_LBA := 0x40.
Definition ATA_STATUS_BSY := 0x80.
Definition ATA_STATUS_DRQ := 0x08.
Definition ATA_STATUS_ERR := 0x01.
Definition ATA_CTL_SRST := 0x04.
Definition ATA_CTL_nIEN := 0x02.
Definition ATA_CMD_IDENTIFY := 0xEC.
Definition ATA_CMD_READ_SECTORS := 0x20.
Definition ATA_CMD_WRITE_SECTORS := 0x30.
Definition ATA_CMD_FLUSH_CACHE := 0xE7.
Definition ATA_CMD_READ_SECTORS_EXT := 0x24.
Definition ATA_CMD_WRITE_SECTORS_EXT := 0x34.
Definition ATA_CMD_FLUSH_CACHE_EXT := 0xEA.
Definition ATA_CAP_LBA := 0x0200.
Definition ATA_CAP_DMA := 0x0100.
Definition ATA_CAP_LBA48 := 0x0400.
Definition ATA_TIMEOUT := 100000.
Definition ATA_MODE_ASYNC := true.
Definition ATA_MODE_SYNC := false.

(** ** Data *)
Inductive ata_device_t := ATA_DEVICE_MASTER | ATA_DEVICE_SLAVE.
#[export] Instance ata_device_eq_dec : EqDecision ata_device_t.
Proof. solve_decision. Defined.
Record ata_controller_t := mk_ctrl {
  io_base : Z; ctrl_base : Z; irq : Z; initialized : bool; master_present : bool; slave_present : bool;
  read_count : Z; write_count : Z; error_count : Z;
  interrupts_enabled : bool; use_async_mode : bool; queue : Z; irq_desc : Z }.
Record ata_device_info_t := mk_dev_info {
  exists_ : bool; lba_supported : bool; lba48_supported : bool; dma_supported : bool;
  model : list Z; serial : list Z; firmware : list Z;
  lba_sectors : Z; lba48_sectors : Z; cylinders : Z; heads : Z; sectors_per_track : Z }.
Definition zero_info := mk_dev_info false false false false (replicate 41 0) (replicate 21 0) (replicate 9 0) 0 0 0 0 0.
(** No operation of the third type of the source, a flush, is ever created. *)
Inductive ata_async_op_type_t := ATA_ASYNC_OP_READ | ATA_ASYNC_OP_WRITE.
Inductive ata_async_status_t := ATA_ASYNC_PENDING | ATA_ASYNC_IN_PROGRESS | ATA_ASYNC_COMPLETED | ATA_ASYNC_ERROR.
Record ata_async_operation_t := mk_op {
  op_type : ata_async_op_type_t; op_status : ata_async_status_t; op_device : Z; op_drive : ata_device_t;
  op_lba : Z; op_sectors : Z; sectors_done : Z; op_buffer : Z; callback : Z; op_context : Z; use_lba48 : bool; next : Z }.
Record ata_async_queue_t := mk_queue { q_head : Z; q_tail : Z; q_active : Z }.
(** [bufs]: the memory of the callers of the asynchronous interface. *)
Record ata_state := mk_ata_state {
  controllers : list ata_controller_t; devices : list ata_device_info_t; driver_initialized : bool;
  queues : gmap Z ata_async_queue_t; ops : gmap Z ata_async_operation_t; bufs : gmap Z (list Z); heap : Block.kheap }.

(** [irq_desc]: the address of the descriptor inside the controller. *)
Definition boot_ctrl (desc : Z) := mk_ctrl 0 0 0 false false false 0 0 0 false false 0 desc.
Definition ata_boot (h : Block.kheap) (b : gmap Z (list Z)) : ata_state :=
  mk_ata_state [boot_ctrl 0x3000; boot_ctrl 0x3080] [zero_info; zero_info; zero_info; zero_info] false ∅ ∅ b h.

Definition ATA_DEV_TO_CONTROLLER (dev : Z) : Z := if dev <? 2 then 0 else 1.
Definition ATA_DEV_TO_DRIVE (dev : Z) : ata_device_t := if dev mod 2 =? 0 then ATA_DEVICE_MASTER else ATA_DEVICE_SLAVE.

(** ** Identification strings *)
Fixpoint trim_loop (len : nat) (dest : list Z) : list Z :=
  match len with
  | O => dest
  | S n => if bool_decide (dest !! n = Some 32) then trim_loop n (<[n := 0]> dest) else dest
  end.
(** Each word holds two characters, the first in its high byte. *)
Definition ata_identify_string_to_c (src : list Z) : list Z :=
  let dest := (src ≫= λ word, [u8 (Z.shiftr word 8); Z.land word 0xFF]) ++ [0] in
  trim_loop (2 * length src) dest.
Definition slice (l : list Z) (start n : nat) : list Z := take n (drop start l).
Definition word_at (l : list Z) (i : Z) : Z := default 0 (zlookup l i).
Definition has (v mask : Z) : bool := negb (Z.land v mask =? 0).

Section ata.
Context {H : Type} `{PortIO H}.
Notation M := (machine H ata_state).

Definition get_ctrl (c : Z) : io M ata_controller_t := l ← gets (controllers ∘ drv); lift (access (zlookup l c)).
Definition upd_state (f : ata_state → ata_state) : io M unit := modify (λ m, with_drv (f (drv m)) m).
Definition set_ctrls (l : list ata_controller_t) (s : ata_state) : ata_state :=
  mk_ata_state l (devices s) (driver_initialized s) (queues s) (ops s) (bufs s) (heap s).
Definition upd_ctrl (c : Z) (f : ata_controller_t → ata_controller_t) : io M unit :=
  x ← get_ctrl c; upd_state (λ s, set_ctrls (zinsert (controllers s) c (f x)) s).
Definition set_counts (r w e : Z) (x : ata_controller_t) : ata_controller_t :=
  mk_ctrl (io_base x) (ctrl_base x) (irq x) (initialized x) (master_present x) (slave_present x) r w e
    (interrupts_enabled x) (use_async_mode x) (queue x) (irq_desc x).
Definition count_read (x : ata_controller_t) := set_counts (read_count x ⊞ 1) (write_count x) (error_count x) x.
Definition count_write (x : ata_controller_t) := set_counts (read_count x) (write_count x ⊞ 1) (error_count x) x.
Definition count_error (x : ata_controller_t) := set_counts (read_count x) (write_count x) (error_count x ⊞ 1) x.
Definition set_enabled (b : bool) (x : ata_controller_t) : ata_controller_t :=
  mk_ctrl (io_base x) (ctrl_base x) (irq x) (initialized x) (master_present x) (slave_present x) (read_count x) (write_count x) (error_count x)
    b (use_async_mode x) (queue x) (irq_desc x).

(** ** Low level *)
Definition ata_delay : io M unit := io_for 0 4 (λ _, inb 0x80;; mret tt).
Definition dev_select (device : ata_device_t) : Z :=
  Z.lor ATA_DEV_LBA (match device with ATA_DEVICE_MASTER => ATA_DEV_MASTER | ATA_DEVICE_SLAVE => ATA_DEV_SLAVE end).
Definition ata_select_device (c : Z) (device : ata_device_t) : io M Z :=
  x ← get_ctrl c;
  outb (io_base x + ATA_REG_DEVICE) (dev_select device);;
  ata_delay;;
  mret ATA_OK.
Fixpoint wait_bsy_loop (timeout : nat) (base : Z) : io M Z :=
  match timeout with
  | O => mret ATA_ERR_TIMEOUT
  | S n => status ← inb (base + ATA_REG_STATUS); if negb (has status ATA_STATUS_BSY) then mret ATA_OK else wait_bsy_loop n base
  end.
Definition ata_wait_bsy (base : Z) : io M Z := wait_bsy_loop (Z.to_nat ATA_TIMEOUT) base.
Fixpoint wait_drq_loop (timeout : nat) (base : Z) : io M Z :=
  match timeout with
  | O => mret ATA_ERR_TIMEOUT
  | S n =>
      status ← inb (base + ATA_REG_STATUS);
      if has status ATA_STATUS_ERR then mret ATA_ERR_IO_ERROR else
      if has status ATA_STATUS_DRQ && negb (has status ATA_STATUS_BSY) then mret ATA_OK else wait_drq_loop n base
  end.
Definition ata_wait_drq (base : Z) : io M Z := wait_drq_loop (Z.to_nat ATA_TIMEOUT) base.
Definition ata_soft_reset (c : Z) : io M unit :=
  x ← get_ctrl c;
  outb (ctrl_base x) ATA_CTL_SRST;;
  ata_delay;;
  outb (ctrl_base x) 0;;
  ata_delay;;
  ata_wait_bsy (io_base x);;
  mret tt.
Definition ata_enable_interrupts (c : Z) : io M unit :=
  x ← get_ctrl c; outb (ctrl_base x) 0;; upd_ctrl c (set_enabled true).
Definition ata_disable_interrupts (c : Z) : io M unit :=
  x ← get_ctrl c; outb (ctrl_base x) ATA_CTL_nIEN;; upd_ctrl c (set_enabled false).

(** ** Detection *)
Definition ata_device_present (c : Z) (device : ata_device_t) : io M bool :=
  r ← ata_select_device c device;
  if negb (r =? ATA_OK) then mret false else
  x ← get_ctrl c;
  outb (io_base x + ATA_REG_COMMAND) ATA_CMD_IDENTIFY;;
  status ← inb (io_base x + ATA_REG_STATUS);
  if status =? 0 then mret false else
  if has status ATA_STATUS_ERR then mret false else
  r ← ata_wait_bsy (io_base x);
  if negb (r =? ATA_OK) then mret false else
  status ← inb (io_base x + ATA_REG_STATUS);
  mret (has status ATA_STATUS_DRQ).

Definition parse_identify (d : list Z) : ata_device_info_t :=
  let caps := word_at d 49 in
  let lba := has caps ATA_CAP_LBA in
  let lba48 := has caps ATA_CAP_LBA48 in
  mk_dev_info true lba lba48 (has caps ATA_CAP_DMA)
    (ata_identify_string_to_c (slice d 27 20)) (ata_identify_string_to_c (slice d 10 10)) (ata_identify_string_to_c (slice d 23 4))
    (if lba then Z.lor (u64 (Z.shiftl (word_at d 61) 16)) (word_at d 60) else (word_at d 1 ⊠ word_at d 3) ⊠ word_at d 6)
    (if lba48 then Z.lor (Z.lor (Z.lor (u64 (Z.shiftl (word_at d 103) 48)) (u64 (Z.shiftl (word_at d 102) 32)))
                            (u64 (Z.shiftl (word_at d 101) 16))) (word_at d 100) else 0)
    (word_at d 1) (word_at d 3) (word_at d 6).
Fixpoint read_data (n : nat) (base : Z) : io M (list Z) :=
  match n with O => mret [] | S n' => w ← inw (base + ATA_REG_DATA); r ← read_data n' base; mret (w :: r) end.
(** The result code and what the information structure holds then. *)
Definition ata_identify_device (c : Z) (device : ata_device_t) : io M (Z * ata_device_info_t) :=
  r ← ata_select_device c device;
  if negb (r =? ATA_OK) then mret (ATA_ERR_IO_ERROR, zero_info) else
  x ← get_ctrl c;
  outb (io_base x + ATA_REG_COMMAND) ATA_CMD_IDENTIFY;;
  r ← ata_wait_bsy (io_base x);
  if negb (r =? ATA_OK) then mret (r, zero_info) else
  status ← inb (io_base x + ATA_REG_STATUS);
  if has status ATA_STATUS_ERR then mret (ATA_ERR_NO_DEVICE, zero_info) else
  r ← ata_wait_drq (io_base x);
  if negb (r =? ATA_OK) then mret (r, zero_info) else
  d ← read_data 256 (io_base x);
  mret (ATA_OK, parse_identify d).

(** ** Programmed transfers *)
(** The interrupts of the controller and its line at the interrupt controllers are
    turned off for the transfer: the result says what to turn on again. *)
Definition transfer_begin (c : Z) (delay : bool) : io M (bool * bool) :=
  x ← get_ctrl c;
  let were_enabled := interrupts_enabled x in
  when were_enabled (ata_disable_interrupts c);;
  masked ← pic_is_irq_masked (irq x);
  when (negb masked) (pic_disable_irq (irq x);; when delay ata_delay);;
  mret (were_enabled, masked).
Definition transfer_end (c : Z) (saved : bool * bool) : io M unit :=
  x ← get_ctrl c;
  when (negb (snd saved)) (pic_enable_irq (irq x));;
  when (fst saved) (ata_enable_interrupts c).

Definition set_lba28 (base : Z) (device : ata_device_t) (lba : Z) : io M unit :=
  outb (base + ATA_REG_DEVICE)
    (Z.lor (Z.lor ATA_DEV_LBA (match device with ATA_DEVICE_SLAVE => ATA_DEV_SLAVE | _ => 0 end)) (Z.land (Z.shiftr lba 24) 0x0F)).
Definition set_address (base sec_count lba : Z) : io M unit :=
  outb (base + ATA_REG_SECCOUNT) sec_count;;
  outb (base + ATA_REG_LBA_LO) (Z.land lba 0xFF);;
  outb (base + ATA_REG_LBA_MID) (Z.land (Z.shiftr lba 8) 0xFF);;
  outb (base + ATA_REG_LBA_HI) (Z.land (Z.shiftr lba 16) 0xFF).

(** [for (i = 0; i < 256; i++) buf16[at + i] = inw(DATA);] *)
Fixpoint read_words (n : nat) (base at_ : Z) (buf : list Z) : io M (list Z) :=
  match n with
  | O => mret buf
  | S n' => w ← inw (base + ATA_REG_DATA);
            _ ← lift (access (zlookup buf at_));
            read_words n' base (at_ + 1) (zinsert buf at_ w)
  end.
Fixpoint write_words (n : nat) (base at_ : Z) (buf : list Z) : io M unit :=
  match n with
  | O => mret tt
  | S n' => w ← lift (access (zlookup buf at_));
            outw (base + ATA_REG_DATA) w;;
            write_words n' base (at_ + 1) buf
  end.
(** Between sectors: until the device is busy, or ready, or 1000 polls are over. *)
Fixpoint between_sectors (n : nat) (base : Z) : io M unit :=
  match n with
  | O => mret tt
  | S n' =>
      status ← inb (base + ATA_REG_STATUS);
      if has status ATA_STATUS_BSY then ata_wait_bsy base;; mret tt else
      if has status ATA_STATUS_DRQ then mret tt else between_sectors n' base
  end.
(** Waits for the device to offer or ask for data: [None] when it does. *)
Definition sector_ready (c base : Z) : io M (option Z) :=
  r ← ata_wait_drq base;
  if negb (r =? ATA_OK) then upd_ctrl c count_error;; mret (Some r) else
  status ← inb (base + ATA_REG_STATUS);
  if has status ATA_STATUS_ERR then
    inb (base + ATA_REG_ERROR);; upd_ctrl c count_error;; mret (Some ATA_ERR_IO_ERROR)
  else mret None.
Fixpoint read_sectors (n : nat) (c base sec sectors : Z) (buf : list Z) : io M (Z * list Z) :=
  match n with
  | O => mret (ATA_OK, buf)
  | S n' =>
      e ← sector_ready c base;
      match e with
      | Some r => mret (r, buf)
      | None =>
          buf ← read_words 256 base (sec * 256) buf;
          when (sec <? sectors - 1) (ata_delay;; between_sectors 1000 base);;
          read_sectors n' c base (sec + 1) sectors buf
      end
  end.
Definition ata_read_pio (c : Z) (device : ata_device_t) (lba : Z) (buf : list Z) (sectors : Z) : io M (Z * list Z) :=
  if (sectors =? 0) || (256 <? sectors) then mret (ATA_ERR_INVALID_PARAM, buf) else
  let sec_count := if sectors =? 256 then 0 else sectors in
  saved ← transfer_begin c true;
  x ← get_ctrl c;
  let base := io_base x in
  inb (base + ATA_REG_STATUS);;
  set_lba28 base device lba;;
  ata_delay;;
  r ← ata_wait_bsy base;
  if negb (r =? ATA_OK) then transfer_end c saved;; mret (r, buf) else
  set_address base sec_count lba;;
  outb (base + ATA_REG_COMMAND) ATA_CMD_READ_SECTORS;;
  rb ← read_sectors (Z.to_nat sectors) c base 0 sectors buf;
  transfer_end c saved;;
  when (fst rb =? ATA_OK) (upd_ctrl c count_read);;
  mret rb.

Fixpoint write_sectors (n : nat) (cmd : Z) (flush : io M unit) (c base sec sectors : Z) (buf : list Z) : io M Z :=
  match n with
  | O => mret ATA_OK
  | S n' =>
      outb (base + ATA_REG_COMMAND) cmd;;
      e ← sector_ready c base;
      match e with
      | Some r => mret r
      | None =>
          write_words 256 base (sec * 256) buf;;
          ata_wait_bsy base;;
          when (sec =? sectors - 1) flush;;
          write_sectors n' cmd flush c base (sec + 1) sectors buf
      end
  end.
Definition flush_cache (base : Z) : io M unit :=
  outb (base + ATA_REG_COMMAND) ATA_CMD_FLUSH_CACHE;; ata_wait_bsy base;; mret tt.
Definition ata_write_pio (c : Z) (device : ata_device_t) (lba : Z) (buf : list Z) (sectors : Z) : io M Z :=
  if (sectors =? 0) || (256 <? sectors) then mret ATA_ERR_INVALID_PARAM else
  let sec_count := if sectors =? 256 then 0 else sectors in
  saved ← transfer_begin c false;
  x ← get_ctrl c;
  let base := io_base x in
  set_lba28 base device lba;;
  ata_delay;;
  r ← ata_wait_bsy base;
  if negb (r =? ATA_OK) then transfer_end c saved;; mret r else
  set_address base sec_count lba;;
  r ← write_sectors (Z.to_nat sectors) ATA_CMD_WRITE_SECTORS (flush_cache base) c base 0 sectors buf;
  transfer_end c saved;;
  when (r =? ATA_OK) (upd_ctrl c count_write);;
  mret r.

(** ** 48-bit addresses *)
Definition ata_flush_cache_ext (c : Z) : io M Z :=
  x ← get_ctrl c;
  outb (io_base x + ATA_REG_COMMAND) ATA_CMD_FLUSH_CACHE_EXT;;
  r ← ata_wait_bsy (io_base x);
  if negb (r =? ATA_OK) then mret r else
  status ← inb (io_base x + ATA_REG_STATUS);
  mret (if has status ATA_STATUS_ERR then ATA_ERR_IO_ERROR else ATA_OK).
Definition select_lba48 (base : Z) (device : ata_device_t) : io M unit :=
  outb (base + ATA_REG_DEVICE) (Z.lor ATA_DEV_LBA (match device with ATA_DEVICE_SLAVE => ATA_DEV_SLAVE | _ => 0 end)).
(** The low bytes are written first, then the high ones. *)
Definition set_address48 (base sectors lba : Z) : io M unit :=
  outb (base + ATA_REG_SECCOUNT) (Z.land sectors 0xFF);;
  outb (base + ATA_REG_LBA_LO) (Z.land (Z.shiftr lba 0) 0xFF);;
  outb (base + ATA_REG_LBA_MID) (Z.land (Z.shiftr lba 8) 0xFF);;
  outb (base + ATA_REG_LBA_HI) (Z.land (Z.shiftr lba 16) 0xFF);;
  outb (base + ATA_REG_SECCOUNT) (Z.land (Z.shiftr sectors 8) 0xFF);;
  outb (base + ATA_REG_LBA_LO) (Z.land (Z.shiftr lba 24) 0xFF);;
  outb (base + ATA_REG_LBA_MID) (Z.land (Z.shiftr lba 32) 0xFF);;
  outb (base + ATA_REG_LBA_HI) (Z.land (Z.shiftr lba 40) 0xFF).
Definition ata_read_pio_lba48 (c : Z) (device : ata_device_t) (lba : Z) (buf : list Z) (sectors : Z) : io M (Z * list Z) :=
  if sectors =? 0 then mret (ATA_ERR_INVALID_PARAM, buf) else
  saved ← transfer_begin c false;
  x ← get_ctrl c;
  let base := io_base x in
  select_lba48 base device;;
  ata_delay;;
  r ← ata_wait_bsy base;
  if negb (r =? ATA_OK) then transfer_end c saved;; mret (r, buf) else
  set_address48 base sectors lba;;
  outb (base + ATA_REG_COMMAND) ATA_CMD_READ_SECTORS_EXT;;
  rb ← read_sectors (Z.to_nat sectors) c base 0 sectors buf;
  transfer_end c saved;;
  when (fst rb =? ATA_OK) (upd_ctrl c count_read);;
  mret rb.
Definition ata_write_pio_lba48 (c : Z) (device : ata_device_t) (lba : Z) (buf : list Z) (sectors : Z) : io M Z :=
  if sectors =? 0 then mret ATA_ERR_INVALID_PARAM else
  saved ← transfer_begin c false;
  x ← get_ctrl c;
  let base := io_base x in
  select_lba48 base device;;
  ata_delay;;
  r ← ata_wait_bsy base;
  if negb (r =? ATA_OK) then transfer_end c saved;; mret r else
  set_address48 base sectors lba;;
  r ← write_sectors (Z.to_nat sectors) ATA_CMD_WRITE_SECTORS_EXT (ata_flush_cache_ext c;; mret tt) c base 0 sectors buf;
  transfer_end c saved;;
  when (r =? ATA_OK) (upd_ctrl c count_write);;
  mret r.

(** ** The interface *)
Definition get_info (d : Z) : io M ata_device_info_t := l ← gets (devices ∘ drv); lift (access (zlookup l d)).
Definition device_missing (d : Z) (x : ata_controller_t) : bool :=
  match ATA_DEV_TO_DRIVE d with ATA_DEVICE_MASTER => negb (master_present x) | ATA_DEVICE_SLAVE => negb (slave_present x) end.
(** The checks [ata_read] and [ata_write] share: a result code, or whether 48-bit
    addresses are used. *)
Definition ata_check (d lba : Z) : io M (Z + bool) :=
  init ← gets (driver_initialized ∘ drv);
  if negb init then mret (inl ATA_ERR_NOT_INIT) else
  if (d <? 0) || (3 <? d) then mret (inl ATA_ERR_INVALID_PARAM) else
  x ← get_ctrl (ATA_DEV_TO_CONTROLLER d);
  if device_missing d x then mret (inl ATA_ERR_NO_DEVICE) else
  info ← get_info d;
  if (0x0FFFFFFF <? lba) && negb (lba48_supported info) then mret (inl ATA_ERR_UNSUPPORTED) else
  mret (inr ((0x0FFFFFFF <? lba) && lba48_supported info)).
Definition ata_read (d lba : Z) (buf : list Z) (sectors : Z) : io M (Z * list Z) :=
  k ← ata_check d lba;
  match k with
  | inl r => mret (r, buf)
  | inr true => ata_read_pio_lba48 (ATA_DEV_TO_CONTROLLER d) (ATA_DEV_TO_DRIVE d) lba buf sectors
  | inr false => ata_read_pio (ATA_DEV_TO_CONTROLLER d) (ATA_DEV_TO_DRIVE d) (u32 lba) buf sectors
  end.
Definition ata_write (d lba : Z) (buf : list Z) (sectors : Z) : io M Z :=
  k ← ata_check d lba;
  match k with
  | inl r => mret r
  | inr true => ata_write_pio_lba48 (ATA_DEV_TO_CONTROLLER d) (ATA_DEV_TO_DRIVE d) lba buf sectors
  | inr false => ata_write_pio (ATA_DEV_TO_CONTROLLER d) (ATA_DEV_TO_DRIVE d) (u32 lba) buf sectors
  end.
Definition ata_get_info (d : Z) : io M (Z * option ata_device_info_t) :=
  init ← gets (driver_initialized ∘ drv);
  if negb init then mret (ATA_ERR_NOT_INIT, None) else
  if (d <? 0) || (3 <? d) then mret (ATA_ERR_INVALID_PARAM, None) else
  info ← get_info d;
  mret (if exists_ info then ATA_OK else ATA_ERR_NO_DEVICE, Some info).
Definition ata_device_exists (d : Z) : io M bool :=
  init ← gets (driver_initialized ∘ drv);
  if negb init || (d <? 0) || (3 <? d) then mret false else info ← get_info d; mret (exists_ info).
Definition ata_get_sector_count (d : Z) : io M Z :=
  init ← gets (driver_initialized ∘ drv);
  if negb init || (d <? 0) || (3 <? d) then mret 0 else
  info ← get_info d;
  if negb (exists_ info) then mret 0 else
  mret (if lba48_supported info && (0 <? lba48_sectors info) then lba48_sectors info else lba_sectors info).

(** ** Asynchronous transfers *)
Definition set_queues (q : gmap Z ata_async_queue_t) (s : ata_state) : ata_state :=
  mk_ata_state (controllers s) (devices s) (driver_initialized s) q (ops s) (bufs s) (heap s).
Definition set_ops (o : gmap Z ata_async_operation_t) (s : ata_state) : ata_state :=
  mk_ata_state (controllers s) (devices s) (driver_initialized s) (queues s) o (bufs s) (heap s).
Definition set_bufs (b : gmap Z (list Z)) (s : ata_state) : ata_state :=
  mk_ata_state (controllers s) (devices s) (driver_initialized s) (queues s) (ops s) b (heap s).
Definition set_heap (h : Block.kheap) (s : ata_state) : ata_state :=
  mk_ata_state (controllers s) (devices s) (driver_initialized s) (queues s) (ops s) (bufs s) h.
Definition get_queue (q : Z) : io M ata_async_queue_t := t ← gets (queues ∘ drv); lift (access (t !! q)).
Definition put_queue (q : Z) (x : ata_async_queue_t) : io M unit := upd_state (λ s, set_queues (<[q := x]> (queues s)) s).
Definition get_op (o : Z) : io M ata_async_operation_t := t ← gets (ops ∘ drv); lift (access (t !! o)).
Definition put_op (o : Z) (x : ata_async_operation_t) : io M unit := upd_state (λ s, set_ops (<[o := x]> (ops s)) s).
Definition get_buf (b : Z) : io M (list Z) := t ← gets (bufs ∘ drv); lift (access (t !! b)).
Definition put_buf (b : Z) (x : list Z) : io M unit := upd_state (λ s, set_bufs (<[b := x]> (bufs s)) s).
Definition alloc : io M Z :=
  h ← gets (heap ∘ drv); let '(a, h') := Block.kmalloc h in upd_state (set_heap h');; mret a.
Definition free_op (o : Z) : io M unit := upd_state (λ s, set_heap (Block.kfree o (heap s)) (set_ops (delete o (ops s)) s)).
Definition free_queue (q : Z) : io M unit := upd_state (λ s, set_heap (Block.kfree q (heap s)) (set_queues (delete q (queues s)) s)).
Definition op_with (st : ata_async_status_t) (done nxt : Z) (x : ata_async_operation_t) : ata_async_operation_t :=
  mk_op (op_type x) st (op_device x) (op_drive x) (op_lba x) (op_sectors x) done (op_buffer x) (callback x) (op_context x) (use_lba48 x) nxt.

(** The completion callbacks of the callers: the function pointer, the operation and
    the result. *)
Context (run_completion : Z → ata_async_operation_t → Z → io M unit).

Definition ata_complete_async_op (o result : Z) : io M unit :=
  x ← get_op o;
  put_op o (op_with (if result =? ATA_OK then ATA_ASYNC_COMPLETED else ATA_ASYNC_ERROR) (sectors_done x) (next x) x);;
  when (negb (callback x =? 0)) (run_completion (callback x) x result);;
  free_op o.

(** Programs the registers for an operation and sends the command. *)
Definition async_command (base : Z) (x : ata_async_operation_t) (cmd cmd_ext : Z) : io M unit :=
  if use_lba48 x then
    select_lba48 base (op_drive x);;
    set_address48 base (op_sectors x) (op_lba x);;
    outb (base + ATA_REG_COMMAND) cmd_ext
  else
    set_lba28 base (op_drive x) (u32 (op_lba x));;
    set_address base (if op_sectors x =? 256 then 0 else op_sectors x) (u32 (op_lba x));;
    outb (base + ATA_REG_COMMAND) cmd.
Definition ata_start_next_async_op (c : Z) : io M unit :=
  x ← get_ctrl c;
  if queue x =? 0 then mret tt else
  q ← get_queue (queue x);
  if negb (q_active q =? 0) then mret tt else
  let o := q_head q in
  if o =? 0 then mret tt else
  p ← get_op o;
  put_queue (queue x) (mk_queue (next p) (if next p =? 0 then 0 else q_tail q) o);;
  put_op o (op_with ATA_ASYNC_IN_PROGRESS (sectors_done p) (next p) p);;
  let base := io_base x in
  ata_select_device c (op_drive p);;
  ata_wait_bsy base;;
  match op_type p with
  | ATA_ASYNC_OP_READ => async_command base p ATA_CMD_READ_SECTORS ATA_CMD_READ_SECTORS_EXT
  | ATA_ASYNC_OP_WRITE =>
      async_command base p ATA_CMD_WRITE_SECTORS ATA_CMD_WRITE_SECTORS_EXT;;
      ata_wait_drq base;;
      buf ← get_buf (op_buffer p);
      write_words 256 base 0 buf
  end.
Definition set_active (q o : Z) : io M unit := x ← get_queue q; put_queue q (mk_queue (q_head x) (q_tail x) o).

(** The interrupt of a controller. *)
Definition ata_irq_handler (c : Z) : io M unit :=
  x ← get_ctrl c;
  if queue x =? 0 then pic_send_eoi (irq x) else
  let base := io_base x in
  let ack := count_invocation (irq_desc x);; pic_send_eoi (irq x) in
  status ← inb (base + ATA_REG_STATUS);
  if negb (has status (Z.lor ATA_STATUS_DRQ ATA_STATUS_ERR)) then ack else
  if has status ATA_STATUS_ERR then
    inb (base + ATA_REG_ERROR);;
    q ← get_queue (queue x);
    when (negb (q_active q =? 0)) (ata_complete_async_op (q_active q) ATA_ERR_IO_ERROR;; set_active (queue x) 0);;
    ack;;
    ata_start_next_async_op c
  else
  q ← get_queue (queue x);
  let o := q_active q in
  if o =? 0 then ack else
  p ← get_op o;
  let done := u16 (sectors_done p + 1) in
  match op_type p with
  | ATA_ASYNC_OP_READ =>
      buf ← get_buf (op_buffer p);
      buf ← read_words 256 base (sectors_done p * 256) buf;
      put_buf (op_buffer p) buf;;
      put_op o (op_with (op_status p) done (next p) p);;
      when (op_sectors p <=? done) (ata_complete_async_op o ATA_OK;; set_active (queue x) 0)
  | ATA_ASYNC_OP_WRITE =>
      put_op o (op_with (op_status p) done (next p) p);;
      if op_sectors p <=? done then
        outb (base + ATA_REG_COMMAND) (if use_lba48 p then ATA_CMD_FLUSH_CACHE_EXT else ATA_CMD_FLUSH_CACHE);;
        ata_wait_bsy base;;
        ata_complete_async_op o ATA_OK;;
        set_active (queue x) 0
      else
        buf ← get_buf (op_buffer p);
        write_words 256 base (done * 256) buf
  end;;
  ack;;
  q ← get_queue (queue x);
  when (q_active q =? 0) (ata_start_next_async_op c).

Definition set_queue_field (q : Z) (mode : bool) (x : ata_controller_t) : ata_controller_t :=
  mk_ctrl (io_base x) (ctrl_base x) (irq x) (initialized x) (master_present x) (slave_present x) (read_count x) (write_count x) (error_count x)
    (interrupts_enabled x) mode q (irq_desc x).
(** [handler_fn]: the address of [ata_irq_handler]; the context is the controller. *)
Definition ata_init_async_io (handler_fn c : Z) : io M Z :=
  q ← alloc;
  upd_ctrl c (λ x, set_queue_field q (use_async_mode x) x);;
  if q =? 0 then mret ATA_ERR_IO_ERROR else
  put_queue q (mk_queue 0 0 0);;
  x ← get_ctrl c;
  set_desc (irq_desc x) (mk_desc handler_fn c IRQ_FLAG_NONE 0);;
  r ← irq_register_handler (irq x) (irq_desc x);
  if negb (r =? 0) then
    free_queue q;;
    upd_ctrl c (λ x, set_queue_field 0 (use_async_mode x) x);;
    mret ATA_ERR_IO_ERROR
  else
  ata_enable_interrupts c;;
  pic_enable_irq (irq x);;
  upd_ctrl c (λ x, set_queue_field (queue x) true x);;
  mret ATA_OK.
Definition ata_init_async_mode (handler_fn : Z) : io M Z :=
  init ← gets (driver_initialized ∘ drv);
  if negb init then mret ATA_ERR_NOT_INIT else
  (fix loop (n : nat) (c : Z) {struct n} : io M Z :=
     match n with
     | O => mret ATA_OK
     | S n' =>
         x ← get_ctrl c;
         if initialized x && negb (use_async_mode x) then
           r ← ata_init_async_io handler_fn c;
           if negb (r =? ATA_OK) then mret r else loop n' (c + 1)
         else loop n' (c + 1)
     end) 2%nat 0.

(** Queues an operation; a queue that was empty and idle starts it. *)
Definition ata_submit (type : ata_async_op_type_t) (d lba buffer sectors cb ctx : Z) : io M Z :=
  init ← gets (driver_initialized ∘ drv);
  if negb init then mret ATA_ERR_NOT_INIT else
  if (d <? 0) || (3 <? d) || (buffer =? 0) || (sectors =? 0) then mret ATA_ERR_INVALID_PARAM else
  let c := ATA_DEV_TO_CONTROLLER d in
  x ← get_ctrl c;
  if negb (use_async_mode x) then mret ATA_ERR_UNSUPPORTED else
  o ← alloc;
  if o =? 0 then mret ATA_ERR_IO_ERROR else
  info ← get_info d;
  put_op o (mk_op type ATA_ASYNC_PENDING d (ATA_DEV_TO_DRIVE d) lba sectors 0 buffer cb ctx ((0x0FFFFFFF <? lba) && lba48_supported info) 0);;
  q ← get_queue (queue x);
  (if q_tail q =? 0 then
     put_queue (queue x) (mk_queue o o (q_active q));;
     when (q_active q =? 0) (ata_start_next_async_op c)
   else
     t ← get_op (q_tail q);
     put_op (q_tail q) (op_with (op_status t) (sectors_done t) o t);;
     put_queue (queue x) (mk_queue (q_head q) o (q_active q)));;
  mret ATA_OK.
Definition ata_read_async := ata_submit ATA_ASYNC_OP_READ.
Definition ata_write_async := ata_submit ATA_ASYNC_OP_WRITE.
Definition ata_async_is_idle (d : Z) : io M bool :=
  init ← gets (driver_initialized ∘ drv);
  if negb init || (d <? 0) || (3 <? d) then mret true else
  x ← get_ctrl (ATA_DEV_TO_CONTROLLER d);
  if queue x =? 0 then mret true else
  q ← get_queue (queue x);
  mret ((q_active q =? 0) && (q_head q =? 0)).

(** ** Initialisation *)
Definition init_ctrl (io ctl line : Z) (x : ata_controller_t) : ata_controller_t :=
  mk_ctrl io ctl line false (master_present x) (slave_present x) (read_count x) (write_count x) (error_count x) false false 0 (irq_desc x).
Definition set_present (device : ata_device_t) (x : ata_controller_t) : ata_controller_t :=
  mk_ctrl (io_base x) (ctrl_base x) (irq x) (initialized x)
    (match device with ATA_DEVICE_MASTER => true | _ => master_present x end) (match device with ATA_DEVICE_SLAVE => true | _ => slave_present x end)
    (read_count x) (write_count x) (error_count x) (interrupts_enabled x) (use_async_mode x) (queue x) (irq_desc x).
Definition set_initialized (x : ata_controller_t) : ata_controller_t :=
  mk_ctrl (io_base x) (ctrl_base x) (irq x) true (master_present x) (slave_present x) (read_count x) (write_count x) (error_count x)
    (interrupts_enabled x) (use_async_mode x) (queue x) (irq_desc x).
Definition set_devices (l : list ata_device_info_t) (s : ata_state) : ata_state :=
  mk_ata_state (controllers s) l (driver_initialized s) (queues s) (ops s) (bufs s) (heap s).
Definition set_driver_initialized (s : ata_state) : ata_state :=
  mk_ata_state (controllers s) (devices s) true (queues s) (ops s) (bufs s) (heap s).
Definition probe (c : Z) (device : ata_device_t) (d : Z) : io M unit :=
  present ← ata_device_present c device;
  when present (
    upd_ctrl c (set_present device);;
    ri ← ata_identify_device c device;
    upd_state (λ s, set_devices (zinsert (devices s) d (snd ri)) s)).
Definition ata_init_ex (handler_fn : Z) (async : bool) : io M Z :=
  init ← gets (driver_initialized ∘ drv);
  if init : bool then mret 0 else
  upd_ctrl 0 (init_ctrl ATA_PRIMARY_IO ATA_PRIMARY_CTRL 14);;
  upd_ctrl 1 (init_ctrl ATA_SECONDARY_IO ATA_SECONDARY_CTRL 15);;
  io_for 0 2 (λ c,
    ata_soft_reset c;;
    probe c ATA_DEVICE_MASTER (c * 2);;
    probe c ATA_DEVICE_SLAVE (c * 2 + 1);;
    upd_ctrl c set_initialized);;
  upd_state set_driver_initialized;;
  when async (io_for 0 2 (λ c, x ← get_ctrl c; when (initialized x) (ata_init_async_io handler_fn c;; mret tt)));;
  mret 0.
Definition ata_init (handler_fn : Z) : io M Z := ata_init_ex handler_fn ATA_MODE_ASYNC.
End ata.
End Ata.
