(* ===== verification/Disk.v ===== *)
(** * A drive behind the disk driver

    What the ATA standard says about a channel in programmed I/O - task file,
    commands, the data phases of reads and writes, the busy times - is the class
    [AtaLaws] over the ports of one channel. Under it, [ata_read_pio] returns the
    sectors of the drive and [ata_write_pio] stores one. *)
From stdpp Require Import functions.
From S2P Require Import Prelude Ports Desc Irq Block Ata.
Import Pic Irq Ata.

Module Disk.

Definition is_word (w : Z) : Prop := 0 ≤ w < 2 ^ 16.
Lemma u16_word w : is_word w → u16 w = w.
Proof. apply Z.mod_small. Qed.

(** ** A channel *)
Inductive phase :=
  | PIdle
  | PBusy (polls : nat) (after : phase)                 (* busy for that many more status reads *)
  | PRead (words : list Z) (rest : list (list Z))       (* the words still to be read, and the sectors after them *)
  | PWrite (slave : bool) (lba n : Z) (words : list Z). (* the words received so far of [n] sectors from [lba] *)
Record channel := mk_channel { t_count : Z; t_lo : Z; t_mid : Z; t_hi : Z; t_dev : Z; ph : phase;
  media : bool → Z → list Z; capacity : bool → Z }.
Definition busy (k : nat) (p : phase) : phase := match k with O => p | S _ => PBusy k p end.
Definition with_ph (p : phase) (c : channel) : channel :=
  mk_channel (t_count c) (t_lo c) (t_mid c) (t_hi c) (t_dev c) p (media c) (capacity c).
Definition with_reg (r v : Z) (c : channel) : channel :=
  mk_channel (if r =? 2 then v else t_count c) (if r =? 3 then v else t_lo c) (if r =? 4 then v else t_mid c)
    (if r =? 5 then v else t_hi c) (if r =? 6 then v else t_dev c) (ph c) (media c) (capacity c).
Definition store (slave : bool) (lba : Z) (ws : list Z) (c : channel) : channel :=
  mk_channel (t_count c) (t_lo c) (t_mid c) (t_hi c) (t_dev c) (ph c)
    (λ s l, if bool_decide (s = slave ∧ l = lba) then ws else media c s l) (capacity c).
(** The status register: BSY, DRQ and ERR. *)
Definition status_bits (p : phase) (v : Z) : Prop :=
  match p with
  | PIdle => has v ATA_STATUS_BSY = false ∧ has v ATA_STATUS_DRQ = false ∧ has v ATA_STATUS_ERR = false
  | PBusy _ _ => has v ATA_STATUS_BSY = true ∧ has v ATA_STATUS_ERR = false
  | PRead _ _ | PWrite _ _ _ _ => has v ATA_STATUS_BSY = false ∧ has v ATA_STATUS_DRQ = true ∧ has v ATA_STATUS_ERR = false
  end.
Definition after_poll (p : phase) : phase := match p with PBusy (S k) q => busy k q | PBusy O q => q | _ => p end.
(** The sectors the task file addresses in LBA mode, if they are on the drive. *)
Definition addressed (c : channel) : option (bool * Z * Z) :=
  let slave := Z.testbit (t_dev c) 4 in
  let lba := t_lo c + 2 ^ 8 * t_mid c + 2 ^ 16 * t_hi c + 2 ^ 24 * Z.land (t_dev c) 0xF in
  let n := if t_count c =? 0 then 256 else t_count c in
  if Z.testbit (t_dev c) 6 && (lba + n <=? capacity c slave) then Some (slave, lba, n) else None.
Definition sector_range (c : channel) (slave : bool) (lba n : Z) : list (list Z) := media c slave <$> seqZ lba n.
Definition reading (l : list (list Z)) : phase := match l with [] => PIdle | s :: r => PRead s r end.
(** The phase after the last word of a sector. *)
Definition after_word (k : nat) (ws : list Z) (rest : list (list Z)) : phase :=
  match ws, rest with [], [] => PIdle | [], _ => busy k (reading rest) | _, _ => PRead ws rest end.
Definition after_store (k : nat) (slave : bool) (lba n : Z) : phase :=
  busy k (if n =? 1 then PIdle else PWrite slave (lba + 1) (n - 1) []).

Class AtaLaws (H : Type) `{PortIO H} (base ctl : Z) := {
  chan : H → channel;
  ata_status : ∀ h, status_bits (ph (chan h)) (u8 (fst (port_inb (base + 7) h))) ∧
    chan (snd (port_inb (base + 7) h)) = with_ph (after_poll (ph (chan h))) (chan h);
  ata_other_in : ∀ p h, p < base ∨ base + 7 < p → chan (snd (port_inb p h)) = chan h;
  ata_other_out : ∀ p v h, p < base ∨ base + 7 < p → p ≠ ctl → chan (port_outb p v h) = chan h;
  ata_control : ∀ v h, v = 0 ∨ v = ATA_CTL_nIEN → chan (port_outb ctl v h) = chan h;
  ata_reg : ∀ r v h, 2 ≤ r ≤ 6 → ph (chan h) = PIdle → chan (port_outb (base + r) v h) = with_reg r v (chan h);
  ata_cmd_read : ∀ h s l n, ph (chan h) = PIdle → addressed (chan h) = Some (s, l, n) →
    ∃ k, Z.of_nat k < ATA_TIMEOUT ∧
      chan (port_outb (base + 7) ATA_CMD_READ_SECTORS h) = with_ph (busy k (reading (sector_range (chan h) s l n))) (chan h);
  ata_data_in : ∀ h w ws rest, ph (chan h) = PRead (w :: ws) rest →
    fst (port_inw (base + 0) h) = w ∧ ∃ k, Z.of_nat k < ATA_TIMEOUT ∧
      chan (snd (port_inw (base + 0) h)) = with_ph (after_word k ws rest) (chan h);
  ata_cmd_write : ∀ h s l n, ph (chan h) = PIdle → addressed (chan h) = Some (s, l, n) →
    ∃ k, Z.of_nat k < ATA_TIMEOUT ∧ chan (port_outb (base + 7) ATA_CMD_WRITE_SECTORS h) = with_ph (busy k (PWrite s l n [])) (chan h);
  ata_data_out : ∀ h w s l n ws, ph (chan h) = PWrite s l n ws → (length ws < 255)%nat → is_word w →
    chan (port_outw (base + 0) w h) = with_ph (PWrite s l n (ws ++ [w])) (chan h);
  ata_data_last : ∀ h w s l n ws, ph (chan h) = PWrite s l n ws → length ws = 255%nat → is_word w →
    ∃ k, Z.of_nat k < ATA_TIMEOUT ∧ chan (port_outw (base + 0) w h) = with_ph (after_store k s l n) (store s l (ws ++ [w]) (chan h));
  ata_cmd_flush : ∀ h, ph (chan h) = PIdle →
    ∃ k, Z.of_nat k < ATA_TIMEOUT ∧ chan (port_outb (base + 7) ATA_CMD_FLUSH_CACHE h) = with_ph (busy k PIdle) (chan h) }.

(** ** The driver on such a channel *)
Section disk.
Context {H : Type} `{PicLaws H} (base ctl line : Z) `{!AtaLaws H base ctl}.
(** The ports of the channel, its control port, the interrupt controllers and the
    delay port are different, and the interrupt line is one of sixteen. *)
Context (Hports : Forall (λ p, p < base ∨ base + 7 < p) [PIC1_CMD; PIC1_DATA; PIC2_CMD; PIC2_DATA; 0x80; ctl])
  (Hctl : ctl ∉ [PIC1_CMD; PIC1_DATA; PIC2_CMD; PIC2_DATA]) (Hline : 0 ≤ line < 16).
Notation M := (machine H ata_state).
Implicit Types (m : M) (ch : channel) (d : ata_state) (mk : Z → bool).

(** The machine shows the channel [ch], the driver state [d] and the line masks [mk]. *)
Definition sees m ch d mk : Prop :=
  chan (hw m) = ch ∧ drv m = d ∧ operational m ∧ ∀ i, 0 ≤ i < 16 → line_masked i m = mk i.

Lemma port_outside p : p ∈ [PIC1_CMD; PIC1_DATA; PIC2_CMD; PIC2_DATA; 0x80; ctl] → p < base ∨ base + 7 < p.
Proof. rewrite Forall_forall in Hports. apply Hports. Qed.
Lemma channel_port r c : 0 ≤ r ≤ 7 → base + r ≠ cmd_port c ∧ base + r ≠ data_port c.
Proof.
  intros Hr. pose proof (port_outside PIC1_CMD ltac:(set_solver)). pose proof (port_outside PIC1_DATA ltac:(set_solver)).
  pose proof (port_outside PIC2_CMD ltac:(set_solver)). pose proof (port_outside PIC2_DATA ltac:(set_solver)). destruct c; cbn; lia.
Qed.
(** A machine whose controllers are unchanged shows the same masks. *)
Lemma sees_hw m ch d mk h ch' : sees m ch d mk → chan h = ch' → (∀ c, pic c h = pic c (hw m)) → sees (with_hw h m) ch' d mk.
Proof.
  intros (Hc & Hd & Hop & Hm) Hh Hp. split; [done|]. split; [done|]. split.
  - intros c. change (icw (pic c h) = 0). rewrite Hp. apply Hop.
  - intros i Hi. rewrite <- Hm by done. change (Z.testbit (imr (pic (chip_of i) h)) (i mod 8) = Z.testbit (imr (pic (chip_of i) (hw m))) (i mod 8)). by rewrite Hp.
Qed.

Lemma inb_outside p m ch d mk : p < base ∨ base + 7 < p → p ≠ PIC1_CMD → p ≠ PIC2_CMD → sees m ch d mk →
  ∃ v m', inb p m = Ret (v, m') ∧ sees m' ch d mk.
Proof.
  intros Hp H1' H2' Hs. unfold inb. cbn. pose proof (ata_other_in p (hw m) Hp) as Hc. pose proof (λ c, pic_read_keeps p c (hw m) H1' H2') as Hk.
  destruct (port_inb p (hw m)) as [v h]. cbn in *. eexists _, _. split; [reflexivity|]. apply (sees_hw m ch d mk); [done| |done]. destruct Hs as [<- _]. done.
Qed.
Lemma status_read m ch d mk : sees m ch d mk →
  ∃ v m', inb (base + ATA_REG_STATUS) m = Ret (v, m') ∧ status_bits (ph ch) v ∧ sees m' (with_ph (after_poll (ph ch)) ch) d mk.
Proof.
  intros Hs. unfold inb. cbn. change (base + ATA_REG_STATUS) with (base + 7). destruct (ata_status (hw m)) as [Hb Hc].
  destruct (channel_port 7 false ltac:(lia)) as [Hp1 _]. destruct (channel_port 7 true ltac:(lia)) as [Hp2 _].
  pose proof (λ c, pic_read_keeps (base + 7) c (hw m) Hp1 Hp2) as Hk. destruct (port_inb (base + 7) (hw m)) as [v h]. cbn in *.
  pose proof Hs as [<- _]. eexists _, _. split; [reflexivity|]. split; [done|]. by apply (sees_hw m (chan (hw m)) d mk).
Qed.
(** A write to a register or command port of the channel. *)
Lemma channel_out r v m ch d mk ch' : 0 ≤ r ≤ 7 → sees m ch d mk → chan (port_outb (base + r) (u8 v) (hw m)) = ch' →
  ∃ m', outb (base + r) v m = Ret (tt, m') ∧ sees m' ch' d mk.
Proof.
  intros Hr Hs Hc. eexists. split; [reflexivity|]. apply (sees_hw m ch d mk); [done|done|].
  intros c. destruct (channel_port r c Hr). by apply pic_write_other.
Qed.
Lemma set_reg r v m ch d mk : sees m ch d mk → 2 ≤ r ≤ 6 → ph ch = PIdle →
  ∃ m', outb (base + r) v m = Ret (tt, m') ∧ sees m' (with_reg r (u8 v) ch) d mk.
Proof. intros Hs Hr Hp. apply (channel_out r v m ch); [lia|done|]. destruct Hs as [<- _]. by apply ata_reg. Qed.
Lemma control_out v m ch d mk : v = 0 ∨ v = ATA_CTL_nIEN → sees m ch d mk → ∃ m', outb ctl v m = Ret (tt, m') ∧ sees m' ch d mk.
Proof.
  intros Hv Hs. eexists. split; [reflexivity|]. apply (sees_hw m ch d mk); [done| |].
  - destruct Hs as [<- _]. replace (u8 v) with v by (by destruct Hv as [-> | ->]). by apply ata_control.
  - intros c. apply pic_write_other; intros E; apply Hctl; rewrite E; destruct c; cbn; set_solver.
Qed.
Lemma delay_spec m ch d mk : sees m ch d mk → ∃ m', ata_delay m = Ret (tt, m') ∧ sees m' ch d mk.
Proof.
  intros Hs. apply (io_for_ind (λ _ t, sees t ch d mk)); [lia|done|]. intros i t _ Ht.
  destruct (inb_outside 0x80 t ch d mk) as (v & t' & E & Ht'); [apply port_outside; set_solver | done | done | done |].
  exists t'. split; [|done]. by rewrite (io_bind_step _ _ _ _ _ E).
Qed.

(** ** The controller's record *)
Definition ctrl_at d c (x : ata_controller_t) : Prop :=
  zlookup (controllers d) c = Some x ∧ io_base x = base ∧ ctrl_base x = ctl ∧ irq x = line.
Definition put d c (x : ata_controller_t) : ata_state := set_ctrls (zinsert (controllers d) c x) d.
Lemma put_at d c x y : ctrl_at d c x → io_base y = base → ctrl_base y = ctl → irq y = line → ctrl_at (put d c y) c y.
Proof. intros (Hl & _) ? ? ?. split; [|done]. cbn. apply zlookup_zinsert_eq. by eapply zlookup_Some_lt. Qed.
Lemma put_put d c x y : 0 ≤ c → put (put d c x) c y = put d c y.
Proof.
  intros Hc. unfold put, set_ctrls. cbn. f_equal. unfold zinsert. destruct (Z.ltb_spec c 0); [lia|]. apply list_insert_insert_eq.
Qed.
Lemma get_ctrl_spec m ch d mk c x : sees m ch d mk → ctrl_at d c x → get_ctrl c m = Ret (x, m).
Proof. intros (_ & <- & _) (Hl & _). unfold get_ctrl, gets, lift, mbind, io_bind, compose. by rewrite Hl. Qed.
Lemma upd_ctrl_spec m ch d mk c x f : sees m ch d mk → ctrl_at d c x →
  ∃ m', upd_ctrl c f m = Ret (tt, m') ∧ sees m' ch (put d c (f x)) mk.
Proof.
  intros Hs Hc. unfold upd_ctrl. rewrite (io_bind_step _ _ _ _ _ (get_ctrl_spec _ _ _ _ _ _ Hs Hc)). eexists. split; [reflexivity|].
  destruct Hs as (Hch & <- & Hop & Hm). done.
Qed.

(** ** The interrupt line *)
Lemma pic_frame_bits (f : Z → Z → Z) m m' : 
  (let '(port, i) := pic_line line in v ← pic_read_data port; b ← BIT i; pic_send_data (f v b) port) m = Ret (tt, m') →
  chan (hw m') = chan (hw m) ∧ drv m' = drv m.
Proof.
  rewrite pic_line_spec by done. unfold pic_read_data, pic_send_data, inb, outb, BIT, mbind, io_bind, mret, io_ret, io_fail. cbn.
  set (p := data_port (chip_of line)).
  assert (p < base ∨ base + 7 < p) as Hp by (apply port_outside; subst p; destruct (chip_of line); cbn; set_solver).
  assert (p ≠ ctl) as Hpc by (intros E; apply Hctl; rewrite <- E; subst p; destruct (chip_of line); cbn; set_solver).
  pose proof (ata_other_in p (hw m) Hp) as Hi. destruct (port_inb p (hw m)) as [v h]. cbn in *.
  destruct (line mod 8 <? 64); [|done]. intros [= <-]. cbn. split; [|done]. by rewrite ata_other_out.
Qed.
Lemma disable_line m ch d mk : sees m ch d mk →
  ∃ m', pic_disable_irq line m = Ret (tt, m') ∧ sees m' ch d (λ i, if i =? line then true else mk i).
Proof.
  intros (Hc & Hd & Hop & Hm). destruct (pic_disable_irq_spec line m Hop Hline) as (m' & E & Hop' & Hm' & _). exists m'. split; [done|].
  destruct (pic_frame_bits _ _ _ E) as [Hc' Hd']. split; [congruence|]. split; [congruence|]. split; [done|]. intros i Hi. rewrite Hm' by done. by rewrite Hm.
Qed.
Lemma enable_line m ch d mk : sees m ch d mk →
  ∃ m', pic_enable_irq line m = Ret (tt, m') ∧ sees m' ch d (λ i, if i =? line then false else mk i).
Proof.
  intros (Hc & Hd & Hop & Hm). destruct (pic_enable_irq_spec line m Hop Hline) as (m' & E & Hop' & Hm' & _). exists m'. split; [done|].
  destruct (pic_frame_bits _ _ _ E) as [Hc' Hd']. split; [congruence|]. split; [congruence|]. split; [done|]. intros i Hi. rewrite Hm' by done. by rewrite Hm.
Qed.
Lemma masked_line m ch d mk : sees m ch d mk → ∃ m', pic_is_irq_masked line m = Ret (mk line, m') ∧ sees m' ch d mk.
Proof.
  intros Hs. pose proof Hs as (Hc & Hd & Hop & Hm). destruct (pic_is_irq_masked_spec line m Hop Hline) as (m' & E & Hp). exists m'. rewrite <- (Hm line Hline). split; [done|].
  assert (chan (hw m') = chan (hw m) ∧ drv m' = drv m) as [Hc' Hd'].
  { revert E. unfold pic_is_irq_masked. rewrite pic_line_spec by done. unfold pic_read_data, inb, BIT, mbind, io_bind, mret, io_ret, io_fail. cbn.
    set (p := data_port (chip_of line)).
    assert (p < base ∨ base + 7 < p) as Hp' by (apply port_outside; subst p; destruct (chip_of line); cbn; set_solver).
    pose proof (ata_other_in p (hw m) Hp') as Hi. destruct (port_inb p (hw m)) as [v h]. cbn in *. destruct (line mod 8 <? 64); [|done]. by intros [= _ <-]. }
  split; [congruence|]. split; [congruence|]. split; [intros c; by rewrite Hp|]. intros i Hi. rewrite <- Hm by done. unfold line_masked. by rewrite Hp.
Qed.

Lemma set_interrupts_spec (b : bool) m ch d mk c x : sees m ch d mk → ctrl_at d c x →
  ∃ m', (if b then ata_enable_interrupts c else ata_disable_interrupts c) m = Ret (tt, m') ∧ sees m' ch (put d c (set_enabled b x)) mk.
Proof.
  intros Hs Hx. destruct Hx as (Hl & Hb & Hct & Hli). destruct b; [unfold ata_enable_interrupts | unfold ata_disable_interrupts];
    rewrite (io_bind_step _ _ _ _ _ (get_ctrl_spec _ _ _ _ _ _ Hs (conj Hl (conj Hb (conj Hct Hli))))), Hct;
    lazymatch goal with |- context [outb ctl ?v] => destruct (control_out v m ch d mk) as (m1 & E1 & Hs1); [by auto | done |] end;
    rewrite (io_bind_step _ _ _ _ _ E1); by apply (upd_ctrl_spec m1 ch d mk c x).
Qed.
(** The record and the masks during a transfer. *)
Definition quiet_ctrl d c (x : ata_controller_t) : ata_state := if interrupts_enabled x then put d c (set_enabled false x) else d.
Definition quiet_mask mk (i : Z) : bool := if i =? line then true else mk i.
Lemma quiet_at d c x : ctrl_at d c x → ctrl_at (quiet_ctrl d c x) c (set_enabled false x).
Proof.
  intros Hx. unfold quiet_ctrl. destruct (interrupts_enabled x) eqn:He.
  - pose proof Hx as (_ & ? & ? & ?). by apply (put_at d c x).
  - replace (set_enabled false x) with x by (destruct x; cbn in *; by subst). done.
Qed.
Lemma sees_mask m ch d mk mk' : sees m ch d mk → (∀ i, 0 ≤ i < 16 → mk i = mk' i) → sees m ch d mk'.
Proof. intros (Hc & Hd & Hop & Hm) He. split; [done|]. split; [done|]. split; [done|]. intros i Hi. rewrite Hm by done. by apply He. Qed.

Lemma transfer_begin_spec (delay : bool) m ch d mk c x : sees m ch d mk → ctrl_at d c x →
  ∃ m', transfer_begin c delay m = Ret ((interrupts_enabled x, mk line), m') ∧ sees m' ch (quiet_ctrl d c x) (quiet_mask mk).
Proof.
  intros Hs Hx. unfold transfer_begin. rewrite (io_bind_step _ _ _ _ _ (get_ctrl_spec _ _ _ _ _ _ Hs Hx)).
  assert (∃ m1, when (interrupts_enabled x) (ata_disable_interrupts c) m = Ret (tt, m1) ∧ sees m1 ch (quiet_ctrl d c x) mk) as (m1 & E1 & Hs1).
  { unfold quiet_ctrl, when. destruct (interrupts_enabled x); [by apply (set_interrupts_spec false) | by exists m]. }
  rewrite (io_bind_step _ _ _ _ _ E1). destruct Hx as (_ & _ & _ & Hli). rewrite Hli.
  destruct (masked_line m1 _ _ _ Hs1) as (m2 & E2 & Hs2). rewrite (io_bind_step _ _ _ _ _ E2).
  assert (∃ m3, when (negb (mk line)) (pic_disable_irq line;; when delay ata_delay) m2 = Ret (tt, m3) ∧ sees m3 ch (quiet_ctrl d c x) (quiet_mask mk)) as (m3 & E3 & Hs3).
  { unfold when. destruct (mk line) eqn:Hmk; cbn [negb].
    - exists m2. split; [done|]. apply (sees_mask _ _ _ mk); [done|]. intros i _. unfold quiet_mask. destruct (Z.eqb_spec i line) as [->|]; done.
    - destruct (disable_line m2 _ _ _ Hs2) as (m3 & E3 & Hs3). rewrite (io_bind_step _ _ _ _ _ E3). destruct delay; [|by exists m3]. by apply delay_spec. }
  rewrite (io_bind_step _ _ _ _ _ E3). by exists m3.
Qed.
(** Ending the transfer restores what it found. *)
Lemma transfer_end_spec m ch d' mk c x y : interrupts_enabled y = false → sees m ch d' (quiet_mask mk) → ctrl_at d' c y →
  ∃ m', transfer_end c (interrupts_enabled x, mk line) m = Ret (tt, m') ∧
    sees m' ch (if interrupts_enabled x then put d' c (set_enabled true y) else d') mk.
Proof.
  intros Hy Hs Hx. unfold transfer_end. rewrite (io_bind_step _ _ _ _ _ (get_ctrl_spec _ _ _ _ _ _ Hs Hx)). cbn [fst snd].
  assert (irq y = line) as -> by (by destruct Hx as (_ & _ & _ & ?)).
  assert (∃ m1, when (negb (mk line)) (pic_enable_irq line) m = Ret (tt, m1) ∧ sees m1 ch d' mk) as (m1 & E1 & Hs1).
  { unfold when. destruct (mk line) eqn:Hmk; cbn [negb].
    - exists m. split; [done|]. apply (sees_mask _ _ _ _ mk Hs). intros i _. unfold quiet_mask. destruct (Z.eqb_spec i line) as [->|]; done.
    - destruct (enable_line m _ _ _ Hs) as (m1 & E1 & Hs1). exists m1. split; [done|]. apply (sees_mask _ _ _ _ mk Hs1). intros i _.
      unfold quiet_mask. destruct (Z.eqb_spec i line) as [->|]; done. }
  rewrite (io_bind_step _ _ _ _ _ E1). unfold when. destruct (interrupts_enabled x); [by apply (set_interrupts_spec true) | by exists m1].
Qed.

(** ** Waiting *)
Definition settled (p : phase) : Prop := match p with PBusy _ _ => False | _ => True end.
Definition data_phase (p : phase) : Prop := match p with PRead _ _ | PWrite _ _ _ _ => True | _ => False end.
Lemma after_poll_settled p : settled p → after_poll p = p.
Proof. by destruct p. Qed.
Lemma settled_bits p v : settled p → status_bits p v → has v ATA_STATUS_BSY = false.
Proof. destruct p; cbn [settled status_bits]; tauto. Qed.
Lemma data_bits p v : data_phase p → status_bits p v →
  has v ATA_STATUS_BSY = false ∧ has v ATA_STATUS_DRQ = true ∧ has v ATA_STATUS_ERR = false.
Proof. destruct p; cbn [data_phase status_bits]; tauto. Qed.
Lemma data_settled p : data_phase p → settled p.
Proof. by destruct p. Qed.
Lemma with_ph_same ch : with_ph (ph ch) ch = ch.
Proof. by destruct ch. Qed.

Lemma wait_bsy_loop_spec n k p m ch d mk : settled p → ph ch = busy k p → (k < n)%nat → sees m ch d mk →
  ∃ m', wait_bsy_loop n base m = Ret (ATA_OK, m') ∧ sees m' (with_ph p ch) d mk.
Proof.
  intros Hp. revert k m ch. induction n as [|n IH]; intros k m ch Hk Hn Hs; [lia|]. cbn [wait_bsy_loop].
  destruct (status_read m ch d mk Hs) as (v & m1 & E1 & Hb & Hs1). rewrite (io_bind_step _ _ _ _ _ E1). rewrite Hk in Hb, Hs1. destruct k as [|k]; cbn [busy] in *.
  - rewrite (settled_bits p v Hp Hb). rewrite after_poll_settled in Hs1 by done. by exists m1.
  - destruct Hb as [-> _]. cbn [negb]. destruct (IH k m1 (with_ph (busy k p) ch)) as (m2 & E2 & Hs2); [done|lia|done|]. by exists m2.
Qed.
Lemma wait_drq_loop_spec n k p m ch d mk : data_phase p → ph ch = busy k p → (k < n)%nat → sees m ch d mk →
  ∃ m', wait_drq_loop n base m = Ret (ATA_OK, m') ∧ sees m' (with_ph p ch) d mk.
Proof.
  intros Hp. revert k m ch. induction n as [|n IH]; intros k m ch Hk Hn Hs; [lia|]. cbn [wait_drq_loop].
  destruct (status_read m ch d mk Hs) as (v & m1 & E1 & Hb & Hs1). rewrite (io_bind_step _ _ _ _ _ E1). rewrite Hk in Hb, Hs1. destruct k as [|k]; cbn [busy] in *.
  - destruct (data_bits p v Hp Hb) as (-> & -> & ->). rewrite after_poll_settled in Hs1 by (by apply data_settled). by exists m1.
  - destruct Hb as [-> ->]. rewrite andb_false_r. destruct (IH k m1 (with_ph (busy k p) ch)) as (m2 & E2 & Hs2); [done|lia|done|]. by exists m2.
Qed.
Lemma wait_bsy_spec k p m ch d mk : settled p → ph ch = busy k p → Z.of_nat k < ATA_TIMEOUT → sees m ch d mk →
  ∃ m', ata_wait_bsy base m = Ret (ATA_OK, m') ∧ sees m' (with_ph p ch) d mk.
Proof. intros Hp Hk Hn. apply (wait_bsy_loop_spec _ k); [done|done|lia]. Qed.

Lemma sector_ready_spec c k p m ch d mk : data_phase p → ph ch = busy k p → Z.of_nat k < ATA_TIMEOUT → sees m ch d mk →
  ∃ m', sector_ready c base m = Ret (None, m') ∧ sees m' (with_ph p ch) d mk.
Proof.
  intros Hp Hk Hn Hs. unfold sector_ready, ata_wait_drq.
  destruct (wait_drq_loop_spec (Z.to_nat ATA_TIMEOUT) k p m ch d mk Hp Hk ltac:(lia) Hs) as (m1 & E1 & Hs1). rewrite (io_bind_step _ _ _ _ _ E1).
  change (negb (ATA_OK =? ATA_OK)) with false. cbn iota. destruct (status_read m1 _ d mk Hs1) as (v & m2 & E2 & Hb & Hs2). rewrite (io_bind_step _ _ _ _ _ E2).
  cbn [ph with_ph] in Hb, Hs2. destruct (data_bits p v Hp Hb) as (_ & _ & ->). rewrite after_poll_settled in Hs2 by (by apply data_settled). by exists m2.
Qed.
Lemma between_sectors_spec n k p m ch d mk : data_phase p → ph ch = busy k p → Z.of_nat k < ATA_TIMEOUT → sees m ch d mk →
  ∃ m', between_sectors (S n) base m = Ret (tt, m') ∧ sees m' (with_ph p ch) d mk.
Proof.
  intros Hp Hk Hn Hs. cbn [between_sectors]. destruct (status_read m ch d mk Hs) as (v & m1 & E1 & Hb & Hs1). rewrite (io_bind_step _ _ _ _ _ E1).
  rewrite Hk in Hb, Hs1. destruct k as [|k]; cbn [busy] in *.
  - destruct (data_bits p v Hp Hb) as (-> & -> & _). rewrite after_poll_settled in Hs1 by (by apply data_settled). by exists m1.
  - destruct Hb as [-> _]. destruct (wait_bsy_spec k p m1 (with_ph (busy k p) ch) d mk) as (m2 & E2 & Hs2); [by apply data_settled|done|lia|done|].
    rewrite (io_bind_step _ _ _ _ _ E2). by exists m2.
Qed.

(** ** Reading *)
Lemma read_words_spec ws rest at_ buf m ch d mk : ws ≠ [] → ph ch = PRead ws rest → Forall is_word ws → 0 ≤ at_ →
  at_ + Z.of_nat (length ws) ≤ Z.of_nat (length buf) → sees m ch d mk →
  ∃ k m', Z.of_nat k < ATA_TIMEOUT ∧ read_words (length ws) base at_ buf m = Ret (list_inserts (Z.to_nat at_) ws buf, m') ∧
    sees m' (with_ph (after_word k [] rest) ch) d mk.
Proof.
  revert at_ buf m ch. induction ws as [|w ws IH]; intros at_ buf m ch Hne Hp Hw Hat Hl Hs; [done|]. cbn [length] in Hl. cbn [length read_words]. inversion_clear Hw as [|? ? Hw1 Hws].
  unfold inw at 1, mbind at 1, io_bind at 1. cbn. change (base + ATA_REG_DATA) with (base + 0). pose proof Hs as [Hch _].
  destruct (ata_data_in (hw m) w ws rest ltac:(by rewrite Hch)) as (Hv & k & Hk & Hc). pose proof (λ c, proj1 (pic_words (base + 0) 0 c (hw m))) as Hpk.
  destruct (port_inw (base + 0) (hw m)) as [v h]. cbn in Hv, Hc, Hpk. subst v. rewrite (u16_word w Hw1). rewrite Hch in Hc.
  pose proof (sees_hw m ch d mk h _ Hs Hc Hpk) as Hs1. destruct (zlookup_lt_is_Some buf at_) as [y Hy]; [lia|].
  unfold lift, mbind at 1, io_bind at 1. rewrite Hy. cbn [access]. destruct ws as [|w' ws].
  - exists k, (with_hw h m). split; [done|]. split; [|done]. cbn. unfold mret, io_ret, zinsert. destruct (Z.ltb_spec at_ 0); [lia|done].
  - destruct (IH (at_ + 1) (zinsert buf at_ w) (with_hw h m) (with_ph (PRead (w' :: ws) rest) ch)) as (k' & m' & Hk' & E & Hs');
      [done | done | done | lia | rewrite length_zinsert; cbn [length] in *; lia | done |].
    exists k', m'. split; [done|]. split; [|done]. rewrite E. do 2 f_equal. unfold zinsert. destruct (Z.ltb_spec at_ 0); [lia|].
    replace (Z.to_nat (at_ + 1)) with (S (Z.to_nat at_)) by lia. symmetry. apply (list_insert_inserts_lt buf (Z.to_nat at_) (S (Z.to_nat at_)) w (w' :: ws)). lia.
Qed.

Definition sector_ok (s : list Z) : Prop := length s = 256%nat ∧ Forall is_word s.
Lemma read_sectors_spec c s secs k sec sectors buf m ch d mk : Forall sector_ok (s :: secs) → ph ch = busy k (reading (s :: secs)) → Z.of_nat k < ATA_TIMEOUT →
  0 ≤ sec → sec + Z.of_nat (length (s :: secs)) = sectors → 256 * sectors ≤ Z.of_nat (length buf) → sees m ch d mk →
  ∃ m', read_sectors (length (s :: secs)) c base sec sectors buf m =
      Ret ((ATA_OK, list_inserts (Z.to_nat (256 * sec)) (concat (s :: secs)) buf), m') ∧ sees m' (with_ph PIdle ch) d mk.
Proof.
  revert s k sec buf m ch. induction secs as [|s' secs IH]; intros s k sec buf m ch Hok Hp Hk Hsec Hn Hb Hs; cbn [length read_sectors].
  all: inversion_clear Hok as [|? ? [Hl Hw] Hok'].
  all: destruct (sector_ready_spec c k (PRead s _) m ch d mk I Hp Hk Hs) as (m1 & E1 & Hs1); rewrite (io_bind_step _ _ _ _ _ E1).
  all: destruct (read_words_spec s _ (sec * 256) buf m1 (with_ph (PRead s _) ch) d mk ltac:(by destruct s) eq_refl Hw ltac:(lia) ltac:(cbn [length] in Hn; lia) Hs1) as (k2 & m2 & Hk2 & E2 & Hs2).
  all: rewrite Hl in E2; rewrite (io_bind_step _ _ _ _ _ E2). all: rewrite (Z.mul_comm 256 sec); cbn [length] in Hn.
  - rewrite (proj2 (Z.ltb_ge sec (sectors - 1))) by lia. exists m2. split; [|done]. cbn [concat]. rewrite app_nil_r. done.
  - rewrite (proj2 (Z.ltb_lt sec (sectors - 1))) by lia. cbn [when]. unfold when.
    destruct (delay_spec m2 _ d mk Hs2) as (m3 & E3 & Hs3).
    destruct (between_sectors_spec 999 k2 (PRead s' secs) m3 (with_ph (busy k2 (PRead s' secs)) ch) d mk) as (m4 & E4 & Hs4); [done|done|done|exact Hs3|].
    assert ((ata_delay;; between_sectors 1000 base) m2 = Ret (tt, m4)) as E34 by (rewrite (io_bind_step _ _ _ _ _ E3); exact E4).
    rewrite (io_bind_step _ _ _ _ _ E34).
    destruct (IH s' 0%nat (sec + 1) (list_inserts (Z.to_nat (sec * 256)) s buf) m4 (with_ph (PRead s' secs) ch)) as (m5 & E5 & Hs5);
      [done | done | done | lia | cbn [length]; lia | by rewrite length_inserts | exact Hs4 |].
    exists m5. split; [|exact Hs5]. etransitivity; [exact E5|]. do 3 f_equal. cbn [concat]. rewrite (list_inserts_app_l s). f_equal. rewrite Hl. lia.
Qed.

(** ** The address of a transfer *)
Definition drive_of (slave : bool) : ata_device_t := if slave then ATA_DEVICE_SLAVE else ATA_DEVICE_MASTER.
Definition dev_raw (slave : bool) (lba : Z) : Z :=
  Z.lor (Z.lor ATA_DEV_LBA (match drive_of slave with ATA_DEVICE_SLAVE => ATA_DEV_SLAVE | _ => 0 end)) (Z.land (Z.shiftr lba 24) 0x0F).
Definition dev_byte (slave : bool) (lba : Z) : Z := u8 (dev_raw slave lba).
Definition sec_count (sectors : Z) : Z := if sectors =? 256 then 0 else sectors.
(** The task file after the driver has programmed a transfer. *)
Definition programmed (slave : bool) (lba sectors : Z) ch : channel :=
  with_reg 5 (u8 (Z.land (Z.shiftr lba 16) 0xFF)) (with_reg 4 (u8 (Z.land (Z.shiftr lba 8) 0xFF)) (with_reg 3 (u8 (Z.land lba 0xFF))
    (with_reg 2 (u8 (sec_count sectors)) (with_reg 6 (dev_byte slave lba) ch)))).

Lemma dev_byte_bits slave lba : 0 ≤ lba < 2 ^ 28 →
  Z.testbit (dev_byte slave lba) 4 = slave ∧ Z.testbit (dev_byte slave lba) 6 = true ∧ Z.land (dev_byte slave lba) 0xF = lba / 2 ^ 24.
Proof.
  intros Hl. unfold dev_byte, dev_raw. rewrite Z.shiftr_div_pow2 by lia. assert (0 ≤ lba / 2 ^ 24 < 16) as Hh by (split; [apply Z.div_pos; lia | apply Z.div_lt_upper_bound; lia]).
  generalize dependent (lba / 2 ^ 24). intros h Hh. clear Hl lba.
  assert (Forall (λ h, let b := u8 (Z.lor (Z.lor ATA_DEV_LBA (match drive_of slave with ATA_DEVICE_SLAVE => ATA_DEV_SLAVE | _ => 0 end)) (Z.land h 0x0F)) in
    Z.testbit b 4 = slave ∧ Z.testbit b 6 = true ∧ Z.land b 0xF = h) (seqZ 0 16)) as Hall.
  { cbv zeta. destruct slave; apply (bool_decide_unpack _); vm_compute; exact I. }
  rewrite Forall_forall in Hall. apply (Hall h), elem_of_seqZ. lia.
Qed.
Lemma addressed_spec slave lba sectors ch : 0 ≤ lba → 1 ≤ sectors ≤ 256 → lba + sectors ≤ capacity ch slave → capacity ch slave ≤ 2 ^ 28 →
  addressed (programmed slave lba sectors ch) = Some (slave, lba, sectors).
Proof.
  intros Hl Hs Hc Hcap. unfold addressed, programmed. cbn [t_dev t_lo t_mid t_hi t_count with_reg Z.eqb Pos.eqb capacity].
  destruct (dev_byte_bits slave lba) as (-> & -> & ->); [lia|].
  change 0xFF with (2 ^ 8 - 1). rewrite !mask_land, !Z.shiftr_div_pow2 by lia. unfold u8. rewrite !Zmod_mod. fold (u8 (sec_count sectors)).
  assert (lba mod 2 ^ 8 + 2 ^ 8 * (lba / 2 ^ 8 mod 2 ^ 8) + 2 ^ 16 * (lba / 2 ^ 16 mod 2 ^ 8) + 2 ^ 24 * (lba / 2 ^ 24) = lba) as ->.
  { change (2 ^ 24) with (2 ^ 16 * 2 ^ 8) at 2. rewrite <- (Z.div_div lba (2 ^ 16)) by lia. change (2 ^ 16) with (2 ^ 8 * 2 ^ 8) at 2 3.
    rewrite <- (Z.div_div lba (2 ^ 8)) by lia. clear. Z.to_euclidean_division_equations. lia. }
  assert ((if u8 (sec_count sectors) =? 0 then 256 else u8 (sec_count sectors)) = sectors) as ->.
  { unfold sec_count. destruct (Z.eqb_spec sectors 256) as [->|]; [done|]. rewrite u8_small by lia. destruct (Z.eqb_spec sectors 0); lia. }
  by rewrite (proj2 (Z.leb_le _ _)) by lia.
Qed.

(** Programs the device register, waits, and programs the rest of the task file. *)
Lemma program_spec slave lba sectors m ch d mk : ph ch = PIdle → sees m ch d mk →
  ∃ m1 m2 m3, set_lba28 base (drive_of slave) lba m = Ret (tt, m1) ∧ (ata_delay;; ata_wait_bsy base) m1 = Ret (ATA_OK, m2) ∧
    set_address base (sec_count sectors) lba m2 = Ret (tt, m3) ∧ sees m3 (programmed slave lba sectors ch) d mk.
Proof.
  intros Hp Hs. unfold set_lba28.
  destruct (set_reg 6 (dev_raw slave lba) m ch d mk Hs ltac:(lia) Hp) as (m1 & E1 & Hs1). destruct (delay_spec m1 _ _ _ Hs1) as (m1' & Ed & Hs1').
  destruct (wait_bsy_spec 0 PIdle m1' (with_reg 6 (u8 (dev_raw slave lba)) ch) d mk I Hp ltac:(done) Hs1') as (m2 & E2 & Hs2).
  unfold set_address.
  destruct (set_reg 2 (sec_count sectors) m2 _ d mk Hs2 ltac:(lia) eq_refl) as (m3 & E3 & Hs3).
  destruct (set_reg 3 (Z.land lba 0xFF) m3 _ d mk Hs3 ltac:(lia) eq_refl) as (m4 & E4 & Hs4).
  destruct (set_reg 4 (Z.land (Z.shiftr lba 8) 0xFF) m4 _ d mk Hs4 ltac:(lia) eq_refl) as (m5 & E5 & Hs5).
  destruct (set_reg 5 (Z.land (Z.shiftr lba 16) 0xFF) m5 _ d mk Hs5 ltac:(lia) eq_refl) as (m6 & E6 & Hs6).
  exists m1, m2, m6. split; [exact E1|]. split; [by rewrite (io_bind_step _ _ _ _ _ Ed)|]. split.
  - rewrite (io_bind_step _ _ _ _ _ E3), (io_bind_step _ _ _ _ _ E4), (io_bind_step _ _ _ _ _ E5). exact E6.
  - replace (programmed slave lba sectors ch) with (with_reg 5 (u8 (Z.land (Z.shiftr lba 16) 0xFF)) (with_reg 4 (u8 (Z.land (Z.shiftr lba 8) 0xFF))
      (with_reg 3 (u8 (Z.land lba 0xFF)) (with_reg 2 (u8 (sec_count sectors)) (with_ph PIdle (with_reg 6 (dev_byte slave lba) ch)))))); [exact Hs6|].
    unfold programmed, with_reg, with_ph. cbn. by rewrite Hp.
Qed.

(** After the transfer the driver's state is as before, up to the count [y]. *)
Lemma transfer_restored d c x : ctrl_at d c x →
  (if interrupts_enabled x then put (quiet_ctrl d c x) c (set_enabled true (set_enabled false x)) else quiet_ctrl d c x) = d.
Proof.
  intros (Hl & _). unfold quiet_ctrl. pose proof (zlookup_Some_lt _ _ _ Hl). destruct (interrupts_enabled x) eqn:He; [|done].
  rewrite put_put by lia. replace (set_enabled true (set_enabled false x)) with x by (destruct x; cbn in *; by subst).
  unfold put, set_ctrls. destruct d; cbn in *. f_equal. unfold zlookup, zinsert in *. destruct (Z.ltb_spec c 0); [lia|]. by apply list_insert_id.
Qed.

Lemma ata_read_pio_spec m ch d mk c x slave lba buf sectors :
  sees m ch d mk → ctrl_at d c x → ph ch = PIdle → 0 ≤ lba → 1 ≤ sectors ≤ 256 →
  lba + sectors ≤ capacity ch slave → capacity ch slave ≤ 2 ^ 28 → 256 * sectors ≤ Z.of_nat (length buf) →
  (∀ l, sector_ok (media ch slave l)) →
  ∃ m', ata_read_pio c (drive_of slave) lba buf sectors m =
      Ret ((ATA_OK, concat (sector_range ch slave lba sectors) ++ drop (Z.to_nat (256 * sectors)) buf), m') ∧
    ∃ ch', sees m' ch' (put d c (count_read x)) mk ∧ ph ch' = PIdle ∧ media ch' = media ch.
Proof.
  intros Hs Hx Hp Hl Hn Hc Hcap Hb Hmok. unfold ata_read_pio. destruct (Z.eqb_spec sectors 0), (Z.ltb_spec 256 sectors); try lia. cbn [orb].
  destruct (transfer_begin_spec true m ch d mk c x Hs Hx) as (m1 & E1 & Hs1). rewrite (io_bind_step _ _ _ _ _ E1).
  pose proof (quiet_at d c x Hx) as Hx1. rewrite (io_bind_step _ _ _ _ _ (get_ctrl_spec _ _ _ _ _ _ Hs1 Hx1)).
  pose proof Hx1 as (_ & Hbase & _). rewrite Hbase. cbn zeta.
  destruct (status_read m1 _ _ _ Hs1) as (v & m2 & E2 & _ & Hs2). rewrite (io_bind_step _ _ _ _ _ E2). rewrite Hp in Hs2. cbn [after_poll] in Hs2.
  replace (with_ph PIdle ch) with ch in Hs2 by (destruct ch; cbn in *; by subst).
  destruct (program_spec slave lba sectors m2 ch _ _ Hp Hs2) as (m3 & m4 & m5 & E3 & E4 & E5 & Hs5).
  rewrite (io_bind_step _ _ _ _ _ E3). rewrite <- io_bind_assoc. rewrite (io_bind_step _ _ _ _ _ E4). change (negb (ATA_OK =? ATA_OK)) with false. cbn iota.
  fold (sec_count sectors). rewrite (io_bind_step _ _ _ _ _ E5).
  destruct (ata_cmd_read (hw m5) slave lba sectors) as (k & Hk & Hcmd); [destruct Hs5 as [-> _]; exact Hp | destruct Hs5 as [-> _]; by apply addressed_spec |].
  destruct (channel_out 7 ATA_CMD_READ_SECTORS m5 _ _ _ _ ltac:(lia) Hs5 Hcmd) as (m6 & E6 & Hs6). change (base + 7) with (base + ATA_REG_COMMAND) in E6.
  rewrite (io_bind_step _ _ _ _ _ E6). pose proof Hs5 as [Hch5 _]. rewrite Hch5 in Hs6.
  assert (Forall sector_ok (sector_range ch slave lba sectors)) as Hok.
  { apply Forall_fmap, Forall_forall. intros l _. apply Hmok. }
  assert (length (sector_range ch slave lba sectors) = Z.to_nat sectors) as Hlen by (unfold sector_range; by rewrite length_fmap, length_seqZ).
  change (sector_range (programmed slave lba sectors ch) slave lba sectors) with (sector_range ch slave lba sectors) in Hs6.
  assert (length (concat (sector_range ch slave lba sectors)) = Z.to_nat (256 * sectors)) as Hcl.
  { assert (∀ ss, Forall sector_ok ss → length (concat ss) = (256 * length ss)%nat) as Hlc.
    { induction 1 as [|q qs [Hq _] _ IHq]; [done|]. cbn [concat length]. rewrite length_app, Hq, IHq. lia. }
    rewrite (Hlc _ Hok), Hlen. lia. }
  destruct (sector_range ch slave lba sectors) as [|s secs] eqn:Hsr; [cbn in Hlen; lia|].
  destruct (read_sectors_spec c s secs k 0 sectors buf m6 (with_ph (busy k (reading (s :: secs))) (programmed slave lba sectors ch)) _ _ Hok eq_refl Hk ltac:(lia) ltac:(rewrite Hlen; lia) Hb Hs6) as (m7 & E7 & Hs7).
  rewrite Hlen in E7. rewrite (io_bind_step _ _ _ _ _ E7).
  destruct (transfer_end_spec m7 _ _ mk c x (set_enabled false x) eq_refl Hs7 Hx1) as (m8 & E8 & Hs8). rewrite (io_bind_step _ _ _ _ _ E8).
  rewrite (transfer_restored d c x Hx) in Hs8. cbn [fst]. change (ATA_OK =? ATA_OK) with true. unfold when.
  destruct (upd_ctrl_spec m8 _ _ _ c x count_read Hs8 Hx) as (m9 & E9 & Hs9). rewrite (io_bind_step _ _ _ _ _ E9).
  exists m9. split.
  - unfold mret, io_ret. do 3 f_equal. change (Z.to_nat (256 * 0)) with 0%nat.
    rewrite <- (take_drop (Z.to_nat (256 * sectors)) buf) at 1. apply list_inserts_0_r. rewrite Hcl, length_take. lia.
  - eexists. split; [exact Hs9|]. done.
Qed.

(** ** Writing *)
Lemma write_words_spec rest got at_ buf m ch d mk sl l n : rest ≠ [] → (length got + length rest = 256)%nat → ph ch = PWrite sl l n got →
  Forall is_word rest → 0 ≤ at_ → (∀ i x, rest !! i = Some x → zlookup buf (at_ + Z.of_nat i) = Some x) → sees m ch d mk →
  ∃ k m', Z.of_nat k < ATA_TIMEOUT ∧ write_words (length rest) base at_ buf m = Ret (tt, m') ∧
    sees m' (with_ph (after_store k sl l n) (store sl l (got ++ rest) ch)) d mk.
Proof.
  revert got at_ m ch. induction rest as [|w rest IH]; intros got at_ m ch Hne Hlen Hp Hw Hat Hb Hs; [done|]. cbn [length] in Hlen. inversion_clear Hw as [|? ? Hw1 Hws].
  cbn [length write_words]. unfold lift, mbind at 1, io_bind at 1. pose proof (Hb 0%nat w eq_refl) as Hb0. rewrite Z.add_0_r in Hb0. rewrite Hb0. cbn [access].
  unfold outw, mbind at 1, io_bind at 1. rewrite (u16_word w Hw1). change (base + ATA_REG_DATA) with (base + 0). pose proof Hs as [Hch _].
  pose proof (λ c, proj2 (pic_words (base + 0) w c (hw m))) as Hpk. destruct rest as [|w' rest].
  - cbn [length] in Hlen. destruct (ata_data_last (hw m) w sl l n got) as (k & Hk & Hc); [by rewrite Hch | lia | done |]. rewrite Hch in Hc.
    exists k. eexists. split; [done|]. split; [reflexivity|]. by apply (sees_hw m ch d mk).
  - cbn [length] in Hlen. pose proof (ata_data_out (hw m) w sl l n got ltac:(by rewrite Hch) ltac:(lia) Hw1) as Hc. rewrite Hch in Hc.
    pose proof (sees_hw m ch d mk _ _ Hs Hc Hpk) as Hs1.
    destruct (IH (got ++ [w]) (at_ + 1) (with_hw (port_outw (base + 0) w (hw m)) m) (with_ph (PWrite sl l n (got ++ [w])) ch)) as (k & m' & Hk & E & Hs'); [done | rewrite length_app; cbn; lia | done | done | lia | | exact Hs1 |].
    { intros i x Hi. replace (at_ + 1 + Z.of_nat i) with (at_ + Z.of_nat (S i)) by lia. by apply Hb. }
    exists k, m'. split; [done|]. split; [exact E|]. by rewrite <- app_assoc in Hs'.
Qed.
(** One sector: the command, the data, the end of the write, the flush. *)
Lemma write_sector_spec c sl l ws buf m ch d mk : ph ch = PIdle → addressed ch = Some (sl, l, 1) → length ws = 256%nat → Forall is_word ws →
  take 256 buf = ws → sees m ch d mk →
  ∃ m', write_sectors 1 ATA_CMD_WRITE_SECTORS (flush_cache base) c base 0 1 buf m = Ret (ATA_OK, m') ∧ sees m' (with_ph PIdle (store sl l ws ch)) d mk.
Proof.
  intros Hp Ha Hl Hw Hb Hs. cbn [write_sectors]. pose proof Hs as [Hch _].
  destruct (ata_cmd_write (hw m) sl l 1) as (k & Hk & Hc); [by rewrite Hch | by rewrite Hch |]. rewrite Hch in Hc.
  destruct (channel_out 7 ATA_CMD_WRITE_SECTORS m ch d mk _ ltac:(lia) Hs Hc) as (m1 & E1 & Hs1). change (base + 7) with (base + ATA_REG_COMMAND) in E1.
  rewrite (io_bind_step _ _ _ _ _ E1).
  destruct (sector_ready_spec c k (PWrite sl l 1 []) m1 (with_ph (busy k (PWrite sl l 1 [])) ch) d mk I eq_refl Hk Hs1) as (m2 & E2 & Hs2). rewrite (io_bind_step _ _ _ _ _ E2).
  destruct (write_words_spec ws [] (0 * 256) buf m2 (with_ph (PWrite sl l 1 []) ch) d mk sl l 1) as (k3 & m3 & Hk3 & E3 & Hs3);
    [by destruct ws | done | done | done | lia | | exact Hs2 |].
  { intros i x Hi. rewrite zlookup_nonneg by lia. replace (Z.to_nat (0 * 256 + Z.of_nat i)) with i by lia. rewrite <- Hb in Hi.
    by apply lookup_take_Some in Hi as [? _]. }
  rewrite Hl in E3. rewrite (io_bind_step _ _ _ _ _ E3). unfold after_store in Hs3. cbn [Z.eqb Pos.eqb app] in Hs3.
  destruct (wait_bsy_spec k3 PIdle m3 (with_ph (busy k3 PIdle) (store sl l ws ch)) d mk I eq_refl Hk3 Hs3) as (m4 & E4 & Hs4). rewrite (io_bind_step _ _ _ _ _ E4).
  change (0 =? 1 - 1) with true. unfold when, flush_cache. pose proof Hs4 as [Hch4 _].
  destruct (ata_cmd_flush (hw m4)) as (k5 & Hk5 & Hc5); [by rewrite Hch4|]. rewrite Hch4 in Hc5.
  destruct (channel_out 7 ATA_CMD_FLUSH_CACHE m4 _ d mk _ ltac:(lia) Hs4 Hc5) as (m5 & E5 & Hs5). change (base + 7) with (base + ATA_REG_COMMAND) in E5.
  destruct (wait_bsy_spec k5 PIdle m5 (with_ph (busy k5 PIdle) (store sl l ws ch)) d mk I eq_refl Hk5 Hs5) as (m6 & E6 & Hs6).
  assert ((outb (base + ATA_REG_COMMAND) ATA_CMD_FLUSH_CACHE;; ata_wait_bsy base;; mret tt) m4 = Ret (tt, m6)) as Ef.
  { rewrite (io_bind_step _ _ _ _ _ E5). by rewrite (io_bind_step _ _ _ _ _ E6). }
  rewrite (io_bind_step _ _ _ _ _ Ef). by exists m6.
Qed.
Lemma ata_write_pio_spec m ch d mk c x slave lba buf :
  sees m ch d mk → ctrl_at d c x → ph ch = PIdle → 0 ≤ lba → lba + 1 ≤ capacity ch slave → capacity ch slave ≤ 2 ^ 28 →
  (256 ≤ length buf)%nat → Forall is_word (take 256 buf) →
  ∃ m' ch', ata_write_pio c (drive_of slave) lba buf 1 m = Ret (ATA_OK, m') ∧ sees m' ch' (put d c (count_write x)) mk ∧
    ph ch' = PIdle ∧ capacity ch' = capacity ch ∧ media ch' = media (store slave lba (take 256 buf) ch).
Proof.
  intros Hs Hx Hp Hl Hc Hcap Hb Hw. unfold ata_write_pio. cbn [Z.eqb Z.ltb Z.compare orb Pos.compare Pos.compare_cont].
  destruct (transfer_begin_spec false m ch d mk c x Hs Hx) as (m1 & E1 & Hs1). rewrite (io_bind_step _ _ _ _ _ E1).
  pose proof (quiet_at d c x Hx) as Hx1. rewrite (io_bind_step _ _ _ _ _ (get_ctrl_spec _ _ _ _ _ _ Hs1 Hx1)).
  pose proof Hx1 as (_ & Hbase & _). rewrite Hbase. cbn zeta.
  destruct (program_spec slave lba 1 m1 ch _ _ Hp Hs1) as (m3 & m4 & m5 & E3 & E4 & E5 & Hs5).
  rewrite (io_bind_step _ _ _ _ _ E3). rewrite <- io_bind_assoc. rewrite (io_bind_step _ _ _ _ _ E4). change (negb (ATA_OK =? ATA_OK)) with false. cbn iota.
  change (set_address base 1 lba) with (set_address base (sec_count 1) lba). rewrite (io_bind_step _ _ _ _ _ E5).
  destruct (write_sector_spec c slave lba (take 256 buf) buf m5 (programmed slave lba 1 ch) (quiet_ctrl d c x) (quiet_mask mk)) as (m6 & E6 & Hs6);
    [exact Hp | by apply addressed_spec | rewrite length_take; lia | done | done | done |].
  change (Z.to_nat 1) with 1%nat. rewrite (io_bind_step _ _ _ _ _ E6).
  destruct (transfer_end_spec m6 _ _ mk c x (set_enabled false x) eq_refl Hs6 Hx1) as (m8 & E8 & Hs8). rewrite (io_bind_step _ _ _ _ _ E8).
  rewrite (transfer_restored d c x Hx) in Hs8. change (ATA_OK =? ATA_OK) with true. unfold when.
  destruct (upd_ctrl_spec m8 _ _ _ c x count_write Hs8 Hx) as (m9 & E9 & Hs9). rewrite (io_bind_step _ _ _ _ _ E9).
  eexists m9, _. split; [reflexivity|]. split; [exact Hs9|]. done.
Qed.

(** Reading from a drive. On a channel that follows the ATA protocol, whatever the
    times it is busy and whether interrupts are on or off, [ata_read_pio] puts exactly
    the addressed sectors at the front of the buffer and leaves the rest of it, the
    media and the interrupt masks as they were; it counts one read, and the channel
    is idle again. *)
Theorem ata_read_pio_returns_sectors m ch d mk c x slave lba buf sectors :
  sees m ch d mk → ctrl_at d c x → ph ch = PIdle → 0 ≤ lba → 1 ≤ sectors ≤ 256 →
  lba + sectors ≤ capacity ch slave → capacity ch slave ≤ 2 ^ 28 → 256 * sectors ≤ Z.of_nat (length buf) →
  (∀ l, sector_ok (media ch slave l)) →
  ∃ m', ata_read_pio c (drive_of slave) lba buf sectors m =
      Ret ((ATA_OK, concat (sector_range ch slave lba sectors) ++ drop (Z.to_nat (256 * sectors)) buf), m') ∧
    ∃ ch', sees m' ch' (put d c (count_read x)) mk ∧ ph ch' = PIdle ∧ media ch' = media ch.
Proof. apply ata_read_pio_spec. Qed.

(** C38: a sector that [ata_write_pio] has written is what [ata_read_pio] reads back, from
    any buffers, with interrupts on or off; no other sector of either drive changes,
    and each transfer is counted. *)
Theorem ata_write_read_roundtrip m ch d mk c x slave lba wbuf rbuf :
  sees m ch d mk → ctrl_at d c x → ph ch = PIdle → 0 ≤ lba → lba + 1 ≤ capacity ch slave → capacity ch slave ≤ 2 ^ 28 →
  (∀ l, sector_ok (media ch slave l)) → length wbuf = 256%nat → Forall is_word wbuf → length rbuf = 256%nat →
  ∃ m1 m2 ch', ata_write_pio c (drive_of slave) lba wbuf 1 m = Ret (ATA_OK, m1) ∧
    ata_read_pio c (drive_of slave) lba rbuf 1 m1 = Ret ((ATA_OK, wbuf), m2) ∧
    sees m2 ch' (put d c (count_read (count_write x))) mk ∧ ph ch' = PIdle ∧
    ∀ s l, (s, l) ≠ (slave, lba) → media ch' s l = media ch s l.
Proof.
  intros Hs Hx Hp Hl Hc Hcap Hmok Hlw Hw Hlr.
  destruct (ata_write_pio_spec m ch d mk c x slave lba wbuf) as (m1 & ch1 & E1 & Hs1 & Hp1 & Hc1 & Hm1); [done..|lia|by rewrite take_ge by lia|].
  rewrite take_ge in Hm1 by lia. assert (ctrl_at (put d c (count_write x)) c (count_write x)) as Hx1 by (pose proof Hx as (_ & ? & ? & ?); by apply (put_at d c x)).
  destruct (ata_read_pio_spec m1 ch1 _ mk c _ slave lba rbuf 1 Hs1 Hx1 Hp1) as (m2 & E2 & ch2 & Hs2 & Hp2 & Hm2); [lia|lia|by rewrite Hc1|by rewrite Hc1|lia| |].
  { intros l. rewrite Hm1. cbn [media store]. destruct (bool_decide _); [done|apply Hmok]. }
  exists m1, m2, ch2. split; [done|]. split.
  - rewrite E2. do 3 f_equal. rewrite drop_ge by lia. unfold sector_range. rewrite (seqZ_cons lba 1), seqZ_nil by lia. cbn [fmap list_fmap concat]. rewrite Hm1. cbn [media store].
    rewrite bool_decide_true by done. by rewrite !app_nil_r.
  - rewrite put_put in Hs2 by (destruct Hx as (Hz & _); apply zlookup_Some_lt in Hz; lia). split; [done|]. split; [done|]. intros s l Hne. rewrite Hm2, Hm1. cbn [media store].
    rewrite bool_decide_false; [done|]. intros [-> ->]. done.
Qed.
(** The interrupt of an idle channel, the one that ends the last sector of a write
    included, changes nothing in the driver: without DRQ or ERR it counts as spurious,
    so an asynchronous write stays the active operation of its queue, and no later
    operation of the queue is started. *)
Theorem ata_async_write_never_completes (run_completion : Z → ata_async_operation_t → Z → io M unit) m ch d mk c x y :
  sees m ch d mk → ctrl_at d c x → queue x ≠ 0 → ph ch = PIdle → descs m !! irq_desc x = Some y →
  ∃ m', ata_irq_handler run_completion c m = Ret (tt, m') ∧ drv m' = d.
Proof.
  intros Hs Hx Hq Hp Hy. unfold ata_irq_handler. rewrite (io_bind_step _ _ _ _ _ (get_ctrl_spec _ _ _ _ _ _ Hs Hx)).
  rewrite (proj2 (Z.eqb_neq _ _) Hq). pose proof Hx as (_ & -> & _). cbv zeta.
  assert (∃ v m1, inb (base + ATA_REG_STATUS) m = Ret (v, m1) ∧ status_bits PIdle v ∧ drv m1 = d ∧ descs m1 = descs m) as (v & m1 & E1 & Hb & Hd1 & Ht).
  { destruct (status_read m ch d mk Hs) as (v & m1 & E1 & Hb & Hs1). rewrite Hp in Hb. exists v, m1. split; [done|]. split; [done|]. split; [by destruct Hs1 as (_ & ? & _)|].
    revert E1. unfold inb. cbn. destruct (port_inb _ (hw m)). by intros [= _ <-]. }
  rewrite (io_bind_step _ _ _ _ _ E1). destruct Hb as (_ & Hdrq & Herr).
  assert (has v (Z.lor ATA_STATUS_DRQ ATA_STATUS_ERR) = false) as ->.
  { unfold has in *. apply negb_false_iff, Z.eqb_eq in Hdrq, Herr. by rewrite Z.land_lor_distr_r, Hdrq, Herr. }
  cbn [negb]. unfold count_invocation, get_desc, set_desc, pic_send_eoi, pic_send_command, outb, gets, lift, modify, when, mbind, io_bind. rewrite Ht, Hy. cbn [access].
  destruct (8 <=? irq x); (eexists; split; [reflexivity|]; exact Hd1).
Qed.
End disk.

(** ** 48-bit addresses

    A drive takes the two bytes of each address register of a 48-bit command from
    the last two writes to it: the earlier one is the high one. *)
Record hob := mk_hob { previous : Z → Z; current : Z → Z }.
#[export] Instance hob_ports : PortIO hob := {
  port_inb _ x := (0, x); port_inw _ x := (0, x); port_outw _ _ x := x;
  port_outb p v x := mk_hob (<[p := current x p]> (previous x)) (<[p := v]> (current x)) }.
Definition hob_address (x : hob) : Z :=
  current x 3 + 2 ^ 8 * current x 4 + 2 ^ 16 * current x 5 + 2 ^ 24 * previous x 3 + 2 ^ 32 * previous x 4 + 2 ^ 40 * previous x 5.
Lemma three_bytes a : a mod 2 ^ 8 + 2 ^ 8 * ((a / 2 ^ 8) mod 2 ^ 8) + 2 ^ 16 * ((a / 2 ^ 16) mod 2 ^ 8) = a mod 2 ^ 24.
Proof.
  change (2 ^ 24) with (2 ^ 8 * (2 ^ 8 * 2 ^ 8)). rewrite !Z.rem_mul_r, Z.div_div by lia. change (2 ^ 8 * 2 ^ 8) with (2 ^ 16). lia.
Qed.
(** The driver writes the low bytes first: the drive sees the address with its two
    halves exchanged. *)
Theorem ata_lba48_halves_exchanged (m : machine hob ata_state) lba sectors : 0 ≤ lba < 2 ^ 48 →
  ∃ m', set_address48 0 sectors lba m = Ret (tt, m') ∧ hob_address (hw m') = 2 ^ 24 * (lba mod 2 ^ 24) + lba / 2 ^ 24.
Proof.
  intros Hl. eexists. split; [reflexivity|]. cbn [hw with_hw port_outb machine_ports hob_ports]. unfold hob_address. cbn [current previous].
  cbn -[Z.land Z.shiftr Z.mul Z.add Z.pow Z.div Z.modulo insert u8].
  change (0 + ATA_REG_SECCOUNT) with 2. change (0 + ATA_REG_LBA_LO) with 3. change (0 + ATA_REG_LBA_MID) with 4. change (0 + ATA_REG_LBA_HI) with 5.
  repeat (rewrite fn_lookup_insert || rewrite fn_lookup_insert_ne by done).
  change 0xFF with (2 ^ 8 - 1). rewrite !mask_land, !Z.shiftr_div_pow2 by lia. unfold u8. rewrite !Zmod_mod.
  assert (0 ≤ lba / 2 ^ 24 < 2 ^ 24) as Hh by (split; [apply Z.div_pos; lia | apply Z.div_lt_upper_bound; lia]).
  change (2 ^ 0) with 1. rewrite Z.div_1_r, <- (three_bytes lba). rewrite <- (Z.mod_small (lba / 2 ^ 24) (2 ^ 24) Hh) at 2. rewrite <- (three_bytes (lba / 2 ^ 24)), !Z.div_div by lia.
  change (2 ^ 24 * 2 ^ 8) with (2 ^ 32). change (2 ^ 24 * 2 ^ 16) with (2 ^ 40). lia.
Qed.

(** ** A drive that follows the protocol

    The primary channel, busy for two polls whenever it may be, and the interrupt
    controllers of the machine. *)
Record drive := mk_drive { d_pic : bool → pic8259; d_chan : channel }.
Definition with_chan (c : channel) (x : drive) : drive := mk_drive (d_pic x) c.
Definition with_chip (c : bool) (p : pic8259) (x : drive) : drive := mk_drive (<[c := p]> (d_pic x)) (d_chan x).
Definition status_of (p : phase) : Z := match p with PIdle => 0x50 | PBusy _ _ => 0xD0 | _ => 0x58 end.
Definition drive_command (v : Z) (c : channel) : channel :=
  match ph c with
  | PIdle =>
      if v =? ATA_CMD_READ_SECTORS then
        match addressed c with Some (s, l, n) => with_ph (busy 2 (reading (sector_range c s l n))) c | None => c end
      else if v =? ATA_CMD_WRITE_SECTORS then
        match addressed c with Some (s, l, n) => with_ph (busy 2 (PWrite s l n [])) c | None => c end
      else if v =? ATA_CMD_FLUSH_CACHE then with_ph (busy 2 PIdle) c else c
  | _ => c
  end.
Definition drive_in (p : Z) (x : drive) : Z * drive :=
  if p =? PIC1_DATA then (imr (d_pic x false), x) else
  if p =? PIC2_DATA then (imr (d_pic x true), x) else
  if p =? 0x1F7 then (status_of (ph (d_chan x)), with_chan (with_ph (after_poll (ph (d_chan x))) (d_chan x)) x) else (0, x).
Definition drive_pic_cmd (c : bool) (v : Z) (x : drive) : drive :=
  if v =? PIC_INIT then with_chip c (chip_start (d_pic x c)) x else
  if v =? PIC_EOI then with_chip c (chip_eoi (d_pic x c)) x else x.
Definition drive_out (p v : Z) (x : drive) : drive :=
  if p =? PIC1_CMD then drive_pic_cmd false v x else
  if p =? PIC2_CMD then drive_pic_cmd true v x else
  if p =? PIC1_DATA then with_chip false (chip_data v (d_pic x false)) x else
  if p =? PIC2_DATA then with_chip true (chip_data v (d_pic x true)) x else
  if p =? 0x1F7 then with_chan (drive_command v (d_chan x)) x else
  if (0x1F2 <=? p) && (p <=? 0x1F6) then with_chan (with_reg (p - 0x1F0) v (d_chan x)) x else x.
Definition drive_inw (p : Z) (x : drive) : Z * drive :=
  if p =? 0x1F0 then
    match ph (d_chan x) with PRead (w :: ws) rest => (w, with_chan (with_ph (after_word 2 ws rest) (d_chan x)) x) | _ => (0, x) end
  else (0, x).
Definition drive_outw (p v : Z) (x : drive) : drive :=
  if p =? 0x1F0 then
    match ph (d_chan x) with
    | PWrite s l n ws =>
        if (length ws <? 255)%nat then with_chan (with_ph (PWrite s l n (ws ++ [v])) (d_chan x)) x
        else with_chan (with_ph (after_store 2 s l n) (store s l (ws ++ [v]) (d_chan x))) x
    | _ => x
    end
  else x.
#[export] Instance drive_ports : PortIO drive := {
  port_inb := drive_in; port_outb := drive_out; port_inw := drive_inw; port_outw := drive_outw }.

Ltac drive_cases := repeat match goal with
  |- context [if ?a =? ?b then _ else _] => destruct (Z.eqb_spec a b) as [?E|?E]; try (exfalso; subst; done) end.
#[export] Instance drive_pic_laws : PicLaws drive.
Proof.
  refine {| pic c (x : drive) := d_pic x c |}.
  - intros [|] x _; reflexivity.
  - intros p c x _ _. cbn. unfold drive_in. by drive_cases.
  - intros [|] x; cbn; unfold with_chip; cbn; by rewrite fn_lookup_insert.
  - intros [|] x; cbn; unfold with_chip; cbn; by rewrite fn_lookup_insert.
  - intros [|] v x; cbn; by rewrite fn_lookup_insert.
  - intros p v c x Hc Hd. cbn. unfold drive_out, drive_pic_cmd, with_chip. destruct c; drive_cases; cbn; try (by rewrite fn_lookup_insert_ne); try done; by case_match.
  - intros p v c x. cbn. unfold drive_inw, drive_outw. drive_cases; [|done]. destruct (ph (d_chan x)) as [| |[|w ws] rest|s l n ws]; try done. by destruct (length ws <? 255)%nat.
Defined.
Lemma two_polls : Z.of_nat 2 < ATA_TIMEOUT.
Proof. done. Qed.
#[export] Instance drive_ata_laws : AtaLaws drive 0x1F0 0x3F6.
Proof.
  refine {| chan := d_chan |}.
  - intros x. split; [|done]. change (status_bits (ph (d_chan x)) (u8 (status_of (ph (d_chan x))))). destruct (ph (d_chan x)); repeat split.
  - intros p x Hp. cbn. unfold drive_in. drive_cases; try done. lia.
  - intros p v x Hp Hc. cbn. unfold drive_out, drive_pic_cmd. drive_cases; try done; try lia. destruct (Z.leb_spec 0x1F2 p), (Z.leb_spec p 0x1F6); (done || lia).
  - intros v x _. done.
  - intros r v x Hr _. cbn. unfold drive_out. assert (r = 2 ∨ r = 3 ∨ r = 4 ∨ r = 5 ∨ r = 6) as Hc by lia. by destruct Hc as [->|[->|[->|[->| ->]]]].
  - intros x s l n Hp Ha. exists 2%nat. split; [exact two_polls|]. change (drive_command ATA_CMD_READ_SECTORS (d_chan x) = with_ph (busy 2 (reading (sector_range (d_chan x) s l n))) (d_chan x)). unfold drive_command. by rewrite Hp, Ha.
  - intros x w ws rest Hp. change (port_inw (0x1F0 + 0) x) with (drive_inw 0x1F0 x). unfold drive_inw. rewrite Hp. split; [done|]. exists 2%nat. by split; [exact two_polls|].
  - intros x s l n Hp Ha. exists 2%nat. split; [exact two_polls|]. change (drive_command ATA_CMD_WRITE_SECTORS (d_chan x) = with_ph (busy 2 (PWrite s l n [])) (d_chan x)). unfold drive_command. by rewrite Hp, Ha.
  - intros x w s l n ws Hp Hl _. change (port_outw (0x1F0 + 0) w x) with (drive_outw 0x1F0 w x). unfold drive_outw. rewrite Hp. by rewrite (proj2 (Nat.ltb_lt _ _) Hl).
  - intros x w s l n ws Hp Hl _. exists 2%nat. split; [exact two_polls|]. change (port_outw (0x1F0 + 0) w x) with (drive_outw 0x1F0 w x). unfold drive_outw. rewrite Hp, Hl. done.
  - intros x Hp. exists 2%nat. split; [exact two_polls|]. change (drive_command ATA_CMD_FLUSH_CACHE (d_chan x) = with_ph (busy 2 PIdle) (d_chan x)). unfold drive_command. by rewrite Hp.
Defined.

(** A machine with a drive of 1000 sectors: sector [l] holds the words [l], [l + 1], ...
    modulo 2^16. *)
Definition sample_media (_ : bool) (l : Z) : list Z := (λ i, (l + i) mod 2 ^ 16) <$> seqZ 0 256.
Definition sample_channel : channel := mk_channel 0 0 0 0 0 PIdle sample_media (λ _, 1000).
Definition sample_ctrl : ata_controller_t := mk_ctrl 0x1F0 0x3F6 14 true true false 0 0 0 true false 0 0x3000.
Definition sample_ata : ata_state :=
  mk_ata_state [sample_ctrl; boot_ctrl 0x3080] [zero_info; zero_info; zero_info; zero_info] true ∅ ∅ ∅ (Block.mk_kheap ∅ []).
Definition sample_machine : machine drive ata_state :=
  mk_machine (mk_drive (λ _, mk_pic 0 0 0x20 4 1 0) sample_channel) true [] None [] [] ∅ sample_ata.
Lemma sample_media_ok s l : sector_ok (sample_media s l).
Proof.
  split; [by unfold sample_media; rewrite length_fmap, length_seqZ|]. apply Forall_fmap, Forall_forall. intros i _. apply Z.mod_pos_bound. lia.
Qed.
Lemma sample_sees : sees 0x1F0 0x3F6 sample_machine sample_channel sample_ata (λ _, false).
Proof. split; [done|]. split; [done|]. split; [by intros c|]. intros i _. apply Z.testbit_0_l. Qed.
Lemma sample_ports : Forall (λ p, p < 0x1F0 ∨ 0x1F0 + 7 < p) [PIC1_CMD; PIC1_DATA; PIC2_CMD; PIC2_DATA; 0x80; 0x3F6].
Proof. apply (bool_decide_unpack _); vm_compute; exact I. Qed.
Lemma sample_ctl : (0x3F6 : Z) ∉ [PIC1_CMD; PIC1_DATA; PIC2_CMD; PIC2_DATA].
Proof. apply (bool_decide_unpack _); vm_compute; exact I. Qed.

Lemma ata_read_pio_returns_sectors_witness :
  ∃ m', ata_read_pio 0 ATA_DEVICE_SLAVE 997 (replicate 1000 7) 3 sample_machine =
    Ret ((ATA_OK, (sample_media true 997 ++ sample_media true 998 ++ sample_media true 999) ++ replicate 232 7), m').
Proof.
  destruct (ata_read_pio_returns_sectors 0x1F0 0x3F6 14 sample_ports sample_ctl ltac:(lia) sample_machine sample_channel sample_ata (λ _, false)
    0 sample_ctrl true 997 (replicate 1000 7) 3) as (m' & E & _);
    [apply sample_sees | by repeat split | reflexivity | lia | lia | reflexivity | done | rewrite length_replicate; lia | apply sample_media_ok |].
  exists m'. exact E.
Defined.
Lemma ata_write_read_roundtrip_witness :
  ∃ m1 m2, ata_write_pio 0 ATA_DEVICE_MASTER 999 (replicate 256 0xBEEF) 1 sample_machine = Ret (ATA_OK, m1) ∧
    ata_read_pio 0 ATA_DEVICE_MASTER 999 (replicate 256 0) 1 m1 = Ret ((ATA_OK, replicate 256 0xBEEF), m2).
Proof.
  destruct (ata_write_read_roundtrip 0x1F0 0x3F6 14 sample_ports sample_ctl ltac:(lia) sample_machine sample_channel sample_ata (λ _, false)
    0 sample_ctrl false 999 (replicate 256 0xBEEF) (replicate 256 0)) as (m1 & m2 & ch' & E1 & E2 & _);
    [apply sample_sees | by repeat split | reflexivity | lia | done | done | apply sample_media_ok | apply length_replicate | apply Forall_replicate; unfold is_word; lia | apply length_replicate |].
  exists m1, m2. split; [exact E1|exact E2].
Defined.
End Disk.
