(* ===== verification/Klog.v ===== *)
(** * The log: [kernel/klogs/kprintf.c], [kprintf_backends.c], [backends/serial_backends.c],
    [kernel/driver/serial/serial_color.c]

    The registry of backends, the filter, the two printing functions on top of the
    formatter of [Format], and the backend that writes to the serial port of
    [Drivers]. A backend is a pair of functions on the state [W] of what lies
    behind it. Printing runs under one lock with interrupts off and is one step. A
    format and its string arguments lie in a memory [m]; a backend gets the bytes
    of the buffer up to the terminator. *)
From S2P Require Import Prelude Bits Mem Strings StrConv Format Ports Desc Irq Ring Drivers Rtc Devices.
Import Mem Strings StrConv Format Irq Ring Drivers Rtc Devices.

Module Klog.

Definition KPRINTF_MAX_BACKEND_N := 4.
Definition KPRINTF_BUFFER_SIZE := 512.
Inductive klog_backend_t := KLOG_BACKEND_NONE | KLOG_BACKEND_SERIAL | KLOG_BACKEND_VGA.
#[export] Instance klog_backend_dec : EqDecision klog_backend_t.
Proof. solve_decision. Defined.
Definition KLOG_LEVEL_TRACE := 0.
Definition KLOG_LEVEL_DEBUG := 1.
Definition KLOG_LEVEL_INFO := 2.
Definition KLOG_LEVEL_WARN := 3.
Definition KLOG_LEVEL_ERROR := 4.
Definition KPRINTF_DEFAULT_FILTERED_LOGLEVEL := KLOG_LEVEL_TRACE.
Definition klog_level_name (level : Z) : list Z :=
  if level =? KLOG_LEVEL_TRACE then codes "TRACE" else
  if level =? KLOG_LEVEL_DEBUG then codes "DEBUG" else
  if level =? KLOG_LEVEL_INFO then codes "INFO " else
  if level =? KLOG_LEVEL_WARN then codes "WARN " else
  if level =? KLOG_LEVEL_ERROR then codes "ERROR" else codes "?????".

(** ** Colours *)
Definition ansi (s : string) : list Z := 27 :: codes s.
Definition g_ansi_colors : list (list Z) :=
  ansi <$> ["[0m"; "[30m"; "[31m"; "[32m"; "[33m"; "[34m"; "[35m"; "[36m"; "[37m"; "[90m"; "[91m"; "[92m"; "[93m"; "[94m"; "[95m"; "[96m"; "[97m"]%string.
Definition serial_color_ansi (color : Z) : list Z :=
  if (0 <=? color) && (color <? Z.of_nat (length g_ansi_colors)) then default [] (zlookup g_ansi_colors color)
  else default [] (zlookup g_ansi_colors 0).
Definition serial_color_for_log_level (level : Z) : list Z :=
  let color i := default [] (zlookup g_ansi_colors i) in
  if level =? 0 then color 9 else if level =? 1 then color 6 else if level =? 2 then color 3 else
  if level =? 3 then color 4 else if level =? 4 then color 2 else color 0.

(** The bytes up to the terminator. *)
Fixpoint cstring (l : list Z) : outcome (list Z) :=
  match l with
  | [] => Fail Fault
  | c :: r => if c =? 0 then Ret [] else t ← cstring r; Ret (c :: t)
  end.

Section klog.
Context {W : Type}.
Record KLogBackendOps := mk_ops { process : list Z → Z → io W unit; is_ready : io W bool }.
Record backend_slot := mk_slot { slot_type : klog_backend_t; slot_ops : option KLogBackendOps; slot_registered : bool }.
Record klog := mk_klog {
  g_backend_registry : list backend_slot; g_default_backend : klog_backend_t; g_log_level : Z;
  klog_buffer : list Z; kvprintf_buffer : list Z; g_format_buffer : list Z; world : W }.
Definition klog_boot (w : W) : klog :=
  mk_klog (replicate 4 (mk_slot KLOG_BACKEND_NONE None false)) KLOG_BACKEND_NONE KPRINTF_DEFAULT_FILTERED_LOGLEVEL
    (replicate 512 0) (replicate 512 0) (replicate 32 0) w.
Implicit Types (k : klog).
Definition with_registry (r : list backend_slot) (d : klog_backend_t) k : klog :=
  mk_klog r d (g_log_level k) (klog_buffer k) (kvprintf_buffer k) (g_format_buffer k) (world k).
Definition with_level (l : Z) k : klog :=
  mk_klog (g_backend_registry k) (g_default_backend k) l (klog_buffer k) (kvprintf_buffer k) (g_format_buffer k) (world k).
Definition with_buffers (b v g : list Z) k : klog :=
  mk_klog (g_backend_registry k) (g_default_backend k) (g_log_level k) b v g (world k).
Definition with_world (w : W) k : klog :=
  mk_klog (g_backend_registry k) (g_default_backend k) (g_log_level k) (klog_buffer k) (kvprintf_buffer k) (g_format_buffer k) w.
Definition on_world {A} (f : io W A) : io klog A := λ k, r ← f (world k); Ret (fst (r : A * W), with_world (snd r) k).

(** ** Backends *)
Fixpoint find_slot (p : backend_slot → bool) (i : Z) (l : list backend_slot) : Z :=
  match l with [] => -1 | x :: r => if p x then i else find_slot p (i + 1) r end.
Definition find_backend_slot (t : klog_backend_t) (l : list backend_slot) : Z :=
  find_slot (λ x, slot_registered x && bool_decide (slot_type x = t)) 0 l.
Definition find_empty_slot (l : list backend_slot) : Z := find_slot (λ x, negb (slot_registered x)) 0 l.
Definition klog_get_backend_ops (t : klog_backend_t) (l : list backend_slot) : option KLogBackendOps :=
  let slot := find_backend_slot t l in
  if 0 <=? slot then x ← zlookup l slot; slot_ops x else None.
Definition klog_set_default_backend (t : klog_backend_t) : io klog unit := modify (λ k, with_registry (g_backend_registry k) t k).
Definition klog_get_default_backend : io klog klog_backend_t := gets g_default_backend.
Definition klog_register_backend (t : klog_backend_t) (ops : option KLogBackendOps) : io klog bool := λ k,
  match ops with
  | None => Ret (false, k)
  | Some ops =>
      let l := g_backend_registry k in
      let slot := find_backend_slot t l in
      if 0 <=? slot then
        x ← access (zlookup l slot);
        Ret (true, with_registry (zinsert l slot (mk_slot (slot_type x) (Some ops) (slot_registered x))) (g_default_backend k) k)
      else
      let slot := find_empty_slot l in
      if slot <? 0 then Ret (false, k) else
      Ret (true, with_registry (zinsert l slot (mk_slot t (Some ops) true))
                   (if bool_decide (g_default_backend k = KLOG_BACKEND_NONE) then t else g_default_backend k) k)
  end.

(** ** Printing *)
Definition klog_set_level (level : Z) : io klog unit := modify (with_level level).
Definition klog_get_level : io klog Z := gets g_log_level.
Definition kvprintf (backend : klog_backend_t) (m : list Z) (format : Z) (args : list Z) : io klog unit := λ k,
  match klog_get_backend_ops backend (g_backend_registry k) with
  | None => Ret (tt, k)
  | Some ops =>
      r ← on_world (is_ready ops) k;
      let '(ready, k) := r : bool * klog in
      if negb ready then Ret (tt, k) else
      f ← klog_format_string (Some (kvprintf_buffer k)) KPRINTF_BUFFER_SIZE m format (g_format_buffer k) args;
      let '(_, out, g) := f : Z * option (list Z) * list Z in
      let b := default (kvprintf_buffer k) out in
      s ← cstring b;
      on_world (process ops s (-1)) (with_buffers (klog_buffer k) b g k)
  end.
Definition kprintf := kvprintf.
Definition klog_log (level : Z) (m : list Z) (format : Z) (args : list Z) : io klog unit := λ k,
  if level <? g_log_level k then Ret (tt, k) else
  match klog_get_backend_ops (g_default_backend k) (g_backend_registry k) with
  | None => Ret (tt, k)
  | Some ops =>
      r ← on_world (is_ready ops) k;
      let '(ready, k) := r : bool * klog in
      if negb ready then Ret (tt, k) else
      let head := 91 :: take 5 (klog_level_name level) ++ [93; 32] in
      let pos := Z.of_nat (length head) in
      let size := KPRINTF_BUFFER_SIZE - pos - 2 in
      let old := klog_buffer k in
      f ← klog_format_string (Some (take (Z.to_nat size) (drop (Z.to_nat pos) old))) size m format (g_format_buffer k) args;
      let '(len, out, g) := f : Z * option (list Z) * list Z in
      let b := head ++ default [] out ++ drop (Z.to_nat (pos + size)) old in
      b ← store b (pos + len) 0;
      s ← cstring b;
      on_world (process ops s level) (with_buffers b (kvprintf_buffer k) g k)
  end.
Definition klog_text (level : Z) (text : list Z) : io klog unit := klog_log level (text ++ [0]) 0 [].
End klog.
Arguments KLogBackendOps : clear implicits. Arguments klog : clear implicits. Arguments backend_slot : clear implicits.

(** ** The serial backend *)
Section serial.
Context {H : Type} `{PortIO H} (polls : nat).
Notation M := (machine H drivers).
Definition serial_is_ready : io M bool := mret true.
Definition serial_process (str : list Z) (level : Z) : io M unit :=
  sync_serial_puts polls (serial_color_for_log_level level);;
  sync_serial_puts polls str;;
  sync_serial_puts polls (serial_color_for_log_level (-1)).
Definition g_serial_backend_ops : KLogBackendOps M := mk_ops serial_process serial_is_ready.
Definition klog_serial_backend_init : io M bool := serial_init.
Definition klog_serial_backend_get_ops : option (KLogBackendOps M) := Some g_serial_backend_ops.
Definition klog_init (backend : klog_backend_t) : io (klog M) bool :=
  ok ← (if bool_decide (backend = KLOG_BACKEND_SERIAL) then
          ok ← on_world klog_serial_backend_init;
          if ok : bool then klog_register_backend KLOG_BACKEND_SERIAL klog_serial_backend_get_ops;; mret true else mret false
        else mret true);
  if negb ok then mret false else
  klog_set_default_backend backend;;
  klog_text KLOG_LEVEL_TRACE (codes "Klog Finished, attempt to send followings..." ++ [10]);;
  klog_text KLOG_LEVEL_TRACE (replicate 56 61 ++ [10]);;
  level ← klog_get_level;
  (let fmt := 9 :: codes "Current Filtered Level: %s" ++ [10; 0] in
   klog_log KLOG_LEVEL_TRACE (fmt ++ klog_level_name level ++ [0]) 0 [Z.of_nat (length fmt)]);;
  klog_log KLOG_LEVEL_TRACE (9 :: codes "Cached printf size: %d" ++ [10; 0]) 0 [KPRINTF_BUFFER_SIZE];;
  klog_text KLOG_LEVEL_TRACE (replicate 56 61 ++ [10]);;
  mret true.
End serial.
End Klog.
Import Klog.

(** ** The registry is a map from backends to operations *)
Section registry.
Context {W : Type}.
Implicit Types (l : list (backend_slot W)) (k : klog W) (p : backend_slot W → bool).

Lemma find_slot_spec p l i : 0 ≤ i →
  (∃ j x, find_slot p i l = i + Z.of_nat j ∧ l !! j = Some x ∧ p x = true ∧ ∀ j' y, (j' < j)%nat → l !! j' = Some y → p y = false) ∨
  (find_slot p i l = -1 ∧ ∀ j x, l !! j = Some x → p x = false).
Proof.
  revert i. induction l as [|x l IH]; intros i Hi; cbn [find_slot]; [right; split; [done|]; intros j y; by rewrite lookup_nil|].
  destruct (p x) eqn:Hp.
  - left. exists 0%nat, x. split; [lia|]. split; [done|]. split; [done|]. lia.
  - destruct (IH (i + 1) ltac:(lia)) as [(j & y & -> & Hj & Hy & Hb)|[-> Hn]]; [left; exists (S j), y|right].
    + split; [lia|]. split; [done|]. split; [done|]. intros [|j'] z Hlt; cbn; [congruence|]. apply Hb. lia.
    + split; [done|]. intros [|j] y; cbn; [congruence|]. apply Hn.
Qed.
(** One slot at most is registered for a backend, and it has operations. *)
Record registry_ok l : Prop := {
  ro_length : length l = 4%nat;
  ro_ops j x : l !! j = Some x → slot_registered x = true → is_Some (slot_ops x);
  ro_one i j x y : l !! i = Some x → l !! j = Some y → slot_registered x = true → slot_registered y = true → slot_type x = slot_type y → i = j }.
Lemma get_ops_spec t l : klog_get_backend_ops t l = None ∧ (∀ j x, l !! j = Some x → slot_registered x = true → slot_type x ≠ t) ∨
  ∃ j x, find_backend_slot t l = Z.of_nat j ∧ l !! j = Some x ∧ slot_registered x = true ∧ slot_type x = t ∧ klog_get_backend_ops t l = slot_ops x.
Proof.
  unfold klog_get_backend_ops, find_backend_slot.
  destruct (find_slot_spec (λ x, slot_registered x && bool_decide (slot_type x = t)) l 0 ltac:(lia)) as [(j & x & -> & Hj & Hp & _)|[-> Hn]]; [right|left].
  - apply andb_true_iff in Hp as [Hr Ht%bool_decide_eq_true]. exists j, x. split; [lia|]. split; [done|]. split; [done|]. split; [done|].
    rewrite (proj2 (Z.leb_le 0 (0 + Z.of_nat j))) by lia. rewrite zlookup_nonneg by lia. by replace (Z.to_nat (0 + Z.of_nat j)) with j by lia; rewrite Hj.
  - split; [done|]. intros j x Hj Hr Ht. specialize (Hn j x Hj). cbn in Hn. rewrite Hr, bool_decide_true in Hn by done. done.
Qed.
Lemma get_ops_at l j x : registry_ok l → l !! j = Some x → slot_registered x = true → klog_get_backend_ops (slot_type x) l = slot_ops x.
Proof.
  intros Hl Hj Hr. destruct (get_ops_spec (slot_type x) l) as [[_ Hn]|(i & y & _ & Hi & Hy & Ht & ->)]; [by destruct (Hn j x Hj Hr)|].
  rewrite (ro_one _ Hl i j y x) in Hi by done. congruence.
Qed.
(** Three kinds of backend fit four slots. *)
Lemma empty_slot_exists l : registry_ok l → ∃ j x, l !! j = Some x ∧ slot_registered x = false.
Proof.
  intros [Hlen _ Ho]. destruct l as [|a [|b [|c [|d [|]]]]]; try done. destruct (slot_registered a) eqn:Ha; [|by exists 0%nat, a].
  destruct (slot_registered b) eqn:Hb; [|by exists 1%nat, b]. destruct (slot_registered c) eqn:Hc; [|by exists 2%nat, c]. destruct (slot_registered d) eqn:Hd; [|by exists 3%nat, d].
  exfalso. pose proof (Ho 0%nat 1%nat a b eq_refl eq_refl Ha Hb). pose proof (Ho 0%nat 2%nat a c eq_refl eq_refl Ha Hc). pose proof (Ho 0%nat 3%nat a d eq_refl eq_refl Ha Hd).
  pose proof (Ho 1%nat 2%nat b c eq_refl eq_refl Hb Hc). pose proof (Ho 1%nat 3%nat b d eq_refl eq_refl Hb Hd). pose proof (Ho 2%nat 3%nat c d eq_refl eq_refl Hc Hd).
  destruct (slot_type a), (slot_type b), (slot_type c), (slot_type d); naive_solver lia.
Qed.
(** Writing slot [j] for the backend [t], where no other slot is for [t]. *)
Lemma put_slot l j x t ops : registry_ok l → l !! j = Some x → (∀ i y, l !! i = Some y → slot_registered y = true → slot_type y = t → i = j) →
  (slot_registered x = true → slot_type x = t) → let l' := <[j := mk_slot t (Some ops) true]> l in
  registry_ok l' ∧ ∀ t', klog_get_backend_ops t' l' = if decide (t' = t) then Some ops else klog_get_backend_ops t' l.
Proof.
  intros Hl Hj Hu Hx l'. assert (∀ i y, l' !! i = Some y → (i = j ∧ y = mk_slot t (Some ops) true) ∨ (i ≠ j ∧ l !! i = Some y)) as Hin.
  { intros i y. unfold l'. destruct (decide (i = j)) as [->|Hne]; [rewrite list_lookup_insert_eq by (by eapply lookup_lt_Some)|rewrite list_lookup_insert_ne by done]; naive_solver. }
  assert (registry_ok l') as Hok.
  { split; [unfold l'; rewrite length_insert; apply Hl| |].
    - intros i y [[_ ->]|[_ Hi]]%Hin Hr; [by eexists|]. by apply (ro_ops _ Hl i).
    - intros i i' y y' [[-> ->]|[Hne Hi]]%Hin [[-> ->]|[Hne' Hi']]%Hin Hr Hr' Ht; [done| | |].
      + symmetry. by apply (Hu i' y').
      + by apply (Hu i y).
      + by apply (ro_one _ Hl i i' y y'). }
  split; [done|]. intros t'. destruct (decide (t' = t)) as [->|Hne].
  - apply (get_ops_at l' j (mk_slot t (Some ops) true)); [done| |done]. unfold l'. rewrite list_lookup_insert_eq; [done|by eapply lookup_lt_Some].
  - destruct (get_ops_spec t' l) as [[-> Hn]|(i & y & _ & Hi & Hr & Ht & ->)].
    + destruct (get_ops_spec t' l') as [[-> _]|(i & y & _ & [[_ ->]|[_ Hi]]%Hin & Hr & Ht & _)]; [done|by rewrite <- Ht in Hne|]. by destruct (Hn i y Hi Hr).
    + rewrite <- Ht. apply (get_ops_at l' i); [done| |done]. unfold l'. rewrite list_lookup_insert_ne; [done|]. intros ->. rewrite Hj in Hi. injection Hi as ->. rewrite (Hx Hr) in Ht. congruence.
Qed.
End registry.

(** Registering a backend: the registry is a map from backends to operations, and
    [klog_register_backend] updates it, always with success for operations that are
    not NULL; the first backend becomes the default. *)
Theorem klog_register_backend_updates {W} t ops (k : klog W) : registry_ok (g_backend_registry k) →
  klog_register_backend t None k = Ret (false, k) ∧
  ∃ r d, klog_register_backend t (Some ops) k = Ret (true, with_registry r d k) ∧ registry_ok r ∧
    (∀ t', klog_get_backend_ops t' r = if decide (t' = t) then Some ops else klog_get_backend_ops t' (g_backend_registry k)) ∧
    d = (if decide (g_default_backend k = KLOG_BACKEND_NONE ∧ klog_get_backend_ops t (g_backend_registry k) = None) then t else g_default_backend k).
Proof.
  intros Hl. split; [done|]. set (l := g_backend_registry k) in *. unfold klog_register_backend. fold l.
  destruct (get_ops_spec t l) as [[Hg Hn]|(j & x & -> & Hj & Hr & Ht & Hg)].
  - assert (find_backend_slot t l = -1) as ->.
    { unfold find_backend_slot. destruct (find_slot_spec (λ x, slot_registered x && bool_decide (slot_type x = t)) l 0 ltac:(lia)) as [(j & x & _ & Hj & Hp & _)|[-> _]]; [|done].
      apply andb_true_iff in Hp as [Hr Ht%bool_decide_eq_true]. by destruct (Hn j x Hj Hr). }
    cbn [Z.leb Z.compare]. unfold find_empty_slot. destruct (find_slot_spec (λ x, negb (slot_registered x)) l 0 ltac:(lia)) as [(j & x & -> & Hj & Hp & _)|[_ Hall]].
    + destruct (Z.ltb_spec (0 + Z.of_nat j) 0); [lia|]. apply negb_true_iff in Hp.
      destruct (put_slot l j x t ops Hl Hj) as [Hok Hget]; [intros i y Hi Hry Hty; by destruct (Hn i y Hi Hry)|congruence|].
      do 2 eexists. split; [reflexivity|]. unfold zinsert. destruct (Z.ltb_spec (0 + Z.of_nat j) 0); [lia|]. replace (Z.to_nat (0 + Z.of_nat j)) with j by lia.
      split; [done|]. split; [done|]. case_bool_decide; [rewrite decide_True by done|rewrite decide_False by naive_solver]; done.
    + exfalso. destruct (empty_slot_exists l Hl) as (j & x & Hj & Hx). specialize (Hall j x Hj). cbn in Hall. by rewrite Hx in Hall.
  - destruct (Z.leb_spec 0 (Z.of_nat j)); [|lia]. rewrite zlookup_nonneg, Nat2Z.id, Hj by lia. cbn [access]. rewrite outcome_bind_ret, Ht, Hr.
    destruct (put_slot l j x t ops Hl Hj) as [Hok Hget]; [intros i y Hi Hry Hty; apply (ro_one _ Hl i j y x); congruence|done|].
    do 2 eexists. split; [reflexivity|]. unfold zinsert. destruct (Z.ltb_spec (Z.of_nat j) 0); [lia|]. rewrite Nat2Z.id. split; [done|]. split; [done|].
    rewrite decide_False; [done|]. intros [_ Hnone]. destruct (ro_ops _ Hl j x Hj Hr). congruence.
Qed.

(** ** What is printed *)
Fixpoint until_nul (l : list Z) : list Z := match l with [] => [] | c :: r => if c =? 0 then [] else c :: until_nul r end.
Lemma cstring_prefix t b : t ++ [0] `prefix_of` b → cstring b = Ret (until_nul t).
Proof.
  intros [r ->]. induction t as [|c t IH]; [done|]. cbn [app cstring until_nul]. destruct (c =? 0); [done|]. cbn [app] in IH. by rewrite IH.
Qed.
(** The line of a message: its level and the text, cut to 501 bytes. *)
Definition log_line (level : Z) (text : list Z) : list Z := until_nul (91 :: klog_level_name level ++ [93; 32] ++ take 501 text).
Record buffers_ok {W} (k : klog W) : Prop := {
  bo_log : length (klog_buffer k) = 512%nat; bo_kv : length (kvprintf_buffer k) = 512%nat; bo_num : length (g_format_buffer k) = 32%nat }.
(** A format with its arguments and the text it stands for. *)
Definition prints (m : list Z) (fmt : Z) (args text : list Z) : Prop := ∃ (str : Z → option (list Z)) (its : list item),
  (∀ a t, str a = Some t → cstr m a t ∧ Forall is_u8 t ∧ Z.of_nat (length t) < 2 ^ 31) ∧
  Forall wf_item its ∧ cstr m fmt (Format.encode its) ∧ render str its args = Some text.
Lemma level_name_length level : length (klog_level_name level) = 5%nat.
Proof. unfold klog_level_name. by repeat case_match. Qed.

Section printing.
Context {W : Type}.
Implicit Types (k : klog W) (ops : KLogBackendOps W).
Lemma on_world_ret {A} (f : io W A) k a w : f (world k) = Ret (a, w) → on_world f k = Ret (a, with_world w k).
Proof. unfold on_world. by intros ->. Qed.
Lemma klog_log_spec level m fmt args text ops k w : buffers_ok k → prints m fmt args text → g_log_level k ≤ level →
  klog_get_backend_ops (g_default_backend k) (g_backend_registry k) = Some ops → is_ready ops (world k) = Ret (true, w) →
  ∃ b g, length b = 512%nat ∧ length g = 32%nat ∧
    klog_log level m fmt args k = on_world (process ops (log_line level text) level) (with_buffers b (kvprintf_buffer k) g (with_world w k)).
Proof.
  intros [Hb Hkv Hg] (str & its & Hstr & Hwf & Hc & Hr) Hlev Ho Hw. unfold klog_log. destruct (Z.ltb_spec level (g_log_level k)); [lia|]. rewrite Ho.
  rewrite (on_world_ret _ _ _ _ Hw), outcome_bind_ret. cbn [negb]. rewrite (take_ge (klog_level_name level)) by (rewrite level_name_length; lia).
  set (head := 91 :: klog_level_name level ++ [93; 32]). assert (length head = 8%nat) as Hhead by (unfold head; cbn [length]; rewrite length_app, level_name_length; done).
  rewrite Hhead. change (Z.to_nat (Z.of_nat 8)) with 8%nat. change (KPRINTF_BUFFER_SIZE - Z.of_nat 8 - 2) with (Z.of_nat 501 + 1).
  change (Z.to_nat (Z.of_nat 501 + 1)) with 502%nat. cbn [klog_buffer g_format_buffer with_world].
  destruct (klog_format_string_spec 501 m str fmt its args text (g_format_buffer k) (take 502 (drop 8 (klog_buffer k))))
    as (out & g & -> & Hg' & Hl & Hp); [done..|by rewrite Hg| |lia|].
  { rewrite length_take, length_drop, Hb. done. }
  rewrite length_take, length_drop, Hb in Hl. change (502 `min` (512 - 8))%nat with 502%nat in Hl.
  rewrite outcome_bind_ret. cbn [default from_option id]. pose proof (length_take text 501) as Hlt.
  rewrite store_ok; [|rewrite !length_app, length_drop, Hb, Hhead, Hl; lia]. rewrite outcome_bind_ret.
  set (b := zinsert _ _ _). assert (length b = 512%nat) as Hlb.
  { unfold b. rewrite length_zinsert, !length_app, length_drop, Hb, Hhead, Hl. change (Z.to_nat (Z.of_nat 8 + (Z.of_nat 501 + 1))) with 510%nat. lia. }
  assert (head ++ take 501 text ++ [0] `prefix_of` b) as Hpb.
  { destruct Hp as [r ->]. unfold b, zinsert. destruct (Z.ltb_spec (Z.of_nat 8 + Z.of_nat (length (take 501 text))) 0); [lia|].
    replace (Z.to_nat (Z.of_nat 8 + Z.of_nat (length (take 501 text)))) with (length (head ++ take 501 text)) by (rewrite length_app, Hhead; lia).
    exists (r ++ drop (Z.to_nat (Z.of_nat 8 + (Z.of_nat 501 + 1))) (klog_buffer k)). rewrite <- !app_assoc. rewrite (app_assoc head (take 501 text) (_ ++ r ++ _)).
    rewrite insert_app_r_alt, Nat.sub_diag by lia. cbn [app list_insert insert]. by rewrite <- app_assoc. }
  rewrite (cstring_prefix (head ++ take 501 text)) by (by rewrite <- app_assoc). rewrite outcome_bind_ret.
  exists b, g. split; [done|]. split; [lia|]. unfold log_line, head. cbn [app]. by rewrite <- app_assoc.
Qed.

(** Messages below the filter, and messages while no backend is registered, change
    nothing. *)
Lemma klog_log_silent level m fmt args k :
  level < g_log_level k ∨ klog_get_backend_ops (g_default_backend k) (g_backend_registry k) = None → klog_log level m fmt args k = Ret (tt, k).
Proof. unfold klog_log. intros [Hl|Hn]; [by rewrite (proj2 (Z.ltb_lt _ _) Hl)|]. rewrite Hn. by destruct (_ <? _). Qed.
End printing.

(** ** Down to the wire

    What the manual of the 16550 says about sending: the line status shows when a
    byte may be written, after at most [tx_delay] polls; a byte that is written then
    is sent after those before it. *)
Class UartLaws (H : Type) `{PortIO H} := {
  tx_sent : H → list Z;
  tx_busy : H → nat;
  tx_delay : nat;
  tx_busy_bound h : (tx_busy h ≤ tx_delay)%nat;
  tx_poll h v h' : port_inb (SERIAL_LINE_STATUS_REG base) h = (v, h') → tx_sent h' = tx_sent h ∧
    if (tx_busy h =? 0)%nat then Z.land (u8 v) SERIAL_LSR_READY_TO_SEND ≠ 0 ∧ tx_busy h' = 0%nat
    else Z.land (u8 v) SERIAL_LSR_READY_TO_SEND = 0 ∧ (tx_busy h' < tx_busy h)%nat;
  tx_write h b : tx_busy h = 0%nat → tx_sent (port_outb (SERIAL_DATA_REG base) b h) = tx_sent h ++ [b] }.
#[export] Instance board_uart : UartLaws board.
Proof.
  refine {| tx_sent := b_sent; tx_busy _ := 0%nat; tx_delay := 0%nat |}.
  - done.
  - intros h v h' E. vm_compute in E. injection E as <- <-. by destruct h.
  - done.
Defined.

Section wire.
Context {H : Type} `{UartLaws H}.
Notation M := (machine H drivers).
Implicit Types (m : M) (s : list Z).
(** [m'] has sent [s] since [m], and only the devices have changed. *)
Definition sent_since m s m' : Prop := ∃ h, m' = with_hw h m ∧ tx_sent h = tx_sent (hw m) ++ (u8 <$> s).
Lemma sent_since_trans m s m' s' m'' : sent_since m s m' → sent_since m' s' m'' → sent_since m (s ++ s') m''.
Proof. intros (h & -> & E) (h' & -> & E'). exists h'. split; [done|]. cbn [hw with_hw] in E'. by rewrite E', E, fmap_app, app_assoc. Qed.
Lemma wait_line_spec n m : (tx_busy (hw m) < n)%nat →
  ∃ h, wait_line SERIAL_LSR_READY_TO_SEND n m = Ret (tt, with_hw h m) ∧ tx_sent h = tx_sent (hw m) ∧ tx_busy h = 0%nat.
Proof.
  revert m. induction n as [|n IH]; intros m Hn; [lia|]. cbn [wait_line]. unfold mbind, io_bind, inb. cbn [port_inb machine_ports].
  destruct (port_inb (SERIAL_LINE_STATUS_REG base) (hw m)) as [v h] eqn:E. destruct (tx_poll (hw m) v h E) as [Hs Hp].
  destruct (Nat.eqb_spec (tx_busy (hw m)) 0) as [Hz|Hz]; destruct Hp as [Hv Hb].
  - rewrite (proj2 (Z.eqb_neq _ _) Hv). by exists h.
  - rewrite (proj2 (Z.eqb_eq _ _) Hv). destruct (IH (with_hw h m)) as (h' & -> & Hs' & Hb'); [cbn; lia|]. exists h'. cbn in Hs'. by rewrite Hs', Hs.
Qed.
Context (polls : nat) (Hpolls : (tx_delay < polls)%nat).
Lemma sync_serial_puts_spec s m : ∃ m', sync_serial_puts polls s m = Ret (tt, m') ∧ sent_since m s m'.
Proof using Hpolls.
  revert m. induction s as [|c s IH]; intros m; cbn [sync_serial_puts].
  - exists m. split; [done|]. exists (hw m). split; [by destruct m|]. by rewrite app_nil_r.
  - destruct (wait_line_spec polls m) as (h & E & Hs & Hb); [pose proof (tx_busy_bound (hw m)); lia|].
    assert (sync_serial_putc polls c m = Ret (tt, with_hw (port_outb (SERIAL_DATA_REG base) (u8 c) h) m)) as E1.
    { unfold sync_serial_putc. rewrite (io_bind_step _ _ _ _ _ E). done. }
    rewrite (io_bind_step _ _ _ _ _ E1). destruct (IH (with_hw (port_outb (SERIAL_DATA_REG base) (u8 c) h) m)) as (m' & -> & Hm').
    exists m'. split; [done|]. eapply (sent_since_trans m [c] _ s); [|exact Hm']. eexists. split; [reflexivity|]. by rewrite tx_write, Hs.
Qed.
Lemma serial_process_spec s level m :
  ∃ m', serial_process polls s level m = Ret (tt, m') ∧ sent_since m (serial_color_for_log_level level ++ s ++ serial_color_for_log_level (-1)) m'.
Proof using Hpolls.
  unfold serial_process. destruct (sync_serial_puts_spec (serial_color_for_log_level level) m) as (m1 & E1 & ?). rewrite (io_bind_step _ _ _ _ _ E1).
  destruct (sync_serial_puts_spec s m1) as (m2 & E2 & ?). rewrite (io_bind_step _ _ _ _ _ E2).
  destruct (sync_serial_puts_spec (serial_color_for_log_level (-1)) m2) as (m3 & E3 & ?). exists m3. split; [exact E3|].
  apply (sent_since_trans _ _ m1); [done|]. by apply (sent_since_trans _ _ m2).
Qed.
(** The log is set up with the serial port as its backend. *)
Record serial_log (k : klog M) : Prop := {
  sl_buffers : buffers_ok k; sl_registry : registry_ok (g_backend_registry k);
  sl_default : klog_get_backend_ops (g_default_backend k) (g_backend_registry k) = Some (g_serial_backend_ops polls) }.
Lemma klog_log_serial level mem fmt args text k : serial_log k → g_log_level k ≤ level → prints mem fmt args text →
  ∃ k', klog_log level mem fmt args k = Ret (tt, k') ∧ serial_log k' ∧ g_log_level k' = g_log_level k ∧
    sent_since (world k) (serial_color_for_log_level level ++ log_line level text ++ serial_color_for_log_level (-1)) (world k').
Proof using Hpolls.
  intros [Hb Hr Hd] Hl Hp. destruct (klog_log_spec level mem fmt args text _ k (world k) Hb Hp Hl Hd eq_refl) as (b & g & Hlb & Hlg & ->).
  destruct (serial_process_spec (log_line level text) level (world k)) as (w & E & Hs).
  rewrite (on_world_ret _ _ tt w) by exact E. eexists. split; [reflexivity|]. split; [|by split]. split; [split; [done|apply Hb|done]|done|done].
Qed.
Lemma klog_log_keeps level mem fmt args text k : serial_log k → prints mem fmt args text →
  ∃ k', klog_log level mem fmt args k = Ret (tt, k') ∧ serial_log k' ∧ g_log_level k' = g_log_level k.
Proof using Hpolls.
  intros Hk Hf. destruct (Z.leb_spec (g_log_level k) level) as [Hl|Hl].
  - destruct (klog_log_serial level mem fmt args text k Hk Hl Hf) as (k' & E & Hk' & Hlev & _). by exists k'.
  - exists k. split; [apply klog_log_silent; by left|done].
Qed.
End wire.
Lemma cstr_here pre t post : Forall (λ c, c ≠ 0) t → cstr (pre ++ t ++ 0 :: post) (Z.of_nat (length pre)) t.
Proof.
  revert pre. induction t as [|c t IH]; intros pre Ht; cbn [cstr app].
  - rewrite zlookup_nonneg, Nat2Z.id by lia. by rewrite list_lookup_middle.
  - apply Forall_cons in Ht as [Hc Ht]. split; [rewrite zlookup_nonneg, Nat2Z.id by lia; by rewrite list_lookup_middle|]. split; [done|].
    specialize (IH (pre ++ [c]) Ht). rewrite length_app, Nat2Z.inj_add, <- app_assoc in IH. exact IH.
Qed.
Lemma prints_text t : Forall (λ c, 0 < c < 256 ∧ c ≠ 37) t → prints (t ++ [0]) 0 [] t.
Proof.
  intros Ht. exists (λ _, None), (Lit <$> t). assert (Format.encode (Lit <$> t) = t) as ->.
  { clear Ht. induction t as [|c t IH]; [done|]. unfold Format.encode in *. cbn. by rewrite IH. }
  split; [done|]. split; [by apply Forall_fmap|]. split; [apply (cstr_here [] t []); eapply Forall_impl; [done|]; cbn; lia|].
  clear Ht. induction t as [|c t IH]; [done|]. cbn. by rewrite IH.
Qed.

(** C20: A message reaches the wire: with the serial port as backend, [klog_log] at a
    level the filter lets through sends the colour of the level, the line with the
    level and the rendered text, cut to 501 bytes, and the sequence that resets the
    colour, in this order and nothing else; it writes inside its buffers, and the log
    stays ready for the next message. Below the filter it does nothing. *)
Theorem klog_log_reaches_serial {H} `{UartLaws H} polls level m fmt args text (k : klog (machine H drivers)) :
  (tx_delay < polls)%nat → serial_log polls k → prints m fmt args text →
  ∃ k', klog_log level m fmt args k = Ret (tt, k') ∧ serial_log polls k' ∧ g_log_level k' = g_log_level k ∧
    tx_sent (hw (world k')) = tx_sent (hw (world k)) ++
      if g_log_level k <=? level then u8 <$> serial_color_for_log_level level ++ log_line level text ++ serial_color_for_log_level (-1) else [].
Proof.
  intros Hp Hk Hf. destruct (Z.leb_spec (g_log_level k) level) as [Hl|Hl].
  - destruct (klog_log_serial polls Hp level m fmt args text k Hk Hl Hf) as (k' & E & Hk' & Hlev & h & Hw & Hs).
    exists k'. split; [exact E|]. split; [done|]. split; [done|]. by rewrite Hw.
  - exists k. split; [apply klog_log_silent; by left|]. by rewrite app_nil_r.
Qed.

Lemma wf_message t k : Forall (λ c, 0 < c < 256 ∧ c ≠ 37) t → (∀ c, k ≠ COther c) → Forall wf_item ((Lit <$> t) ++ [Spec false false [] 0 k; Lit 10]).
Proof.
  intros Ht Hk. apply Forall_app. split; [by apply Forall_fmap|]. apply Forall_cons. split; [|apply Forall_singleton; cbn; lia].
  cbn [wf_item]. split; [done|]. split; [constructor|]. split; [done|]. split; [cbn; lia|]. split; [lia|]. by destruct k; try done; destruct (Hk c).
Qed.
(** The two messages of [klog_init] that have arguments. *)
Lemma level_message_prints level : let fmt := 9 :: codes "Current Filtered Level: %s" ++ [10; 0] in
  ∃ text, prints (fmt ++ klog_level_name level ++ [0]) 0 [Z.of_nat (length fmt)] text.
Proof.
  intros fmt. set (its := (Lit <$> (9 :: codes "Current Filtered Level: ")) ++ [Spec false false [] 0 CStr; Lit 10]).
  assert (Forall (λ c, c ≠ 0 ∧ is_u8 c) (klog_level_name level)) as Hname.
  { unfold klog_level_name. repeat case_match; vm_compute; repeat constructor; done. }
  set (str := λ a, if a =? Z.of_nat (length fmt) then Some (klog_level_name level) else None).
  exists ((9 :: codes "Current Filtered Level: ") ++ klog_level_name level ++ [10]). exists str, its. split; [|split; [|split]].
  - intros a t. unfold str. destruct (Z.eqb_spec a (Z.of_nat (length fmt))) as [->|]; [|done]. intros [= <-]. split.
    + apply cstr_here. eapply Forall_impl; [exact Hname|]. by intros c [? _].
    + split; [eapply Forall_impl; [exact Hname|]; by intros c [_ ?]|]. rewrite level_name_length. lia.
  - apply wf_message; [vm_compute; repeat constructor; lia|done].
  - apply (cstr_here [] (removelast fmt) (klog_level_name level ++ [0])). vm_compute. by repeat constructor.
  - unfold str, klog_level_name. clear. repeat case_match; vm_compute; reflexivity.
Qed.
Lemma size_message_prints : ∃ text, prints (9 :: codes "Cached printf size: %d" ++ [10; 0]) 0 [KPRINTF_BUFFER_SIZE] text.
Proof.
  eexists. exists (λ _, None), ((Lit <$> (9 :: codes "Cached printf size: ")) ++ [Spec false false [] 0 (CInt false); Lit 10]). split; [done|]. split; [|split].
  - apply wf_message; [vm_compute; repeat constructor; lia|done].
  - apply (cstr_here [] (9 :: codes "Cached printf size: %d" ++ [10]) []). vm_compute. by repeat constructor.
  - vm_compute. reflexivity.
Qed.

(** Setting the log up: whatever was registered before, [klog_init] with the serial
    port returns true and leaves the log ready, with the serial port as default. *)
Theorem klog_init_serial {H} `{UartLaws H} polls (k : klog (machine H drivers)) :
  (tx_delay < polls)%nat → buffers_ok k → registry_ok (g_backend_registry k) →
  ∃ k', klog_init polls KLOG_BACKEND_SERIAL k = Ret (true, k') ∧ serial_log polls k' ∧ g_log_level k' = g_log_level k.
Proof.
  intros Hp Hb Hr. unfold klog_init. rewrite bool_decide_true by done.
  assert (∃ w, on_world klog_serial_backend_init k = Ret (true, with_world w k)) as [w E] by (eexists; by apply on_world_ret).
  destruct (klog_register_backend_updates KLOG_BACKEND_SERIAL (g_serial_backend_ops polls) (with_world w k) Hr) as [_ (r & d & E1 & Hr1 & Hg & _)].
  set (k0 := with_registry r d (with_world w k)) in *. set (k1 := with_registry r KLOG_BACKEND_SERIAL k0).
  assert (serial_log polls k1) as Hk1. { split; [by destruct Hb|done|]. cbn. rewrite Hg. by rewrite decide_True. }
  erewrite (io_bind_step _ _ k true k0). 2: { rewrite (io_bind_step _ _ _ _ _ E). by rewrite (io_bind_step _ _ _ _ _ E1). }
  cbn [negb]. rewrite (io_bind_step (klog_set_default_backend KLOG_BACKEND_SERIAL) _ k0 tt k1) by done.
  assert (∀ t, Forall (λ c, 0 < c < 256 ∧ c ≠ 37) t → ∀ q, serial_log polls q → ∃ q', klog_text KLOG_LEVEL_TRACE t q = Ret (tt, q') ∧ serial_log polls q' ∧ g_log_level q' = g_log_level q) as Htext.
  { intros t Ht q Hq. unfold klog_text. by apply (klog_log_keeps polls Hp _ _ _ _ t), prints_text. }
  destruct (Htext (codes "Klog Finished, attempt to send followings..." ++ [10]) ltac:(vm_compute; repeat constructor; lia) k1 Hk1) as (k2 & E2 & Hk2 & L2).
  rewrite (io_bind_step _ _ _ _ _ E2).
  assert (Forall (λ c, 0 < c < 256 ∧ c ≠ 37) (replicate 56 61 ++ [10])) as Hline by (vm_compute; repeat constructor; lia).
  destruct (Htext _ Hline k2 Hk2) as (k3 & E3 & Hk3 & L3). rewrite (io_bind_step _ _ _ _ _ E3).
  rewrite (io_bind_step klog_get_level _ k3 (g_log_level k3) k3) by done. destruct (level_message_prints (g_log_level k3)) as [t4 P4].
  destruct (klog_log_keeps polls Hp KLOG_LEVEL_TRACE _ _ _ _ k3 Hk3 P4) as (k4 & E4 & Hk4 & L4). rewrite (io_bind_step _ _ _ _ _ E4).
  destruct size_message_prints as [t5 P5]. destruct (klog_log_keeps polls Hp KLOG_LEVEL_TRACE _ _ _ _ k4 Hk4 P5) as (k5 & E5 & Hk5 & L5).
  rewrite (io_bind_step _ _ _ _ _ E5). destruct (Htext _ Hline k5 Hk5) as (k6 & E6 & Hk6 & L6). rewrite (io_bind_step _ _ _ _ _ E6).
  exists k6. split; [done|]. split; [done|]. rewrite L6, L5, L4, L3, L2. done.
Qed.

(** [kvprintf] gives the backend the text alone, cut to 511 bytes, whatever the filter
    is, and does nothing for a backend that is not registered. *)
Theorem kvprintf_prints {W} t m fmt args text ops (k : klog W) w : buffers_ok k → prints m fmt args text →
  klog_get_backend_ops t (g_backend_registry k) = Some ops → is_ready ops (world k) = Ret (true, w) →
  ∃ b g, length b = 512%nat ∧ length g = 32%nat ∧
    kvprintf t m fmt args k = on_world (process ops (until_nul (take 511 text)) (-1)) (with_buffers (klog_buffer k) b g (with_world w k)).
Proof.
  intros [Hb Hkv Hg] (str & its & Hstr & Hwf & Hc & Hr) Ho Hw. unfold kvprintf. rewrite Ho, (on_world_ret _ _ _ _ Hw), outcome_bind_ret. cbn [negb].
  change KPRINTF_BUFFER_SIZE with (Z.of_nat 511 + 1). cbn [kvprintf_buffer g_format_buffer klog_buffer with_world].
  destruct (klog_format_string_spec 511 m str fmt its args text (g_format_buffer k) (kvprintf_buffer k)) as (out & g & -> & Hg' & Hl & Hp); [done..|by rewrite Hg|by rewrite Hkv|lia|].
  rewrite outcome_bind_ret. cbn [default from_option id]. rewrite (cstring_prefix _ _ Hp), outcome_bind_ret. exists out, g. split; [lia|]. split; [lia|done].
Qed.

(** ** Example: "pid %d" through a board *)
Definition demo_log : klog (machine board drivers) :=
  with_registry (mk_slot KLOG_BACKEND_SERIAL (Some (g_serial_backend_ops 1)) true :: replicate 3 (mk_slot KLOG_BACKEND_NONE None false)) KLOG_BACKEND_SERIAL
    (klog_boot (boot_machine (demo_board [] 0))).
Lemma demo_log_ok : serial_log 1 demo_log.
Proof.
  split; [done| |done]. split; [done| |].
  - intros [|[|[|[|j]]]] x; cbn; intros [= <-]; done.
  - intros [|[|[|[|i]]]] [|[|[|[|j]]]] x y; cbn; intros [= <-] [= <-]; done.
Qed.
Lemma klog_log_witness : ∃ k', klog_log KLOG_LEVEL_INFO (codes "pid %d" ++ [10; 0]) 0 [7] demo_log = Ret (tt, k') ∧
  b_sent (hw (world k')) = ansi "[32m" ++ codes "[INFO ] pid 7" ++ [10] ++ ansi "[0m".
Proof.
  destruct (klog_log_reaches_serial 1 KLOG_LEVEL_INFO (codes "pid %d" ++ [10; 0]) 0 [7] (codes "pid 7" ++ [10]) demo_log) as (k' & E & _ & _ & Hs).
  - cbn. lia.
  - exact demo_log_ok.
  - exists (λ _, None), ((Lit <$> codes "pid ") ++ [Spec false false [] 0 (CInt false); Lit 10]). split; [done|]. split; [|split].
    + apply wf_message; [vm_compute; repeat constructor; lia|done].
    + apply (cstr_here [] (codes "pid %d" ++ [10]) []). vm_compute. by repeat constructor.
    + vm_compute. reflexivity.
  - exists k'. split; [exact E|]. exact Hs.
Defined.

(** The colours of [serial_color_t] are escape codes, 30 to 97, and the table that
    [serial_color_ansi] looks them up in has 17 entries: every colour is the reset. *)
Theorem serial_color_ansi_never_colours c : 17 ≤ c → serial_color_ansi c = ansi "[0m".
Proof.
  intros Hc. unfold serial_color_ansi. change (Z.of_nat (length g_ansi_colors)) with 17. destruct (Z.ltb_spec c 17); [lia|]. by rewrite andb_false_r.
Qed.
