(* ===== verification/Syscall.v ===== *)
(** * System calls: [kernel/syscall/syscall.c], [syscall_table.c], [syscall_numbers.h],
    and the two entries of [syscall.asm]

    The table of handlers, the dispatcher with its statistics, the handlers on top of
    [Process], [User] and [Klog], and [syscall_init] with the processor registers it
    programs. A handler is a function on the state of the kernel; it returns a value,
    or another task runs ([Away]) or the machine has stopped ([Halted]). The log
    messages of the code are left out, except for the two calls that are there to
    print. Memory of a process is reached through the tables in CR3, as in [User]. *)
From stdpp Require Import sorting.
From S2P Require Import Prelude Bits Mem Bitmap E820 Pframe Page Vmm DList Strings StrConv Format Sched Process Fork User Ports Desc Irq Ring Drivers Rtc Devices Klog.
Import Bitmap Pframe Page Vmm DList Format Sched Process User Desc Irq Ring Drivers Devices Klog.

Module Syscall.

(** ** Numbers and results *)
Definition SYS_EXIT := 0.
Definition SYS_EXECVE := 1.
Definition SYS_FORK := 2.
Definition SYS_WAIT4 := 3.
Definition SYS_GETPID := 4.
Definition SYS_GETPPID := 5.
Definition SYS_THREAD_CREATE := 6.
Definition SYS_THREAD_EXIT := 7.
Definition SYS_THREAD_JOIN := 8.
Definition SYS_THREAD_DETACH := 9.
Definition SYS_OPEN := 10.
Definition SYS_CLOSE := 11.
Definition SYS_READ := 12.
Definition SYS_WRITE := 13.
Definition SYS_LSEEK := 14.
Definition SYS_IOCTL := 15.
Definition SYS_BRK := 20.
Definition SYS_MMAP := 21.
Definition SYS_MUNMAP := 22.
Definition SYS_UNAME := 30.
Definition SYS_GETTIME := 31.
Definition SYS_DEBUG_LOG := 100.
Definition SYS_TEST := 101.
Definition SYS_MAX := 256.
Definition SYS_OK := 0.
Definition SYS_ERR_INVAL := -1.
Definition SYS_ERR_NOMEM := -3.
Definition SYS_ERR_NFILE := -4.
Definition SYS_ERR_NOENT := -5.
Definition SYS_ERR_IO := -6.
Definition SYS_ERR_NOTIMPL := -7.
Definition SYSCALL_FMASK_DEFAULT := 0x200.
Definition GDT_USER_CODE := 0x18.

Record syscall_frame_t := mk_frame { syscall_number : Z; arg0 : Z; arg1 : Z; arg2 : Z; arg3 : Z; arg4 : Z; arg5 : Z }.
Definition with_arg5 (a : Z) (f : syscall_frame_t) : syscall_frame_t :=
  mk_frame (syscall_number f) (arg0 f) (arg1 f) (arg2 f) (arg3 f) (arg4 f) a.
Inductive sys_end := Returns (r : Z) | Away (next : option Z) | Halted.
Record syscall_stats_t := mk_stats { total_calls : Z; syscall_calls : list Z; errors : Z; not_impl_count : Z }.
Definition stats_zero : syscall_stats_t := mk_stats 0 (replicate 256 0) 0 0.

Section syscall.
Context `{PcbLayout} {W : Type}.
(** [CCOS_VERSION] is written into a header by the build. *)
Context (CCOS_VERSION : list Z).
Record kernel := mk_kernel { procs : proc_state; klogs : klog W; cr3 : Z }.
Definition syscall_handler_fn : Type := syscall_frame_t → kernel → outcome (sys_end * kernel).
Implicit Types (f : syscall_frame_t) (k : kernel).

Definition with_procs (s : proc_state) k : kernel := mk_kernel s (klogs k) (cr3 k).
Definition with_klogs (l : klog W) k : kernel := mk_kernel (procs k) l (cr3 k).
Definition proc_current k : option Z := current (sched (procs k)).
Definition ret (r : Z) k : outcome (sys_end * kernel) := Ret (Returns r, k).
(** A call of the process code, with its integer result. *)
Definition call_proc (m : proc_state → outcome (Z * proc_state)) (g : Z → Z) k : outcome (sys_end * kernel) :=
  r ← m (procs k); Ret (Returns (g (fst (r : Z * proc_state))), with_procs (snd r) k).
(** The bytes of a word, written through the tables in CR3. *)
Fixpoint store_bytes (a : Z) (l : list Z) (root : Z) (p : page_state) : outcome page_state :=
  match l with [] => Ret p | b :: r => p ← vm_store root a b p; store_bytes (a ⊞ 1) r root p end.
Definition bytes_of (n : nat) (v : Z) : list Z := (λ i, get_byte v (Z.of_nat i)) <$> seq 0 n.
Definition store_user (a : Z) (n : nat) (v : Z) k : outcome kernel :=
  p ← store_bytes a (bytes_of n v) (cr3 k) (pages (vmm (procs k)));
  Ret (with_procs (with_vmm (with_pages p (vmm (procs k))) (procs k)) k).

(** ** Processes *)
Definition sys_fork : syscall_handler_fn := λ f, call_proc proc_fork id.
Definition sys_exit : syscall_handler_fn := λ f k,
  r ← proc_exit (s32 (arg0 f)) (procs k);
  let '(e, s) := r : option (option Z) * proc_state in
  Ret (match e with Some next => Away next | None => Halted end, with_procs s k).
Definition sys_wait4 : syscall_handler_fn := λ f k,
  let wstatus := arg1 f in
  r ← proc_wait4 (s32 (arg0 f)) (procs k);
  let '(e, s) := r : wait_end * proc_state in
  let k := with_procs s k in
  match e with
  | WaitError => ret (-1) k
  | WaitBlocked next => Ret (Away next, k)
  | Reaped i status => k ← (if wstatus =? 0 then Ret k else store_user wstatus 4 (u32 status) k); ret i k
  end.
Definition sys_getpid : syscall_handler_fn := λ f k,
  match proc_current k with
  | Some c => x ← get_pcb c (procs k); ret (pid x) k
  | None => ret (-1) k
  end.
Definition sys_getppid : syscall_handler_fn := λ f k,
  match proc_current k with
  | Some c =>
      x ← get_pcb c (procs k);
      if parent x =? 0 then ret 0 k else y ← get_pcb (parent x) (procs k); ret (pid y) k
  | None => ret 0 k
  end.

(** ** Files *)
Definition print_user (format : list Z) (count buf : Z) k : outcome kernel :=
  r ← klog_log KLOG_LEVEL_INFO (format ++ [0]) 0 [s32 count; buf] (klogs k);
  Ret (with_klogs (snd (r : unit * klog W)) k).
Definition sys_write : syscall_handler_fn := λ f k,
  let fd := s32 (arg0 f) in let buf := arg1 f in let count := arg2 f in
  if (fd =? 1) || (fd =? 2) then k ← print_user (codes "[USER OUT] %.*s") count buf k; ret (s64 count) k
  else ret SYS_ERR_NFILE k.
Definition sys_read : syscall_handler_fn := λ f k, if s32 (arg0 f) =? 0 then ret 0 k else ret SYS_ERR_NFILE k.
Definition sys_open : syscall_handler_fn := λ f k, ret SYS_ERR_NOENT k.
Definition sys_close : syscall_handler_fn := λ f k, ret SYS_OK k.
Definition sys_lseek : syscall_handler_fn := λ f k,
  let fd := s32 (arg0 f) in
  if (fd =? 0) || (fd =? 1) || (fd =? 2) then ret SYS_ERR_INVAL k else ret SYS_ERR_NFILE k.
Definition sys_ioctl : syscall_handler_fn := λ f k, ret SYS_ERR_NOTIMPL k.

(** ** Memory *)
Definition sys_brk : syscall_handler_fn := λ f k,
  match proc_current k with
  | None => ret SYS_ERR_INVAL k
  | Some c =>
      if arg0 f =? 0 then x ← get_pcb c (procs k); ret (s64 (brk (mm x))) k
      else call_proc (user_brk c (arg0 f)) s64 k
  end.
Definition sys_mmap : syscall_handler_fn := λ f k,
  match proc_current k with
  | None => ret SYS_ERR_INVAL k
  | Some c =>
      if Z.land (s32 (arg3 f)) 0x20 =? 0 then ret SYS_ERR_NOTIMPL k
      else call_proc (user_mmap c (arg0 f) (arg1 f) (s32 (arg2 f))) s64 k
  end.
Definition sys_munmap : syscall_handler_fn := λ f k,
  match proc_current k with
  | None => ret SYS_ERR_INVAL k
  | Some c => call_proc (user_munmap c (arg0 f) (arg1 f)) id k
  end.

(** ** System information *)
Definition char65 (s : list Z) : list Z := take 65 (s ++ replicate 65 0).
Definition kernel_info : list Z :=
  char65 (codes "CCOS") ++ char65 (codes "localhost") ++ char65 CCOS_VERSION ++ char65 (codes "CCOS x86_64 v" ++ CCOS_VERSION) ++
  char65 (codes "x86_64") ++ char65 (codes "(none current)").
Definition sizeof_utsname := 390.
Definition sys_uname : syscall_handler_fn := λ f k,
  let buf := arg0 f in
  match proc_current k with
  | None => ret SYS_ERR_INVAL k
  | Some _ =>
      if negb (user_validate_pointer buf sizeof_utsname true) then ret SYS_ERR_INVAL k else
      r ← user_copy_to_user (cr3 k) buf kernel_info sizeof_utsname (pages (vmm (procs k)));
      let '(result, p) := r : Z * page_state in
      let k := with_procs (with_vmm (with_pages p (vmm (procs k))) (procs k)) k in
      if result <? 0 then ret SYS_ERR_IO k else ret SYS_OK k
  end.

(** ** Threads *)
Definition sys_thread_create : syscall_handler_fn := λ f k,
  match proc_current k with
  | None => ret SYS_ERR_INVAL k
  | Some c =>
      if arg0 f =? 0 then ret SYS_ERR_INVAL k
      else call_proc (proc_create_user_thread c (arg0 f) (arg1 f) (arg2 f) (arg3 f)) (λ tid, if tid <? 0 then SYS_ERR_NOMEM else tid) k
  end.
Definition sys_thread_exit : syscall_handler_fn := λ f k,
  r ← proc_thread_exit (arg0 f) (procs k);
  let '(e, s) := r : option (option Z) * proc_state in
  Ret (match e with Some next => Away next | None => Halted end, with_procs s k).
Definition sys_thread_join : syscall_handler_fn := λ f k,
  let retval := arg1 f in
  match proc_current k with
  | None => ret SYS_ERR_INVAL k
  | Some _ =>
      if negb (retval =? 0) && negb (user_validate_pointer retval 8 true) then ret SYS_ERR_INVAL k else
      r ← proc_thread_join (s32 (arg0 f)) (procs k);
      let '(e, s) := r : join_end * proc_state in
      let k := with_procs s k in
      match e with
      | JoinError => ret SYS_ERR_INVAL k
      | JoinSleeps next => Ret (Away next, k)
      | Joined v => k ← (if retval =? 0 then Ret k else store_user retval 8 v k); ret SYS_OK k
      end
  end.
Definition sys_thread_detach : syscall_handler_fn := λ f k,
  match proc_current k with
  | None => ret SYS_ERR_INVAL k
  | Some _ => call_proc (proc_thread_detach (s32 (arg0 f))) (λ r, if r <? 0 then SYS_ERR_INVAL else SYS_OK) k
  end.

(** ** Testing *)
Definition syscall_debug_log : syscall_handler_fn := λ f k,
  k ← print_user (codes "[USER LOG] %.*s" ++ [10]) (arg1 f) (arg0 f) k; ret SYS_OK k.
Definition syscall_test : syscall_handler_fn := λ f k, ret (s64 (arg0 f)) k.

(** ** The table and the dispatcher *)
Record syscall_entry_t := mk_sentry { handler : option syscall_handler_fn; name : option string; registered : bool }.
Definition zero_sentry : syscall_entry_t := mk_sentry None None false.
Record framework := mk_fw { s_syscall_table : list syscall_entry_t; s_stats : syscall_stats_t; s_initialized : bool }.
(** The registers of the processor [syscall_init] uses: model specific registers, CR4,
    what CPUID reports in EDX for leaf 0x80000001, and the interrupt table. *)
Record cpu := mk_cpu { msrs : gmap Z Z; cr4 : Z; cpuid_edx : Z; idt : list idt_entry_t }.
Record system := mk_sys { kern : kernel; fw : framework; proc : cpu }.
Implicit Types (s : system) (t : list syscall_entry_t).
Definition with_kern k s : system := mk_sys k (fw s) (proc s).
Definition with_stats (x : syscall_stats_t) s : system :=
  mk_sys (kern s) (mk_fw (s_syscall_table (fw s)) x (s_initialized (fw s))) (proc s).
Definition count_call x := mk_stats (u64 (total_calls x + 1)) (syscall_calls x) (errors x) (not_impl_count x).
Definition count_error x := mk_stats (total_calls x) (syscall_calls x) (u64 (errors x + 1)) (not_impl_count x).
Definition count_not_impl x := mk_stats (total_calls x) (syscall_calls x) (errors x) (u64 (not_impl_count x + 1)).
Definition count_number (n : Z) x :=
  mk_stats (total_calls x) (zinsert (syscall_calls x) n (u64 (default 0 (zlookup (syscall_calls x) n) + 1))) (errors x) (not_impl_count x).

Definition syscall_register_handler (number : Z) (h : option syscall_handler_fn) (nm : option string) t
    : outcome (Z * list syscall_entry_t) :=
  if SYS_MAX <=? number then Ret (-1, t) else
  match h with
  | None => Ret (-2, t)
  | Some h => _ ← access (zlookup t number); Ret (0, zinsert t number (mk_sentry (Some h) nm true))
  end.
Definition syscall_not_impl f s : outcome (sys_end * system) :=
  Ret (Returns SYS_ERR_NOTIMPL, with_stats (count_error (count_not_impl (s_stats (fw s)))) s).
Definition syscall_dispatch f (a5 : Z) s : outcome (sys_end * system) :=
  let s := with_stats (count_call (s_stats (fw s))) s in
  let number := syscall_number f in
  if SYS_MAX <=? number then Ret (Returns SYS_ERR_INVAL, with_stats (count_error (s_stats (fw s))) s) else
  let f := with_arg5 a5 f in
  let s := if number <? 256 then with_stats (count_number number (s_stats (fw s))) s else s in
  e ← access (zlookup (s_syscall_table (fw s)) number);
  match registered e, handler e with
  | true, Some h => r ← h f (kern s); Ret (fst (r : sys_end * kernel), with_kern (snd r) s)
  | _, _ => syscall_not_impl f s
  end.
(** [uninit]: the word of the local frame that is not copied. *)
Definition syscall_dispatch_int80 (uninit : Z) f s : outcome (sys_end * system) :=
  let regular := mk_frame (syscall_number f) (arg0 f) (arg1 f) (arg2 f) (arg3 f) (arg4 f) uninit in
  syscall_dispatch regular (arg5 f) s.
Definition syscall_get_stats s : syscall_stats_t := s_stats (fw s).

(** ** The busiest calls: [top_counts] and [top_numbers] *)
Definition top_insert (c i : Z) (top : list (Z * Z)) : list (Z * Z) :=
  match top with
  | [a; b; d; e; g] =>
      if fst a <? c then [(c, i); a; b; d; e] else
      if fst b <? c then [a; (c, i); b; d; e] else
      if fst d <? c then [a; b; (c, i); d; e] else
      if fst e <? c then [a; b; d; (c, i); e] else
      if fst g <? c then [a; b; d; e; (c, i)] else top
  | _ => top
  end.
Fixpoint top_loop (i : Z) (calls : list Z) (top : list (Z * Z)) : list (Z * Z) :=
  match calls with [] => top | c :: r => top_loop (i + 1) r (top_insert c i top) end.
(** The lines that are printed: the number, its calls and its name. *)
Definition syscall_dump_stats s : list (Z * Z * option string) :=
  let top := top_loop 0 (syscall_calls (s_stats (fw s))) (replicate 5 (0, 0)) in
  (λ x : Z * Z, (snd x, fst x, e ← zlookup (s_syscall_table (fw s)) (snd x); name e)) <$> filter (λ x : Z * Z, 0 < fst x) top.

(** ** Start-up *)
Definition register_all (l : list (Z * syscall_handler_fn * string)) t : outcome (list syscall_entry_t) :=
  foldl (λ o x, t ← o; r ← syscall_register_handler (fst (fst x)) (Some (snd (fst x))) (Some (snd x)) t; Ret (snd (r : Z * list syscall_entry_t)))
    (Ret t) l.
Definition syscall_handlers : list (Z * syscall_handler_fn * string) :=
  [(SYS_FORK, sys_fork, "fork"); (SYS_EXIT, sys_exit, "exit"); (SYS_WAIT4, sys_wait4, "wait4");
   (SYS_GETPID, sys_getpid, "getpid"); (SYS_GETPPID, sys_getppid, "getppid");
   (SYS_THREAD_CREATE, sys_thread_create, "thread_create"); (SYS_THREAD_EXIT, sys_thread_exit, "thread_exit");
   (SYS_THREAD_JOIN, sys_thread_join, "thread_join"); (SYS_THREAD_DETACH, sys_thread_detach, "thread_detach");
   (SYS_WRITE, sys_write, "write"); (SYS_READ, sys_read, "read"); (SYS_OPEN, sys_open, "open");
   (SYS_CLOSE, sys_close, "close"); (SYS_LSEEK, sys_lseek, "lseek"); (SYS_IOCTL, sys_ioctl, "ioctl");
   (SYS_BRK, sys_brk, "brk"); (SYS_MMAP, sys_mmap, "mmap"); (SYS_MUNMAP, sys_munmap, "munmap");
   (SYS_UNAME, sys_uname, "uname")]%string.
Definition syscall_register_all t : outcome (list syscall_entry_t) := register_all syscall_handlers t.
Definition default_handlers : list (Z * syscall_handler_fn * string) :=
  [(SYS_DEBUG_LOG, syscall_debug_log, "debug_log"); (SYS_TEST, syscall_test, "test")]%string.
Definition wrmsr (msr value : Z) (c : cpu) : cpu := mk_cpu (<[msr := value]> (msrs c)) (cr4 c) (cpuid_edx c) (idt c).
Definition rdmsr (msr : Z) (c : cpu) : option Z := msrs c !! msr.
Definition syscall_is_available (c : cpu) : bool := negb (Z.land (cpuid_edx c) (Z.shiftl 1 11) =? 0).
(** The entry points are in the assembly file. *)
Definition syscall_init (syscall_handler int0x80_handler : Z) s : outcome system :=
  if s_initialized (fw s) then Ret s else
  if negb (syscall_is_available (proc s)) then Ret s else
  let t := replicate 256 zero_sentry in
  t ← register_all default_handlers t;
  t ← syscall_register_all t;
  let c := proc s in
  let c := if negb (Z.land (cr4 c) (Z.shiftl 1 11) =? 0) then c
           else mk_cpu (msrs c) (Z.lor (cr4 c) (Z.shiftl 1 11)) (cpuid_edx c) (idt c) in
  let c := wrmsr 0xC0000082 syscall_handler c in
  let star := Z.lor (Z.shiftl (Z.lor GDT_USER_CODE 3) 48) (Z.shiftl GDT_KERNEL_CODE 32) in
  let c := wrmsr 0xC0000081 star c in
  let c := wrmsr 0xC0000084 SYSCALL_FMASK_DEFAULT c in
  i ← idt_set_gate 128 int0x80_handler IDT_USER_INTERRUPT_GATE GDT_KERNEL_CODE (idt c);
  Ret (mk_sys (kern s) (mk_fw t (s_stats (fw s)) true) (mk_cpu (msrs c) (cr4 c) (cpuid_edx c) i)).

(** ** The entries: the registers a program has before and after the instruction *)
Record regs := mk_regs { rax : Z; rdi : Z; rsi : Z; rdx : Z; r10 : Z; r8 : Z; r9 : Z; r15 : Z }.
Definition with_rax (v : Z) (r : regs) : regs := mk_regs v (rdi r) (rsi r) (rdx r) (r10 r) (r8 r) (r9 r) (r15 r).
(** The selector of the data segment goes through AX before RAX is stored; the saved
    RAX is restored at the end. *)
Definition syscall_handler (r : regs) s : outcome (option regs * system) :=
  let ax := Z.lor (Z.land (rax r) (~64 0xFFFF)) 0x10 in
  x ← syscall_dispatch (mk_frame ax (rdi r) (rsi r) (rdx r) (r10 r) (r8 r) 0) (r9 r) s;
  let '(e, s) := x : sys_end * system in
  Ret (match e with Returns _ => Some (with_rax (rax r) r) | _ => None end, s).
(** [frame] is what the processor has pushed, RIP first. The result is kept in R15,
    which is restored before it goes to RAX; the saved RAX and two words more are
    dropped before the return instruction reads the frame. *)
Definition int0x80_handler (uninit : Z) (frame : list Z) (r : regs) s : outcome (option (regs * list Z) * system) :=
  x ← syscall_dispatch_int80 uninit (mk_frame (rax r) (rdi r) (rsi r) (rdx r) (r10 r) (r8 r) (r9 r)) s;
  let '(e, s) := x : sys_end * system in
  Ret (match e with Returns _ => Some (with_rax (r15 r) r, drop 3 (rax r :: frame)) | _ => None end, s).
End syscall.
Arguments kernel : clear implicits. Arguments system : clear implicits.
End Syscall.
Import Syscall.

(** ** The table *)
Section routing.
Context `{PcbLayout} {W : Type} (version : list Z).
Notation sys := (system W).
Notation fn := (@syscall_handler_fn W).
Implicit Types (s : sys) (t : list (@syscall_entry_t W)) (l : list (Z * fn * string)).
#[local] Notation numbers l := ((λ x, fst (fst x)) <$> l).

(** What a table holds: the handlers [l], each under its number, and nothing else. *)
Definition holds_handlers l t : Prop := length t = 256%nat ∧
  (∀ n h nm, (n, h, nm) ∈ l → zlookup t n = Some (mk_sentry (Some h) (Some nm) true)) ∧
  (∀ n, 0 ≤ n < 256 → n ∉ numbers l → zlookup t n = Some zero_sentry).
Lemma register_all_spec l : NoDup (numbers l) → Forall (λ n, 0 ≤ n < 256) (numbers l) → ∀ l0 t, holds_handlers l0 t →
  (∀ n, n ∈ numbers l → n ∉ numbers l0) → ∃ t', register_all l t = Ret t' ∧ holds_handlers (l0 ++ l) t'.
Proof.
  unfold register_all. induction l as [|[[n h] nm] l IH]; intros Hnd Hr l0 t Ht Hdis; cbn [foldl].
  { exists t. by rewrite app_nil_r. }
  cbn [fmap list_fmap fst] in *. apply NoDup_cons in Hnd as [Hnin Hnd]. apply Forall_cons in Hr as [Hn Hr]. destruct Ht as (Hlen & Hin & Hout).
  rewrite outcome_bind_ret. unfold syscall_register_handler at 2. unfold SYS_MAX. destruct (Z.leb_spec 256 n); [lia|].
  destruct (zlookup_lt_is_Some t n) as [e He]; [lia|]. rewrite He. cbn [access]. rewrite !outcome_bind_ret. cbn [snd].
  destruct (IH Hnd Hr (l0 ++ [(n, h, nm)]) (zinsert t n (mk_sentry (Some h) (Some nm) true))) as (t' & E & Ht').
  - split; [by rewrite length_zinsert|]. split.
    + intros n' h' nm' [Hel|[= -> -> ->]%list_elem_of_singleton]%elem_of_app; [|apply zlookup_zinsert_eq; lia].
      rewrite zlookup_zinsert_ne; [by apply Hin|]. intros ->. apply (Hdis n'); [left|]. apply list_elem_of_fmap. by exists (n', h', nm').
    + intros n' Hn' Hni. rewrite fmap_app, not_elem_of_app in Hni. destruct Hni as [Hni1 Hni2]. rewrite zlookup_zinsert_ne; [by apply Hout|].
      intros ->. apply Hni2. left.
  - intros n' Hn'. rewrite fmap_app, not_elem_of_app. split; [apply Hdis; by right|]. intros ->%list_elem_of_singleton. done.
  - exists t'. rewrite <- app_assoc in Ht'. by split.
Qed.
(** The handlers of the system. *)
Definition all_handlers : list (Z * fn * string) := default_handlers ++ syscall_handlers version.
Lemma handler_numbers : NoDup (numbers all_handlers) ∧ Forall (λ n, 0 ≤ n < 256) (numbers all_handlers).
Proof. cbn. split; [|repeat constructor; done]. apply (bool_decide_unpack _). vm_compute. done. Qed.
Lemma syscall_init_spec eh ei s : s_initialized (fw s) = false → syscall_is_available (proc s) = true → length (idt (proc s)) = 256%nat →
  ∃ t g, syscall_init version eh ei s = Ret (mk_sys (kern s) (mk_fw t (s_stats (fw s)) true)
      (mk_cpu (<[0xC0000084 := 0x200]> (<[0xC0000081 := 0x001B000800000000]> (<[0xC0000082 := eh]> (msrs (proc s)))))
         (Z.lor (cr4 (proc s)) (2 ^ 11)) (cpuid_edx (proc s)) (zinsert (idt (proc s)) 128 g))) ∧
    holds_handlers all_handlers t ∧ g = make_gate ei IDT_USER_INTERRUPT_GATE GDT_KERNEL_CODE 0.
Proof.
  intros Hi Ha Hl. unfold syscall_init. rewrite Hi, Ha. cbn [negb]. pose proof handler_numbers as [Hnd Hr]. unfold all_handlers in *.
  rewrite fmap_app in Hnd, Hr. apply NoDup_app in Hnd as (Hnd1 & Hdis & Hnd2). apply Forall_app in Hr as [Hr1 Hr2].
  destruct (register_all_spec default_handlers Hnd1 Hr1 [] (replicate 256 zero_sentry)) as (t1 & -> & Ht1).
  { split; [done|]. split; [by intros n h nm []%not_elem_of_nil|]. intros n Hn _. rewrite zlookup_nonneg, lookup_replicate_2 by lia. done. }
  { intros n _ []%not_elem_of_nil. }
  rewrite outcome_bind_ret. destruct (register_all_spec (syscall_handlers version) Hnd2 Hr2 default_handlers t1 Ht1) as (t & E & Ht).
  { intros n Hn Hn'. by apply (Hdis n). }
  unfold syscall_register_all. rewrite E, outcome_bind_ret. unfold idt_set_gate, put_gate. change (u8 128) with 128.
  assert (∀ c : cpu, idt (if negb (Z.land (cr4 (proc s)) (Z.shiftl 1 11) =? 0) then proc s else mk_cpu (msrs (proc s)) (Z.lor (cr4 (proc s)) (Z.shiftl 1 11)) (cpuid_edx (proc s)) (idt (proc s)))
    = idt (proc s)) as Hidt by (intros _; by destruct (negb _)).
  cbn [wrmsr idt]. rewrite (Hidt (proc s)). destruct (zlookup_lt_is_Some (idt (proc s)) 128) as [g0 Hg0]; [lia|]. rewrite Hg0. cbn [access]. rewrite !outcome_bind_ret.
  exists t. eexists. split; [|split; [exact Ht|reflexivity]]. do 2 f_equal. cbn [wrmsr msrs cr4 cpuid_edx].
  destruct (Z.eqb_spec (Z.land (cr4 (proc s)) (Z.shiftl 1 11)) 0) as [Hz|Hz]; cbn [negb msrs cr4 cpuid_edx]; [done|].
  f_equal. symmetry. apply Z.bits_inj'. intros i Hi0. rewrite Z.lor_spec. destruct (decide (i = 11)) as [->|Hne].
  - rewrite orb_true_r. destruct (Z.testbit (cr4 (proc s)) 11) eqn:Hb; [done|]. exfalso. apply Hz. apply Z.bits_inj'. intros j Hj. rewrite Z.land_spec, Z.bits_0.
    change (Z.shiftl 1 11) with (2 ^ 11). destruct (decide (j = 11)) as [->|Hne]; [by rewrite Hb|]. by rewrite Z.pow2_bits_false, andb_false_r.
  - by rewrite Z.pow2_bits_false, orb_false_r.
Qed.

(** The system from its start on: it is set up, programs call it, and the kernel works
    in between. *)
Inductive running (eh ei : Z) s0 : sys → Prop :=
  | run_init s : syscall_init version eh ei s0 = Ret s → running eh ei s0 s
  | run_call s f a5 e s' : running eh ei s0 s → 0 ≤ syscall_number f → syscall_dispatch f a5 s = Ret (e, s') → running eh ei s0 s'
  | run_kernel s k : running eh ei s0 s → running eh ei s0 (with_kern k s).
(** The state before [syscall_init], on a processor that has the instructions. *)
Definition bootable s : Prop := s_initialized (fw s) = false ∧ syscall_is_available (proc s) = true ∧ length (idt (proc s)) = 256%nat ∧ s_stats (fw s) = stats_zero.

Lemma dispatch_cases f a5 s : holds_handlers all_handlers (s_syscall_table (fw s)) → 0 ≤ syscall_number f →
  let n := syscall_number f in let x := count_call (s_stats (fw s)) in
  (256 ≤ n ∧ syscall_dispatch f a5 s = Ret (Returns SYS_ERR_INVAL, with_stats (count_error x) s)) ∨
  (n < 256 ∧ n ∉ numbers all_handlers ∧
     syscall_dispatch f a5 s = Ret (Returns SYS_ERR_NOTIMPL, with_stats (count_error (count_not_impl (count_number n x))) s)) ∨
  (n < 256 ∧ ∃ h nm, (n, h, nm) ∈ all_handlers ∧
     syscall_dispatch f a5 s = (r ← h (with_arg5 a5 f) (kern s); Ret (fst (r : sys_end * kernel W), with_kern (snd r) (with_stats (count_number n x) s)))).
Proof.
  intros (Hlen & Hin & Hout) Hn n x. unfold syscall_dispatch. fold n. unfold SYS_MAX.
  destruct (Z.leb_spec 256 n) as [Hge|Hlt]; [left; by split|right]. destruct (Z.ltb_spec n 256); [|lia]. cbn [fw with_stats s_syscall_table s_stats kern].
  destruct (decide (n ∈ numbers all_handlers)) as [Hel|Hnel].
  - right. split; [done|]. apply list_elem_of_fmap in Hel as ([[n' h] nm] & -> & Hel). exists h, nm. cbn [fst] in *. split; [done|].
    rewrite (Hin _ _ _ Hel). cbn [access]. rewrite outcome_bind_ret. done.
  - left. split; [done|]. split; [done|]. rewrite (Hout n) by done. cbn [access]. by rewrite outcome_bind_ret.
Qed.
Lemma dispatch_table f a5 s e s' : syscall_dispatch f a5 s = Ret (e, s') → s_syscall_table (fw s') = s_syscall_table (fw s).
Proof.
  unfold syscall_dispatch. destruct (SYS_MAX <=? syscall_number f); [by intros [= _ <-]|]. set (s1 := if _ <? 256 then _ else _).
  assert (s_syscall_table (fw s1) = s_syscall_table (fw s)) as <- by (subst s1; by destruct (_ <? 256)).
  intros (en & _ & Hd)%outcome_bind_inv. unfold syscall_not_impl in Hd.
  destruct (registered en), (handler en) as [h|]; try (injection Hd as _ <-; done).
  by apply outcome_bind_inv in Hd as (r & _ & [= _ <-]).
Qed.
Lemma running_table eh ei s0 s : bootable s0 → running eh ei s0 s → holds_handlers all_handlers (s_syscall_table (fw s)).
Proof.
  intros (Hi & Ha & Hl & _) Hrun. induction Hrun as [s E|s f a5 e s' _ IH _ E|s k _ IH]; [|by rewrite (dispatch_table _ _ _ _ _ E)|done].
  destruct (syscall_init_spec eh ei s0 Hi Ha Hl) as (t & g & E' & Ht & _). rewrite E in E'. by injection E' as ->.
Qed.
End routing.

#[local] Notation numbers l := ((λ x, fst (fst x)) <$> l).

(** C18: Routing. At any time after [syscall_init], a call with a number from 256 on is
    refused, one with a number nothing is registered for is reported as not
    implemented, and one of the 21 numbers of the table runs exactly its handler, on
    the frame with the sixth argument filled in and on the kernel state of the moment;
    only the handler touches the kernel, and the statistics are counted as named. *)
Theorem syscall_dispatch_routes `{PcbLayout} {W} version eh ei (s0 s : system W) f a5 :
  bootable s0 → running version eh ei s0 s → 0 ≤ syscall_number f →
  let n := syscall_number f in let x := count_call (s_stats (fw s)) in
  syscall_dispatch f a5 s =
    if 256 <=? n then Ret (Returns SYS_ERR_INVAL, with_stats (count_error x) s)
    else match list_find (λ y, fst (fst y) = n) (all_handlers version) with
         | Some (_, (_, h, _)) =>
             r ← h (with_arg5 a5 f) (kern s); Ret (fst (r : sys_end * kernel W), with_kern (snd r) (with_stats (count_number n x) s))
         | None => Ret (Returns SYS_ERR_NOTIMPL, with_stats (count_error (count_not_impl (count_number n x))) s)
         end.
Proof.
  intros Hb Hrun Hn n x. pose proof (running_table _ _ _ _ _ Hb Hrun) as Ht. pose proof (handler_numbers (W := W) version) as [Hnd _].
  pose proof (dispatch_cases version f a5 s Ht Hn) as Hc. cbv zeta in Hc. fold n in Hc. fold x in Hc.
  destruct Hc as [[Hge ->]|[(Hlt & Hnel & ->)|(Hlt & h & nm & Hel & ->)]].
  - destruct (Z.leb_spec 256 n); [done|lia].
  - destruct (Z.leb_spec 256 n); [lia|]. destruct (list_find (λ y, fst (fst y) = n) (all_handlers version)) as [[i y]|] eqn:E; [|done].
    apply list_find_Some in E as (Hi & Hy & _). exfalso. apply Hnel, list_elem_of_fmap. exists y. split; [done|]. by eapply list_elem_of_lookup_2.
  - destruct (Z.leb_spec 256 n); [lia|]. apply list_elem_of_lookup_1 in Hel as [i Hi].
    rewrite (proj2 (list_find_Some _ _ i (n, h, nm))); [done|]. split; [done|]. split; [done|]. intros j y Hj Hlt' Hy.
    assert (i = j) as <-; [|lia]. apply (NoDup_lookup _ _ _ n Hnd); rewrite list_lookup_fmap; [exact (f_equal (fmap _) Hi)|].
    rewrite <- Hy. exact (f_equal (fmap _) Hj).
Qed.

(** ** Statistics *)
Section accounts.
Context `{PcbLayout} {W : Type} (version : list Z).
Implicit Types (s : system W) (ns : list Z).

(** The running system with the numbers of the calls programs have made, in order. *)
Inductive called (eh ei : Z) s0 : list Z → system W → Prop :=
  | called_init s : syscall_init version eh ei s0 = Ret s → called eh ei s0 [] s
  | called_call ns s f a5 e s' : called eh ei s0 ns s → 0 ≤ syscall_number f →
      syscall_dispatch f a5 s = Ret (e, s') → called eh ei s0 (ns ++ [syscall_number f]) s'
  | called_kernel ns s k : called eh ei s0 ns s → called eh ei s0 ns (with_kern k s).
Lemma called_running eh ei s0 ns s : called eh ei s0 ns s → running version eh ei s0 s.
Proof. induction 1; [by apply run_init|by eapply run_call|by apply run_kernel]. Qed.
Lemma running_called eh ei s0 s : running version eh ei s0 s → ∃ ns, called eh ei s0 ns s.
Proof.
  induction 1 as [s E|s f a5 e s' _ [ns IH] Hn E|s k _ [ns IH]]; [by exists []; constructor| |by exists ns; constructor].
  exists (ns ++ [syscall_number f]). by eapply called_call.
Qed.

Definition how_many (P : Z → bool) ns : Z := Z.of_nat (length (List.filter P ns)).
Lemma how_many_snoc P ns n : how_many P (ns ++ [n]) = how_many P ns + Z.b2z (P n).
Proof. unfold how_many. rewrite List.filter_app, length_app. cbn. destruct (P n); cbn; lia. Qed.

(** A number of the table that no handler is registered for, and one beyond the table. *)
Definition missing (n : Z) : bool := (n <? 256) && negb (bool_decide (n ∈ numbers (all_handlers (W := W) version))).
Definition out_of_table (n : Z) : bool := 256 <=? n.

Lemma number_200_missing : 200 ∉ numbers (all_handlers (W := W) version).
Proof. cbn. apply (bool_decide_unpack _). vm_compute. done. Qed.
Lemma number_256_missing : 256 ∉ numbers (all_handlers (W := W) version).
Proof. destruct (handler_numbers (W := W) version) as [_ Hr]. rewrite Forall_forall in Hr. intros Hin%Hr. lia. Qed.
Lemma one_missing : how_many missing [200; 256] = 1.
Proof.
  unfold how_many. cbn [List.filter]. assert (missing 200 = true) as -> by (unfold missing; by rewrite bool_decide_false by apply number_200_missing).
  done.
Qed.

(** What the counters hold after the calls [ns], as 64-bit words. *)
Record accounted ns (x : syscall_stats_t) : Prop := {
  ac_length : length (syscall_calls x) = 256%nat;
  ac_total : total_calls x = u64 (Z.of_nat (length ns));
  ac_number n : 0 ≤ n < 256 → zlookup (syscall_calls x) n = Some (u64 (how_many (λ k, k =? n) ns));
  ac_missing : not_impl_count x = u64 (how_many missing ns);
  ac_errors : errors x = u64 (how_many missing ns + how_many out_of_table ns) }.
Lemma u64_succ a : u64 (u64 a + 1) = u64 (a + 1).
Proof. apply Zplus_mod_idemp_l. Qed.

Lemma accounted_zero : accounted [] stats_zero.
Proof. split; try done. intros n Hn. unfold stats_zero. cbn [syscall_calls]. rewrite zlookup_nonneg, lookup_replicate_2 by lia. done. Qed.
Lemma count_number_spec n k ns x : accounted ns x → 0 ≤ n < 256 → 0 ≤ k < 256 →
  zlookup (syscall_calls (count_number n (count_call x))) k = Some (u64 (how_many (λ j, j =? k) (ns ++ [n]))).
Proof.
  intros Hx Hn Hk. rewrite how_many_snoc. cbn [syscall_calls count_number count_call]. rewrite (ac_number _ _ Hx n Hn).
  cbn [default from_option id]. destruct (Z.eqb_spec n k) as [->|Hne]; cbn [Z.b2z].
  - rewrite zlookup_zinsert_eq by (rewrite (ac_length _ _ Hx); lia). by rewrite u64_succ.
  - rewrite zlookup_zinsert_ne, (ac_number _ _ Hx k Hk) by done. by rewrite Z.add_0_r.
Qed.
Lemma accounted_call ns n x : accounted ns x → 0 ≤ n →
  accounted (ns ++ [n])
    (if out_of_table n then count_error (count_call x)
     else if missing n then count_error (count_not_impl (count_number n (count_call x)))
     else count_number n (count_call x)).
Proof.
  intros Hx Hn. pose proof Hx as [Hl Ht Hc Hm He].
  assert (u64 (total_calls x + 1) = u64 (Z.of_nat (length (ns ++ [n])))) as Ht'.
  { rewrite Ht, u64_succ, length_app. f_equal. cbn. lia. }
  destruct (out_of_table n) eqn:Ho; [|destruct (missing n) eqn:Hmi]; unfold out_of_table in Ho.
  - assert (missing n = false) as Hmi by (unfold missing; destruct (Z.ltb_spec n 256); [lia|done]).
    split; cbn; [done|done| | |]; rewrite ?how_many_snoc, ?Hmi; unfold out_of_table; rewrite ?Ho; cbn [Z.b2z].
    + intros k Hk. rewrite how_many_snoc, Hc by done. destruct (Z.eqb_spec n k); [lia|]. by rewrite Z.add_0_r.
    + by rewrite Z.add_0_r.
    + rewrite He, u64_succ. f_equal. unfold out_of_table. lia.
  - split; [by cbn; rewrite length_zinsert|done| | |];
      [intros k Hk; by apply count_number_spec; [done|lia|done]|..]; cbn;
      rewrite ?how_many_snoc, ?Hmi; unfold out_of_table; rewrite ?Ho; cbn [Z.b2z].
    + by rewrite Hm, u64_succ.
    + rewrite He, u64_succ. f_equal. unfold out_of_table. lia.
  - split; [by cbn; rewrite length_zinsert|done| | |];
      [intros k Hk; by apply count_number_spec; [done|lia|done]|..]; cbn;
      rewrite ?how_many_snoc, ?Hmi; unfold out_of_table; rewrite ?Ho; cbn [Z.b2z]; rewrite ?Z.add_0_r; [done|].
    rewrite He. done.
Qed.
Lemma dispatch_stats f a5 s e s' : holds_handlers (all_handlers version) (s_syscall_table (fw s)) → 0 ≤ syscall_number f →
  syscall_dispatch f a5 s = Ret (e, s') →
  let n := syscall_number f in let x := s_stats (fw s) in
  s_stats (fw s') =
    if out_of_table n then count_error (count_call x)
    else if missing n then count_error (count_not_impl (count_number n (count_call x)))
    else count_number n (count_call x).
Proof.
  intros Ht Hn E n x. unfold out_of_table, missing. fold n in Hn.
  destruct (dispatch_cases version f a5 s Ht Hn) as [[Hge E']|[(Hlt & Hno & E')|(Hlt & h & nm & Hin & E')]]; rewrite E' in E; fold n in Hge || fold n in Hlt.
  - injection E as _ <-. destruct (Z.leb_spec 256 n); [done|lia].
  - injection E as _ <-. destruct (Z.leb_spec 256 n); [lia|]. destruct (Z.ltb_spec n 256); [|lia]. by rewrite bool_decide_false.
  - apply outcome_bind_inv in E as (r & _ & [= _ <-]). destruct (Z.leb_spec 256 n); [lia|].
    rewrite bool_decide_true; [by rewrite andb_false_r|]. apply list_elem_of_fmap. by exists (n, h, nm).
Qed.
(** A call that no handler answers always returns. *)
Lemma call_unanswered eh ei s0 ns s n : bootable s0 → called eh ei s0 ns s → 0 ≤ n → n ∉ numbers (all_handlers (W := W) version) →
  ∃ s', called eh ei s0 (ns ++ [n]) s'.
Proof.
  intros Hb Hc Hn Hno. pose proof (running_table _ _ _ _ _ Hb (called_running _ _ _ _ _ Hc)) as Ht. set (f := mk_frame n 0 0 0 0 0 0).
  destruct (dispatch_cases version f 0 s Ht Hn) as [[_ E]|[(_ & _ & E)|(_ & h & nm & Hin & _)]];
    [eexists; exact (called_call _ _ _ _ _ f _ _ _ Hc Hn E)..|].
  destruct Hno. apply list_elem_of_fmap. by exists (n, h, nm).
Qed.
End accounts.

(** C19: The statistics are those of the calls made. At any time after [syscall_init], with
    [ns] the numbers programs have called so far, in any order and with any work of the
    kernel in between: [total_calls] is how many there were, [syscall_calls[n]] how
    many had the number [n], [not_impl_count] how many had a number below 256 that no
    handler is registered for, and [errors] these together with the ones whose number
    is beyond the table; each counter is a 64-bit word. *)
Theorem syscall_stats_add_up `{PcbLayout} {W} version eh ei (s0 s : system W) ns : bootable s0 → called version eh ei s0 ns s →
  accounted (W := W) version ns (s_stats (fw s)).
Proof.
  intros Hb Hrun. induction Hrun as [s E|ns s f a5 e s' Hrun IH Hn E|ns s k _ IH]; [| |done].
  - destruct Hb as (Hi & Ha & Hl & Hz). destruct (syscall_init_spec version eh ei s0 Hi Ha Hl) as (t & g & E' & _). rewrite E in E'.
    injection E' as ->. cbn [fw s_stats]. rewrite Hz. apply accounted_zero.
  - pose proof (running_table _ _ _ _ _ Hb (called_running _ _ _ _ _ _ Hrun)) as Ht.
    rewrite (dispatch_stats version _ _ _ _ _ Ht Hn E). by apply accounted_call.
Qed.

(** ** The busiest calls *)
Section top.
Implicit Types (x : Z * Z) (l top : list (Z * Z)).
#[local] Notation desc := (λ x y : Z * Z, fst y ≤ fst x).
Fixpoint ins x l : list (Z * Z) := match l with [] => [x] | y :: r => if fst y <? fst x then x :: y :: r else y :: ins x r end.
Lemma top_insert_ins c i top : length top = 5%nat → top_insert c i top = take 5 (ins (c, i) top).
Proof. destruct top as [|a [|b [|d [|e [|g [|]]]]]]; try done. intros _. cbn. by repeat case_match. Qed.
Lemma ins_perm x l : ins x l ≡ₚ x :: l.
Proof. induction l as [|y l IH]; cbn; [done|]. destruct (fst y <? fst x); [done|]. rewrite IH. constructor. Qed.
Lemma ins_sorted x l : StronglySorted desc l → StronglySorted desc (ins x l).
Proof.
  induction 1 as [|y l Hs IH Hf]; cbn; [by repeat constructor|]. destruct (Z.ltb_spec (fst y) (fst x)).
  - constructor; [by constructor|]. constructor; [lia|]. eapply Forall_impl; [done|]. cbn. lia.
  - constructor; [done|]. rewrite ins_perm. constructor; [lia|done].
Qed.
Lemma sorted_take n l : StronglySorted desc l → StronglySorted desc (take n l) ∧ ∀ x y, x ∈ take n l → y ∈ drop n l → fst y ≤ fst x.
Proof.
  intros Hs. rewrite <- (take_drop n l) in Hs. apply StronglySorted_app in Hs as (Hr & Hl & _). by split.
Qed.
(** The entries of [top] are the calls before [k] with the highest counts. *)
Record busiest (calls : list Z) (k : Z) (top : list (Z * Z)) : Prop := {
  bu_length : length top = 5%nat;
  bu_sorted : StronglySorted desc top;
  bu_real x : x ∈ top → x ≠ (0, 0) → 0 ≤ snd x < k ∧ zlookup calls (snd x) = Some (fst x);
  bu_once : NoDup (filter (λ x, 0 < fst x) top);
  bu_top i c : 0 ≤ i < k → zlookup calls i = Some c → (c, i) ∈ top ∨ ∀ x, x ∈ top → c ≤ fst x }.
Lemma busiest_step calls k top c : 0 ≤ k → zlookup calls k = Some c → busiest calls k top → busiest calls (k + 1) (top_insert c k top).
Proof.
  intros Hk Hc [Hl Hs Hr Ho Ht]. rewrite top_insert_ins by done. pose proof (ins_perm (c, k) top) as Hp.
  destruct (sorted_take 5 (ins (c, k) top) (ins_sorted _ _ Hs)) as [Hs' Hd].
  assert (∀ x, x ∈ take 5 (ins (c, k) top) → x = (c, k) ∨ x ∈ top) as Hin.
  { intros x Hx. apply elem_of_cons. rewrite <- Hp. rewrite <- (take_drop 5 (ins (c, k) top)). apply elem_of_app. by left. }
  assert (∀ x, x = (c, k) ∨ x ∈ top → x ∈ take 5 (ins (c, k) top) ∨ ∀ y, y ∈ take 5 (ins (c, k) top) → fst x ≤ fst y) as Hall.
  { intros x Hx. apply elem_of_cons in Hx. rewrite <- Hp, <- (take_drop 5 (ins (c, k) top)) in Hx. apply elem_of_app in Hx as [Hx|Hx]; [by left|right].
    intros y Hy. by apply Hd. }
  destruct (drop 5 (ins (c, k) top)) as [|y [|]] eqn:Hdrop; try (apply (f_equal length) in Hdrop; rewrite length_drop, Hp in Hdrop; cbn in Hdrop; lia).
  assert (take 5 (ins (c, k) top) ++ [y] ≡ₚ (c, k) :: top) as Hty by (rewrite <- Hdrop, take_drop; done).
  (* a new entry that is kept is at least the one it drives out *)
  assert (∀ d x, x ∈ take 5 (ins (c, k) top) → (∀ z, z ∈ top → d ≤ fst z) → d ≤ fst x) as Hkeep.
  { intros d x Hx Hle. assert (y = (c, k) ∨ y ∈ top) as Hy by (apply elem_of_cons; rewrite <- Hty; set_solver). destruct Hy as [->|Hy].
    - apply Hle. rewrite <- Permutation_cons_append in Hty.
      apply Permutation_cons_inv in Hty. by rewrite <- Hty.
    - specialize (Hle y Hy). specialize (Hd x y Hx ltac:(set_solver)). lia. }
  split; [|done| | |].
  - rewrite length_take. pose proof (Permutation_length Hp) as Hpl. cbn [length] in Hpl. lia.
  - intros x [->|Hx]%Hin Hne; [cbn; split; [lia|done]|]. destruct (Hr x Hx Hne). split; [lia|done].
  - assert (NoDup (filter (λ x, 0 < fst x) (ins (c, k) top))) as Hnd.
    { rewrite Hp, filter_cons. destruct (decide _); [|done]. constructor; [|done]. intros [Hpos Hel]%list_elem_of_filter. cbn in Hpos.
      destruct (Hr _ Hel) as [Hlt _]; [intros [= -> _]; lia|]. cbn in Hlt. lia. }
    rewrite <- (take_drop 5 (ins (c, k) top)), filter_app in Hnd. by apply NoDup_app in Hnd as [? _].
  - intros i d Hi Hd'. destruct (decide (i = k)) as [->|Hne].
    + assert (d = c) as -> by congruence. destruct (Hall (c, k)) as [?|Hle]; [by left|by left|by right].
    + destruct (Ht i d ltac:(lia) Hd') as [Hel|Hle]; [destruct (Hall (d, i)) as [?|?]; [by right|by left|by right]|].
      right. intros x Hx. by apply Hkeep.
Qed.
Lemma top_loop_busiest calls (l : list Z) k top : 0 ≤ k → busiest calls k top → (∀ j c, l !! j = Some c → zlookup calls (k + Z.of_nat j) = Some c) →
  busiest calls (k + Z.of_nat (length l)) (top_loop k l top).
Proof.
  revert k top. induction l as [|c l IH]; intros k top Hk Hb Hl; cbn [top_loop length]; [by rewrite Z.add_0_r|].
  replace (k + Z.of_nat (S (length l))) with (k + 1 + Z.of_nat (length l)) by lia. apply IH; [lia| |].
  - apply busiest_step; [done| |done]. rewrite <- (Hl 0%nat c eq_refl). f_equal. lia.
  - intros j d Hj. rewrite <- (Hl (S j) d Hj). f_equal. lia.
Qed.
Lemma busiest_start calls : busiest calls 0 (replicate 5 (0, 0)).
Proof.
  split; [done|by repeat constructor| |by constructor|lia]. intros x Hx Hne. by apply elem_of_replicate in Hx as [-> _].
Qed.
Lemma busiest_calls calls : busiest calls (Z.of_nat (length calls)) (top_loop 0 calls (replicate 5 (0, 0))).
Proof.
  apply (top_loop_busiest calls calls 0); [done|apply busiest_start|]. intros j c Hj. rewrite zlookup_nonneg by lia. by rewrite Z.add_0_l, Nat2Z.id.
Qed.
End top.

(** What [syscall_dump_stats] lists: calls that were made, each once with its count,
    busiest first; and a call that is missing in the list was made at most as often
    as the five that are there. *)
Theorem syscall_dump_stats_busiest {W} (s : system W) : let calls := syscall_calls (s_stats (fw s)) in let out := syscall_dump_stats s in
  (∀ i c nm, (i, c, nm) ∈ out → 0 < c ∧ zlookup calls i = Some c) ∧ NoDup out ∧ StronglySorted (λ x y, snd (fst y) ≤ snd (fst x)) out ∧
  ∀ i c, zlookup calls i = Some c → 0 < c → (∃ nm, (i, c, nm) ∈ out) ∨ (length out = 5%nat ∧ ∀ x, x ∈ out → c ≤ snd (fst x)).
Proof.
  intros calls out. subst out. unfold syscall_dump_stats. fold calls. destruct (busiest_calls calls) as [Hl Hs Hr Ho Ht].
  set (top := top_loop 0 calls (replicate 5 (0, 0))) in *. split_and!.
  - intros i c nm ([c' i'] & [= -> -> _] & [Hpos Hel]%list_elem_of_filter)%list_elem_of_fmap. cbn in *. split; [done|].
    destruct (Hr (c', i') Hel) as [_ ?]; [intros [= -> _]; lia|done].
  - apply NoDup_fmap_2_strong; [|done]. intros [c i] [c' i'] _ _ [= -> ->]. done.
  - clear -Hs. induction Hs as [|x l Hs IH Hf]; [constructor|]. rewrite filter_cons. destruct (decide _); [|done]. cbn. constructor; [done|].
    apply Forall_fmap, Forall_forall. intros y [_ Hy]%list_elem_of_filter. cbn. rewrite Forall_forall in Hf. by apply Hf.
  - intros i c Hc Hpos. destruct (Ht i c) as [Hel|Hle]; [by apply zlookup_Some_lt in Hc|done| |].
    + left. eexists. apply list_elem_of_fmap. exists (c, i). split; [reflexivity|]. by apply list_elem_of_filter.
    + right. assert (filter (λ x : Z * Z, 0 < fst x) top = top) as Hf.
      { clear -Hle Hpos. induction top as [|x top IH]; [done|]. rewrite filter_cons_True by (specialize (Hle x ltac:(left)); lia).
        f_equal. apply IH. intros y Hy. apply Hle. by right. }
      rewrite length_fmap, Hf. split; [done|]. intros x (y & -> & Hy)%list_elem_of_fmap. by apply Hle.
Qed.

(** ** Calls that use memory of the caller *)
Lemma length_char65 l : length (char65 l) = 65%nat.
Proof. unfold char65. rewrite length_take, length_app, length_replicate. lia. Qed.
Lemma length_kernel_info version : length (kernel_info version) = 390%nat.
Proof. unfold kernel_info. by rewrite !length_app, !length_char65. Qed.
Lemma char65_bytes l : Forall (λ b, 0 ≤ b < 256) l → Forall (λ b, 0 ≤ b < 256) (char65 l).
Proof. intros Hl. unfold char65. apply Forall_take, Forall_app. split; [done|]. by apply (Forall_replicate (λ b, 0 ≤ b < 256)). Qed.
Lemma codes_bytes s : Forall (λ b, 0 ≤ b < 256) (codes s).
Proof.
  unfold codes. apply Forall_fmap, Forall_forall. intros a _. cbn. pose proof (Ascii.N_ascii_bounded a). lia.
Qed.
Lemma kernel_info_bytes version : Forall (λ b, 0 ≤ b < 256) version → Forall (λ b, 0 ≤ b < 256) (kernel_info version).
Proof.
  intros Hv. unfold kernel_info. rewrite !Forall_app. split_and!; apply char65_bytes; try apply codes_bytes; [done|].
  apply Forall_app. split; [apply codes_bytes|done].
Qed.

(** [sys_uname] fills a buffer of the caller with the six fields, 390 bytes that can be
    read back, and changes no other byte of memory and no translation; a pointer
    outside the user half is refused without a change. *)
Theorem sys_uname_fills `{PcbLayout} {W} version (f : syscall_frame_t) (k : kernel W) c :
  let p := pages (vmm (procs k)) in
  Forall (λ b, 0 ≤ b < 256) version → proc_current k = Some c → is_u64 (arg0 f) →
  if decide (USER_BASE ≤ arg0 f < USER_END ∧ arg0 f + 390 ≤ USER_END) then
    page_inv p (cr3 k) → user_buffer (cr3 k) (arg0 f) 390 p →
    ∃ p', sys_uname version f k = Ret (Returns SYS_OK, with_procs (with_vmm (with_pages p' (vmm (procs k))) (procs k)) k) ∧
      user_copy_from_user (cr3 k) (replicate 390 0) (arg0 f) 390 p' = Ret (390, kernel_info version) ∧
      (∀ u, mmu p' (cr3 k) u = mmu p (cr3 k) u) ∧
      ∀ q, (∀ i e, 0 ≤ i < 390 → mmu p (cr3 k) (arg0 f + i) ≠ Some (q, e)) → byte_at (phys_mem p') q = byte_at (phys_mem p) q
  else sys_uname version f k = Ret (Returns SYS_ERR_INVAL, k).
Proof.
  intros p Hv Hc Hu. subst p. unfold sys_uname. rewrite Hc. pose proof (user_validate_pointer_spec (arg0 f) sizeof_utsname true Hu ltac:(unfold is_u64, sizeof_utsname; lia)) as Hval.
  unfold sizeof_utsname in *. destruct (decide _) as [Hr|Hr].
  - rewrite (proj2 Hval Hr). cbn [negb]. intros Hs Hb. pose proof (length_kernel_info version) as Hl.
    replace 390 with (Z.of_nat (length (kernel_info version))) in * by (rewrite Hl; done).
    destruct (copy_to_user_spec (cr3 k) (arg0 f) (kernel_info version) _ Hs Hb (kernel_info_bytes version Hv) ltac:(lia)) as (p' & -> & Hcp).
    rewrite outcome_bind_ret. destruct (Z.ltb_spec (Z.of_nat (length (kernel_info version))) 0); [lia|]. exists p'. split; [done|].
    split; [apply (copy_from_user_spec (cr3 k) (arg0 f) (kernel_info version) (pages (vmm (procs k)))); [done|lia|done|by rewrite length_replicate, Hl]|]. split; apply Hcp.
  - destruct (user_validate_pointer (arg0 f) 390 true); [|done]. exfalso. by apply Hr, Hval.
Qed.

(** [sys_write] prints its format and not the text of the caller: the formatter has no
    precision. The result is the number of bytes asked for. *)
Definition write_items : list item := (Lit <$> codes "[USER OUT] ") ++ [Spec false false [] 0 (COther 46)] ++ (Lit <$> codes "*s").
Theorem sys_write_prints_no_text {D} `{UartLaws D} polls (f : syscall_frame_t) (k : kernel (machine D drivers)) :
  (tx_delay < polls)%nat → serial_log polls (klogs k) → g_log_level (klogs k) ≤ KLOG_LEVEL_INFO → s32 (arg0 f) = 1 →
  ∃ l, sys_write f k = Ret (Returns (s64 (arg2 f)), with_klogs l k) ∧
    tx_sent (hw (world l)) = tx_sent (hw (world (klogs k))) ++ ansi "[32m" ++ codes "[INFO ] [USER OUT] .*s" ++ ansi "[0m".
Proof.
  intros Hp Hk Hl Hfd. unfold sys_write, print_user. rewrite Hfd. cbn [Z.eqb Pos.eqb orb].
  assert (prints (codes "[USER OUT] %.*s" ++ [0]) 0 [s32 (arg2 f); arg1 f] (codes "[USER OUT] .*s")) as Hpr.
  { exists (λ _, None), write_items. split; [done|]. split; [|split; [|reflexivity]].
    - unfold write_items. rewrite !Forall_app. split_and!; [apply Forall_fmap; vm_compute; repeat constructor; lia| |apply Forall_fmap; vm_compute; repeat constructor; lia].
      apply Forall_singleton. cbn [wf_item]. split; [done|]. split; [constructor|]. split; [done|]. split; [cbn; lia|]. split; [lia|]. split; [lia|].
      rewrite !not_elem_of_cons. split_and!; try lia. apply not_elem_of_nil.
    - apply (cstr_here [] (codes "[USER OUT] %.*s") []). vm_compute. by repeat constructor. }
  destruct (klog_log_serial polls Hp KLOG_LEVEL_INFO _ _ _ _ (klogs k) Hk Hl Hpr) as (l & -> & _ & _ & h & Hw & Hs). rewrite !outcome_bind_ret.
  exists l. split; [done|]. rewrite Hw. cbn [hw with_hw]. rewrite Hs. done.
Qed.

(** ** The way in and out *)

(** The instruction [syscall]: whatever number below 65536 a program asks for, the call
    of number 16 is dispatched, which does not exist; no handler runs, and RAX holds
    the number again when the program goes on. *)
Theorem syscall_entry_dispatches_16 `{PcbLayout} {W} version eh ei (s0 s : system W) r :
  bootable s0 → running version eh ei s0 s → 0 ≤ rax r < 65536 →
  syscall_handler r s = Ret (Some r, with_stats (count_error (count_not_impl (count_number 16 (count_call (s_stats (fw s)))))) s).
Proof.
  intros Hb Hrun Hr. unfold syscall_handler. assert (Z.land (rax r) (~64 0xFFFF) = 0) as ->.
  { apply Z.bits_inj'. intros i Hi. rewrite Z.land_spec, Z.bits_0. destruct (Z.ltb_spec i 16).
    - assert (i ∈ seqZ 0 16) as Hel by (apply elem_of_seqZ; lia). replace (Z.testbit (~64 0xFFFF) i) with false; [by rewrite andb_false_r|].
      repeat (apply elem_of_cons in Hel as [->|Hel]; [reflexivity|]). by apply not_elem_of_nil in Hel.
    - by rewrite (testbit_above (rax r) 16) by lia. }
  change (Z.lor 0 16) with 16. set (f := mk_frame 16 _ _ _ _ _ _). pose proof (running_table _ _ _ _ _ Hb Hrun) as Ht.
  destruct (dispatch_cases version f (r9 r) s Ht ltac:(done)) as [[Hge _]|[(_ & _ & ->)|(_ & h & nm & Hel & _)]]; [by cbn in Hge| |].
  - rewrite outcome_bind_ret. by destruct r.
  - exfalso. assert (16 ∈ numbers (all_handlers (W := W) version)) as Hin by (apply list_elem_of_fmap; by exists (16, h, nm)).
    revert Hin. cbn. rewrite !not_elem_of_cons || idtac. set_solver by lia.
Qed.

(** The instruction [int 0x80]: when the call has returned, RAX gets the caller's R15
    and not the result, and the return instruction takes the flags for the address and
    the stack pointer for the code segment. *)
Theorem int80_entry_returns_garbage `{PcbLayout} {W} uninit rip cs rflags rsp ss r (s s' : system W) v :
  syscall_dispatch_int80 uninit (mk_frame (rax r) (rdi r) (rsi r) (rdx r) (r10 r) (r8 r) (r9 r)) s = Ret (Returns v, s') →
  int0x80_handler uninit [rip; cs; rflags; rsp; ss] r s = Ret (Some (with_rax (r15 r) r, [rflags; rsp; ss]), s').
Proof. intros E. unfold int0x80_handler. by rewrite E. Qed.

(** What [syscall_init] programs: the entry point and the mask of the interrupt flag, but
    it sets bit 11 of CR4 and leaves the register EFER alone, whose bit 0 enables the
    instruction. [sysret] adds 16 to the selector in STAR, and the selector it loads
    is that of the task state segment. The gate of vector 128 is not for user code. *)
Definition EFER := 0xC0000080.
Definition sysret_cs (star : Z) : Z := Z.lor (Z.shiftr star 48 + 16) 3.
Theorem syscall_init_programs `{PcbLayout} {W} version eh ei (s : system W) : bootable s →
  ∃ s' g, syscall_init version eh ei s = Ret s' ∧ kern s' = kern s ∧
    rdmsr 0xC0000082 (proc s') = Some eh ∧ rdmsr 0xC0000084 (proc s') = Some 0x200 ∧
    rdmsr EFER (proc s') = rdmsr EFER (proc s) ∧ Z.testbit (cr4 (proc s')) 11 = true ∧
    (sysret_cs <$> rdmsr 0xC0000081 (proc s')) = Some (Z.lor GDT_TSS 3) ∧
    zlookup (idt (proc s')) 128 = Some g ∧ g_dpl (decode_gate g) = 0.
Proof.
  intros (Hi & Ha & Hl & _). destruct (syscall_init_spec version eh ei s Hi Ha Hl) as (t & g & E & _ & Hg). do 2 eexists. split; [exact E|].
  unfold rdmsr, EFER. cbn [kern proc msrs cr4 idt]. split; [done|]. rewrite !lookup_insert_eq, !(lookup_insert_ne _ _ 0xC0000080) by done.
  rewrite (lookup_insert_ne _ 0xC0000084 0xC0000082), (lookup_insert_ne _ 0xC0000081 0xC0000082), lookup_insert_eq by done.
  rewrite (lookup_insert_ne _ 0xC0000084 0xC0000081), lookup_insert_eq by done. split_and!; try done.
  - rewrite Z.lor_spec. by rewrite orb_true_r.
  - apply zlookup_zinsert_eq. lia.
  - rewrite Hg. reflexivity.
Qed.

(** ** Example *)
Section demo.
#[local] Existing Instance demo_pcb_layout.
Definition demo_version : list Z := codes "0.1.0".
Definition demo_sys : system (machine board drivers) :=
  mk_sys (mk_kernel (demo_proc []) demo_log 4096) (mk_fw (replicate 256 zero_sentry) stats_zero false)
    (mk_cpu ∅ 0x20 0x800 (replicate 256 zero_gate)).
Lemma demo_bootable : bootable demo_sys.
Proof. repeat split. Qed.
(** The program asks for the test call, which returns its argument. *)
Lemma syscall_dispatch_routes_witness : ∃ s s', running demo_version 0x100000 0x100100 demo_sys s ∧
  syscall_dispatch (mk_frame SYS_TEST 42 0 0 0 0 0) 0 s = Ret (Returns 42, s').
Proof.
  destruct (syscall_init_spec demo_version 0x100000 0x100100 demo_sys eq_refl eq_refl eq_refl) as (t & g & E & _ & _).
  eexists _, _. split; [apply run_init; exact E|].
  rewrite (syscall_dispatch_routes demo_version 0x100000 0x100100 demo_sys _ _ 0 demo_bootable (run_init _ _ _ _ _ E)) by done.
  reflexivity.
Defined.
(** A call of a number nothing is registered for, then one beyond the table. *)
Lemma syscall_stats_witness : ∃ s, called demo_version 0x100000 0x100100 demo_sys [200; 256] s ∧
  errors (s_stats (fw s)) = 2 ∧ not_impl_count (s_stats (fw s)) = 1 ∧ zlookup (syscall_calls (s_stats (fw s))) 200 = Some 1.
Proof.
  destruct (syscall_init_spec demo_version 0x100000 0x100100 demo_sys eq_refl eq_refl eq_refl) as (t & g & E & _).
  destruct (call_unanswered demo_version _ _ _ _ _ 200 demo_bootable (called_init _ _ _ _ _ E)) as [s1 H1];
    [lia|apply number_200_missing|].
  destruct (call_unanswered demo_version _ _ _ _ s1 256 demo_bootable H1) as [s2 H2]; [lia|apply number_256_missing|].
  exists s2. split; [exact H2|].
  destruct (syscall_stats_add_up demo_version 0x100000 0x100100 demo_sys _ _ demo_bootable H2) as [_ _ Hn Hm He].
  rewrite one_missing in Hm, He. split; [exact He|]. split; [exact Hm|]. apply (Hn 200). lia.
Defined.
End demo.
